(* ===== verification/_CoqProject ===== *)
-Q . S2P
Prelude.v
Store.v
GoStd.v
Config.v
External.v
Ethereum.v
Keys.v
OutgoingTx.v
Valset.v
Claims.v
Keeper.v
Params.v
DelegateKeys.v
Evidence.v
Msgs.v
Attestation.v
OracleCorrect.v
OracleObserve.v
OracleTally.v
Registry.v
ValsetKeeper.v
ValsetCorrect.v
IbcForward.v
LogicCall.v
Pool.v
Batch.v
EndBlock.v
ValsetTracking.v
MsgServer.v
ConfirmCorrect.v
DelegateCorrect.v
Governance.v
Genesis.v
Handler.v
Invariants.v
HandlerFrames.v
HandlerCorrect.v
ForwardCorrect.v
Transfers.v
PoolCorrect.v
BatchCorrect.v
BatchLifecycle.v
EndBlockCorrect.v
Escrow.v
SendCorrect.v
EvidenceCorrect.v
ServerCorrect.v
GovernanceCorrect.v
AuditCorrect.v
GenesisCorrect.v
Instances.v
Scenario.v
Witnesses.v
Coins.v
Auction.v
AuctionServer.v
AuctionBlock.v
AuctionLedger.v
AuctionBooks.v
AuctionSales.v
AuctionPeriodEnd.v
AuctionEnd.v
AuctionBid.v
AuctionCorrect.v
AuctionGenesis.v
AuctionWitnesses.v
Recovery.v
RecoveryRefund.v
RecoveryRemap.v
RecoveryCorrect.v
RecoveryResult.v
Bech32Ibc.v
Bech32IbcCorrect.v
Queries.v
QueriesCorrect.v
Migrations.v
MigrationsCorrect.v
MercuryCorrect.v
Application.v
ServiceWitnesses.v
