(* ===== verification/Prelude.v ===== *)
(** * Verification of the Gravity Bridge Cosmos module

    Gravity Bridge moves tokens between Ethereum and a Cosmos chain.  This library
    models the Cosmos side, the Go modules under src/module/x/gravity,
    src/module/x/auction and src/module/x/bech32ibc, and the checks and upgrades of
    src/module/app, as functions on an explicit chain state, and proves what
    makes them correct.

    ** The program

    Users send tokens to Ethereum: a transfer enters the pool (keeper/pool.go),
    batches are built from the pool by fee (keeper/batch.go), validators sign them,
    and when Ethereum has executed a batch its vouchers are burnt.  Events on
    Ethereum come back as claims of the validators' orchestrators: votes on
    attestations (keeper/attestation.go); when more than 66% of the power agrees the
    event is observed and its handler runs (keeper/attestation_handler.go): it mints
    or releases deposits, executes batches, registers ERC20s, records validator sets.
    At the end of every block (abci.go) unsigned work is slashed, attestations are
    tallied, timed-out batches are cancelled and a new validator set is requested
    when the powers have moved (keeper/keeper_valset.go).  Which denom belongs to
    which ERC20 is kept in a registry (keeper/cosmos-originated.go).

    Part of the fees goes to a pool that the auction module sells: in every period
    each token of the pool is on sale for bids in the native token
    (x/auction/keeper/msg_server.go); at its end (x/auction/abci.go) the winners are
    paid, the bids burnt or given to the community pool, and what was not sold is put
    up again with what the pool has collected.

    ** The model

    A method of the keeper is a function of the monad [M] below: it reads and writes
    a [State] and returns a value, fails with an error value of [gerror], or panics.
    [State] (file [Keeper]) is the module's store, one map per kind of object keyed
    by the real byte keys, the state [W] of the other modules, the block height and
    the events; the auction module has its own, [AState] (file [Auction]).  Byte keys, big-endian integers, MD5 prefixes and the ranges of the
    store's iterators are those of the code; uint64 arithmetic wraps ([u64]);
    sdkmath.Int panics above 256 bits ([int_check]).  Iterators visit a snapshot of
    their range in key order.  Code that is not in the repository is an interface, a
    class of operations with a class of laws: go-ethereum's addresses, the SDK's
    bech32 and coins, x/bank, x/staking, ibc-transfer, the protobuf codec, hashing,
    ECDSA recovery and ABI packing.  [Instances], [AuctionWitnesses] and
    [ServiceWitnesses] implement them, so the model runs.  The Mercury migration, which
    rewrites the whole store, works on the raw store of byte keys and byte values.

    ** The files

    - [Prelude]: bytes, big-endian integers, the monad, loops, [readonly], [frame] and
      [blind] (what a method leaves alone or does not look at) with their tactics, sums.
    - [Store]: prefixRange and iterators; [GoStd]: strings, hexadecimal, MD5;
      [Config]: shared names; [External]: interfaces; [Ethereum], [Keys], [OutgoingTx], [Valset], [Claims]:
      the types of src/module/x/gravity/types.
    - [Keeper]: state, counters, parameters, blacklist, checkpoints.
    - [DelegateKeys], [Attestation], [Registry], [ValsetKeeper], [IbcForward],
      [LogicCall], [Pool], [Batch], [EndBlock], [Handler]: one file per component of
      src/module/x/gravity/keeper and abci.go.
    - [OracleCorrect], [OracleObserve], [OracleTally]: votes, observation, tally; the
      handler is the interface [HandlerFrame], which [HandlerFrames] discharges for
      the real one; the oracle's reachable states, with the proposal that rolls it back,
      are in [GovernanceCorrect].
    - [Transfers], [PoolCorrect], [BatchCorrect], [BatchLifecycle], [Escrow]: the
      transfers in flight, each operation's specification, and solvency over all
      reachable states.
    - [ValsetCorrect], [ValsetTracking], [HandlerCorrect], [ForwardCorrect],
      [EndBlockCorrect]: validator sets, deposits, IBC forwards, slashing, time-outs.
    - [Params], [Evidence], [Msgs], [MsgServer], [Governance], [Genesis], [Invariants]:
      parameters (types/genesis.go, keeper_params.go), evidence and signatures
      (keeper/evidence.go, types/ethereum_signer.go), the messages and their handlers
      (types/msgs.go, keeper/msg_server.go), the proposals
      (keeper/governance_proposals.go), import and export (keeper/genesis.go), the
      runtime invariants (keeper/invariants.go).
    - [SendCorrect], [ConfirmCorrect], [DelegateCorrect], [EvidenceCorrect],
      [ServerCorrect], [GovernanceCorrect], [AuditCorrect], [GenesisCorrect]: what the
      message handlers, the proposals, the invariants and the genesis guarantee.
    - [Coins]: sdk.Coins; [Auction], [AuctionServer], [AuctionBlock]: the auction
      module's types and keeper (x/auction/types, keeper/auction.go, auction_period.go,
      keeper.go), its messages (keeper/msg_server.go), its end blocker, invariants and
      genesis (abci.go, keeper/invariants.go, keeper/genesis.go).
    - [AuctionLedger], [AuctionBooks]: what its payments do to balances, and the
      invariant of its state; [AuctionSales], [AuctionPeriodEnd], [AuctionEnd]:
      the end of a period step by step; [AuctionBid], [AuctionCorrect],
      [AuctionGenesis]: bids, the module's promises and reachable states, export and
      import.
    - [Recovery]: the recovery upgrade (app/upgrades/recovery, app.go); [RecoveryRefund],
      [RecoveryRemap], [RecoveryCorrect]: refunding and remapping a token, then all of
      them; [RecoveryResult]: the orphaned confirmations and the whole handler.
    - [Bech32Ibc], [Bech32IbcCorrect]: the table of routes of x/bech32ibc, its contract,
      and the deposits that follow it; [Queries], [QueriesCorrect]: what nodes answer
      (keeper/grpc_query.go).
    - [Migrations]: the migrations of the store, versions 1 to 7 (keeper/migrations.go,
      migrations/v1 to v7); [MigrationsCorrect]: attestations and parameters;
      [MercuryCorrect]: the rewrite of every key by the Mercury upgrade, stage by stage.
    - [Application]: the checks of a transaction (app/ante), the checks at the first block
      (app/assert.go), the work of the Mercury and Pleiades upgrades on x/staking and
      x/distribution (app/upgrades/v2, pleiades), with their properties.
    - [Instances], [Scenario], [Witnesses], [AuctionWitnesses], [ServiceWitnesses]: concrete interfaces, a concrete chain, and every theorem
      applied to it.

    ** What is shown

    - Solvency: in every reachable state of the transfer subsystem the module holds
      the amounts and fees of all transfers in flight ([bridge_solvent]), as long as
      nobody holds vouchers of a contract that pays out in another denom ([no_shadows]):
      the code accepts such vouchers, and sending them breaks the books; sending and
      cancelling are inverse; batches are optimal, conserve transfers and become ever
      more profitable; executing a batch completes whenever its payment can be settled.
    - The oracle: votes are counted once, events are observed in order, at most once
      each and with more than 66% of the power, whatever votes, tallies, prunings and
      roll-backs come in which order ([oracle_safe]); the tally observes everything that
      can be observed, does nothing while the bridge is paused, and stops only for the
      listed reasons: a handler or the power query panics, or an event's Ethereum height
      lies below the last one observed ([attestationTally_spec]).
    - Deposits and forwards create and lose no coins, and a deposit goes to its receiver,
      to a queued forward for him, or to the community pool; the registry is a bijection and
      the two classifications agree; validator sets are normalised, unique, canonical
      and never lag the powers by more than 5%; a block slashes a validator at most
      once, and panics when two batches of one token are due ([batchSlashing_halts]);
      timed-out batches are cancelled and no others.
    - Encodings: prefix iteration, pool key order, checkpoint keys, claim hashes and
      denoms round trip.
    - The message server: sending pays exactly amount, fee and chain fee, split between
      stakers and auction pool ([SendToEth_spec]); confirmations are authentic and
      claims come from bonded validators; delegations are set once; evidence slashes
      exactly the signer of a checkpoint that is not on record, never the signer of a batch
      the bridge has built; a halted bridge refuses traffic; parameters stay valid.
    - Governance: unhalting removes exactly the later attestations, resets their
      voters and changes nothing else; airdrops move exactly what they announce from the community pool; the
      whitelist is changed entry by entry or not at all.
    - Audit and genesis: the balance invariant passes exactly when the books agree on
      every token held; export and import restore every transfer, which never stop the
      import ([genesis_transfers_roundtrip]), while delegate keys always do
      ([InitGenesis_no_delegates]).
    - Auctions: a bid is accepted under the documented conditions, refunds the bidder it
      replaces and changes no other balance, and panics only when the highest bidder
      spells his address in the other case ([Bid_outcome]); at the end of a period the
      winners get exactly what they won, the rest is on sale again, and every assertion
      of the end blocker holds ([auction_period_closes]), unless a token was withdrawn
      meanwhile, which halts the chain ([withdrawn_token_halts]); in every reachable
      state the module holds exactly what it owes ([auctions_solvent]); an export is
      restored exactly when its auctions are numbered from one and can still be sold and
      the period is running on the importing chain ([auction_genesis_roundtrip]).
    - The recovery upgrade: its remapping step refunds exactly the transfers of the compromised tokens
      and restores the registry ([recovery_remaps]), and panics when they were not
      escrowed in the tokens' own denoms ([recovery_needs_escrow]); the upgrade leaves a
      paused bridge whose holdings and registry are classified ([recovery_result]).
    - The bech32ibc module implements a table of routes ([bech32ibc_refines]) that an
      export restores, and deposits are forwarded along its routes and never under the
      chain's own prefix ([deposits_follow_routes]).
    - Queries: orchestrators are told of what they have not signed, up to the queries'
      limits ([signing_queries_complete]), and senders of exactly their transfers
      ([pending_transfers_exact]).
    - Migrations: the Mercury upgrade brings every object of a version 1 store under the
      key of version 2, which the module still uses, and leaves nothing else
      ([MigrateStore_v2_spec]); the upgrade to version 7 moves every attestation with its
      votes to its new key and re-establishes the oracle's invariant, or panics
      ([Migrate6to7_keeps_votes]); the one to version 6 carries all parameters over but
      one ([Migrate5to6_spec]).
    - The application admits only transactions whose signatures were verified and whose
      validator messages respect the minimum commission, as far as it looks
      ([AnteHandler_admits]); it starts only with a consistent configuration
      ([firstBeginBlocker_spec]); the Mercury upgrade makes the community pool agree with
      what the module holds, or refuses ([fixDistributionPoolBalance_spec]).

    Loops run over finite lists of stored entries and the model has no fuel:
    every definition is total, and the theorems above say that the code returns (or
    with what it fails or panics), not only what holds if it returns.

    ** Not modelled

    The command line and the node's commands, the wiring and start-up of the
    application and its simulator, the upgrades that only run migrations of other modules
    or call them (app/upgrades other than v2, pleiades and recovery), the export for a
    fresh start at height zero (app/export.go), which only calls other modules, and
    generated protobuf code (its structs are the records here): they hold no state and no
    rule of the bridge.  Gas, logging and telemetry are ignored. *)

From stdpp Require Import base gmap list strings sorting.

(** ** Bytes *)

(** A Go [[]byte] is a list of 8-bit integers. *)
Abbreviation bytes := (list Z).

Definition byte_ok (b : Z) : Prop := (0 ≤ b < 256)%Z.
Definition bytes_ok (l : bytes) : Prop := Forall byte_ok l.

(** Lexicographic comparison, Go's [bytes.Compare]. *)
Fixpoint bytes_cmp (a b : bytes) : comparison :=
  match a, b with
  | [], [] => Eq
  | [], _ :: _ => Lt
  | _ :: _, [] => Gt
  | x :: a', y :: b' =>
      match (x ?= y)%Z with Eq => bytes_cmp a' b' | c => c end
  end.

Definition bytes_leb (a b : bytes) : bool :=
  match bytes_cmp a b with Gt => false | _ => true end.
Definition bytes_ltb (a b : bytes) : bool :=
  match bytes_cmp a b with Lt => true | _ => false end.
Definition bytes_le (a b : bytes) : Prop := bytes_leb a b = true.
Definition bytes_lt (a b : bytes) : Prop := bytes_ltb a b = true.

#[global] Instance bytes_le_dec : RelDecision bytes_le.
Proof. intros a b. unfold bytes_le. apply _. Defined.
#[global] Instance bytes_lt_dec : RelDecision bytes_lt.
Proof. intros a b. unfold bytes_lt. apply _. Defined.

(** ** Proof automation shared by the whole development *)

Create HintDb gravity.

Ltac zbool :=
  repeat match goal with
  | H : (_ && _)%bool = true |- _ => apply andb_prop in H; destruct H
  | H : (_ =? _)%Z = true |- _ => apply Z.eqb_eq in H
  | H : (_ =? _)%Z = false |- _ => apply Z.eqb_neq in H
  | H : (_ <? _)%Z = true |- _ => apply Z.ltb_lt in H
  | H : (_ <? _)%Z = false |- _ => apply Z.ltb_ge in H
  | H : (_ <=? _)%Z = true |- _ => apply Z.leb_le in H
  | H : (_ <=? _)%Z = false |- _ => apply Z.leb_gt in H
  | H : bool_decide _ = true |- _ => apply bool_decide_eq_true in H
  | H : bool_decide _ = false |- _ => apply bool_decide_eq_false in H
  end.

(** ** The lexicographic order on keys *)

Lemma bytes_cmp_refl a : bytes_cmp a a = Eq.
Proof. induction a as [|x a IH]; [done|]. simpl. by rewrite Z.compare_refl. Qed.

Lemma bytes_cmp_eq a b : bytes_cmp a b = Eq ↔ a = b.
Proof.
  split; [|intros ->; apply bytes_cmp_refl].
  revert b. induction a as [|x a IH]; intros [|y b]; simpl; try done.
  destruct (x ?= y)%Z eqn:E; try done. apply Z.compare_eq in E as ->.
  intros H. f_equal. by apply IH.
Qed.

Lemma bytes_cmp_antisym a b : bytes_cmp b a = CompOpp (bytes_cmp a b).
Proof.
  revert b. induction a as [|x a IH]; intros [|y b]; simpl; try done.
  rewrite (Z.compare_antisym x y). destruct (x ?= y)%Z; simpl; auto.
Qed.

Lemma bytes_cmp_lt_trans a b c :
  bytes_cmp a b = Lt → bytes_cmp b c = Lt → bytes_cmp a c = Lt.
Proof.
  revert b c. induction a as [|x a IH]; intros [|y b] [|z c]; simpl; try done.
  destruct (Z.compare_spec x y), (Z.compare_spec y z), (Z.compare_spec x z);
    try done; try lia; eauto.
Qed.

(** Comparing keys whose first components have the same length compares the
    components in order. *)
Lemma bytes_cmp_app a b x y :
  length a = length b →
  bytes_cmp (a ++ x) (b ++ y) =
  match bytes_cmp a b with Eq => bytes_cmp x y | c => c end.
Proof.
  revert b. induction a as [|u a IH]; intros [|v b]; simpl; try done.
  intros [=]. rewrite IH by done. by destruct (u ?= v)%Z.
Qed.

Lemma bytes_le_not_lt a b : bytes_le a b ↔ ¬ bytes_lt b a.
Proof.
  unfold bytes_le, bytes_lt, bytes_leb, bytes_ltb.
  rewrite (bytes_cmp_antisym a b). by destruct (bytes_cmp a b).
Qed.

Lemma bytes_lt_not_le a b : bytes_lt a b ↔ ¬ bytes_le b a.
Proof.
  unfold bytes_le, bytes_lt, bytes_leb, bytes_ltb.
  rewrite (bytes_cmp_antisym a b). by destruct (bytes_cmp a b).
Qed.

Lemma bytes_le_lt_eq a b : bytes_le a b ↔ bytes_lt a b ∨ a = b.
Proof.
  rewrite <- bytes_cmp_eq. unfold bytes_le, bytes_lt, bytes_leb, bytes_ltb.
  destruct (bytes_cmp a b); intuition congruence.
Qed.

#[global] Instance bytes_lt_irrefl : Irreflexive bytes_lt.
Proof. intros a. unfold complement, bytes_lt, bytes_ltb. by rewrite bytes_cmp_refl. Qed.

#[global] Instance bytes_lt_trans : Transitive bytes_lt.
Proof.
  intros a b c. unfold bytes_lt, bytes_ltb.
  destruct (bytes_cmp a b) eqn:E1, (bytes_cmp b c) eqn:E2; try done.
  by rewrite (bytes_cmp_lt_trans _ _ _ E1 E2).
Qed.

#[global] Instance bytes_le_trans : Transitive bytes_le.
Proof.
  intros a b c. rewrite !bytes_le_lt_eq.
  intros [H1| ->] [H2| ->]; eauto. left. by etrans.
Qed.

#[global] Instance bytes_le_total : Total bytes_le.
Proof.
  intros a b. unfold bytes_le, bytes_leb. rewrite (bytes_cmp_antisym a b).
  destruct (bytes_cmp a b); auto.
Qed.

#[global] Instance bytes_le_antisym : AntiSymm (=) bytes_le.
Proof.
  intros a b. rewrite !bytes_le_lt_eq. intros [H1|?] [H2|?]; try congruence.
  exfalso. eapply (irreflexivity bytes_lt a). by etrans.
Qed.

(** ** Big-endian integers *)

Fixpoint be_bytes (n : nat) (z : Z) : bytes :=
  match n with
  | O => []
  | S m => (z / 256 ^ Z.of_nat m) mod 256 :: be_bytes m z
  end%Z.

Definition be_val (l : bytes) : Z := foldl (λ acc b, acc * 256 + b)%Z 0%Z l.

Lemma length_be_bytes n z : length (be_bytes n z) = n.
Proof. induction n; simpl; congruence. Qed.

Lemma be_bytes_ok n z : bytes_ok (be_bytes n z).
Proof.
  induction n; constructor; [|done]. apply Z.mod_pos_bound. lia.
Qed.

Lemma mod_pow_succ (n : nat) (z : Z) :
  (z mod 256 ^ Z.of_nat (S n) =
   z mod 256 ^ Z.of_nat n + 256 ^ Z.of_nat n * ((z / 256 ^ Z.of_nat n) mod 256))%Z.
Proof.
  rewrite Nat2Z.inj_succ, Z.pow_succ_r, (Z.mul_comm 256) by lia.
  apply Z.rem_mul_r; lia.
Qed.

(** Big-endian encodings of the same width are ordered as the numbers are. *)
Lemma bytes_cmp_be n a b :
  bytes_cmp (be_bytes n a) (be_bytes n b) =
  (a mod 256 ^ Z.of_nat n ?= b mod 256 ^ Z.of_nat n)%Z.
Proof.
  induction n as [|n IH]; [by rewrite !Z.mod_1_r|].
  cbn [be_bytes bytes_cmp]. rewrite IH, !mod_pow_succ.
  pose proof (Z.mod_pos_bound a (256 ^ Z.of_nat n)) as Ha.
  pose proof (Z.mod_pos_bound b (256 ^ Z.of_nat n)) as Hb.
  assert (0 < 256 ^ Z.of_nat n)%Z as Hp by (apply Z.pow_pos_nonneg; lia).
  specialize (Ha Hp). specialize (Hb Hp).
  set (p := (256 ^ Z.of_nat n)%Z) in *.
  set (qa := ((a / p) mod 256)%Z). set (qb := ((b / p) mod 256)%Z).
  destruct (Z.compare_spec qa qb) as [->|Hq|Hq].
  - rewrite <- !(Z.add_comm (p * qb)). by rewrite Z.add_compare_mono_l.
  - symmetry. apply Z.compare_lt_iff. nia.
  - symmetry. apply Z.compare_gt_iff. nia.
Qed.

Lemma bytes_cmp_be_small n a b :
  (0 ≤ a < 256 ^ Z.of_nat n)%Z → (0 ≤ b < 256 ^ Z.of_nat n)%Z →
  bytes_cmp (be_bytes n a) (be_bytes n b) = (a ?= b)%Z.
Proof. intros. rewrite bytes_cmp_be, !Z.mod_small by done. done. Qed.

Lemma be_bytes_inj n a b :
  (0 ≤ a < 256 ^ Z.of_nat n)%Z → (0 ≤ b < 256 ^ Z.of_nat n)%Z →
  be_bytes n a = be_bytes n b → a = b.
Proof.
  intros Ha Hb E. apply Z.compare_eq.
  rewrite <- (bytes_cmp_be_small n a b Ha Hb), E. apply bytes_cmp_refl.
Qed.

Lemma be_val_foldl l acc :
  foldl (λ acc b, acc * 256 + b)%Z acc l =
  (acc * 256 ^ Z.of_nat (length l) + be_val l)%Z.
Proof.
  unfold be_val. revert acc. induction l as [|x l IH]; intros acc.
  - simpl. lia.
  - cbn [foldl length]. rewrite IH, (IH (0 * 256 + x)%Z).
    rewrite Nat2Z.inj_succ, Z.pow_succ_r by lia. lia.
Qed.

Lemma be_val_be_bytes n z : be_val (be_bytes n z) = (z mod 256 ^ Z.of_nat n)%Z.
Proof.
  induction n as [|n IH]; [by rewrite Z.mod_1_r|].
  unfold be_val. cbn [be_bytes foldl].
  rewrite be_val_foldl, IH, length_be_bytes, mod_pow_succ. lia.
Qed.

(** ** Go's [uint64] *)

Definition two64 : Z := 18446744073709551616.
Definition u64 (z : Z) : Z := (z mod two64)%Z.
Definition u64_ok (z : Z) : Prop := (0 ≤ z < two64)%Z.

Lemma u64_range z : u64_ok (u64 z).
Proof. unfold u64_ok, u64. apply Z.mod_pos_bound. done. Qed.

Lemma u64_small z : u64_ok z → u64 z = z.
Proof. apply Z.mod_small. Qed.

Lemma two64_pow : two64 = (256 ^ Z.of_nat 8)%Z.
Proof. done. Qed.

#[global] Arguments be_bytes : simpl never.

#[export] Hint Resolve u64_range u64_small be_bytes_ok : gravity.

(** ** Errors and effects *)

(** The sentinel errors of types/errors.go; [ErrSdk] stands for an error value
    that a called library returns.  [errorsmod.Wrap] keeps the sentinel, so
    messages are not modelled. *)
Inductive gerror :=
  | ErrInternal | ErrDuplicate | ErrInvalid | ErrTimeout | ErrUnknown | ErrEmpty
  | ErrOutdated | ErrUnsupported | ErrNonContiguousEventNonce (expected received : Z)
  | ErrResetDelegateKeys | ErrMismatched | ErrNoValidators | ErrInvalidValAddress
  | ErrInvalidEthAddress | ErrInvalidValset | ErrDuplicateEthereumKey
  | ErrDuplicateOrchestratorKey | ErrInvalidAttestation | ErrInvalidClaim
  | ErrInvalidLogicCall | ErrParamsNotFound | ErrInvalidDenom
  | ErrIntOverflowAttestation | ErrSdk (what : string).

(** A function returning [(T, error)] that touches no state. *)
Inductive res (A : Type) := Ok (a : A) | Er (e : gerror).
Arguments Ok {_} _.
Arguments Er {_} _.

#[global] Instance gerror_eq_dec : EqDecision gerror.
Proof. solve_decision. Defined.
#[global] Instance res_eq_dec {A} `{EqDecision A} : EqDecision (res A).
Proof. solve_decision. Defined.

#[global] Instance res_ret : MRet res := λ A a, Ok a.
#[global] Instance res_bind : MBind res := λ A B f m,
  match m with Ok a => f a | Er e => Er e end.

Definition is_ok {A} (r : res A) : bool := match r with Ok _ => true | Er _ => false end.

(** A method of the keeper: it reads and writes the chain state and returns,
    returns an error (the writes made so far stay visible to the caller), or
    panics. *)
Inductive outcome (S A : Type) :=
  | Ret (a : A) (s : S)
  | Fail (e : gerror) (s : S)
  | Panic (msg : string).
Arguments Ret {_ _} _ _.
Arguments Fail {_ _} _ _.
Arguments Panic {_ _} _.

Definition M (S A : Type) : Type := S → outcome S A.

#[global] Instance M_ret {S} : MRet (M S) := λ A a s, Ret a s.
#[global] Instance M_bind {S} : MBind (M S) := λ A B f m s,
  match m s with
  | Ret a s' => f a s'
  | Fail e s' => Fail e s'
  | Panic msg => Panic msg
  end.

Section Effects.
Context {S : Type}.

Definition panic {A} (msg : string) : M S A := λ _, Panic msg.
Definition fail {A} (e : gerror) : M S A := λ s, Fail e s.
Definition gets {A} (f : S → A) : M S A := λ s, Ret (f s) s.
Definition modify (f : S → S) : M S unit := λ s, Ret tt (f s).
(** [if err != nil { return err }] *)
Definition of_res {A} (r : res A) : M S A :=
  match r with Ok a => mret a | Er e => fail e end.
(** [if err != nil { panic(...) }] *)
Definition or_panic {A} (msg : string) (r : res A) : M S A :=
  match r with Ok a => mret a | Er _ => panic msg end.
(** [x, err := m()] with the error kept as a value *)
Definition try {A} (m : M S A) : M S (res A) := λ s,
  match m s with
  | Ret a s' => Ret (Ok a) s'
  | Fail e s' => Ret (Er e) s'
  | Panic msg => Panic msg
  end.
(** A call whose error makes the caller panic. *)
Definition must {A} (msg : string) (m : M S A) : M S A := λ s,
  match m s with
  | Fail _ _ => Panic msg
  | o => o
  end.
Definition guard_err (b : bool) (e : gerror) : M S unit :=
  if b then fail e else mret tt.
Definition guard_panic (b : bool) (msg : string) : M S unit :=
  if b then panic msg else mret tt.

(** [for _, x := range l { body }] *)
Fixpoint for_each {A} (l : list A) (body : A → M S unit) : M S unit :=
  match l with
  | [] => mret tt
  | x :: l' => body x ≫= λ _, for_each l' body
  end.

(** A loop that updates a local variable; the body returns [true] to stop. *)
Fixpoint for_acc {A B} (l : list A) (acc : B) (body : A → B → M S (B * bool)) : M S B :=
  match l with
  | [] => mret acc
  | x :: l' =>
      body x acc ≫= λ '(acc', stop), if (stop : bool) then mret acc' else for_acc l' acc' body
  end.

(** The method neither fails nor panics from [s]. *)
Definition returns {A} (m : M S A) (s : S) : Prop := ∃ a s', m s = Ret a s'.

Lemma bind_ret_inv {A B} (m : M S A) (f : A → M S B) s b s' :
  (m ≫= f) s = Ret b s' → ∃ a s1, m s = Ret a s1 ∧ f a s1 = Ret b s'.
Proof. unfold mbind, M_bind. destruct (m s); naive_solver. Qed.

Lemma bind_ret {A B} (m : M S A) (f : A → M S B) s a s1 :
  m s = Ret a s1 → (m ≫= f) s = f a s1.
Proof. unfold mbind, M_bind. by intros ->. Qed.

Lemma bind_fail {A B} (m : M S A) (f : A → M S B) s e s1 :
  m s = Fail e s1 → (m ≫= f) s = Fail e s1.
Proof. unfold mbind, M_bind. by intros ->. Qed.

Lemma bind_panic {A B} (m : M S A) (f : A → M S B) s msg :
  m s = Panic msg → (a ← m; f a) s = Panic msg.
Proof. intros E. unfold mbind, M_bind. by rewrite E. Qed.

Lemma bind_assoc {A B C} (m : M S A) (f : A → M S B) (g : B → M S C) s :
  (a ← m; b ← f a; g b) s = (b ← (a ← m; f a); g b) s.
Proof. unfold mbind, M_bind. by destruct (m s). Qed.

Lemma of_res_inv {A} (r : res A) s a s' :
  of_res r s = Ret a s' → r = Ok a ∧ s' = s.
Proof. destruct r; unfold of_res, fail, mret, M_ret; naive_solver. Qed.

Lemma or_panic_inv {A} msg (r : res A) s a s' :
  or_panic msg r s = Ret a s' → r = Ok a ∧ s' = s.
Proof. destruct r; unfold or_panic, panic, mret, M_ret; naive_solver. Qed.

Lemma guard_err_inv b e s u s' :
  guard_err b e s = Ret u s' → b = false ∧ s' = s.
Proof. destruct b; unfold guard_err, fail, mret, M_ret; naive_solver. Qed.

Lemma guard_panic_inv b msg s u s' :
  guard_panic b msg s = Ret u s' → b = false ∧ s' = s.
Proof. destruct b; unfold guard_panic, panic, mret, M_ret; naive_solver. Qed.

Lemma must_inv {A} msg (m : M S A) s a s' :
  must msg m s = Ret a s' → m s = Ret a s'.
Proof. unfold must. destruct (m s); naive_solver. Qed.

Lemma modify_inv f s u s' : modify f s = Ret u s' → s' = f s.
Proof. unfold modify. naive_solver. Qed.

Lemma gets_inv {A} (f : S → A) s a s' : gets f s = Ret a s' → a = f s ∧ s' = s.
Proof. unfold gets. naive_solver. Qed.

Lemma mret_inv {A} (a b : A) s s' : (mret a : M S A) s = Ret b s' → b = a ∧ s' = s.
Proof. unfold mret, M_ret. naive_solver. Qed.

Lemma try_inv {A} (m : M S A) s r s' :
  try m s = Ret r s' →
  (∃ a, r = Ok a ∧ m s = Ret a s') ∨ (∃ e, r = Er e ∧ m s = Fail e s').
Proof. unfold try. destruct (m s); naive_solver. Qed.

(** Invariants of loops that return. *)
Lemma for_each_inv {A} (P : list A → S → Prop) (l : list A) body s s' u :
  for_each l body s = Ret u s' → P l s →
  (∀ x rest s1 s2 w, x :: rest `suffix_of` l → P (x :: rest) s1 →
     body x s1 = Ret w s2 → P rest s2) →
  P [] s'.
Proof.
  revert s. induction l as [|x l IH]; intros s Hl HP Hstep.
  - apply mret_inv in Hl as [_ ->]. done.
  - cbn [for_each] in Hl. apply bind_ret_inv in Hl as ([] & s1 & Hb & Hl).
    apply (IH s1 Hl).
    + by eapply Hstep; [..|exact Hb].
    + intros y rest s2 s3 w Hsuf. apply Hstep. by apply suffix_cons_r.
Qed.

Lemma for_each_returns {A} (P : list A → S → Prop) (l : list A) body s :
  P l s →
  (∀ x rest s1, x :: rest `suffix_of` l → P (x :: rest) s1 →
     ∃ w s2, body x s1 = Ret w s2 ∧ P rest s2) →
  ∃ u s', for_each l body s = Ret u s' ∧ P [] s'.
Proof.
  revert s. induction l as [|x l IH]; intros s HP Hstep; [by exists tt, s|].
  destruct (Hstep x l s) as (w & s2 & Hb & HP2); [done..|].
  cbn [for_each]. rewrite (bind_ret _ _ _ _ _ Hb).
  apply IH; [done|]. intros y rest s1 Hsuf. apply Hstep. by apply suffix_cons_r.
Qed.

(** Invariants of what a loop accumulates. *)
Lemma for_acc_inv {A B} (P : B → Prop) (l : list A) (acc : B) body s r s' :
  for_acc l acc body s = Ret r s' → P acc →
  (∀ x b s1 b' stop s2, body x b s1 = Ret (b', stop) s2 → P b → P b') → P r.
Proof.
  intros Hl HP Hstep. revert acc s Hl HP. induction l as [|x l IH]; intros acc s Hl HP.
  - by apply mret_inv in Hl as [-> _].
  - cbn [for_acc] in Hl. apply bind_ret_inv in Hl as ([b []] & s1 & Hb & Hl).
    + apply mret_inv in Hl as [-> _]. by eapply Hstep.
    + eapply IH; [exact Hl|]. by eapply Hstep.
Qed.

(** A loop whose body either keeps the invariant or panics with a message of [E]. *)
Lemma for_each_or_panic {A} (P : list A → S → Prop) (E : string → Prop) (l : list A) body s :
  P l s →
  (∀ x rest s1, x :: rest `suffix_of` l → P (x :: rest) s1 →
     (∃ w s2, body x s1 = Ret w s2 ∧ P rest s2) ∨ ∃ msg, body x s1 = Panic msg ∧ E msg) →
  (∃ u s', for_each l body s = Ret u s' ∧ P [] s') ∨ ∃ msg, for_each l body s = Panic msg ∧ E msg.
Proof.
  revert s. induction l as [|x l IH]; intros s HP Hstep; [left; by exists tt, s|].
  cbn [for_each]. destruct (Hstep x l s) as [(w & s2 & Hb & HP2)|(msg & Hb & HE)]; [done..| |].
  - rewrite (bind_ret _ _ _ _ _ Hb).
    apply IH; [done|]. intros y rest s1 Hsuf. apply Hstep. by apply suffix_cons_r.
  - right. exists msg. split; [|done]. unfold mbind, M_bind. by rewrite Hb.
Qed.

Lemma for_each_app {A} (l1 l2 : list A) body s :
  for_each (l1 ++ l2) body s = (_ ← for_each l1 body; for_each l2 body) s.
Proof.
  revert s. induction l1 as [|x l1 IH]; intros s; [done|].
  cbn [for_each app]. unfold mbind, M_bind. destruct (body x s); [|done..]. apply IH.
Qed.

Lemma for_each_fmap {A B} (f : A → B) (l : list A) body s :
  for_each (f <$> l) body s = for_each l (λ x, body (f x)) s.
Proof.
  revert s. induction l as [|x l IH]; intros s; [done|].
  cbn [for_each fmap list_fmap]. unfold mbind, M_bind. destruct (body (f x) s); [|done..]. apply IH.
Qed.

(** Nested loops run over the list of pairs. *)
Lemma for_each_nested {A B} (l : list A) (f : A → list B) body s :
  for_each l (λ x, for_each (f x) (body x)) s =
  for_each (l ≫= λ x, pair x <$> f x) (λ p, body p.1 p.2) s.
Proof.
  revert s. induction l as [|x l IH]; intros s; [done|].
  cbn [for_each mbind list_bind]. rewrite for_each_app. unfold mbind, M_bind.
  rewrite (for_each_fmap (pair x) (f x) (λ p, body p.1 p.2)). cbn [fst snd].
  change (λ x0 : B, body x x0) with (body x).
  destruct (for_each (f x) (body x) s); [|done..]. apply IH.
Qed.
End Effects.

(** Inverts a hypothesis saying that a method returned. *)
Ltac minv_step :=
  match goal with
  | H : (_ ≫= _) _ = Ret _ _ |- _ => apply bind_ret_inv in H as (? & ? & ? & ?)
  | H : of_res _ _ = Ret _ _ |- _ => apply of_res_inv in H as [? ?]
  | H : or_panic _ _ _ = Ret _ _ |- _ => apply or_panic_inv in H as [? ?]
  | H : guard_err _ _ _ = Ret _ _ |- _ => apply guard_err_inv in H as [? ?]
  | H : guard_panic _ _ _ = Ret _ _ |- _ => apply guard_panic_inv in H as [? ?]
  | H : must _ _ _ = Ret _ _ |- _ => apply must_inv in H
  | H : modify _ _ = Ret _ _ |- _ => apply modify_inv in H
  | H : gets _ _ = Ret _ _ |- _ => apply gets_inv in H as [? ?]
  | H : mret _ _ = Ret _ _ |- _ => apply mret_inv in H as [? ?]
  | H : panic _ _ = Ret _ _ |- _ => discriminate H
  | H : fail _ _ = Ret _ _ |- _ => discriminate H
  end.
Ltac minv := repeat (minv_step; simplify_eq).

(** Splits off the first step of a run: [E] says that it returned [x]. *)
Tactic Notation "mnext" hyp(H) "as" ident(x) ident(s1) ident(E) :=
  apply bind_ret_inv in H as (x & s1 & E & H).

(** Runs the effects at the head of a method. *)
Ltac mrun :=
  unfold guard_err, guard_panic, of_res, or_panic, must, try;
  unfold mbind, M_bind, mret, M_ret, fail, panic, gets, modify; cbv beta iota zeta.

(** ** Methods that only read

    [readonly m]: whatever [m] returns, the state is unchanged.  The tactic
    [readonly] proves it of a method from its text and the facts of the
    database [readonly]. *)

Definition readonly {S A} (m : M S A) : Prop :=
  ∀ s, match m s with Ret _ s' | Fail _ s' => s' = s | Panic _ => True end.

Create HintDb readonly.

(** The same outcome in another state. *)
Definition at_state {S A} (s' : S) (o : outcome S A) : outcome S A :=
  match o with Ret a _ => Ret a s' | Fail e _ => Fail e s' | Panic msg => Panic msg end.

Section Readonly.
Context {S : Type}.

Lemma readonly_ret {A} (a : A) : readonly (mret a : M S A).
Proof. done. Qed.
Lemma readonly_gets {A} (f : S → A) : readonly (gets f).
Proof. done. Qed.
Lemma readonly_fail {A} e : readonly (fail e : M S A).
Proof. done. Qed.
Lemma readonly_panic {A} msg : readonly (panic msg : M S A).
Proof. done. Qed.
Lemma readonly_of_res {A} (r : res A) : readonly (of_res r : M S A).
Proof. by destruct r. Qed.
Lemma readonly_or_panic {A} msg (r : res A) : readonly (or_panic msg r : M S A).
Proof. by destruct r. Qed.
Lemma readonly_guard_err b e : readonly (guard_err b e : M S unit).
Proof. by destruct b. Qed.
Lemma readonly_guard_panic b msg : readonly (guard_panic b msg : M S unit).
Proof. by destruct b. Qed.
Lemma readonly_bind {A B} (m : M S A) (f : A → M S B) :
  readonly m → (∀ a, readonly (f a)) → readonly (m ≫= f).
Proof.
  intros Hm Hf s. unfold mbind, M_bind. specialize (Hm s).
  destruct (m s) as [a s1|e s1|msg]; [|done..]. subst s1. apply Hf.
Qed.
Lemma readonly_must {A} msg (m : M S A) : readonly m → readonly (must msg m).
Proof. intros Hm s. unfold must. specialize (Hm s). by destruct (m s). Qed.
Lemma readonly_try {A} (m : M S A) : readonly m → readonly (try m).
Proof. intros Hm s. unfold try. specialize (Hm s). by destruct (m s). Qed.
Lemma readonly_for_acc {A B} (l : list A) (acc : B) body :
  (∀ x b, readonly (body x b)) → readonly (for_acc l acc body : M S B).
Proof.
  intros Hb. revert acc. induction l as [|x l IH]; intros acc; [done|].
  apply readonly_bind; [done|]. intros [b []]; [done|apply IH].
Qed.

Lemma readonly_inv {A} (m : M S A) s a s' : readonly m → m s = Ret a s' → s' = s.
Proof. intros Hm E. specialize (Hm s). by rewrite E in Hm. Qed.
Lemma readonly_fail_inv {A} (m : M S A) s e s' : readonly m → m s = Fail e s' → s' = s.
Proof. intros Hm E. specialize (Hm s). by rewrite E in Hm. Qed.
End Readonly.

#[export] Hint Resolve readonly_ret readonly_gets readonly_fail readonly_panic readonly_of_res
  readonly_or_panic readonly_guard_err readonly_guard_panic : readonly.

Ltac readonly_step :=
  match goal with
  | |- readonly (_ ≫= _) => apply readonly_bind; [|intros ?]
  | |- readonly (must _ _) => apply readonly_must
  | |- readonly (try _) => apply readonly_try
  | |- readonly (for_acc _ _ _) => apply readonly_for_acc; intros ? ?
  | |- readonly (match ?x with _ => _ end) => destruct x
  | |- readonly _ => solve [auto with readonly]
  end.
Ltac readonly := repeat (cbv zeta; readonly_step).

(** ** Methods that keep a relation

    [frame R m]: whatever [m] returns, its new state is related to the old one by
    the preorder [R].  The tactic [framed] proves it of a method from its text
    and the facts of the databases [frame] and [readonly]. *)

Definition frame {S A} (R : S → S → Prop) (m : M S A) : Prop :=
  ∀ s, match m s with Ret _ s' | Fail _ s' => R s s' | Panic _ => True end.

Create HintDb frame.

Section Frame.
Context {S : Type} (R : S → S → Prop) `{!Reflexive R} `{!Transitive R}.

Lemma frame_readonly {A} (m : M S A) : readonly m → frame R m.
Proof. intros Hm s. specialize (Hm s). by destruct (m s) as [? s'|? s'|]; subst. Qed.
Lemma frame_bind {A B} (m : M S A) (f : A → M S B) :
  frame R m → (∀ a, frame R (f a)) → frame R (m ≫= f).
Proof.
  intros Hm Hf s. unfold mbind, M_bind. specialize (Hm s).
  destruct (m s) as [a s1|e s1|msg]; [|done..]. specialize (Hf a s1).
  destruct (f a s1); [by etrans..|done].
Qed.
Lemma frame_must {A} msg (m : M S A) : frame R m → frame R (must msg m).
Proof. intros Hm s. unfold must. specialize (Hm s). by destruct (m s). Qed.
Lemma frame_try {A} (m : M S A) : frame R m → frame R (try m).
Proof. intros Hm s. unfold try. specialize (Hm s). by destruct (m s). Qed.
Lemma frame_for_each {A} (l : list A) body :
  (∀ x, frame R (body x)) → frame R (for_each l body).
Proof.
  intros Hb. induction l as [|x l IH]; [by apply frame_readonly|]. by apply frame_bind.
Qed.
(** The rest of a method may depend on how its first step returned. *)
Lemma frame_bind_post {A B} (m : M S A) (f : A → M S B) :
  frame R m → (∀ a s s', m s = Ret a s' → frame R (f a)) → frame R (m ≫= f).
Proof.
  intros Hm Hf s. unfold mbind, M_bind. specialize (Hm s).
  destruct (m s) as [a s1|e s1|msg] eqn:E; [|done..]. specialize (Hf a s s1 E s1).
  destruct (f a s1); [by etrans..|done].
Qed.
Lemma frame_for_each_in {A} (l : list A) body :
  (∀ x, x ∈ l → frame R (body x)) → frame R (for_each l body).
Proof.
  induction l as [|x l IH]; intros Hb; [by apply frame_readonly|].
  apply frame_bind; [apply Hb; by left|]. intros _. apply IH. intros y Hy. apply Hb. by right.
Qed.
Lemma frame_for_acc {A B} (l : list A) (acc : B) body :
  (∀ x b, frame R (body x b)) → frame R (for_acc l acc body : M S B).
Proof.
  intros Hb. revert acc. induction l as [|x l IH]; intros acc; [by apply frame_readonly|].
  apply frame_bind; [done|]. intros [b []]; [by apply frame_readonly|apply IH].
Qed.
Lemma frame_modify f : (∀ s, R s (f s)) → frame R (modify f).
Proof. intros Hf s. apply Hf. Qed.
Lemma frame_inv {A} (m : M S A) s a s' : frame R m → m s = Ret a s' → R s s'.
Proof. intros Hm E. specialize (Hm s). by rewrite E in Hm. Qed.
End Frame.

Ltac framed_step :=
  match goal with
  | |- frame _ _ => solve [auto with frame]
  | |- frame _ (_ ≫= _) => apply frame_bind; [apply _| |intros ?]
  | |- frame _ (must _ _) => apply frame_must
  | |- frame _ (try _) => apply frame_try
  | |- frame _ (for_each _ _) => apply frame_for_each; [apply _..|intros ?]
  | |- frame _ (for_acc _ _ _) => apply frame_for_acc; [apply _..|intros ? ?]
  | |- frame _ _ => solve [apply frame_readonly; [apply _|solve [auto with readonly]]]
  | |- frame _ (match ?x with _ => _ end) => destruct x
  end.
Ltac framed := repeat (cbv zeta; framed_step).

(** ** Methods that do not look at a part of the state

    [blind f m]: the change [f] of the state makes no difference to [m], which neither
    reads nor writes what [f] changes: started after the change, it ends as before,
    with the change applied to its final state.  The tactic [blinded] proves it of a
    method from its text and the facts of the database [blind]. *)

Definition map_state {S A} (f : S → S) (o : outcome S A) : outcome S A :=
  match o with Ret a s => Ret a (f s) | Fail e s => Fail e (f s) | Panic msg => Panic msg end.

Definition blind {S A} (f : S → S) (m : M S A) : Prop := ∀ s, m (f s) = map_state f (m s).

Create HintDb blind.

Section Blind.
Context {S : Type} (f : S → S).

Lemma blind_ret {A} (a : A) : blind f (mret a).
Proof. done. Qed.
Lemma blind_fail {A} e : blind f (fail e : M S A).
Proof. done. Qed.
Lemma blind_panic {A} msg : blind f (panic msg : M S A).
Proof. done. Qed.
Lemma blind_of_res {A} (r : res A) : blind f (of_res r).
Proof. by destruct r. Qed.
Lemma blind_or_panic {A} msg (r : res A) : blind f (or_panic msg r).
Proof. by destruct r. Qed.
Lemma blind_guard_err b e : blind f (guard_err b e).
Proof. by destruct b. Qed.
Lemma blind_guard_panic b msg : blind f (guard_panic b msg).
Proof. by destruct b. Qed.
Lemma blind_gets {A} (g : S → A) : (∀ s, g (f s) = g s) → blind f (gets g).
Proof. intros Hg s. unfold gets. by rewrite Hg. Qed.
Lemma blind_modify g : (∀ s, g (f s) = f (g s)) → blind f (modify g).
Proof. intros Hg s. unfold modify. by rewrite Hg. Qed.
Lemma blind_bind {A B} (m : M S A) (k : A → M S B) :
  blind f m → (∀ a, blind f (k a)) → blind f (m ≫= k).
Proof. intros Hm Hk s. unfold mbind, M_bind. rewrite Hm. destruct (m s); [apply Hk|done..]. Qed.
Lemma blind_must {A} msg (m : M S A) : blind f m → blind f (must msg m).
Proof. intros Hm s. unfold must. rewrite Hm. by destruct (m s). Qed.
Lemma blind_for_each {A} (l : list A) body : (∀ x, blind f (body x)) → blind f (for_each l body).
Proof. intros Hb. induction l; [done|by apply blind_bind]. Qed.
Lemma blind_for_acc {A B} (l : list A) (acc : B) body :
  (∀ x b, blind f (body x b)) → blind f (for_acc l acc body).
Proof.
  intros Hb. revert acc. induction l as [|x l IH]; intros acc; [done|].
  apply blind_bind; [done|]. by intros [b []].
Qed.
End Blind.

#[export] Hint Resolve blind_ret blind_fail blind_panic blind_of_res blind_or_panic blind_guard_err
  blind_guard_panic : blind.

Ltac blinded_step :=
  match goal with
  | |- blind _ _ => solve [auto with blind]
  | |- blind _ (_ ≫= _) => apply blind_bind; [|intros ?]
  | |- blind _ (must _ _) => apply blind_must
  | |- blind _ (for_each _ _) => apply blind_for_each; intros ?
  | |- blind _ (for_acc _ _ _) => apply blind_for_acc; intros ? ?
  | |- blind _ (match ?x with _ => _ end) => destruct x
  end.
Ltac blinded := repeat (cbv zeta; blinded_step).

(** ** Sums *)

Definition sumZ {A} (f : A → Z) (l : list A) : Z := foldr (λ x acc, f x + acc)%Z 0%Z l.

Section Sums.
Context {A : Type} (f : A → Z).

Lemma sumZ_app l1 l2 : sumZ f (l1 ++ l2) = (sumZ f l1 + sumZ f l2)%Z.
Proof. induction l1; simpl; lia. Qed.

#[global] Instance sumZ_Permutation : Proper ((≡ₚ) ==> (=)) (sumZ f).
Proof. induction 1; simpl; lia. Qed.

Lemma sumZ_nonneg l : Forall (λ x, 0 ≤ f x)%Z l → (0 ≤ sumZ f l)%Z.
Proof. induction 1; simpl; lia. Qed.

Lemma sumZ_ext g l : Forall (λ x, f x = g x) l → sumZ f l = sumZ g l.
Proof. induction 1; simpl; lia. Qed.

Lemma sumZ_add g l : sumZ (λ x, f x + g x)%Z l = (sumZ f l + sumZ g l)%Z.
Proof. induction l; simpl; lia. Qed.
End Sums.

Lemma sumZ_fmap {A B} (g : A → B) f l : sumZ f (g <$> l) = sumZ (f ∘ g) l.
Proof. induction l; csimpl; [done|]. by rewrite IHl. Qed.

(** ** Filters *)

Lemma list_filter_all {A} (P : A → Prop) `{∀ x, Decision (P x)} l :
  Forall P l → filter P l = l.
Proof. induction 1; [done|]. rewrite filter_cons_True by done. congruence. Qed.

Lemma list_filter_none {A} (P : A → Prop) `{∀ x, Decision (P x)} l :
  Forall (λ x, ¬ P x) l → filter P l = [].
Proof. induction 1; [done|]. by rewrite filter_cons_False. Qed.

Lemma sumZ_filter {A} (f : A → Z) (P : A → Prop) `{∀ x, Decision (P x)} l :
  sumZ f (filter P l) = sumZ (λ x, if decide (P x) then f x else 0%Z) l.
Proof. induction l as [|x l IH]; [done|]. rewrite filter_cons. simpl. case_decide; simpl; lia. Qed.

Lemma sumZ_le {A} (f g : A → Z) l :
  Forall (λ x, f x ≤ g x)%Z l → (sumZ f l ≤ sumZ g l)%Z.
Proof. induction 1; simpl; lia. Qed.

(** A loop whose turns all return without stopping. *)
Lemma for_acc_fold {S A B} (P : list A → B → Prop) (f : B → A → B) l acc
    (body : A → B → M S (B * bool)) s :
  P l acc →
  (∀ x l' b, P (x :: l') b → body x b s = Ret (f b x, false) s ∧ P l' (f b x)) →
  for_acc l acc body s = Ret (foldl f acc l) s.
Proof.
  intros HP Hstep. revert acc HP. induction l as [|x l IH]; intros acc HP; [done|].
  destruct (Hstep x l acc HP) as [E HP']. cbn [for_acc]. rewrite (bind_ret _ _ _ _ _ E).
  by apply IH.
Qed.

Lemma frame_weaken {S A} (R R' : S → S → Prop) (m : M S A) :
  (∀ s s', R s s' → R' s s') → frame R m → frame R' m.
Proof. intros HR Hm s. specialize (Hm s). destruct (m s); auto. Qed.

Lemma list_filter_same {A} (P Q : A → Prop) `{∀ x, Decision (P x)} `{∀ x, Decision (Q x)} l :
  Forall (λ x, P x ↔ Q x) l → filter P l = filter Q l.
Proof.
  induction 1 as [|x l Hx Hl IH]; [done|]. rewrite !filter_cons, IH. by repeat case_decide; try tauto.
Qed.

Lemma sumZ_single {A} `{EqDecision A} (f : A → Z) (l : list A) x :
  NoDup l → x ∈ l → (∀ y, y ∈ l → y ≠ x → f y = 0%Z) → sumZ f l = f x.
Proof.
  induction 1 as [|y l Hni Hnd IH]; intros Hx Hz; [by apply not_elem_of_nil in Hx|]. simpl.
  destruct (decide (y = x)) as [->|Hne].
  - rewrite (sumZ_ext _ (λ _, 0%Z)); [|apply Forall_forall; intros z Hin; apply Hz; [by right|by intros ->]].
    assert (sumZ (λ _ : A, 0%Z) l = 0%Z); [|lia]. clear. induction l; simpl; lia.
  - apply elem_of_cons in Hx as [->|Hx]; [done|]. rewrite IH; [|done|].
    + rewrite (Hz y) by (done || by left). lia.
    + intros z Hin. apply Hz. by right.
Qed.
