(* ===== verification/Store.v ===== *)
(** * The key-value store and its prefix iterators

    A module's KVStore is a finite map from byte keys to values; its iterators
    visit the keys of a half-open range in lexicographic order.  The keeper
    turns a key prefix into such a range with [prefixRange] (keeper/keeper.go).

    The store of the gravity module is modelled as one finite map per key
    prefix, each keyed by the full keys of types/key.go; [Keys] proves that the
    prefixes are different, and [iter_substore] below that iterating a prefix of
    the flat store is iterating that prefix's map.  Iterators are snapshots:
    they list the entries that were present when the iterator was opened, which
    is the behaviour of the SDK's cached stores that the callbacks which delete
    while iterating rely on. *)

From S2P Require Import Prelude.
From stdpp Require Import base gmap list strings sorting.

(** ** [prefixRange] (keeper/keeper.go) *)

Module PrefixRange.

(** [end[l]++] on a byte slice. *)
Definition incr (l : nat) (e : bytes) : bytes := alter (λ b, (b + 1) mod 256)%Z l e.

(** [for end[l] == 0 && l > 0 { l--; end[l]++ }] *)
Fixpoint carry (l : nat) (e : bytes) : nat * bytes :=
  match l with
  | O => (O, e)
  | S l' => if decide (e !! l = Some 0%Z) then carry l' (incr l' e) else (l, e)
  end.

Definition prefixRange (prefix : bytes) : option bytes * option bytes :=
  match prefix with
  | [] => (None, None)
  | _ =>
      let l := length prefix - 1 in
      let '(l, e) := carry l (incr l prefix) in
      (Some prefix,
       if decide (l = 0 ∧ e !! 0 = Some 0%Z) then None else Some e)
  end.

(** The first key after every key with prefix [p], by recursion from the front. *)
Fixpoint bump (p : bytes) : option bytes :=
  match p with
  | [] => None
  | x :: p' =>
      match bump p' with
      | Some q => Some (x :: q)
      | None => if decide (x = 255%Z) then None
                else Some ((x + 1)%Z :: replicate (length p') 0%Z)
      end
  end.

Lemma bump_snoc a x :
  bump (a ++ [x]) =
  if decide (x = 255%Z) then (λ q, q ++ [0%Z]) <$> bump a else Some (a ++ [(x + 1)%Z]).
Proof.
  induction a as [|y a IH]; simpl; [by repeat case_decide|].
  rewrite IH. case_decide; [|done]. destruct (bump a); simpl; [done|].
  case_decide; [done|]. simpl. rewrite length_app. simpl.
  by rewrite replicate_add.
Qed.

Lemma incr_last a x z : incr (length a) (a ++ x :: z) = a ++ ((x + 1) mod 256)%Z :: z.
Proof.
  unfold incr. rewrite alter_app_r_alt by lia.
  by rewrite Nat.sub_diag.
Qed.

Lemma lookup_last a x (z : bytes) : (a ++ x :: z) !! length a = Some x.
Proof. by rewrite lookup_app_r, Nat.sub_diag by lia. Qed.

Lemma carry_snoc a y x z :
  carry (length (a ++ [y])) ((a ++ [y]) ++ x :: z) =
  if decide (x = 0%Z) then carry (length a) (incr (length a) (a ++ y :: x :: z))
  else (length (a ++ [y]), (a ++ [y]) ++ x :: z).
Proof.
  pose proof (lookup_last (a ++ [y]) x z) as Hl.
  rewrite length_app, Nat.add_1_r in *. cbn [carry]. rewrite Hl, <- app_assoc.
  destruct (decide (x = 0%Z)) as [->|]; [by rewrite decide_True|].
  by rewrite decide_False by congruence.
Qed.

Definition range_end (e : nat * bytes) : option bytes :=
  if decide (e.1 = 0 ∧ e.2 !! 0 = Some 0%Z) then None else Some e.2.

(** The carry loop computes [bump] of the part of the slice it has reached. *)
Lemma carry_bump a x n :
  bytes_ok (a ++ [x]) →
  range_end (carry (length a) (incr (length a) (a ++ x :: replicate n 0%Z))) =
  (λ q, q ++ replicate n 0%Z) <$> bump (a ++ [x]).
Proof.
  revert x n. induction a as [|y a IH] using rev_ind; intros x n Hok.
  - apply Forall_cons in Hok as [Hx _]. unfold byte_ok in Hx. unfold range_end. simpl.
    destruct (decide (x = 255%Z)) as [->|Hne].
    { by rewrite decide_True by (split; reflexivity). }
    rewrite Z.mod_small by lia. rewrite decide_False; [done|]. intros [_ [=]]. lia.
  - apply Forall_app in Hok as [Ha [Hx _]%Forall_cons]. unfold byte_ok in Hx.
    rewrite incr_last, bump_snoc, carry_snoc.
    destruct (decide (x = 255%Z)) as [->|Hne].
    + rewrite decide_True by done.
      change (((255 + 1) mod 256)%Z :: replicate n 0%Z) with (replicate (S n) 0%Z).
      rewrite IH by done. destruct (bump (a ++ [y])); [|done]. simpl.
      by rewrite <- app_assoc.
    + rewrite Z.mod_small, decide_False by lia. unfold range_end.
      rewrite decide_False by (rewrite length_app; simpl; lia).
      simpl. by rewrite <- !app_assoc.
Qed.

Lemma prefixRange_bump p :
  p ≠ [] → bytes_ok p → prefixRange p = (Some p, bump p).
Proof.
  intros Hne Hok. destruct p as [|x a _] using rev_ind; [done|].
  pose proof (carry_bump a x 0 Hok) as H. unfold prefixRange.
  destruct (a ++ [x]) as [|b l] eqn:E; [by destruct a|]. rewrite <- E in *.
  rewrite length_app. simpl length. rewrite Nat.add_sub.
  cbn [replicate] in H. destruct (carry (length a) _) as [l' e].
  unfold range_end in H. simpl in H. rewrite H.
  f_equal. destruct (bump (a ++ [x])); simpl; [by rewrite app_nil_r|done].
Qed.

End PrefixRange.
Export PrefixRange.

(** ** Iterators *)

Definition in_range (r : option bytes * option bytes) (k : bytes) : bool :=
  match r.1 with Some s => bytes_leb s k | None => true end &&
  match r.2 with Some e => bytes_ltb k e | None => true end.

Lemma prefix_cons_iff {A} (x : A) p k : x :: p `prefix_of` x :: k ↔ p `prefix_of` k.
Proof. split; [apply prefix_cons_inv_2|apply prefix_cons]. Qed.

Lemma replicate_zero_le n k :
  n ≤ length k → bytes_ok k → ¬ bytes_lt k (replicate n 0%Z).
Proof.
  unfold bytes_lt, bytes_ltb. revert k.
  induction n as [|n IH]; intros [|x k] Hlen Hok; simpl in *; try done; try lia.
  apply Forall_cons in Hok as [Hx Hok]. unfold byte_ok in Hx.
  destruct (Z.compare_spec x 0) as [->|?|?]; [|lia|done].
  apply IH; [lia|done].
Qed.

(** For keys at least as long as the prefix, the range holds exactly the keys
    that start with the prefix. *)
Lemma bump_range p k :
  bytes_ok p → bytes_ok k → length p ≤ length k →
  in_range (Some p, bump p) k = true ↔ p `prefix_of` k.
Proof.
  unfold in_range, bytes_leb, bytes_ltb. simpl. intros Hp Hk. revert k Hk.
  induction p as [|x p IH]; intros k Hk Hlen.
  - simpl. split; [intros _; apply prefix_nil|]. by destruct k.
  - destruct k as [|y k]; [simpl in Hlen; lia|]. simpl in Hlen.
    apply Forall_cons in Hp as [Hx Hp]. apply Forall_cons in Hk as [Hy Hk].
    unfold byte_ok in Hx, Hy. specialize (IH Hp k Hk ltac:(lia)).
    cbn [bump bytes_cmp]. destruct (Z.compare_spec x y) as [->|Hlt|Hgt].
    + rewrite prefix_cons_iff, <- IH. destruct (bump p) as [q|]; simpl.
      * by rewrite Z.compare_refl.
      * case_decide; simpl; [done|].
        destruct (Z.compare_spec y (y + 1)); [lia|done|lia].
    + split; [|intros ?%prefix_cons_inv_1; lia]. intros H. exfalso.
      destruct (bump p) as [q|]; simpl in H.
      * destruct (Z.compare_spec y x); try lia; done.
      * case_decide; [lia|]. simpl in H.
        destruct (Z.compare_spec y (x + 1)) as [_|?|?]; [|lia|done].
        eapply (replicate_zero_le (length p) k); [lia|done|].
        unfold bytes_lt, bytes_ltb. destruct (bytes_cmp k _); done.
    + split; [done|]. intros ?%prefix_cons_inv_1; lia.
Qed.

(** Whatever follows the prefix, the key is in the range. *)
Lemma prefix_in_range p x :
  p ≠ [] → bytes_ok p → in_range (prefixRange p) (p ++ x) = true.
Proof.
  intros Hne Hok. rewrite prefixRange_bump by done. clear Hne.
  unfold in_range, bytes_leb, bytes_ltb. simpl.
  induction p as [|y p IH]; [by destruct x|].
  apply Forall_cons in Hok as [_ Hok]. specialize (IH Hok).
  cbn [app bytes_cmp bump]. rewrite Z.compare_refl.
  apply andb_prop in IH as [IH1 IH2]. rewrite IH1. destruct (bump p) as [q|].
  - cbn [bytes_cmp]. by rewrite Z.compare_refl.
  - case_decide; [done|]. cbn [bytes_cmp].
    destruct (Z.compare_spec y (y + 1)); [lia|done|lia].
Qed.

(** When the last byte of the prefix does not overflow, a key of the range starts
    with the prefix however short it is. *)
Lemma range_prefix a x k :
  bytes_ok (a ++ [x]) → x ≠ 255%Z →
  in_range (prefixRange (a ++ [x])) k = true → a ++ [x] `prefix_of` k.
Proof.
  intros Hok Hx. rewrite prefixRange_bump, bump_snoc, decide_False by (try done; by destruct a).
  clear Hok. unfold in_range, bytes_leb, bytes_ltb. cbn [fst snd].
  revert k. induction a as [|y a IH]; intros [|z k]; try done; cbn [app bytes_cmp].
  - destruct (Z.compare_spec x z) as [->|Hlt|]; [intros _; by exists k| |done].
    destruct (Z.compare_spec z (x + 1)) as [->| |]; [by destruct k|lia|done].
  - destruct (Z.compare_spec y z) as [->|Hlt|]; [|intros Hf|done].
    + rewrite Z.compare_refl, prefix_cons_iff. apply IH.
    + exfalso. destruct (Z.compare_spec z y); try lia; done.
Qed.

Section Iterators.
Context {V : Type}.
Implicit Types (m : gmap bytes V) (r : option bytes * option bytes) (k : bytes).

Definition kv_le (p q : bytes * V) : Prop := bytes_le p.1 q.1.
Definition kv_lt (p q : bytes * V) : Prop := bytes_lt p.1 q.1.

#[global] Instance kv_le_dec p q : Decision (kv_le p q).
Proof. unfold kv_le. apply _. Defined.
#[global] Instance kv_le_trans : Transitive kv_le.
Proof. intros p q s. unfold kv_le. by intros; etrans. Qed.
#[global] Instance kv_le_total : Total kv_le.
Proof. intros p q. apply bytes_le_total. Qed.

(** [store.Iterator(start, end)]: the entries of the range, keys ascending. *)
Definition iter_asc m r : list (bytes * V) :=
  filter (λ p, in_range r p.1 = true) (merge_sort kv_le (map_to_list m)).

(** [store.ReverseIterator(start, end)] *)
Definition iter_desc m r : list (bytes * V) := reverse (iter_asc m r).

(** [prefix.NewStore(store, p).Iterator(nil, nil)]: the entries whose key starts
    with [p], by the rest of their key. *)
Definition sub_entries (p : bytes) m : list (bytes * V) :=
  (λ kv, (drop (length p) kv.1, kv.2)) <$>
  filter (λ kv, p `prefix_of` kv.1) (iter_asc m (None, None)).

Lemma elem_of_iter_asc m r k v :
  (k, v) ∈ iter_asc m r ↔ m !! k = Some v ∧ in_range r k = true.
Proof.
  unfold iter_asc. rewrite list_elem_of_filter, merge_sort_Permutation, elem_of_map_to_list.
  simpl. tauto.
Qed.

Lemma elem_of_iter_desc m r k v :
  (k, v) ∈ iter_desc m r ↔ m !! k = Some v ∧ in_range r k = true.
Proof. unfold iter_desc. by rewrite elem_of_reverse, elem_of_iter_asc. Qed.

Lemma elem_of_sub_entries p m k v : (k, v) ∈ sub_entries p m ↔ m !! (p ++ k) = Some v.
Proof.
  unfold sub_entries. rewrite list_elem_of_fmap. split.
  - intros ([k' v'] & [= -> ->] & [Hp Hk]%list_elem_of_filter). cbn [fst snd] in *.
    apply elem_of_iter_asc in Hk as [Hk _]. destruct Hp as [t ->]. by rewrite drop_app_length.
  - intros Hk. exists (p ++ k, v). cbn [fst snd]. rewrite drop_app_length. split; [done|].
    apply list_elem_of_filter. split; [by apply prefix_app_r|]. by apply elem_of_iter_asc.
Qed.

Lemma StronglySorted_filter' {A} (R : relation A) (P : A → Prop) `{∀ x, Decision (P x)} l :
  StronglySorted R l → StronglySorted R (filter P l).
Proof.
  induction 1 as [|x l Hl IH Hx]; [constructor|]. rewrite filter_cons.
  case_decide; [|done]. constructor; [done|].
  rewrite Forall_forall in *. intros y [_ ?]%list_elem_of_filter. auto.
Qed.

Lemma iter_asc_perm m r :
  iter_asc m r ≡ₚ filter (λ p, in_range r p.1 = true) (map_to_list m).
Proof. unfold iter_asc. by rewrite merge_sort_Permutation. Qed.

Lemma NoDup_iter_asc m r : NoDup ((iter_asc m r).*1).
Proof.
  rewrite iter_asc_perm. apply (sublist_NoDup _ ((map_to_list m).*1)); [apply NoDup_fst_map_to_list|].
  apply fmap_sublist, sublist_filter.
Qed.

Lemma NoDup_iter_desc m r : NoDup ((iter_desc m r).*1).
Proof. unfold iter_desc. rewrite fmap_reverse, reverse_Permutation. apply NoDup_iter_asc. Qed.

Lemma iter_asc_sorted m r : StronglySorted kv_lt (iter_asc m r).
Proof.
  assert (StronglySorted kv_le (iter_asc m r)) as Hs.
  { apply StronglySorted_filter', StronglySorted_merge_sort; apply _. }
  pose proof (NoDup_iter_asc m r) as Hnd.
  induction Hs as [|p l Hl IH Hp]; [constructor|].
  apply NoDup_cons in Hnd as [Hnin Hnd]. constructor; [auto|].
  rewrite Forall_forall in *. intros q Hq. specialize (Hp q Hq).
  apply bytes_le_lt_eq in Hp as [|E]; [done|]. exfalso. apply Hnin.
  rewrite E. by apply list_elem_of_fmap_2.
Qed.

Lemma StronglySorted_reverse {A} (R : relation A) l :
  StronglySorted R l → StronglySorted (flip R) (reverse l).
Proof.
  induction 1 as [|x l Hl IH Hx]; [constructor|]. rewrite reverse_cons.
  apply StronglySorted_app_2; [|done|by repeat constructor].
  intros y z Hy Hz%list_elem_of_singleton. subst z. rewrite elem_of_reverse in Hy.
  rewrite Forall_forall in Hx. exact (Hx y Hy).
Qed.

Lemma iter_desc_sorted m r : StronglySorted (flip kv_lt) (iter_desc m r).
Proof. apply StronglySorted_reverse, iter_asc_sorted. Qed.

(** An iteration depends only on the entries of its range. *)
Lemma iter_asc_ext m1 m2 r :
  (∀ k, in_range r k = true → m1 !! k = m2 !! k) → iter_asc m1 r = iter_asc m2 r.
Proof.
  intros H. eapply (StronglySorted_unique_strong kv_lt); try apply iter_asc_sorted.
  - intros p q _ _ H1 H2. exfalso. unfold kv_lt in *.
    eapply (irreflexivity bytes_lt p.1). by etrans.
  - apply NoDup_Permutation.
    + eapply NoDup_fmap_1, NoDup_iter_asc.
    + eapply NoDup_fmap_1, NoDup_iter_asc.
    + intros [k v]. rewrite !elem_of_iter_asc. split; intros [Hk Hr]; split; try done.
      * by rewrite <- H.
      * by rewrite H.
Qed.

Lemma iter_desc_ext m1 m2 r :
  (∀ k, in_range r k = true → m1 !! k = m2 !! k) → iter_desc m1 r = iter_desc m2 r.
Proof. intros. unfold iter_desc. f_equal. by apply iter_asc_ext. Qed.

(** Iterating a key prefix of the flat store is iterating the map that holds
    the entries of a shorter prefix. *)
Lemma iter_substore m (P p : bytes) :
  p ≠ [] → bytes_ok p → P `prefix_of` p →
  (∀ k v, m !! k = Some v → bytes_ok k ∧ length p ≤ length k) →
  iter_asc m (prefixRange p) =
  iter_asc (filter (λ kv, P `prefix_of` kv.1) m) (prefixRange p).
Proof.
  intros Hne Hok HP Hlen. apply iter_asc_ext. intros k Hr.
  rewrite prefixRange_bump in Hr by done.
  destruct (m !! k) as [v|] eqn:E.
  - symmetry. apply map_lookup_filter_Some. split; [done|].
    destruct (Hlen _ _ E). simpl. etrans; [exact HP|]. by apply bump_range.
  - symmetry. apply map_lookup_filter_None. by left.
Qed.

(** An iteration is determined by its entries: it is the one sorted list of them. *)
Lemma iter_asc_unique m r l :
  StronglySorted kv_lt l → (∀ k v, (k, v) ∈ l ↔ m !! k = Some v ∧ in_range r k = true) →
  iter_asc m r = l.
Proof.
  intros Hs He. assert (∀ p q, kv_lt p q → kv_lt q p → p = q) as Hasym.
  { intros p q H1 H2. exfalso. eapply (irreflexivity bytes_lt p.1). unfold kv_lt in *. by etrans. }
  apply (StronglySorted_unique_strong kv_lt); [auto|apply iter_asc_sorted|done|].
  apply NoDup_Permutation.
  - eapply NoDup_fmap_1, NoDup_iter_asc.
  - clear He Hasym. induction Hs as [|p l' Hs IH Hp]; constructor; [|done].
    intros Hin. rewrite Forall_forall in Hp. eapply (irreflexivity bytes_lt p.1). exact (Hp p Hin).
  - intros [k v]. by rewrite elem_of_iter_asc, He.
Qed.

(** Changing the value of a key changes that entry of the iteration. *)
Lemma iter_asc_update m r k v v' :
  m !! k = Some v →
  iter_asc (<[k := v']> m) r = (λ p, if decide (p.1 = k) then (k, v') else p) <$> iter_asc m r.
Proof.
  intros Hk. apply iter_asc_unique.
  - pose proof (iter_asc_sorted m r) as Hs. induction Hs as [|p l Hs IH Hp]; [constructor|].
    cbn. constructor; [done|]. rewrite Forall_fmap. eapply Forall_impl; [exact Hp|].
    intros q Hq. unfold kv_lt in *. cbn. repeat case_decide; cbn; congruence.
  - intros k' u. rewrite list_elem_of_fmap. split.
    + intros ([k1 u1] & E & [Hm Hr]%elem_of_iter_asc). cbn in E. case_decide; simplify_eq.
      * by rewrite lookup_insert_eq.
      * by rewrite lookup_insert_ne.
    + intros [Hl Hr]. destruct (decide (k' = k)) as [->|Hne].
      * rewrite lookup_insert_eq in Hl. simplify_eq. exists (k, v). cbn. rewrite decide_True by done.
        split; [done|]. by apply elem_of_iter_asc.
      * rewrite lookup_insert_ne in Hl by done. exists (k', u). cbn. rewrite decide_False by done.
        split; [done|]. by apply elem_of_iter_asc.
Qed.

(** A key above all others comes last. *)
Lemma iter_asc_append m r k v :
  in_range r k = true → (∀ k' v', m !! k' = Some v' → bytes_lt k' k) →
  iter_asc (<[k := v]> m) r = iter_asc m r ++ [(k, v)].
Proof.
  intros Hr Hlt. apply iter_asc_unique.
  - apply StronglySorted_app_2; [|apply iter_asc_sorted|repeat constructor].
    intros [k1 v1] q [Hm _]%elem_of_iter_asc ->%list_elem_of_singleton. by eapply Hlt.
  - intros k' u. rewrite elem_of_app, elem_of_iter_asc, list_elem_of_singleton. split.
    + intros [[Hm Hr']|[= -> ->]]; [|by rewrite lookup_insert_eq].
      rewrite lookup_insert_ne; [done|]. intros <-. eapply (irreflexivity bytes_lt k). by eapply Hlt.
    + intros [Hl Hr']. destruct (decide (k' = k)) as [->|Hne].
      * rewrite lookup_insert_eq in Hl. simplify_eq. by right.
      * rewrite lookup_insert_ne in Hl by done. by left.
Qed.

Lemma iter_asc_all m : iter_asc m (None, None) ≡ₚ map_to_list m.
Proof. rewrite iter_asc_perm. induction (map_to_list m) as [|p l IH]; [done|]. by rewrite filter_cons_True, IH. Qed.

Lemma iter_desc_all m : iter_desc m (None, None) ≡ₚ map_to_list m.
Proof. unfold iter_desc. by rewrite reverse_Permutation, iter_asc_all. Qed.

Lemma iter_desc_delete m r k v :
  m !! k = Some v → in_range r k = true →
  (k, v) :: iter_desc (delete k m) r ≡ₚ iter_desc m r.
Proof.
  intros Hk Hr. unfold iter_desc.
  rewrite !reverse_Permutation, !iter_asc_perm, <- (map_to_list_delete m k v Hk).
  rewrite filter_cons_True by done. done.
Qed.

Lemma iter_desc_insert m r k v :
  m !! k = None → in_range r k = true →
  iter_desc (<[k:=v]> m) r ≡ₚ (k, v) :: iter_desc m r.
Proof.
  intros Hk Hr. unfold iter_desc.
  rewrite !reverse_Permutation, !iter_asc_perm, (map_to_list_insert m k v Hk).
  rewrite filter_cons_True by done. done.
Qed.
(** Iterating the store from a prefix to the end that [prefixRange] computes
    visits exactly the entries whose key starts with that prefix, each once, in
    ascending order, provided that no key is shorter than the prefix. *)
Theorem prefix_iteration m p :
  p ≠ [] → bytes_ok p → (∀ k v, m !! k = Some v → bytes_ok k ∧ (length p ≤ length k)%nat) →
  StronglySorted kv_lt (iter_asc m (prefixRange p)) ∧
  ∀ k v, (k, v) ∈ iter_asc m (prefixRange p) ↔ m !! k = Some v ∧ p `prefix_of` k.
Proof.
  intros Hne Hok Hm. split; [apply iter_asc_sorted|]. intros k v. rewrite elem_of_iter_asc.
  split; intros [Hk Hr]; (split; [done|]); destruct (Hm k v Hk) as [Hkok Hlen];
    rewrite prefixRange_bump in * by done; by apply bump_range.
Qed.

(** A prefix store is iterated in the order of the rest of the keys. *)
Lemma sub_entries_sorted p m : StronglySorted kv_lt (sub_entries p m).
Proof.
  unfold sub_entries. pose proof (iter_asc_sorted m (None, None)) as Hs.
  apply (StronglySorted_filter' _ (λ kv, p `prefix_of` kv.1)) in Hs.
  assert (Forall (λ kv, p `prefix_of` kv.1) (filter (λ kv, p `prefix_of` kv.1) (iter_asc m (None, None)))) as Hp.
  { apply Forall_forall. by intros kv []%list_elem_of_filter. }
  induction Hs as [|[k v] l Hs IH Hk]; [constructor|]. apply Forall_cons in Hp as [[t E0] Hp].
  cbn [fst] in E0. subst k.
  cbn [fmap list_fmap]. constructor; [by apply IH|]. apply Forall_fmap, Forall_forall.
  intros [k' v'] Hin. rewrite !Forall_forall in *. specialize (Hk _ Hin).
  destruct (Hp _ Hin) as [t' E]. cbn [fst] in E. subst k'. revert Hk.
  unfold kv_lt, bytes_lt, bytes_ltb. cbn. rewrite !drop_app_length.
  by rewrite bytes_cmp_app, bytes_cmp_refl by done.
Qed.

Lemma NoDup_sub_entries p m : NoDup (sub_entries p m).
Proof.
  induction (sub_entries_sorted p m) as [|x l Hl IH Hx]; constructor; [|done].
  intros Hin. rewrite Forall_forall in Hx. apply Hx in Hin. by apply (irreflexivity bytes_lt x.1).
Qed.
End Iterators.
