(* ===== verification/GoStd.v ===== *)
(** * What the module uses of Go's standard library

    Byte strings ([strings], [bytes]), [encoding/hex], [encoding/binary],
    the conversion of runes to UTF-8, [math/big]'s [FillBytes] and [BitLen],
    and [crypto/md5].  A Go [string] is a byte sequence, here
    [Stdlib.Strings.String.string] whose characters are bytes. *)

From S2P Require Import Prelude.
From stdpp Require Import base gmap list strings.
From Stdlib Require Import Ascii.
From Stdlib Require String.

#[local] Open Scope Z_scope.

(** ** Strings and bytes *)

Definition ascii_byte (c : ascii) : Z := Z.of_N (N_of_ascii c).

(** [[]byte(s)] *)
Fixpoint bytes_of_string (s : string) : bytes :=
  match s with
  | EmptyString => []
  | String c s' => ascii_byte c :: bytes_of_string s'
  end.

(** [len(s)] *)
Definition slen (s : string) : Z := Z.of_nat (String.length s).

Lemma ascii_byte_ok c : byte_ok (ascii_byte c).
Proof. unfold byte_ok, ascii_byte. pose proof (N_ascii_bounded c). lia. Qed.

Lemma ascii_byte_inj c d : ascii_byte c = ascii_byte d → c = d.
Proof.
  unfold ascii_byte. intros H%N2Z.inj.
  by rewrite <- (ascii_N_embedding c), <- (ascii_N_embedding d), H.
Qed.

Lemma bytes_of_string_ok s : bytes_ok (bytes_of_string s).
Proof. induction s; constructor; [apply ascii_byte_ok|done]. Qed.

Lemma bytes_of_string_inj s t : bytes_of_string s = bytes_of_string t → s = t.
Proof.
  revert t. induction s as [|c s IH]; intros [|d t]; simpl; try done.
  intros [= Hc Ht]. apply ascii_byte_inj in Hc as ->. by rewrite (IH t).
Qed.

(** [string(b)] *)
Fixpoint string_of_bytes (b : bytes) : string :=
  match b with
  | [] => EmptyString
  | x :: b' => String (ascii_of_N (Z.to_N x)) (string_of_bytes b')
  end.

Lemma string_of_bytes_of_string s : string_of_bytes (bytes_of_string s) = s.
Proof.
  induction s as [|c s IH]; [done|]. simpl. unfold ascii_byte.
  by rewrite N2Z.id, ascii_N_embedding, IH.
Qed.

Lemma length_bytes_of_string s : length (bytes_of_string s) = String.length s.
Proof. induction s; simpl; congruence. Qed.

#[global] Arguments Ascii.eqb : simpl never.

(** [strings.HasPrefix] *)
Fixpoint HasPrefix (s p : string) : bool :=
  match p, s with
  | EmptyString, _ => true
  | String c p', String d s' => Ascii.eqb d c && HasPrefix s' p'
  | String _ _, EmptyString => false
  end.

(** [s[i] == c], false out of range *)
Definition char_at (i : nat) (s : string) (c : ascii) : bool :=
  match String.get i s with Some d => Ascii.eqb d c | None => false end.

Fixpoint drop_str (n : nat) (s : string) : string :=
  match n, s with
  | O, _ => s
  | S n', String _ s' => drop_str n' s'
  | S _, EmptyString => EmptyString
  end.

(** [strings.TrimPrefix] *)
Definition TrimPrefix (s p : string) : string :=
  if HasPrefix s p then drop_str (String.length p) s else s.

(** [strings.Contains] *)
Fixpoint Contains (s sub : string) : bool :=
  HasPrefix s sub ||
  match s with EmptyString => false | String _ s' => Contains s' sub end.

(** [strings.TrimSpace(s) == ""] for the ASCII white space. *)
Definition is_space (c : Ascii.ascii) : bool :=
  existsb (Z.eqb (ascii_byte c)) [9; 10; 11; 12; 13; 32].
Definition blank (s : string) : bool := forallb is_space (String.list_ascii_of_string s).

(** [strings.TrimSpace] for the ASCII white space *)
Fixpoint trim_left (s : string) : string :=
  match s with
  | EmptyString => EmptyString
  | String c s' => if is_space c then trim_left s' else s
  end.
Fixpoint trim_right (s : string) : string :=
  match s with
  | EmptyString => EmptyString
  | String c s' => if blank s then EmptyString else String c (trim_right s')
  end.
Definition TrimSpace (s : string) : string := trim_right (trim_left s).

(** [strings.ToLower] on ASCII letters *)
Fixpoint ToLower (s : string) : string :=
  match s with
  | EmptyString => EmptyString
  | String c s' =>
      let n := ascii_byte c in
      String (if (65 <=? n) && (n <=? 90) then Ascii.ascii_of_N (Z.to_N (n + 32)) else c) (ToLower s')
  end.

(** [s[i:i+n]] when it is in range *)
Definition substr (i n : nat) (s : string) : string := String.substring i n s.

Lemma append_cons c s t : String c s +:+ t = String c (s +:+ t).
Proof. done. Qed.

Lemma HasPrefix_app p s : HasPrefix (p +:+ s) p = true.
Proof.
  induction p as [|c p IH]; [by destruct s|].
  rewrite append_cons. simpl. by rewrite Ascii.eqb_refl.
Qed.

Lemma HasPrefix_inv s p : HasPrefix s p = true → ∃ t, s = p +:+ t.
Proof.
  revert s. induction p as [|c p IH]; intros s H; [by exists s|].
  destruct s as [|d s]; [done|]. simpl in H. apply andb_prop in H as [->%Ascii.eqb_eq H].
  destruct (IH s H) as [t ->]. exists t. by rewrite append_cons.
Qed.

Lemma drop_str_app p s : drop_str (String.length p) (p +:+ s) = s.
Proof. induction p; [by destruct s|]. rewrite append_cons. done. Qed.

Lemma TrimPrefix_app p s : TrimPrefix (p +:+ s) p = s.
Proof. unfold TrimPrefix. by rewrite HasPrefix_app, drop_str_app. Qed.

Lemma slen_app s t : slen (s +:+ t) = slen s + slen t.
Proof. unfold slen. induction s; [done|]. rewrite append_cons. simpl. lia. Qed.

(** ** encoding/hex *)

Definition hexval (c : ascii) : option Z :=
  let n := ascii_byte c in
  if (48 <=? n) && (n <=? 57) then Some (n - 48)
  else if (97 <=? n) && (n <=? 102) then Some (n - 87)
  else if (65 <=? n) && (n <=? 70) then Some (n - 55)
  else None.

Definition is_hex (c : ascii) : bool := match hexval c with Some _ => true | None => false end.

Definition all_hex (s : string) : bool := forallb is_hex (String.list_ascii_of_string s).

(** [hex.DecodeString]; [None] is the error. *)
Fixpoint hex_decode (s : string) : option bytes :=
  match s with
  | EmptyString => Some []
  | String a (String b s') =>
      match hexval a, hexval b, hex_decode s' with
      | Some x, Some y, Some l => Some (x * 16 + y :: l)
      | _, _, _ => None
      end
  | String _ EmptyString => None
  end.

Definition hexdigit (d : Z) : ascii :=
  ascii_of_N (Z.to_N (if d <? 10 then d + 48 else d + 87)).

(** [hex.EncodeToString] *)
Fixpoint hex_encode (l : bytes) : string :=
  match l with
  | [] => EmptyString
  | b :: l' => String (hexdigit (b / 16)) (String (hexdigit (b mod 16)) (hex_encode l'))
  end.

Lemma hexval_hexdigit d : 0 ≤ d < 16 → hexval (hexdigit d) = Some d.
Proof.
  intros H.
  assert (Forall (λ d, hexval (hexdigit d) = Some d) (seqZ 0 16)) as Hall.
  { rewrite <- (bool_decide_spec (Forall _ _)). vm_compute. done. }
  rewrite Forall_forall in Hall. apply Hall. rewrite elem_of_seqZ. lia.
Qed.

Lemma hex_decode_encode l : bytes_ok l → hex_decode (hex_encode l) = Some l.
Proof.
  induction 1 as [|b l Hb Hl IH]; [done|]. unfold byte_ok in Hb. cbn [hex_encode hex_decode].
  rewrite !hexval_hexdigit, IH.
  - do 2 f_equal. pose proof (Z.div_mod b 16). lia.
  - apply Z.mod_pos_bound. lia.
  - split; [apply Z.div_pos|apply Z.div_lt_upper_bound]; lia.
Qed.

Lemma length_hex_encode l : String.length (hex_encode l) = (2 * length l)%nat.
Proof. induction l as [|b l IH]; simpl; lia. Qed.

Lemma hexval_range c d : hexval c = Some d → 0 ≤ d < 16.
Proof.
  unfold hexval. intros H. pose proof (ascii_byte_ok c) as Hc. unfold byte_ok in Hc.
  repeat case_match; zbool; simplify_eq; lia.
Qed.

Lemma hex_decode_ok s l :
  hex_decode s = Some l →
  bytes_ok l ∧ String.length s = (2 * length l)%nat ∧ all_hex s = true.
Proof.
  unfold all_hex. revert l. induction s as [s IH] using
    (well_founded_induction (Wf_nat.well_founded_ltof _ String.length)).
  intros l H. destruct s as [|a [|b s]]; simpl in H; [simplify_eq; by repeat constructor|done|].
  destruct (hexval a) as [x|] eqn:Ha, (hexval b) as [y|] eqn:Hb,
    (hex_decode s) as [l'|] eqn:Hl; simplify_eq.
  destruct (IH s ltac:(unfold Wf_nat.ltof; simpl; lia) l' Hl) as (Hok & Hlen & Hall).
  split_and!.
  - constructor; [|done]. apply hexval_range in Ha, Hb. unfold byte_ok. lia.
  - simpl. lia.
  - simpl. unfold is_hex at 1 2. by rewrite Ha, Hb.
Qed.

Lemma hex_decode_total s :
  all_hex s = true → Nat.even (String.length s) = true → is_Some (hex_decode s).
Proof.
  unfold all_hex. induction s as [s IH] using
    (well_founded_induction (Wf_nat.well_founded_ltof _ String.length)).
  destruct s as [|a [|b s]]; [done|done|]. cbn -[hexval]. unfold is_hex at 1 2.
  destruct (hexval a), (hexval b); try done. intros Hall Hev.
  destruct (IH s ltac:(unfold Wf_nat.ltof; simpl; lia) Hall Hev) as [l ->]. eauto.
Qed.

(** ** Runes *)

(** [string(rune)] for a code point below 256, as [string(b)] of a byte [b]. *)
Definition utf8_of_byte (b : Z) : bytes :=
  if b <? 128 then [b] else [192 + b / 64; 128 + b mod 64].

(** ** math/big *)

(** [x.FillBytes(buf)] with a buffer of [n] bytes; it panics ([None]) when the
    value does not fit. *)
Definition FillBytes (n : nat) (x : Z) : option bytes :=
  if Z.abs x <? 256 ^ Z.of_nat n then Some (be_bytes n (Z.abs x)) else None.

(** [x.BitLen()] *)
Definition BitLen (x : Z) : Z := if x =? 0 then 0 else Z.log2 (Z.abs x) + 1.

(** ** strconv *)

Definition digit (c : ascii) : option Z :=
  let n := ascii_byte c in if (48 <=? n) && (n <=? 57) then Some (n - 48) else None.

Fixpoint parse_digits (s : string) (acc : Z) : option Z :=
  match s with
  | EmptyString => Some acc
  | String c s' => d ← digit c; parse_digits s' (10 * acc + d)
  end.

(** [strconv.ParseUint(s, 10, 64)] *)
Definition ParseUint (s : string) : res Z :=
  if decide (s = "") then Er (ErrSdk "invalid syntax") else
  match parse_digits s 0 with
  | None => Er (ErrSdk "invalid syntax")
  | Some n => if two64 <=? n then Er (ErrSdk "value out of range") else Ok n
  end.

(** [strconv.ParseBool] *)
Definition ParseBool (s : string) : res bool :=
  if bool_decide (s ∈ ["1"; "t"; "T"; "TRUE"; "true"; "True"]) then Ok true
  else if bool_decide (s ∈ ["0"; "f"; "F"; "FALSE"; "false"; "False"]) then Ok false
  else Er (ErrSdk "invalid syntax").

(** ** crypto/md5 (RFC 1321) *)

Module MD5.

Definition w32 (x : Z) : Z := x mod 4294967296.
Definition rotl (x s : Z) : Z := w32 (Z.lor (Z.shiftl x s) (Z.shiftr x (32 - s))).
Definition bnot (x : Z) : Z := 4294967295 - x.

Definition K : list Z :=
  [
3614090360; 3905402710; 606105819; 3250441966;
   4118548399; 1200080426; 2821735955; 4249261313;
   1770035416; 2336552879; 4294925233; 2304563134;
   1804603682; 4254626195; 2792965006; 1236535329;
   4129170786; 3225465664; 643717713; 3921069994;
   3593408605; 38016083; 3634488961; 3889429448;
   568446438; 3275163606; 4107603335; 1163531501;
   2850285829; 4243563512; 1735328473; 2368359562;
   4294588738; 2272392833; 1839030562; 4259657740;
   2763975236; 1272893353; 4139469664; 3200236656;
   681279174; 3936430074; 3572445317; 76029189;
   3654602809; 3873151461; 530742520; 3299628645;
   4096336452; 1126891415; 2878612391; 4237533241;
   1700485571; 2399980690; 4293915773; 2240044497;
   1873313359; 4264355552; 2734768916; 1309151649;
   4149444226; 3174756917; 718787259; 3951481745].

Definition shifts : list Z :=
  concat (replicate 4 [7; 12; 17; 22]) ++ concat (replicate 4 [5; 9; 14; 20]) ++
  concat (replicate 4 [4; 11; 16; 23]) ++ concat (replicate 4 [6; 10; 15; 21]).

Definition le_bytes (n : nat) (z : Z) : bytes := reverse (be_bytes n z).

(** One of the 64 steps on the state [(a, b, c, d)]. *)
Definition step (w : list Z) (i : nat) (st : Z * Z * Z * Z) : Z * Z * Z * Z :=
  let '(a, b, c, d) := st in
  let iz := Z.of_nat i in
  let '(f, g) :=
    if (iz <? 16) then (Z.lor (Z.land b c) (Z.land (bnot b) d), iz)
    else if (iz <? 32) then (Z.lor (Z.land d b) (Z.land (bnot d) c), (5 * iz + 1) mod 16)
    else if (iz <? 48) then (Z.lxor (Z.lxor b c) d, (3 * iz + 5) mod 16)
    else (Z.lxor c (Z.lor b (bnot d)), (7 * iz) mod 16) in
  let f' := w32 (f + a + nth i K 0 + nth (Z.to_nat g) w 0) in
  (d, w32 (b + rotl f' (nth i shifts 0)), b, c).

Fixpoint words (l : bytes) : list Z :=
  match l with
  | a :: b :: c :: d :: l' => (a + 256 * b + 65536 * c + 16777216 * d) :: words l'
  | _ => []
  end.

Definition block (st : Z * Z * Z * Z) (chunk : bytes) : Z * Z * Z * Z :=
  let w := words chunk in
  let '(a, b, c, d) := foldl (λ s i, step w i s) st (seq 0 64) in
  let '(a0, b0, c0, d0) := st in
  (w32 (a0 + a), w32 (b0 + b), w32 (c0 + c), w32 (d0 + d)).

(** The message, a one bit, zeros up to 56 modulo 64, and the bit length. *)
Definition pad (m : bytes) : bytes :=
  let n := Z.of_nat (length m) in
  m ++ [128] ++ replicate (Z.to_nat ((55 - n) mod 64)) 0 ++ le_bytes 8 (8 * n).

Fixpoint blocks (fuel : nat) (st : Z * Z * Z * Z) (m : bytes) : Z * Z * Z * Z :=
  match fuel, m with
  | S fuel', _ :: _ => blocks fuel' (block st (take 64 m)) (drop 64 m)
  | _, _ => st
  end.

Definition sum (m : bytes) : bytes :=
  let p := pad m in
  let '(a, b, c, d) :=
    blocks (length p) (1732584193, 4023233417, 2562383102, 271733878) p in
  le_bytes 4 a ++ le_bytes 4 b ++ le_bytes 4 c ++ le_bytes 4 d.

Lemma length_sum m : length (sum m) = 16%nat.
Proof.
  unfold sum. destruct (blocks _ _ _) as [[[a b] c] d]. unfold le_bytes.
  by rewrite !length_app, !length_reverse, !length_be_bytes.
Qed.

Lemma sum_ok m : bytes_ok (sum m).
Proof.
  unfold sum. destruct (blocks _ _ _) as [[[a b] c] d]. unfold le_bytes, bytes_ok.
  rewrite !Forall_app. split_and!; rewrite reverse_Permutation; apply be_bytes_ok.
Qed.

End MD5.
