(* ===== verification/Config.v ===== *)
(** * Names shared by the modules

    The native token (src/module/config/config.go) and the module accounts that the
    bridge and the auctions pay to each other's (src/module/x/auction/types/keys.go). *)

From stdpp Require Import base strings.

Definition NativeTokenDenom : string := "ugraviton".
Definition AuctionPoolAccountName : string := "auction_pool".
