(* ===== verification/External.v ===== *)
(** * The libraries the module calls

    go-ethereum's [common] package, the Cosmos SDK's address, coin and integer
    types and the bank keeper are not part of this repository.  Each is an
    interface (a class of operations) with the documented behaviour the module
    relies on (a class of laws): theorems that need a law name it in their
    context, and [Instances] gives concrete implementations of all of them. *)

From S2P Require Import Prelude GoStd.
From stdpp Require Import base gmap list strings.

#[local] Open Scope Z_scope.

(** ** go-ethereum/common *)

Definition has0x (s : string) : bool := HasPrefix s "0x" || HasPrefix s "0X".
Definition strip0x (s : string) : string := if has0x s then drop_str 2 s else s.

(** A [common.Address] is an array of 20 bytes. *)
Definition addr_ok (a : bytes) : Prop := length a = 20%nat ∧ bytes_ok a.

Class Geth := {
  IsHexAddress : string → bool;
  HexToAddress : string → bytes;
  BytesToAddress : bytes → bytes;
  (** [Address.Hex], the EIP-55 form with its mixed-case checksum *)
  Hex : bytes → string;
}.

Class GethLaws `{Geth} := {
  is_hex_address_spec s :
    IsHexAddress s = ((slen (strip0x s) =? 40) && all_hex (strip0x s));
  hex_to_address_spec s l :
    hex_decode (strip0x s) = Some l → length l = 20%nat → HexToAddress s = l;
  hex_to_address_ok s : addr_ok (HexToAddress s);
  bytes_to_address_spec b : length b = 20%nat → BytesToAddress b = b;
  (** [Hex] is 0x and the hexadecimal digits of the address, in some case. *)
  hex_spec a : addr_ok a → ∃ t, Hex a = "0x" +:+ t ∧ hex_decode t = Some a;
}.

(** ** Cosmos SDK: addresses, integers and coins *)

Class Sdk := {
  VerifyAddressFormat : bytes → res unit;
  AccAddressFromBech32 : string → res bytes;
  AccAddressString : bytes → string;
  ValAddressFromBech32 : string → res bytes;
  ValAddressString : bytes → string;
  (** [sdk.ValidateDenom(denom) == nil] *)
  ValidateDenom : string → bool;
  GetModuleAddress : string → bytes;
}.

Class SdkLaws `{Sdk} := {
  acc_bech32_roundtrip a :
    VerifyAddressFormat a = Ok tt → AccAddressFromBech32 (AccAddressString a) = Ok a;
  acc_bech32_verified s a :
    AccAddressFromBech32 s = Ok a → VerifyAddressFormat a = Ok tt;
  val_bech32_roundtrip a :
    VerifyAddressFormat a = Ok tt → ValAddressFromBech32 (ValAddressString a) = Ok a;
  val_bech32_verified s a :
    ValAddressFromBech32 s = Ok a → VerifyAddressFormat a = Ok tt;
  (** An address has at least one byte. *)
  empty_address : VerifyAddressFormat [] ≠ Ok tt;
}.

(** The SDK's bech32 package and the chain's configured account and validator
    prefixes. *)
Class Bech32 := {
  DecodeAndConvert : string → res (string * bytes);
  GetBech32AccountAddrPrefix : string;
  GetBech32ValidatorAddrPrefix : string;
}.

(** [sdkmath.Int]: an integer between -(2^256 - 1) and 2^256 - 1; an operation
    whose result is out of range panics ([None]). *)
Definition int_ok (x : Z) : Prop := Z.abs x < 2 ^ 256.
Definition int_check (x : Z) : option Z := if Z.abs x <? 2 ^ 256 then Some x else None.
Definition Int_Add (a b : Z) : option Z := int_check (a + b).
Definition Int_Sub (a b : Z) : option Z := int_check (a - b).
Definition Int_Mul (a b : Z) : option Z := int_check (a * b).

Record Coin := mkCoin { Denom : string; Amount : Z }.

#[global] Instance Coin_eq_dec : EqDecision Coin.
Proof. solve_decision. Defined.

(** [Coin.IsValid]: a valid denom and an amount that is not negative. *)
Definition Coin_IsValid `{Sdk} (c : Coin) : bool :=
  ValidateDenom (Denom c) && (0 <=? Amount c).

(** [sdk.NewCoin] panics on an invalid coin. *)
Definition NewCoin `{Sdk} (denom : string) (amount : Z) : option Coin :=
  if Coin_IsValid (mkCoin denom amount) then Some (mkCoin denom amount) else None.

(** [Coin.Sub] panics when the denoms differ or the difference is negative. *)
Definition Coin_Sub (a b : Coin) : option Coin :=
  if decide (Denom a = Denom b)
  then if Amount a <? Amount b then None else mkCoin (Denom a) <$> Int_Sub (Amount a) (Amount b)
  else None.

(** [Coin.Add] panics when the denoms differ or the sum overflows. *)
Definition Coin_Add (a b : Coin) : option Coin :=
  if decide (Denom a = Denom b)
  then mkCoin (Denom a) <$> Int_Add (Amount a) (Amount b) else None.

(** [sdk.NewCoins] of one coin drops it when its amount is zero and panics when
    the coin is invalid. *)
Definition NewCoins1 `{Sdk} (c : Coin) : option (list Coin) :=
  if Amount c =? 0 then Some []
  else if Coin_IsValid c then Some [c] else None.

Record DenomUnit := mkDenomUnit {
  du_Denom : string; du_Exponent : Z; du_Aliases : list string }.

Record Metadata := mkMetadata {
  md_Description : string; md_DenomUnits : list DenomUnit; md_Base : string;
  md_Display : string; md_Name : string; md_Symbol : string;
  md_URI : string; md_URIHash : string }.

#[global] Instance DenomUnit_eq_dec : EqDecision DenomUnit.
Proof. solve_decision. Defined.
#[global] Instance Metadata_eq_dec : EqDecision Metadata.
Proof. solve_decision. Defined.

(** ** x/bank

    An operation returns the error, if any, and the new state. *)
Class Bank (B : Type) := {
  SendCoinsFromAccountToModule : bytes → string → list Coin → B → option gerror * B;
  SendCoinsFromModuleToAccount : string → bytes → list Coin → B → option gerror * B;
  SendCoinsFromModuleToModule : string → string → list Coin → B → option gerror * B;
  MintCoins : string → list Coin → B → option gerror * B;
  BurnCoins : string → list Coin → B → option gerror * B;
  GetBalance : B → bytes → string → Z;
  GetSupply : B → string → Z;
  GetDenomMetaData : B → string → option Metadata;
}.

(** ** ibc-transfer, x/bech32ibc and x/distribution

    [GetHrpIbcRecord] is the source channel of the record; [AddToFeePool] is the
    bookkeeping of the community pool's coins, [FeePool.Get] and [FeePool.Set]. *)
Record MsgTransfer := mkMsgTransfer {
  mt_SourcePort : string; mt_SourceChannel : string; mt_Token : Coin; mt_Sender : string;
  mt_Receiver : string; mt_TimeoutTimestamp : Z; mt_Memo : string }.

Class Ibc (B : Type) := {
  GetNativeHrp : B → res string;
  GetHrpIbcRecord : B → string → res string;
  GetPort : B → string;
  Transfer : MsgTransfer → B → option gerror * B;
  AddToFeePool : list Coin → B → option gerror * B;
  (** [ctx.BlockTime().UnixNano()] *)
  BlockTimeNano : B → Z;
}.

(** ** sdkmath.LegacyDec

    A decimal is an integer scaled by 10^18.  Each operation is [None] when it
    panics because its result is out of range. *)
Definition dec_one : Z := 1000000000000000000.

Class Decimals := {
  (** [LegacyNewDecFromInt] *)
  Dec_FromInt : Z → option Z;
  Dec_QuoInt64 : Z → Z → option Z;
  Dec_MulInt64 : Z → Z → option Z;
  Dec_Mul : Z → Z → option Z;
  Dec_TruncateInt : Z → option Z;
  Dec_Add : Z → Z → option Z;
}.

(** Division by an integer and truncation round towards zero; a product that is a
    multiple of 10^18 needs no rounding. *)
Class DecimalsLaws `{Decimals} := {
  dec_from_int x d : Dec_FromInt x = Some d → d = x * dec_one;
  dec_quo_int64 d i q : Dec_QuoInt64 d i = Some q → q = Z.quot d i;
  dec_mul_int64 d i p : Dec_MulInt64 d i = Some p → p = d * i;
  dec_mul a b p : Dec_Mul a b = Some p → (dec_one | a * b) → p * dec_one = a * b;
  dec_add a b c : Dec_Add a b = Some c → c = a + b;
  dec_truncate d x : Dec_TruncateInt d = Some x → x = Z.quot d dec_one;
}.

(** ** x/auth

    [GetAccount] is non-nil, and [ante.DeductFees] of that account. *)
Class Accounts (B : Type) := {
  HasAccount : B → bytes → bool;
  DeductFees : bytes → list Coin → B → option gerror * B;
}.

(** ** x/mint, and the parameters of x/auction the bridge asks for *)

Class Mint (B : Type) := { MintDenom : B → res string }.
Class AuctionParams (B : Type) := { NonAuctionableTokens : B → res (list string) }.

(** The text formats of the SDK's decimals and coins, and [json.Unmarshal] into a
    list of strings. *)
Class TextFormats := {
  LegacyNewDecFromStr : string → res Z;
  ParseCoinNormalized : string → res Coin;
  UnmarshalStrings : string → res (list string);
}.

(** The total amount of [denom] in a list of coins. *)
Definition amount_of (denom : string) (cs : list Coin) : Z :=
  sumZ (λ c, if decide (Denom c = denom) then Amount c else 0) cs.

Section BankLaws.
Context {B : Type} `{Sdk} `{Bank B}.

(** [b'] is [b] after coins [cs] left [from] and arrived at [to]. *)
Definition moved (b b' : B) (from to : bytes) (cs : list Coin) : Prop :=
  (∀ a d, GetBalance b' a d =
     GetBalance b a d + (if decide (a = to) then amount_of d cs else 0)
                      - (if decide (a = from) then amount_of d cs else 0)) ∧
  (∀ d, GetSupply b' d = GetSupply b d) ∧
  (∀ d, GetDenomMetaData b' d = GetDenomMetaData b d).

(** [b'] is [b] with [sign] times [cs] added to [acc] and to the supply. *)
Definition supplied (sign : Z) (b b' : B) (acc : bytes) (cs : list Coin) : Prop :=
  (∀ a d, GetBalance b' a d =
     GetBalance b a d + (if decide (a = acc) then sign * amount_of d cs else 0)) ∧
  (∀ d, GetSupply b' d = GetSupply b d + sign * amount_of d cs) ∧
  (∀ d, GetDenomMetaData b' d = GetDenomMetaData b d).
End BankLaws.

Class BankLaws (B : Type) `{Sdk} `{Bank B} := {
  send_acc_mod a m cs b b' :
    SendCoinsFromAccountToModule a m cs b = (None, b') →
    moved b b' a (GetModuleAddress m) cs;
  send_mod_acc m a cs b b' :
    SendCoinsFromModuleToAccount m a cs b = (None, b') →
    moved b b' (GetModuleAddress m) a cs;
  send_mod_mod m n cs b b' :
    SendCoinsFromModuleToModule m n cs b = (None, b') →
    moved b b' (GetModuleAddress m) (GetModuleAddress n) cs;
  mint_coins m cs b b' :
    MintCoins m cs b = (None, b') → supplied 1 b b' (GetModuleAddress m) cs;
  burn_coins m cs b b' :
    BurnCoins m cs b = (None, b') → supplied (-1) b b' (GetModuleAddress m) cs;
  (** A balance is a valid amount. *)
  balance_range b a d : 0 ≤ GetBalance b a d < 2 ^ 256;
}.

(** All balances of an account. *)
Class BankBalances (W : Type) := { GetAllBalances : W → bytes → list Coin }.

(** The balances are those the bank reports by denom, without the zero ones. *)
Class BankBalancesLaws (W : Type) `{Bank W} `{BankBalances W} := {
  all_balances w a c :
    c ∈ GetAllBalances w a ↔ GetBalance w a (Denom c) = Amount c ∧ Amount c ≠ 0;
}.

(** Module accounts of different names are different. *)
Class ModuleAccounts `{Sdk} := {
  module_address_inj m n : GetModuleAddress m = GetModuleAddress n → m = n;
}.

(** The fees of a transaction go to the module account that collects them. *)
Definition FeeCollectorName : string := "fee_collector".

Class AccountsLaws (B : Type) `{Sdk} `{Bank B} `{Accounts B} := {
  deduct_fees a cs b b' :
    DeductFees a cs b = (None, b') → moved b b' a (GetModuleAddress FeeCollectorName) cs;
}.

Lemma amount_of_singleton d c :
  amount_of d [c] = if decide (Denom c = d) then Amount c else 0.
Proof. unfold amount_of. simpl. case_decide; lia. Qed.

Lemma int_check_inv x y : int_check x = Some y → y = x ∧ int_ok x.
Proof. unfold int_check, int_ok. case_match; zbool; naive_solver. Qed.

Lemma int_check_ok x : int_ok x → int_check x = Some x.
Proof. unfold int_check, int_ok. intros ?%Z.ltb_lt. by case_match. Qed.

Lemma Int_Add_ok a b : 0 ≤ a + b < 2 ^ 256 → Int_Add a b = Some (a + b).
Proof. intros. apply int_check_ok. unfold int_ok. rewrite Z.abs_eq; lia. Qed.

(** [x := f()] where [f] panics on [None]. *)
Definition opt_panic {S A} (msg : string) (o : option A) : M S A :=
  match o with Some a => mret a | None => panic msg end.

Lemma opt_panic_inv {S A} msg (o : option A) (s s' : S) a :
  opt_panic msg o s = Ret a s' → o = Some a ∧ s' = s.
Proof. destruct o; unfold opt_panic, panic, mret, M_ret; naive_solver. Qed.

Lemma readonly_opt_panic {S A} msg (o : option A) : readonly (opt_panic msg o : M S A).
Proof. by destruct o. Qed.
#[export] Hint Resolve readonly_opt_panic : readonly.

Ltac minv_ext :=
  repeat (first
    [ minv_step
    | match goal with
      | H : opt_panic _ _ _ = Ret _ _ |- _ => apply opt_panic_inv in H as [? ?]
      end ]; simplify_eq).

(** ** x/gov

    The checks of a proposal's title and description *)
Class GovContent := { ValidateAbstract : string → string → res unit }.

(** ** Consequences of the laws *)

Section Bech32Injective.
Context `{SdkLaws}.

Lemma ValAddressString_inj a b :
  VerifyAddressFormat a = Ok tt → VerifyAddressFormat b = Ok tt →
  ValAddressString a = ValAddressString b → a = b.
Proof.
  intros Ha Hb E. apply val_bech32_roundtrip in Ha, Hb. rewrite E in Ha. congruence.
Qed.

Lemma AccAddressString_inj a b :
  VerifyAddressFormat a = Ok tt → VerifyAddressFormat b = Ok tt →
  AccAddressString a = AccAddressString b → a = b.
Proof.
  intros Ha Hb E. apply acc_bech32_roundtrip in Ha, Hb. rewrite E in Ha. congruence.
Qed.

End Bech32Injective.
