(* ===== verification/Ethereum.v ===== *)
(** * Ethereum addresses, ERC20 amounts and denoms

    types/ethereum.go, types/asset_origin.go and types/denom_validation.go:
    validated Ethereum addresses, the two namespaces of Ethereum-originated
    denoms (gravity0x... and gravity20x...), and the strict denom rules. *)

From S2P Require Import Prelude GoStd External.
From stdpp Require Import base gmap list strings.
From Stdlib Require Import Ascii.
From Stdlib Require String.

#[local] Open Scope Z_scope.

(** ** Constants *)

Definition ModuleName : string := "gravity".
Definition GravityDenomPrefix : string := ModuleName.
Definition GravityDenomSeparator : string := "".
Definition ETHContractAddressLen : Z := 42.
Definition GravityDenomLen : Z :=
  slen GravityDenomPrefix + slen GravityDenomSeparator + ETHContractAddressLen.
Definition Gravity2DenomPrefix : string := "gravity2".
Definition Gravity2DenomLen : Z := slen Gravity2DenomPrefix + ETHContractAddressLen.
Definition ZeroAddressString : string := "0x0000000000000000000000000000000000000000".

(** ** Ethereum addresses *)

(** [type EthAddress struct { address gethcommon.Address }] *)
Record EthAddress := mkEthAddress { GetAddress : bytes }.

#[global] Instance EthAddress_eq_dec : EqDecision EthAddress.
Proof. solve_decision. Defined.

Definition eth_ok (a : EthAddress) : Prop := addr_ok (GetAddress a).

Definition has0xPrefix (str : string) : bool :=
  (2 <=? slen str) && char_at 0 str "0" && (char_at 1 str "x" || char_at 1 str "X").

(** ** ERC20 amounts *)

Record ERC20Token := mkERC20Token { et_Amount : Z; et_Contract : string }.
Record InternalERC20Token := mkInternalERC20Token {
  it_Amount : Z; it_Contract : EthAddress }.

#[global] Instance ERC20Token_eq_dec : EqDecision ERC20Token.
Proof. solve_decision. Defined.
#[global] Instance InternalERC20Token_eq_dec : EqDecision InternalERC20Token.
Proof. solve_decision. Defined.

Section Addresses.
Context `{Geth}.

Definition ValidateEthAddress (address : string) : res unit :=
  if decide (address = "") then Er (ErrSdk "empty") else
  let address := if has0xPrefix address then drop_str 2 address else address in
  match hex_decode address with
  | None => Er (ErrSdk "invalid hex")
  | Some _ =>
      if IsHexAddress address then Ok tt
      else Er (ErrSdk "format validation")
  end.

Definition SetAddress (ea : EthAddress) (address : string) : res EthAddress :=
  _ ← ValidateEthAddress address; Ok (mkEthAddress (HexToAddress address)).

Definition NewEthAddressFromBytes (address : bytes) : res EthAddress :=
  _ ← ValidateEthAddress (hex_encode address);
  Ok (mkEthAddress (BytesToAddress address)).

Definition NewEthAddress (address : string) : res EthAddress :=
  _ ← ValidateEthAddress address; Ok (mkEthAddress (HexToAddress address)).

Definition ZeroAddress : EthAddress := mkEthAddress (HexToAddress ZeroAddressString).

Definition EthAddress_ValidateBasic (ea : EthAddress) : res unit :=
  ValidateEthAddress (Hex (GetAddress ea)).

Definition EthAddrLessThan (e o : EthAddress) : bool :=
  bytes_ltb (bytes_of_string (Hex (GetAddress e))) (bytes_of_string (Hex (GetAddress o))).

Definition InternalERC20Token_ValidateBasic (i : InternalERC20Token) : res unit :=
  if it_Amount i <? 0 then Er (ErrSdk "coins must not be negative")
  else EthAddress_ValidateBasic (it_Contract i).

Definition NewInternalERC20Token (amount : Z) (contract : string) : res InternalERC20Token :=
  ethAddress ← NewEthAddress contract;
  let ret := mkInternalERC20Token amount ethAddress in
  _ ← InternalERC20Token_ValidateBasic ret;
  Ok ret.

Definition ERC20Token_ToInternal (e : ERC20Token) : res InternalERC20Token :=
  NewInternalERC20Token (et_Amount e) (et_Contract e).

Definition InternalERC20Token_ToExternal (i : InternalERC20Token) : ERC20Token :=
  mkERC20Token (it_Amount i) (Hex (GetAddress (it_Contract i))).

(** The sum may panic ([None]) on overflow. *)
Definition InternalERC20Token_Add (i o : InternalERC20Token) : option (res InternalERC20Token) :=
  if decide (GetAddress (it_Contract i) = GetAddress (it_Contract o)) then
    sum ← Int_Add (it_Amount i) (it_Amount o);
    Some (NewInternalERC20Token sum (Hex (GetAddress (it_Contract i))))
  else Some (Er ErrMismatched).

(** ** Denoms of Ethereum-originated assets *)

Definition GravityDenom (tokenContract : EthAddress) : string :=
  GravityDenomPrefix +:+ GravityDenomSeparator +:+ Hex (GetAddress tokenContract).

Definition GravityDenomToERC20 (denom : string) : res EthAddress :=
  if HasPrefix denom Gravity2DenomPrefix then Er (ErrSdk "gravity2 prefix") else
  let fullPrefix := GravityDenomPrefix +:+ GravityDenomSeparator in
  if negb (HasPrefix denom fullPrefix) then Er (ErrSdk "denom prefix") else
  let contract := TrimPrefix denom fullPrefix in
  match NewEthAddress contract with
  | Er _ => Er (ErrSdk "error validating ethereum contract address")
  | Ok ethAddr =>
      if negb (slen denom =? GravityDenomLen) then Er (ErrSdk "len(denom)")
      else Ok ethAddr
  end.

Definition Gravity2Denom (tokenContract : EthAddress) : string :=
  Gravity2DenomPrefix +:+ Hex (GetAddress tokenContract).

Definition Gravity2DenomToERC20 (denom : string) : res EthAddress :=
  if negb (HasPrefix denom Gravity2DenomPrefix) then Er (ErrSdk "no gravity2 prefix") else
  if negb (slen denom =? Gravity2DenomLen) then Er (ErrSdk "len(denom)") else
  let contract := TrimPrefix denom Gravity2DenomPrefix in
  match NewEthAddress contract with
  | Er _ => Er (ErrSdk "error validating ethereum contract address")
  | Ok ethAddr => Ok ethAddr
  end.

(** [for i := 0; i < len(denom)-1; i++]: the positions are tried in order. *)
Definition ContainsEthAddress (denom : string) : bool :=
  existsb (λ i : nat,
    char_at i denom "0" && (char_at (i + 1) denom "x" || char_at (i + 1) denom "X") &&
    (Z.of_nat i + 42 <=? slen denom) &&
    is_ok (ValidateEthAddress (substr i 42 denom)))
  (seq 0 (String.length denom - 1)).

(** ** Strict denom validation *)

Definition ibcHashLen : Z := 64.
Definition ibcDenomLen : Z := slen "ibc/" + ibcHashLen.
Definition MaxDenomLength : Z := 256.

(** A code point between U+0080 and U+07FF in UTF-8. *)
Definition rune2 (cp : Z) : string :=
  String (ascii_of_N (Z.to_N (192 + cp / 64)))
    (String (ascii_of_N (Z.to_N (128 + cp mod 64))) "").

(** The constant is a G followed by combining characters. *)
Definition AttestationSeparator : string :=
  foldl (λ s cp, s +:+ rune2 cp) "G"
    [772; 784; 783; 781; 772; 787; 771; 776; 782; 802; 776; 782; 802; 768; 776; 782;
     802; 769; 850; 855; 800; 768; 855; 832; 777; 801; 855; 816; 848; 776; 769].

Definition isASCII (s : string) : bool :=
  forallb (λ c, ascii_byte c <=? 127) (String.list_ascii_of_string s).

Definition isUpperHex (s : string) : bool :=
  forallb (λ c, let n := ascii_byte c in
                (48 <=? n) && (n <=? 57) || (65 <=? n) && (n <=? 70))
    (String.list_ascii_of_string s).

Definition ValidateStrictDenom (denom : string) : res unit :=
  if slen denom =? 0 then Er ErrInvalidDenom else
  if MaxDenomLength <? slen denom then Er ErrInvalidDenom else
  if negb (isASCII denom) then Er ErrInvalidDenom else
  if Contains denom AttestationSeparator then Er ErrInvalidDenom else
  if Contains denom "\" then Er ErrInvalidDenom else
  if HasPrefix denom "ibc/" then
    if negb (slen denom =? ibcDenomLen) then Er ErrInvalidDenom else
    if negb (isUpperHex (drop_str 4 denom)) then Er ErrInvalidDenom else
    if Contains denom "gravity" || Contains denom "graviton" || Contains denom "0x"
    then Er ErrInvalidDenom else Ok tt
  else if HasPrefix denom Gravity2DenomPrefix then
    match Gravity2DenomToERC20 denom with Er _ => Er ErrInvalidDenom | Ok _ => Ok tt end
  else if HasPrefix denom (GravityDenomPrefix +:+ "0x") then
    match GravityDenomToERC20 denom with Er _ => Er ErrInvalidDenom | Ok _ => Ok tt end
  else if HasPrefix denom GravityDenomPrefix then Er ErrInvalidDenom
  else if Contains denom "/" then Er ErrInvalidDenom
  else Ok tt.
End Addresses.

(** ** Asset origins (types/asset_origin.go) *)

Inductive AssetOriginChain :=
  AssetOriginUnspecified | AssetOriginCosmos | AssetOriginEthereum.

#[global] Instance AssetOriginChain_eq_dec : EqDecision AssetOriginChain.
Proof. solve_decision. Defined.

Record AssetOrigin := mkAssetOrigin {
  ao_Origin : AssetOriginChain;
  ao_IsRemapped : bool;
  ao_Denom : string;
  ao_ERC20 : option EthAddress }.

(** [AssertValid] does not panic. *)
Definition AssertValid (a : AssetOrigin) : bool :=
  negb (bool_decide (ao_Origin a ≠ AssetOriginCosmos) &&
        bool_decide (ao_Origin a ≠ AssetOriginEthereum)) &&
  negb (ao_IsRemapped a && bool_decide (ao_Origin a ≠ AssetOriginEthereum)) &&
  negb (bool_decide (ao_ERC20 a = None)) &&
  negb (bool_decide (ao_Denom a = "")).

(** ** Address lemmas *)

Section AddressLemmas.
Context `{GethLaws}.

Lemma has0xPrefix_has0x s : has0xPrefix s = has0x s.
Proof.
  unfold has0xPrefix, has0x, char_at. destruct s as [|c [|d s]]; simpl; [done|..].
  - by rewrite andb_false_r.
  - replace (2 <=? slen (String c (String d s))) with true
      by (symmetry; apply Z.leb_le; unfold slen; simpl; lia).
    destruct s; by destruct (Ascii.eqb c "0"), (Ascii.eqb d "x"), (Ascii.eqb d "X").
Qed.

Lemma hex_decode_not_0x t l : hex_decode t = Some l → has0x t = false.
Proof.
  intros Hd. destruct (has0x t) eqn:E; [|done]. unfold has0x in E.
  apply orb_true_iff in E as [[u ->]%HasPrefix_inv|[u ->]%HasPrefix_inv]; done.
Qed.

Lemma strip0x_id t l : hex_decode t = Some l → strip0x t = t.
Proof. intros Hd. unfold strip0x. by rewrite (hex_decode_not_0x t l Hd). Qed.

Lemma strip0x_0x t : strip0x ("0x" +:+ t) = t.
Proof.
  unfold strip0x, has0x. rewrite HasPrefix_app. simpl.
  apply (drop_str_app "0x").
Qed.

Lemma ValidateEthAddress_iff s :
  ValidateEthAddress s = Ok tt ↔
  ∃ l, hex_decode (strip0x s) = Some l ∧ length l = 20%nat.
Proof.
  unfold ValidateEthAddress. rewrite has0xPrefix_has0x.
  change (if has0x s then drop_str 2 s else s) with (strip0x s).
  case_decide as Hs; [subst; split; [done|]; intros (l & Hd & Hl); injection Hd as <-; done|].
  destruct (hex_decode (strip0x s)) as [l|] eqn:Hd; [|naive_solver].
  rewrite is_hex_address_spec, (strip0x_id _ l Hd).
  apply hex_decode_ok in Hd as Hl. destruct Hl as (_ & Hlen & ->).
  rewrite andb_true_r. unfold slen. rewrite Hlen.
  destruct (_ =? 40) eqn:E; zbool.
  - split; [|done]. intros _. exists l. split; [done|lia].
  - split; [done|]. intros (l' & [= <-] & Hl'). lia.
Qed.

Lemma ValidateEthAddress_Er s e : ValidateEthAddress s = Er e → ValidateEthAddress s ≠ Ok tt.
Proof. congruence. Qed.

Lemma NewEthAddress_iff s a :
  NewEthAddress s = Ok a ↔
  hex_decode (strip0x s) = Some (GetAddress a) ∧ length (GetAddress a) = 20%nat.
Proof.
  unfold NewEthAddress. destruct (ValidateEthAddress s) as [[]|e] eqn:E; cbn.
  - apply ValidateEthAddress_iff in E as (l & Hd & Hl).
    rewrite (hex_to_address_spec s l Hd Hl). rewrite Hd.
    destruct a as [a]. simpl. naive_solver.
  - split; [done|]. intros [Hd Hl]. exfalso. apply (ValidateEthAddress_Er s e E).
    apply ValidateEthAddress_iff. eauto.
Qed.

Lemma NewEthAddress_ok s a : NewEthAddress s = Ok a → eth_ok a.
Proof.
  intros [Hd Hl]%NewEthAddress_iff. split; [done|]. by apply hex_decode_ok in Hd as [].
Qed.

Lemma hex_decode_Hex a : addr_ok a → hex_decode (strip0x (Hex a)) = Some a.
Proof. intros (t & -> & Hd)%hex_spec. by rewrite strip0x_0x. Qed.

Lemma NewEthAddress_Hex a : eth_ok a → NewEthAddress (Hex (GetAddress a)) = Ok a.
Proof. intros Ha. apply NewEthAddress_iff. split; [by apply hex_decode_Hex|apply Ha]. Qed.

Lemma Hex_inj a b : addr_ok a → addr_ok b → Hex a = Hex b → a = b.
Proof.
  intros Ha%hex_decode_Hex Hb%hex_decode_Hex E. rewrite E in Ha. congruence.
Qed.

Lemma EthAddress_ValidateBasic_ok a : eth_ok a → EthAddress_ValidateBasic a = Ok tt.
Proof.
  intros Ha. apply ValidateEthAddress_iff. exists (GetAddress a).
  split; [by apply hex_decode_Hex|apply Ha].
Qed.

Lemma NewEthAddressFromBytes_ok a : addr_ok a → NewEthAddressFromBytes a = Ok (mkEthAddress a).
Proof.
  intros [Hl Hok]. unfold NewEthAddressFromBytes.
  pose proof (hex_decode_encode a Hok) as Hd.
  replace (ValidateEthAddress (hex_encode a)) with (Ok tt).
  - cbn. by rewrite bytes_to_address_spec.
  - symmetry. apply ValidateEthAddress_iff. exists a. by rewrite (strip0x_id _ a Hd).
Qed.

Lemma slen_Hex a : addr_ok a → slen (Hex a) = 42.
Proof.
  intros [Hl Hok]. destruct (hex_spec a) as (t & -> & Hd); [done|].
  apply hex_decode_ok in Hd as (_ & Hlen & _). rewrite slen_app. unfold slen at 2.
  rewrite Hlen, Hl. done.
Qed.

Definition token_ok (t : InternalERC20Token) : Prop :=
  0 ≤ it_Amount t ∧ int_ok (it_Amount t) ∧ eth_ok (it_Contract t).

Lemma InternalERC20Token_ValidateBasic_ok t :
  token_ok t → InternalERC20Token_ValidateBasic t = Ok tt.
Proof.
  intros (Ha & _ & Hc). unfold InternalERC20Token_ValidateBasic.
  case_match; zbool; [lia|]. by apply EthAddress_ValidateBasic_ok.
Qed.

Lemma NewInternalERC20Token_Hex amount c :
  0 ≤ amount → eth_ok c →
  NewInternalERC20Token amount (Hex (GetAddress c)) = Ok (mkInternalERC20Token amount c).
Proof.
  intros Ha Hc. unfold NewInternalERC20Token. rewrite NewEthAddress_Hex by done. cbn.
  unfold InternalERC20Token_ValidateBasic. cbn.
  case_match eqn:E; zbool; [lia|]. by rewrite EthAddress_ValidateBasic_ok.
Qed.

Lemma ERC20Token_roundtrip t :
  token_ok t → ERC20Token_ToInternal (InternalERC20Token_ToExternal t) = Ok t.
Proof.
  intros (Ha & _ & Hc). unfold ERC20Token_ToInternal. simpl.
  rewrite NewInternalERC20Token_Hex by done. by destruct t.
Qed.

(** ** Denom lemmas *)

Lemma GravityDenomToERC20_iff d a :
  GravityDenomToERC20 d = Ok a ↔
  ∃ s, d = "gravity" +:+ s ∧ slen s = 42 ∧ hex_decode (strip0x s) = Some (GetAddress a) ∧
       length (GetAddress a) = 20%nat.
Proof.
  unfold GravityDenomToERC20.
  change (GravityDenomPrefix +:+ GravityDenomSeparator) with "gravity".
  destruct (HasPrefix d Gravity2DenomPrefix) eqn:H2.
  { split; [done|]. apply HasPrefix_inv in H2 as [u ->]. intros (s & E & Hs & Hd & Hl).
    change (Gravity2DenomPrefix +:+ u) with ("gravity" +:+ String "2" u) in E.
    apply (inj (String.append "gravity")) in E as <-.
    exfalso. assert (has0x (String "2" u) = false) as Hx by done.
    unfold strip0x in Hd. rewrite Hx in Hd. apply hex_decode_ok in Hd as (_ & E & _).
    unfold slen in Hs. rewrite E, Hl in Hs. lia. }
  destruct (HasPrefix d "gravity") eqn:H1; cbn [negb].
  2:{ split; [done|]. intros (s & -> & _). by rewrite HasPrefix_app in H1. }
  apply HasPrefix_inv in H1 as [s ->]. rewrite TrimPrefix_app.
  destruct (NewEthAddress s) as [b|e] eqn:E.
  - rewrite slen_app. change GravityDenomLen with 49. change (slen "gravity") with 7.
    destruct (7 + slen s =? 49) eqn:El; zbool; cbn [negb].
    + split.
      * intros [= ->]. apply NewEthAddress_iff in E. exists s. split_and!; try lia; naive_solver.
      * intros (s' & <-%(inj (String.append "gravity")) & _ & Hd). f_equal.
        apply NewEthAddress_iff in Hd. congruence.
    + split; [done|]. intros (s' & <-%(inj (String.append "gravity")) & ? & _). lia.
  - split; [done|]. intros (s' & <-%(inj (String.append "gravity")) & _ & Hd).
    apply NewEthAddress_iff in Hd. congruence.
Qed.

Lemma Gravity2DenomToERC20_iff d a :
  Gravity2DenomToERC20 d = Ok a ↔
  ∃ s, d = "gravity2" +:+ s ∧ slen s = 42 ∧ hex_decode (strip0x s) = Some (GetAddress a) ∧
       length (GetAddress a) = 20%nat.
Proof.
  unfold Gravity2DenomToERC20. change Gravity2DenomPrefix with "gravity2".
  destruct (HasPrefix d "gravity2") eqn:H1; cbn [negb].
  2:{ split; [done|]. intros (s & -> & _). by rewrite HasPrefix_app in H1. }
  apply HasPrefix_inv in H1 as [s ->]. rewrite TrimPrefix_app, slen_app.
  change Gravity2DenomLen with 50. change (slen "gravity2") with 8.
  destruct (8 + slen s =? 50) eqn:El; zbool; cbn [negb].
  2:{ split; [done|]. intros (s' & <-%(inj (String.append "gravity2")) & ? & _). lia. }
  destruct (NewEthAddress s) as [b|e] eqn:E.
  - split.
    + intros [= ->]. apply NewEthAddress_iff in E. exists s. split_and!; try lia; naive_solver.
    + intros (s' & <-%(inj (String.append "gravity2")) & _ & Hd).
      apply NewEthAddress_iff in Hd. congruence.
  - split; [done|]. intros (s' & <-%(inj (String.append "gravity2")) & _ & Hd).
    apply NewEthAddress_iff in Hd. congruence.
Qed.

Lemma GravityDenom_roundtrip a : eth_ok a → GravityDenomToERC20 (GravityDenom a) = Ok a.
Proof.
  intros Ha. apply GravityDenomToERC20_iff. exists (Hex (GetAddress a)).
  split_and!; [done|by apply slen_Hex|by apply hex_decode_Hex|apply Ha].
Qed.

Lemma Gravity2Denom_roundtrip a : eth_ok a → Gravity2DenomToERC20 (Gravity2Denom a) = Ok a.
Proof.
  intros Ha. apply Gravity2DenomToERC20_iff. exists (Hex (GetAddress a)).
  split_and!; [done|by apply slen_Hex|by apply hex_decode_Hex|apply Ha].
Qed.

Lemma denom_namespaces_disjoint d a b :
  GravityDenomToERC20 d = Ok a → Gravity2DenomToERC20 d = Ok b → False.
Proof.
  unfold GravityDenomToERC20, Gravity2DenomToERC20.
  by destruct (HasPrefix d Gravity2DenomPrefix).
Qed.
(** The two denoms of a token are read back as that token, and no denom belongs
    to both namespaces: a [gravity2] denom is never taken for a [gravity] one. *)
Theorem denom_roundtrip a :
  eth_ok a →
  GravityDenomToERC20 (GravityDenom a) = Ok a ∧ Gravity2DenomToERC20 (Gravity2Denom a) = Ok a ∧
  ∀ d b c, GravityDenomToERC20 d = Ok b → Gravity2DenomToERC20 d = Ok c → False.
Proof.
  intros Ha. split_and!; [by apply GravityDenom_roundtrip|by apply Gravity2Denom_roundtrip|].
  intros d b c. apply denom_namespaces_disjoint.
Qed.
End AddressLemmas.
