(* ===== verification/Keys.v ===== *)
(** * Store keys (types/key.go, types/types.go)

    The byte keys of every object the module stores.  Each key starts with the
    16-byte MD5 hash of a constant; the definitions below compute the hashes
    when the file is checked. *)

From S2P Require Import Prelude GoStd External Ethereum Store.
From stdpp Require Import base gmap list strings.
From Stdlib Require Import Ascii.

#[local] Open Scope Z_scope.

(** ** Byte helpers (types/types.go) *)

(** Panics ([None]) on any length but 8: [binary.BigEndian.Uint64] reads eight
    bytes. *)
Definition UInt64FromBytesUnsafe (s : bytes) : option Z :=
  if (8 <? Z.of_nat (length s)) then None
  else if (Z.of_nat (length s) <? 8) then None
  else Some (be_val s).

Definition UInt64Bytes (n : Z) : bytes := be_bytes 8 n.

Definition HashString (input : string) : bytes := MD5.sum (bytes_of_string input).

(** [copy] of every argument behind the previous ones. *)
Definition AppendBytes (args : list bytes) : bytes := concat args.

(** The part of a bech32 string before the last 1. *)
Fixpoint LastIndexByte (s : string) (c : Ascii.ascii) (i : Z) (found : Z) : Z :=
  match s with
  | EmptyString => found
  | String d s' => LastIndexByte s' c (i + 1) (if Ascii.eqb d c then i else found)
  end.

Definition GetPrefixFromBech32 (bech32str : string) : res string :=
  if slen bech32str <? 8 then Er (ErrSdk "invalid bech32 string length") else
  let one := LastIndexByte bech32str "1"%char 0 (-1) in
  if (one <? 1) || (slen bech32str <? one + 7) then Er (ErrSdk "invalid index of 1")
  else Ok (substr 0 (Z.to_nat one) bech32str).

(** ** Key prefixes *)

Definition EthAddressByValidatorKey : bytes := Eval vm_compute in HashString "EthAddressValidatorKey".
Definition ValidatorByEthAddressKey : bytes := Eval vm_compute in HashString "ValidatorByEthAddressKey".
Definition ValsetRequestKey : bytes := Eval vm_compute in HashString "ValsetRequestKey".
Definition ValsetConfirmKey : bytes := Eval vm_compute in HashString "ValsetConfirmKey".
Definition LEGACYOracleClaimKey : bytes := Eval vm_compute in HashString "OracleClaimKey".
Definition OracleAttestationKey : bytes := Eval vm_compute in HashString "OracleAttestationKey".
Definition OutgoingTXPoolKey : bytes := Eval vm_compute in HashString "OutgoingTXPoolKey".
Definition OutgoingTXBatchKey : bytes := Eval vm_compute in HashString "OutgoingTXBatchKey".
Definition BatchConfirmKey : bytes := Eval vm_compute in HashString "BatchConfirmKey".
Definition LastEventNonceByValidatorKey : bytes := Eval vm_compute in HashString "LastEventNonceByValidatorKey".
Definition LastObservedEventNonceKey : bytes := Eval vm_compute in HashString "LastObservedEventNonceKey".
Definition LEGACYSequenceKeyPrefix : bytes := Eval vm_compute in HashString "SequenceKeyPrefix".
Definition KeyLastTXPoolID : bytes := Eval vm_compute in HashString "SequenceKeyPrefixlastTxPoolId".
Definition KeyLastOutgoingBatchID : bytes := Eval vm_compute in HashString "SequenceKeyPrefixlastBatchId".
Definition KeyOrchestratorAddress : bytes := Eval vm_compute in HashString "KeyOrchestratorAddress".
Definition KeyOutgoingLogicCall : bytes := Eval vm_compute in HashString "KeyOutgoingLogicCall".
Definition KeyOutgoingLogicConfirm : bytes := Eval vm_compute in HashString "KeyOutgoingLogicConfirm".
Definition LastObservedEthereumBlockHeightKey : bytes := Eval vm_compute in HashString "LastObservedEthereumBlockHeightKey".
Definition DenomToERC20Key : bytes := Eval vm_compute in HashString "DenomToERC20Key".
Definition ERC20ToDenomKey : bytes := Eval vm_compute in HashString "ERC20ToDenomKey".
Definition RemappedERC20Key : bytes := Eval vm_compute in HashString "RemappedERC20Key".
Definition LastSlashedValsetNonce : bytes := Eval vm_compute in HashString "LastSlashedValsetNonce".
Definition LatestValsetNonce : bytes := Eval vm_compute in HashString "LatestValsetNonce".
Definition LastSlashedBatchBlock : bytes := Eval vm_compute in HashString "LastSlashedBatchBlock".
Definition LastSlashedLogicCallBlock : bytes := Eval vm_compute in HashString "LastSlashedLogicCallBlock".
Definition LastUnBondingBlockHeight : bytes := Eval vm_compute in HashString "LastUnBondingBlockHeight".
Definition PastEthSignatureCheckpointKey : bytes := Eval vm_compute in HashString "PastEthSignatureCheckpointKey".
Definition LastObservedValsetKey : bytes := Eval vm_compute in HashString "LastObservedValsetKey".
Definition PendingIbcAutoForwards : bytes := Eval vm_compute in HashString "IbcAutoForwardQueue".
Definition ParamsKey : bytes := Eval vm_compute in HashString "ParamsKey".
Definition CosmosBridgeableTokensKey : bytes := Eval vm_compute in HashString "CosmosBridgeableTokens".

Definition all_prefixes : list bytes :=
  [EthAddressByValidatorKey; ValidatorByEthAddressKey; ValsetRequestKey; ValsetConfirmKey; LEGACYOracleClaimKey; OracleAttestationKey; OutgoingTXPoolKey; OutgoingTXBatchKey; BatchConfirmKey; LastEventNonceByValidatorKey; LastObservedEventNonceKey; LEGACYSequenceKeyPrefix; KeyLastTXPoolID; KeyLastOutgoingBatchID; KeyOrchestratorAddress; KeyOutgoingLogicCall; KeyOutgoingLogicConfirm; LastObservedEthereumBlockHeightKey; DenomToERC20Key; ERC20ToDenomKey; RemappedERC20Key; LastSlashedValsetNonce; LatestValsetNonce; LastSlashedBatchBlock; LastSlashedLogicCallBlock; LastUnBondingBlockHeight; PastEthSignatureCheckpointKey; LastObservedValsetKey; PendingIbcAutoForwards; ParamsKey; CosmosBridgeableTokensKey].

(** ** Keys *)

Section Keys.
Context `{Sdk}.

(** The keys that hold an account address panic ([None]) when the address is
    not well formed. *)
Definition verified (addr : bytes) (key : bytes) : option bytes :=
  match VerifyAddressFormat addr with Ok _ => Some key | Er _ => None end.

Definition GetOrchestratorAddressKey (orc : bytes) : option bytes :=
  verified orc (AppendBytes [KeyOrchestratorAddress; orc]).

Definition GetEthAddressByValidatorKey (validator : bytes) : option bytes :=
  verified validator (AppendBytes [EthAddressByValidatorKey; validator]).

Definition GetValidatorByEthAddressKey (ethAddress : EthAddress) : bytes :=
  AppendBytes [ValidatorByEthAddressKey; GetAddress ethAddress].

Definition GetValsetKey (nonce : Z) : bytes :=
  AppendBytes [ValsetRequestKey; UInt64Bytes nonce].

Definition GetValsetConfirmNoncePrefix (nonce : Z) : bytes :=
  AppendBytes [ValsetConfirmKey; UInt64Bytes nonce].

Definition GetValsetConfirmKey (nonce : Z) (validator : bytes) : option bytes :=
  verified validator (AppendBytes [GetValsetConfirmNoncePrefix nonce; validator]).

Definition GetAttestationKey (eventNonce : Z) (claimHash : bytes) : bytes :=
  AppendBytes [OracleAttestationKey; UInt64Bytes eventNonce; claimHash].

Definition GetOutgoingTxPoolContractPrefix (contractAddress : EthAddress) : bytes :=
  AppendBytes [OutgoingTXPoolKey; GetAddress contractAddress].

(** Panics ([None]) when the fee does not fit in 32 bytes. *)
Definition GetOutgoingTxPoolKey (fee : InternalERC20Token) (id : Z) : option bytes :=
  amount ← FillBytes 32 (it_Amount fee);
  Some (AppendBytes [OutgoingTXPoolKey; GetAddress (it_Contract fee); amount; UInt64Bytes id]).

Definition GetOutgoingTxBatchContractPrefix (tokenContract : EthAddress) : bytes :=
  AppendBytes [OutgoingTXBatchKey; GetAddress tokenContract].

Definition GetOutgoingTxBatchKey (tokenContract : EthAddress) (nonce : Z) : bytes :=
  AppendBytes [GetOutgoingTxBatchContractPrefix tokenContract; UInt64Bytes nonce].

Definition GetBatchConfirmNonceContractPrefix (tokenContract : EthAddress) (batchNonce : Z)
    : bytes :=
  AppendBytes [BatchConfirmKey; GetAddress tokenContract; UInt64Bytes batchNonce].

Definition GetBatchConfirmKey (tokenContract : EthAddress) (batchNonce : Z)
    (validator : bytes) : option bytes :=
  verified validator
    (AppendBytes [GetBatchConfirmNonceContractPrefix tokenContract batchNonce; validator]).

Definition GetLastEventNonceByValidatorKey (validator : bytes) : option bytes :=
  verified validator (AppendBytes [LastEventNonceByValidatorKey; validator]).

Definition GetDenomToERC20Key (denom : string) : bytes :=
  AppendBytes [DenomToERC20Key; bytes_of_string denom].

Definition GetERC20ToDenomKey (erc20 : EthAddress) : bytes :=
  AppendBytes [ERC20ToDenomKey; GetAddress erc20].

Definition GetRemappedERC20Key (erc20 : EthAddress) : bytes :=
  AppendBytes [RemappedERC20Key; GetAddress erc20].

Definition GetOutgoingLogicCallKey (invalidationId : bytes) (invalidationNonce : Z) : bytes :=
  AppendBytes [KeyOutgoingLogicCall; invalidationId; UInt64Bytes invalidationNonce].

Definition GetLogicConfirmNonceInvalidationIdPrefix (invalidationId : bytes)
    (invalidationNonce : Z) : bytes :=
  AppendBytes [KeyOutgoingLogicConfirm; invalidationId; UInt64Bytes invalidationNonce].

Definition GetLogicConfirmKey (invalidationId : bytes) (invalidationNonce : Z)
    (validator : bytes) : option bytes :=
  verified validator
    (AppendBytes [GetLogicConfirmNonceInvalidationIdPrefix invalidationId invalidationNonce;
                  validator]).

(** [WriteString(string(value[i]))] for every byte: a byte is written as the
    UTF-8 encoding of the rune of that number. *)
Definition convertByteArrToString (value : bytes) : bytes := value ≫= utf8_of_byte.

Definition GetPastEthSignatureCheckpointKey (checkpoint : bytes) : bytes :=
  AppendBytes [PastEthSignatureCheckpointKey; convertByteArrToString checkpoint].

Definition GetPendingIbcAutoForwardKey (eventNonce : Z) : bytes :=
  AppendBytes [PendingIbcAutoForwards; UInt64Bytes eventNonce].

Definition GetCosmosBridgeableTokenKey (denom : string) : bytes :=
  AppendBytes [CosmosBridgeableTokensKey; bytes_of_string denom].
End Keys.

(** Keys are only ever unfolded by name. *)
#[global] Arguments GetOrchestratorAddressKey : simpl never.
#[global] Arguments GetEthAddressByValidatorKey : simpl never.
#[global] Arguments GetValidatorByEthAddressKey : simpl never.
#[global] Arguments GetValsetKey : simpl never.
#[global] Arguments GetValsetConfirmNoncePrefix : simpl never.
#[global] Arguments GetValsetConfirmKey : simpl never.
#[global] Arguments GetAttestationKey : simpl never.
#[global] Arguments GetOutgoingTxPoolContractPrefix : simpl never.
#[global] Arguments GetOutgoingTxPoolKey : simpl never.
#[global] Arguments GetOutgoingTxBatchContractPrefix : simpl never.
#[global] Arguments GetOutgoingTxBatchKey : simpl never.
#[global] Arguments GetBatchConfirmNonceContractPrefix : simpl never.
#[global] Arguments GetBatchConfirmKey : simpl never.
#[global] Arguments GetLastEventNonceByValidatorKey : simpl never.
#[global] Arguments GetDenomToERC20Key : simpl never.
#[global] Arguments GetERC20ToDenomKey : simpl never.
#[global] Arguments GetRemappedERC20Key : simpl never.
#[global] Arguments GetOutgoingLogicCallKey : simpl never.
#[global] Arguments GetLogicConfirmNonceInvalidationIdPrefix : simpl never.
#[global] Arguments GetLogicConfirmKey : simpl never.
#[global] Arguments GetPastEthSignatureCheckpointKey : simpl never.
#[global] Arguments GetPendingIbcAutoForwardKey : simpl never.
#[global] Arguments GetCosmosBridgeableTokenKey : simpl never.
#[global] Arguments AppendBytes : simpl never.
#[global] Arguments UInt64FromBytesUnsafe : simpl never.
#[global] Arguments UInt64Bytes : simpl never.
#[global] Arguments EthAddressByValidatorKey : simpl never.
#[global] Arguments ValidatorByEthAddressKey : simpl never.
#[global] Arguments ValsetRequestKey : simpl never.
#[global] Arguments ValsetConfirmKey : simpl never.
#[global] Arguments LEGACYOracleClaimKey : simpl never.
#[global] Arguments OracleAttestationKey : simpl never.
#[global] Arguments OutgoingTXPoolKey : simpl never.
#[global] Arguments OutgoingTXBatchKey : simpl never.
#[global] Arguments BatchConfirmKey : simpl never.
#[global] Arguments LastEventNonceByValidatorKey : simpl never.
#[global] Arguments LastObservedEventNonceKey : simpl never.
#[global] Arguments LEGACYSequenceKeyPrefix : simpl never.
#[global] Arguments KeyLastTXPoolID : simpl never.
#[global] Arguments KeyLastOutgoingBatchID : simpl never.
#[global] Arguments KeyOrchestratorAddress : simpl never.
#[global] Arguments KeyOutgoingLogicCall : simpl never.
#[global] Arguments KeyOutgoingLogicConfirm : simpl never.
#[global] Arguments LastObservedEthereumBlockHeightKey : simpl never.
#[global] Arguments DenomToERC20Key : simpl never.
#[global] Arguments ERC20ToDenomKey : simpl never.
#[global] Arguments RemappedERC20Key : simpl never.
#[global] Arguments LastSlashedValsetNonce : simpl never.
#[global] Arguments LatestValsetNonce : simpl never.
#[global] Arguments LastSlashedBatchBlock : simpl never.
#[global] Arguments LastSlashedLogicCallBlock : simpl never.
#[global] Arguments LastUnBondingBlockHeight : simpl never.
#[global] Arguments PastEthSignatureCheckpointKey : simpl never.
#[global] Arguments LastObservedValsetKey : simpl never.
#[global] Arguments PendingIbcAutoForwards : simpl never.
#[global] Arguments ParamsKey : simpl never.
#[global] Arguments CosmosBridgeableTokensKey : simpl never.

(** ** Key lemmas *)

Lemma UInt64_roundtrip n : u64_ok n → UInt64FromBytesUnsafe (UInt64Bytes n) = Some n.
Proof.
  intros Hn. unfold UInt64FromBytesUnsafe, UInt64Bytes. rewrite length_be_bytes, be_val_be_bytes.
  rewrite Z.mod_small by (rewrite <- two64_pow; done). done.
Qed.

Lemma UInt64Bytes_cmp a b :
  u64_ok a → u64_ok b → bytes_cmp (UInt64Bytes a) (UInt64Bytes b) = (a ?= b).
Proof. intros Ha Hb. apply bytes_cmp_be_small; rewrite <- two64_pow; done. Qed.

Lemma UInt64Bytes_inj a b : u64_ok a → u64_ok b → UInt64Bytes a = UInt64Bytes b → a = b.
Proof. intros Ha Hb. apply be_bytes_inj; rewrite <- two64_pow; done. Qed.

Lemma length_UInt64Bytes n : length (UInt64Bytes n) = 8%nat.
Proof. apply length_be_bytes. Qed.

Lemma prefixes_distinct : NoDup all_prefixes.
Proof. apply (bool_decide_unpack _). vm_compute. done. Qed.

Lemma prefixes_length : Forall (λ p, length p = 16%nat ∧ bytes_ok p) all_prefixes.
Proof. unfold bytes_ok, byte_ok. apply (bool_decide_unpack _). vm_compute. done. Qed.

(** Keys of different kinds are different, whatever follows their prefixes. *)
Lemma prefix_separation p q x y :
  p ∈ all_prefixes → q ∈ all_prefixes → p ++ x = q ++ y → p = q ∧ x = y.
Proof.
  intros Hp Hq. pose proof prefixes_length as Hl. rewrite Forall_forall in Hl.
  destruct (Hl p Hp) as [Hlp _], (Hl q Hq) as [Hlq _].
  apply app_inj_1. congruence.
Qed.

(** *** The pool key *)

Definition fee_ok (t : InternalERC20Token) : Prop :=
  0 ≤ it_Amount t < 2 ^ 256 ∧ length (GetAddress (it_Contract t)) = 20%nat.

Definition pool_key (fee : InternalERC20Token) (id : Z) : bytes :=
  OutgoingTXPoolKey ++ GetAddress (it_Contract fee) ++ be_bytes 32 (it_Amount fee) ++ UInt64Bytes id.

Lemma GetOutgoingTxPoolKey_ok fee id :
  fee_ok fee → GetOutgoingTxPoolKey fee id = Some (pool_key fee id).
Proof.
  intros [Ha _]. unfold GetOutgoingTxPoolKey, FillBytes, pool_key, AppendBytes.
  rewrite Z.abs_eq by lia. change (256 ^ Z.of_nat 32) with (2 ^ 256).
  destruct (_ <? _) eqn:E; zbool; [|lia]. cbn [mbind option_bind].
  cbn [concat]. by rewrite app_nil_r.
Qed.

Lemma pool_key_cmp f1 i1 f2 i2 :
  fee_ok f1 → fee_ok f2 → u64_ok i1 → u64_ok i2 →
  bytes_cmp (pool_key f1 i1) (pool_key f2 i2) =
  match bytes_cmp (GetAddress (it_Contract f1)) (GetAddress (it_Contract f2)) with
  | Eq => match it_Amount f1 ?= it_Amount f2 with Eq => i1 ?= i2 | c => c end
  | c => c
  end.
Proof.
  intros [Ha1 Hc1] [Ha2 Hc2] Hi1 Hi2. unfold pool_key.
  rewrite bytes_cmp_app by done. rewrite bytes_cmp_refl.
  rewrite bytes_cmp_app by congruence.
  rewrite bytes_cmp_app by (by rewrite !length_be_bytes).
  by rewrite bytes_cmp_be_small, UInt64Bytes_cmp.
Qed.

Lemma pool_key_inj f1 i1 f2 i2 :
  fee_ok f1 → fee_ok f2 → u64_ok i1 → u64_ok i2 →
  pool_key f1 i1 = pool_key f2 i2 → f1 = f2 ∧ i1 = i2.
Proof.
  intros H1 H2 Hi1 Hi2 E. apply bytes_cmp_eq in E. rewrite pool_key_cmp in E by done.
  destruct (bytes_cmp _ _) eqn:Ec; try done. apply bytes_cmp_eq in Ec.
  destruct (Z.compare_spec (it_Amount f1) (it_Amount f2)) as [Ea|?|?]; try done.
  apply Z.compare_eq in E. destruct f1 as [? []], f2 as [? []]. simpl in *. by subst.
Qed.

Lemma length_pool_key f i : fee_ok f → length (pool_key f i) = 76%nat.
Proof.
  intros [_ Hc]. unfold pool_key. by rewrite !length_app, Hc, !length_be_bytes.
Qed.

Lemma OutgoingTXPoolKey_ok : bytes_ok OutgoingTXPoolKey.
Proof. unfold bytes_ok, byte_ok. apply (bool_decide_unpack _). vm_compute. done. Qed.

Lemma pool_key_ok f i : bytes_ok (GetAddress (it_Contract f)) → bytes_ok (pool_key f i).
Proof.
  intros Hc. unfold bytes_ok, pool_key, UInt64Bytes. rewrite !Forall_app.
  split_and!; [apply OutgoingTXPoolKey_ok|done|apply be_bytes_ok..].
Qed.

(** The entries of a contract's prefix are those whose fee is in that token. *)
Lemma pool_prefix_iff c f i :
  eth_ok c → fee_ok f → bytes_ok (GetAddress (it_Contract f)) →
  in_range (prefixRange (GetOutgoingTxPoolContractPrefix c)) (pool_key f i) = true ↔
  it_Contract f = c.
Proof.
  intros [Hc Hcok] Hf Hfok. unfold GetOutgoingTxPoolContractPrefix, AppendBytes.
  cbn [concat]. rewrite app_nil_r.
  pose proof OutgoingTXPoolKey_ok as Hp.
  rewrite prefixRange_bump, bump_range.
  - split.
    + intros [y E]. unfold pool_key in E. rewrite <- app_assoc in E.
      apply app_inj_1 in E as [_ E]; [|done].
      apply app_inj_1 in E as [E _]; [|destruct Hf; congruence].
      destruct c, (it_Contract f). simpl in *. by subst.
    + intros <-. exists (be_bytes 32 (it_Amount f) ++ UInt64Bytes i).
      unfold pool_key. by rewrite !app_assoc.
  - by apply Forall_app.
  - by apply pool_key_ok.
  - rewrite length_app, Hc, length_pool_key by done. simpl. lia.
  - done.
  - by apply Forall_app.
Qed.

Lemma pool_prefix_all f i :
  fee_ok f → bytes_ok (GetAddress (it_Contract f)) →
  in_range (prefixRange OutgoingTXPoolKey) (pool_key f i) = true.
Proof.
  intros Hf Hfok.
  pose proof OutgoingTXPoolKey_ok as Hp.
  rewrite prefixRange_bump by done. apply bump_range; [done|by apply pool_key_ok|..].
  - rewrite length_pool_key by done. simpl. lia.
  - by eexists.
Qed.

(** *** The other keys *)

Lemma batch_key_eq c n :
  GetOutgoingTxBatchKey c n = OutgoingTXBatchKey ++ GetAddress c ++ UInt64Bytes n.
Proof.
  unfold GetOutgoingTxBatchKey, GetOutgoingTxBatchContractPrefix, AppendBytes. cbn [concat].
  by rewrite !app_nil_r, <- app_assoc.
Qed.

Lemma batch_key_inj c1 n1 c2 n2 :
  length (GetAddress c1) = length (GetAddress c2) → u64_ok n1 → u64_ok n2 →
  GetOutgoingTxBatchKey c1 n1 = GetOutgoingTxBatchKey c2 n2 → c1 = c2 ∧ n1 = n2.
Proof.
  intros Hl H1 H2. rewrite !batch_key_eq. intros [_ E]%app_inj_1; [|done].
  apply app_inj_1 in E as [Ec En]; [|done]. apply UInt64Bytes_inj in En; [|done..].
  destruct c1, c2. simpl in *. by subst.
Qed.

Lemma attestation_key_inj n1 h1 n2 h2 :
  u64_ok n1 → u64_ok n2 →
  GetAttestationKey n1 h1 = GetAttestationKey n2 h2 → n1 = n2 ∧ h1 = h2.
Proof.
  intros H1 H2. unfold GetAttestationKey, AppendBytes. cbn [concat]. rewrite !app_nil_r.
  intros [_ E]%app_inj_1; [|done]. apply app_inj_1 in E as [En Eh].
  - split; [by apply UInt64Bytes_inj|done].
  - by rewrite !length_UInt64Bytes.
Qed.

Lemma utf8_of_byte_split b c x y :
  byte_ok b → byte_ok c → utf8_of_byte b ++ x = utf8_of_byte c ++ y → b = c ∧ x = y.
Proof.
  unfold byte_ok, utf8_of_byte. intros Hb Hc.
  destruct (b <? 128) eqn:Eb, (c <? 128) eqn:Ec; zbool; simpl; intros E; simplify_eq.
  - done.
  - pose proof (Z.div_pos c 64). lia.
  - pose proof (Z.div_pos b 64). lia.
  - split; [|done]. pose proof (Z.div_mod b 64). pose proof (Z.div_mod c 64). lia.
Qed.

Lemma convertByteArrToString_inj u v :
  bytes_ok u → bytes_ok v → convertByteArrToString u = convertByteArrToString v → u = v.
Proof.
  unfold convertByteArrToString. intros Hu. revert v.
  induction Hu as [|b u Hb Hu IH]; intros v Hv E.
  - destruct v as [|c v]; [done|]. exfalso. revert E. simpl. unfold utf8_of_byte.
    by case_match.
  - destruct Hv as [|c v Hc Hv].
    + exfalso. revert E. simpl. unfold utf8_of_byte. by case_match.
    + cbn [mbind list_bind] in E. apply utf8_of_byte_split in E as [-> E]; [|done..].
      f_equal. by apply IH.
Qed.
