(* ===== verification/OutgoingTx.v ===== *)
(** * Outgoing transfers, batches and logic calls (types/batch.go)

    Every object has the external form that is stored (addresses are strings)
    and the validated internal form that the keeper computes with. *)

From S2P Require Import Prelude GoStd External Ethereum.
From stdpp Require Import base gmap list strings.

#[local] Open Scope Z_scope.

(** ** go-ethereum's abi and crypto packages *)

(** The Go values [abi.Pack] is called with. *)
Inductive AbiArg :=
  | ABytes32 (b : bytes) | ABytes (b : bytes) | AUint (z : Z) | AUints (l : list Z)
  | AAddr (a : bytes) | AAddrs (l : list bytes).

Class EthAbi := {
  (** [abi.JSON(json).Pack(method, args...)] *)
  Pack : string → string → list AbiArg → res bytes;
  Keccak256Hash : bytes → bytes;
}.

(** [int64(x)] of a [uint64] *)
Definition int64 (x : Z) : Z := if x <? 9223372036854775808 then x else x - two64.

(** [copy] into a 32-byte array; longer input is an error. *)
Definition fix32 (b : bytes) : bytes := take 32 (b ++ replicate 32 0).
Definition strToFixByteArray (s : string) : res bytes :=
  if 32 <? slen s then Er (ErrSdk "string too long") else Ok (fix32 (bytes_of_string s)).

(** ** Transfers *)

Record OutgoingTransferTx := mkOutgoingTransferTx {
  ot_Id : Z; ot_Sender : string; ot_DestAddress : string;
  ot_Erc20Token : ERC20Token; ot_Erc20Fee : ERC20Token }.

Record InternalOutgoingTransferTx := mkInternalOutgoingTransferTx {
  tx_Id : Z; tx_Sender : bytes; tx_DestAddress : EthAddress;
  tx_Erc20Token : InternalERC20Token; tx_Erc20Fee : InternalERC20Token }.

#[global] Instance OutgoingTransferTx_eq_dec : EqDecision OutgoingTransferTx.
Proof. solve_decision. Defined.
#[global] Instance InternalOutgoingTransferTx_eq_dec : EqDecision InternalOutgoingTransferTx.
Proof. solve_decision. Defined.

(** ** Batches *)

Record OutgoingTxBatch := mkOutgoingTxBatch {
  ob_BatchNonce : Z; ob_BatchTimeout : Z; ob_Transactions : list OutgoingTransferTx;
  ob_TokenContract : string; ob_CosmosBlockCreated : Z }.

Record InternalOutgoingTxBatch := mkInternalOutgoingTxBatch {
  ib_BatchNonce : Z; ib_BatchTimeout : Z; ib_Transactions : list InternalOutgoingTransferTx;
  ib_TokenContract : EthAddress; ib_CosmosBlockCreated : Z }.

#[global] Instance OutgoingTxBatch_eq_dec : EqDecision OutgoingTxBatch.
Proof. solve_decision. Defined.

(** ** Logic calls *)

Record OutgoingLogicCall := mkOutgoingLogicCall {
  lc_Transfers : list ERC20Token; lc_Fees : list ERC20Token;
  lc_LogicContractAddress : string; lc_Payload : bytes; lc_Timeout : Z;
  lc_InvalidationId : bytes; lc_InvalidationNonce : Z; lc_CosmosBlockCreated : Z }.

(** [for i, x := range l { y, err := f(x); if err != nil { return err }; out[i] = y }] *)
Fixpoint res_map {A B} (f : A → res B) (l : list A) : res (list B) :=
  match l with
  | [] => Ok []
  | x :: l' => y ← f x; ys ← res_map f l'; Ok (y :: ys)
  end.

Section Types.
Context `{Geth} `{Sdk}.

Definition NewInternalOutgoingTransferTx (id : Z) (sender destAddress : string)
    (erc20Token erc20Fee : ERC20Token) : res InternalOutgoingTransferTx :=
  send ← AccAddressFromBech32 sender;
  dest ← NewEthAddress destAddress;
  token ← ERC20Token_ToInternal erc20Token;
  fee ← ERC20Token_ToInternal erc20Fee;
  Ok (mkInternalOutgoingTransferTx id send dest token fee).

Definition OutgoingTransferTx_ToInternal (o : OutgoingTransferTx)
    : res InternalOutgoingTransferTx :=
  NewInternalOutgoingTransferTx (ot_Id o) (ot_Sender o) (ot_DestAddress o)
    (ot_Erc20Token o) (ot_Erc20Fee o).

Definition InternalOutgoingTransferTx_ToExternal (i : InternalOutgoingTransferTx)
    : OutgoingTransferTx :=
  mkOutgoingTransferTx (tx_Id i) (AccAddressString (tx_Sender i))
    (Hex (GetAddress (tx_DestAddress i)))
    (InternalERC20Token_ToExternal (tx_Erc20Token i))
    (InternalERC20Token_ToExternal (tx_Erc20Fee i)).

Definition InternalOutgoingTransferTx_ValidateBasic (i : InternalOutgoingTransferTx)
    : res unit :=
  _ ← EthAddress_ValidateBasic (tx_DestAddress i);
  _ ← InternalERC20Token_ValidateBasic (tx_Erc20Token i);
  _ ← InternalERC20Token_ValidateBasic (tx_Erc20Fee i);
  Ok tt.

Definition InternalOutgoingTxBatch_ValidateBasic (i : InternalOutgoingTxBatch) : res unit :=
  _ ← EthAddress_ValidateBasic (ib_TokenContract i);
  _ ← res_map InternalOutgoingTransferTx_ValidateBasic (ib_Transactions i);
  Ok tt.

Definition NewInternalOutgingTxBatch (nonce timeout : Z)
    (transactions : list InternalOutgoingTransferTx) (contract : EthAddress)
    (blockCreated : Z) : res InternalOutgoingTxBatch :=
  let ret := mkInternalOutgoingTxBatch nonce timeout transactions contract blockCreated in
  _ ← InternalOutgoingTxBatch_ValidateBasic ret;
  Ok ret.

Definition NewInternalOutgingTxBatchFromExternalBatch (batch : OutgoingTxBatch)
    : res InternalOutgoingTxBatch :=
  contractAddr ← NewEthAddress (ob_TokenContract batch);
  txs ← res_map OutgoingTransferTx_ToInternal (ob_Transactions batch);
  Ok (mkInternalOutgoingTxBatch (ob_BatchNonce batch) (ob_BatchTimeout batch) txs
        contractAddr (ob_CosmosBlockCreated batch)).

Definition OutgoingTxBatch_ToInternal (o : OutgoingTxBatch) : res InternalOutgoingTxBatch :=
  NewInternalOutgingTxBatchFromExternalBatch o.

Definition InternalOutgoingTxBatch_ToExternal (i : InternalOutgoingTxBatch)
    : OutgoingTxBatch :=
  mkOutgoingTxBatch (ib_BatchNonce i) (ib_BatchTimeout i)
    (InternalOutgoingTransferTx_ToExternal <$> ib_Transactions i)
    (Hex (GetAddress (ib_TokenContract i))) (ib_CosmosBlockCreated i).

Definition ToExternalArray (l : list InternalOutgoingTxBatch) : list OutgoingTxBatch :=
  InternalOutgoingTxBatch_ToExternal <$> l.

(** The sum of the fees; [None] is the overflow panic. *)
Definition GetFees (b : OutgoingTxBatch) : option Z :=
  foldl (λ sum t, sum ≫= λ s, Int_Add s (et_Amount (ot_Erc20Fee t)))
    (Some 0) (ob_Transactions b).

Definition OutgoingLogicCall_ValidateBasic (c : OutgoingLogicCall) : res unit :=
  match res_map ERC20Token_ToInternal (lc_Transfers c) with
  | Er _ => Er ErrInvalidLogicCall
  | Ok _ =>
    match res_map ERC20Token_ToInternal (lc_Fees c) with
    | Er _ => Er ErrInvalidLogicCall
    | Ok _ =>
      match NewEthAddress (lc_LogicContractAddress c) with
      | Er _ => Er ErrInvalidLogicCall
      | Ok _ => Ok tt
      end
    end
  end.

Context `{EthAbi}.

(** [None] is a panic: a gravity id that is too long or a failed encoding. *)
Definition InternalOutgoingTxBatch_GetCheckpoint (gravityIDstring : string)
    (i : InternalOutgoingTxBatch) : option bytes :=
  match strToFixByteArray gravityIDstring with
  | Er _ => None
  | Ok gravityID =>
    let batchMethodName := fix32 (bytes_of_string "transactionBatch") in
    let txAmounts := (λ tx, it_Amount (tx_Erc20Token tx)) <$> ib_Transactions i in
    let txDestinations := (λ tx, GetAddress (tx_DestAddress tx)) <$> ib_Transactions i in
    let txFees := (λ tx, it_Amount (tx_Erc20Fee tx)) <$> ib_Transactions i in
    match Pack "OutgoingBatchTxCheckpointABIJSON" "submitBatch"
            [ABytes32 gravityID; ABytes32 batchMethodName; AUints txAmounts;
             AAddrs txDestinations; AUints txFees; AUint (int64 (ib_BatchNonce i));
             AAddr (GetAddress (ib_TokenContract i)); AUint (int64 (ib_BatchTimeout i))] with
    | Er _ => None
    | Ok abiEncodedBatch => Some (Keccak256Hash (drop 4 abiEncodedBatch))
    end
  end.

Definition OutgoingTxBatch_GetCheckpoint (gravityIDstring : string) (o : OutgoingTxBatch)
    : option bytes :=
  match OutgoingTxBatch_ToInternal o with
  | Er _ => None
  | Ok i => InternalOutgoingTxBatch_GetCheckpoint gravityIDstring i
  end.

Definition OutgoingLogicCall_GetCheckpoint (gravityIDstring : string)
    (c : OutgoingLogicCall) : option bytes :=
  match strToFixByteArray gravityIDstring with
  | Er _ => None
  | Ok gravityID =>
    let logicCallMethodName := fix32 (bytes_of_string "logicCall") in
    let transferAmounts := et_Amount <$> lc_Transfers c in
    let transferTokenContracts := (λ t, HexToAddress (et_Contract t)) <$> lc_Transfers c in
    let feeAmounts := et_Amount <$> lc_Fees c in
    let feeTokenContracts := (λ t, HexToAddress (et_Contract t)) <$> lc_Fees c in
    let invalidationId := fix32 (lc_InvalidationId c) in
    match Pack "OutgoingLogicCallABIJSON" "checkpoint"
            [ABytes32 gravityID; ABytes32 logicCallMethodName; AUints transferAmounts;
             AAddrs transferTokenContracts; AUints feeAmounts; AAddrs feeTokenContracts;
             AAddr (HexToAddress (lc_LogicContractAddress c)); ABytes (lc_Payload c);
             AUint (int64 (lc_Timeout c)); ABytes32 invalidationId;
             AUint (int64 (lc_InvalidationNonce c))] with
    | Er _ => None
    | Ok abiEncodedCall => Some (Keccak256Hash (drop 4 abiEncodedCall))
    end
  end.
End Types.

(** ** Lemmas *)

Section TypeLemmas.
Context `{GethLaws} `{SdkLaws}.

Definition tx_ok (t : InternalOutgoingTransferTx) : Prop :=
  u64_ok (tx_Id t) ∧ VerifyAddressFormat (tx_Sender t) = Ok tt ∧
  eth_ok (tx_DestAddress t) ∧ token_ok (tx_Erc20Token t) ∧ token_ok (tx_Erc20Fee t).

Definition batch_ok (b : InternalOutgoingTxBatch) : Prop :=
  u64_ok (ib_BatchNonce b) ∧ eth_ok (ib_TokenContract b) ∧ Forall tx_ok (ib_Transactions b).

Lemma res_map_Ok {A B} (f : A → res B) (g : A → B) l :
  Forall (λ x, f x = Ok (g x)) l → res_map f l = Ok (g <$> l).
Proof. induction 1 as [|x l Hx Hl IH]; csimpl; [done|]. by rewrite Hx, IH. Qed.

Lemma res_map_fmap_Ok {A B} (f : A → res B) (g : B → A) l :
  Forall (λ x, f (g x) = Ok x) l → res_map f (g <$> l) = Ok l.
Proof. induction 1 as [|x l Hx Hl IH]; csimpl; [done|]. by rewrite Hx, IH. Qed.

Lemma tx_roundtrip t :
  tx_ok t → OutgoingTransferTx_ToInternal (InternalOutgoingTransferTx_ToExternal t) = Ok t.
Proof.
  intros (_ & Hs & Hd & Ht & Hf). unfold OutgoingTransferTx_ToInternal,
    NewInternalOutgoingTransferTx. simpl.
  rewrite acc_bech32_roundtrip by done. cbn. rewrite NewEthAddress_Hex by done. cbn.
  rewrite !ERC20Token_roundtrip by done. by destruct t.
Qed.

Lemma batch_roundtrip b :
  batch_ok b → OutgoingTxBatch_ToInternal (InternalOutgoingTxBatch_ToExternal b) = Ok b.
Proof.
  intros (_ & Hc & Ht). unfold OutgoingTxBatch_ToInternal,
    NewInternalOutgingTxBatchFromExternalBatch. simpl.
  rewrite NewEthAddress_Hex by done. cbn. rewrite res_map_fmap_Ok.
  - by destruct b.
  - eapply Forall_impl; [exact Ht|]. intros t Htx. by apply tx_roundtrip.
Qed.

Lemma tx_ValidateBasic_ok t : tx_ok t → InternalOutgoingTransferTx_ValidateBasic t = Ok tt.
Proof.
  intros (_ & _ & Hd & Ht & Hf). unfold InternalOutgoingTransferTx_ValidateBasic.
  rewrite EthAddress_ValidateBasic_ok by done. cbn.
  rewrite !InternalERC20Token_ValidateBasic_ok by done. done.
Qed.

Lemma batch_ValidateBasic_ok b :
  batch_ok b → InternalOutgoingTxBatch_ValidateBasic b = Ok tt.
Proof.
  intros (_ & Hc & Ht). unfold InternalOutgoingTxBatch_ValidateBasic.
  rewrite EthAddress_ValidateBasic_ok by done. cbn.
  rewrite (res_map_Ok _ (λ _, tt)); [done|].
  eapply Forall_impl; [exact Ht|]. intros t Htx. by apply tx_ValidateBasic_ok.
Qed.
End TypeLemmas.
