(* ===== verification/Valset.v ===== *)
(** * Validator sets (types/validation.go, normalizeValidatorPower)

    Bridge validators with their validated internal form, their canonical
    order, and the power normalisation of keeper/keeper_valset.go. *)

From S2P Require Import Prelude GoStd External Ethereum OutgoingTx.
From stdpp Require Import base gmap list strings sorting.

#[local] Open Scope Z_scope.

Record BridgeValidator := mkBridgeValidator { bv_Power : Z; bv_EthereumAddress : string }.

Record InternalBridgeValidator := mkInternalBridgeValidator {
  ibv_Power : Z; ibv_EthereumAddress : EthAddress }.

(** [RewardAmount] is [None] for the zero value [math.Int{}]. *)
Record Valset := mkValset {
  vs_Nonce : Z; vs_Members : list BridgeValidator; vs_Height : Z;
  vs_RewardAmount : option Z; vs_RewardToken : string }.

#[global] Instance BridgeValidator_eq_dec : EqDecision BridgeValidator.
Proof. solve_decision. Defined.
#[global] Instance InternalBridgeValidator_eq_dec : EqDecision InternalBridgeValidator.
Proof. solve_decision. Defined.
#[global] Instance Valset_eq_dec : EqDecision Valset.
Proof. solve_decision. Defined.

Section Valset.
Context `{Geth}.

Definition InternalBridgeValidator_ValidateBasic (i : InternalBridgeValidator) : res unit :=
  EthAddress_ValidateBasic (ibv_EthereumAddress i).

Definition NewInternalBridgeValidator (b : BridgeValidator) : res InternalBridgeValidator :=
  ethAddr ← NewEthAddress (bv_EthereumAddress b);
  let i := mkInternalBridgeValidator (bv_Power b) ethAddr in
  _ ← InternalBridgeValidator_ValidateBasic i;
  Ok i.

Definition BridgeValidators_ToInternal (b : list BridgeValidator)
    : res (list InternalBridgeValidator) :=
  res_map NewInternalBridgeValidator b.

(** [Equal] compares contents and order. *)
Definition BridgeValidators_Equal (b o : list BridgeValidator) : bool :=
  if negb (Nat.eqb (length b) (length o)) then false
  else forallb (λ p, bool_decide (p.1 = p.2)) (zip b o).

Definition InternalBridgeValidator_ToExternal (i : InternalBridgeValidator) : BridgeValidator :=
  mkBridgeValidator (ibv_Power i) (Hex (GetAddress (ibv_EthereumAddress i))).

Definition InternalBridgeValidators_ToExternal (i : list InternalBridgeValidator)
    : list BridgeValidator := InternalBridgeValidator_ToExternal <$> i.

(** The order of [Sort]: power descending, then the address string ascending. *)
Definition ibv_less (x y : InternalBridgeValidator) : bool :=
  if ibv_Power x =? ibv_Power y
  then EthAddrLessThan (ibv_EthereumAddress x) (ibv_EthereumAddress y)
  else ibv_Power y <? ibv_Power x.

Definition ibv_le (x y : InternalBridgeValidator) : Prop := ibv_less y x = false.
#[global] Instance ibv_le_dec x y : Decision (ibv_le x y).
Proof. unfold ibv_le. apply _. Defined.

(** [sort.Slice] leaves a permutation in which no element is less than one
    before it; [Sort_canonical] shows that there is only one. *)
Definition Sort (b : list InternalBridgeValidator) : list InternalBridgeValidator :=
  merge_sort ibv_le b.

Definition TotalPower (b : list InternalBridgeValidator) : Z :=
  foldl (λ out v, u64 (out + ibv_Power v)) 0 b.

(** The set of address strings is smaller than the list. *)
Definition HasDuplicates (b : list InternalBridgeValidator) : bool :=
  let m : gset string :=
    list_to_set ((λ v, Hex (GetAddress (ibv_EthereumAddress v))) <$> b) in
  negb (Nat.eqb (size m) (length b)).

Definition GetPowers (b : list InternalBridgeValidator) : list Z := ibv_Power <$> b.

Definition InternalBridgeValidators_ValidateBasic (b : list InternalBridgeValidator)
    : res unit :=
  match b with
  | [] => Er ErrEmpty
  | _ =>
    _ ← res_map InternalBridgeValidator_ValidateBasic b;
    if HasDuplicates b then Er ErrDuplicate else Ok tt
  end.

Definition NewValset (nonce height : Z) (members : list InternalBridgeValidator)
    (rewardAmount : Z) (rewardToken : EthAddress) : res Valset :=
  _ ← InternalBridgeValidators_ValidateBasic members;
  let mem := InternalBridgeValidator_ToExternal <$> Sort members in
  Ok (mkValset nonce mem height (Some rewardAmount) (Hex (GetAddress rewardToken))).

Definition WithoutEmptyMembers (v : Valset) : Valset :=
  mkValset (vs_Nonce v)
    (filter (λ m, is_ok (NewInternalBridgeValidator m) = true) (vs_Members v)) 0 None "".

(** [None] is the panic of comparing a nil amount. *)
Definition Valset_Equal (v o : Valset) : option (res unit) :=
  if negb (vs_Height v =? vs_Height o) then Some (Er ErrInvalid) else
  if negb (vs_Nonce v =? vs_Nonce o) then Some (Er ErrInvalid) else
  match vs_RewardAmount v, vs_RewardAmount o with
  | Some a, Some b =>
      if negb (a =? b) then Some (Er ErrInvalid) else
      if bool_decide (vs_RewardToken v ≠ vs_RewardToken o) then Some (Er ErrInvalid) else
      if negb (BridgeValidators_Equal (vs_Members v) (vs_Members o))
      then Some (Er ErrInvalid) else Some (Ok tt)
  | _, _ => None
  end.

Context `{EthAbi}.

Definition Valset_GetCheckpoint (gravityIDstring : string) (v : Valset) : option bytes :=
  match strToFixByteArray gravityIDstring, ValidateEthAddress (vs_RewardToken v),
        vs_RewardAmount v with
  | Ok gravityID, Ok _, Some rewardAmount =>
    let rewardToken := HexToAddress (vs_RewardToken v) in
    let checkpoint := fix32 (bytes_of_string "checkpoint") in
    let memberAddresses := (λ m, HexToAddress (bv_EthereumAddress m)) <$> vs_Members v in
    let convertedPowers := (λ m, int64 (bv_Power m)) <$> vs_Members v in
    match Pack "ValsetCheckpointABIJSON" "checkpoint"
            [ABytes32 gravityID; ABytes32 checkpoint; AUint (int64 (vs_Nonce v));
             AAddrs memberAddresses; AUints convertedPowers; AUint rewardAmount;
             AAddr rewardToken] with
    | Er _ => None
    | Ok b => Some (Keccak256Hash (drop 4 b))
    end
  | _, _, _ => None
  end.
End Valset.

(** [Valsets.Less] of the sort interface: most recent first. *)
Definition Valsets_Less (v w : Valset) : bool := vs_Nonce w <? vs_Nonce v.

(** keeper_valset.go: [power.Uint64()] of the truncated quotient.  Division by a
    zero total panics ([None]). *)
Definition normalizeValidatorPower (rawPower totalValidatorPower : Z) : option Z :=
  if totalValidatorPower =? 0 then None
  else Some (u64 (Z.quot (rawPower * 4294967296) totalValidatorPower)).

#[global] Arguments BridgeValidators_ToInternal : simpl never.
#[global] Arguments InternalBridgeValidators_ToExternal : simpl never.
#[global] Arguments Sort : simpl never.

(** ** Lemmas *)

Section ValsetLemmas.
Context `{GethLaws}.

Definition ibv_ok (v : InternalBridgeValidator) : Prop := eth_ok (ibv_EthereumAddress v).

Lemma EthAddrLessThan_spec a b :
  EthAddrLessThan a b = true ↔
  bytes_lt (bytes_of_string (Hex (GetAddress a))) (bytes_of_string (Hex (GetAddress b))).
Proof. done. Qed.

Lemma ibv_le_spec x y :
  ibv_le x y ↔ ibv_Power y < ibv_Power x ∨
    (ibv_Power x = ibv_Power y ∧
     bytes_le (bytes_of_string (Hex (GetAddress (ibv_EthereumAddress x))))
              (bytes_of_string (Hex (GetAddress (ibv_EthereumAddress y))))).
Proof.
  unfold ibv_le, ibv_less. rewrite bytes_le_not_lt, <- EthAddrLessThan_spec, not_true_iff_false.
  destruct (Z.eqb_spec (ibv_Power y) (ibv_Power x)); [intuition lia|].
  destruct (Z.ltb_spec (ibv_Power x) (ibv_Power y)); intuition (lia || congruence).
Qed.

#[global] Instance ibv_le_trans : Transitive ibv_le.
Proof.
  intros x y z. rewrite !ibv_le_spec. intros [?|[? Hxy]] [?|[? Hyz]]; [left; lia..|].
  right. split; [lia|]. by etrans.
Qed.

#[global] Instance ibv_le_total : Total ibv_le.
Proof.
  intros x y. rewrite !ibv_le_spec.
  destruct (Z.lt_trichotomy (ibv_Power x) (ibv_Power y)) as [?|[?|?]]; [tauto| |tauto].
  destruct (total bytes_le (bytes_of_string (Hex (GetAddress (ibv_EthereumAddress x))))
    (bytes_of_string (Hex (GetAddress (ibv_EthereumAddress y))))); intuition lia.
Qed.

Lemma ibv_le_antisym x y : ibv_ok x → ibv_ok y → ibv_le x y → ibv_le y x → x = y.
Proof.
  intros Hx Hy. rewrite !ibv_le_spec. intros [?|[E H1]] [?|[E2 H2]]; try lia.
  pose proof (anti_symm bytes_le _ _ H1 H2) as Ea. apply bytes_of_string_inj, Hex_inj in Ea;
    [|done..]. destruct x as [px [ax]], y as [py [ay]]. simpl in *. by subst.
Qed.

Lemma Sort_perm b : Sort b ≡ₚ b.
Proof. apply merge_sort_Permutation. Qed.

Lemma Sort_sorted b : StronglySorted ibv_le (Sort b).
Proof. apply StronglySorted_merge_sort; apply _. Qed.

(** Any other result [sort.Slice] may produce is the same list. *)
Lemma Sort_canonical b l :
  Forall ibv_ok b → l ≡ₚ b → StronglySorted ibv_le l → l = Sort b.
Proof.
  intros Hok Hp Hs. eapply (StronglySorted_unique_strong ibv_le).
  - intros x y Hx Hy. rewrite Forall_forall in Hok. apply ibv_le_antisym; apply Hok.
    + by rewrite <- Hp.
    + by rewrite <- (Sort_perm b).
  - done.
  - apply Sort_sorted.
  - by rewrite Hp, Sort_perm.
Qed.

Lemma NewInternalBridgeValidator_ok b v : NewInternalBridgeValidator b = Ok v → ibv_ok v.
Proof.
  unfold NewInternalBridgeValidator. destruct (NewEthAddress _) as [a|] eqn:E; [|done].
  cbn. destruct (InternalBridgeValidator_ValidateBasic _); [|done]. intros [= <-].
  by eapply NewEthAddress_ok.
Qed.

Lemma InternalBridgeValidator_roundtrip v :
  ibv_ok v → NewInternalBridgeValidator (InternalBridgeValidator_ToExternal v) = Ok v.
Proof.
  intros Hv. unfold NewInternalBridgeValidator. simpl. rewrite NewEthAddress_Hex by done.
  cbn. unfold InternalBridgeValidator_ValidateBasic. simpl.
  rewrite EthAddress_ValidateBasic_ok by done. by destruct v.
Qed.
(** The order of the members of a validator set does not depend on the order
    in which the validators were read: [Sort] gives every node the same list, a
    permutation of its input with the greatest powers first and equal powers in
    ascending order of their addresses. *)
Theorem Sort_deterministic b c :
  Forall ibv_ok b → b ≡ₚ c → Sort b = Sort c ∧ Sort b ≡ₚ b ∧ StronglySorted ibv_le (Sort b).
Proof.
  intros Hok Hp. split_and!; [|apply Sort_perm|apply Sort_sorted].
  apply Sort_canonical; [by rewrite <- Hp|by rewrite Sort_perm|apply Sort_sorted].
Qed.
End ValsetLemmas.

(** ** Power normalisation *)

Lemma normalizeValidatorPower_spec raw total :
  0 ≤ raw ≤ total → 0 < total →
  normalizeValidatorPower raw total = Some (raw * 4294967296 / total) ∧
  0 ≤ raw * 4294967296 / total ≤ 4294967296.
Proof.
  intros Hr Ht. assert (0 ≤ raw * 4294967296 / total ≤ 4294967296).
  { split; [apply Z.div_pos; lia|]. apply Z.div_le_upper_bound; nia. }
  split; [|done]. unfold normalizeValidatorPower.
  destruct (Z.eqb_spec total 0); [lia|]. rewrite Z.quot_div_nonneg by lia.
  rewrite u64_small; [done|]. unfold u64_ok, two64. lia.
Qed.

(** The normalised powers of a validator set add up to at most 2^32, and to less
    than 2^32 by at most one unit per validator. *)
Lemma normalized_sum_bound (powers : list Z) total :
  Forall (λ p, 0 ≤ p) powers → 0 < total →
  let norm := sumZ (λ p, p * 4294967296 / total) powers in
  sumZ (λ p, p) powers * 4294967296 - Z.of_nat (length powers) * total
    ≤ norm * total ≤ sumZ (λ p, p) powers * 4294967296.
Proof.
  intros Hp Ht. induction Hp as [|p l Hp0 Hl IH]; [simpl; lia|].
  cbn [sumZ foldr length] in *. unfold sumZ in *.
  pose proof (Z.div_mod (p * 4294967296) total) as Hd.
  pose proof (Z.mod_pos_bound (p * 4294967296) total). nia.
Qed.
