(* ===== verification/Claims.v ===== *)
(** * Oracle claims (types/msgs.go, types/attestation.go, types/claim_limits.go)

    The five kinds of events that validators report from Ethereum, their
    stateless checks, their hashes, and the claim components that an attestation
    stores beside the claim. *)

From S2P Require Import Prelude GoStd External Ethereum OutgoingTx Valset.
From stdpp Require Import base gmap list strings sorting pretty.

#[local] Open Scope Z_scope.

Record MsgSendToCosmosClaim := mkSendToCosmos {
  sc_EventNonce : Z; sc_EthBlockHeight : Z; sc_TokenContract : string; sc_Amount : Z;
  sc_EthereumSender : string; sc_CosmosReceiver : string; sc_Orchestrator : string }.

Record MsgBatchSendToEthClaim := mkBatchSendToEth {
  bc_EventNonce : Z; bc_EthBlockHeight : Z; bc_BatchNonce : Z; bc_TokenContract : string;
  bc_Orchestrator : string }.

Record MsgERC20DeployedClaim := mkERC20Deployed {
  ed_EventNonce : Z; ed_EthBlockHeight : Z; ed_CosmosDenom : string;
  ed_TokenContract : string; ed_Name : string; ed_Symbol : string; ed_Decimals : Z;
  ed_Orchestrator : string }.

Record MsgLogicCallExecutedClaim := mkLogicCallExecuted {
  le_EventNonce : Z; le_EthBlockHeight : Z; le_InvalidationId : bytes;
  le_InvalidationNonce : Z; le_Orchestrator : string }.

Record MsgValsetUpdatedClaim := mkValsetUpdated {
  vu_EventNonce : Z; vu_ValsetNonce : Z; vu_EthBlockHeight : Z;
  vu_Members : list BridgeValidator; vu_RewardAmount : Z; vu_RewardToken : string;
  vu_Orchestrator : string }.

(** The implementations of the [EthereumClaim] interface. *)
Inductive EthereumClaim :=
  | SendToCosmosClaim (c : MsgSendToCosmosClaim)
  | BatchSendToEthClaim (c : MsgBatchSendToEthClaim)
  | ERC20DeployedClaim (c : MsgERC20DeployedClaim)
  | LogicCallExecutedClaim (c : MsgLogicCallExecutedClaim)
  | ValsetUpdatedClaim (c : MsgValsetUpdatedClaim).

Inductive ClaimType :=
  | CLAIM_TYPE_UNSPECIFIED | CLAIM_TYPE_SEND_TO_COSMOS | CLAIM_TYPE_BATCH_SEND_TO_ETH
  | CLAIM_TYPE_ERC20_DEPLOYED | CLAIM_TYPE_LOGIC_CALL_EXECUTED | CLAIM_TYPE_VALSET_UPDATED.

Definition GetEventNonce (c : EthereumClaim) : Z :=
  match c with
  | SendToCosmosClaim c => sc_EventNonce c
  | BatchSendToEthClaim c => bc_EventNonce c
  | ERC20DeployedClaim c => ed_EventNonce c
  | LogicCallExecutedClaim c => le_EventNonce c
  | ValsetUpdatedClaim c => vu_EventNonce c
  end.

Definition GetEthBlockHeight (c : EthereumClaim) : Z :=
  match c with
  | SendToCosmosClaim c => sc_EthBlockHeight c
  | BatchSendToEthClaim c => bc_EthBlockHeight c
  | ERC20DeployedClaim c => ed_EthBlockHeight c
  | LogicCallExecutedClaim c => le_EthBlockHeight c
  | ValsetUpdatedClaim c => vu_EthBlockHeight c
  end.

Definition GetType (c : EthereumClaim) : ClaimType :=
  match c with
  | SendToCosmosClaim _ => CLAIM_TYPE_SEND_TO_COSMOS
  | BatchSendToEthClaim _ => CLAIM_TYPE_BATCH_SEND_TO_ETH
  | ERC20DeployedClaim _ => CLAIM_TYPE_ERC20_DEPLOYED
  | LogicCallExecutedClaim _ => CLAIM_TYPE_LOGIC_CALL_EXECUTED
  | ValsetUpdatedClaim _ => CLAIM_TYPE_VALSET_UPDATED
  end.

Definition GetOrchestrator (c : EthereumClaim) : string :=
  match c with
  | SendToCosmosClaim c => sc_Orchestrator c
  | BatchSendToEthClaim c => bc_Orchestrator c
  | ERC20DeployedClaim c => ed_Orchestrator c
  | LogicCallExecutedClaim c => le_Orchestrator c
  | ValsetUpdatedClaim c => vu_Orchestrator c
  end.

(** ** Claim components (types/attestation.go) *)

(** Amounts are stored as decimal strings; the orchestrator is left out. *)
Inductive ClaimHashComponents :=
  | SendToCosmosClaimComponents (EventNonce EthBlockHeight : Z)
      (TokenContract Amount EthereumSender CosmosReceiver : string)
  | BatchSendToEthClaimComponents (EventNonce EthBlockHeight BatchNonce : Z)
      (TokenContract : string)
  | ERC20DeployedClaimComponents (EventNonce EthBlockHeight : Z)
      (CosmosDenom TokenContract Name Symbol : string) (Decimals : Z)
  | LogicCallExecutedClaimComponents (EventNonce EthBlockHeight : Z)
      (InvalidationId : bytes) (InvalidationNonce : Z)
  | ValsetUpdatedClaimComponents (EventNonce ValsetNonce EthBlockHeight : Z)
      (Members : list BridgeValidator) (RewardAmount RewardToken : string).

#[global] Instance ClaimHashComponents_eq_dec : EqDecision ClaimHashComponents.
Proof. solve_decision. Defined.

(** ** Libraries *)

(** cometbft's [tmhash.Sum] and the decimal conversions of [sdkmath.Int] *)
Class Hashing := {
  tmhash_Sum : bytes → bytes;
  Int_String : Z → string;
  NewIntFromString : string → option Z;
}.

Class HashingLaws `{Hashing} := {
  int_string_roundtrip z : int_ok z → NewIntFromString (Int_String z) = Some z;
}.

(** ** Formatting *)

(** [%d] of a [uint64] *)
Definition fmt_d (n : Z) : bytes := bytes_of_string (pretty (Z.to_N n)).

Fixpoint hex_digits (fuel : nat) (n : Z) (acc : string) : string :=
  match fuel with
  | O => acc
  | S fuel' =>
      let acc' := String (hexdigit (n mod 16)) acc in
      if n / 16 =? 0 then acc' else hex_digits fuel' (n / 16) acc'
  end.

(** [%x] of a [uint64]: at most sixteen digits *)
Definition fmt_x (n : Z) : bytes := bytes_of_string (hex_digits 16 n "").

(** [%x] of a slice of [BridgeValidator] structs: the power and the bytes of
    the address string, both in hexadecimal. *)
Definition fmt_x_validator (v : BridgeValidator) : bytes :=
  bytes_of_string "{" ++ fmt_x (bv_Power v) ++ bytes_of_string " " ++
  bytes_of_string (hex_encode (bytes_of_string (bv_EthereumAddress v))) ++ bytes_of_string "}".

Definition join (sep : bytes) (ls : list bytes) : bytes :=
  match ls with
  | [] => []
  | l :: ls' => l ++ concat ((λ x, sep ++ x) <$> ls')
  end.

Definition fmt_x_validators (l : list BridgeValidator) : bytes :=
  bytes_of_string "[" ++ join (bytes_of_string " ") (fmt_x_validator <$> l) ++ bytes_of_string "]".

Definition separated (fields : list bytes) : bytes :=
  join (bytes_of_string AttestationSeparator) fields.

Section Claims.
Context `{Geth} `{Sdk}.

(** ** Stateless checks *)

Definition SendToCosmos_ValidateBasic (msg : MsgSendToCosmosClaim) : res unit :=
  _ ← ValidateEthAddress (sc_EthereumSender msg);
  _ ← ValidateEthAddress (sc_TokenContract msg);
  match AccAddressFromBech32 (sc_Orchestrator msg) with
  | Er _ => Er (ErrSdk "orchestrator")
  | Ok _ => if sc_EventNonce msg =? 0 then Er (ErrSdk "nonce == 0") else Ok tt
  end.

Definition BatchSendToEth_ValidateBasic (e : MsgBatchSendToEthClaim) : res unit :=
  if bc_EventNonce e =? 0 then Er (ErrSdk "event_nonce == 0") else
  if bc_BatchNonce e =? 0 then Er (ErrSdk "batch_nonce == 0") else
  _ ← ValidateEthAddress (bc_TokenContract e);
  match AccAddressFromBech32 (bc_Orchestrator e) with
  | Er _ => Er (ErrSdk "orchestrator")
  | Ok _ => Ok tt
  end.

Definition ERC20Deployed_ValidateBasic (e : MsgERC20DeployedClaim) : res unit :=
  _ ← ValidateStrictDenom (ed_CosmosDenom e);
  _ ← ValidateEthAddress (ed_TokenContract e);
  match AccAddressFromBech32 (ed_Orchestrator e) with
  | Er _ => Er (ErrSdk "orchestrator")
  | Ok _ => if ed_EventNonce e =? 0 then Er (ErrSdk "nonce == 0") else Ok tt
  end.

Definition LogicCallExecuted_ValidateBasic (e : MsgLogicCallExecutedClaim) : res unit :=
  match AccAddressFromBech32 (le_Orchestrator e) with
  | Er _ => Er (ErrSdk "orchestrator")
  | Ok _ => if le_EventNonce e =? 0 then Er (ErrSdk "nonce == 0") else Ok tt
  end.

Definition ValsetUpdated_ValidateBasic (e : MsgValsetUpdatedClaim) : res unit :=
  match AccAddressFromBech32 (vu_Orchestrator e) with
  | Er _ => Er (ErrSdk "orchestrator")
  | Ok _ =>
      if vu_EventNonce e =? 0 then Er (ErrSdk "nonce == 0") else
      _ ← ValidateEthAddress (vu_RewardToken e);
      _ ← res_map (λ m, ValidateEthAddress (bv_EthereumAddress m)) (vu_Members e);
      Ok tt
  end.

Definition Claim_ValidateBasic (c : EthereumClaim) : res unit :=
  match c with
  | SendToCosmosClaim c => SendToCosmos_ValidateBasic c
  | BatchSendToEthClaim c => BatchSendToEth_ValidateBasic c
  | ERC20DeployedClaim c => ERC20Deployed_ValidateBasic c
  | LogicCallExecutedClaim c => LogicCallExecuted_ValidateBasic c
  | ValsetUpdatedClaim c => ValsetUpdated_ValidateBasic c
  end.

(** Panics ([None]) on a claim that fails [ValidateBasic]. *)
Definition GetClaimer (c : EthereumClaim) : option bytes :=
  match Claim_ValidateBasic c with
  | Er _ => None
  | Ok _ =>
      match AccAddressFromBech32 (GetOrchestrator c) with
      | Er _ => None
      | Ok val => Some val
      end
  end.

(** ** Field limits (types/claim_limits.go) *)

Definition MaxTokenNameLength : Z := 256.
Definition MaxTokenSymbolLength : Z := 64.

Definition validateERC20AddressField (addr : string) : res unit :=
  if ETHContractAddressLen <? slen addr then Er ErrInvalidClaim else
  match ValidateEthAddress addr with Er _ => Er ErrInvalidClaim | Ok _ => Ok tt end.

Definition ValidateClaimFieldLengths (claim : EthereumClaim) : res unit :=
  match claim with
  | SendToCosmosClaim c =>
      _ ← validateERC20AddressField (sc_TokenContract c);
      validateERC20AddressField (sc_EthereumSender c)
  | ERC20DeployedClaim c =>
      _ ← validateERC20AddressField (ed_TokenContract c);
      match ValidateStrictDenom (ed_CosmosDenom c) with
      | Er _ => Er ErrInvalidClaim
      | Ok _ =>
          if MaxTokenNameLength <? slen (ed_Name c) then Er ErrInvalidClaim else
          if MaxTokenSymbolLength <? slen (ed_Symbol c) then Er ErrInvalidClaim else Ok tt
      end
  | BatchSendToEthClaim c => validateERC20AddressField (bc_TokenContract c)
  | ValsetUpdatedClaim c => validateERC20AddressField (vu_RewardToken c)
  | LogicCallExecutedClaim _ => Ok tt
  end.

Context `{Hashing}.

(** ** Claim hashes *)

Definition SendToCosmos_ClaimHash (msg : MsgSendToCosmosClaim) : res bytes :=
  Ok (tmhash_Sum (separated
    [fmt_d (sc_EventNonce msg); fmt_d (sc_EthBlockHeight msg);
     bytes_of_string (sc_TokenContract msg); bytes_of_string (Int_String (sc_Amount msg));
     bytes_of_string (sc_EthereumSender msg); bytes_of_string (sc_CosmosReceiver msg)])).

Definition BatchSendToEth_ClaimHash (msg : MsgBatchSendToEthClaim) : res bytes :=
  Ok (tmhash_Sum (separated
    [fmt_d (bc_EventNonce msg); fmt_d (bc_EthBlockHeight msg); fmt_d (bc_BatchNonce msg);
     bytes_of_string (bc_TokenContract msg)])).

Definition ERC20Deployed_ClaimHash (b : MsgERC20DeployedClaim) : res bytes :=
  Ok (tmhash_Sum (separated
    [fmt_d (ed_EventNonce b); fmt_d (ed_EthBlockHeight b);
     bytes_of_string (ed_CosmosDenom b); bytes_of_string (ed_TokenContract b);
     bytes_of_string (ed_Name b); bytes_of_string (ed_Symbol b); fmt_d (ed_Decimals b)])).

Definition LogicCallExecuted_ClaimHash (b : MsgLogicCallExecutedClaim) : res bytes :=
  Ok (tmhash_Sum (separated
    [fmt_d (le_EventNonce b); fmt_d (le_EthBlockHeight b); le_InvalidationId b;
     fmt_d (le_InvalidationNonce b)])).

Definition ValsetUpdated_ClaimHash (b : MsgValsetUpdatedClaim) : res bytes :=
  internalMembers ← BridgeValidators_ToInternal (vu_Members b);
  Ok (tmhash_Sum (separated
    [fmt_d (vu_EventNonce b); fmt_d (vu_ValsetNonce b); fmt_d (vu_EthBlockHeight b);
     fmt_x_validators (InternalBridgeValidators_ToExternal (Sort internalMembers));
     bytes_of_string (Int_String (vu_RewardAmount b)); bytes_of_string (vu_RewardToken b)])).

Definition ClaimHash (c : EthereumClaim) : res bytes :=
  match c with
  | SendToCosmosClaim c => SendToCosmos_ClaimHash c
  | BatchSendToEthClaim c => BatchSendToEth_ClaimHash c
  | ERC20DeployedClaim c => ERC20Deployed_ClaimHash c
  | LogicCallExecutedClaim c => LogicCallExecuted_ClaimHash c
  | ValsetUpdatedClaim c => ValsetUpdated_ClaimHash c
  end.

(** ** Components of a claim and back *)

Definition ExtractClaimHashComponents (claim : EthereumClaim) : res ClaimHashComponents :=
  match claim with
  | SendToCosmosClaim c =>
      Ok (SendToCosmosClaimComponents (sc_EventNonce c) (sc_EthBlockHeight c)
            (sc_TokenContract c) (Int_String (sc_Amount c)) (sc_EthereumSender c)
            (sc_CosmosReceiver c))
  | BatchSendToEthClaim c =>
      Ok (BatchSendToEthClaimComponents (bc_EventNonce c) (bc_EthBlockHeight c)
            (bc_BatchNonce c) (bc_TokenContract c))
  | ERC20DeployedClaim c =>
      Ok (ERC20DeployedClaimComponents (ed_EventNonce c) (ed_EthBlockHeight c)
            (ed_CosmosDenom c) (ed_TokenContract c) (ed_Name c) (ed_Symbol c) (ed_Decimals c))
  | LogicCallExecutedClaim c =>
      Ok (LogicCallExecutedClaimComponents (le_EventNonce c) (le_EthBlockHeight c)
            (le_InvalidationId c) (le_InvalidationNonce c))
  | ValsetUpdatedClaim c =>
      internalMembers ← BridgeValidators_ToInternal (vu_Members c);
      Ok (ValsetUpdatedClaimComponents (vu_EventNonce c) (vu_ValsetNonce c)
            (vu_EthBlockHeight c)
            (InternalBridgeValidators_ToExternal (Sort internalMembers))
            (Int_String (vu_RewardAmount c)) (vu_RewardToken c))
  end.

(** The claim type argument is not looked at. *)
Definition ReconstructClaim (claimType : ClaimType) (components : ClaimHashComponents)
    : res EthereumClaim :=
  match components with
  | SendToCosmosClaimComponents n h tc am es cr =>
      match NewIntFromString am with
      | None => Er ErrInvalidAttestation
      | Some amount => Ok (SendToCosmosClaim (mkSendToCosmos n h tc amount es cr ""))
      end
  | BatchSendToEthClaimComponents n h b tc =>
      Ok (BatchSendToEthClaim (mkBatchSendToEth n h b tc ""))
  | ERC20DeployedClaimComponents n h d tc nm sy dc =>
      Ok (ERC20DeployedClaim (mkERC20Deployed n h d tc nm sy dc ""))
  | LogicCallExecutedClaimComponents n h i m =>
      Ok (LogicCallExecutedClaim (mkLogicCallExecuted n h i m ""))
  | ValsetUpdatedClaimComponents n v h ms am rt =>
      match NewIntFromString am with
      | None => Er ErrInvalidAttestation
      | Some amount => Ok (ValsetUpdatedClaim (mkValsetUpdated n v h ms amount rt ""))
      end
  end.

Definition ComputeClaimHash (claimType : ClaimType) (c : ClaimHashComponents) : res bytes :=
  claim ← ReconstructClaim claimType c; ClaimHash claim.
End Claims.

(** ** Lemmas *)

Section ClaimLemmas.
Context `{GethLaws} `{HashingLaws}.

Definition claim_amount (c : EthereumClaim) : Z :=
  match c with
  | SendToCosmosClaim c => sc_Amount c
  | ValsetUpdatedClaim c => vu_RewardAmount c
  | _ => 0
  end.

Lemma res_map_Forall {A B} (f : A → res B) (P : B → Prop) l ys :
  (∀ x y, f x = Ok y → P y) → res_map f l = Ok ys → Forall P ys.
Proof.
  intros Hf. revert ys. induction l as [|x l IH]; intros ys E; simpl in E; [by simplify_eq|].
  destruct (f x) eqn:Ex; [|done]. cbn in E. destruct (res_map f l); [|done].
  cbn in E. simplify_eq. constructor; eauto.
Qed.

Lemma ToInternal_ToExternal_Sort l ms :
  BridgeValidators_ToInternal l = Ok ms →
  BridgeValidators_ToInternal (InternalBridgeValidators_ToExternal (Sort ms)) = Ok (Sort ms) ∧
  Sort (Sort ms) = Sort ms.
Proof.
  intros Hms. assert (Forall ibv_ok ms) as Hok.
  { eapply res_map_Forall; [|exact Hms]. apply NewInternalBridgeValidator_ok. }
  split.
  - apply res_map_fmap_Ok. rewrite Sort_perm. eapply Forall_impl; [exact Hok|].
    apply InternalBridgeValidator_roundtrip.
  - symmetry. apply Sort_canonical; [|done|apply Sort_sorted]. by rewrite Sort_perm.
Qed.

Lemma ComputeClaimHash_Extract ty c comps :
  int_ok (claim_amount c) → ExtractClaimHashComponents c = Ok comps →
  ComputeClaimHash ty comps = ClaimHash c.
Proof.
  intros Hint. unfold ComputeClaimHash. destruct c as [c|c|c|c|c]; simpl in *;
    try (intros [= <-]; reflexivity).
  - intros [= <-]. simpl. by rewrite int_string_roundtrip.
  - unfold ValsetUpdated_ClaimHash.
    destruct (BridgeValidators_ToInternal (vu_Members c)) as [ms|] eqn:E; [|done].
    cbn. intros [= <-]. cbn. rewrite int_string_roundtrip by done. cbn.
    unfold ValsetUpdated_ClaimHash. cbn.
    destruct (ToInternal_ToExternal_Sort _ _ E) as [-> Hs]. cbn. by rewrite Hs.
Qed.

Lemma Extract_nonce ty c comps :
  ExtractClaimHashComponents c = Ok comps →
  ∀ c', ReconstructClaim ty comps = Ok c' →
    GetEventNonce c' = GetEventNonce c ∧ GetEthBlockHeight c' = GetEthBlockHeight c ∧
    GetType c' = GetType c.
Proof.
  intros Hc c'. destruct c as [c|c|c|c|c]; simpl in Hc; simplify_eq; simpl;
    try (intros [= <-]; done).
  - case_match; intros; by simplify_eq.
  - destruct (BridgeValidators_ToInternal _); [|done]. cbn in Hc. simplify_eq. simpl.
    case_match; intros; by simplify_eq.
Qed.
(** The hash under which an attestation is stored can be recomputed from the
    components the attestation keeps: whatever the kind of the claim, extracting
    the components of a claim and hashing the claim they reconstruct gives the
    claim's own hash. *)
Theorem claim_hash_reproducible c comps :
  int_ok (claim_amount c) → ExtractClaimHashComponents c = Ok comps →
  ComputeClaimHash (GetType c) comps = ClaimHash c.
Proof. apply ComputeClaimHash_Extract. Qed.
End ClaimLemmas.
