(* ===== verification/Keeper.v ===== *)
(** * The keeper's state and its basic methods

    The stored objects, the state of the module, and the methods every other
    component uses: parameters (keeper/keeper_params.go), counters
    (keeper/pool.go), the Ethereum blacklist (keeper/keeper.go) and the
    checkpoints of what was ever signed (keeper/evidence.go). *)

From stdpp Require Import base gmap list strings.
From S2P Require Import Prelude GoStd External Store Ethereum Keys OutgoingTx Valset Claims.

#[local] Open Scope Z_scope.

(** ** Stored objects *)

(** Decimal fractions are scaled by 10^18; [None] is the nil fraction, which only
    the fraction of the auction pool is tested for. *)
Record Params := mkParams {
  p_GravityId : string;
  p_ContractSourceHash : string;
  p_BridgeEthereumAddress : string;
  p_BridgeChainId : Z;
  p_SignedValsetsWindow : Z;
  p_SignedBatchesWindow : Z;
  p_SignedLogicCallsWindow : Z;
  p_TargetBatchTimeout : Z;
  p_AverageBlockTime : Z;
  p_AverageEthereumBlockTime : Z;
  p_SlashFractionValset : Z;
  p_SlashFractionBatch : Z;
  p_SlashFractionLogicCall : Z;
  p_UnbondSlashingValsetsWindow : Z;
  p_SlashFractionBadEthSignature : Z;
  p_ValsetReward : Coin;
  p_BridgeActive : bool;
  p_EthereumBlacklist : list string;
  p_MinChainFeeBasisPoints : Z;
  p_ChainFeeAuctionPoolFraction : option Z }.

Record MsgConfirmBatch := mkMsgConfirmBatch {
  cb_Nonce : Z; cb_TokenContract : string; cb_EthSigner : string; cb_Orchestrator : string;
  cb_Signature : string }.

Record MsgValsetConfirm := mkMsgValsetConfirm {
  vc_Nonce : Z; vc_Orchestrator : string; vc_EthAddress : string; vc_Signature : string }.

Record MsgConfirmLogicCall := mkMsgConfirmLogicCall {
  cl_InvalidationId : string; cl_InvalidationNonce : Z; cl_EthSigner : string;
  cl_Orchestrator : string; cl_Signature : string }.

Record PendingIbcAutoForward := mkPendingIbcAutoForward {
  pf_ForeignReceiver : string; pf_Token : Coin; pf_IbcChannel : string; pf_EventNonce : Z }.

Record LastObservedEthereumBlockHeight := mkEthHeight {
  CosmosBlockHeight : Z; EthereumBlockHeight : Z }.

(** A protobuf [Any]; [UnpackClaim] is [cdc.UnpackAny] into an [EthereumClaim]. *)
Record Any := mkAny { any_TypeUrl : string; any_Value : bytes }.

Class Codec := { UnpackClaim : Any → res EthereumClaim }.

Record Attestation := mkAttestation {
  at_Observed : bool; at_Votes : list string; at_Height : Z; at_Claim : Any;
  at_ClaimType : ClaimType; at_ClaimComponents : option ClaimHashComponents }.

#[global] Instance Any_eq_dec : EqDecision Any.
Proof. solve_decision. Defined.
#[global] Instance ClaimType_eq_dec : EqDecision ClaimType.
Proof. solve_decision. Defined.
#[global] Instance Attestation_eq_dec : EqDecision Attestation.
Proof. solve_decision. Defined.

(** ** Events *)

Inductive Event :=
  | EventWithdrawalReceived (bridgeContract : string) (chainId outgoingTxId : Z)
  | EventWithdrawCanceled (sender : string) (txId : Z) (bridgeContract : string) (chainId : Z)
  | EventOutgoingBatch (bridgeContract : string) (chainId : Z) (batchId : bytes) (nonce : Z)
  | EventOutgoingBatchCanceled (bridgeContract : string) (chainId : Z) (batchId : bytes) (nonce : Z)
  | EventObservation (ty : ClaimType) (bridgeContract : string) (chainId : Z)
      (attestationId : bytes) (nonce : Z)
  | EventOutgoingLogicCallCanceled (id : bytes) (nonce : Z)
  | EventMultisigUpdateRequest (bridgeContract : string) (chainId nonce : Z)
  | EventInvalidSendToCosmosReceiver (amount nonce : Z) (token sender : string)
  | EventSendToCosmos (amount nonce : Z) (token : string)
  | EventSendToCosmosLocal (nonce : Z) (receiver token : string) (amount : Z)
  | EventSendToCosmosPendingIbcAutoForward (nonce : Z) (receiver token : string) (amount : Z)
      (channel : string)
  | EventSendToCosmosExecutedIbcAutoForward (nonce : Z) (receiver token : string) (amount : Z)
      (channel : string) (timeoutTime : Z)
  | EventBatchSendToEthClaim (nonce : Z)
  | EventERC20DeployedClaim (token : string) (nonce : Z)
  | EventValsetUpdatedClaim (nonce : Z)
  | EventSignatureSlashing (ty : string) (consAddress : bytes)
  | EventSetOperatorAddress (address : string)
  | EventValsetConfirmKey (key : bytes)
  | EventBatchConfirmKey (key : bytes)
  | EventOutgoingTxId (txId : Z)
  | EventSendToEthFeeCollected (sender : string) (sendAmount feeAmount : Coin)
  | EventBatchCreated (batchNonce : Z)
  | EventClaim (ty : ClaimType) (claimHash attestationId : bytes)
  | EventBadSignatureEvidence (signature : string) (subject : option Any).

(** ** The module's store

    One map per key prefix, keyed by the full keys of [Keys].  [raw] holds the
    values that are plain bytes: counters, address and denom indexes,
    checkpoints; the other values are stored in their protobuf encoding, which
    the codec reads back unchanged. *)
Record KV := mkKV {
  kv_raw : gmap bytes bytes;
  kv_params : option Params;
  kv_pool : gmap bytes OutgoingTransferTx;
  kv_batches : gmap bytes OutgoingTxBatch;
  kv_batchConfirms : gmap bytes MsgConfirmBatch;
  kv_attestations : gmap bytes Attestation;
  kv_ethHeight : option LastObservedEthereumBlockHeight;
  kv_observedValset : option Valset;
  kv_valsets : gmap bytes Valset;
  kv_valsetConfirms : gmap bytes MsgValsetConfirm;
  kv_logicCalls : gmap bytes OutgoingLogicCall;
  kv_logicConfirms : gmap bytes MsgConfirmLogicCall;
  kv_bridgeable : gmap bytes Metadata;
  kv_forwards : gmap bytes PendingIbcAutoForward }.

Definition upd_raw (f : gmap bytes bytes → gmap bytes bytes) (k : KV) : KV :=
    mkKV (f (kv_raw k)) (kv_params k) (kv_pool k) (kv_batches k) (kv_batchConfirms k)
    (kv_attestations k) (kv_ethHeight k) (kv_observedValset k) (kv_valsets k)
    (kv_valsetConfirms k) (kv_logicCalls k) (kv_logicConfirms k) (kv_bridgeable k)
    (kv_forwards k).
Definition upd_params (f : option Params → option Params) (k : KV) : KV :=
    mkKV (kv_raw k) (f (kv_params k)) (kv_pool k) (kv_batches k) (kv_batchConfirms k)
    (kv_attestations k) (kv_ethHeight k) (kv_observedValset k) (kv_valsets k)
    (kv_valsetConfirms k) (kv_logicCalls k) (kv_logicConfirms k) (kv_bridgeable k)
    (kv_forwards k).
Definition upd_pool (f : gmap bytes OutgoingTransferTx → gmap bytes OutgoingTransferTx) (k : KV) : KV :=
    mkKV (kv_raw k) (kv_params k) (f (kv_pool k)) (kv_batches k) (kv_batchConfirms k)
    (kv_attestations k) (kv_ethHeight k) (kv_observedValset k) (kv_valsets k)
    (kv_valsetConfirms k) (kv_logicCalls k) (kv_logicConfirms k) (kv_bridgeable k)
    (kv_forwards k).
Definition upd_batches (f : gmap bytes OutgoingTxBatch → gmap bytes OutgoingTxBatch) (k : KV) : KV :=
    mkKV (kv_raw k) (kv_params k) (kv_pool k) (f (kv_batches k)) (kv_batchConfirms k)
    (kv_attestations k) (kv_ethHeight k) (kv_observedValset k) (kv_valsets k)
    (kv_valsetConfirms k) (kv_logicCalls k) (kv_logicConfirms k) (kv_bridgeable k)
    (kv_forwards k).
Definition upd_batchConfirms (f : gmap bytes MsgConfirmBatch → gmap bytes MsgConfirmBatch) (k : KV) : KV :=
    mkKV (kv_raw k) (kv_params k) (kv_pool k) (kv_batches k) (f (kv_batchConfirms k))
    (kv_attestations k) (kv_ethHeight k) (kv_observedValset k) (kv_valsets k)
    (kv_valsetConfirms k) (kv_logicCalls k) (kv_logicConfirms k) (kv_bridgeable k)
    (kv_forwards k).
Definition upd_attestations (f : gmap bytes Attestation → gmap bytes Attestation) (k : KV) : KV :=
    mkKV (kv_raw k) (kv_params k) (kv_pool k) (kv_batches k) (kv_batchConfirms k) (f
    (kv_attestations k)) (kv_ethHeight k) (kv_observedValset k) (kv_valsets k)
    (kv_valsetConfirms k) (kv_logicCalls k) (kv_logicConfirms k) (kv_bridgeable k)
    (kv_forwards k).
Definition upd_ethHeight (f : option LastObservedEthereumBlockHeight → option LastObservedEthereumBlockHeight) (k : KV) : KV :=
    mkKV (kv_raw k) (kv_params k) (kv_pool k) (kv_batches k) (kv_batchConfirms k)
    (kv_attestations k) (f (kv_ethHeight k)) (kv_observedValset k) (kv_valsets k)
    (kv_valsetConfirms k) (kv_logicCalls k) (kv_logicConfirms k) (kv_bridgeable k)
    (kv_forwards k).
Definition upd_observedValset (f : option Valset → option Valset) (k : KV) : KV :=
    mkKV (kv_raw k) (kv_params k) (kv_pool k) (kv_batches k) (kv_batchConfirms k)
    (kv_attestations k) (kv_ethHeight k) (f (kv_observedValset k)) (kv_valsets k)
    (kv_valsetConfirms k) (kv_logicCalls k) (kv_logicConfirms k) (kv_bridgeable k)
    (kv_forwards k).
Definition upd_valsets (f : gmap bytes Valset → gmap bytes Valset) (k : KV) : KV :=
    mkKV (kv_raw k) (kv_params k) (kv_pool k) (kv_batches k) (kv_batchConfirms k)
    (kv_attestations k) (kv_ethHeight k) (kv_observedValset k) (f (kv_valsets k))
    (kv_valsetConfirms k) (kv_logicCalls k) (kv_logicConfirms k) (kv_bridgeable k)
    (kv_forwards k).
Definition upd_valsetConfirms (f : gmap bytes MsgValsetConfirm → gmap bytes MsgValsetConfirm) (k : KV) : KV :=
    mkKV (kv_raw k) (kv_params k) (kv_pool k) (kv_batches k) (kv_batchConfirms k)
    (kv_attestations k) (kv_ethHeight k) (kv_observedValset k) (kv_valsets k) (f
    (kv_valsetConfirms k)) (kv_logicCalls k) (kv_logicConfirms k) (kv_bridgeable k)
    (kv_forwards k).
Definition upd_logicCalls (f : gmap bytes OutgoingLogicCall → gmap bytes OutgoingLogicCall) (k : KV) : KV :=
    mkKV (kv_raw k) (kv_params k) (kv_pool k) (kv_batches k) (kv_batchConfirms k)
    (kv_attestations k) (kv_ethHeight k) (kv_observedValset k) (kv_valsets k)
    (kv_valsetConfirms k) (f (kv_logicCalls k)) (kv_logicConfirms k) (kv_bridgeable k)
    (kv_forwards k).
Definition upd_logicConfirms (f : gmap bytes MsgConfirmLogicCall → gmap bytes MsgConfirmLogicCall) (k : KV) : KV :=
    mkKV (kv_raw k) (kv_params k) (kv_pool k) (kv_batches k) (kv_batchConfirms k)
    (kv_attestations k) (kv_ethHeight k) (kv_observedValset k) (kv_valsets k)
    (kv_valsetConfirms k) (kv_logicCalls k) (f (kv_logicConfirms k)) (kv_bridgeable k)
    (kv_forwards k).
Definition upd_bridgeable (f : gmap bytes Metadata → gmap bytes Metadata) (k : KV) : KV :=
    mkKV (kv_raw k) (kv_params k) (kv_pool k) (kv_batches k) (kv_batchConfirms k)
    (kv_attestations k) (kv_ethHeight k) (kv_observedValset k) (kv_valsets k)
    (kv_valsetConfirms k) (kv_logicCalls k) (kv_logicConfirms k) (f (kv_bridgeable k))
    (kv_forwards k).
Definition upd_forwards (f : gmap bytes PendingIbcAutoForward → gmap bytes PendingIbcAutoForward) (k : KV) : KV :=
    mkKV (kv_raw k) (kv_params k) (kv_pool k) (kv_batches k) (kv_batchConfirms k)
    (kv_attestations k) (kv_ethHeight k) (kv_observedValset k) (kv_valsets k)
    (kv_valsetConfirms k) (kv_logicCalls k) (kv_logicConfirms k) (kv_bridgeable k) (f
    (kv_forwards k)).

(** The whole chain state a method sees: the module's store, the state [W] of
    the other modules, the block height and the events emitted so far. *)
Record State (W : Type) := mkState {
  st_kv : KV; st_world : W; st_height : Z; st_events : list Event }.
Arguments mkState {_}.
Arguments st_kv {_}.
Arguments st_world {_}.
Arguments st_height {_}.
Arguments st_events {_}.

Definition upd_kv {W} (f : KV → KV) (s : State W) : State W :=
  mkState (f (st_kv s)) (st_world s) (st_height s) (st_events s).
Definition upd_world {W} (f : W → W) (s : State W) : State W :=
  mkState (st_kv s) (f (st_world s)) (st_height s) (st_events s).
Definition add_event {W} (e : Event) (s : State W) : State W :=
  mkState (st_kv s) (st_world s) (st_height s) (st_events s ++ [e]).

(** A method of the keeper. *)
Abbreviation K W := (M (State W)).

Section Primitives.
Context {W : Type}.

Definition emit (e : Event) : K W unit := modify (add_event e).

(** [store.Get], [store.Set] and [store.Delete] on plain byte values *)
Definition raw_get (k : bytes) : K W (option bytes) := gets (λ s, kv_raw (st_kv s) !! k).
Definition raw_set (k v : bytes) : K W unit := modify (upd_kv (upd_raw (insert k v))).
Definition raw_delete (k : bytes) : K W unit := modify (upd_kv (upd_raw (delete k))).
Definition raw_has (k : bytes) : K W bool :=
  gets (λ s, bool_decide (is_Some (kv_raw (st_kv s) !! k))).

(** A call of another module that may return an error. *)
Definition call (f : W → option gerror * W) : K W unit := λ s,
  match f (st_world s) with
  | (None, w) => Ret tt (upd_world (λ _, w) s)
  | (Some e, w) => Fail e (upd_world (λ _, w) s)
  end.

(** ** Counters (keeper/pool.go) *)

Definition getID (idKey : bytes) : K W Z :=
  bz ← raw_get idKey;
  opt_panic "Invalid uint64 bytes" (UInt64FromBytesUnsafe (default [] bz)).

Definition setID (id : Z) (idKey : bytes) : K W unit := raw_set idKey (UInt64Bytes id).

Definition autoIncrementID (idKey : bytes) : K W Z :=
  id ← getID idKey;
  let id := u64 (id + 1) in
  _ ← setID id idKey;
  mret id.

(** ** Parameters (keeper/keeper_params.go) *)

Definition GetParams : K W Params :=
  bz ← gets (λ s, kv_params (st_kv s));
  match bz with None => fail ErrParamsNotFound | Some p => mret p end.

Definition GetParamsIfSet : K W Params :=
  has ← gets (λ s, bool_decide (is_Some (kv_params (st_kv s))));
  if negb has then fail ErrParamsNotFound else GetParams.

Definition RequireBridgeActive : K W unit :=
  params ← GetParams;
  guard_err (negb (p_BridgeActive params)) ErrInvalid.

Definition GetBridgeChainID : K W Z :=
  params ← must "failed to get params" GetParams;
  mret (p_BridgeChainId params).

Definition GetGravityID : K W string :=
  params ← must "failed to get params" GetParams;
  mret (p_GravityId params).
End Primitives.

(** ** Observed Ethereum heights (keeper/attestation.go) *)

Section Heights.
Context {W : Type}.

(** [uint64(ctx.BlockHeight())] *)
Definition BlockHeight : K W Z := gets (λ s, u64 (st_height s)).

Definition GetLastObservedEthereumBlockHeight : K W LastObservedEthereumBlockHeight :=
  gets (λ s, default (mkEthHeight 0 0) (kv_ethHeight (st_kv s))).

Definition SetLastObservedEthereumBlockHeight (ethereumHeight : Z) : K W unit :=
  previous ← GetLastObservedEthereumBlockHeight;
  _ ← guard_panic (ethereumHeight <? EthereumBlockHeight previous)
        "Attempt to roll back Ethereum block height!";
  h ← BlockHeight;
  modify (upd_kv (upd_ethHeight (λ _, Some (mkEthHeight h ethereumHeight)))).
End Heights.

(** ** Addresses the module refuses (keeper/keeper.go) *)

Section Refused.
Context {W : Type} `{Geth}.

Definition GetBridgeContractAddress : K W EthAddress :=
  params ← must "failed to get params" GetParams;
  or_panic "failed to parse bridge ethereum address"
    (NewEthAddress (p_BridgeEthereumAddress params)).

Definition IsOnBlacklist (addr : EthAddress) : K W bool :=
  params ← must "failed to get params" GetParams;
  for_acc (p_EthereumBlacklist params) false (λ b _,
    baddr ← or_panic "unvalidated black list address!" (NewEthAddress b);
    mret (if decide (baddr = addr) then (true, true) else (false, false))).

Definition InvalidSendToEthAddress (addr _erc20Addr : EthAddress) : K W bool :=
  black ← IsOnBlacklist addr;
  mret (black || bool_decide (addr = ZeroAddress)).
End Refused.

(** ** Signature checkpoints (keeper/evidence.go) *)

Section Checkpoints.
Context {W : Type}.

Definition SetPastEthSignatureCheckpoint (checkpoint : bytes) : K W unit :=
  raw_set (GetPastEthSignatureCheckpointKey checkpoint) [1].

Definition GetPastEthSignatureCheckpoint (checkpoint : bytes) : K W bool :=
  v ← raw_get (GetPastEthSignatureCheckpointKey checkpoint);
  mret (bool_decide (default [] v = [1])).
End Checkpoints.

(** ** Lemmas *)

Section ReadonlyFacts.
Context {W : Type} `{Geth}.

Lemma readonly_raw_get k : readonly (raw_get k : K W _).
Proof. apply readonly_gets. Qed.
Lemma readonly_raw_has k : readonly (raw_has k : K W _).
Proof. apply readonly_gets. Qed.
#[local] Hint Resolve readonly_raw_get readonly_raw_has : readonly.

Lemma readonly_getID k : readonly (getID k : K W _).
Proof. unfold getID. readonly. Qed.
Lemma readonly_GetParams : readonly (GetParams : K W _).
Proof. unfold GetParams. readonly. Qed.
#[local] Hint Resolve readonly_GetParams : readonly.
Lemma readonly_GetBridgeChainID : readonly (GetBridgeChainID : K W _).
Proof. unfold GetBridgeChainID. readonly. Qed.
Lemma readonly_GetGravityID : readonly (GetGravityID : K W _).
Proof. unfold GetGravityID. readonly. Qed.
Lemma readonly_GetBridgeContractAddress : readonly (GetBridgeContractAddress : K W _).
Proof. unfold GetBridgeContractAddress. readonly. Qed.
Lemma readonly_IsOnBlacklist a : readonly (IsOnBlacklist a : K W _).
Proof. unfold IsOnBlacklist. readonly. Qed.
End ReadonlyFacts.

#[export] Hint Resolve readonly_raw_get readonly_raw_has readonly_getID readonly_GetParams
  readonly_GetBridgeChainID readonly_GetGravityID readonly_GetBridgeContractAddress
  readonly_IsOnBlacklist : readonly.

(** * Facts about the keeper's basic methods

    What the counters, the parameters and the blacklist return on a state where
    they are set. *)

Abbreviation raw s := (kv_raw (st_kv s)).

(** ** Counters and parameters *)

Section Basics.
Context {W : Type} `{Geth}.
Implicit Types s : State W.

Lemma getID_eq s k n :
  raw s !! k = Some (UInt64Bytes n) → u64_ok n → getID k s = Ret n s.
Proof.
  intros Hk Hn. unfold getID, raw_get. mrun. rewrite Hk. cbn [default id]. by rewrite UInt64_roundtrip.
Qed.

Lemma autoIncrementID_eq s k n :
  raw s !! k = Some (UInt64Bytes n) → u64_ok n →
  autoIncrementID k s =
  Ret (u64 (n + 1)) (upd_kv (upd_raw (insert k (UInt64Bytes (u64 (n + 1))))) s).
Proof. intros Hk Hn. unfold autoIncrementID. mrun. by rewrite (getID_eq s k n). Qed.

Definition params_ok (p : Params) : Prop :=
  (∃ a, NewEthAddress (p_BridgeEthereumAddress p) = Ok a) ∧
  Forall (λ b, ∃ a, NewEthAddress b = Ok a) (p_EthereumBlacklist p).

(** The parameters are set and their addresses are valid. *)
Definition has_params s : Prop := ∃ p, kv_params (st_kv s) = Some p ∧ params_ok p.

Definition blacklisted (kv : KV) (a : EthAddress) : bool :=
  match kv_params kv with
  | Some p => bool_decide (Ok a ∈ NewEthAddress <$> p_EthereumBlacklist p)
  | None => false
  end.

Lemma GetParams_eq s p : kv_params (st_kv s) = Some p → GetParams s = Ret p s.
Proof. intros Hp. unfold GetParams. mrun. by rewrite Hp. Qed.

Lemma GetBridgeContractAddress_eq s :
  has_params s → ∃ a, GetBridgeContractAddress s = Ret a s.
Proof.
  intros (p & Hp & [a Ha] & _). exists a. unfold GetBridgeContractAddress. mrun.
  by rewrite (GetParams_eq s p), Ha.
Qed.

Lemma GetBridgeChainID_eq s : has_params s → ∃ c, GetBridgeChainID s = Ret c s.
Proof.
  intros (p & Hp & _). exists (p_BridgeChainId p). unfold GetBridgeChainID. mrun.
  by rewrite (GetParams_eq s p).
Qed.

Lemma IsOnBlacklist_eq s a :
  has_params s → IsOnBlacklist a s = Ret (blacklisted (st_kv s) a) s.
Proof.
  intros (p & Hp & _ & Hb). unfold IsOnBlacklist, blacklisted. mrun.
  rewrite (GetParams_eq s p), Hp by done.
  induction Hb as [|b l [x Hx] Hl IH]; [done|]. cbn [for_acc]. mrun. rewrite Hx.
  cbn [fmap list_fmap]. rewrite Hx. destruct (decide (x = a)) as [->|E].
  - by rewrite bool_decide_true by left.
  - rewrite IH. f_equal. apply bool_decide_ext.
    rewrite elem_of_cons. naive_solver.
Qed.
Definition bridge_hex (kv : KV) : string :=
  match kv_params kv with
  | Some p => match NewEthAddress (p_BridgeEthereumAddress p) with
              | Ok a => Hex (GetAddress a) | Er _ => "" end
  | None => ""
  end.
Definition chain_id (kv : KV) : Z :=
  match kv_params kv with Some p => p_BridgeChainId p | None => 0 end.

Lemma bridge_event {A} (f : EthAddress → Z → K W A) s :
  has_params s →
  ∃ a, Hex (GetAddress a) = bridge_hex (st_kv s) ∧
  (bridge ← GetBridgeContractAddress; chain ← GetBridgeChainID; f bridge chain) s =
  f a (chain_id (st_kv s)) s.
Proof.
  intros (p & Hp & [a Ha] & _). exists a. unfold bridge_hex, chain_id. rewrite Hp, Ha.
  split; [done|]. unfold GetBridgeContractAddress, GetBridgeChainID. mrun.
  by rewrite !(GetParams_eq s p), Ha, (GetParams_eq s p).
Qed.
(** A signature is held against a validator only if the chain never asked for
    it: a checkpoint is known exactly when it, and not another one, was recorded
    before, so recording one checkpoint neither hides nor fakes another. *)
Theorem checkpoint_recorded s c c' :
  bytes_ok c → bytes_ok c' →
  ∃ s', SetPastEthSignatureCheckpoint c s = Ret tt s' ∧
    GetPastEthSignatureCheckpoint c' s' =
    if decide (c' = c) then Ret true s'
    else Ret (bool_decide (default [] (raw s !! GetPastEthSignatureCheckpointKey c') = [1])) s'.
Proof.
  intros Hc Hc'. eexists. split; [done|]. unfold GetPastEthSignatureCheckpoint, raw_get. mrun. simpl.
  case_decide as E.
  - subst. by rewrite lookup_insert_eq.
  - rewrite lookup_insert_ne; [done|]. intros Ek. apply E. symmetry.
    unfold GetPastEthSignatureCheckpointKey, AppendBytes in Ek. cbn [concat] in Ek.
    rewrite !app_nil_r in Ek. apply app_inv_head in Ek. by apply convertByteArrToString_inj.
Qed.
End Basics.
