(* ===== verification/Params.v ===== *)
(** * Parameters (types/genesis.go, keeper/keeper_params.go)

    The validation of the module's parameters, the setters that only store valid
    ones, and the governance message that updates them by name
    ([UpdateParamsProposal] of keeper/msg_server.go). *)

From stdpp Require Import base gmap list strings.
From S2P Require Import Prelude GoStd External Store Ethereum Keys OutgoingTx Valset Claims Keeper.

#[local] Open Scope Z_scope.

(** 1 as a decimal *)
Definition LegacyOneDec : Z := 1000000000000000000.

(** ** Validation *)

Section Validation.
Context `{Geth} `{Sdk}.

Definition validateGravityID (v : string) : res unit :=
  _ ← strToFixByteArray v; Ok tt.

(** The type of the argument is all these validations look at. *)
Definition validateContractHash (_ : string) : res unit := Ok tt.
Definition validateBridgeChainID (_ : Z) : res unit := Ok tt.
Definition validateSignedValsetsWindow (_ : Z) : res unit := Ok tt.
Definition validateUnbondSlashingValsetsWindow (_ : Z) : res unit := Ok tt.
Definition validateSlashFractionValset (_ : Z) : res unit := Ok tt.
Definition validateSignedBatchesWindow (_ : Z) : res unit := Ok tt.
Definition validateSignedLogicCallsWindow (_ : Z) : res unit := Ok tt.
Definition validateSlashFractionBatch (_ : Z) : res unit := Ok tt.
Definition validateSlashFractionLogicCall (_ : Z) : res unit := Ok tt.
Definition validateSlashFractionBadEthSignature (_ : Z) : res unit := Ok tt.
Definition validateBridgeActive (_ : bool) : res unit := Ok tt.

Definition validateTargetBatchTimeout (val : Z) : res unit :=
  if val <? 60000 then Er (ErrSdk "invalid target batch timeout") else Ok tt.

Definition validateAverageBlockTime (val : Z) : res unit :=
  if val <? 100 then Er (ErrSdk "invalid average Cosmos block time") else Ok tt.

Definition validateAverageEthereumBlockTime (val : Z) : res unit :=
  if val <? 100 then Er (ErrSdk "invalid average Ethereum block time") else Ok tt.

(** The error whose text contains "empty" is the one of the empty address: the
    other texts quote hexadecimal digits only. *)
Definition validateBridgeContractAddress (v : string) : res unit :=
  match ValidateEthAddress v with
  | Er e => if decide (e = ErrSdk "empty") then Ok tt else Er e
  | Ok _ => Ok tt
  end.

Definition validateValsetRewardAmount (v : Coin) : res unit :=
  if bool_decide (Denom v = "") && (Amount v =? 0) then Ok tt else
  if negb (ValidateDenom (Denom v)) then Er (ErrSdk "invalid denom in ValsetReward") else
  ValidateStrictDenom (Denom v).

(** No error of [ValidateEthAddress] has a text that contains "empty, index is". *)
Definition validateEthereumBlacklistAddresses (strArr : list string) : res unit :=
  _ ← res_map ValidateEthAddress strArr; Ok tt.

Definition validateMinChainFeeBasisPoints (v : Z) : res unit :=
  if 10000 <? v then Er (ErrSdk "MinChainFeeBasisPoints is set to over 10000") else Ok tt.

Definition validateChainFeeAuctionPoolFraction (v : option Z) : res unit :=
  match v with
  | None => Er (ErrSdk "chain fee auction pool fraction must be not nil")
  | Some v =>
      if v <? 0 then Er (ErrSdk "chain fee auction pool fraction must be non-negative") else
      if LegacyOneDec <? v then Er (ErrSdk "chain fee auction pool fraction too large") else Ok tt
  end.

Definition Params_ValidateBasic (p : Params) : res unit :=
  _ ← validateGravityID (p_GravityId p);
  _ ← validateContractHash (p_ContractSourceHash p);
  _ ← validateBridgeContractAddress (p_BridgeEthereumAddress p);
  _ ← validateBridgeChainID (p_BridgeChainId p);
  _ ← validateTargetBatchTimeout (p_TargetBatchTimeout p);
  _ ← validateAverageBlockTime (p_AverageBlockTime p);
  _ ← validateAverageEthereumBlockTime (p_AverageEthereumBlockTime p);
  _ ← validateSignedValsetsWindow (p_SignedValsetsWindow p);
  _ ← validateSignedBatchesWindow (p_SignedBatchesWindow p);
  _ ← validateSignedLogicCallsWindow (p_SignedLogicCallsWindow p);
  _ ← validateSlashFractionValset (p_SlashFractionValset p);
  _ ← validateSlashFractionBatch (p_SlashFractionBatch p);
  _ ← validateSlashFractionLogicCall (p_SlashFractionLogicCall p);
  _ ← validateSlashFractionBadEthSignature (p_SlashFractionBadEthSignature p);
  _ ← validateUnbondSlashingValsetsWindow (p_UnbondSlashingValsetsWindow p);
  _ ← validateValsetRewardAmount (p_ValsetReward p);
  _ ← validateBridgeActive (p_BridgeActive p);
  _ ← validateEthereumBlacklistAddresses (p_EthereumBlacklist p);
  _ ← validateMinChainFeeBasisPoints (p_MinChainFeeBasisPoints p);
  validateChainFeeAuctionPoolFraction (p_ChainFeeAuctionPoolFraction p).

Definition DefaultParams : Params :=
  mkParams "defaultgravityid" "" "0x0000000000000000000000000000000000000000" 0
    10000 10000 10000 43200000 5000 15000
    1000000000000000 1000000000000000 1000000000000000 10000 1000000000000000
    (mkCoin "" 0) true [] 2 (Some 500000000000000000).
End Validation.

(** ** Updates by name *)

Section Updates.
Context `{Geth} `{Sdk} `{TextFormats}.

Definition upd_uint (value : string) (set : Z → Params) : res Params :=
  match ParseUint value with Er _ => Er (ErrSdk "ErrInvalidType") | Ok v => Ok (set v) end.
Definition upd_dec (value : string) (set : Z → Params) : res Params :=
  match LegacyNewDecFromStr value with Er _ => Er (ErrSdk "ErrInvalidType") | Ok v => Ok (set v) end.

(** One turn of the loop over the updates of the proposal. *)
Definition updateParam (p : Params) (key value : string) : res Params :=
  let '(mkParams gravityId hash bridge chain signedValsets signedBatches signedCalls timeout
          blockTime ethBlockTime slashValset slashBatch slashCall unbond slashBad reward active
          blacklist minFee fraction) := p in
  if decide (key = "GravityId") then
    Ok (mkParams value hash bridge chain signedValsets signedBatches signedCalls timeout blockTime
          ethBlockTime slashValset slashBatch slashCall unbond slashBad reward active blacklist
          minFee fraction)
  else if decide (key = "ContractSourceHash") then
    Ok (mkParams gravityId value bridge chain signedValsets signedBatches signedCalls timeout
          blockTime ethBlockTime slashValset slashBatch slashCall unbond slashBad reward active
          blacklist minFee fraction)
  else if decide (key = "BridgeEthereumAddress") then
    Ok (mkParams gravityId hash value chain signedValsets signedBatches signedCalls timeout
          blockTime ethBlockTime slashValset slashBatch slashCall unbond slashBad reward active
          blacklist minFee fraction)
  else if decide (key = "BridgeChainId") then
    upd_uint value (λ v, mkParams gravityId hash bridge v signedValsets signedBatches signedCalls
      timeout blockTime ethBlockTime slashValset slashBatch slashCall unbond slashBad reward active
      blacklist minFee fraction)
  else if decide (key = "SignedValsetsWindow") then
    upd_uint value (λ v, mkParams gravityId hash bridge chain v signedBatches signedCalls timeout
      blockTime ethBlockTime slashValset slashBatch slashCall unbond slashBad reward active
      blacklist minFee fraction)
  else if decide (key = "SignedBatchesWindow") then
    upd_uint value (λ v, mkParams gravityId hash bridge chain signedValsets v signedCalls timeout
      blockTime ethBlockTime slashValset slashBatch slashCall unbond slashBad reward active
      blacklist minFee fraction)
  else if decide (key = "SignedLogicCallsWindow") then
    upd_uint value (λ v, mkParams gravityId hash bridge chain signedValsets signedBatches v timeout
      blockTime ethBlockTime slashValset slashBatch slashCall unbond slashBad reward active
      blacklist minFee fraction)
  else if decide (key = "TargetBatchTimeout") then
    upd_uint value (λ v, mkParams gravityId hash bridge chain signedValsets signedBatches
      signedCalls v blockTime ethBlockTime slashValset slashBatch slashCall unbond slashBad reward
      active blacklist minFee fraction)
  else if decide (key = "AverageBlockTime") then
    upd_uint value (λ v, mkParams gravityId hash bridge chain signedValsets signedBatches
      signedCalls timeout v ethBlockTime slashValset slashBatch slashCall unbond slashBad reward
      active blacklist minFee fraction)
  else if decide (key = "AverageEthereumBlockTime") then
    upd_uint value (λ v, mkParams gravityId hash bridge chain signedValsets signedBatches
      signedCalls timeout blockTime v slashValset slashBatch slashCall unbond slashBad reward
      active blacklist minFee fraction)
  else if decide (key = "SlashFractionValset") then
    upd_dec value (λ v, mkParams gravityId hash bridge chain signedValsets signedBatches
      signedCalls timeout blockTime ethBlockTime v slashBatch slashCall unbond slashBad reward
      active blacklist minFee fraction)
  else if decide (key = "SlashFractionBatch") then
    upd_dec value (λ v, mkParams gravityId hash bridge chain signedValsets signedBatches
      signedCalls timeout blockTime ethBlockTime slashValset v slashCall unbond slashBad reward
      active blacklist minFee fraction)
  else if decide (key = "SlashFractionLogicCall") then
    upd_dec value (λ v, mkParams gravityId hash bridge chain signedValsets signedBatches
      signedCalls timeout blockTime ethBlockTime slashValset slashBatch v unbond slashBad reward
      active blacklist minFee fraction)
  else if decide (key = "UnbondSlashingValsetsWindow") then
    upd_uint value (λ v, mkParams gravityId hash bridge chain signedValsets signedBatches
      signedCalls timeout blockTime ethBlockTime slashValset slashBatch slashCall v slashBad reward
      active blacklist minFee fraction)
  else if decide (key = "SlashFractionBadEthSignature") then
    upd_dec value (λ v, mkParams gravityId hash bridge chain signedValsets signedBatches
      signedCalls timeout blockTime ethBlockTime slashValset slashBatch slashCall unbond v reward
      active blacklist minFee fraction)
  else if decide (key = "ValsetReward") then
    match ParseCoinNormalized value with
    | Er _ => Er (ErrSdk "ErrInvalidType")
    | Ok v =>
        _ ← ValidateStrictDenom (Denom v);
        Ok (mkParams gravityId hash bridge chain signedValsets signedBatches signedCalls timeout
              blockTime ethBlockTime slashValset slashBatch slashCall unbond slashBad v active
              blacklist minFee fraction)
    end
  else if decide (key = "BridgeActive") then
    match ParseBool value with
    | Er _ => Er (ErrSdk "ErrInvalidType")
    | Ok v =>
        Ok (mkParams gravityId hash bridge chain signedValsets signedBatches signedCalls timeout
              blockTime ethBlockTime slashValset slashBatch slashCall unbond slashBad reward v
              blacklist minFee fraction)
    end
  else if decide (key = "EthereumBlacklist") then
    match UnmarshalStrings value with
    | Er _ => Er (ErrSdk "ErrJSONUnmarshal")
    | Ok v =>
        Ok (mkParams gravityId hash bridge chain signedValsets signedBatches signedCalls timeout
              blockTime ethBlockTime slashValset slashBatch slashCall unbond slashBad reward active
              v minFee fraction)
    end
  else if decide (key = "MinChainFeeBasisPoints") then
    upd_uint value (λ v, mkParams gravityId hash bridge chain signedValsets signedBatches
      signedCalls timeout blockTime ethBlockTime slashValset slashBatch slashCall unbond slashBad
      reward active blacklist v fraction)
  else if decide (key = "ChainFeeAuctionPoolFraction") then
    upd_dec value (λ v, mkParams gravityId hash bridge chain signedValsets signedBatches
      signedCalls timeout blockTime ethBlockTime slashValset slashBatch slashCall unbond slashBad
      reward active blacklist minFee (Some v))
  else Er (ErrSdk "ErrUnknownRequest").

(** The loop stops at the first error. *)
Fixpoint updateParams (p : Params) (updates : list (string * string)) : res Params :=
  match updates with
  | [] => Ok p
  | (key, value) :: updates' => p' ← updateParam p key value; updateParams p' updates'
  end.
End Updates.

(** ** The keeper *)

Record MsgUpdateParamsProposal := mkMsgUpdateParamsProposal {
  up_Authority : string; up_ParamUpdates : list (string * string) }.

Section ParamsKeeper.
Context {W : Type} `{Geth} `{Sdk} `{TextFormats}.

Definition SetParams (params : Params) : K W unit :=
  _ ← of_res (Params_ValidateBasic params);
  modify (upd_kv (upd_params (λ _, Some params))).

Definition SetGravityID (v : string) : K W unit :=
  params ← must "failed to get params" GetParams;
  let '(mkParams _ hash bridge chain signedValsets signedBatches signedCalls timeout
          blockTime ethBlockTime slashValset slashBatch slashCall unbond slashBad reward active
          blacklist minFee fraction) := params in
  must "failed to set params" (SetParams
    (mkParams v hash bridge chain signedValsets signedBatches signedCalls timeout blockTime
       ethBlockTime slashValset slashBatch slashCall unbond slashBad reward active blacklist
       minFee fraction)).

(** [authority] is the keeper's [proposalAuthority]. *)
Definition UpdateParamsProposal (authority : string) (msg : MsgUpdateParamsProposal) : K W unit :=
  _ ← guard_err (bool_decide (authority ≠ up_Authority msg)) (ErrSdk "ErrInvalidSigner");
  params ← GetParams;
  updatedParams ← of_res (updateParams params (up_ParamUpdates msg));
  SetParams updatedParams.
End ParamsKeeper.
