(* ===== verification/DelegateKeys.v ===== *)
(** * Delegate keys (keeper/keeper_delegate_key.go)

    A validator delegates to an orchestrator account and to an Ethereum key; the
    indexes from orchestrator to validator and between validator and Ethereum
    address are kept in the module's store.  The listing of all delegations and the
    iterators over the indexes are in keeper/keeper.go. *)

From stdpp Require Import base gmap list strings sorting.
From S2P Require Import Prelude GoStd External Store Ethereum Keys OutgoingTx Valset Claims Keeper.

#[local] Open Scope Z_scope.

(** ** x/staking and x/slashing

    The fields of [stakingtypes.Validator] that the module reads; [v_ConsAddr] is
    the result of [GetConsAddr]. *)
Inductive BondStatus := Unspecified | Unbonded | Unbonding | Bonded.

#[global] Instance BondStatus_eq_dec : EqDecision BondStatus.
Proof. solve_decision. Defined.

Record Validator := mkValidator {
  v_OperatorAddress : string; v_ConsAddr : res bytes; v_Jailed : bool; v_Status : BondStatus;
  v_UnbondingHeight : Z; v_ConsensusPower : Z }.

Class Staking (W : Type) := {
  GetValidator : W → bytes → res Validator;
  GetLastTotalPower : W → res Z;
  GetLastValidatorPower : W → bytes → res Z;
  GetBondedValidatorsByPower : W → res (list Validator);
  (** The operator addresses the unbonding queue holds up to the end of the
      unbonding period, [getUnbondingValidators]'s iterator. *)
  UnbondingQueue : W → res (list string);
  (** [GetValidatorSigningInfo(...).StartHeight] *)
  SigningStartHeight : W → bytes → res Z;
  Slash : bytes → Z → Z → Z → W → option gerror * W;
  Jail : bytes → W → option gerror * W;
}.

(** Powers are not negative. *)
Class StakingLaws (W : Type) `{Staking W} := {
  last_power_nonneg w a p : GetLastValidatorPower w a = Ok p → 0 ≤ p;
  last_total_nonneg w p : GetLastTotalPower w = Ok p → 0 ≤ p;
}.

(** A validator is found under its operator address. *)
Class ValidatorLaws (W : Type) `{Sdk} `{Staking W} := {
  validator_operator w op v :
    GetValidator w op = Ok v → ValAddressFromBech32 (v_OperatorAddress v) = Ok op;
}.

Record MsgSetOrchestratorAddress := mkMsgSetOrchestratorAddress {
  so_Validator : string; so_Orchestrator : string; so_EthAddress : string }.

Section DelegateKeys.
Context {W : Type} `{Geth} `{Sdk} `{Staking W}.

Definition SetOrchestratorValidator (val orch : bytes) : K W unit :=
  _ ← or_panic "invalid val address" (VerifyAddressFormat val);
  _ ← or_panic "invalid orch address" (VerifyAddressFormat orch);
  key ← opt_panic "invalid orchestrator" (GetOrchestratorAddressKey orch);
  raw_set key val.

(** The address is a Go slice: [None] is nil, which is different from an empty
    slice. *)
Definition GetOrchestratorValidatorAddr (orch : bytes) : K W (option bytes * bool) :=
  if negb (is_ok (VerifyAddressFormat orch)) then mret (None, false) else
  key ← opt_panic "invalid orchestrator" (GetOrchestratorAddressKey orch);
  valAddr ← raw_get key;
  match valAddr with
  | None => mret (Some [], false)
  | Some a => mret (Some a, true)
  end.

(** [None] stands for the zero validator returned with [found = false]. *)
Definition GetOrchestratorValidator (orch : bytes) : K W (option Validator) :=
  r ← GetOrchestratorValidatorAddr orch;
  let '(valAddr, foundValAddr) := r in
  if negb (is_ok (VerifyAddressFormat orch)) then mret None else
  if negb foundValAddr && bool_decide (valAddr = None) then mret None else
  validator ← gets (λ s, GetValidator (st_world s) (default [] valAddr));
  match validator with
  | Er _ => mret None
  | Ok v => mret (Some v)
  end.

Definition SetEthAddressForValidator (validator : bytes) (ethAddr : EthAddress) : K W unit :=
  _ ← or_panic "invalid validator address" (VerifyAddressFormat validator);
  key ← opt_panic "invalid validator" (GetEthAddressByValidatorKey validator);
  _ ← raw_set key (GetAddress ethAddr);
  raw_set (GetValidatorByEthAddressKey ethAddr) validator.

Definition GetEthAddressByValidator (validator : bytes) : K W (option EthAddress) :=
  _ ← or_panic "invalid validator address" (VerifyAddressFormat validator);
  key ← opt_panic "invalid validator" (GetEthAddressByValidatorKey validator);
  ethAddr ← raw_get key;
  match ethAddr with
  | None => mret None
  | Some b =>
      match NewEthAddressFromBytes b with
      | Er _ => mret None
      | Ok addr => mret (Some addr)
      end
  end.

Definition GetValidatorByEthAddress (ethAddr : EthAddress) : K W (option Validator) :=
  valAddr ← raw_get (GetValidatorByEthAddressKey ethAddr);
  match valAddr with
  | None => mret None
  | Some a =>
      validator ← gets (λ s, GetValidator (st_world s) a);
      match validator with
      | Er _ => mret None
      | Ok v => mret (Some v)
      end
  end.
(** ** All delegations (keeper/keeper.go) *)

(** The entries of an index, found by its key prefix, with the rest of their key. *)
Definition index_entries (prefix : bytes) : K W (list (bytes * bytes)) :=
  gets (λ s, (λ kv, (drop (length prefix) kv.1, kv.2)) <$>
             iter_asc (kv_raw (st_kv s)) (prefixRange prefix)).

Definition eth_addresses (entries : list (bytes * bytes)) : K W (gmap string EthAddress) :=
  for_acc entries ∅ (λ kv ethAddresses,
    let '(key, value) := kv in
    ethAddress ← or_panic "found invalid ethAddress" (NewEthAddressFromBytes value);
    _ ← or_panic "invalid valAddress in key" (VerifyAddressFormat key);
    mret (<[ValAddressString key := ethAddress]> ethAddresses, false)).

Definition orch_addresses (entries : list (bytes * bytes)) : K W (gmap string string) :=
  for_acc entries ∅ (λ kv orchAddresses,
    let '(key, value) := kv in
    _ ← or_panic "invalid orchAddress in key" (VerifyAddressFormat key);
    _ ← or_panic "invalid val address stored for orchestrator" (VerifyAddressFormat value);
    mret (<[ValAddressString value := AccAddressString key]> orchAddresses, false)).

Definition delegation (orchAddresses : gmap string string) (p : string * EthAddress)
    : option MsgSetOrchestratorAddress :=
  orch ← orchAddresses !! p.1;
  Some (mkMsgSetOrchestratorAddress p.1 orch (Hex (GetAddress p.2))).

Definition so_le (x y : MsgSetOrchestratorAddress) : Prop :=
  bytes_le (bytes_of_string (so_EthAddress x)) (bytes_of_string (so_EthAddress y)).
#[global] Instance so_le_dec x y : Decision (so_le x y).
Proof. unfold so_le. apply _. Defined.

(** The map is ranged over in some order, and the result sorted by Ethereum
    address. *)
Definition GetDelegateKeys : K W (list MsgSetOrchestratorAddress) :=
  eths ← index_entries EthAddressByValidatorKey;
  ethAddresses ← eth_addresses eths;
  orchs ← index_entries KeyOrchestratorAddress;
  orchAddresses ← orch_addresses orchs;
  result ← opt_panic "Can't find address"
             (mapM (delegation orchAddresses) (map_to_list ethAddresses));
  mret (merge_sort so_le result).

Definition IterateEthAddressesByValidator {B} (acc : B)
    (cb : bytes → EthAddress → B → K W (B * bool)) : K W B :=
  entries ← gets (λ s, sub_entries EthAddressByValidatorKey (kv_raw (st_kv s)));
  for_acc entries acc (λ kv acc,
    value ← or_panic "Unable to unmarshal EthAddress for validator" (NewEthAddressFromBytes kv.2);
    cb kv.1 value acc).

Definition IterateValidatorsByEthAddress {B} (acc : B)
    (cb : bytes → bytes → B → K W (B * bool)) : K W B :=
  entries ← gets (λ s, sub_entries ValidatorByEthAddressKey (kv_raw (st_kv s)));
  for_acc entries acc (λ kv acc, cb kv.1 kv.2 acc).

Definition IterateValidatorsByOrchestratorAddress {B} (acc : B)
    (cb : bytes → bytes → B → K W (B * bool)) : K W B :=
  entries ← gets (λ s, sub_entries KeyOrchestratorAddress (kv_raw (st_kv s)));
  for_acc entries acc (λ kv acc, cb kv.1 kv.2 acc).
End DelegateKeys.

Section DelegateReadonly.
Context {W : Type} `{Geth} `{Sdk} `{Staking W}.

Lemma readonly_GetOrchestratorValidatorAddr o :
  readonly (GetOrchestratorValidatorAddr o : K W _).
Proof. unfold GetOrchestratorValidatorAddr. readonly. Qed.
#[local] Hint Resolve readonly_GetOrchestratorValidatorAddr : readonly.
Lemma readonly_GetOrchestratorValidator o : readonly (GetOrchestratorValidator o : K W _).
Proof. unfold GetOrchestratorValidator. readonly. Qed.
Lemma readonly_GetEthAddressByValidator v : readonly (GetEthAddressByValidator v : K W _).
Proof. unfold GetEthAddressByValidator. readonly. Qed.
Lemma readonly_GetValidatorByEthAddress a : readonly (GetValidatorByEthAddress a : K W _).
Proof. unfold GetValidatorByEthAddress. readonly. Qed.
Lemma readonly_eth_addresses l : readonly (eth_addresses l : K W _).
Proof. unfold eth_addresses. readonly. Qed.
Lemma readonly_orch_addresses l : readonly (orch_addresses l : K W _).
Proof. unfold orch_addresses. readonly. Qed.
#[local] Hint Resolve readonly_eth_addresses readonly_orch_addresses : readonly.
Lemma readonly_GetDelegateKeys : readonly (GetDelegateKeys : K W _).
Proof. unfold GetDelegateKeys, index_entries. readonly. Qed.
End DelegateReadonly.

#[export] Hint Resolve readonly_GetOrchestratorValidatorAddr readonly_GetOrchestratorValidator
  readonly_GetEthAddressByValidator readonly_GetValidatorByEthAddress
  readonly_GetDelegateKeys : readonly.

(** ** What the lookups find *)

Section DelegateFacts.
Context {W : Type} `{Geth} `{SdkLaws} `{Staking W} `{!ValidatorLaws W}.
Implicit Types s : State W.

Lemma AppendBytes_pair a b : AppendBytes [a; b] = a ++ b.
Proof. unfold AppendBytes. cbn [concat]. by rewrite app_nil_r. Qed.

Lemma verified_inv a k k' : verified a k = Some k' → VerifyAddressFormat a = Ok tt ∧ k' = k.
Proof. unfold verified. destruct (VerifyAddressFormat a) as [[]|]; naive_solver. Qed.

Lemma no_empty_validator w v : GetValidator w [] ≠ Ok v.
Proof. intros Hv. apply empty_address. eapply val_bech32_verified. by eapply validator_operator. Qed.

Lemma GetOrchestratorValidator_inv o s r s' :
  GetOrchestratorValidator o s = Ret r s' →
  s' = s ∧ (∀ v, r = Some v → VerifyAddressFormat o = Ok tt ∧
    ∃ a, raw s !! (KeyOrchestratorAddress ++ o) = Some a ∧ GetValidator (st_world s) a = Ok v).
Proof.
  intros E. split; [by eapply readonly_inv; [|exact E]; auto with readonly|].
  intros v ->. unfold GetOrchestratorValidator in E. mnext E as r s1 E1.
  unfold GetOrchestratorValidatorAddr in E1.
  destruct (VerifyAddressFormat o) as [[]|] eqn:Ho; cbn [is_ok negb] in *; [|minv].
  mnext E1 as k s2 Ek. apply opt_panic_inv in Ek as [(_ & ->)%verified_inv ->].
  rewrite AppendBytes_pair in E1.
  mnext E1 as b s3 Eb. unfold raw_get in Eb. apply gets_inv in Eb as [-> ->].
  split; [done|]. destruct (raw s !! _) as [a|] eqn:Ha; minv; cbn [negb andb] in *.
  - exists a. split; [done|]. mnext E as w s4 Ew. apply gets_inv in Ew as [-> ->].
    cbn [default id] in E. by destruct (GetValidator _ a); minv.
  - rewrite bool_decide_eq_false_2 in E by done. mnext E as w s4 Ew. apply gets_inv in Ew as [-> ->].
    destruct (GetValidator _ _) as [v'|] eqn:Ev; minv. by apply no_empty_validator in Ev.
Qed.

Lemma GetEthAddressByValidator_inv op s r s' :
  GetEthAddressByValidator op s = Ret r s' →
  s' = s ∧ VerifyAddressFormat op = Ok tt ∧
  r = match raw s !! (EthAddressByValidatorKey ++ op) with
      | Some b => match NewEthAddressFromBytes b with Ok e => Some e | Er _ => None end
      | None => None
      end.
Proof.
  unfold GetEthAddressByValidator. intros E.
  mnext E as u s1 Eu. apply or_panic_inv in Eu as [_ ->].
  mnext E as k s2 Ek. apply opt_panic_inv in Ek as [(Hv & ->)%verified_inv ->].
  rewrite AppendBytes_pair in E.
  mnext E as b s3 Eb. unfold raw_get in Eb. apply gets_inv in Eb as [-> ->].
  destruct (raw s !! _) as [b|]; [destruct (NewEthAddressFromBytes b)|]; minv; done.
Qed.
End DelegateFacts.
