(* ===== verification/Evidence.v ===== *)
(** * Ethereum signatures and evidence (types/ethereum_signer.go, keeper/evidence.go)

    Who signed a checkpoint, and what happens to a validator whose signature is
    over a checkpoint the chain never asked anybody to sign. *)

From stdpp Require Import base gmap list strings.
From S2P Require Import Prelude GoStd External Store Ethereum Keys OutgoingTx Valset Claims Keeper DelegateKeys.

#[local] Open Scope Z_scope.

(** ** go-ethereum/crypto *)

Class EthCrypto := {
  Pubkey : Type;
  (** [crypto.ValidateSignatureValues(v, r, s, true)] *)
  ValidateSignatureValues : Z → Z → Z → bool;
  SigToPub : bytes → bytes → res Pubkey;
  PubkeyToAddress : Pubkey → bytes;
}.

Definition SignatureLength : Z := 65.

Section Signer.
Context `{Geth} `{EthAbi} `{EthCrypto}.

(** "\x19Ethereum Signed Message:\n32" *)
Definition signaturePrefix : bytes :=
  [25] ++ bytes_of_string "Ethereum Signed Message:" ++ [10] ++ bytes_of_string "32".

(** [None] is a panic. *)
Definition decodeSignature (sig : bytes) : option (Z * Z * Z) :=
  if negb (Z.of_nat (length sig) =? SignatureLength) then None else
  let r := be_val (take 32 sig) in
  let s := be_val (take 32 (drop 32 sig)) in
  let v := nth 64 sig 0 in
  Some (r, s, if (v =? 27) || (v =? 28) then v - 27 else v).

Definition EthAddressFromSignature (hash signature : bytes) : option (res EthAddress) :=
  if Z.of_nat (length signature) <? 65 then Some (Er ErrInvalid) else
  match decodeSignature signature with
  | None => None
  | Some (r, s, v) =>
      if negb (ValidateSignatureValues v r s) then Some (Er ErrInvalid) else
      let v := nth 64 signature 0 in
      let signature := if (v =? 27) || (v =? 28) then <[64%nat := v - 27]> signature else signature in
      let protectedHash := Keccak256Hash (signaturePrefix ++ hash) in
      Some (pubkey ← SigToPub protectedHash signature;
            NewEthAddress (Hex (PubkeyToAddress pubkey)))
  end.

Definition ValidateEthereumSignature (hash signature : bytes) (ethAddress : EthAddress)
    : option (res unit) :=
  match EthAddressFromSignature hash signature with
  | None => None
  | Some (Er e) => Some (Er e)
  | Some (Ok addr) =>
      if decide (GetAddress addr = GetAddress ethAddress) then Some (Ok tt) else Some (Er ErrInvalid)
  end.
End Signer.

(** ** Evidence *)

(** What validators sign; the implementations of the interface [EthereumSigned]. *)
Inductive EthereumSigned :=
  | SignedBatch (b : OutgoingTxBatch)
  | SignedValset (v : Valset)
  | SignedLogicCall (c : OutgoingLogicCall).

(** [cdc.UnpackAny] into an [EthereumSigned]: nil stays nil. *)
Class SignedCodec := { UnpackSigned : option Any → res (option EthereumSigned) }.

Record MsgSubmitBadSignatureEvidence := mkMsgSubmitBadSignatureEvidence {
  be_Subject : option Any; be_Signature : string; be_Sender : string }.

Section Evidence.
Context {W : Type} `{Geth} `{Sdk} `{Staking W} `{EthAbi} `{EthCrypto} `{SignedCodec}.

Definition Signed_GetCheckpoint (gravityID : string) (subject : EthereumSigned) : option bytes :=
  match subject with
  | SignedBatch b => OutgoingTxBatch_GetCheckpoint gravityID b
  | SignedValset v => Valset_GetCheckpoint gravityID v
  | SignedLogicCall c => OutgoingLogicCall_GetCheckpoint gravityID c
  end.

(** The signature as it is written in the message; slicing a shorter string panics. *)
Definition decode_evidence_signature (signature : string) : option (option bytes) :=
  if slen signature <? 2 then None
  else Some (hex_decode (if HasPrefix signature "0x" then drop_str 2 signature else signature)).

Definition checkBadSignatureEvidenceInternal (subject : EthereumSigned) (signature : string)
    : K W unit :=
  gravityID ← GetGravityID;
  checkpoint ← opt_panic "GetCheckpoint" (Signed_GetCheckpoint gravityID subject);
  exists_ ← GetPastEthSignatureCheckpoint checkpoint;
  _ ← guard_err exists_ ErrInvalid;
  decoded ← opt_panic "slice bounds out of range" (decode_evidence_signature signature);
  match decoded with
  | None => fail ErrInvalid
  | Some sigBytes =>
      recovered ← opt_panic "wrong size for signature" (EthAddressFromSignature checkpoint sigBytes);
      match recovered with
      | Er _ => fail ErrInvalid
      | Ok ethAddress =>
          found ← GetValidatorByEthAddress ethAddress;
          match found with
          | None => fail ErrInvalid
          | Some val =>
              cons ← of_res (v_ConsAddr val);
              params ← GetParams;
              if negb (v_Jailed val) then
                _ ← call (Jail cons);
                height ← gets st_height;
                call (Slash cons height (v_ConsensusPower val)
                        (p_SlashFractionBadEthSignature params))
              else mret tt
          end
      end
  end.

Definition CheckBadSignatureEvidence (msg : MsgSubmitBadSignatureEvidence) : K W unit :=
  match UnpackSigned (be_Subject msg) with
  | Er _ | Ok None => fail ErrInvalid
  | Ok (Some subject) => checkBadSignatureEvidenceInternal subject (be_Signature msg)
  end.

Definition IteratePastEthSignatureCheckpoints {B} (acc : B)
    (cb : bytes → bytes → B → K W (B * bool)) : K W B :=
  entries ← gets (λ s, sub_entries PastEthSignatureCheckpointKey (kv_raw (st_kv s)));
  for_acc entries acc (λ kv acc,
    _ ← guard_panic (bool_decide (kv.2 ≠ [1])) "Invalid stored past eth signature checkpoint";
    cb kv.1 kv.2 acc).
End Evidence.
