(* ===== verification/Msgs.v ===== *)
(** * Messages (types/msgs.go)

    The messages users, orchestrators and validators send, their stateless
    validation and the account whose signature each requires.  The claims, which
    are messages too, are in [Claims]. *)

From stdpp Require Import base gmap list strings.
From S2P Require Import Prelude GoStd External Store Ethereum Keys OutgoingTx Valset Claims Keeper DelegateKeys Evidence.

#[local] Open Scope Z_scope.

Record MsgSendToEth := mkMsgSendToEth {
  se_Sender : string; se_EthDest : string; se_Amount : Coin; se_BridgeFee : Coin; se_ChainFee : Coin }.
Record MsgCancelSendToEth := mkMsgCancelSendToEth { cs_TransactionId : Z; cs_Sender : string }.
Record MsgRequestBatch := mkMsgRequestBatch { rb_Sender : string; rb_Denom : string }.
Record MsgExecuteIbcAutoForwards := mkMsgExecuteIbcAutoForwards {
  ef_ForwardsToClear : Z; ef_Executor : string }.

(** ** Constructors *)

Section Constructors.
Context `{Geth} `{Sdk}.

Definition NewMsgSetOrchestratorAddress (val oper : bytes) (eth : EthAddress)
    : MsgSetOrchestratorAddress :=
  mkMsgSetOrchestratorAddress (AccAddressString val) (AccAddressString oper) (Hex (GetAddress eth)).

Definition NewMsgValsetConfirm (nonce : Z) (ethAddress : EthAddress) (validator : bytes)
    (signature : string) : MsgValsetConfirm :=
  mkMsgValsetConfirm nonce (AccAddressString validator) (Hex (GetAddress ethAddress)) signature.

Definition NewMsgSendToEth (sender : bytes) (destAddress : EthAddress) (send bridgeFee chainFee : Coin)
    : MsgSendToEth :=
  mkMsgSendToEth (AccAddressString sender) (Hex (GetAddress destAddress)) send bridgeFee chainFee.

Definition NewMsgRequestBatch (orchestrator : bytes) : MsgRequestBatch :=
  mkMsgRequestBatch (AccAddressString orchestrator) "".

Definition NewMsgCancelSendToEth (user : bytes) (id : Z) : MsgCancelSendToEth :=
  mkMsgCancelSendToEth id (AccAddressString user).
End Constructors.

(** ** Validation *)

Section Validation.
Context `{Geth} `{Sdk}.

Definition bech32_account (s : string) : res unit :=
  match AccAddressFromBech32 s with Er _ => Er (ErrSdk "ErrInvalidAddress") | Ok _ => Ok tt end.

Definition MsgSetOrchestratorAddress_ValidateBasic (msg : MsgSetOrchestratorAddress) : res unit :=
  _ ← bech32_account (so_Validator msg);
  _ ← bech32_account (so_Orchestrator msg);
  ValidateEthAddress (so_EthAddress msg).

Definition MsgValsetConfirm_ValidateBasic (msg : MsgValsetConfirm) : res unit :=
  _ ← bech32_account (vc_Orchestrator msg);
  ValidateEthAddress (vc_EthAddress msg).

Definition MsgSendToEth_ValidateBasic (msg : MsgSendToEth) : res unit :=
  _ ← ValidateStrictDenom (Denom (se_Amount msg));
  _ ← ValidateStrictDenom (Denom (se_BridgeFee msg));
  _ ← ValidateStrictDenom (Denom (se_ChainFee msg));
  _ ← bech32_account (se_Sender msg);
  if decide (Denom (se_Amount msg) ≠ Denom (se_BridgeFee msg)) then Er (ErrSdk "ErrInvalidCoins") else
  if decide (Denom (se_Amount msg) ≠ Denom (se_ChainFee msg)) then Er (ErrSdk "ErrInvalidCoins") else
  if negb (Coin_IsValid (se_Amount msg)) || (Amount (se_Amount msg) =? 0)
  then Er (ErrSdk "ErrInvalidCoins") else
  if negb (Coin_IsValid (se_BridgeFee msg)) then Er (ErrSdk "ErrInvalidCoins") else
  if negb (Coin_IsValid (se_ChainFee msg)) then Er (ErrSdk "ErrInvalidCoins") else
  ValidateEthAddress (se_EthDest msg).

Definition MsgRequestBatch_ValidateBasic (msg : MsgRequestBatch) : res unit :=
  _ ← bech32_account (rb_Sender msg);
  ValidateStrictDenom (rb_Denom msg).

Definition MsgConfirmBatch_ValidateBasic (msg : MsgConfirmBatch) : res unit :=
  _ ← bech32_account (cb_Orchestrator msg);
  _ ← ValidateEthAddress (cb_EthSigner msg);
  _ ← ValidateEthAddress (cb_TokenContract msg);
  match hex_decode (cb_Signature msg) with None => Er ErrInvalidClaim | Some _ => Ok tt end.

Definition MsgConfirmLogicCall_ValidateBasic (msg : MsgConfirmLogicCall) : res unit :=
  _ ← bech32_account (cl_Orchestrator msg);
  _ ← ValidateEthAddress (cl_EthSigner msg);
  match hex_decode (cl_Signature msg), hex_decode (cl_InvalidationId msg) with
  | Some _, Some _ => Ok tt
  | _, _ => Er (ErrSdk "ErrUnknownRequest")
  end.

Definition MsgCancelSendToEth_ValidateBasic (msg : MsgCancelSendToEth) : res unit :=
  _ ← AccAddressFromBech32 (cs_Sender msg); Ok tt.

Definition MsgExecuteIbcAutoForwards_ValidateBasic (msg : MsgExecuteIbcAutoForwards) : res unit :=
  _ ← AccAddressFromBech32 (ef_Executor msg); Ok tt.

Definition MsgSubmitBadSignatureEvidence_ValidateBasic (e : MsgSubmitBadSignatureEvidence) : res unit :=
  _ ← AccAddressFromBech32 (be_Sender e); Ok tt.
End Validation.

(** ** Signers

    [None] is the panic of [GetSigners] on an address that does not parse. *)

Section Signers.
Context `{Sdk}.

Definition signer (s : string) : option (list bytes) :=
  match AccAddressFromBech32 s with Ok acc => Some [acc] | Er _ => None end.

Definition MsgSetOrchestratorAddress_GetSigners (m : MsgSetOrchestratorAddress) := signer (so_Validator m).
Definition MsgValsetConfirm_GetSigners (m : MsgValsetConfirm) := signer (vc_Orchestrator m).
Definition MsgSendToEth_GetSigners (m : MsgSendToEth) := signer (se_Sender m).
Definition MsgRequestBatch_GetSigners (m : MsgRequestBatch) := signer (rb_Sender m).
Definition MsgConfirmBatch_GetSigners (m : MsgConfirmBatch) := signer (cb_Orchestrator m).
Definition MsgConfirmLogicCall_GetSigners (m : MsgConfirmLogicCall) := signer (cl_Orchestrator m).
Definition MsgCancelSendToEth_GetSigners (m : MsgCancelSendToEth) := signer (cs_Sender m).
Definition MsgExecuteIbcAutoForwards_GetSigners (m : MsgExecuteIbcAutoForwards) := signer (ef_Executor m).
Definition MsgSubmitBadSignatureEvidence_GetSigners (m : MsgSubmitBadSignatureEvidence) := signer (be_Sender m).
End Signers.
