(* ===== verification/Attestation.v ===== *)
(** * The oracle (keeper/attestation.go)

    Validators vote on what happened on Ethereum.  Claims about the same event
    with the same contents share an attestation; once more than 66% of the voting
    power has voted for an attestation, it is observed and handed to the handler,
    in the order of the event nonces.  The two loops of the end blocker that drive
    the oracle, [attestationTally] and [pruneAttestations] (abci.go), are here
    too. *)

From stdpp Require Import base gmap list strings sorting.
From S2P Require Import Prelude GoStd External Store Ethereum Keys OutgoingTx Valset Claims Keeper DelegateKeys.

#[local] Open Scope Z_scope.

Definition AttestationVotesPowerThreshold : Z := 66.

(** What the oracle asks of the attestation handler. *)
Class AttestationHandler (W : Type) := {
  Handle : Attestation → EthereumClaim → K W unit;
}.

(** ** Nonces *)

Section Nonces.
Context {W : Type} `{Sdk}.

Definition GetLastObservedEventNonce : K W Z :=
  bz ← raw_get LastObservedEventNonceKey;
  let b := default [] bz in
  if decide (b = []) then mret 0 else
  _ ← guard_panic (8 <? Z.of_nat (length b)) "Last observed event nonce is not a uint64!";
  opt_panic "Invalid uint64 bytes" (UInt64FromBytesUnsafe b).

Definition setLastObservedEventNonce (nonce : Z) : K W unit :=
  last ← GetLastObservedEventNonce;
  let zeroCase := (last =? 0) && (nonce =? 0) in
  _ ← guard_panic ((nonce <=? last) && negb zeroCase) "Event nonce going backwards or replay!";
  raw_set LastObservedEventNonceKey (UInt64Bytes nonce).

Definition GetLastEventNonceByValidator (validator : bytes) : K W Z :=
  _ ← or_panic "invalid validator address" (VerifyAddressFormat validator);
  key ← opt_panic "invalid validator" (GetLastEventNonceByValidatorKey validator);
  bz ← raw_get key;
  let b := default [] bz in
  if decide (b = []) then
    lastEventNonce ← GetLastObservedEventNonce;
    mret (if 1 <=? lastEventNonce then lastEventNonce - 1 else 0)
  else opt_panic "Invalid uint64 bytes" (UInt64FromBytesUnsafe b).

Definition SetLastEventNonceByValidator (validator : bytes) (nonce : Z) : K W unit :=
  _ ← or_panic "invalid validator address" (VerifyAddressFormat validator);
  key ← opt_panic "invalid validator" (GetLastEventNonceByValidatorKey validator);
  raw_set key (UInt64Bytes nonce).

Definition GetLastObservedValset : K W (option Valset) :=
  gets (λ s, kv_observedValset (st_kv s)).

Definition SetLastObservedValset (valset : Valset) : K W unit :=
  modify (upd_kv (upd_observedValset (λ _, Some valset))).

Definition IterateValidatorLastEventNonces {B} (acc : B) (cb : bytes → Z → B → K W (B * bool))
    : K W B :=
  entries ← gets (λ s, sub_entries LastEventNonceByValidatorKey (kv_raw (st_kv s)));
  for_acc entries acc (λ kv acc,
    nonce ← opt_panic "Invalid uint64 bytes" (UInt64FromBytesUnsafe kv.2);
    cb kv.1 nonce acc).

(** ** Stored attestations *)

Definition SetAttestation (eventNonce : Z) (claimHash : bytes) (att : Attestation) : K W unit :=
  modify (upd_kv (upd_attestations (insert (GetAttestationKey eventNonce claimHash) att))).

Definition GetAttestation (eventNonce : Z) (claimHash : bytes) : K W (option Attestation) :=
  gets (λ s, kv_attestations (st_kv s) !! GetAttestationKey eventNonce claimHash).

(** [IterateAttestations] as the list of what the callback is called with. *)
Definition attestation_entries (reverse : bool) : K W (list (bytes * Attestation)) :=
  gets (λ s, let r := prefixRange OracleAttestationKey in
             if reverse then iter_desc (kv_attestations (st_kv s)) r
             else iter_asc (kv_attestations (st_kv s)) r).

Definition IterateAttestations {B} (reverse : bool) (acc : B)
    (cb : bytes → Attestation → B → K W (B * bool)) : K W B :=
  entries ← attestation_entries reverse;
  for_acc entries acc (λ kv acc, cb kv.1 kv.2 acc).
End Nonces.

Section Oracle.
Context {W : Type} `{Geth} `{Sdk} `{Hashing} `{Codec} `{Staking W} `{AttestationHandler W}.

Definition UnpackAttestationClaim (att : Attestation) : res EthereumClaim :=
  UnpackClaim (at_Claim att).

(** [ClaimTypeToTypeUrl] picks the claims of one type by the name of their message. *)
Definition IterateClaims {B} (reverse : bool) (typeUrl : string) (acc : B)
    (cb : bytes → Attestation → EthereumClaim → B → K W (B * bool)) : K W B :=
  IterateAttestations reverse acc (λ key att acc,
    if decide (any_TypeUrl (at_Claim att) = typeUrl) then
      claim ← or_panic "Discovered invalid claim in attestation" (UnpackAttestationClaim att);
      cb key att claim acc
    else mret (acc, false)).

Definition DeleteAttestation (att : Attestation) : K W unit :=
  claim ← or_panic "Bad Attestation in DeleteAttestation" (UnpackAttestationClaim att);
  hash ← or_panic "unable to compute claim hash" (ClaimHash claim);
  modify (upd_kv (upd_attestations (delete (GetAttestationKey (GetEventNonce claim) hash)))).

(** The map from event nonces to the attestations at that nonce, and its keys in
    ascending order. *)
Definition GetAttestationMapping : K W (gmap Z (list Attestation) * list Z) :=
  attestationMapping ← IterateAttestations false ∅ (λ _ att m,
    claim ← or_panic "couldn't cast to claim" (UnpackAttestationClaim att);
    let n := GetEventNonce claim in
    mret (<[n := default [] (m !! n) ++ [att]]> m, false));
  mret (attestationMapping, merge_sort Z.le (map_to_list attestationMapping).*1).

(** [make] with a capacity of [limit] attestations of 64 bytes each panics beyond the
    address space of the 64-bit platforms, 2^48 bytes. *)
Definition GetMostRecentAttestations (limit : Z) : K W (list Attestation) :=
  r ← GetAttestationMapping;
  let '(attestationMapping, keys) := r in
  _ ← guard_panic (2 ^ 48 <? 64 * limit) "makeslice: cap out of range";
  mret (take (Z.to_nat (int64 limit))
          (keys ≫= λ nonce, default [] (attestationMapping !! nonce))).

(** ** Voting *)

Definition Attest (claim : EthereumClaim) (anyClaim : Any) : K W Attestation :=
  claimer ← opt_panic "GetClaimer" (GetClaimer claim);
  found ← GetOrchestratorValidator claimer;
  val ← opt_panic "Could not find ValAddr for delegate key, should be checked by now" found;
  valAddr ← or_panic "Failed to parse validator operator address"
              (ValAddressFromBech32 (v_OperatorAddress val));
  _ ← of_res (VerifyAddressFormat valAddr);
  lastEventNonce ← GetLastEventNonceByValidator valAddr;
  _ ← guard_err (negb (GetEventNonce claim =? u64 (lastEventNonce + 1)))
        (ErrNonContiguousEventNonce (u64 (lastEventNonce + 1)) (GetEventNonce claim));
  hash ← of_res (ClaimHash claim);
  existing ← GetAttestation (GetEventNonce claim) hash;
  height ← BlockHeight;
  att ← match existing with
        | Some att => mret att
        | None =>
            components ← of_res (ExtractClaimHashComponents claim);
            mret (mkAttestation false [] height anyClaim (GetType claim) (Some components))
        end;
  match at_ClaimComponents att with
  | None => panic "attestation claim components should never be nil"
  | Some stored =>
      storedHash ← or_panic "could not compute hash from stored components"
                     (ComputeClaimHash (at_ClaimType att) stored);
      _ ← guard_err (bool_decide (storedHash ≠ hash)) ErrInvalid;
      incomingComponents ← or_panic "unable to extract incoming claim components for comparison"
                             (ExtractClaimHashComponents claim);
      _ ← guard_err (bool_decide (stored ≠ incomingComponents)) ErrInvalid;
      let att := mkAttestation (at_Observed att) (at_Votes att ++ [ValAddressString valAddr])
                   (at_Height att) (at_Claim att) (at_ClaimType att) (at_ClaimComponents att) in
      _ ← SetAttestation (GetEventNonce claim) hash att;
      _ ← SetLastEventNonceByValidator valAddr (GetEventNonce claim);
      mret att
  end.

(** ** Observing *)

(** [ctx.CacheContext]: the method runs on a branch of the store, with events of
    its own; an error discards both. *)
Definition cached (m : K W unit) : K W unit := λ s,
  match m s with
  | Ret _ s' => Ret tt s'
  | Fail _ _ => Ret tt s
  | Panic msg => Panic msg
  end.

Definition processAttestation (att : Attestation) (claim : EthereumClaim) : K W unit :=
  _ ← or_panic "unable to compute claim hash" (ClaimHash claim);
  cached (Handle att claim).

Definition emitObservedEvent (att : Attestation) (claim : EthereumClaim) : K W unit :=
  hash ← or_panic "unable to compute claim hash" (ClaimHash claim);
  bridge ← GetBridgeContractAddress;
  chain ← GetBridgeChainID;
  emit (EventObservation (GetType claim) (Hex (GetAddress bridge)) chain
          (GetAttestationKey (GetEventNonce claim) hash) (GetEventNonce claim)).

Definition observed (att : Attestation) : Attestation :=
  mkAttestation true (at_Votes att) (at_Height att) (at_Claim att) (at_ClaimType att)
    (at_ClaimComponents att).

Definition TryAttestation (att : Attestation) : K W unit :=
  claim ← or_panic "could not cast to claim" (UnpackAttestationClaim att);
  hash ← or_panic "unable to compute claim hash" (ClaimHash claim);
  if negb (at_Observed att) then
    total ← gets (λ s, GetLastTotalPower (st_world s));
    totalPower ← or_panic "GetLastTotalPower" total;
    product ← opt_panic "Int.Mul" (Int_Mul AttestationVotesPowerThreshold totalPower);
    let requiredPower := Z.quot product 100 in
    _ ← for_acc (at_Votes att) 0 (λ validator attestationPower,
      val ← or_panic "ValAddressFromBech32" (ValAddressFromBech32 validator);
      power ← gets (λ s, GetLastValidatorPower (st_world s) val);
      validatorPower ← or_panic "GetLastValidatorPower" power;
      attestationPower ← opt_panic "Int.Add" (Int_Add attestationPower validatorPower);
      if requiredPower <? attestationPower then
        lastEventNonce ← GetLastObservedEventNonce;
        _ ← guard_panic (negb (GetEventNonce claim =? u64 (lastEventNonce + 1)))
              "attempting to apply events to state out of order";
        _ ← setLastObservedEventNonce (GetEventNonce claim);
        _ ← SetLastObservedEthereumBlockHeight (GetEthBlockHeight claim);
        _ ← SetAttestation (GetEventNonce claim) hash (observed att);
        _ ← processAttestation (observed att) claim;
        _ ← emitObservedEvent (observed att) claim;
        mret (attestationPower, true)
      else mret (attestationPower, false));
    mret tt
  else panic "attempting to process observed attestation".

(** ** The end blocker's loops (abci.go) *)

Definition attestationTally : K W unit :=
  active ← try RequireBridgeActive;
  match active with
  | Er _ => mret tt
  | Ok _ =>
      r ← GetAttestationMapping;
      let '(attmap, keys) := r in
      for_each keys (λ nonce,
        for_each (default [] (attmap !! nonce)) (λ att,
          last ← GetLastObservedEventNonce;
          if nonce =? u64 (last + 1) then TryAttestation att else mret tt))
  end.

Definition eventsToKeep : Z := 1000.

Definition pruneAttestations : K W unit :=
  r ← GetAttestationMapping;
  let '(attmap, keys) := r in
  lastNonce ← GetLastObservedEventNonce;
  if lastNonce <=? eventsToKeep then mret tt else
  let cutoff := lastNonce - eventsToKeep in
  for_each keys (λ nonce,
    for_each (default [] (attmap !! nonce)) (λ att,
      if nonce <? cutoff then DeleteAttestation att else mret tt)).
End Oracle.
