(* ===== verification/OracleCorrect.v ===== *)
(** * Correctness of the oracle

    [oracle_ok] is the invariant of the votes: attestations are stored under the
    key of their claim, a validator votes at most once per event nonce, and at
    most one attestation per event nonce is observed.  The theorems about
    observing are proved against the interface [HandlerFrame]: whatever the
    attestation handler does, it leaves the oracle's own state alone. *)

From stdpp Require Import base gmap list strings sorting relations.
From S2P Require Import Prelude GoStd External Store Ethereum Keys OutgoingTx Valset Claims Keeper DelegateKeys Attestation.

#[local] Open Scope Z_scope.

Abbreviation atts s := (kv_attestations (st_kv s)).

(** ** The oracle's state *)

Section OracleState.
Context {W : Type} `{Sdk} `{Staking W}.
Implicit Types s : State W.

(** A counter that is absent or eight bytes long. *)
Definition counter_ok (b : option bytes) : Prop :=
  match b with None => True | Some b => ∃ n, b = UInt64Bytes n ∧ u64_ok n end.

Definition counter_val (b : option bytes) : option Z := b ≫= UInt64FromBytesUnsafe.

(** The last observed event nonce, 0 before the first. *)
Definition last_observed s : Z := default 0 (counter_val (raw s !! LastObservedEventNonceKey)).

Definition vote_key (v : bytes) : bytes := LastEventNonceByValidatorKey ++ v.

(** The last nonce a validator has voted for. *)
Definition last_vote s (v : bytes) : option Z := counter_val (raw s !! vote_key v).

Lemma counter_val_some n : u64_ok n → counter_val (Some (UInt64Bytes n)) = Some n.
Proof. intros Hn. simpl. by rewrite UInt64_roundtrip. Qed.

Lemma counter_ok_val b n : counter_ok b → counter_val b = Some n → b = Some (UInt64Bytes n) ∧ u64_ok n.
Proof.
  destruct b as [b|]; [|done]. intros (m & -> & Hm). rewrite counter_val_some by done.
  by intros [= ->].
Qed.

Lemma UInt64Bytes_nonempty n : UInt64Bytes n ≠ [].
Proof. intros E. by pose proof (length_UInt64Bytes n) as Hl; rewrite E in Hl. Qed.

(** What the oracle relies on others to leave alone. *)
Record oracle_same s s' : Prop := {
  os_atts : atts s' = atts s;
  os_height : kv_ethHeight (st_kv s') = kv_ethHeight (st_kv s);
  os_observed : raw s' !! LastObservedEventNonceKey = raw s !! LastObservedEventNonceKey;
  os_votes v : raw s' !! vote_key v = raw s !! vote_key v;
  os_total : GetLastTotalPower (st_world s') = GetLastTotalPower (st_world s);
  os_power v : GetLastValidatorPower (st_world s') v = GetLastValidatorPower (st_world s) v }.

#[global] Instance oracle_same_refl : Reflexive oracle_same.
Proof. by split. Qed.
#[global] Instance oracle_same_trans : Transitive oracle_same.
Proof. intros s1 s2 s3 [] []. split; intros; congruence. Qed.

Lemma last_observed_same s s' : oracle_same s s' → last_observed s' = last_observed s.
Proof. intros E. unfold last_observed. by rewrite (os_observed _ _ E). Qed.

Lemma GetLastObservedEventNonce_eq s :
  counter_ok (raw s !! LastObservedEventNonceKey) →
  GetLastObservedEventNonce s = Ret (last_observed s) s.
Proof.
  intros Hok. unfold GetLastObservedEventNonce, last_observed, raw_get. mrun.
  destruct (raw s !! LastObservedEventNonceKey) as [b|]; [|done].
  destruct Hok as (n & -> & Hn). rewrite counter_val_some by done. cbn [default id].
  rewrite decide_False by apply UInt64Bytes_nonempty. rewrite length_UInt64Bytes.
  by rewrite UInt64_roundtrip.
Qed.

(** The nonce a validator is expected to have voted for last. *)
Definition effective_vote s (v : bytes) : Z :=
  match last_vote s v with
  | Some n => n
  | None => if 1 <=? last_observed s then last_observed s - 1 else 0
  end.

Lemma vote_key_eq v :
  VerifyAddressFormat v = Ok tt → GetLastEventNonceByValidatorKey v = Some (vote_key v).
Proof.
  intros Hv. unfold GetLastEventNonceByValidatorKey, verified. rewrite Hv.
  unfold AppendBytes, vote_key. cbn [concat]. by rewrite app_nil_r.
Qed.

Lemma vote_key_inj v1 v2 : vote_key v1 = vote_key v2 → v1 = v2.
Proof. by intros [_ ?]%app_inj_1. Qed.

Lemma vote_observed_key_ne v : vote_key v ≠ LastObservedEventNonceKey.
Proof. intros E. discriminate E. Qed.

Lemma GetLastEventNonceByValidator_eq s v :
  VerifyAddressFormat v = Ok tt → counter_ok (raw s !! LastObservedEventNonceKey) →
  counter_ok (raw s !! vote_key v) →
  GetLastEventNonceByValidator v s = Ret (effective_vote s v) s.
Proof.
  intros Hv Hobs Hok. unfold GetLastEventNonceByValidator. rewrite Hv, vote_key_eq by done.
  unfold opt_panic, raw_get. mrun. unfold effective_vote, last_vote.
  destruct (raw s !! vote_key v) as [b|].
  - destruct Hok as (n & -> & Hn). rewrite counter_val_some by done. cbn [default id].
    rewrite decide_False by apply UInt64Bytes_nonempty. by rewrite UInt64_roundtrip.
  - cbn [default]. rewrite decide_True by done.
    by rewrite GetLastObservedEventNonce_eq.
Qed.
End OracleState.

(** ** The invariant *)

Section OracleInvariant.
Context {W : Type} `{Geth} `{Sdk} `{Hashing} `{Codec} `{Staking W}.
Implicit Types s : State W.

(** A stored attestation carries a claim, under the key of that claim. *)
Definition att_claim (att : Attestation) (claim : EthereumClaim) (h : bytes) : Prop :=
  UnpackClaim (at_Claim att) = Ok claim ∧ ClaimHash claim = Ok h ∧
  u64_ok (GetEventNonce claim) ∧ GetEventNonce claim ≠ 0.

(** A recorded vote: a validator whose last voted nonce has reached [n]. *)
Definition voted s (n : Z) (vote : string) : Prop :=
  ∃ v m, VerifyAddressFormat v = Ok tt ∧ vote = ValAddressString v ∧
         last_vote s v = Some m ∧ n ≤ m.

Record oracle_ok s : Prop := {
  ok_observed : counter_ok (raw s !! LastObservedEventNonceKey);
  ok_votes v : counter_ok (raw s !! vote_key v);
  ok_atts k att : atts s !! k = Some att → ∃ claim h,
    att_claim att claim h ∧ k = GetAttestationKey (GetEventNonce claim) h ∧
    NoDup (at_Votes att) ∧ Forall (voted s (GetEventNonce claim)) (at_Votes att) ∧
    (at_Observed att = true → GetEventNonce claim ≤ last_observed s);
  (** no validator votes for two attestations of the same event *)
  ok_once k1 att1 c1 h1 k2 att2 c2 h2 vote :
    atts s !! k1 = Some att1 → atts s !! k2 = Some att2 →
    att_claim att1 c1 h1 → att_claim att2 c2 h2 → GetEventNonce c1 = GetEventNonce c2 →
    vote ∈ at_Votes att1 → vote ∈ at_Votes att2 → k1 = k2;
  (** no two attestations of the same event are observed *)
  ok_unique k1 att1 c1 h1 k2 att2 c2 h2 :
    atts s !! k1 = Some att1 → atts s !! k2 = Some att2 →
    att_claim att1 c1 h1 → att_claim att2 c2 h2 → GetEventNonce c1 = GetEventNonce c2 →
    at_Observed att1 = true → at_Observed att2 = true → k1 = k2 }.

Lemma att_claim_unique att c1 h1 c2 h2 : att_claim att c1 h1 → att_claim att c2 h2 → c1 = c2 ∧ h1 = h2.
Proof. intros (U1 & E1 & _) (U2 & E2 & _). split; congruence. Qed.

Lemma oracle_ok_claim s k att c h :
  oracle_ok s → atts s !! k = Some att → att_claim att c h →
  k = GetAttestationKey (GetEventNonce c) h ∧ NoDup (at_Votes att) ∧
  Forall (voted s (GetEventNonce c)) (at_Votes att) ∧
  (at_Observed att = true → GetEventNonce c ≤ last_observed s).
Proof.
  intros Hok Ha Hc. destruct (ok_atts _ Hok _ _ Ha) as (c' & h' & Hc' & Hrest).
  by destruct (att_claim_unique att c' h' c h Hc' Hc) as [-> ->].
Qed.

(** What storing one attestation has to respect. *)
Record stores_att s s' (k : bytes) (a : Attestation) : Prop := {
  sa_atts : atts s' = <[k := a]> (atts s);
  sa_observed : counter_ok (raw s' !! LastObservedEventNonceKey);
  sa_votes v : counter_ok (raw s' !! vote_key v);
  sa_voted n vote : voted s n vote → voted s' n vote;
  sa_last : last_observed s ≤ last_observed s';
  sa_claim : ∃ c h, att_claim a c h ∧ k = GetAttestationKey (GetEventNonce c) h ∧
    NoDup (at_Votes a) ∧ Forall (voted s' (GetEventNonce c)) (at_Votes a) ∧
    (at_Observed a = true → GetEventNonce c ≤ last_observed s') ∧
    (** apart from the other attestations of the event *)
    ∀ k2 a2 c2 h2, k2 ≠ k → atts s !! k2 = Some a2 → att_claim a2 c2 h2 →
      GetEventNonce c2 = GetEventNonce c →
      (∀ vote, vote ∈ at_Votes a → vote ∉ at_Votes a2) ∧
      ¬ (at_Observed a = true ∧ at_Observed a2 = true) }.

Lemma oracle_ok_store s s' k a : oracle_ok s → stores_att s s' k a → oracle_ok s'.
Proof.
  intros Hok [Ea Ho Hv Hmono Hlast (c & h & Hc & Hk & Hnd & Hf & Hobs & Hsep)].
  split; [done..| | |].
  - rewrite Ea. intros k1 a1 [[<- <-]|[Hne Ha1]]%lookup_insert_Some; [by exists c, h|].
    destruct (ok_atts _ Hok _ _ Ha1) as (c1 & h1 & Hc1 & Ek & Hnd' & Hf' & Ho').
    exists c1, h1. split_and!; try done.
    + eapply Forall_impl; [exact Hf'|auto].
    + intros E. specialize (Ho' E). lia.
  - rewrite Ea. intros k1 a1 c1 h1 k2 a2 c2 h2 vote
      [[<- <-]|[Hne1 Ha1]]%lookup_insert_Some [[<- <-]|[Hne2 Ha2]]%lookup_insert_Some
      Hc1 Hc2 En Hv1 Hv2; [done|..|by eapply (ok_once _ Hok k1 a1 c1 h1 k2 a2 c2 h2)].
    + destruct (att_claim_unique a c h c1 h1 Hc Hc1) as [-> ->].
      destruct (Hsep k2 a2 c2 h2) as [Hs _]; [congruence|done..|]. by destruct (Hs vote).
    + destruct (att_claim_unique a c h c2 h2 Hc Hc2) as [-> ->].
      destruct (Hsep k1 a1 c1 h1) as [Hs _]; [done..|]. by destruct (Hs vote).
  - rewrite Ea. intros k1 a1 c1 h1 k2 a2 c2 h2
      [[<- <-]|[Hne1 Ha1]]%lookup_insert_Some [[<- <-]|[Hne2 Ha2]]%lookup_insert_Some
      Hc1 Hc2 En Ho1 Ho2; [done|..|by eapply (ok_unique _ Hok k1 a1 c1 h1 k2 a2 c2 h2)].
    + destruct (att_claim_unique a c h c1 h1 Hc Hc1) as [-> ->].
      by destruct (Hsep k2 a2 c2 h2) as [_ []]; [congruence|..].
    + destruct (att_claim_unique a c h c2 h2 Hc Hc2) as [-> ->].
      by destruct (Hsep k1 a1 c1 h1) as [_ []].
Qed.

(** Nothing of the invariant depends on anything but the oracle's own state. *)
Lemma oracle_ok_same s s' : oracle_same s s' → oracle_ok s → oracle_ok s'.
Proof.
  intros E [Ho Hv Ha H1' Hu]. pose proof (last_observed_same s s' E) as El.
  destruct E as [Ea _ Eo Ev _ _]. split.
  - by rewrite Eo.
  - intros v. by rewrite Ev.
  - rewrite Ea. intros k att (c & h & ? & ? & ? & Hvt & ?)%Ha. exists c, h.
    rewrite El. split_and!; try done. eapply Forall_impl; [exact Hvt|].
    intros vote (v & m & ? & ? & ? & ?). exists v, m. unfold last_vote in *. by rewrite Ev.
  - by rewrite Ea.
  - by rewrite Ea.
Qed.
End OracleInvariant.

(** ** Voting *)

Section Voting.
Context {W : Type} `{Geth} `{SdkLaws} `{Hashing} `{Codec} `{Staking W}.
Implicit Types s : State W.

(** The validator a claim's orchestrator votes for. *)
Definition votes_for s (claim : EthereumClaim) (v : bytes) : Prop :=
  ∃ claimer val, GetClaimer claim = Some claimer ∧
    GetOrchestratorValidator claimer s = Ret (Some val) s ∧
    ValAddressFromBech32 (v_OperatorAddress val) = Ok v.

Definition with_vote (att : Attestation) (v : bytes) : Attestation :=
  mkAttestation (at_Observed att) (at_Votes att ++ [ValAddressString v]) (at_Height att)
    (at_Claim att) (at_ClaimType att) (at_ClaimComponents att).

(** The state after validator [v] voted for [att], stored under [k]. *)
Definition voted_state (k : bytes) (att : Attestation) (v : bytes) (n : Z) s : State W :=
  upd_kv (upd_raw (insert (vote_key v) (UInt64Bytes n)))
    (upd_kv (upd_attestations (insert k (with_vote att v))) s).

Lemma Attest_inv s s' claim any att :
  oracle_ok s → Attest claim any s = Ret att s' →
  ∃ v h att0, votes_for s claim v ∧ VerifyAddressFormat v = Ok tt ∧ ClaimHash claim = Ok h ∧
    GetEventNonce claim = u64 (effective_vote s v + 1) ∧
    (atts s !! GetAttestationKey (GetEventNonce claim) h = Some att0 ∨
     atts s !! GetAttestationKey (GetEventNonce claim) h = None ∧
     at_Votes att0 = [] ∧ at_Observed att0 = false ∧ at_Claim att0 = any) ∧
    ExtractClaimHashComponents claim = match at_ClaimComponents att0 with Some c => Ok c | None => Er ErrInternal end ∧
    att = with_vote att0 v ∧
    s' = voted_state (GetAttestationKey (GetEventNonce claim) h) att0 v (GetEventNonce claim) s.
Proof.
  intros Hok Hrun. unfold Attest in Hrun.
  mnext Hrun as claimer s0 E0. apply opt_panic_inv in E0 as [Hcl ->].
  mnext Hrun as found s1 E1. pose proof E1 as E1'. apply readonly_inv in E1' as ->; [|readonly].
  mnext Hrun as val s2 E2. apply opt_panic_inv in E2 as [-> ->].
  mnext Hrun as v s3 E3. apply or_panic_inv in E3 as [Hop ->].
  mnext Hrun as u s4 E4. apply of_res_inv in E4 as [Hv ->]. destruct u.
  rewrite (bind_ret _ _ _ _ _ (GetLastEventNonceByValidator_eq s v Hv (ok_observed _ Hok) (ok_votes _ Hok v))) in Hrun.
  mnext Hrun as u s5 E5. apply guard_err_inv in E5 as [Hn ->]. apply negb_false_iff in Hn. zbool.
  mnext Hrun as h s6 E6. apply of_res_inv in E6 as [Hh ->].
  mnext Hrun as existing s7 E7. apply gets_inv in E7 as [-> ->].
  mnext Hrun as height s8 E8. apply gets_inv in E8 as [_ ->].
  mnext Hrun as att0 s9 E9.
  assert (s9 = s) as ->. { eapply readonly_inv; [|exact E9]. readonly. }
  destruct (at_ClaimComponents att0) as [stored|] eqn:Ec; [|done].
  mnext Hrun as storedHash s10 E10. apply or_panic_inv in E10 as [_ ->].
  mnext Hrun as u1 s11 E11. apply guard_err_inv in E11 as [_ ->].
  mnext Hrun as incoming s12 E12. apply or_panic_inv in E12 as [Hin ->].
  mnext Hrun as u2 s13 E13. apply guard_err_inv in E13 as [Hst ->]. zbool.
  assert (incoming = stored) as -> by (destruct (decide (stored = incoming)); naive_solver).
  mnext Hrun as u3 s14 E14. apply modify_inv in E14 as ->.
  mnext Hrun as u4 s15 E15. unfold SetLastEventNonceByValidator in E15.
  rewrite Hv, vote_key_eq in E15 by done. apply mret_inv in Hrun as [-> ->].
  injection E15 as _ <-. exists v, h, att0. unfold voted_state, with_vote. rewrite !Ec.
  split_and!; try done; [by exists claimer, val|].
  destruct (atts s !! GetAttestationKey (GetEventNonce claim) h) as [a|] eqn:Ea.
  - left. apply mret_inv in E9 as [-> _]. done.
  - right. mnext E9 as comps s16 E16. apply mret_inv in E9 as [-> _]. done.
Qed.

Lemma last_vote_voted_state k att v n s v' :
  u64_ok n →
  last_vote (voted_state k att v n s) v' = if decide (v' = v) then Some n else last_vote s v'.
Proof.
  intros Hn. unfold last_vote, voted_state. simpl. case_decide as E.
  - subst. rewrite lookup_insert_eq. by apply counter_val_some.
  - rewrite lookup_insert_ne; [done|]. intros E'%vote_key_inj. congruence.
Qed.

Lemma last_observed_voted_state k att v n s :
  last_observed (voted_state k att v n s) = last_observed s.
Proof.
  unfold last_observed, voted_state. simpl.
  by rewrite lookup_insert_ne by apply vote_observed_key_ne.
Qed.

(** A validator that may vote for [n] has not voted for any attestation at [n]. *)
Lemma not_voted_yet s v n vote :
  oracle_ok s → VerifyAddressFormat v = Ok tt → n = u64 (effective_vote s v + 1) → n ≠ 0 →
  voted s n vote → vote ≠ ValAddressString v.
Proof.
  intros Hok Hv En Hn (v' & m & Hv' & -> & Hm & Hle) E.
  assert (v' = v) as ->.
  { pose proof (val_bech32_roundtrip v Hv) as R. pose proof (val_bech32_roundtrip v' Hv') as R'.
    rewrite E in R'. congruence. }
  unfold effective_vote in En. rewrite Hm in En.
  assert (u64_ok m) as Hmok by (by eapply counter_ok_val; [apply (ok_votes _ Hok v)|]).
  assert (n = m + 1); [|lia]. destruct (decide (m + 1 = two64)) as [Ew|Ew].
  - rewrite Ew in En. unfold u64 in En. by rewrite Z.mod_same in En.
  - rewrite En, u64_small; [done|]. unfold u64_ok in *. lia.
Qed.

(** A vote does not take back earlier ones. *)
Lemma voted_voted_state k att v n s m vote :
  oracle_ok s → u64_ok n → n ≠ 0 → n = u64 (effective_vote s v + 1) →
  voted s m vote → voted (voted_state k att v n s) m vote.
Proof.
  intros Hok Hn Hn0 En (v' & m' & ? & ? & Hm' & ?). unfold voted.
  destruct (decide (v' = v)) as [->|Hne].
  - exists v, n. rewrite last_vote_voted_state, decide_True by done. split_and!; try done.
    unfold effective_vote in En. rewrite Hm' in En.
    assert (u64_ok m') as Hmok by (by eapply counter_ok_val; [apply (ok_votes _ Hok v)|]).
    destruct (decide (m' + 1 = two64)) as [Ew|Ew].
    + rewrite Ew in En. unfold u64 in En. by rewrite Z.mod_same in En.
    + rewrite u64_small in En; [lia|]. unfold u64_ok in *. lia.
  - exists v', m'. by rewrite last_vote_voted_state, decide_False.
Qed.

Lemma voted_state_counters k att v n s v' :
  oracle_ok s → u64_ok n →
  counter_ok (raw (voted_state k att v n s) !! LastObservedEventNonceKey) ∧
  counter_ok (raw (voted_state k att v n s) !! vote_key v').
Proof.
  intros Hok Hn. unfold voted_state. simpl. split.
  - rewrite lookup_insert_ne by apply vote_observed_key_ne. apply Hok.
  - destruct (decide (vote_key v' = vote_key v)) as [->|Hne].
    + rewrite lookup_insert_eq. by exists n.
    + rewrite lookup_insert_ne by done. apply Hok.
Qed.

(** The attestation a vote goes to, before the vote. *)
Lemma voted_att s claim any h att0 :
  let n := GetEventNonce claim in
  oracle_ok s → u64_ok n → n ≠ 0 → UnpackClaim any = Ok claim → ClaimHash claim = Ok h →
  (atts s !! GetAttestationKey n h = Some att0 ∨
   atts s !! GetAttestationKey n h = None ∧
   at_Votes att0 = [] ∧ at_Observed att0 = false ∧ at_Claim att0 = any) →
  ∃ c0, att_claim att0 c0 h ∧ GetEventNonce c0 = n ∧ NoDup (at_Votes att0) ∧
    Forall (voted s n) (at_Votes att0) ∧ (at_Observed att0 = true → n ≤ last_observed s).
Proof.
  intros n Hok Hn Hn0 Hany Hh [Ha|(Ha & Hvt & Ho & Hcl)].
  - destruct (ok_atts _ Hok _ _ Ha) as (c & h' & Hc & Ek & ? & ? & ?).
    apply attestation_key_inj in Ek as [E1 ->]; [|done|apply Hc]. exists c.
    rewrite <- E1 in *. by split_and!.
  - exists claim. rewrite Hvt, Ho. split_and!; try done; [split_and!; by rewrite ?Hcl|constructor].
Qed.

Lemma vote_stores s claim any v h att0 :
  let n := GetEventNonce claim in let k := GetAttestationKey n h in
  oracle_ok s → u64_ok n → n ≠ 0 → UnpackClaim any = Ok claim → ClaimHash claim = Ok h →
  VerifyAddressFormat v = Ok tt → n = u64 (effective_vote s v + 1) →
  (atts s !! k = Some att0 ∨
   atts s !! k = None ∧ at_Votes att0 = [] ∧ at_Observed att0 = false ∧ at_Claim att0 = any) →
  stores_att s (voted_state k att0 v n s) k (with_vote att0 v).
Proof.
  intros n k Hok Hn Hn0 Hany Hh Hv En Hatt.
  destruct (voted_att s claim any h att0) as (c0 & Hc0 & Hc0n & Hnd & Hvt & Hobs); [done..|].
  pose proof (λ vote, not_voted_yet s v n vote Hok Hv En Hn0) as Hnew.
  rewrite Forall_forall in Hvt. split.
  - done.
  - by apply (voted_state_counters k att0 v n s v).
  - intros v'. by apply (voted_state_counters k att0 v n s v').
  - intros m vote. by apply voted_voted_state.
  - by rewrite last_observed_voted_state.
  - exists c0, h. rewrite last_observed_voted_state, Hc0n. split_and!; [done|done|..|done|].
    + apply NoDup_app. split_and!; [done| |by apply NoDup_singleton].
      intros x Hx ->%list_elem_of_singleton. by apply (Hnew _ (Hvt _ Hx)).
    + apply Forall_app. split; [|repeat constructor].
      * apply Forall_forall. intros x Hx. apply voted_voted_state; auto.
      * exists v, n. by rewrite last_vote_voted_state, decide_True.
    + intros k2 a2 c2 h2 Hne Ha2 Hc2 En2.
      destruct (oracle_ok_claim s k2 a2 c2 h2) as (_ & _ & Hf & _); [done..|].
      rewrite En2, Forall_forall in Hf. split.
      * intros vote [Hin| ->%list_elem_of_singleton]%elem_of_app Hin2.
        -- destruct Hatt as [Ha|(_ & E & _)]; [|rewrite E in Hin; by apply not_elem_of_nil in Hin].
           by apply Hne, (ok_once _ Hok k2 a2 c2 h2 k att0 c0 h vote); rewrite ?Hc0n.
        -- by apply (Hnew _ (Hf _ Hin2)).
      * intros [Ho1 Ho2]. destruct Hatt as [Ha|(_ & _ & E & _)]; [|simpl in Ho1; congruence].
        by apply Hne, (ok_unique _ Hok k2 a2 c2 h2 k att0 c0 h); rewrite ?Hc0n.
Qed.

Lemma Attest_oracle_ok s s' claim any att :
  oracle_ok s → u64_ok (GetEventNonce claim) → GetEventNonce claim ≠ 0 →
  UnpackClaim any = Ok claim → Attest claim any s = Ret att s' → oracle_ok s'.
Proof.
  intros Hok Hn Hn0 Hany
    (v & h & att0 & _ & Hv & Hh & En & Hatt & _ & -> & ->)%Attest_inv; [|done].
  eapply oracle_ok_store; [done|]. by eapply vote_stores.
Qed.

(** A vote never goes twice to the same event: [Attest] accepts a claim only
    with the nonce that follows the validator's last one, and on a state where
    nobody has voted twice for an event nonce and every event nonce has at most
    one observed attestation, this stays so. *)
Theorem Attest_keeps_oracle_ok s s' claim any att :
  oracle_ok s → u64_ok (GetEventNonce claim) → GetEventNonce claim ≠ 0 →
  UnpackClaim any = Ok claim → Attest claim any s = Ret att s' → oracle_ok s'.
Proof. apply Attest_oracle_ok. Qed.
End Voting.

(** ** What a vote does *)

Section VoteSpec.
Context {W : Type} `{GethLaws} `{SdkLaws} `{HashingLaws} `{Codec} `{Staking W}.
Implicit Types s : State W.

Definition fresh_att s (claim : EthereumClaim) (any : Any) (comps : ClaimHashComponents) : Attestation :=
  mkAttestation false [] (u64 (st_height s)) any (GetType claim) (Some comps).

Lemma Attest_vote_prefix s claim v :
  votes_for s claim v → oracle_ok s →
  ∀ any, Attest claim any s =
  (_ ← guard_err (negb (GetEventNonce claim =? u64 (effective_vote s v + 1)))
        (ErrNonContiguousEventNonce (u64 (effective_vote s v + 1)) (GetEventNonce claim));
   hash ← of_res (ClaimHash claim);
   existing ← GetAttestation (GetEventNonce claim) hash;
   height ← BlockHeight;
   att ← match existing with
        | Some att => mret att
        | None =>
            components ← of_res (ExtractClaimHashComponents claim);
            mret (mkAttestation false [] height any (GetType claim) (Some components))
        end;
   match at_ClaimComponents att with
   | None => panic "attestation claim components should never be nil"
   | Some stored =>
      storedHash ← or_panic "could not compute hash from stored components"
                     (ComputeClaimHash (at_ClaimType att) stored);
      _ ← guard_err (bool_decide (storedHash ≠ hash)) ErrInvalid;
      incomingComponents ← or_panic "unable to extract incoming claim components for comparison"
                             (ExtractClaimHashComponents claim);
      _ ← guard_err (bool_decide (stored ≠ incomingComponents)) ErrInvalid;
      _ ← SetAttestation (GetEventNonce claim) hash (with_vote att v);
      _ ← SetLastEventNonceByValidator v (GetEventNonce claim);
      mret (with_vote att v)
   end) s.
Proof.
  intros (claimer & val & Hcl & Hval & Hop) Hok any. unfold Attest.
  pose proof (val_bech32_verified _ _ Hop) as Hv.
  rewrite (bind_ret _ _ s claimer s) by (by rewrite Hcl).
  rewrite (bind_ret _ _ s (Some val) s) by done.
  rewrite (bind_ret _ _ s val s) by done.
  rewrite (bind_ret _ _ s v s) by (by rewrite Hop).
  rewrite (bind_ret _ _ s tt s) by (by rewrite Hv).
  by rewrite (bind_ret _ _ _ _ _
    (GetLastEventNonceByValidator_eq s v Hv (ok_observed _ Hok) (ok_votes _ Hok v))).
Qed.

Lemma Attest_run s claim any v h comps :
  let n := GetEventNonce claim in let k := GetAttestationKey n h in
  oracle_ok s → votes_for s claim v → int_ok (claim_amount claim) →
  ExtractClaimHashComponents claim = Ok comps → ClaimHash claim = Ok h →
  (∀ att0, atts s !! k = Some att0 → ∃ st, at_ClaimComponents att0 = Some st ∧
     ComputeClaimHash (at_ClaimType att0) st = Ok h) →
  Attest claim any s =
  if negb (n =? u64 (effective_vote s v + 1))
  then Fail (ErrNonContiguousEventNonce (u64 (effective_vote s v + 1)) n) s
  else match atts s !! k with
       | None => Ret (with_vote (fresh_att s claim any comps) v)
                     (voted_state k (fresh_att s claim any comps) v n s)
       | Some att0 =>
           if decide (at_ClaimComponents att0 = Some comps)
           then Ret (with_vote att0 v) (voted_state k att0 v n s)
           else Fail ErrInvalid s
       end.
Proof.
  intros n k Hok Hvf Hint Hx Hh Hst. rewrite (Attest_vote_prefix s claim v) by done.
  assert (VerifyAddressFormat v = Ok tt) as Hv.
  { destruct Hvf as (? & ? & _ & _ & Hop). by eapply val_bech32_verified. }
  fold n. destruct (n =? u64 (effective_vote s v + 1)) eqn:En; [|done]. simpl negb.
  rewrite (bind_ret _ _ s tt s) by done. rewrite (bind_ret _ _ s h s) by (by rewrite Hh).
  rewrite (bind_ret _ _ s (atts s !! k) s) by done.
  rewrite (bind_ret _ _ s (u64 (st_height s)) s) by done.
  assert (∀ (att : Attestation), SetLastEventNonceByValidator v n (upd_kv (upd_attestations (insert k (with_vote att v))) s)
    = Ret tt (voted_state k att v n s)) as Hset.
  { intros att. unfold SetLastEventNonceByValidator. by rewrite Hv, vote_key_eq. }
  destruct (atts s !! k) as [att0|] eqn:Ea.
  - destruct (Hst _ eq_refl) as (st & Est & Ehash).
    rewrite (bind_ret _ _ s att0 s) by done. rewrite Est.
    rewrite (bind_ret _ _ s h s) by (by rewrite Ehash).
    rewrite (bind_ret _ _ s tt s) by (by rewrite bool_decide_false by tauto).
    rewrite (bind_ret _ _ s comps s) by (by rewrite Hx).
    case_decide as Ec.
    + injection Ec as ->. rewrite (bind_ret _ _ s tt s) by (by rewrite bool_decide_false by tauto).
      unfold mbind, M_bind, SetAttestation, modify. fold n k. by rewrite Hset.
    + rewrite bool_decide_true; [done|congruence].
  - rewrite (bind_ret _ _ s (fresh_att s claim any comps) s) by (by rewrite Hx).
    cbn [fresh_att at_ClaimComponents at_ClaimType].
    rewrite (bind_ret _ _ s h s) by (by rewrite ComputeClaimHash_Extract with (c := claim), Hh).
    rewrite (bind_ret _ _ s tt s) by (by rewrite bool_decide_false by tauto).
    rewrite (bind_ret _ _ s comps s) by (by rewrite Hx).
    rewrite (bind_ret _ _ s tt s) by (by rewrite bool_decide_false by tauto).
    unfold mbind, M_bind, SetAttestation, modify. fold n k.
    change (mkAttestation _ _ _ _ _ _) with (fresh_att s claim any comps). by rewrite Hset.
Qed.

(** C5. What [Attest] does, on every branch: an event nonce out of order is
    refused and nothing changes; the first vote for a claim stores a new
    attestation holding that vote; a later vote is appended to the stored
    attestation when the claim's contents are the stored ones; a claim that has
    the same hash but other contents is refused.  The validator's last event
    nonce moves to the claim's exactly when the vote is recorded. *)
Theorem Attest_spec s claim any v h comps :
  let n := GetEventNonce claim in let k := GetAttestationKey n h in
  oracle_ok s → votes_for s claim v → int_ok (claim_amount claim) →
  ExtractClaimHashComponents claim = Ok comps → ClaimHash claim = Ok h →
  (∀ att0, atts s !! k = Some att0 → ∃ st, at_ClaimComponents att0 = Some st ∧
     ComputeClaimHash (at_ClaimType att0) st = Ok h) →
  Attest claim any s =
  if negb (n =? u64 (effective_vote s v + 1))
  then Fail (ErrNonContiguousEventNonce (u64 (effective_vote s v + 1)) n) s
  else match atts s !! k with
       | None => Ret (with_vote (fresh_att s claim any comps) v)
                     (voted_state k (fresh_att s claim any comps) v n s)
       | Some att0 =>
           if decide (at_ClaimComponents att0 = Some comps)
           then Ret (with_vote att0 v) (voted_state k att0 v n s)
           else Fail ErrInvalid s
       end.
Proof. apply Attest_run. Qed.
End VoteSpec.
