(* ===== verification/OracleObserve.v ===== *)
(** * Correctness of observing

    When an attestation is observed, what observing it does, and what the end
    blocker's loops over the attestations ([attestationTally] and
    [pruneAttestations]) achieve.  The theorems are proved against the interface
    [HandlerFrame]: whatever the attestation handler does, it leaves the
    oracle's own state, the voting powers and the parameters alone. *)

From stdpp Require Import base gmap list strings sorting relations.
From S2P Require Import Prelude GoStd External Store Ethereum Keys OutgoingTx Valset Claims Keeper DelegateKeys Attestation OracleCorrect.

#[local] Open Scope Z_scope.

Section Power.
Context {W : Type} `{Geth} `{Sdk} `{Hashing} `{Codec} `{StakingLaws W} `{AttestationHandler W}.
Implicit Types s : State W.

(** The power behind one vote, behind all votes, and the power to exceed. *)
Definition vote_power s (vote : string) : Z :=
  match ValAddressFromBech32 vote with
  | Ok v => match GetLastValidatorPower (st_world s) v with Ok p => p | Er _ => 0 end
  | Er _ => 0
  end.

Definition votes_power s (att : Attestation) : Z := sumZ (vote_power s) (at_Votes att).

Definition required_power s : Z :=
  match GetLastTotalPower (st_world s) with
  | Ok t => Z.quot (AttestationVotesPowerThreshold * t) 100
  | Er _ => 0
  end.

(** The staking module answers, and the powers fit an [sdkmath.Int]. *)
Definition powers_ok s (att : Attestation) : Prop :=
  (∃ t, GetLastTotalPower (st_world s) = Ok t ∧ AttestationVotesPowerThreshold * t < 2 ^ 256) ∧
  Forall (λ vote, ∃ v p, ValAddressFromBech32 vote = Ok v ∧
    GetLastValidatorPower (st_world s) v = Ok p) (at_Votes att) ∧
  votes_power s att < 2 ^ 256.

Lemma vote_power_nonneg s vote : 0 ≤ vote_power s vote.
Proof.
  unfold vote_power. destruct (ValAddressFromBech32 vote) as [v|]; [|done].
  destruct (GetLastValidatorPower (st_world s) v) eqn:E; [|done]. by eapply last_power_nonneg.
Qed.

Lemma required_power_nonneg s : 0 ≤ required_power s.
Proof.
  unfold required_power. destruct (GetLastTotalPower (st_world s)) as [t|] eqn:E; [|done].
  apply last_total_nonneg in E. apply Z.quot_pos; unfold AttestationVotesPowerThreshold; lia.
Qed.

(** What [TryAttestation] does once the threshold is exceeded. *)
Definition observe (att : Attestation) (claim : EthereumClaim) (hash : bytes) : K W unit :=
  lastEventNonce ← GetLastObservedEventNonce;
  _ ← guard_panic (negb (GetEventNonce claim =? u64 (lastEventNonce + 1)))
        "attempting to apply events to state out of order";
  _ ← setLastObservedEventNonce (GetEventNonce claim);
  _ ← SetLastObservedEthereumBlockHeight (GetEthBlockHeight claim);
  _ ← SetAttestation (GetEventNonce claim) hash (observed att);
  _ ← processAttestation (observed att) claim;
  emitObservedEvent (observed att) claim.

(** The loop over the votes, from a power of [acc] so far. *)
Definition count_vote (att : Attestation) (claim : EthereumClaim) (hash : bytes) (requiredPower : Z)
    (validator : string) (attestationPower : Z) : K W (Z * bool) :=
  val ← or_panic "ValAddressFromBech32" (ValAddressFromBech32 validator);
  power ← gets (λ s, GetLastValidatorPower (st_world s) val);
  validatorPower ← or_panic "GetLastValidatorPower" power;
  attestationPower ← opt_panic "Int.Add" (Int_Add attestationPower validatorPower);
  if requiredPower <? attestationPower then
    lastEventNonce ← GetLastObservedEventNonce;
    _ ← guard_panic (negb (GetEventNonce claim =? u64 (lastEventNonce + 1)))
          "attempting to apply events to state out of order";
    _ ← setLastObservedEventNonce (GetEventNonce claim);
    _ ← SetLastObservedEthereumBlockHeight (GetEthBlockHeight claim);
    _ ← SetAttestation (GetEventNonce claim) hash (observed att);
    _ ← processAttestation (observed att) claim;
    _ ← emitObservedEvent (observed att) claim;
    mret (attestationPower, true)
  else mret (attestationPower, false).

Lemma count_vote_eq att claim h req vote acc s v p :
  ValAddressFromBech32 vote = Ok v → GetLastValidatorPower (st_world s) v = Ok p →
  0 ≤ acc + p < 2 ^ 256 →
  count_vote att claim h req vote acc s =
  if req <? acc + p then (_ ← observe att claim h; mret (acc + p, true)) s
  else Ret (acc + p, false) s.
Proof.
  intros Hv Hp Hr. unfold count_vote. rewrite (bind_ret _ _ s v s) by (by rewrite Hv).
  rewrite (bind_ret _ _ s (Ok p) s) by (unfold gets; by rewrite Hp).
  rewrite (bind_ret _ _ s p s) by done. rewrite Int_Add_ok by done.
  rewrite (bind_ret _ _ s (acc + p) s) by done. case_match; [|done].
  unfold observe, mbind, M_bind. by repeat (case_match; try done).
Qed.

Lemma count_votes_eq att claim h req votes acc s :
  Forall (λ vote, ∃ v p, ValAddressFromBech32 vote = Ok v ∧
    GetLastValidatorPower (st_world s) v = Ok p) votes →
  0 ≤ acc ≤ req → acc + sumZ (vote_power s) votes < 2 ^ 256 →
  (_ ← for_acc votes acc (count_vote att claim h req); mret tt) s =
  if req <? acc + sumZ (vote_power s) votes then observe att claim h s else Ret tt s.
Proof.
  intros Hvs. revert acc. induction Hvs as [|vote votes (v & p & Hv & Hp) Hvs IH]; intros acc Hacc Hlt.
  - simpl. destruct (Z.ltb_spec req (acc + 0)); [lia|done].
  - cbn [sumZ foldr] in *. fold (sumZ (vote_power s) votes) in *.
    assert (vote_power s vote = p) as Evp by (unfold vote_power; by rewrite Hv, Hp).
    assert (0 ≤ sumZ (vote_power s) votes) as Hs.
    { apply sumZ_nonneg, Forall_true. apply vote_power_nonneg. }
    pose proof (vote_power_nonneg s vote) as Hvp. rewrite Evp in *.
    cbn [for_acc]. rewrite <- bind_assoc. unfold mbind at 1, M_bind at 1.
    rewrite (count_vote_eq _ _ _ _ _ _ _ v p) by (done || lia).
    destruct (Z.ltb_spec req (acc + p)) as [Hgt|Hle].
    + destruct (Z.ltb_spec req (acc + (p + sumZ (vote_power s) votes))); [|lia].
      unfold mbind, M_bind. destruct (observe att claim h s) as [[] s'|e s'|m]; done.
    + rewrite Z.add_assoc. apply IH; lia.
Qed.

Lemma TryAttestation_eq s att c h :
  at_Observed att = false → UnpackClaim (at_Claim att) = Ok c → ClaimHash c = Ok h →
  powers_ok s att →
  TryAttestation att s =
  if required_power s <? votes_power s att then observe att c h s else Ret tt s.
Proof.
  intros Ho Hu Hh ((t & Ht & Hlt) & Hvs & Hsum). unfold TryAttestation, UnpackAttestationClaim.
  pose proof (last_total_nonneg _ _ Ht) as Ht0. pose proof (required_power_nonneg s) as Hreq.
  rewrite (bind_ret _ _ s c s) by (by rewrite Hu). rewrite (bind_ret _ _ s h s) by (by rewrite Hh).
  rewrite Ho. cbn [negb]. rewrite (bind_ret _ _ s (Ok t) s) by (unfold gets; by rewrite Ht).
  rewrite (bind_ret _ _ s t s) by done.
  rewrite (bind_ret _ _ s (AttestationVotesPowerThreshold * t) s).
  2:{ unfold Int_Mul. rewrite int_check_ok; [done|]. unfold int_ok, AttestationVotesPowerThreshold in *.
      rewrite Z.abs_eq; lia. }
  assert (Z.quot (AttestationVotesPowerThreshold * t) 100 = required_power s) as ->.
  { unfold required_power. by rewrite Ht. }
  cbv zeta. apply (count_votes_eq att c h (required_power s) (at_Votes att) 0 s); [done|lia|done].
Qed.

Lemma powers_ok_dec s att : powers_ok s att ∨ ¬ powers_ok s att.
Proof.
  unfold powers_ok.
  assert (∀ vote, (∃ v p, ValAddressFromBech32 vote = Ok v ∧ GetLastValidatorPower (st_world s) v = Ok p) ∨
    ¬ (∃ v p, ValAddressFromBech32 vote = Ok v ∧ GetLastValidatorPower (st_world s) v = Ok p)) as Hvote.
  { intros vote. destruct (ValAddressFromBech32 vote) as [v|]; [|right; naive_solver].
    destruct (GetLastValidatorPower (st_world s) v) as [p|] eqn:E; [left; eauto|right].
    intros (v' & p & [= <-] & E'). congruence. }
  destruct (GetLastTotalPower (st_world s)) as [t|]; [|right; naive_solver].
  destruct (Z.lt_ge_cases (AttestationVotesPowerThreshold * t) (2 ^ 256));
    [|right; intros [(t' & [= <-] & ?) _]; lia].
  destruct (Z.lt_ge_cases (votes_power s att) (2 ^ 256)); [|right; intros (_ & _ & ?); lia].
  assert (∀ l, Forall (λ vote, ∃ v p, ValAddressFromBech32 vote = Ok v ∧
    GetLastValidatorPower (st_world s) v = Ok p) l ∨ ¬ Forall (λ vote, ∃ v p, ValAddressFromBech32 vote = Ok v ∧
    GetLastValidatorPower (st_world s) v = Ok p) l) as Hall.
  { induction l as [|vote l IH]; [by left; constructor|]. rewrite Forall_cons.
    destruct (Hvote vote), IH; tauto. }
  destruct (Hall (at_Votes att)); [left; split_and!; eauto|right; tauto].
Qed.

(** The loop over any votes, whatever the staking module answers: it panics, or
    ends below the threshold, or observes. *)
Lemma count_votes_cases att claim h req votes acc s r :
  0 ≤ acc ≤ req →
  (_ ← for_acc votes acc (count_vote att claim h req); mret tt) s = r →
  (∃ msg, r = Panic msg) ∨
  (acc + sumZ (vote_power s) votes ≤ req ∧ r = Ret tt s) ∨
  (req < acc + sumZ (vote_power s) votes ∧ r = observe att claim h s).
Proof.
  revert acc. induction votes as [|vote votes IH]; intros acc Hacc.
  { intros <-. right; left. cbn. split; [lia|done]. }
  cbn [sumZ foldr]. fold (sumZ (vote_power s) votes).
  assert (0 ≤ sumZ (vote_power s) votes) as Hs.
  { apply sumZ_nonneg, Forall_true. apply vote_power_nonneg. }
  pose proof (vote_power_nonneg s vote) as Hvp. unfold vote_power in Hvp at 1.
  assert (vote_power s vote = match ValAddressFromBech32 vote with
    | Ok v => match GetLastValidatorPower (st_world s) v with Ok p => p | Er _ => 0 end
    | Er _ => 0 end) as Evp by done.
  cbn [for_acc]. rewrite <- bind_assoc. unfold mbind at 1, M_bind at 1.
  destruct (ValAddressFromBech32 vote) as [v|e] eqn:Ev.
  2:{ intros <-. left. exists "ValAddressFromBech32". unfold count_vote, mbind, M_bind. by rewrite Ev. }
  destruct (GetLastValidatorPower (st_world s) v) as [p|e] eqn:Ep.
  2:{ intros <-. left. exists "GetLastValidatorPower". unfold count_vote, mbind, M_bind. rewrite Ev. cbn.
      unfold gets. by rewrite Ep. }
  rewrite Evp. destruct (Z.lt_ge_cases (acc + p) (2 ^ 256)) as [Hlt|Hge].
  2:{ intros <-. left. exists "Int.Add". unfold count_vote, mbind, M_bind. rewrite Ev. cbn. unfold gets. rewrite Ep. cbn.
      unfold Int_Add. unfold int_check. replace (Z.abs (acc + p) <? 2 ^ 256) with false; [done|].
      symmetry. apply Z.ltb_ge. rewrite Z.abs_eq; lia. }
  rewrite (count_vote_eq _ _ _ _ _ _ _ v p) by (done || lia).
  destruct (Z.ltb_spec req (acc + p)) as [Hgt|Hle].
  - intros <-. right; right. split; [lia|]. unfold mbind, M_bind.
    destruct (observe att claim h s) as [[] s'|e s'|m]; done.
  - rewrite Z.add_assoc. apply IH. lia.
Qed.

Lemma TryAttestation_cases s att c h :
  at_Observed att = false → UnpackClaim (at_Claim att) = Ok c → ClaimHash c = Ok h →
  (votes_power s att ≤ required_power s ∧ TryAttestation att s = Ret tt s) ∨
  (required_power s < votes_power s att ∧ TryAttestation att s = observe att c h s) ∨
  (¬ powers_ok s att ∧ ∃ msg, TryAttestation att s = Panic msg).
Proof.
  intros Ho Hu Hh. destruct (powers_ok_dec s att) as [Hp|Hp].
  { rewrite (TryAttestation_eq s att c h) by done.
    destruct (Z.ltb_spec (required_power s) (votes_power s att)); tauto. }
  pose proof (required_power_nonneg s) as Hreq.
  unfold TryAttestation, UnpackAttestationClaim.
  rewrite (bind_ret _ _ s c s) by (by rewrite Hu). rewrite (bind_ret _ _ s h s) by (by rewrite Hh).
  rewrite Ho. cbn [negb]. rewrite (bind_ret _ _ s (GetLastTotalPower (st_world s)) s) by done.
  destruct (GetLastTotalPower (st_world s)) as [t|e] eqn:Et; [|right; right; split; [done|eauto]].
  rewrite (bind_ret _ _ s t s) by done.
  destruct (Int_Mul AttestationVotesPowerThreshold t) as [m|] eqn:Em;
    [|right; right; split; [done|by eauto]].
  rewrite (bind_ret _ _ s m s) by done.
  assert (Z.quot m 100 = required_power s) as ->.
  { unfold required_power. rewrite Et. unfold Int_Mul, int_check in Em. case_match; congruence. }
  cbv zeta.
  destruct (count_votes_cases att c h (required_power s) (at_Votes att) 0 s _ ltac:(lia) eq_refl)
    as [Hc|[Hc|Hc]].
  - right; right. by split.
  - left. exact Hc.
  - right; left. exact Hc.
Qed.
End Power.

(** ** Observing one attestation *)

(** What the oracle asks of a handler that returned. *)
Class HandlerFrame (W : Type) `{Staking W} `{AttestationHandler W} := {
  handle_frame att claim (s s' : State W) :
    Handle att claim s = Ret tt s' →
    oracle_same s s' ∧ kv_params (st_kv s') = kv_params (st_kv s);
}.

Section Observing.
Context {W : Type} `{Geth} `{SdkLaws} `{Hashing} `{Codec} `{StakingLaws W}.
Context `{AttestationHandler W} `{!HandlerFrame W}.
Implicit Types s : State W.

Definition eth_height s : Z :=
  EthereumBlockHeight (default (mkEthHeight 0 0) (kv_ethHeight (st_kv s))).

(** The state the handler starts from. *)
Definition observed_state (att : Attestation) (c : EthereumClaim) (h : bytes) s : State W :=
  upd_kv (upd_attestations (insert (GetAttestationKey (GetEventNonce c) h) (observed att)))
    (upd_kv (upd_ethHeight (λ _, Some (mkEthHeight (u64 (st_height s)) (GetEthBlockHeight c))))
      (upd_kv (upd_raw (insert LastObservedEventNonceKey (UInt64Bytes (GetEventNonce c)))) s)).

Definition observation (c : EthereumClaim) (h : bytes) s : Event :=
  EventObservation (GetType c) (bridge_hex (st_kv s)) (chain_id (st_kv s))
    (GetAttestationKey (GetEventNonce c) h) (GetEventNonce c).

(** The outcome of observing: the handler's writes are kept when it returns and
    dropped when it fails. *)
Definition after_handler (att : Attestation) (c : EthereumClaim) (h : bytes) s : outcome (State W) unit :=
  let s1 := observed_state att c h s in
  match Handle (observed att) c s1 with
  | Ret _ s2 => Ret tt (add_event (observation c h s) s2)
  | Fail _ _ => Ret tt (add_event (observation c h s) s1)
  | Panic msg => Panic msg
  end.

Lemma emitObservedEvent_eq s att c h :
  has_params s → ClaimHash c = Ok h →
  emitObservedEvent att c s = Ret tt (add_event (observation c h s) s).
Proof.
  intros Hp Hh. unfold emitObservedEvent. rewrite (bind_ret _ _ s h s) by (by rewrite Hh).
  destruct (bridge_event (λ bridge chain, emit (EventObservation (GetType c) (Hex (GetAddress bridge))
    chain (GetAttestationKey (GetEventNonce c) h) (GetEventNonce c))) s Hp) as (a & Ea & ->).
  unfold observation. by rewrite <- Ea.
Qed.

Lemma observation_params c h s s' :
  kv_params (st_kv s') = kv_params (st_kv s) → observation c h s' = observation c h s.
Proof. intros E. unfold observation, bridge_hex, chain_id. by rewrite E. Qed.

(** Observing in steps: the height may not go back, then the handler runs. *)
Lemma observe_steps s att c h :
  counter_ok (raw s !! LastObservedEventNonceKey) → ClaimHash c = Ok h →
  GetEventNonce c = last_observed s + 1 → u64_ok (GetEventNonce c) →
  observe att c h s =
  if GetEthBlockHeight c <? eth_height s then Panic "Attempt to roll back Ethereum block height!" else
  match Handle (observed att) c (observed_state att c h s) with
  | Ret _ s2 => emitObservedEvent (observed att) c s2
  | Fail _ _ => emitObservedEvent (observed att) c (observed_state att c h s)
  | Panic msg => Panic msg
  end.
Proof.
  intros Hcnt Hh Hn Hu. unfold observe.
  rewrite (bind_ret _ _ s (last_observed s) s) by (by apply GetLastObservedEventNonce_eq).
  rewrite <- Hn, u64_small, Z.eqb_refl by done. cbn [negb].
  rewrite (bind_ret _ _ s tt s) by done.
  rewrite (bind_ret _ _ s tt (upd_kv (upd_raw (insert LastObservedEventNonceKey (UInt64Bytes (GetEventNonce c)))) s)).
  2:{ unfold setLastObservedEventNonce.
      rewrite (bind_ret _ _ s (last_observed s) s) by (by apply GetLastObservedEventNonce_eq).
      cbv zeta. by replace (GetEventNonce c <=? last_observed s) with false by (symmetry; apply Z.leb_gt; lia). }
  set (s0 := upd_kv (upd_raw _) s).
  assert (SetLastObservedEthereumBlockHeight (GetEthBlockHeight c) s0 =
    if GetEthBlockHeight c <? eth_height s then Panic "Attempt to roll back Ethereum block height!"
    else Ret tt (upd_kv (upd_ethHeight (λ _, Some (mkEthHeight (u64 (st_height s)) (GetEthBlockHeight c)))) s0)) as Eh.
  { unfold SetLastObservedEthereumBlockHeight, GetLastObservedEthereumBlockHeight. mrun.
    change (EthereumBlockHeight (default (mkEthHeight 0 0) (kv_ethHeight (st_kv s0)))) with (eth_height s).
    by destruct (GetEthBlockHeight c <? eth_height s). }
  unfold mbind at 1, M_bind at 1. rewrite Eh.
  destruct (GetEthBlockHeight c <? eth_height s); [done|].
  rewrite (bind_ret _ _ _ tt (observed_state att c h s)) by done.
  unfold processAttestation, cached.
  unfold mbind at 1, M_bind at 1. rewrite (bind_ret _ _ _ h (observed_state att c h s)) by (by rewrite Hh).
  by destruct (Handle (observed att) c (observed_state att c h s)) as [[] s2|e s2|m].
Qed.

Lemma observe_eq s att c h :
  counter_ok (raw s !! LastObservedEventNonceKey) → has_params s → ClaimHash c = Ok h →
  GetEventNonce c = last_observed s + 1 → u64_ok (GetEventNonce c) →
  observe att c h s =
  if GetEthBlockHeight c <? eth_height s then Panic "Attempt to roll back Ethereum block height!"
  else after_handler att c h s.
Proof.
  intros Hcnt Hp Hh Hn Hu. rewrite observe_steps by done. case_match; [done|]. unfold after_handler.
  assert (has_params (observed_state att c h s)) as Hp1 by done.
  destruct (Handle (observed att) c (observed_state att c h s)) as [[] s2|e s2|m] eqn:Eh; [| |done].
  - apply handle_frame in Eh as [_ Ep].
    rewrite (emitObservedEvent_eq s2 (observed att) c h) by (unfold has_params in *; by rewrite ?Ep).
    by rewrite (observation_params c h s s2) by (by rewrite Ep).
  - by rewrite (emitObservedEvent_eq (observed_state att c h s) (observed att) c h).
Qed.

(** Announcing changes nothing but the events, whatever the parameters are. *)
Lemma emitObservedEvent_inv att c s :
  (∃ e, emitObservedEvent att c s = Ret tt (add_event e s)) ∨ ∃ msg, emitObservedEvent att c s = Panic msg.
Proof.
  unfold emitObservedEvent, GetBridgeContractAddress, GetBridgeChainID, GetParams, must, try, or_panic.
  unfold mbind, M_bind, gets, mret, M_ret. cbn.
  repeat (case_match; simplify_eq/=; eauto; try (left; eexists; reflexivity)).
Qed.

(** What is known of the oracle once observing has ended, whatever the parameters are. *)
Lemma observe_outcome s att c h :
  counter_ok (raw s !! LastObservedEventNonceKey) → ClaimHash c = Ok h →
  GetEventNonce c = last_observed s + 1 → u64_ok (GetEventNonce c) →
  (∃ s', observe att c h s = Ret tt s' ∧ oracle_same (observed_state att c h s) s' ∧
     kv_params (st_kv s') = kv_params (st_kv s)) ∨
  ∃ msg, observe att c h s = Panic msg.
Proof.
  intros Hcnt Hh Hn Hu. rewrite observe_steps by done. case_match; [by eauto|].
  assert (∀ s2, oracle_same (observed_state att c h s) s2 → kv_params (st_kv s2) = kv_params (st_kv s) →
    (∃ s', emitObservedEvent (observed att) c s2 = Ret tt s' ∧ oracle_same (observed_state att c h s) s' ∧
       kv_params (st_kv s') = kv_params (st_kv s)) ∨
    ∃ msg, emitObservedEvent (observed att) c s2 = Panic msg) as Hemit.
  { intros s2 Hsame Hp. destruct (emitObservedEvent_inv (observed att) c s2) as [[e ->]|?]; [left|by right].
    eexists. split; [done|]. by destruct Hsame. }
  destruct (Handle (observed att) c (observed_state att c h s)) as [[] s2|e s2|m] eqn:Eh; [| |by eauto].
  - apply handle_frame in Eh as [E Ep]. by apply Hemit.
  - by apply Hemit.
Qed.

Lemma TryAttestation_run s att c h :
  oracle_ok s → has_params s → powers_ok s att → at_Observed att = false → att_claim att c h →
  GetEventNonce c = last_observed s + 1 → eth_height s ≤ GetEthBlockHeight c →
  TryAttestation att s =
  if required_power s <? votes_power s att then after_handler att c h s else Ret tt s.
Proof.
  intros Hok Hp Hpow Ho (Hu & Hh & Hn & _) En Hht.
  rewrite (TryAttestation_eq s att c h) by done. case_match; [|done].
  rewrite observe_eq by (done || apply Hok).
  by replace (GetEthBlockHeight c <? eth_height s) with false by (symmetry; apply Z.ltb_ge; lia).
Qed.


(** The other two branches: an attestation that was observed before, and one
    that is not next in line but holds enough votes, stop the chain rather than
    being applied out of order. *)
Theorem TryAttestation_out_of_order s att c h :
  oracle_ok s → powers_ok s att → att_claim att c h →
  GetEventNonce c ≠ u64 (last_observed s + 1) →
  (at_Observed att = true → TryAttestation att s = Panic "attempting to process observed attestation") ∧
  (at_Observed att = false → required_power s < votes_power s att →
   TryAttestation att s = Panic "attempting to apply events to state out of order").
Proof.
  intros Hok Hpow (Hu & Hh & _) En. split.
  - intros Ho. unfold TryAttestation, UnpackAttestationClaim.
    rewrite (bind_ret _ _ s c s) by (by rewrite Hu). rewrite (bind_ret _ _ s h s) by (by rewrite Hh).
    by rewrite Ho.
  - intros Ho Hlt. rewrite (TryAttestation_eq s att c h) by done.
    apply Z.ltb_lt in Hlt as ->. unfold observe.
    rewrite (bind_ret _ _ s (last_observed s) s) by (apply GetLastObservedEventNonce_eq, Hok).
    by apply Z.eqb_neq in En as ->.
Qed.

(** Observing keeps the oracle's invariant. *)
Lemma last_observed_observed att c h s :
  u64_ok (GetEventNonce c) → last_observed (observed_state att c h s) = GetEventNonce c.
Proof.
  intros Hu. unfold last_observed, observed_state. simpl. rewrite lookup_insert_eq.
  by rewrite counter_val_some.
Qed.

Lemma last_vote_observed att c h s v :
  last_vote (observed_state att c h s) v = last_vote s v.
Proof.
  unfold last_vote, observed_state. simpl. rewrite lookup_insert_ne; [done|].
  intros E. by eapply vote_observed_key_ne.
Qed.

Lemma observed_stores s att c h :
  let k := GetAttestationKey (GetEventNonce c) h in
  oracle_ok s → atts s !! k = Some att → att_claim att c h →
  last_observed s < GetEventNonce c →
  stores_att s (observed_state att c h s) k (observed att).
Proof.
  intros k Hok Ha Hc Hlt. pose proof Hc as (_ & _ & Hu & _).
  destruct (oracle_ok_claim s k att c h) as (_ & Hnd & Hf & _); [done..|].
  assert (∀ n vote, voted s n vote → voted (observed_state att c h s) n vote) as Hmono.
  { intros n vote (v & m & ? & ? & ? & ?). exists v, m. by rewrite last_vote_observed. }
  split.
  - done.
  - simpl. rewrite lookup_insert_eq. by exists (GetEventNonce c).
  - intros v. simpl. rewrite lookup_insert_ne; [apply Hok|]. intros E. by eapply vote_observed_key_ne.
  - done.
  - rewrite last_observed_observed by done. lia.
  - exists c, h. rewrite last_observed_observed by done. split_and!; try done.
    + eapply Forall_impl; [exact Hf|auto].
    + intros k2 a2 c2 h2 Hne Ha2 Hc2 En. split.
      * intros vote Hin Hin2. by apply Hne, (ok_once _ Hok k2 a2 c2 h2 k att c h vote).
      * intros [_ Ho2]. destruct (oracle_ok_claim s k2 a2 c2 h2) as (_ & _ & _ & Hl); [done..|].
        specialize (Hl Ho2). lia.
Qed.

(** The oracle's part of the outcome. *)
Lemma after_handler_oracle s s' att c h :
  after_handler att c h s = Ret tt s' →
  oracle_same (observed_state att c h s) s' ∧ kv_params (st_kv s') = kv_params (st_kv s).
Proof.
  unfold after_handler. destruct (Handle (observed att) c (observed_state att c h s)) as [[] s2|e s2|m] eqn:Eh;
    intros [= <-]; [|done].
  apply handle_frame in Eh as [E Ep]. split; [by destruct E|exact Ep].
Qed.
End Observing.
