(* ===== verification/OracleTally.v ===== *)
(** * Correctness of the end blocker's loops over the attestations

    [attestationTally] observes everything that can be observed, in the order of
    the event nonces, and nothing else; [pruneAttestations] removes the
    attestations of events that are more than a thousand nonces old. *)

From stdpp Require Import base gmap list strings sorting relations.
From S2P Require Import Prelude GoStd External Store Ethereum Keys OutgoingTx Valset Claims Keeper DelegateKeys Attestation OracleCorrect OracleObserve.

#[local] Open Scope Z_scope.

(** ** The attestations by event nonce *)

Section Mapping.
Context {W : Type} `{Geth} `{Sdk} `{Hashing} `{Codec} `{Staking W}.
Implicit Types s : State W.

Definition nonce_of (att : Attestation) : Z :=
  match UnpackClaim (at_Claim att) with Ok c => GetEventNonce c | Er _ => 0 end.

Definition stored_atts s : list Attestation := (iter_asc (atts s) (prefixRange OracleAttestationKey)).*2.

Definition add_att (m : gmap Z (list Attestation)) (att : Attestation) : gmap Z (list Attestation) :=
  <[nonce_of att := default [] (m !! nonce_of att) ++ [att]]> m.

Lemma lookup_add_atts l m n :
  default [] (foldl add_att m l !! n) = default [] (m !! n) ++ filter (λ a, nonce_of a = n) l.
Proof.
  revert m. induction l as [|a l IH]; intros m; [by rewrite app_nil_r|].
  cbn [foldl]. rewrite IH, filter_cons. unfold add_att. case_decide as E.
  - subst n. rewrite lookup_insert_eq. cbn [default id]. by rewrite <- app_assoc.
  - by rewrite lookup_insert_ne.
Qed.

Lemma is_Some_add_atts l m n :
  is_Some (foldl add_att m l !! n) ↔ is_Some (m !! n) ∨ n ∈ nonce_of <$> l.
Proof.
  revert m. induction l as [|a l IH]; intros m.
  - cbn. rewrite elem_of_nil. tauto.
  - cbn [foldl fmap list_fmap]. rewrite IH, elem_of_cons. unfold add_att.
    rewrite lookup_insert_is_Some'. naive_solver.
Qed.

Lemma oracle_ok_stored s k att :
  oracle_ok s → atts s !! k = Some att →
  ∃ c h, att_claim att c h ∧ k = GetAttestationKey (GetEventNonce c) h ∧ nonce_of att = GetEventNonce c.
Proof.
  intros Hok Ha. destruct (ok_atts _ Hok _ _ Ha) as (c & h & Hc & Hk & _). exists c, h.
  split_and!; [done..|]. unfold nonce_of. by destruct Hc as [-> _].
Qed.

Lemma elem_of_stored s att :
  oracle_ok s → att ∈ stored_atts s ↔ ∃ k, atts s !! k = Some att.
Proof.
  intros Hok. unfold stored_atts. rewrite list_elem_of_fmap. split.
  - intros ([k a] & -> & [Ha _]%elem_of_iter_asc). by exists k.
  - intros [k Ha]. exists (k, att). split; [done|]. apply elem_of_iter_asc. split; [done|].
    destruct (oracle_ok_stored s k att Hok Ha) as (c & h & _ & -> & _).
    unfold GetAttestationKey, AppendBytes. cbn [concat].
    apply prefix_in_range; [done|]. by repeat constructor.
Qed.

(** The pairs the loops of the end blocker run over. *)
Definition by_nonce s : list (Z * Attestation) :=
  merge_sort Z.le (map_to_list (foldl add_att ∅ (stored_atts s))).*1 ≫=
    λ n, pair n <$> filter (λ a, nonce_of a = n) (stored_atts s).

Lemma GetAttestationMapping_eq s :
  oracle_ok s →
  GetAttestationMapping s = Ret (foldl add_att ∅ (stored_atts s),
    merge_sort Z.le (map_to_list (foldl add_att ∅ (stored_atts s))).*1) s.
Proof.
  intros Hok. unfold GetAttestationMapping, IterateAttestations, attestation_entries.
  assert (Forall (λ kv, ∃ c, UnpackClaim (at_Claim kv.2) = Ok c)
    (iter_asc (atts s) (prefixRange OracleAttestationKey))) as Hl.
  { apply Forall_forall. intros [k a] [Ha _]%elem_of_iter_asc.
    destruct (oracle_ok_stored s k a Hok Ha) as (c & h & (Hc & _) & _). by exists c. }
  match goal with |- (_ ← ?m; _) s = _ =>
    rewrite (bind_ret m _ s (foldl add_att ∅ (stored_atts s)) s) end; [done|].
  rewrite (bind_ret _ _ s (iter_asc (atts s) (prefixRange OracleAttestationKey)) s) by done.
  unfold stored_atts. generalize (∅ : gmap Z (list Attestation)).
  induction Hl as [|[k a] l [c Hc] Hl IH]; intros m; [done|].
  cbn [for_acc fmap list_fmap foldl fst snd]. simpl in Hc. unfold UnpackAttestationClaim in *.
  rewrite Hc. unfold mbind at 1, M_bind at 1. rewrite (bind_ret _ _ s c s) by done.
  unfold mret at 1, M_ret at 1. rewrite IH. unfold add_att at 3, nonce_of. by rewrite Hc.
Qed.

Lemma elem_of_by_nonce s n att :
  oracle_ok s → (n, att) ∈ by_nonce s ↔ n = nonce_of att ∧ ∃ k, atts s !! k = Some att.
Proof.
  intros Hok. unfold by_nonce. rewrite list_elem_of_bind. split.
  - intros (n' & (a & [= -> ->] & [E Ha]%list_elem_of_filter)%list_elem_of_fmap & _).
    split; [done|]. by apply elem_of_stored.
  - intros [-> Ha%elem_of_stored]; [|done]. exists (nonce_of att). split.
    + apply list_elem_of_fmap. exists att. split; [done|]. by apply list_elem_of_filter.
    + rewrite merge_sort_Permutation. apply list_elem_of_fmap.
      assert (is_Some (foldl add_att ∅ (stored_atts s) !! nonce_of att)) as [l Hl].
      { apply is_Some_add_atts. right. by apply list_elem_of_fmap_2. }
      exists (nonce_of att, l). split; [done|]. by apply elem_of_map_to_list.
Qed.

Lemma StronglySorted_bind_pairs {B} (l : list Z) (f : Z → list B) :
  StronglySorted Z.le l → StronglySorted (λ p q, p.1 ≤ q.1) (l ≫= λ x, pair x <$> f x).
Proof.
  induction 1 as [|x l Hl IH Hx]; [constructor|]. cbn [mbind list_bind].
  apply StronglySorted_app_2; [| |done].
  2:{ clear. induction (f x) as [|y ys IH]; cbn [fmap list_fmap]; constructor; [done|].
      apply Forall_fmap, Forall_true. intros z. simpl. lia. }
  intros [x1 y1] [x2 y2] (? & [= -> ->] & _)%list_elem_of_fmap
    (x3 & (? & [= -> ->] & _)%list_elem_of_fmap & Hin)%list_elem_of_bind.
  rewrite Forall_forall in Hx. simpl. by apply Hx.
Qed.

Lemma by_nonce_sorted s : StronglySorted (λ p q, p.1 ≤ q.1) (by_nonce s).
Proof. apply StronglySorted_bind_pairs, StronglySorted_merge_sort; apply _. Qed.
End Mapping.

(** ** The tally *)

Section Tally.
Context {W : Type} `{Geth} `{SdkLaws} `{Hashing} `{Codec} `{StakingLaws W}.
Context `{AttestationHandler W} `{!HandlerFrame W}.
Implicit Types s : State W.

(** An attestation that went from waiting to observed. *)
Definition newly_observed s s' (att att' : Attestation) : Prop :=
  ∃ c h, att_claim att c h ∧ at_Observed att = false ∧ att' = observed att ∧
    last_observed s < GetEventNonce c ≤ last_observed s' ∧ required_power s < votes_power s att.

(** What the tally did so far. *)
Record tallied s s' : Prop := {
  td_ok : oracle_ok s';
  td_params : kv_params (st_kv s') = kv_params (st_kv s);
  td_total : GetLastTotalPower (st_world s') = GetLastTotalPower (st_world s);
  td_power v : GetLastValidatorPower (st_world s') v = GetLastValidatorPower (st_world s) v;
  td_last : last_observed s ≤ last_observed s';
  (** attestations change only by being observed, with enough votes *)
  td_atts k : match atts s !! k with
              | Some att => atts s' !! k = Some att ∨
                  ∃ att', atts s' !! k = Some att' ∧ newly_observed s s' att att'
              | None => atts s' !! k = None
              end;
  (** no event is skipped *)
  td_each n : last_observed s < n ≤ last_observed s' →
    ∃ k att, atts s !! k = Some att ∧ nonce_of att = n ∧ atts s' !! k = Some (observed att) }.

Lemma tallied_refl s : oracle_ok s → tallied s s.
Proof.
  intros Hok. split; try done; [|lia].
  intros k. destruct (atts s !! k); [by left|done].
Qed.

Lemma votes_power_same s s' att :
  (∀ v, GetLastValidatorPower (st_world s') v = GetLastValidatorPower (st_world s) v) →
  votes_power s' att = votes_power s att.
Proof.
  intros E. apply sumZ_ext, Forall_true. intros vote. unfold vote_power. by repeat case_match; congruence.
Qed.

Lemma required_power_same s s' :
  GetLastTotalPower (st_world s') = GetLastTotalPower (st_world s) →
  required_power s' = required_power s.
Proof. intros E. unfold required_power. by rewrite E. Qed.

Lemma powers_ok_same s s' att :
  GetLastTotalPower (st_world s') = GetLastTotalPower (st_world s) →
  (∀ v, GetLastValidatorPower (st_world s') v = GetLastValidatorPower (st_world s) v) →
  powers_ok s att → powers_ok s' att.
Proof.
  intros Et Ev (Ht & Hv & Hp). unfold powers_ok. rewrite (votes_power_same s s') by done.
  rewrite Et. split_and!; [done| |done]. eapply Forall_impl; [exact Hv|].
  intros vote (v & p & ? & ?). exists v, p. by rewrite Ev.
Qed.

(** An attestation that is still ahead is unchanged. *)
Lemma tallied_ahead s s' k att :
  tallied s s' → atts s !! k = Some att → last_observed s' < nonce_of att →
  atts s' !! k = Some att.
Proof.
  intros Ht Ha Hlt. pose proof (td_atts _ _ Ht k) as Hk. rewrite Ha in Hk.
  destruct Hk as [Hk|(att' & _ & c & h & (Hc & _) & _ & _ & Hle & _)]; [done|].
  unfold nonce_of in Hlt. rewrite Hc in Hlt. lia.
Qed.

Lemma nonce_of_claim att c h : att_claim att c h → nonce_of att = GetEventNonce c.
Proof. intros (Hu & _). unfold nonce_of. by rewrite Hu. Qed.

Lemma tallied_observed s s1 s2 k att c h :
  oracle_ok s → tallied s s1 → atts s !! k = Some att → att_claim att c h →
  GetEventNonce c = last_observed s1 + 1 → required_power s < votes_power s att →
  oracle_same (observed_state att c h s1) s2 → kv_params (st_kv s2) = kv_params (st_kv s1) →
  tallied s s2.
Proof.
  intros Hok Ht Ha Hc En Hpow Hsame Hp. pose proof (nonce_of_claim att c h Hc) as Enc.
  pose proof Hc as (_ & _ & Hu & _). pose proof (td_last _ _ Ht) as Hl.
  destruct (oracle_ok_claim s k att c h) as (Ek & _ & _ & Hobs); [done..|].
  assert (atts s1 !! k = Some att) as Ha1 by (eapply tallied_ahead; [done..|lia]).
  assert (last_observed s2 = GetEventNonce c) as El.
  { rewrite (last_observed_same _ _ Hsame). by apply last_observed_observed. }
  assert (at_Observed att = false) as Ho.
  { destruct (at_Observed att); [|done]. specialize (Hobs eq_refl). lia. }
  assert (atts s2 = <[k := observed att]> (atts s1)) as Ea2.
  { rewrite (os_atts _ _ Hsame), Ek. done. }
  split.
  - eapply oracle_ok_same; [done|]. eapply oracle_ok_store; [apply Ht|]. rewrite Ek in *.
    apply observed_stores; [apply Ht|done..|lia].
  - rewrite Hp. apply Ht.
  - rewrite (os_total _ _ Hsame). apply Ht.
  - intros v. rewrite (os_power _ _ Hsame). apply Ht.
  - lia.
  - intros k1. rewrite Ea2. destruct (decide (k1 = k)) as [->|Hne].
    + rewrite Ha, lookup_insert_eq. right. exists (observed att). split; [done|].
      exists c, h. rewrite El. split_and!; (done || lia).
    + rewrite lookup_insert_ne by done. pose proof (td_atts _ _ Ht k1) as Hk.
      destruct (atts s !! k1) as [a1|]; [|done].
      destruct Hk as [Hk|(a' & Hk & c1 & h1 & ? & ? & ? & ? & ?)]; [by left|]. right.
      exists a'. split; [done|]. exists c1, h1. rewrite El. split_and!; (done || lia).
  - intros n. rewrite El, En. intros Hn. destruct (decide (n = last_observed s1 + 1)) as [->|Hne].
    + exists k, att. rewrite Ea2, lookup_insert_eq. split_and!; [done|lia|done].
    + destruct (td_each _ _ Ht n) as (k1 & a1 & Ha1' & En1 & Hk1); [lia|]. exists k1, a1.
      split_and!; [done..|]. rewrite Ea2, lookup_insert_ne; [done|]. intros ->.
      rewrite Ha in Ha1'. injection Ha1' as <-. lia.
Qed.

(** Why a tally stops the chain: the event that is next in line holds enough
    votes, and its height is below the last observed one or the handler panics on
    it; or the staking module does not answer about its votes. *)
Definition tally_stops s (msg : string) : Prop :=
  ∃ k att c h s1, atts s !! k = Some att ∧ att_claim att c h ∧ at_Observed att = false ∧
    tallied s s1 ∧ GetEventNonce c = last_observed s1 + 1 ∧
    (¬ powers_ok s att ∨
     required_power s < votes_power s att ∧
     (GetEthBlockHeight c < eth_height s1 ∧ msg = "Attempt to roll back Ethereum block height!" ∨
      Handle (observed att) c (observed_state att c h s1) = Panic msg)).

Lemma tally_step s s1 k att c h :
  oracle_ok s → tallied s s1 → atts s !! k = Some att →
  att_claim att c h → GetEventNonce c = last_observed s1 + 1 →
  (votes_power s att ≤ required_power s ∧ TryAttestation att s1 = Ret tt s1) ∨
  (∃ s2, TryAttestation att s1 = Ret tt s2 ∧ tallied s s2 ∧ last_observed s2 = GetEventNonce c) ∨
  ∃ msg, TryAttestation att s1 = Panic msg ∧ (has_params s → tally_stops s msg).
Proof.
  intros Hok Ht Ha Hc En. pose proof (td_last _ _ Ht) as Hl. pose proof Hc as (Hu & Hh & Hn & _).
  destruct (oracle_ok_claim s k att c h) as (_ & _ & _ & Hobs); [done..|].
  assert (at_Observed att = false) as Ho.
  { destruct (at_Observed att); [|done]. specialize (Hobs eq_refl). lia. }
  pose proof (ok_observed _ (td_ok _ _ Ht)) as Hcnt.
  destruct (TryAttestation_cases s1 att c h Ho Hu Hh) as [[Hle Hrun]|[[Hlt Hrun]|[Hpow [msg Hrun]]]];
    rewrite Hrun; rewrite ?(votes_power_same s s1), ?(required_power_same s s1) in * by apply Ht.
  - by left.
  - right. destruct (observe_outcome s1 att c h) as [(s2 & E & Hsame & Hp)|[msg E]]; [done..|left|right].
    + exists s2. split_and!; [done|by eapply tallied_observed|].
      rewrite (last_observed_same _ _ Hsame). by apply last_observed_observed.
    + exists msg. split; [done|]. intros Hpar.
      assert (has_params s1) as Hpar1 by (unfold has_params in *; by rewrite (td_params _ _ Ht)).
      exists k, att, c, h, s1. split_and!; try done. right. split; [done|].
      rewrite observe_eq in E by done. unfold after_handler in E.
      destruct (Z.ltb_spec (GetEthBlockHeight c) (eth_height s1)); [left; split; congruence|].
      right. destruct (Handle _ _ _); congruence.
  - right. right. exists msg. split; [done|]. intros _. exists k, att, c, h, s1. split_and!; try done.
    left. intros Hp. apply Hpow. by eapply powers_ok_same; [apply Ht..|].
Qed.

(** Among the attestations seen so far, none of the next event has enough votes. *)
Definition exhausted s s1 (seen : list (Z * Attestation)) : Prop :=
  ∀ n att, (n, att) ∈ seen → n = last_observed s1 + 1 → votes_power s att ≤ required_power s.

Definition tally_body (p : Z * Attestation) : K W unit :=
  last ← GetLastObservedEventNonce;
  if p.1 =? u64 (last + 1) then TryAttestation p.2 else mret tt.

Lemma last_observed_ok s : oracle_ok s → u64_ok (last_observed s).
Proof.
  intros Hok. pose proof (ok_observed _ Hok) as Hc. unfold last_observed.
  destruct (raw s !! LastObservedEventNonceKey) as [b|]; [|done].
  destruct Hc as (n & -> & Hn). by rewrite counter_val_some.
Qed.

(** The next nonce never wraps around to one that is in use. *)
Lemma next_nonce s n :
  oracle_ok s → u64_ok n → n ≠ 0 → n = u64 (last_observed s + 1) ↔ n = last_observed s + 1.
Proof.
  intros Hok Hn Hn0. apply last_observed_ok in Hok. split.
  - intros ->. apply u64_small. destruct (decide (last_observed s + 1 = two64)) as [E|E].
    + rewrite E in Hn0. by destruct Hn0.
    + unfold u64_ok in *. lia.
  - intros ->. by rewrite u64_small.
Qed.

Definition tally_inv s (rest : list (Z * Attestation)) s1 : Prop :=
  tallied s s1 ∧ ∀ seen, by_nonce s = seen ++ rest → exhausted s s1 seen.

Lemma exhausted_snoc s s1 seen n att :
  exhausted s s1 seen → (n = last_observed s1 + 1 → votes_power s att ≤ required_power s) →
  exhausted s s1 (seen ++ [(n, att)]).
Proof.
  intros Hex Hn n' a' [Hin|[= -> ->]%list_elem_of_singleton]%elem_of_app; [by apply Hex|done].
Qed.

Lemma tally_body_step s n att rest s1 :
  oracle_ok s → (n, att) :: rest `suffix_of` by_nonce s →
  tally_inv s ((n, att) :: rest) s1 →
  (∃ w s2, tally_body (n, att) s1 = Ret w s2 ∧ tally_inv s rest s2) ∨
  ∃ msg, tally_body (n, att) s1 = Panic msg ∧ (has_params s → tally_stops s msg).
Proof.
  intros Hok [seen Esuf] (Ht & Hex). unfold tally_inv.
  assert ((n, att) ∈ by_nonce s) as Hin by (rewrite Esuf; set_solver).
  apply elem_of_by_nonce in Hin as [-> [k Ha]]; [|done].
  destruct (oracle_ok_stored s k att Hok Ha) as (c & h & Hc & _ & En).
  assert (∀ seen', by_nonce s = seen' ++ rest → seen' = seen ++ [(nonce_of att, att)]) as Hseen.
  { intros seen'. rewrite Esuf. intros E. apply (app_inv_tail rest). by rewrite <- app_assoc. }
  specialize (Hex seen Esuf). unfold tally_body. cbn [fst snd].
  rewrite (bind_ret _ _ s1 (last_observed s1) s1)
    by (apply GetLastObservedEventNonce_eq, ok_observed, Ht).
  pose proof (next_nonce s1 (nonce_of att)) as Hnext. rewrite En in *.
  specialize (Hnext (td_ok _ _ Ht) ltac:(apply Hc) ltac:(apply Hc)).
  destruct (Z.eqb_spec (GetEventNonce c) (u64 (last_observed s1 + 1))) as [E|Hne].
  - apply Hnext in E.
    destruct (tally_step s s1 k att c h)
      as [[Hle ->]|[(s2 & -> & Ht2 & El)|(msg & -> & Hstop)]]; [done..| | |].
    + left. exists tt, s1. split; [done|]. split; [done|]. intros seen' ->%Hseen. by apply exhausted_snoc.
    + left. exists tt, s2. split; [done|]. split; [done|]. intros seen' ->%Hseen n' a' Hin' ->. exfalso.
      pose proof (by_nonce_sorted s) as Hs. rewrite Esuf in Hs.
      apply elem_of_app in Hin' as [Hin'|[= E']%list_elem_of_singleton]; [|lia].
      pose proof (StronglySorted_app_1_elem_of _ _ _ _ (GetEventNonce c, att) Hs Hin') as Hle.
      simpl in Hle. specialize (Hle ltac:(by left)). lia.
    + right. by exists msg.
  - left. exists tt, s1. split; [done|]. split; [done|]. intros seen' ->%Hseen. apply exhausted_snoc; [done|].
    intros E. by destruct Hne; apply Hnext.
Qed.

Lemma tally_loop s :
  oracle_ok s →
  (∃ u s', for_each (by_nonce s) tally_body s = Ret u s' ∧ tally_inv s [] s') ∨
  ∃ msg, for_each (by_nonce s) tally_body s = Panic msg ∧ (has_params s → tally_stops s msg).
Proof.
  intros Hok. apply (for_each_or_panic _ (λ msg, has_params s → tally_stops s msg)).
  - split; [by apply tallied_refl|].
    intros seen E. assert (seen = []) as ->.
    { apply (f_equal length) in E. rewrite length_app in E. apply length_zero_iff_nil. lia. }
    intros n a Hin. by apply not_elem_of_nil in Hin.
  - intros [n att] rest s1 Hsuf. by apply tally_body_step.
Qed.

(** The parameters are stored and say that the bridge is not paused. *)
Definition bridge_active s : bool :=
  match kv_params (st_kv s) with Some p => p_BridgeActive p | None => false end.

Lemma attestationTally_loop s :
  oracle_ok s →
  attestationTally s = if bridge_active s then for_each (by_nonce s) tally_body s else Ret tt s.
Proof.
  intros Hok. unfold attestationTally, bridge_active.
  destruct (kv_params (st_kv s)) as [p|] eqn:Hp.
  2:{ unfold RequireBridgeActive, GetParams. mrun. by rewrite Hp. }
  destruct (p_BridgeActive p) eqn:Hact.
  2:{ unfold RequireBridgeActive. mrun. by rewrite (GetParams_eq s p), Hact. }
  rewrite (bind_ret _ _ s (Ok tt) s).
  2:{ unfold RequireBridgeActive. mrun. by rewrite (GetParams_eq s p), Hact. }
  rewrite (bind_ret _ _ _ _ _ (GetAttestationMapping_eq s Hok)).
  rewrite (for_each_nested _ _ (λ nonce att, tally_body (nonce, att))).
  unfold by_nonce. f_equal. apply list_bind_ext; [|done]. intros n. by rewrite lookup_add_atts.
Qed.

(** Nothing is left that could be observed. *)
Definition nothing_left s : Prop :=
  ∀ k att, atts s !! k = Some att → nonce_of att = last_observed s + 1 →
    votes_power s att ≤ required_power s.

Lemma tally_inv_left s s' : oracle_ok s → tally_inv s [] s' → nothing_left s'.
Proof.
  intros Hok [Ht Hex] k att Ha En.
  rewrite (votes_power_same s s'), (required_power_same s s') by apply Ht.
  eapply (Hex (by_nonce s)); [by rewrite app_nil_r| |exact En].
  apply elem_of_by_nonce; [done|]. split; [done|]. exists k.
  pose proof (td_atts _ _ Ht k) as Hk. destruct (atts s !! k) as [a0|]; [|congruence].
  destruct Hk as [Hk|(a' & Hk & c & h & Hc & _ & -> & Hle & _)]; [congruence|].
  rewrite Hk in Ha. injection Ha as <-. unfold nonce_of in En. simpl in En.
  destruct Hc as [Hc _]. rewrite Hc in En. lia.
Qed.

Lemma attestationTally_run s :
  oracle_ok s →
  (bridge_active s = false ∧ attestationTally s = Ret tt s) ∨
  bridge_active s = true ∧
  ((∃ s', attestationTally s = Ret tt s' ∧ tallied s s' ∧ nothing_left s') ∨
   ∃ msg, attestationTally s = Panic msg ∧ (has_params s → tally_stops s msg)).
Proof.
  intros Hok. rewrite attestationTally_loop by done.
  destruct (bridge_active s); [right|by left]. split; [done|].
  destruct (tally_loop s Hok) as [([] & s' & E & Hinv)|Hp]; [left|by right].
  exists s'. split_and!; [done|apply Hinv|by eapply tally_inv_left].
Qed.

(** A tally that returned, whatever the staking module and the heights are. *)
Lemma attestationTally_tallied s s' u :
  oracle_ok s → attestationTally s = Ret u s' → tallied s s'.
Proof.
  intros Hok E. destruct (attestationTally_run s Hok) as [[_ E']|[_ [(s2 & E' & Ht & _)|(msg & E' & _)]]].
  - rewrite E in E'. injection E' as _ ->. by apply tallied_refl.
  - rewrite E in E'. by injection E' as _ ->.
  - congruence.
Qed.

(** C3. What a tally does, for any votes and heights, under valid parameters.
    While the bridge is paused [attestationTally] changes nothing.  Otherwise it
    returns, and then: the invariant of the votes holds; the last observed nonce
    has not gone back; an attestation has changed only by becoming observed, with
    more than 66% of the power behind its votes; every nonce up to the new last one
    has an observed attestation, so no event was skipped; and no attestation of the
    next event has enough votes, so nothing is left that could be observed.  Or it
    panics, and then on an attestation of the event that was next in line: the
    staking module did not answer about its votes (or their powers do not fit 256
    bits), or it had more than 66% of the power and either its Ethereum height was
    below the last observed one or the handler panicked on it. *)
Theorem attestationTally_spec s :
  oracle_ok s → has_params s →
  (bridge_active s = false ∧ attestationTally s = Ret tt s) ∨
  bridge_active s = true ∧
  ((∃ s', attestationTally s = Ret tt s' ∧ tallied s s' ∧ nothing_left s') ∨
   ∃ msg, attestationTally s = Panic msg ∧ tally_stops s msg).
Proof.
  intros Hok Hp. destruct (attestationTally_run s Hok) as [?|[? [?|(msg & ? & Hs)]]]; [by left|right..].
  - split; [done|]. by left.
  - split; [done|]. right. exists msg. split; [done|]. by apply Hs.
Qed.
End Tally.

(** ** Pruning *)

Section Prune.
Context {W : Type} `{Geth} `{Sdk} `{Hashing} `{Codec} `{Staking W}.
Implicit Types s : State W.

Definition set_atts (m : gmap bytes Attestation) s : State W := upd_kv (upd_attestations (λ _, m)) s.

(** Forgetting attestations is harmless. *)
Lemma oracle_ok_subset s m : oracle_ok s → m ⊆ atts s → oracle_ok (set_atts m s).
Proof.
  intros [Ho Hv Ha Hon Hu] Hm.
  assert (∀ k a, m !! k = Some a → atts s !! k = Some a) as Hsub by (intros; by eapply lookup_weaken).
  split.
  - done.
  - done.
  - intros k a E%Hsub%Ha. done.
  - intros k1 a1 c1 h1 k2 a2 c2 h2 vote E1%Hsub E2%Hsub. by apply Hon.
  - intros k1 a1 c1 h1 k2 a2 c2 h2 E1%Hsub E2%Hsub. by apply Hu.
Qed.

(** What is left once the pairs of [seen] have been visited. *)
Definition kept (cutoff : Z) (seen : list (Z * Attestation)) (kv : bytes * Attestation) : Prop :=
  cutoff ≤ nonce_of kv.2 ∨ (nonce_of kv.2, kv.2) ∉ seen.

#[local] Instance kept_dec cutoff seen kv : Decision (kept cutoff seen kv).
Proof. unfold kept. apply _. Defined.

Definition prune_body (cutoff : Z) (p : Z * Attestation) : K W unit :=
  if p.1 <? cutoff then DeleteAttestation p.2 else mret tt.

Lemma DeleteAttestation_eq s att c h :
  att_claim att c h →
  DeleteAttestation att s =
  Ret tt (upd_kv (upd_attestations (delete (GetAttestationKey (GetEventNonce c) h))) s).
Proof.
  intros (Hu & Hh & _). unfold DeleteAttestation, UnpackAttestationClaim.
  rewrite (bind_ret _ _ s c s) by (by rewrite Hu). by rewrite (bind_ret _ _ s h s) by (by rewrite Hh).
Qed.

(** Visiting one attestation removes it exactly when it is below the cutoff. *)
Lemma prune_step s cutoff n att seen :
  oracle_ok s → (n, att) ∈ by_nonce s →
  prune_body cutoff (n, att) (set_atts (filter (kept cutoff seen) (atts s)) s) =
  Ret tt (set_atts (filter (kept cutoff (seen ++ [(n, att)])) (atts s)) s).
Proof.
  intros Hok [-> [k Ha]]%elem_of_by_nonce; [|done].
  destruct (oracle_ok_stored s k att Hok Ha) as (c & h & Hc & Hk & En).
  unfold prune_body. cbn [fst snd].
  destruct (Z.ltb_spec (nonce_of att) cutoff) as [Hlt|Hge].
  - rewrite (DeleteAttestation_eq _ att c h) by done. rewrite <- Hk.
    unfold set_atts, upd_kv, upd_attestations. simpl. do 3 f_equal.
    apply map_eq. intros k'. apply option_eq. intros a'.
    rewrite lookup_delete_Some, !map_lookup_filter_Some. unfold kept. simpl.
    rewrite elem_of_app, list_elem_of_singleton. split.
    + intros (Hne & Ha' & Hkept). split; [done|]. destruct Hkept as [?|Hkept]; [by left|]. right.
      intros [?|[= _ ->]]; [done|]. destruct (oracle_ok_stored s k' att Hok Ha') as (c' & h' & Hc' & Hk' & _).
      destruct (att_claim_unique att c' h' c h Hc' Hc) as [-> ->]. congruence.
    + intros (Ha' & Hkept). split; [|naive_solver]. intros ->. rewrite Ha in Ha'. injection Ha' as <-.
      destruct Hkept as [?|Hkept]; [lia|]. apply Hkept. by right.
  - do 2 f_equal. apply map_filter_ext. intros k' a' _. unfold kept. simpl.
    rewrite elem_of_app, list_elem_of_singleton. split; [|naive_solver].
    intros [?|Hn]; [by left|]. destruct (decide (a' = att)) as [->|Hne]; [by left|]. right. naive_solver.
Qed.

Lemma prune_loop s cutoff seen rest :
  oracle_ok s → by_nonce s = seen ++ rest →
  for_each rest (prune_body cutoff) (set_atts (filter (kept cutoff seen) (atts s)) s) =
  Ret tt (set_atts (filter (kept cutoff (by_nonce s)) (atts s)) s).
Proof.
  intros Hok. revert seen. induction rest as [|[n att] rest IH]; intros seen E.
  - by rewrite E, app_nil_r.
  - cbn [for_each].
    rewrite (bind_ret _ _ _ tt (set_atts (filter (kept cutoff (seen ++ [(n, att)])) (atts s)) s)).
    + apply IH. by rewrite <- app_assoc.
    + apply prune_step; [done|]. rewrite E. set_solver.
Qed.

(** The attestations from the cutoff on. *)
Definition pruned s : State W :=
  if last_observed s <=? eventsToKeep then s else
  set_atts (filter (λ kv, last_observed s - eventsToKeep ≤ nonce_of kv.2) (atts s)) s.

Lemma pruned_start s cutoff : set_atts (filter (kept cutoff []) (atts s)) s = s.
Proof.
  replace (filter (kept cutoff []) (atts s)) with (atts s); [by destruct s as [[] ? ? ?]|].
  symmetry. apply map_filter_id. intros k a Ha. right. apply not_elem_of_nil.
Qed.

Lemma pruneAttestations_run s :
  oracle_ok s → pruneAttestations s = Ret tt (pruned s) ∧ oracle_ok (pruned s).
Proof.
  intros Hok. split.
  - unfold pruneAttestations, pruned.
    rewrite (bind_ret _ _ _ _ _ (GetAttestationMapping_eq s Hok)).
    rewrite (bind_ret _ _ s (last_observed s) s) by (apply GetLastObservedEventNonce_eq, Hok).
    case_match; [done|]. cbv zeta. set (cutoff := last_observed s - eventsToKeep).
    rewrite (for_each_nested _ _ (λ nonce att, prune_body cutoff (nonce, att))).
    trans (for_each (by_nonce s) (prune_body cutoff) s).
    { unfold by_nonce. f_equal. apply list_bind_ext; [|done]. intros n. by rewrite lookup_add_atts. }
    rewrite <- (pruned_start s cutoff) at 2. rewrite (prune_loop s cutoff []) by done.
    do 2 f_equal. apply map_filter_ext. intros k a Ha. unfold kept.
    assert ((nonce_of a, a) ∈ by_nonce s) by (apply elem_of_by_nonce; eauto). simpl. tauto.
  - unfold pruned. case_match; [done|]. apply oracle_ok_subset; [done|]. apply map_filter_subseteq.
Qed.

(** Pruning removes exactly the attestations whose event nonce is more than a
    thousand behind the last observed one, changes nothing else and keeps the
    invariant of the votes. *)
Theorem pruneAttestations_spec s :
  oracle_ok s → pruneAttestations s = Ret tt (pruned s) ∧ oracle_ok (pruned s).
Proof. apply pruneAttestations_run. Qed.
End Prune.
