(* ===== verification/Registry.v ===== *)
(** * The registry of bridged assets

    keeper/cosmos-originated.go and keeper/cosmos_bridgeable_tokens.go: the
    two-way index between Cosmos-originated denoms and their ERC20s, the set of
    remapped ERC20s, and the functions that decide where an asset comes from.
    The theorems show that the index stays a bijection that never collides with
    the Ethereum-originated denoms, and that classifying a denom and classifying
    its ERC20 agree. *)

From stdpp Require Import base gmap list strings.
From S2P Require Import Prelude GoStd External Store Ethereum Keys OutgoingTx Valset Claims Keeper.

#[local] Open Scope Z_scope.

Section Registry.
Context {W : Type} `{Geth} `{Sdk} `{Bank W}.

(** ** Bridgeable tokens (keeper/cosmos_bridgeable_tokens.go) *)

Definition SetCosmosBridgeableToken (metadata : Metadata) : K W unit :=
  modify (upd_kv (upd_bridgeable
    (insert (GetCosmosBridgeableTokenKey (md_Base metadata)) metadata))).

Definition GetCosmosBridgeableToken (denom : string) : K W (option Metadata) :=
  gets (λ s, kv_bridgeable (st_kv s) !! GetCosmosBridgeableTokenKey denom).

Definition DeleteCosmosBridgeableToken (denom : string) : K W unit :=
  modify (upd_kv (upd_bridgeable (delete (GetCosmosBridgeableTokenKey denom)))).

Definition GetAllCosmosBridgeableTokens : K W (list Metadata) :=
  gets (λ s, (iter_asc (kv_bridgeable (st_kv s)) (None, None)).*2).

Definition assertMetadataWhitelisted (denom : string) : K W Metadata :=
  allowed ← GetCosmosBridgeableToken denom;
  match allowed with
  | None => fail ErrInvalid
  | Some metadata =>
      bankMetadata ← gets (λ s, GetDenomMetaData (st_world s) denom);
      match bankMetadata with
      | None => fail ErrInvalid
      | Some bm => if decide (metadata = bm) then mret metadata else fail ErrInvalid
      end
  end.

(** ** Cosmos-originated assets (keeper/cosmos-originated.go) *)

Definition getCosmosOriginatedDenomForERC20 (tokenContract : EthAddress) : K W (option string) :=
  bz ← raw_get (GetERC20ToDenomKey tokenContract);
  mret (string_of_bytes <$> bz).

Definition getCosmosOriginatedERC20ForDenom (denom : string) : K W (option EthAddress) :=
  bz ← raw_get (GetDenomToERC20Key denom);
  match bz with
  | Some b =>
      ethAddr ← or_panic "discovered invalid ERC20 address" (NewEthAddressFromBytes b);
      mret (Some ethAddr)
  | None => mret None
  end.

Definition SetRemappedERC20 (tokenContract : EthAddress) : K W unit :=
  raw_set (GetRemappedERC20Key tokenContract) [1].

Definition IsRemappedERC20 (tokenContract : EthAddress) : K W bool :=
  raw_has (GetRemappedERC20Key tokenContract).

Definition validateCosmosOriginatedMapping (denom : string) (tokenContract : EthAddress)
    : K W unit :=
  _ ← guard_err (is_ok (GravityDenomToERC20 denom)) ErrInvalid;
  _ ← guard_err (is_ok (Gravity2DenomToERC20 denom)) ErrInvalid;
  _ ← guard_err (ContainsEthAddress denom) ErrInvalid;
  remapped ← IsRemappedERC20 tokenContract;
  guard_err remapped ErrInvalid.

Definition setCosmosOriginatedMapping (denom : string) (tokenContract : EthAddress) : K W unit :=
  _ ← validateCosmosOriginatedMapping denom tokenContract;
  existing ← getCosmosOriginatedERC20ForDenom denom;
  _ ← guard_err (bool_decide (is_Some existing)) ErrDuplicate;
  existingDenom ← getCosmosOriginatedDenomForERC20 tokenContract;
  _ ← guard_err (bool_decide (is_Some existingDenom)) ErrDuplicate;
  _ ← raw_set (GetDenomToERC20Key denom) (GetAddress tokenContract);
  raw_set (GetERC20ToDenomKey tokenContract) (bytes_of_string denom).

Definition DeleteCosmosOriginatedMapping (tokenContract : EthAddress) (denom : string)
    : K W unit :=
  _ ← raw_delete (GetDenomToERC20Key denom);
  raw_delete (GetERC20ToDenomKey tokenContract).

(** The callbacks get the denom and the token contract of each mapping, and thread
    a local variable [acc]. *)
Definition IterateCosmosOriginatedMappings {B} (acc : B)
    (cb : string → EthAddress → B → K W (B * bool)) : K W B :=
  entries ← gets (λ s, sub_entries DenomToERC20Key (kv_raw (st_kv s)));
  for_acc entries acc (λ kv acc,
    erc20 ← or_panic "discovered invalid EthAddress under cosmos-originated mapping key"
              (NewEthAddressFromBytes kv.2);
    cb (string_of_bytes kv.1) erc20 acc).

Definition IterateERC20ToDenom {B} (acc : B) (cb : bytes → string → string → B → K W (B * bool))
    : K W B :=
  entries ← gets (λ s, sub_entries ERC20ToDenomKey (kv_raw (st_kv s)));
  for_acc entries acc (λ kv acc,
    erc20 ← or_panic "Invalid ERC20 to Denom mapping in store!" (NewEthAddressFromBytes kv.1);
    cb kv.1 (Hex (GetAddress erc20)) (string_of_bytes kv.2) acc).

Definition IterateRemappedERC20s {B} (acc : B) (cb : EthAddress → B → K W (B * bool)) : K W B :=
  entries ← gets (λ s, sub_entries RemappedERC20Key (kv_raw (st_kv s)));
  for_acc entries acc (λ kv acc,
    addr ← or_panic "invalid EthAddress in RemappedERC20 store" (NewEthAddressFromBytes kv.1);
    cb addr acc).

(** [origin.AssertValid(); return &origin, nil] *)
Definition checked_origin (o : AssetOrigin) : K W AssetOrigin :=
  _ ← guard_panic (negb (AssertValid o)) "invalid AssetOrigin";
  mret o.

Definition classifyCosmosOriginated (denom : string) (tokenContract : EthAddress)
    : K W AssetOrigin :=
  _ ← guard_err (negb (is_ok (ValidateStrictDenom denom))) ErrInvalidDenom;
  reverseERC20 ← getCosmosOriginatedERC20ForDenom denom;
  _ ← guard_err (bool_decide (reverseERC20 ≠ Some tokenContract)) ErrInvalid;
  reverseDenom ← getCosmosOriginatedDenomForERC20 tokenContract;
  _ ← guard_err (bool_decide (reverseDenom ≠ Some denom)) ErrInvalid;
  remapped ← IsRemappedERC20 tokenContract;
  _ ← guard_err remapped ErrInvalid;
  checked_origin (mkAssetOrigin AssetOriginCosmos false denom (Some tokenContract)).

Definition classifyEthOriginated (denom : string) (tokenContract : EthAddress)
    (isRemapped : bool) : K W AssetOrigin :=
  meta ← gets (λ s, GetDenomMetaData (st_world s) denom);
  _ ← guard_err (bool_decide (is_Some meta)) ErrInvalid;
  let reparsed := if isRemapped then Gravity2DenomToERC20 denom else GravityDenomToERC20 denom in
  _ ← guard_err (match reparsed with
                 | Er _ => true
                 | Ok a => bool_decide (GetAddress a ≠ GetAddress tokenContract)
                 end) ErrInvalid;
  _ ← guard_err (negb (is_ok (ValidateStrictDenom denom))) ErrInvalidDenom;
  checked_origin (mkAssetOrigin AssetOriginEthereum isRemapped denom (Some tokenContract)).

Definition ClassifyERC20 (tokenContract : EthAddress) : K W AssetOrigin :=
  found ← getCosmosOriginatedDenomForERC20 tokenContract;
  match found with
  | Some denom => classifyCosmosOriginated denom tokenContract
  | None =>
      isRemapped ← IsRemappedERC20 tokenContract;
      let denom := if (isRemapped : bool) then Gravity2Denom tokenContract
                   else GravityDenom tokenContract in
      classifyEthOriginated denom tokenContract isRemapped
  end.

Definition ClassifyDenom (denom : string) : K W AssetOrigin :=
  match Gravity2DenomToERC20 denom with
  | Ok tc =>
      remapped ← IsRemappedERC20 tc;
      _ ← guard_err (negb remapped) ErrInvalid;
      classifyEthOriginated denom tc true
  | Er _ =>
    match GravityDenomToERC20 denom with
    | Ok tc =>
        remapped ← IsRemappedERC20 tc;
        _ ← guard_err remapped ErrInvalid;
        classifyEthOriginated denom tc false
    | Er _ =>
        found ← getCosmosOriginatedERC20ForDenom denom;
        match found with
        | Some tc => classifyCosmosOriginated denom tc
        | None => fail ErrInvalidDenom
        end
    end
  end.

Definition RewardToERC20Lookup (coin : Coin) : K W (option EthAddress * Z) :=
  _ ← guard_panic (negb (Coin_IsValid coin) || (Amount coin =? 0))
        "Bad validator set relaying reward!";
  origin ← must "Invalid Valset reward!" (ClassifyDenom (Denom coin));
  _ ← guard_panic (bool_decide (ao_Origin origin ≠ AssetOriginCosmos) &&
                   bool_decide (ao_Origin origin ≠ AssetOriginEthereum))
        "Invalid Valset reward!";
  mret (ao_ERC20 origin, Amount coin).
End Registry.

(** ** Methods that only read *)

Section RegistryReadonly.
Context {W : Type} `{Geth} `{Sdk} `{Bank W}.

Lemma readonly_denom_for_erc20 a : readonly (getCosmosOriginatedDenomForERC20 a : K W _).
Proof. unfold getCosmosOriginatedDenomForERC20. readonly. Qed.
Lemma readonly_erc20_for_denom d : readonly (getCosmosOriginatedERC20ForDenom d : K W _).
Proof. unfold getCosmosOriginatedERC20ForDenom. readonly. Qed.
Lemma readonly_IsRemappedERC20 a : readonly (IsRemappedERC20 a : K W _).
Proof. apply readonly_raw_has. Qed.
Lemma readonly_checked_origin o : readonly (checked_origin o : K W _).
Proof. unfold checked_origin. readonly. Qed.
#[local] Hint Resolve readonly_denom_for_erc20 readonly_erc20_for_denom readonly_IsRemappedERC20
  readonly_checked_origin : readonly.
Lemma readonly_classifyCosmosOriginated d a : readonly (classifyCosmosOriginated d a : K W _).
Proof. unfold classifyCosmosOriginated. readonly. Qed.
Lemma readonly_classifyEthOriginated d a r : readonly (classifyEthOriginated d a r : K W _).
Proof. unfold classifyEthOriginated. readonly. Qed.
#[local] Hint Resolve readonly_classifyCosmosOriginated readonly_classifyEthOriginated : readonly.
Lemma readonly_ClassifyERC20 a : readonly (ClassifyERC20 a : K W _).
Proof. unfold ClassifyERC20. readonly. Qed.
Lemma readonly_ClassifyDenom d : readonly (ClassifyDenom d : K W _).
Proof. unfold ClassifyDenom. readonly. Qed.
Lemma readonly_validateCosmosOriginatedMapping d a :
  readonly (validateCosmosOriginatedMapping d a : K W _).
Proof. unfold validateCosmosOriginatedMapping. readonly. Qed.
Lemma readonly_assertMetadataWhitelisted d : readonly (assertMetadataWhitelisted d : K W _).
Proof. unfold assertMetadataWhitelisted, GetCosmosBridgeableToken. readonly. Qed.
End RegistryReadonly.

#[export] Hint Resolve readonly_denom_for_erc20 readonly_erc20_for_denom
  readonly_IsRemappedERC20 readonly_ClassifyERC20 readonly_ClassifyDenom
  readonly_validateCosmosOriginatedMapping readonly_assertMetadataWhitelisted : readonly.

(** ** The registry invariant *)


(** Keys of different kinds differ in their 16-byte prefixes. *)
Ltac key_ne :=
  let E := fresh in intros E;
  unfold GetDenomToERC20Key, GetERC20ToDenomKey, GetRemappedERC20Key, AppendBytes in E;
  discriminate E.

(** A key that no entry of the registry has. *)
Definition not_registry_key (k : bytes) : Prop :=
  (∀ d, k ≠ GetDenomToERC20Key d) ∧ (∀ a, k ≠ GetERC20ToDenomKey a) ∧
  (∀ a, k ≠ GetRemappedERC20Key a).

Lemma counter_not_registry_key :
  not_registry_key KeyLastTXPoolID ∧ not_registry_key KeyLastOutgoingBatchID.
Proof. unfold not_registry_key. split_and!; intros ?; key_ne. Qed.

Lemma checkpoint_not_registry_key c : not_registry_key (GetPastEthSignatureCheckpointKey c).
Proof.
  unfold not_registry_key, GetPastEthSignatureCheckpointKey.
  split_and!; intros ?; key_ne.
Qed.

Lemma denom_key_inj d1 d2 : GetDenomToERC20Key d1 = GetDenomToERC20Key d2 → d1 = d2.
Proof.
  unfold GetDenomToERC20Key, AppendBytes. cbn [concat]. rewrite !app_nil_r.
  intros [_ E]%app_inj_1; [|done]. by apply bytes_of_string_inj.
Qed.

Lemma erc20_key_inj a1 a2 : GetERC20ToDenomKey a1 = GetERC20ToDenomKey a2 → a1 = a2.
Proof.
  unfold GetERC20ToDenomKey, AppendBytes. cbn [concat]. rewrite !app_nil_r.
  intros [_ E]%app_inj_1; [|done]. destruct a1, a2. simpl in E. by subst.
Qed.

Lemma remapped_key_inj a1 a2 : GetRemappedERC20Key a1 = GetRemappedERC20Key a2 → a1 = a2.
Proof.
  unfold GetRemappedERC20Key, AppendBytes. cbn [concat]. rewrite !app_nil_r.
  intros [_ E]%app_inj_1; [|done]. destruct a1, a2. simpl in E. by subst.
Qed.

Lemma denom_erc20_key_ne d a : GetDenomToERC20Key d ≠ GetERC20ToDenomKey a.
Proof. key_ne. Qed.
Lemma denom_remapped_key_ne d a : GetDenomToERC20Key d ≠ GetRemappedERC20Key a.
Proof. key_ne. Qed.
Lemma erc20_remapped_key_ne a b : GetERC20ToDenomKey a ≠ GetRemappedERC20Key b.
Proof. key_ne. Qed.

Section RegistryInvariant.
Context `{Geth}.

(** A denom that may be registered as Cosmos-originated. *)
Definition denom_ok (d : string) : Prop :=
  is_ok (GravityDenomToERC20 d) = false ∧ is_ok (Gravity2DenomToERC20 d) = false ∧
  ContainsEthAddress d = false.

(** The two directions of the index are inverse of each other, every registered
    denom is legal and no registered ERC20 is remapped. *)
Record reg_ok (m : gmap bytes bytes) : Prop := {
  reg_denom d b : m !! GetDenomToERC20Key d = Some b →
    denom_ok d ∧ ∃ a, eth_ok a ∧ b = GetAddress a ∧
    m !! GetERC20ToDenomKey a = Some (bytes_of_string d);
  reg_erc20 a b : m !! GetERC20ToDenomKey a = Some b →
    eth_ok a ∧ ∃ d, b = bytes_of_string d ∧ m !! GetDenomToERC20Key d = Some (GetAddress a);
  reg_remapped a : is_Some (m !! GetRemappedERC20Key a) →
    m !! GetERC20ToDenomKey a = None }.

(** The map after a registration. *)
Definition registered (d : string) (a : EthAddress) (m : gmap bytes bytes) : gmap bytes bytes :=
  <[GetERC20ToDenomKey a := bytes_of_string d]> (<[GetDenomToERC20Key d := GetAddress a]> m).

Definition unregistered (d : string) (a : EthAddress) (m : gmap bytes bytes) : gmap bytes bytes :=
  delete (GetERC20ToDenomKey a) (delete (GetDenomToERC20Key d) m).

Lemma lookup_registered_denom d a m d' :
  registered d a m !! GetDenomToERC20Key d' =
  if decide (d' = d) then Some (GetAddress a) else m !! GetDenomToERC20Key d'.
Proof.
  unfold registered. rewrite lookup_insert_ne by (intros E; by apply (denom_erc20_key_ne d' a)).
  case_decide; [subst; by rewrite lookup_insert_eq|].
  rewrite lookup_insert_ne; [done|]. intros E%denom_key_inj. congruence.
Qed.

Lemma lookup_registered_erc20 d a m a' :
  registered d a m !! GetERC20ToDenomKey a' =
  if decide (a' = a) then Some (bytes_of_string d) else m !! GetERC20ToDenomKey a'.
Proof.
  unfold registered. case_decide; [subst; by rewrite lookup_insert_eq|].
  rewrite lookup_insert_ne by (intros E%erc20_key_inj; congruence).
  by rewrite lookup_insert_ne by apply denom_erc20_key_ne.
Qed.

Lemma lookup_registered_remapped d a m a' :
  registered d a m !! GetRemappedERC20Key a' = m !! GetRemappedERC20Key a'.
Proof.
  unfold registered. rewrite lookup_insert_ne by apply erc20_remapped_key_ne.
  by rewrite lookup_insert_ne by apply denom_remapped_key_ne.
Qed.

Lemma lookup_unregistered_denom d a m d' :
  unregistered d a m !! GetDenomToERC20Key d' =
  if decide (d' = d) then None else m !! GetDenomToERC20Key d'.
Proof.
  unfold unregistered. rewrite lookup_delete_ne by (intros E; by apply (denom_erc20_key_ne d' a)).
  case_decide; [subst; by rewrite lookup_delete_eq|].
  rewrite lookup_delete_ne; [done|]. intros E%denom_key_inj. congruence.
Qed.

Lemma lookup_unregistered_erc20 d a m a' :
  unregistered d a m !! GetERC20ToDenomKey a' =
  if decide (a' = a) then None else m !! GetERC20ToDenomKey a'.
Proof.
  unfold unregistered. case_decide; [subst; by rewrite lookup_delete_eq|].
  rewrite lookup_delete_ne by (intros E%erc20_key_inj; congruence).
  by rewrite lookup_delete_ne by apply denom_erc20_key_ne.
Qed.

Lemma lookup_unregistered_remapped d a m a' :
  unregistered d a m !! GetRemappedERC20Key a' = m !! GetRemappedERC20Key a'.
Proof.
  unfold unregistered. rewrite lookup_delete_ne by apply erc20_remapped_key_ne.
  by rewrite lookup_delete_ne by apply denom_remapped_key_ne.
Qed.

Lemma registered_ok d a m :
  reg_ok m → denom_ok d → eth_ok a → m !! GetRemappedERC20Key a = None →
  m !! GetDenomToERC20Key d = None → m !! GetERC20ToDenomKey a = None →
  reg_ok (registered d a m).
Proof.
  intros [Hd He Hr] Hdok Ha Hnr Hnd Hna. split.
  - intros d' b. rewrite lookup_registered_denom. case_decide as Ed.
    + intros [= <-]. subst. split; [done|]. exists a. rewrite lookup_registered_erc20.
      by rewrite decide_True.
    + intros (Hok & a' & Ha' & -> & Hl)%Hd. split; [done|]. exists a'.
      rewrite lookup_registered_erc20, decide_False; [done|]. intros ->. congruence.
  - intros a' b. rewrite lookup_registered_erc20. case_decide as Ea.
    + intros [= <-]. subst. split; [done|]. exists d. rewrite lookup_registered_denom.
      by rewrite decide_True.
    + intros (Ha' & d' & -> & Hl)%He. split; [done|]. exists d'.
      rewrite lookup_registered_denom, decide_False; [done|]. intros ->. congruence.
  - intros a'. rewrite lookup_registered_remapped, lookup_registered_erc20.
    intros Hs. rewrite decide_False; [by apply Hr|]. intros ->. destruct Hs. congruence.
Qed.

Lemma unregistered_ok d a m :
  reg_ok m → m !! GetDenomToERC20Key d = Some (GetAddress a) → reg_ok (unregistered d a m).
Proof.
  intros [Hd He Hr] Hda. split.
  - intros d' b. rewrite lookup_unregistered_denom. case_decide as Ed; [done|].
    intros (Hok & a' & Ha' & -> & Hl)%Hd. split; [done|]. exists a'.
    rewrite lookup_unregistered_erc20, decide_False; [done|]. intros ->.
    apply Hd in Hda as (_ & a2 & _ & E & Hl2). destruct a, a2. simpl in E. subst.
    rewrite Hl in Hl2. apply Ed. apply bytes_of_string_inj. congruence.
  - intros a' b. rewrite lookup_unregistered_erc20. case_decide as Ea; [done|].
    intros (Ha' & d' & -> & Hl)%He. split; [done|]. exists d'.
    rewrite lookup_unregistered_denom, decide_False; [done|]. intros ->.
    rewrite Hda in Hl. apply Ea. destruct a, a'. simpl in *. congruence.
  - intros a'. rewrite lookup_unregistered_remapped, lookup_unregistered_erc20.
    intros Hs. case_decide; [done|]. by apply Hr.
Qed.
(** Writes under other keys do not touch the registry. *)
Definition reg_same (m m' : gmap bytes bytes) : Prop :=
  (∀ d, m' !! GetDenomToERC20Key d = m !! GetDenomToERC20Key d) ∧
  (∀ a, m' !! GetERC20ToDenomKey a = m !! GetERC20ToDenomKey a) ∧
  (∀ a, m' !! GetRemappedERC20Key a = m !! GetRemappedERC20Key a).

Lemma reg_same_refl m : reg_same m m.
Proof. done. Qed.

Lemma reg_same_trans m1 m2 m3 : reg_same m1 m2 → reg_same m2 m3 → reg_same m1 m3.
Proof. intros (H1' & H2' & H3') (G1 & G2 & G3). split_and!; intros; by rewrite ?G1, ?G2, ?G3. Qed.

Lemma reg_same_insert k v m : not_registry_key k → reg_same m (<[k:=v]> m).
Proof. intros (H1' & H2' & H3'). split_and!; intros; by rewrite lookup_insert_ne. Qed.

Lemma reg_same_ok m m' : reg_same m m' → reg_ok m → reg_ok m'.
Proof.
  intros (H1' & H2' & H3') [Hd He Hr]. split.
  - intros d b. rewrite H1'. intros (? & a & ? & ? & ?)%Hd. split; [done|]. exists a. by rewrite H2'.
  - intros a b. rewrite H2'. intros (? & d & ? & ?)%He. split; [done|]. exists d. by rewrite H1'.
  - intros a. rewrite H3', H2'. apply Hr.
Qed.
End RegistryInvariant.

(** ** Methods on a well-formed registry *)

Section RegistryMethods.
Context {W : Type} `{GethLaws} `{Sdk} `{Bank W}.
Implicit Types s : State W.

Lemma denom_for_erc20_eq s a :
  getCosmosOriginatedDenomForERC20 a s =
  Ret (string_of_bytes <$> raw s !! GetERC20ToDenomKey a) s.
Proof. done. Qed.

Lemma IsRemappedERC20_eq s a :
  IsRemappedERC20 a s = Ret (bool_decide (is_Some (raw s !! GetRemappedERC20Key a))) s.
Proof. done. Qed.

Lemma erc20_for_denom_eq s d :
  reg_ok (raw s) →
  getCosmosOriginatedERC20ForDenom d s =
  Ret (mkEthAddress <$> raw s !! GetDenomToERC20Key d) s.
Proof.
  intros Hok. unfold getCosmosOriginatedERC20ForDenom.
  rewrite (bind_ret _ _ _ (raw s !! GetDenomToERC20Key d) s) by done.
  destruct (raw s !! GetDenomToERC20Key d) as [b|] eqn:E; [|done].
  apply (reg_denom _ Hok) in E as (_ & [a] & Ha & -> & _). simpl.
  by rewrite NewEthAddressFromBytes_ok.
Qed.

Lemma setCosmosOriginatedMapping_run s d a :
  reg_ok (raw s) →
  setCosmosOriginatedMapping d a s =
  if is_ok (GravityDenomToERC20 d) || is_ok (Gravity2DenomToERC20 d) || ContainsEthAddress d ||
     bool_decide (is_Some (raw s !! GetRemappedERC20Key a))
  then Fail ErrInvalid s
  else if bool_decide (is_Some (raw s !! GetDenomToERC20Key d)) ||
          bool_decide (is_Some (raw s !! GetERC20ToDenomKey a))
  then Fail ErrDuplicate s
  else Ret tt (upd_kv (upd_raw (registered d a)) s).
Proof.
  intros Hok. unfold setCosmosOriginatedMapping, validateCosmosOriginatedMapping.
  destruct (is_ok (GravityDenomToERC20 d)); [done|].
  destruct (is_ok (Gravity2DenomToERC20 d)); [done|].
  destruct (ContainsEthAddress d); [done|].
  mrun. rewrite IsRemappedERC20_eq. mrun.
  destruct (bool_decide (is_Some (raw s !! GetRemappedERC20Key a))); [done|]. simpl.
  rewrite erc20_for_denom_eq by done.
  destruct (raw s !! GetDenomToERC20Key d); [done|]. simpl.
  by destruct (raw s !! GetERC20ToDenomKey a).
Qed.

(** [setCosmosOriginatedMapping] on every branch: on a well-formed index it
    never panics; it refuses a denom that parses as, or embeds, an
    Ethereum-originated denom and an ERC20 that is remapped, it refuses a denom
    or an ERC20 that is already registered, and otherwise it writes the pair in
    both directions and nothing else. *)
Theorem setCosmosOriginatedMapping_spec s d a :
  reg_ok (raw s) →
  setCosmosOriginatedMapping d a s =
  if is_ok (GravityDenomToERC20 d) || is_ok (Gravity2DenomToERC20 d) || ContainsEthAddress d ||
     bool_decide (is_Some (raw s !! GetRemappedERC20Key a))
  then Fail ErrInvalid s
  else if bool_decide (is_Some (raw s !! GetDenomToERC20Key d)) ||
          bool_decide (is_Some (raw s !! GetERC20ToDenomKey a))
  then Fail ErrDuplicate s
  else Ret tt (upd_kv (upd_raw (registered d a)) s).
Proof. apply setCosmosOriginatedMapping_run. Qed.

(** The index of Cosmos-originated assets stays a bijection between legal
    denoms and ERC20s that are not remapped, whatever is registered. *)
Theorem setCosmosOriginatedMapping_keeps_registry s s' d a u :
  reg_ok (raw s) → eth_ok a → setCosmosOriginatedMapping d a s = Ret u s' →
  reg_ok (raw s') ∧
  getCosmosOriginatedERC20ForDenom d s' = Ret (Some a) s' ∧
  getCosmosOriginatedDenomForERC20 a s' = Ret (Some d) s'.
Proof.
  intros Hok Ha. rewrite setCosmosOriginatedMapping_run by done.
  repeat case_match; try done. intros [= _ <-].
  repeat match goal with H : _ || _ = false |- _ => apply orb_false_iff in H as [? ?] end.
  zbool. assert (reg_ok (raw (upd_kv (upd_raw (registered d a)) s))) as Hok'.
  { apply registered_ok; [done|by repeat split|done|by apply eq_None_not_Some..]. }
  split; [done|]. rewrite erc20_for_denom_eq by done.
  rewrite denom_for_erc20_eq. simpl.
  rewrite lookup_registered_denom, lookup_registered_erc20, !decide_True by done.
  simpl. rewrite string_of_bytes_of_string. by destruct a.
Qed.

(** Deleting a registered pair removes both directions and keeps the rest
    of the index a bijection. *)
Theorem DeleteCosmosOriginatedMapping_keeps_registry s d a :
  reg_ok (raw s) → raw s !! GetDenomToERC20Key d = Some (GetAddress a) →
  ∃ s', DeleteCosmosOriginatedMapping a d s = Ret tt s' ∧ reg_ok (raw s') ∧
    raw s' !! GetDenomToERC20Key d = None ∧ raw s' !! GetERC20ToDenomKey a = None.
Proof.
  intros Hok Hl. exists (upd_kv (upd_raw (unregistered d a)) s).
  split_and!; [done|by apply unregistered_ok|..]; simpl.
  - by rewrite lookup_unregistered_denom, decide_True.
  - by rewrite lookup_unregistered_erc20, decide_True.
Qed.
End RegistryMethods.

(** ** Classification *)

Section Classification.
Context {W : Type} `{GethLaws} `{Sdk} `{Bank W}.
Implicit Types s : State W.

Lemma ValidateStrictDenom_nonempty d : ValidateStrictDenom d = Ok tt → d ≠ "".
Proof. by intros E ->. Qed.

Lemma classifyCosmosOriginated_eq s d a :
  reg_ok (raw s) →
  classifyCosmosOriginated d a s =
  if negb (is_ok (ValidateStrictDenom d)) then Fail ErrInvalidDenom s
  else if decide (raw s !! GetDenomToERC20Key d = Some (GetAddress a))
  then Ret (mkAssetOrigin AssetOriginCosmos false d (Some a)) s
  else Fail ErrInvalid s.
Proof.
  intros Hok. unfold classifyCosmosOriginated.
  destruct (ValidateStrictDenom d) as [[]|] eqn:Hv; [|done]. cbn [is_ok negb]. mrun.
  rewrite erc20_for_denom_eq by done. cbv beta iota. case_decide as Hd.
  - rewrite Hd. apply (reg_denom _ Hok) in Hd as (_ & a' & _ & E & He).
    destruct a as [a], a' as [a']. simpl in E. subst a'.
    rewrite bool_decide_false by (intros []; done). cbv beta iota. rewrite denom_for_erc20_eq, He. cbn.
    rewrite string_of_bytes_of_string, bool_decide_false by (intros []; done).
    rewrite bool_decide_false.
    2:{ intros Hr%(reg_remapped _ Hok). congruence. }
    unfold checked_origin, AssertValid. simpl. apply ValidateStrictDenom_nonempty in Hv.
    by rewrite (bool_decide_false (d = "")).
  - rewrite bool_decide_true; [done|]. intros E. apply Hd.
    destruct (raw s !! GetDenomToERC20Key d); [|done]. simpl in E. injection E as <-. done.
Qed.

(** The parser of the namespace an Ethereum-originated denom belongs to, and the
    canonical denom of an ERC20 there. *)
Definition namespace_parse (isRemapped : bool) (d : string) : res EthAddress :=
  if isRemapped then Gravity2DenomToERC20 d else GravityDenomToERC20 d.
Definition namespace_denom (isRemapped : bool) (a : EthAddress) : string :=
  if isRemapped then Gravity2Denom a else GravityDenom a.

Lemma namespace_roundtrip r a : eth_ok a → namespace_parse r (namespace_denom r a) = Ok a.
Proof. destruct r; [apply Gravity2Denom_roundtrip|apply GravityDenom_roundtrip]. Qed.

Lemma namespace_parse_ok r d a : namespace_parse r d = Ok a → eth_ok a.
Proof.
  destruct r; simpl; [intros (t & _ & _ & Hd & Hl)%Gravity2DenomToERC20_iff
                     |intros (t & _ & _ & Hd & Hl)%GravityDenomToERC20_iff];
  (split; [done|]; by apply hex_decode_ok in Hd as []).
Qed.

Lemma namespace_parse_disjoint r d a b :
  namespace_parse r d = Ok a → namespace_parse (negb r) d ≠ Ok b.
Proof. destruct r; simpl; intros ? ?; by eapply denom_namespaces_disjoint. Qed.

Lemma classifyEthOriginated_eq s d a r :
  classifyEthOriginated d a r s =
  if decide (GetDenomMetaData (st_world s) d = None ∧ namespace_parse r d = Ok a) then
    if is_ok (ValidateStrictDenom d)
    then Ret (mkAssetOrigin AssetOriginEthereum r d (Some a)) s
    else Fail ErrInvalidDenom s
  else Fail ErrInvalid s.
Proof.
  unfold classifyEthOriginated. fold (namespace_parse r d). mrun.
  destruct (GetDenomMetaData (st_world s) d) as [md|].
  { rewrite decide_False by naive_solver. done. }
  destruct (namespace_parse r d) as [b|].
  2:{ rewrite decide_False by naive_solver. done. }
  rewrite bool_decide_false by (by intros [? [=]]). case_decide as E.
  - destruct E as [_ [= ->]]. rewrite bool_decide_false by (intros []; done).
    destruct (ValidateStrictDenom d) as [[]|] eqn:Hv; simpl; [|done].
    unfold checked_origin, AssertValid. simpl. apply ValidateStrictDenom_nonempty in Hv.
    rewrite (bool_decide_false (d = "")) by done. by destruct r.
  - rewrite bool_decide_true; [done|]. intros E'. apply E. split; [done|].
    destruct a, b. simpl in *. congruence.
Qed.

Lemma ClassifyERC20_eq s a :
  ClassifyERC20 a s =
  match raw s !! GetERC20ToDenomKey a with
  | Some b => classifyCosmosOriginated (string_of_bytes b) a s
  | None =>
      let r := bool_decide (is_Some (raw s !! GetRemappedERC20Key a)) in
      classifyEthOriginated (namespace_denom r a) a r s
  end.
Proof.
  unfold ClassifyERC20. mrun. rewrite denom_for_erc20_eq.
  by destruct (raw s !! GetERC20ToDenomKey a).
Qed.

Lemma ClassifyDenom_eq s d :
  reg_ok (raw s) →
  ClassifyDenom d s =
  match Gravity2DenomToERC20 d, GravityDenomToERC20 d with
  | Ok a, _ =>
      if decide (is_Some (raw s !! GetRemappedERC20Key a))
      then classifyEthOriginated d a true s else Fail ErrInvalid s
  | Er _, Ok a =>
      if decide (is_Some (raw s !! GetRemappedERC20Key a))
      then Fail ErrInvalid s else classifyEthOriginated d a false s
  | Er _, Er _ =>
      match raw s !! GetDenomToERC20Key d with
      | Some b => classifyCosmosOriginated d (mkEthAddress b) s
      | None => Fail ErrInvalidDenom s
      end
  end.
Proof.
  intros Hok. unfold ClassifyDenom.
  destruct (Gravity2DenomToERC20 d) as [a|]; [|destruct (GravityDenomToERC20 d) as [a|]].
  - mrun. rewrite IsRemappedERC20_eq. by case_decide as E; [rewrite bool_decide_true|rewrite bool_decide_false].
  - mrun. rewrite IsRemappedERC20_eq. by case_decide as E; [rewrite bool_decide_true|rewrite bool_decide_false].
  - mrun. rewrite erc20_for_denom_eq by done. by destruct (raw s !! GetDenomToERC20Key d).
Qed.

(** [ClassifyDenom] as a relation. *)
Lemma ClassifyDenom_inv s d o s' :
  reg_ok (raw s) → ClassifyDenom d s = Ret o s' →
  s' = s ∧ ao_Denom o = d ∧ ValidateStrictDenom d = Ok tt ∧
  ∃ a, ao_ERC20 o = Some a ∧ eth_ok a ∧
  ((o = mkAssetOrigin AssetOriginCosmos false d (Some a) ∧
    raw s !! GetDenomToERC20Key d = Some (GetAddress a)) ∨
   (∃ r, o = mkAssetOrigin AssetOriginEthereum r d (Some a) ∧ namespace_parse r d = Ok a ∧
     r = bool_decide (is_Some (raw s !! GetRemappedERC20Key a)) ∧
     GetDenomMetaData (st_world s) d = None)).
Proof.
  intros Hok. rewrite ClassifyDenom_eq by done.
  assert (∀ a r, r = bool_decide (is_Some (raw s !! GetRemappedERC20Key a)) →
    classifyEthOriginated d a r s = Ret o s' → s' = s ∧ ao_Denom o = d ∧
    ValidateStrictDenom d = Ok tt ∧ ∃ a, ao_ERC20 o = Some a ∧ eth_ok a ∧
    ∃ r, o = mkAssetOrigin AssetOriginEthereum r d (Some a) ∧ namespace_parse r d = Ok a ∧
     r = bool_decide (is_Some (raw s !! GetRemappedERC20Key a)) ∧
     GetDenomMetaData (st_world s) d = None) as Heth.
  { intros a r Hr. rewrite classifyEthOriginated_eq. case_decide as E; [|done].
    destruct E as [Hm Hp], (ValidateStrictDenom d) as [[]|]; simpl; [|done].
    intros [= <- <-]. split_and!; [done..|]. exists a.
    split_and!; [done|by eapply namespace_parse_ok|]. by exists r. }
  destruct (Gravity2DenomToERC20 d) as [a|]; [|destruct (GravityDenomToERC20 d) as [a|]].
  - case_decide; [|done]. intros Hc%Heth; [naive_solver|]. by rewrite bool_decide_true.
  - case_decide; [done|]. intros Hc%Heth; [naive_solver|]. by rewrite bool_decide_false.
  - destruct (raw s !! GetDenomToERC20Key d) as [b|] eqn:Ed; [|done].
    rewrite classifyCosmosOriginated_eq by done.
    destruct (ValidateStrictDenom d) as [[]|]; simpl; [|done].
    case_decide as Hd; [|done]. intros [= <- <-]. split_and!; [done..|].
    exists (mkEthAddress b). split_and!; [done| |by left].
    apply (reg_denom _ Hok) in Ed as (_ & [a] & Ha & -> & _). done.
Qed.
(** Classifying an ERC20 and classifying the denom it was given agree: when
    [ClassifyERC20] returns an origin, that origin carries the ERC20 itself, and
    [ClassifyDenom] of its denom returns the same origin. *)
Theorem ClassifyERC20_then_ClassifyDenom s s' a o :
  reg_ok (raw s) → eth_ok a → ClassifyERC20 a s = Ret o s' →
  s' = s ∧ ao_ERC20 o = Some a ∧ ClassifyDenom (ao_Denom o) s = Ret o s.
Proof.
  intros Hok Ha. rewrite ClassifyERC20_eq.
  destruct (raw s !! GetERC20ToDenomKey a) as [b|] eqn:Eb.
  - apply (reg_erc20 _ Hok) in Eb as (_ & d & -> & Hd).
    rewrite string_of_bytes_of_string, classifyCosmosOriginated_eq by done.
    destruct (ValidateStrictDenom d) as [[]|] eqn:Hv; simpl; [|done].
    rewrite decide_True by done. intros [= <- <-]. split_and!; [done..|].
    simpl. rewrite ClassifyDenom_eq by done. rewrite Hd.
    destruct (reg_denom _ Hok d _ Hd) as [(H1' & H2' & _) _].
    destruct (Gravity2DenomToERC20 d); [done|]. destruct (GravityDenomToERC20 d); [done|].
    rewrite classifyCosmosOriginated_eq, Hv by done. simpl.
    rewrite decide_True by done. by destruct a.
  - cbv zeta. set (r := bool_decide (is_Some (raw s !! GetRemappedERC20Key a))).
    intros Hc. pose proof Hc as Hc'. rewrite classifyEthOriginated_eq in Hc.
    case_decide as E; [|done]. destruct (is_ok _); [|done]. injection Hc as <- <-.
    split_and!; [done..|]. simpl. rewrite ClassifyDenom_eq by done.
    pose proof (namespace_roundtrip r a Ha) as Hp. pose proof (λ b, namespace_parse_disjoint r _ a b Hp) as Hn.
    subst r. destruct (decide (is_Some (raw s !! GetRemappedERC20Key a))) as [Hr|Hr].
    + rewrite bool_decide_true in * by done. simpl in *. rewrite Hp. by rewrite decide_True.
    + rewrite bool_decide_false in * by done. simpl in *. rewrite Hp.
      destruct (Gravity2DenomToERC20 _) as [b|]; [by destruct (Hn b)|]. by rewrite decide_False.
Qed.

(** Conversely, the ERC20 that [ClassifyDenom] gives a denom is classified
    the same way: always for a Cosmos-originated denom, and for an
    Ethereum-originated denom written in the canonical case whose ERC20 is not
    registered as Cosmos-originated. *)
Theorem ClassifyDenom_then_ClassifyERC20 s s' d o :
  reg_ok (raw s) → ClassifyDenom d s = Ret o s' →
  s' = s ∧ ao_Denom o = d ∧ ∃ a, ao_ERC20 o = Some a ∧ eth_ok a ∧
  (ao_Origin o = AssetOriginCosmos → ClassifyERC20 a s = Ret o s) ∧
  (ao_Origin o = AssetOriginEthereum →
   ao_IsRemapped o = bool_decide (is_Some (raw s !! GetRemappedERC20Key a)) ∧
   (raw s !! GetERC20ToDenomKey a = None →
    d = (if ao_IsRemapped o then Gravity2Denom a else GravityDenom a) →
    ClassifyERC20 a s = Ret o s)).
Proof.
  intros Hok (-> & Hd & Hv & a & Ha & Hok' & [[-> Hl]|(r & -> & Hp & Hr & Hm)])%ClassifyDenom_inv; [..|done].
  - split_and!; [done..|]. exists a. split_and!; [done..| |done]. intros _.
    rewrite ClassifyERC20_eq.
    destruct (reg_denom _ Hok d _ Hl) as (_ & a' & _ & E & He).
    destruct a as [a], a' as [a']. simpl in E. subst a'. rewrite He.
    rewrite string_of_bytes_of_string, classifyCosmosOriginated_eq, Hv by done.
    simpl. by rewrite decide_True.
  - split_and!; [done..|]. exists a. split_and!; [done..|]. simpl. intros _.
    split; [done|]. intros Hn Hc. rewrite ClassifyERC20_eq, Hn. cbv zeta. rewrite <- Hr.
    change (namespace_denom r a) with (if r then Gravity2Denom a else GravityDenom a).
    rewrite <- Hc, classifyEthOriginated_eq, decide_True by done. by rewrite Hv.
Qed.
(** ** The denom of an ERC20 *)

Definition asset_denom (m : gmap bytes bytes) (a : EthAddress) : string :=
  match m !! GetERC20ToDenomKey a with
  | Some b => string_of_bytes b
  | None => namespace_denom (bool_decide (is_Some (m !! GetRemappedERC20Key a))) a
  end.

Lemma ClassifyERC20_inv s s' a o :
  reg_ok (raw s) → ClassifyERC20 a s = Ret o s' →
  s' = s ∧ ao_Denom o = asset_denom (raw s) a ∧ ao_ERC20 o = Some a ∧
  (ao_Origin o = AssetOriginCosmos ↔ is_Some (raw s !! GetERC20ToDenomKey a)) ∧
  (ao_Origin o = AssetOriginEthereum ↔ raw s !! GetERC20ToDenomKey a = None) ∧
  ValidateStrictDenom (ao_Denom o) = Ok tt.
Proof.
  intros Hok. rewrite ClassifyERC20_eq. unfold asset_denom.
  destruct (raw s !! GetERC20ToDenomKey a) as [b|] eqn:Eb.
  - rewrite classifyCosmosOriginated_eq by done.
    destruct (ValidateStrictDenom _) as [[]|] eqn:Ev; cbn [is_ok negb]; [|done].
    case_decide; [|done]. intros [= <- <-]. by split_and!.
  - cbv zeta. rewrite classifyEthOriginated_eq. case_decide; [|done].
    destruct (ValidateStrictDenom _) as [[]|] eqn:Ev; cbn [is_ok]; [|done].
    intros [= <- <-]. by split_and!.
Qed.

(** Classification reads only the registry and the bank's metadata. *)
Lemma ClassifyERC20_frame s s' a :
  reg_ok (raw s) → reg_same (raw s) (raw s') →
  (∀ d, GetDenomMetaData (st_world s') d = GetDenomMetaData (st_world s) d) →
  ClassifyERC20 a s' = at_state s' (ClassifyERC20 a s).
Proof.
  intros Hok Hsame Em. pose proof (reg_same_ok _ _ Hsame Hok) as Hok'.
  destruct Hsame as (E1 & E2 & E3). rewrite !ClassifyERC20_eq, E2, E3.
  destruct (raw s !! GetERC20ToDenomKey a) as [b|].
  - rewrite !classifyCosmosOriginated_eq by done. rewrite E1.
    destruct (negb _); [done|]. by case_decide.
  - cbv zeta. rewrite !classifyEthOriginated_eq, Em. case_decide; [|done].
    by destruct (is_ok _).
Qed.

Lemma asset_denom_same m m' a : reg_same m m' → asset_denom m' a = asset_denom m a.
Proof. intros (E1 & E2 & E3). unfold asset_denom. by rewrite E2, E3. Qed.

(** Different ERC20s have different denoms. *)
Lemma asset_denom_inj m a b :
  reg_ok m → eth_ok a → eth_ok b → asset_denom m a = asset_denom m b → a = b.
Proof.
  intros Hok Ha Hb. unfold asset_denom.
  assert (∀ x y r, reg_ok m → eth_ok y → m !! GetERC20ToDenomKey x = Some (bytes_of_string (namespace_denom r y)) → False) as Hno.
  { intros x y r _ Hy (_ & d & E & Hd)%(reg_erc20 _ Hok). apply bytes_of_string_inj in E. subst d.
    apply (reg_denom _ Hok) in Hd as ((H1' & H2' & _) & _).
    pose proof (namespace_roundtrip r y Hy) as Hr. unfold namespace_parse in Hr.
    destruct r; by rewrite Hr in *. }
  destruct (m !! GetERC20ToDenomKey a) as [x|] eqn:Ea, (m !! GetERC20ToDenomKey b) as [y|] eqn:Eb.
  - apply (reg_erc20 _ Hok) in Ea as (_ & d & -> & Hd), Eb as (_ & d' & -> & Hd').
    rewrite !string_of_bytes_of_string. intros ->. destruct a, b. simpl in *. congruence.
  - destruct (reg_erc20 _ Hok _ _ Ea) as (_ & d & -> & _). rewrite string_of_bytes_of_string.
    intros ->. destruct (Hno _ _ _ Hok Hb Ea).
  - destruct (reg_erc20 _ Hok _ _ Eb) as (_ & d & -> & _). rewrite string_of_bytes_of_string.
    intros <-. destruct (Hno _ _ _ Hok Ha Eb).
  - set (ra := bool_decide _). set (rb := bool_decide _). intros E.
    pose proof (namespace_roundtrip ra a Ha) as Ra. pose proof (namespace_roundtrip rb b Hb) as Rb.
    destruct (decide (ra = rb)) as [Er|Er].
    + rewrite Er in *. rewrite E in Ra. congruence.
    + exfalso. rewrite E in Ra. eapply namespace_parse_disjoint; [exact Ra|].
      replace (negb ra) with rb by (destruct ra, rb; done). exact Rb.
Qed.
End Classification.
