(* ===== verification/ValsetKeeper.v ===== *)
(** * Validator set requests and their confirmations (keeper/keeper_valset.go)

    The chain asks its validators to sign the next validator set of the bridge;
    the signed set, with the powers normalised to 2^32, is relayed to Ethereum. *)

From stdpp Require Import base gmap list strings sorting.
From S2P Require Import Prelude GoStd External Store Ethereum Keys OutgoingTx Valset Claims Keeper DelegateKeys Registry.

#[local] Open Scope Z_scope.

(** ** Stored validator sets *)

Section ValsetStore.
Context {W : Type}.

Definition StoreValset (valset : Valset) : K W unit :=
  let key := GetValsetKey (vs_Nonce valset) in
  has ← gets (λ s, bool_decide (is_Some (kv_valsets (st_kv s) !! key)));
  _ ← guard_panic has "Trying to overwrite existing valset!";
  modify (upd_kv (upd_valsets (insert key valset))).

Definition HasValsetRequest (nonce : Z) : K W bool :=
  gets (λ s, bool_decide (is_Some (kv_valsets (st_kv s) !! GetValsetKey nonce))).

Definition DeleteValset (nonce : Z) : K W unit :=
  modify (upd_kv (upd_valsets (delete (GetValsetKey nonce)))).

Definition CheckLatestValsetNonce : K W bool := raw_has LatestValsetNonce.

Definition GetLatestValsetNonce : K W Z :=
  has ← CheckLatestValsetNonce;
  _ ← guard_panic (negb has) "Valset nonce not initialized from genesis";
  bz ← raw_get LatestValsetNonce;
  opt_panic "Invalid uint64 bytes" (UInt64FromBytesUnsafe (default [] bz)).

Definition SetLatestValsetNonce (nonce : Z) : K W unit :=
  has ← CheckLatestValsetNonce;
  _ ← (if (has : bool) then
         latest ← GetLatestValsetNonce;
         guard_panic (nonce <? latest) "Decrementing valset nonce!"
       else mret tt);
  raw_set LatestValsetNonce (UInt64Bytes nonce).

Definition GetValset (nonce : Z) : K W (option Valset) :=
  gets (λ s, kv_valsets (st_kv s) !! GetValsetKey nonce).

(** Most recent first. *)
Definition IterateValsets {B} (acc : B) (cb : Valset → B → K W (B * bool)) : K W B :=
  entries ← gets (λ s, iter_desc (kv_valsets (st_kv s)) (None, None));
  for_acc entries acc (λ kv acc, cb kv.2 acc).

Definition valset_le (v w : Valset) : Prop := Valsets_Less w v = false.
#[global] Instance valset_le_dec v w : Decision (valset_le v w).
Proof. unfold valset_le. apply _. Defined.

Definition GetValsets : K W (list Valset) :=
  out ← IterateValsets [] (λ val out, mret (out ++ [val], false));
  mret (merge_sort valset_le out).

Definition GetLatestValset : K W (option Valset) :=
  latestValsetNonce ← GetLatestValsetNonce;
  GetValset latestValsetNonce.

(** ** Slashing heights *)

Definition SetLastSlashedValsetNonce (nonce : Z) : K W unit :=
  raw_set LastSlashedValsetNonce (UInt64Bytes nonce).

(** A counter that reads as 0 until it is set. *)
Definition get_counter (key : bytes) : K W Z :=
  bz ← raw_get key;
  let b := default [] bz in
  if decide (b = []) then mret 0 else opt_panic "Invalid uint64 bytes" (UInt64FromBytesUnsafe b).

Definition GetLastSlashedValsetNonce : K W Z := get_counter LastSlashedValsetNonce.

Definition SetLastUnBondingBlockHeight (unbondingBlockHeight : Z) : K W unit :=
  raw_set LastUnBondingBlockHeight (UInt64Bytes unbondingBlockHeight).

Definition GetLastUnBondingBlockHeight : K W Z := get_counter LastUnBondingBlockHeight.

(** From the last slashed nonce to the latest one, ascending. *)
Definition IterateValsetBySlashedValsetNonce {B} (lastSlashedValsetNonce : Z) (acc : B)
    (cb : Valset → B → K W (B * bool)) : K W B :=
  latest ← GetLatestValsetNonce;
  let cutoffNonce := u64 (latest + 1) in
  entries ← gets (λ s, iter_asc (kv_valsets (st_kv s))
    (Some (ValsetRequestKey ++ UInt64Bytes lastSlashedValsetNonce),
     Some (ValsetRequestKey ++ UInt64Bytes cutoffNonce)));
  for_acc entries acc (λ kv acc, cb kv.2 acc).

Definition GetUnSlashedValsets (signedValsetsWindow : Z) : K W (list Valset) :=
  lastSlashedValsetNonce ← GetLastSlashedValsetNonce;
  blockHeight ← BlockHeight;
  IterateValsetBySlashedValsetNonce lastSlashedValsetNonce [] (λ valset out,
    mret (if (lastSlashedValsetNonce <? vs_Nonce valset) &&
             negb (blockHeight <? u64 (vs_Height valset + signedValsetsWindow))
          then out ++ [valset] else out, false)).
End ValsetStore.

(** ** The next validator set *)

Section CurrentValset.
Context {W : Type} `{Geth} `{Sdk} `{Bank W} `{Staking W} `{EthAbi}.

(** The bonded validators that have an Ethereum key, with their power, and the
    total of those powers. *)
Definition collect_validator (validator : Validator) (acc : list InternalBridgeValidator * Z)
    : K W (list InternalBridgeValidator * Z * bool) :=
  val ← of_res (ValAddressFromBech32 (v_OperatorAddress validator));
  _ ← of_res (VerifyAddressFormat val);
  power ← gets (λ s, GetLastValidatorPower (st_world s) val);
  p ← of_res power;
  found ← GetEthAddressByValidator val;
  match found with
  | None => mret (acc, false)
  | Some ethAddr =>
      _ ← guard_panic ((p <? 0) || (two64 <=? p)) "Uint64() out of bounds";
      ibv ← of_res (NewInternalBridgeValidator (mkBridgeValidator p (Hex (GetAddress ethAddr))));
      totalPower ← opt_panic "Int.Add" (Int_Add acc.2 p);
      mret ((acc.1 ++ [ibv], totalPower), false)
  end.

Definition normalize_all (totalPower : Z) (bridgeValidators : list InternalBridgeValidator)
    : option (list InternalBridgeValidator) :=
  mapM (λ v, p ← normalizeValidatorPower (ibv_Power v) totalPower;
             Some (mkInternalBridgeValidator p (ibv_EthereumAddress v))) bridgeValidators.

Definition valset_reward (reward : Coin) : K W (EthAddress * Z) :=
  if negb (Coin_IsValid reward) || (Amount reward =? 0) then mret (ZeroAddress, 0)
  else
    r ← RewardToERC20Lookup reward;
    token ← opt_panic "nil pointer dereference" r.1;
    mret (token, r.2).

Definition GetCurrentValset : K W Valset :=
  bonded ← gets (λ s, GetBondedValidatorsByPower (st_world s));
  match bonded with
  | Er _ | Ok [] => fail ErrNoValidators
  | Ok validators =>
      r ← for_acc validators ([], 0) collect_validator;
      let '(bridgeValidators, totalPower) := r in
      bridgeValidators ← opt_panic "division by zero" (normalize_all totalPower bridgeValidators);
      params ← must "failed to get params" GetParams;
      reward ← valset_reward (p_ValsetReward params);
      let '(rewardToken, rewardAmount) := reward in
      latest ← GetLatestValsetNonce;
      height ← BlockHeight;
      of_res (NewValset (u64 (latest + 1)) height bridgeValidators rewardAmount rewardToken)
  end.

Definition SetValsetRequest : K W Valset :=
  valset ← must "GetCurrentValset" GetCurrentValset;
  _ ← StoreValset valset;
  _ ← SetLatestValsetNonce (vs_Nonce valset);
  gravityID ← GetGravityID;
  checkpoint ← opt_panic "GetCheckpoint" (Valset_GetCheckpoint gravityID valset);
  _ ← SetPastEthSignatureCheckpoint checkpoint;
  bridge ← GetBridgeContractAddress;
  chain ← GetBridgeChainID;
  _ ← emit (EventMultisigUpdateRequest (Hex (GetAddress bridge)) chain (vs_Nonce valset));
  mret valset.
End CurrentValset.

(** ** Confirmations *)

Section ValsetConfirms.
Context {W : Type} `{Sdk}.

Definition GetValsetConfirm (nonce : Z) (validator : bytes) : K W (option MsgValsetConfirm) :=
  if negb (is_ok (VerifyAddressFormat validator)) then mret None else
  key ← opt_panic "invalid validator address" (GetValsetConfirmKey nonce validator);
  gets (λ s, kv_valsetConfirms (st_kv s) !! key).

Definition SetValsetConfirm (valsetConf : MsgValsetConfirm) : K W bytes :=
  addr ← or_panic "AccAddressFromBech32" (AccAddressFromBech32 (vc_Orchestrator valsetConf));
  key ← opt_panic "invalid validator address" (GetValsetConfirmKey (vc_Nonce valsetConf) addr);
  _ ← modify (upd_kv (upd_valsetConfirms (insert key valsetConf)));
  mret key.

Definition GetValsetConfirms (nonce : Z) : K W (list MsgValsetConfirm) :=
  gets (λ s, (iter_asc (kv_valsetConfirms (st_kv s))
                (prefixRange (GetValsetConfirmNoncePrefix nonce))).*2).

(** The local variables of [IterateValsetConfirms]: the confirms collected for
    the current nonce, that nonce and the last key; [None] once the callback has
    asked to stop. *)
Definition confirm_groups {B} (entries : list (bytes * MsgValsetConfirm)) (acc : B)
    (cb : bytes → list MsgValsetConfirm → Z → B → K W (B * bool)) : K W B :=
  r ← for_acc entries ([], 0, [], acc, false) (λ kv st,
    let '(confirmsByNonce, nonce, _, acc, _) := st in
    let '(key, confirm) := kv in
    if decide (confirmsByNonce = []) then
      mret ((confirmsByNonce ++ [confirm], vc_Nonce confirm, key, acc, false), false)
    else if negb (vc_Nonce confirm =? nonce) then
      r ← cb key confirmsByNonce nonce acc;
      let '(acc, stop) := r in
      if (stop : bool) then mret ((confirmsByNonce, nonce, key, acc, true), true)
      else mret (([confirm], vc_Nonce confirm, key, acc, false), false)
    else mret ((confirmsByNonce ++ [confirm], nonce, key, acc, false), false));
  let '(confirmsByNonce, nonce, key, acc, stopped) := r in
  if stopped || bool_decide (confirmsByNonce = []) then mret acc
  else
    r ← cb key confirmsByNonce nonce acc;
    mret r.1.

Definition IterateValsetConfirms {B} (acc : B)
    (cb : bytes → list MsgValsetConfirm → Z → B → K W (B * bool)) : K W B :=
  entries ← gets (λ s, iter_desc (kv_valsetConfirms (st_kv s)) (None, None));
  confirm_groups entries acc cb.

Definition DeleteValsetConfirms (nonce : Z) : K W unit :=
  confirms ← GetValsetConfirms nonce;
  for_each confirms (λ confirm,
    match AccAddressFromBech32 (vc_Orchestrator confirm) with
    | Er _ => mret tt
    | Ok orchestrator =>
        confirmKey ← opt_panic "invalid validator address" (GetValsetConfirmKey nonce orchestrator);
        modify (upd_kv (upd_valsetConfirms (delete confirmKey)))
    end).
End ValsetConfirms.
