(* ===== verification/ValsetCorrect.v ===== *)
(** * Correctness of validator set requests *)

From stdpp Require Import base gmap list strings sorting.
From S2P Require Import Prelude GoStd External Store Ethereum Keys OutgoingTx Valset Claims Keeper DelegateKeys Registry ValsetKeeper.

#[local] Open Scope Z_scope.

Lemma size_list_to_set_NoDup {A} `{Countable A} (l : list A) :
  size (list_to_set l : gset A) = length l → NoDup l.
Proof.
  induction l as [|x l IH]; [constructor|]. cbn [list_to_set length]. intros E.
  assert (size (list_to_set l : gset A) ≤ length l)%nat as Hle.
  { clear. induction l as [|y l IH]; [done|]. cbn [list_to_set length].
    pose proof (size_union_alt {[y]} (list_to_set l : gset A)) as Hu.
    rewrite size_singleton in Hu.
    assert (size (list_to_set l ∖ {[y]} : gset A) ≤ size (list_to_set l : gset A))%nat
      by (apply subseteq_size; set_solver). lia. }
  destruct (decide (x ∈ (list_to_set l : gset A))) as [Hin|Hni].
  - replace ({[x]} ∪ list_to_set l : gset A) with (list_to_set l : gset A) in E by set_solver. lia.
  - rewrite size_union, size_singleton in E by set_solver. constructor; [|apply IH; lia].
    intros Hx. apply Hni. by apply elem_of_list_to_set.
Qed.

Section CurrentValset.
Context {W : Type} `{GethLaws} `{Sdk} `{Bank W} `{Staking W}.
Implicit Types s : State W.

Definition ibv_total (l : list InternalBridgeValidator) : Z := sumZ ibv_Power l.

(** What the loop over the bonded validators collects. *)
Definition collected (acc : list InternalBridgeValidator * Z) : Prop :=
  acc.2 = ibv_total acc.1 ∧ Forall (λ v, 0 ≤ ibv_Power v) acc.1 ∧ Forall ibv_ok acc.1.

Lemma NewInternalBridgeValidator_inv bv v :
  NewInternalBridgeValidator bv = Ok v → ibv_Power v = bv_Power bv ∧ ibv_ok v.
Proof.
  intros E. split; [|by eapply NewInternalBridgeValidator_ok]. revert E.
  unfold NewInternalBridgeValidator, mbind, res_bind. cbv zeta. destruct (NewEthAddress _); [|done].
  destruct (InternalBridgeValidator_ValidateBasic _); [|done]. by intros [= <-].
Qed.

Lemma collect_validator_inv validator acc s acc' stop s' :
  collect_validator validator acc s = Ret (acc', stop) s' → collected acc → collected acc'.
Proof.
  intros Hrun (Ht & Hf & Ha). unfold collect_validator in Hrun.
  mnext Hrun as val s1 E1. mnext Hrun as u s2 E2. mnext Hrun as power s3 E3.
  mnext Hrun as p s4 E4. mnext Hrun as found s5 E5.
  destruct found as [a|]; [|by minv].
  mnext Hrun as u1 s6 E6. apply guard_panic_inv in E6 as [[Hp _]%orb_false_iff _]. zbool.
  mnext Hrun as ibv s7 E7. apply of_res_inv in E7 as [Hibv _].
  mnext Hrun as total s8 E8. apply opt_panic_inv in E8 as [Hadd%int_check_inv _].
  apply mret_inv in Hrun as [[= -> ->] _]. destruct Hadd as [-> _].
  apply NewInternalBridgeValidator_inv in Hibv as [Epw Hok]. simpl in Epw.
  unfold collected. cbn [fst snd]. unfold ibv_total in *. rewrite sumZ_app, Ht. simpl. rewrite Epw.
  rewrite !Forall_app, !Forall_singleton. split_and!; try done; lia.
Qed.

(** The normalisation, on a total that is the sum of the powers. *)
Lemma normalize_all_inv total l l' :
  normalize_all total l = Some l' → Forall (λ v, 0 ≤ ibv_Power v ≤ total) l → 0 < total →
  ibv_EthereumAddress <$> l' = ibv_EthereumAddress <$> l ∧
  ibv_Power <$> l' = (λ v, ibv_Power v * 4294967296 / total) <$> l ∧
  Forall (λ v, 0 ≤ ibv_Power v ≤ 4294967296) l'.
Proof.
  intros Hm%mapM_Some Hf Ht. induction Hm as [|v v' l l' Hv Hm IH]; [by repeat constructor|].
  apply Forall_cons in Hf as [Hv0 Hf]. destruct (IH Hf) as (E1 & E2 & Hall).
  destruct (normalizeValidatorPower_spec (ibv_Power v) total) as [En Hb]; [done..|].
  rewrite En in Hv. cbn in Hv. injection Hv as <-. cbn [fmap list_fmap].
  rewrite E1, E2. repeat constructor; try done; simpl; lia.
Qed.

Lemma power_le_total l : Forall (λ v, 0 ≤ ibv_Power v) l → Forall (λ v, 0 ≤ ibv_Power v ≤ ibv_total l) l.
Proof.
  intros Hf. rewrite Forall_forall in Hf. apply Forall_forall. intros v Hv. split; [by apply Hf|].
  apply list_elem_of_split in Hv as (l1 & l2 & ->). unfold ibv_total. rewrite sumZ_app. simpl.
  assert (0 ≤ sumZ ibv_Power l1) by (apply sumZ_nonneg, Forall_forall; intros; apply Hf; set_solver).
  assert (0 ≤ sumZ ibv_Power l2) by (apply sumZ_nonneg, Forall_forall; intros; apply Hf; set_solver).
  unfold sumZ in *. lia.
Qed.

Lemma normalized_total total l l' :
  normalize_all total l = Some l' → total = ibv_total l → Forall (λ v, 0 ≤ ibv_Power v) l → 0 < total →
  4294967296 - Z.of_nat (length l) ≤ ibv_total l' ≤ 4294967296.
Proof.
  intros Hn -> Hf Ht. pose proof (power_le_total l Hf) as Hle.
  destruct (normalize_all_inv _ _ _ Hn Hle Ht) as (_ & Ep & _).
  pose proof (normalized_sum_bound (ibv_Power <$> l) (ibv_total l)) as Hb.
  rewrite Forall_fmap in Hb. specialize (Hb Hf Ht). cbv zeta in Hb.
  rewrite !sumZ_fmap, length_fmap in Hb.
  change (sumZ ((λ p, p) ∘ ibv_Power) l) with (ibv_total l) in Hb.
  assert (ibv_total l' = sumZ ((λ p, p * 4294967296 / ibv_total l) ∘ ibv_Power) l) as ->; [|nia].
  trans (sumZ (λ p, p) (ibv_Power <$> l')); [by rewrite sumZ_fmap|]. by rewrite Ep, sumZ_fmap.
Qed.

(** ** A new valset *)

Lemma NewValset_inv nonce height members amount token v :
  NewValset nonce height members amount token = Ok v →
  members ≠ [] ∧ NoDup ((λ m, Hex (GetAddress (ibv_EthereumAddress m))) <$> members) ∧
  v = mkValset nonce (InternalBridgeValidator_ToExternal <$> Sort members) height (Some amount)
        (Hex (GetAddress token)).
Proof.
  unfold NewValset, mbind, res_bind. destruct (InternalBridgeValidators_ValidateBasic members) as [u|] eqn:E; [|done].
  intros [= <-]. unfold InternalBridgeValidators_ValidateBasic, mbind, res_bind in E.
  destruct members as [|m ms]; [done|]. destruct (res_map _ _); [|done].
  destruct (HasDuplicates (m :: ms)) eqn:Hd; [done|]. split_and!; [done| |done].
  unfold HasDuplicates in Hd. apply negb_false_iff, Nat.eqb_eq in Hd.
  apply size_list_to_set_NoDup. by rewrite length_fmap.
Qed.

Lemma GetCurrentValset_inv s v s' :
  GetCurrentValset s = Ret v s' →
  ∃ latest members amount token total, s' = s ∧
    GetLatestValsetNonce s = Ret latest s ∧
    NewValset (u64 (latest + 1)) (u64 (st_height s)) members amount token = Ok v ∧
    ∃ raws, normalize_all total raws = Some members ∧ collected (raws, total).
Proof.
  intros Hrun. unfold GetCurrentValset in Hrun. mnext Hrun as bonded s1 E1.
  apply gets_inv in E1 as [-> ->].
  destruct (GetBondedValidatorsByPower (st_world s)) as [[|val vals]|]; [done| |done].
  mnext Hrun as r s2 E2. pose proof E2 as Hcol.
  apply (for_acc_inv collected) in Hcol; [|by repeat constructor|intros; by eapply collect_validator_inv].
  assert (s2 = s) as ->.
  { eapply (readonly_inv (for_acc (val :: vals) ([], 0) collect_validator)); [|exact E2].
    apply readonly_for_acc. intros x b. unfold collect_validator. readonly. }
  destruct r as [raws total]. mnext Hrun as members s3 E3. apply opt_panic_inv in E3 as [Hnorm ->].
  mnext Hrun as params s4 E4. assert (s4 = s) as -> by (eapply readonly_inv; [|exact E4]; readonly).
  mnext Hrun as reward s5 E5. assert (s5 = s) as ->.
  { eapply readonly_inv; [|exact E5]. unfold valset_reward, RewardToERC20Lookup. readonly. }
  destruct reward as [token amount].
  mnext Hrun as latest s6 E6. assert (s6 = s) as ->.
  { eapply readonly_inv; [|exact E6]. unfold GetLatestValsetNonce, CheckLatestValsetNonce. readonly. }
  mnext Hrun as height s7 E7. apply gets_inv in E7 as [-> ->].
  apply of_res_inv in Hrun as [Hv ->]. exists latest, members, amount, token, total.
  split_and!; [done..|]. by exists raws.
Qed.

Lemma sumZ_external l : sumZ bv_Power (InternalBridgeValidator_ToExternal <$> l) = ibv_total l.
Proof. by rewrite sumZ_fmap. Qed.

(** C38. A validator set the chain asks its validators to sign has the nonce after
    the latest one; its powers are between 0 and 2^32, add up to at most 2^32 and
    fall short of it by at most one unit per member; no Ethereum address occurs
    twice; and the members come in the canonical order, strongest first. *)
Theorem GetCurrentValset_powers s v s' :
  GetCurrentValset s = Ret v s' →
  s' = s ∧
  (∃ latest, GetLatestValsetNonce s = Ret latest s ∧ vs_Nonce v = u64 (latest + 1)) ∧
  4294967296 - Z.of_nat (length (vs_Members v)) ≤ sumZ bv_Power (vs_Members v) ≤ 4294967296 ∧
  Forall (λ m, 0 ≤ bv_Power m ≤ 4294967296) (vs_Members v) ∧
  NoDup (bv_EthereumAddress <$> vs_Members v) ∧
  StronglySorted (λ a b, bv_Power b ≤ bv_Power a) (vs_Members v).
Proof.
  intros (latest & members & amount & token & total & -> & Hlat & Hnew & raws & Hnorm & Hcol)%GetCurrentValset_inv.
  apply NewValset_inv in Hnew as (Hne & Hnd & ->). destruct Hcol as (Htot & Hf & _). simpl in Htot, Hf.
  assert (0 < total) as Hpos.
  { pose proof Hnorm as Hm%mapM_Some. destruct Hm as [|r m raws members Hr _]; [done|].
    unfold normalizeValidatorPower in Hr. destruct (Z.eqb_spec total 0); [done|].
    assert (0 ≤ ibv_total (r :: raws)) by (by apply sumZ_nonneg). lia. }
  pose proof (normalized_total total raws members Hnorm Htot Hf Hpos) as Hsum.
  pose proof (power_le_total raws Hf) as Hle. rewrite <- Htot in Hle.
  destruct (normalize_all_inv total raws members Hnorm Hle Hpos) as (Ea & _ & Hb).
  assert (length raws = length members) as Hlen.
  { apply (f_equal length) in Ea. by rewrite !length_fmap in Ea. }
  cbn [vs_Nonce vs_Members]. pose proof (Sort_perm members) as Hperm.
  split_and!; [done|by exists latest|..].
  - rewrite sumZ_external, length_fmap. unfold ibv_total in *.
    rewrite Hperm. rewrite Hlen in Hsum. lia.
  - rewrite sumZ_external. unfold ibv_total in *. rewrite Hperm. lia.
  - apply Forall_fmap. rewrite Hperm. exact Hb.
  - rewrite <- list_fmap_compose, Hperm. exact Hnd.
  - pose proof (Sort_sorted members) as Hs. revert Hs. clear.
    induction 1 as [|a l Hl IH Ha]; cbn [fmap list_fmap]; constructor; [done|].
    apply Forall_fmap. eapply Forall_impl; [exact Ha|]. intros b Hab. simpl.
    unfold ibv_le, ibv_less in Hab.
    destruct (Z.eqb_spec (ibv_Power b) (ibv_Power a)); [lia|]. zbool. lia.
Qed.
End CurrentValset.

(** ** Requesting *)

Section Request.
Context {W : Type} `{GethLaws} `{Sdk} `{Bank W} `{Staking W} `{EthAbi}.
Implicit Types s : State W.

Abbreviation valsets s := (kv_valsets (st_kv s)).

(** The latest nonce is ahead of every stored validator set. *)
Definition valsets_ok s (n : Z) : Prop :=
  raw s !! LatestValsetNonce = Some (UInt64Bytes n) ∧ u64_ok n ∧
  map_Forall (λ k v, k = GetValsetKey (vs_Nonce v) ∧ u64_ok (vs_Nonce v) ∧ vs_Nonce v ≤ n) (valsets s).

Lemma GetLatestValsetNonce_raw s n :
  raw s !! LatestValsetNonce = Some (UInt64Bytes n) → u64_ok n → GetLatestValsetNonce s = Ret n s.
Proof.
  intros Hr Hn. unfold GetLatestValsetNonce.
  rewrite (bind_ret _ _ s true s).
  2:{ unfold CheckLatestValsetNonce, raw_has, gets. by rewrite Hr, bool_decide_true. }
  rewrite (bind_ret _ _ s tt s) by done.
  rewrite (bind_ret _ _ s (Some (UInt64Bytes n)) s) by (unfold raw_get, gets; by rewrite Hr).
  cbn [default id]. by rewrite UInt64_roundtrip.
Qed.

Lemma GetLatestValsetNonce_eq s n : valsets_ok s n → GetLatestValsetNonce s = Ret n s.
Proof. intros (Hr & Hn & _). by apply GetLatestValsetNonce_raw. Qed.

Lemma current_nonce s n v s' :
  valsets_ok s n → u64_ok (n + 1) → GetCurrentValset s = Ret v s' → vs_Nonce v = n + 1.
Proof.
  intros Hok Hu (latest & ms & a & t & tot & _ & Hlat & Hnew & _)%GetCurrentValset_inv.
  rewrite (GetLatestValsetNonce_eq s n Hok) in Hlat. injection Hlat as <-.
  apply NewValset_inv in Hnew as (_ & _ & ->). simpl. by apply u64_small.
Qed.

Lemma valset_key_inj a b : u64_ok a → u64_ok b → GetValsetKey a = GetValsetKey b → a = b.
Proof.
  intros Ha Hb. unfold GetValsetKey, AppendBytes. cbn [concat]. rewrite !app_nil_r.
  intros [_ E]%app_inj_1; [|done]. by apply UInt64Bytes_inj.
Qed.

(** The state after validator set [v] was requested: it is stored, its nonce is the
    latest, and its checkpoint is one the validators may sign. *)
Definition requested (v : Valset) (checkpoint : bytes) s : State W :=
  add_event (EventMultisigUpdateRequest (bridge_hex (st_kv s)) (chain_id (st_kv s)) (vs_Nonce v))
    (upd_kv (upd_raw (insert (GetPastEthSignatureCheckpointKey checkpoint) [1]))
      (upd_kv (upd_raw (insert LatestValsetNonce (UInt64Bytes (vs_Nonce v))))
        (upd_kv (upd_valsets (insert (GetValsetKey (vs_Nonce v)) v)) s))).

Lemma requested_ok s n v checkpoint :
  valsets_ok s n → u64_ok (n + 1) → vs_Nonce v = n + 1 → valsets_ok (requested v checkpoint s) (n + 1).
Proof.
  intros (Hr & Hn & Hm) Hn1 Ev. split_and!; [|done|].
  - simpl. rewrite lookup_insert_ne; [by rewrite lookup_insert_eq, Ev|].
    rewrite <- (app_nil_r LatestValsetNonce). intros [E _]%prefix_separation;
      [done|unfold all_prefixes; set_solver..].
  - simpl. apply map_Forall_insert_2; [by rewrite Ev; split_and!; try lia|].
    eapply map_Forall_impl; [exact Hm|]. intros k v' (? & ? & ?). split_and!; try done. lia.
Qed.

Lemma SetValsetRequest_run s n p v checkpoint :
  valsets_ok s n → n + 1 < two64 → kv_params (st_kv s) = Some p → params_ok p →
  GetCurrentValset s = Ret v s → Valset_GetCheckpoint (p_GravityId p) v = Some checkpoint →
  valsets s !! GetValsetKey (n + 1) = None ∧
  SetValsetRequest s = Ret v (requested v checkpoint s) ∧
  valsets_ok (requested v checkpoint s) (n + 1).
Proof.
  intros Hok Hn1 Hp Hpok Hcur Hcp. pose proof Hok as (Hr & Hn & Hm).
  assert (u64_ok (n + 1)) as Hu by (unfold u64_ok in *; lia).
  pose proof (current_nonce s n v s Hok Hu Hcur) as Ev.
  assert (valsets s !! GetValsetKey (n + 1) = None) as Hfresh.
  { apply eq_None_not_Some. intros [v' Hv']. destruct (Hm _ _ Hv') as (E & Hu' & Hle).
    apply valset_key_inj in E; [lia|done..]. }
  split_and!; [done| |by apply requested_ok]. unfold SetValsetRequest.
  rewrite (bind_ret _ _ s v s) by (unfold must; by rewrite Hcur).
  set (s1 := upd_kv (upd_valsets (insert (GetValsetKey (vs_Nonce v)) v)) s).
  rewrite (bind_ret _ _ s tt s1).
  2:{ unfold StoreValset. mrun. rewrite Ev, Hfresh, bool_decide_false by (by intros []).
      unfold s1. by rewrite Ev. }
  assert (raw s1 !! LatestValsetNonce = Some (UInt64Bytes n)) as Hr1 by done.
  set (s2 := upd_kv (upd_raw (insert LatestValsetNonce (UInt64Bytes (vs_Nonce v)))) s1).
  rewrite (bind_ret _ _ s1 tt s2).
  2:{ unfold SetLatestValsetNonce. rewrite (bind_ret _ _ s1 true s1).
      2:{ unfold CheckLatestValsetNonce, raw_has, gets. by rewrite Hr1, bool_decide_true. }
      rewrite (bind_ret _ _ s1 tt s1); [done|].
      rewrite (bind_ret _ _ s1 n s1) by (by apply GetLatestValsetNonce_raw).
      by destruct (Z.ltb_spec (vs_Nonce v) n); [lia|]. }
  rewrite (bind_ret _ _ s2 (p_GravityId p) s2).
  2:{ unfold GetGravityID. mrun. by rewrite (GetParams_eq s2 p). }
  rewrite (bind_ret _ _ s2 checkpoint s2) by (by rewrite Hcp).
  rewrite (bind_ret _ _ s2 tt (upd_kv (upd_raw (insert (GetPastEthSignatureCheckpointKey checkpoint) [1])) s2)) by done.
  set (s3 := upd_kv _ s2).
  destruct (bridge_event (λ bridge chain, _ ← emit (EventMultisigUpdateRequest (Hex (GetAddress bridge))
    chain (vs_Nonce v)); mret v) s3) as (a & Ea & ->); [by exists p|].
  unfold requested. by rewrite Ea.
Qed.

(** A validator set request always succeeds when a current validator set can
    be computed and encoded: it takes the next nonce, overwrites no validator set
    that somebody may have signed, and records its checkpoint, so that signing it
    can never be punished as evidence. *)
Theorem SetValsetRequest_spec s n p v checkpoint :
  valsets_ok s n → n + 1 < two64 → kv_params (st_kv s) = Some p → params_ok p →
  GetCurrentValset s = Ret v s → Valset_GetCheckpoint (p_GravityId p) v = Some checkpoint →
  valsets s !! GetValsetKey (n + 1) = None ∧
  SetValsetRequest s = Ret v (requested v checkpoint s) ∧
  valsets_ok (requested v checkpoint s) (n + 1).
Proof. apply SetValsetRequest_run. Qed.
End Request.
