(* ===== verification/IbcForward.v ===== *)
(** * IBC auto-forwards (keeper/ibc_auto_forward.go, types/ibc_auto_forward.go)

    Deposits for receivers on other chains wait in a queue, ordered by event
    nonce, until someone pays for executing the transfer over IBC. *)

From stdpp Require Import base gmap list strings.
From S2P Require Import Prelude GoStd External Store Ethereum Keys OutgoingTx Valset Claims Keeper DelegateKeys Attestation.

#[local] Open Scope Z_scope.

Definition DistributionModule : string := "distribution".

Section Addresses.
Context `{Sdk} `{Bech32}.

(** types/types.go *)
Definition IBCAddressFromBech32 (bech32str : string) : res bytes :=
  if slen bech32str =? 0 then Er ErrEmpty else
  r ← DecodeAndConvert bech32str;
  let '(_, bz) := (r : string * bytes) in
  _ ← VerifyAddressFormat bz;
  Ok bz.

(** types/ibc_auto_forward.go *)
Definition PendingIbcAutoForward_ValidateBasic (p : PendingIbcAutoForward) : res unit :=
  r ← DecodeAndConvert (pf_ForeignReceiver p);
  if bool_decide (r.1 = GetBech32AccountAddrPrefix) then Er (ErrSdk "ErrInvalidAddress") else
  if Amount (pf_Token p) =? 0 then Er (ErrSdk "ErrInvalidCoins") else
  if bool_decide (pf_IbcChannel p = "") then Er ErrInvalid else
  if pf_EventNonce p =? 0 then Er ErrInvalid else Ok tt.
End Addresses.

Section Queue.
Context {W : Type} `{Geth} `{Sdk} `{Bech32} `{Bank W} `{Ibc W}.

Definition SendToCommunityPool (coins : list Coin) : K W unit :=
  _ ← call (SendCoinsFromModuleToModule ModuleName DistributionModule coins);
  call (AddToFeePool coins).

Definition ValidatePendingIbcAutoForward (forward : PendingIbcAutoForward) : K W unit :=
  _ ← of_res (PendingIbcAutoForward_ValidateBasic forward);
  _ ← of_res (ValidateStrictDenom (Denom (pf_Token forward)));
  latestEventNonce ← GetLastObservedEventNonce;
  _ ← guard_err (latestEventNonce <? pf_EventNonce forward) ErrInvalid;
  decoded ← of_res (DecodeAndConvert (pf_ForeignReceiver forward));
  hrpRecord ← gets (λ s, GetHrpIbcRecord (st_world s) decoded.1);
  match hrpRecord with
  | Er _ => fail (ErrSdk "ErrInvalidHRP")
  | Ok channel =>
      _ ← guard_err (bool_decide (pf_IbcChannel forward ≠ channel)) ErrMismatched;
      modBal ← gets (λ s, GetBalance (st_world s) (GetModuleAddress ModuleName)
                            (Denom (pf_Token forward)));
      guard_err (modBal <? Amount (pf_Token forward)) (ErrSdk "ErrInsufficientFunds")
  end.

Definition GetNextPendingIbcAutoForward : K W (option PendingIbcAutoForward) :=
  gets (λ s, head (iter_asc (kv_forwards (st_kv s)) (prefixRange PendingIbcAutoForwards)).*2).

Definition IteratePendingIbcAutoForwards {B} (acc : B)
    (cb : bytes → PendingIbcAutoForward → B → K W (B * bool)) : K W B :=
  entries ← gets (λ s, iter_asc (kv_forwards (st_kv s)) (None, None));
  for_acc entries acc (λ kv acc, cb kv.1 kv.2 acc).

Definition PendingIbcAutoForwards_list (limit : Z) : K W (list PendingIbcAutoForward) :=
  IteratePendingIbcAutoForwards [] (λ _ forward forwards,
    let forwards := forwards ++ [forward] in
    mret (forwards, negb (limit =? 0) && (limit <=? Z.of_nat (length forwards)))).

Definition addPendingIbcAutoForward (forward : PendingIbcAutoForward) (token : string) : K W unit :=
  _ ← ValidatePendingIbcAutoForward forward;
  let key := GetPendingIbcAutoForwardKey (pf_EventNonce forward) in
  has ← gets (λ s, bool_decide (is_Some (kv_forwards (st_kv s) !! key)));
  _ ← guard_err has ErrDuplicate;
  _ ← modify (upd_kv (upd_forwards (insert key forward)));
  emit (EventSendToCosmosPendingIbcAutoForward (pf_EventNonce forward) (pf_ForeignReceiver forward)
          token (Amount (pf_Token forward)) (pf_IbcChannel forward)).

Definition deletePendingIbcAutoForward (eventNonce : Z) : K W unit :=
  let key := GetPendingIbcAutoForwardKey eventNonce in
  has ← gets (λ s, bool_decide (is_Some (kv_forwards (st_kv s) !! key)));
  _ ← guard_err (negb has) ErrInvalid;
  modify (upd_kv (upd_forwards (delete key))).

(** [uint64(blockTime.Add(30 days).UnixNano())] *)
Definition thirtyDaysInFuture : K W Z :=
  gets (λ s, u64 (BlockTimeNano (st_world s) + 30 * 24 * 3600 * 1000000000)).

Definition createIbcMsgTransfer (portId : string) (forward : PendingIbcAutoForward)
    (sender : string) (timeoutTimestampNs : Z) : MsgTransfer :=
  mkMsgTransfer portId (pf_IbcChannel forward) (pf_Token forward) sender
    (pf_ForeignReceiver forward) timeoutTimestampNs "IBC Auto-Forward via Gravity Bridge".

(** Returns [true] when there is nothing to process. *)
Definition ProcessNextPendingIbcAutoForward : K W bool :=
  next ← GetNextPendingIbcAutoForward;
  match next with
  | None => mret true
  | Some forward =>
      _ ← or_panic "Invalid forward found in Pending IBC Auto-Forward queue"
            (PendingIbcAutoForward_ValidateBasic forward);
      _ ← or_panic "Invalid denom in Pending IBC Auto-Forward queue"
            (ValidateStrictDenom (Denom (pf_Token forward)));
      _ ← must "Discovered nonexistent Pending IBC Auto-Forward in the queue"
            (deletePendingIbcAutoForward (pf_EventNonce forward));
      portId ← gets (λ s, GetPort (st_world s));
      fallback ← or_panic "Invalid ForeignReceiver found in Pending IBC Auto-Forward queue"
                   (IBCAddressFromBech32 (pf_ForeignReceiver forward));
      coins ← opt_panic "NewCoins" (NewCoins1 (pf_Token forward));
      sent ← try (call (SendCoinsFromModuleToAccount ModuleName fallback coins));
      match sent with
      | Er _ => _ ← SendToCommunityPool coins; mret false
      | Ok _ =>
          timeoutTime ← thirtyDaysInFuture;
          transferred ← try (call (Transfer (createIbcMsgTransfer portId forward
                                     (AccAddressString fallback) timeoutTime)));
          match transferred with
          | Ok _ =>
              _ ← emit (EventSendToCosmosExecutedIbcAutoForward (pf_EventNonce forward)
                     (pf_ForeignReceiver forward) (Denom (pf_Token forward))
                     (Amount (pf_Token forward)) (pf_IbcChannel forward) timeoutTime);
              mret false
          | Er _ =>
              _ ← or_panic "IBCAddressFromBech32" (IBCAddressFromBech32 (pf_ForeignReceiver forward));
              _ ← emit (EventSendToCosmosLocal (pf_EventNonce forward) (pf_ForeignReceiver forward)
                     (Denom (pf_Token forward)) (Amount (pf_Token forward)));
              mret false
          end
      end
  end.

(** [for i := 0; i < forwardsToClear; i++], by recursion on the count. *)
Fixpoint process_forwards (n : nat) : K W unit :=
  match n with
  | O => mret tt
  | S n' =>
      stop ← ProcessNextPendingIbcAutoForward;
      if (stop : bool) then mret tt else process_forwards n'
  end.

Definition ProcessPendingIbcAutoForwards (forwardsToClear : Z) : K W unit :=
  process_forwards (Z.to_nat forwardsToClear).
End Queue.

(** A limit of 0 lists the whole queue. *)
Lemma PendingIbcAutoForwards_all {W} (s : State W) :
  PendingIbcAutoForwards_list 0 s = Ret (iter_asc (kv_forwards (st_kv s)) (None, None)).*2 s.
Proof.
  unfold PendingIbcAutoForwards_list, IteratePendingIbcAutoForwards.
  rewrite (bind_ret _ _ s (iter_asc (kv_forwards (st_kv s)) (None, None)) s) by done.
  match goal with |- for_acc _ _ ?body s = _ =>
    assert (∀ l acc, for_acc l acc body s = Ret (acc ++ l.*2) s) as Hl; [|apply Hl] end.
  induction l as [|[k f] l IH]; intros acc; [cbn; by rewrite app_nil_r|].
  cbn [for_acc fst snd]. rewrite (bind_ret _ _ s (acc ++ [f], false) s) by done.
  rewrite IH. cbn [fmap list_fmap snd]. by rewrite <- app_assoc.
Qed.
