(* ===== verification/LogicCall.v ===== *)
(** * Outgoing logic calls and their confirmations (keeper/keeper_logic_call.go,
      keeper/keeper.go) *)

From stdpp Require Import base gmap list strings.
From S2P Require Import Prelude GoStd External Store Ethereum Keys OutgoingTx Valset Claims Keeper.

#[local] Open Scope Z_scope.

Section LogicCalls.
Context {W : Type} `{Geth} `{Sdk} `{EthAbi}.

(** Unmarshalling resets the message before it reads (gogoproto.Unmarshal), so
    that no bytes give the zero message, whatever was preset: a missing call reads
    as the zero call. *)
Definition zero_call : OutgoingLogicCall := mkOutgoingLogicCall [] [] "" [] 0 [] 0 0.

Definition GetOutgoingLogicCall (invalidationID : bytes) (invalidationNonce : Z)
    : K W OutgoingLogicCall :=
  gets (λ s, default zero_call
               (kv_logicCalls (st_kv s) !! GetOutgoingLogicCallKey invalidationID invalidationNonce)).

Definition SetOutgoingLogicCall (call : OutgoingLogicCall) : K W unit :=
  gravityID ← GetGravityID;
  checkpoint ← opt_panic "GetCheckpoint" (OutgoingLogicCall_GetCheckpoint gravityID call);
  _ ← SetPastEthSignatureCheckpoint checkpoint;
  let key := GetOutgoingLogicCallKey (lc_InvalidationId call) (lc_InvalidationNonce call) in
  has ← gets (λ s, bool_decide (is_Some (kv_logicCalls (st_kv s) !! key)));
  _ ← guard_panic has "Can not overwrite logic call";
  modify (upd_kv (upd_logicCalls (insert key call))).

Definition DeleteOutgoingLogicCall (invalidationID : bytes) (invalidationNonce : Z) : K W unit :=
  modify (upd_kv (upd_logicCalls (delete (GetOutgoingLogicCallKey invalidationID invalidationNonce)))).

Definition IterateOutgoingLogicCalls {B} (acc : B)
    (cb : bytes → OutgoingLogicCall → B → K W (B * bool)) : K W B :=
  entries ← gets (λ s, iter_asc (kv_logicCalls (st_kv s)) (None, None));
  for_acc entries acc (λ kv acc, cb kv.1 kv.2 acc).

Definition GetOutgoingLogicCalls : K W (list OutgoingLogicCall) :=
  IterateOutgoingLogicCalls [] (λ _ call out, mret (out ++ [call], false)).

Definition CancelOutgoingLogicCall (invalidationId : bytes) (invalidationNonce : Z) : K W unit :=
  call ← GetOutgoingLogicCall invalidationId invalidationNonce;
  _ ← DeleteOutgoingLogicCall (lc_InvalidationId call) (lc_InvalidationNonce call);
  emit (EventOutgoingLogicCallCanceled (lc_InvalidationId call) (lc_InvalidationNonce call)).

(** ** Confirmations *)

Definition SetLogicCallConfirm (msg : MsgConfirmLogicCall) : K W unit :=
  bz ← opt_panic "hex.DecodeString" (hex_decode (cl_InvalidationId msg));
  acc ← or_panic "AccAddressFromBech32" (AccAddressFromBech32 (cl_Orchestrator msg));
  key ← opt_panic "invalid address" (GetLogicConfirmKey bz (cl_InvalidationNonce msg) acc);
  modify (upd_kv (upd_logicConfirms (insert key msg))).

Definition GetLogicCallConfirm (invalidationId : bytes) (invalidationNonce : Z) (val : bytes)
    : K W (option MsgConfirmLogicCall) :=
  if negb (is_ok (VerifyAddressFormat val)) then mret None else
  key ← opt_panic "invalid address" (GetLogicConfirmKey invalidationId invalidationNonce val);
  gets (λ s, kv_logicConfirms (st_kv s) !! key).

Definition DeleteLogicCallConfirm (invalidationID : bytes) (invalidationNonce : Z) (val : bytes)
    : K W unit :=
  key ← opt_panic "invalid address" (GetLogicConfirmKey invalidationID invalidationNonce val);
  modify (upd_kv (upd_logicConfirms (delete key))).

Definition iterateLogicConfirmsByPrefix {B} (prefix : bytes) (acc : B)
    (cb : bytes → MsgConfirmLogicCall → B → K W (B * bool)) : K W B :=
  entries ← gets (λ s, iter_asc (kv_logicConfirms (st_kv s)) (prefixRange prefix));
  for_acc entries acc (λ kv acc, cb kv.1 kv.2 acc).

Definition IterateLogicConfirmsByInvalidationIDAndNonce {B} (invalidationID : bytes)
    (invalidationNonce : Z) (acc : B) (cb : bytes → MsgConfirmLogicCall → B → K W (B * bool)) : K W B :=
  iterateLogicConfirmsByPrefix
    (GetLogicConfirmNonceInvalidationIdPrefix invalidationID invalidationNonce) acc cb.

Definition IterateLogicConfirms {B} (acc : B)
    (cb : bytes → MsgConfirmLogicCall → B → K W (B * bool)) : K W B :=
  iterateLogicConfirmsByPrefix KeyOutgoingLogicConfirm acc cb.

Definition GetLogicConfirmsByInvalidationIdAndNonce (invalidationId : bytes)
    (invalidationNonce : Z) : K W (list MsgConfirmLogicCall) :=
  IterateLogicConfirmsByInvalidationIDAndNonce invalidationId invalidationNonce []
    (λ _ msg out, mret (out ++ [msg], false)).

(** ** Slashing heights (keeper/keeper.go) *)

Definition HasLastSlashedLogicCallBlock : K W bool := raw_has LastSlashedLogicCallBlock.

Definition GetLastSlashedLogicCallBlock : K W Z :=
  bz ← raw_get LastSlashedLogicCallBlock;
  _ ← guard_panic (bool_decide (default [] bz = []))
        "Last slashed logic call block not initialized in genesis";
  opt_panic "Invalid uint64 bytes" (UInt64FromBytesUnsafe (default [] bz)).

Definition SetLastSlashedLogicCallBlock (blockHeight : Z) : K W unit :=
  has ← HasLastSlashedLogicCallBlock;
  _ ← (if (has : bool) then
         last ← GetLastSlashedLogicCallBlock;
         guard_panic (blockHeight <? last) "Attempted to decrement LastSlashedBatchBlock"
       else mret tt);
  raw_set LastSlashedLogicCallBlock (UInt64Bytes blockHeight).

(** The height bound is not used. *)
Definition GetUnSlashedLogicCalls (maxHeight : Z) : K W (list OutgoingLogicCall) :=
  lastSlashedLogicCallBlock ← GetLastSlashedLogicCallBlock;
  calls ← GetOutgoingLogicCalls;
  mret (filter (λ call, lastSlashedLogicCallBlock < lc_CosmosBlockCreated call) calls).
End LogicCalls.
