(* ===== verification/Pool.v ===== *)
(** * The pool of outgoing transfers (keeper/pool.go)

    A send to Ethereum locks the sender's coins in the module and waits in the
    pool, keyed by token contract, fee and id, until a batch picks it or its
    sender cancels it. *)

From stdpp Require Import base gmap list strings sorting.
From S2P Require Import Prelude GoStd External Store Ethereum Keys OutgoingTx Valset Claims Keeper Registry.

#[local] Open Scope Z_scope.

Record BatchFees := mkBatchFees { bf_Token : string; bf_TotalFees : Z; bf_TxCount : Z }.

Definition bf_le (x y : BatchFees) : Prop :=
  bytes_le (bytes_of_string (bf_Token x)) (bytes_of_string (bf_Token y)).
#[global] Instance bf_le_dec : RelDecision bf_le.
Proof. intros x y. unfold bf_le. apply _. Defined.

Section Pool.
Context {W : Type} `{Geth} `{Sdk} `{Bank W}.

(** ** Adding and removing entries *)

Definition addUnbatchedTX (val : InternalOutgoingTransferTx) : K W unit :=
  idxKey ← opt_panic "FillBytes" (GetOutgoingTxPoolKey (tx_Erc20Fee val) (tx_Id val));
  has ← gets (λ s, bool_decide (is_Some (kv_pool (st_kv s) !! idxKey)));
  _ ← guard_err has ErrDuplicate;
  let extVal := InternalOutgoingTransferTx_ToExternal val in
  modify (upd_kv (upd_pool (insert idxKey extVal))).

Definition removeUnbatchedTX (fee : InternalERC20Token) (txID : Z) : K W unit :=
  idxKey ← opt_panic "FillBytes" (GetOutgoingTxPoolKey fee txID);
  has ← gets (λ s, bool_decide (is_Some (kv_pool (st_kv s) !! idxKey)));
  _ ← guard_err (negb has) ErrUnknown;
  modify (upd_kv (upd_pool (delete idxKey))).

(** ** Search *)

Definition GetUnbatchedTxByFeeAndId (fee : InternalERC20Token) (txID : Z)
    : K W InternalOutgoingTransferTx :=
  idxKey ← opt_panic "FillBytes" (GetOutgoingTxPoolKey fee txID);
  bz ← gets (λ s, kv_pool (st_kv s) !! idxKey);
  match bz with
  | None => fail ErrUnknown
  | Some r => or_panic "invalid unbatched tx in store" (OutgoingTransferTx_ToInternal r)
  end.

(** The callback threads a local variable [acc] and returns [true] to stop. *)
Definition filterAndIterateUnbatchedTransactions {B} (prefixKey : bytes) (acc : B)
    (cb : bytes → InternalOutgoingTransferTx → B → K W (B * bool)) : K W B :=
  entries ← gets (λ s, iter_desc (kv_pool (st_kv s)) (prefixRange prefixKey));
  for_acc entries acc (λ kv acc,
    intTx ← or_panic "invalid unbatched transaction in store"
              (OutgoingTransferTx_ToInternal kv.2);
    cb kv.1 intTx acc).

Definition IterateUnbatchedTransactions {B} (acc : B)
    (cb : bytes → InternalOutgoingTransferTx → B → K W (B * bool)) : K W B :=
  filterAndIterateUnbatchedTransactions OutgoingTXPoolKey acc cb.

Definition IterateUnbatchedTransactionsByContract {B} (contractAddress : EthAddress) (acc : B)
    (cb : bytes → InternalOutgoingTransferTx → B → K W (B * bool)) : K W B :=
  filterAndIterateUnbatchedTransactions (GetOutgoingTxPoolContractPrefix contractAddress) acc cb.

Definition collectUnbatchedTransactions (prefixKey : bytes)
    : K W (list InternalOutgoingTransferTx) :=
  filterAndIterateUnbatchedTransactions prefixKey [] (λ _ tx out, mret (out ++ [tx], false)).

Definition GetUnbatchedTransactions : K W (list InternalOutgoingTransferTx) :=
  collectUnbatchedTransactions OutgoingTXPoolKey.

Definition GetUnbatchedTransactionsByContract (contractAddress : EthAddress)
    : K W (list InternalOutgoingTransferTx) :=
  collectUnbatchedTransactions (GetOutgoingTxPoolContractPrefix contractAddress).

Definition GetUnbatchedTxById (txID : Z) : K W InternalOutgoingTransferTx :=
  r ← IterateUnbatchedTransactions None (λ _ tx r,
        mret (if tx_Id tx =? txID then (Some tx, true) else (r, false)));
  match r with
  | None => fail ErrUnknown
  | Some tx => mret tx
  end.

(** ** Sending and cancelling *)

Definition AddToOutgoingPool (sender : bytes) (counterpartReceiver : EthAddress)
    (amount fee : Coin) : K W Z :=
  _ ← guard_err (negb (is_ok (VerifyAddressFormat sender)) ||
                 negb (is_ok (EthAddress_ValidateBasic counterpartReceiver)) ||
                 negb (Coin_IsValid amount) || negb (Coin_IsValid fee) ||
                 bool_decide (Denom fee ≠ Denom amount)) ErrInvalid;
  totalAmount ← opt_panic "Coin.Add" (Coin_Add amount fee);
  poolOrigin ← ClassifyDenom (Denom totalAmount);
  _ ← call (SendCoinsFromAccountToModule sender ModuleName [totalAmount]);
  nextID ← autoIncrementID KeyLastTXPoolID;
  erc20 ← opt_panic "nil ERC20" (ao_ERC20 poolOrigin);
  erc20Fee ← of_res (NewInternalERC20Token (Amount fee) (Hex (GetAddress erc20)));
  erc20Token ← of_res (NewInternalERC20Token (Amount amount) (Hex (GetAddress erc20)));
  outgoing ← or_panic "unable to create InternalOutgoingTransferTx"
    (OutgoingTransferTx_ToInternal
      (mkOutgoingTransferTx nextID (AccAddressString sender)
        (Hex (GetAddress counterpartReceiver))
        (InternalERC20Token_ToExternal erc20Token) (InternalERC20Token_ToExternal erc20Fee)));
  _ ← must "addUnbatchedTX" (addUnbatchedTX outgoing);
  bridge ← GetBridgeContractAddress;
  chain ← GetBridgeChainID;
  _ ← emit (EventWithdrawalReceived (Hex (GetAddress bridge)) chain nextID);
  mret nextID.

Definition RemoveFromOutgoingPoolAndRefund (txId : Z) (sender : bytes) : K W unit :=
  _ ← guard_err ((txId <? 1) || negb (is_ok (VerifyAddressFormat sender))) ErrInvalid;
  tx ← GetUnbatchedTxById txId;
  _ ← guard_err (bool_decide (tx_Sender tx ≠ sender)) ErrInvalid;
  _ ← guard_err (bool_decide (it_Contract (tx_Erc20Fee tx) ≠ it_Contract (tx_Erc20Token tx)))
        ErrInvalid;
  removed ← try (removeUnbatchedTX (tx_Erc20Fee tx) txId);
  _ ← guard_err (negb (is_ok removed)) ErrInvalid;
  old ← try (GetUnbatchedTxByFeeAndId (tx_Erc20Fee tx) (tx_Id tx));
  _ ← guard_err (is_ok old) ErrInvalid;
  refundOrigin ← ClassifyERC20 (it_Contract (tx_Erc20Token tx));
  totalToRefund ← opt_panic "NewCoin"
    (NewCoin (ao_Denom refundOrigin) (it_Amount (tx_Erc20Token tx)));
  refundAmount ← opt_panic "Int.Add" (Int_Add (Amount totalToRefund) (it_Amount (tx_Erc20Fee tx)));
  totalToRefundCoins ← opt_panic "NewCoins"
    (NewCoins1 (mkCoin (Denom totalToRefund) refundAmount));
  _ ← call (SendCoinsFromModuleToAccount ModuleName sender totalToRefundCoins);
  bridge ← GetBridgeContractAddress;
  chain ← GetBridgeChainID;
  emit (EventWithdrawCanceled (AccAddressString sender) txId (Hex (GetAddress bridge)) chain).

(** ** Batch fees *)

Definition GetBatchFeeByTokenType (tokenContractAddr : EthAddress) (maxElements : Z)
    : K W BatchFees :=
  IterateUnbatchedTransactionsByContract tokenContractAddr
    (mkBatchFees (Hex (GetAddress tokenContractAddr)) 0 0) (λ _ tx batchFee,
      black ← IsOnBlacklist (tx_DestAddress tx);
      if negb black then
        let fee := tx_Erc20Fee tx in
        _ ← guard_panic (bool_decide (GetAddress (it_Contract fee) ≠ GetAddress tokenContractAddr))
              "unexpected fee contract";
        total ← opt_panic "Int.Add" (Int_Add (bf_TotalFees batchFee) (it_Amount fee));
        let count := u64 (bf_TxCount batchFee + 1) in
        mret (mkBatchFees (bf_Token batchFee) total count, count =? maxElements)
      else mret (batchFee, false)).

Definition createBatchFees (maxElements : Z) : K W (gmap string BatchFees) :=
  IterateUnbatchedTransactions ∅ (λ _ tx batchFeesMap,
    let feeAddrStr := Hex (GetAddress (it_Contract (tx_Erc20Fee tx))) in
    match batchFeesMap !! feeAddrStr with
    | Some fees =>
        if bf_TxCount fees <? maxElements then
          total ← opt_panic "Int.Add" (Int_Add (bf_TotalFees fees) (it_Amount (tx_Erc20Fee tx)));
          mret (<[feeAddrStr := mkBatchFees (bf_Token fees) total (u64 (bf_TxCount fees + 1))]>
                  batchFeesMap, false)
        else mret (batchFeesMap, false)
    | None =>
        mret (<[feeAddrStr := mkBatchFees feeAddrStr (it_Amount (tx_Erc20Fee tx)) 1]>
                batchFeesMap, false)
    end).

Definition GetAllBatchFees (maxElements : Z) : K W (list BatchFees) :=
  batchFeesMap ← createBatchFees maxElements;
  mret (merge_sort bf_le (map_to_list batchFeesMap).*2).
End Pool.
