(* ===== verification/Batch.v ===== *)
(** * Batches of outgoing transfers (keeper/batch.go, keeper/keeper_batch.go)

    A batch takes the most profitable transfers of one token out of the pool; it
    is executed on Ethereum, or cancelled, which puts its transfers back. *)

From stdpp Require Import base gmap list strings.
From S2P Require Import Prelude GoStd External Store Ethereum Keys OutgoingTx Valset Claims Keeper Registry Pool.

#[local] Open Scope Z_scope.

Definition OutgoingTxBatchSize : Z := 100.

Section Confirms.
Context {W : Type} `{Geth} `{Sdk}.

(** ** Confirmations (keeper/keeper_batch.go) *)

Definition GetBatchConfirm (nonce : Z) (tokenContract : EthAddress) (validator : bytes)
    : K W (option MsgConfirmBatch) :=
  if negb (is_ok (VerifyAddressFormat validator)) then mret None else
  key ← opt_panic "invalid validator address" (GetBatchConfirmKey tokenContract nonce validator);
  gets (λ s, kv_batchConfirms (st_kv s) !! key).

Definition SetBatchConfirm (batch : MsgConfirmBatch) : K W bytes :=
  acc ← or_panic "invalid Orchestrator address" (AccAddressFromBech32 (cb_Orchestrator batch));
  contract ← or_panic "invalid TokenContract" (NewEthAddress (cb_TokenContract batch));
  key ← opt_panic "invalid validator address" (GetBatchConfirmKey contract (cb_Nonce batch) acc);
  _ ← modify (upd_kv (upd_batchConfirms (insert key batch)));
  mret key.

Definition GetBatchConfirmByNonceAndTokenContract (nonce : Z) (tokenContract : EthAddress)
    : K W (list MsgConfirmBatch) :=
  gets (λ s, (iter_asc (kv_batchConfirms (st_kv s))
                (prefixRange (GetBatchConfirmNonceContractPrefix tokenContract nonce))).*2).

Definition IterateBatchConfirms {B} (acc : B) (cb : bytes → MsgConfirmBatch → B → K W (B * bool))
    : K W B :=
  entries ← gets (λ s, iter_asc (kv_batchConfirms (st_kv s)) (None, None));
  for_acc entries acc (λ kv acc, cb kv.1 kv.2 acc).

Definition DeleteBatchConfirms (batch : InternalOutgoingTxBatch) : K W unit :=
  confirms ← GetBatchConfirmByNonceAndTokenContract (ib_BatchNonce batch) (ib_TokenContract batch);
  for_each confirms (λ confirm,
    match AccAddressFromBech32 (cb_Orchestrator confirm) with
    | Er _ => mret tt
    | Ok orchestrator =>
        confirmKey ← opt_panic "invalid validator address"
          (GetBatchConfirmKey (ib_TokenContract batch) (ib_BatchNonce batch) orchestrator);
        modify (upd_kv (upd_batchConfirms (delete confirmKey)))
    end).
End Confirms.

Section Batches.
Context {W : Type} `{Geth} `{Sdk} `{Bank W}.

(** ** Storage *)

Definition StoreBatch (batch : InternalOutgoingTxBatch) : K W unit :=
  _ ← or_panic "attempted to store invalid batch" (InternalOutgoingTxBatch_ValidateBasic batch);
  let externalBatch := InternalOutgoingTxBatch_ToExternal batch in
  let key := GetOutgoingTxBatchKey (ib_TokenContract batch) (ib_BatchNonce batch) in
  has ← gets (λ s, bool_decide (is_Some (kv_batches (st_kv s) !! key)));
  _ ← guard_panic has "Should never overwrite batch!";
  modify (upd_kv (upd_batches (insert key externalBatch))).

Definition DeleteBatch (batch : InternalOutgoingTxBatch) : K W unit :=
  _ ← or_panic "attempted to delete invalid batch" (InternalOutgoingTxBatch_ValidateBasic batch);
  modify (upd_kv (upd_batches
    (delete (GetOutgoingTxBatchKey (ib_TokenContract batch) (ib_BatchNonce batch))))).

(** The loop over [b.Transactions] assigns to a copy of each element, so the
    stored contracts are what is returned. *)
Definition GetOutgoingTXBatch (tokenContract : EthAddress) (nonce : Z)
    : K W (option InternalOutgoingTxBatch) :=
  bz ← gets (λ s, kv_batches (st_kv s) !! GetOutgoingTxBatchKey tokenContract nonce);
  match bz with
  | None => mret None
  | Some b =>
      ret ← or_panic "found invalid batch in store" (OutgoingTxBatch_ToInternal b);
      mret (Some ret)
  end.

Definition IterateOutgoingTxBatches {B} (acc : B)
    (cb : InternalOutgoingTxBatch → B → K W (B * bool)) : K W B :=
  entries ← gets (λ s, iter_desc (kv_batches (st_kv s)) (None, None));
  for_acc entries acc (λ kv acc,
    intBatch ← or_panic "found invalid batch in store" (OutgoingTxBatch_ToInternal kv.2);
    cb intBatch acc).

Definition GetOutgoingTxBatches : K W (list InternalOutgoingTxBatch) :=
  IterateOutgoingTxBatches [] (λ batch out, mret (out ++ [batch], false)).

Definition GetOutgoingTxBatchesByNonce : K W (gmap Z InternalOutgoingTxBatch) :=
  IterateOutgoingTxBatches ∅ (λ batch batchesByNonce,
    _ ← guard_panic (bool_decide (is_Some (batchesByNonce !! ib_BatchNonce batch)))
          "Batch with duplicate batch nonce in store";
    mret (<[ib_BatchNonce batch := batch]> batchesByNonce, false)).

(** The batch of [token] with the greatest nonce among [batches]. *)
Definition last_batch (token : EthAddress) (batches : list InternalOutgoingTxBatch)
    : option InternalOutgoingTxBatch * Z :=
  foldl (λ '(lastBatch, lastNonce) batch,
           if bool_decide (GetAddress (ib_TokenContract batch) = GetAddress token) &&
              (lastNonce <? ib_BatchNonce batch)
           then (Some batch, ib_BatchNonce batch) else (lastBatch, lastNonce))
    (None, 0) batches.

Definition GetLastOutgoingBatchByTokenType (token : EthAddress)
    : K W (option InternalOutgoingTxBatch) :=
  batches ← GetOutgoingTxBatches;
  mret (last_batch token batches).1.

(** ** Slashing heights *)

Definition HasLastSlashedBatchBlock : K W bool := raw_has LastSlashedBatchBlock.

Definition GetLastSlashedBatchBlock : K W Z :=
  bz ← raw_get LastSlashedBatchBlock;
  _ ← guard_panic (bool_decide (default [] bz = []))
        "Last slashed batch block not initialized from genesis";
  opt_panic "Invalid uint64 bytes" (UInt64FromBytesUnsafe (default [] bz)).

Definition SetLastSlashedBatchBlock (blockHeight : Z) : K W unit :=
  has ← HasLastSlashedBatchBlock;
  _ ← (if (has : bool) then
         last ← GetLastSlashedBatchBlock;
         guard_panic (blockHeight <? last) "Attempted to decrement LastSlashedBatchBlock"
       else mret tt);
  raw_set LastSlashedBatchBlock (UInt64Bytes blockHeight).

Definition GetUnSlashedBatches (maxHeight : Z) : K W (list InternalOutgoingTxBatch) :=
  lastSlashedBatchBlock ← GetLastSlashedBatchBlock;
  batches ← GetOutgoingTxBatches;
  mret (filter (λ batch, lastSlashedBatchBlock < ib_CosmosBlockCreated batch ∧
                         ib_CosmosBlockCreated batch < maxHeight) batches).

(** ** Building a batch *)

Definition pickUnbatchedTxs (contractAddress : EthAddress) (maxElements : Z)
    : K W (list InternalOutgoingTransferTx) :=
  IterateUnbatchedTransactionsByContract contractAddress [] (λ _ tx selectedTxs,
    black ← IsOnBlacklist (tx_DestAddress tx);
    if negb black then
      let selectedTxs := selectedTxs ++ [tx] in
      _ ← must "Failed to remote tx from unbatched queue"
            (removeUnbatchedTX (tx_Erc20Fee tx) (tx_Id tx));
      old ← try (GetUnbatchedTxByFeeAndId (tx_Erc20Fee tx) (tx_Id tx));
      _ ← guard_panic (is_ok old) "picked a duplicate transaction from the pool";
      mret (selectedTxs, Z.of_nat (length selectedTxs) =? maxElements)
    else mret (selectedTxs, false)).

(** The arithmetic of [getBatchTimeoutHeight], on 64-bit unsigned integers. *)
Definition batch_timeout (params : Params) (currentCosmosHeight : Z)
    (heights : LastObservedEthereumBlockHeight) : option Z :=
  if (CosmosBlockHeight heights =? 0) || (EthereumBlockHeight heights =? 0) then Some 0 else
  let projectedMillis :=
    u64 (u64 (currentCosmosHeight - CosmosBlockHeight heights) * p_AverageBlockTime params) in
  if p_AverageEthereumBlockTime params =? 0 then None else
  let projectedCurrentEthereumHeight :=
    u64 (projectedMillis / p_AverageEthereumBlockTime params + EthereumBlockHeight heights) in
  let blocksToAdd := p_TargetBatchTimeout params / p_AverageEthereumBlockTime params in
  Some (u64 (projectedCurrentEthereumHeight + blocksToAdd)).

Definition getBatchTimeoutHeight : K W Z :=
  params ← must "failed to get params" GetParams;
  currentCosmosHeight ← BlockHeight;
  heights ← GetLastObservedEthereumBlockHeight;
  opt_panic "integer divide by zero" (batch_timeout params currentCosmosHeight heights).

Context `{EthAbi}.

Definition BuildOutgoingTXBatch (contract : EthAddress) (maxElements : Z)
    : K W InternalOutgoingTxBatch :=
  _ ← guard_err (maxElements =? 0) ErrInvalid;
  _ ← RequireBridgeActive;
  lastBatch ← GetLastOutgoingBatchByTokenType contract;
  _ ← match lastBatch with
      | None => mret tt
      | Some last =>
          currentFees ← GetBatchFeeByTokenType contract maxElements;
          lastFees ← opt_panic "Int.Add" (GetFees (InternalOutgoingTxBatch_ToExternal last));
          guard_err (bf_TotalFees currentFees <=? lastFees) ErrInvalid
      end;
  selectedTxs ← pickUnbatchedTxs contract maxElements;
  _ ← guard_err (bool_decide (selectedTxs = [])) ErrInvalid;
  nextID ← autoIncrementID KeyLastOutgoingBatchID;
  timeout ← getBatchTimeoutHeight;
  batch ← or_panic "unable to create batch"
            (NewInternalOutgingTxBatch nextID timeout selectedTxs contract 0);
  height ← BlockHeight;
  let batch := mkInternalOutgoingTxBatch (ib_BatchNonce batch) (ib_BatchTimeout batch)
                 (ib_Transactions batch) (ib_TokenContract batch) height in
  _ ← StoreBatch batch;
  gravityID ← GetGravityID;
  checkpoint ← opt_panic "GetCheckpoint" (InternalOutgoingTxBatch_GetCheckpoint gravityID batch);
  _ ← SetPastEthSignatureCheckpoint checkpoint;
  bridge ← GetBridgeContractAddress;
  chain ← GetBridgeChainID;
  _ ← emit (EventOutgoingBatch (Hex (GetAddress bridge)) chain
              (GetOutgoingTxBatchKey contract nextID) nextID);
  mret batch.

(** ** Cancelling and executing *)

Definition CancelOutgoingTXBatch (tokenContract : EthAddress) (nonce : Z) : K W unit :=
  found ← GetOutgoingTXBatch tokenContract nonce;
  match found with
  | None => fail ErrUnknown
  | Some batch =>
      _ ← for_each (ib_Transactions batch) (λ tx,
            must "unable to add batched transaction back into pool" (addUnbatchedTX tx));
      _ ← DeleteBatch batch;
      _ ← DeleteBatchConfirms batch;
      bridge ← GetBridgeContractAddress;
      chain ← GetBridgeChainID;
      emit (EventOutgoingBatchCanceled (Hex (GetAddress bridge)) chain
              (GetOutgoingTxBatchKey tokenContract nonce) nonce)
  end.

(** [totalToBurn = totalToBurn.Add(token.Add(fee))] over the transactions *)
Definition total_to_burn (txs : list InternalOutgoingTransferTx) : option Z :=
  foldl (λ sum tx, s ← sum;
           t ← Int_Add (it_Amount (tx_Erc20Token tx)) (it_Amount (tx_Erc20Fee tx));
           Int_Add s t) (Some 0) txs.

Definition OutgoingTxBatchExecuted (tokenContract : EthAddress)
    (claim : MsgBatchSendToEthClaim) : K W unit :=
  found ← GetOutgoingTXBatch tokenContract (bc_BatchNonce claim);
  b ← opt_panic "unknown batch nonce for outgoing tx batch" found;
  _ ← guard_panic (ib_BatchTimeout b <=? bc_EthBlockHeight claim)
        "Batch submitted after it timed out";
  let contract := ib_TokenContract b in
  contractOrigin ← must "ClassifyERC20" (ClassifyERC20 contract);
  _ ← (if decide (ao_Origin contractOrigin = AssetOriginEthereum) then
         totalToBurn ← opt_panic "Int.Add" (total_to_burn (ib_Transactions b));
         coin ← opt_panic "NewCoin" (NewCoin (ao_Denom contractOrigin) totalToBurn);
         burnVouchers ← opt_panic "NewCoins" (NewCoins1 coin);
         must "BurnCoins" (call (BurnCoins ModuleName burnVouchers))
       else mret tt);
  _ ← IterateOutgoingTxBatches tt (λ batch _,
        if (ib_BatchNonce batch <? ib_BatchNonce b) &&
           bool_decide (GetAddress (ib_TokenContract batch) = GetAddress tokenContract)
        then
          _ ← must "Failed cancel out batch"
                (CancelOutgoingTXBatch tokenContract (ib_BatchNonce batch));
          mret (tt, false)
        else mret (tt, false));
  _ ← DeleteBatch b;
  DeleteBatchConfirms b.
End Batches.

Lemma readonly_GetOutgoingTXBatch {W} `{Geth} `{Sdk} a n : readonly (GetOutgoingTXBatch a n : K W _).
Proof. unfold GetOutgoingTXBatch. readonly. Qed.
#[export] Hint Resolve readonly_GetOutgoingTXBatch : readonly.
