(* ===== verification/EndBlock.v ===== *)
(** * The end blocker (abci.go)

    What the module does at the end of every block: it slashes validators that
    have not signed what they had to sign, tallies the attestations, cancels what
    has timed out on Ethereum, asks for a new validator set when the powers have
    moved, and removes what is no longer needed. *)

From stdpp Require Import base gmap list strings sorting.
From S2P Require Import Prelude GoStd External Store Ethereum Keys OutgoingTx Valset Claims Keeper DelegateKeys Attestation Registry ValsetKeeper LogicCall Pool Batch.

#[local] Open Scope Z_scope.

(** ** Power difference (types/validation.go)

    The Go code adds up the absolute differences as [float64] and divides by
    [math.MaxUint32]; powers are at most 2^32, so the sum is an exact integer. *)
Section PowerDiff.
Context `{Geth}.

Definition power_map (b c : list InternalBridgeValidator) : gmap string Z :=
  let addr v := Hex (GetAddress (ibv_EthereumAddress v)) in
  let powers := foldl (λ m bv, <[addr bv := int64 (ibv_Power bv)]> m) ∅ b in
  foldl (λ m bv, match m !! addr bv with
                 | Some val => <[addr bv := val - int64 (ibv_Power bv)]> m
                 | None => <[addr bv := - int64 (ibv_Power bv)]> m
                 end) powers c.

(** The sum [delta] of the absolute differences. *)
Definition PowerDelta (b c : list InternalBridgeValidator) : Z :=
  sumZ (λ kv, Z.abs kv.2) (map_to_list (power_map b c)).

Definition MaxUint32 : Z := 4294967295.

(** [PowerDiff > 0.05]: the code divides the sum by 2^32 - 1 as [float64].  The powers
    of a validator set are normalized to add up to 2^32 at most, so the sum is an
    integer below 2^34, exact as a [float64]; its quotient is never 1/20, because
    2^32 - 1 is odd, and differs from it by at least 1/(20 * (2^32 - 1)), far more than
    the rounding: for these powers the comparison of integers gives the same answer. *)
Definition significant_diff (b c : list InternalBridgeValidator) : bool :=
  MaxUint32 <? 20 * PowerDelta b c.
End PowerDiff.

(** ** Hooks of x/staking (keeper/hooks.go)

    The other hooks do nothing. *)

Definition AfterValidatorBeginUnbonding {W} : K W unit :=
  height ← BlockHeight;
  SetLastUnBondingBlockHeight height.

(** ** Validator sets *)

Section Valsets.
Context {W : Type} `{Geth} `{Sdk} `{Bank W} `{Staking W} `{EthAbi}.

Definition createValsets : K W unit :=
  latestValset ← GetLatestValset;
  lastUnbondingHeight ← GetLastUnBondingBlockHeight;
  significantPowerDiff ←
    match latestValset with
    | None => mret (Some false)
    | Some latest =>
        current ← try GetCurrentValset;
        match current with
        | Er ErrNoValidators => mret None
        | Er _ => panic "GetCurrentValset"
        | Ok vs =>
            intCurrMembers ← or_panic "invalid current valset members"
                               (BridgeValidators_ToInternal (vs_Members vs));
            intLatestMembers ← or_panic "invalid latest valset members"
                                 (BridgeValidators_ToInternal (vs_Members latest));
            mret (Some (significant_diff intCurrMembers intLatestMembers))
        end
    end;
  match significantPowerDiff with
  | None => mret tt
  | Some diff =>
      height ← BlockHeight;
      if bool_decide (latestValset = None) || (lastUnbondingHeight =? height) || diff
      then _ ← SetValsetRequest; mret tt
      else mret tt
  end.

Definition pruneValsets (params : Params) : K W unit :=
  lastObserved ← gets (λ s, kv_observedValset (st_kv s));
  currentBlock ← BlockHeight;
  match lastObserved with
  | Some lastObserved =>
      if currentBlock <? p_SignedValsetsWindow params then mret tt else
      let earliestToPrune := currentBlock - p_SignedValsetsWindow params in
      sets ← GetValsets;
      for_each sets (λ set,
        if (vs_Nonce set <? vs_Nonce lastObserved) && (vs_Height set <? earliestToPrune) then
          _ ← DeleteValset (vs_Nonce set);
          DeleteValsetConfirms (vs_Nonce set)
        else mret tt)
  | None => mret tt
  end.

(** ** Slashing *)

(** The operator addresses of the validators behind a list of confirms; a Go map
    from operator to confirm of which only the keys are used. *)
Definition confirming (orchestrators : list string) (msg : string) : K W (gset string) :=
  for_acc orchestrators ∅ (λ orchestrator ret,
    confVal ← or_panic msg (AccAddressFromBech32 orchestrator);
    r ← GetOrchestratorValidatorAddr confVal;
    let '(val, foundValidator) := r in
    _ ← guard_panic (negb foundValidator) "Confirm from validator we can't identify?";
    mret ({[ ValAddressString (default [] val) ]} ∪ ret, false)).

Definition prepValsetConfirms (nonce : Z) : K W (gset string) :=
  confirms ← GetValsetConfirms nonce;
  confirming (vc_Orchestrator <$> confirms) "Invalid confirm in store".

Definition prepBatchConfirms (batch : InternalOutgoingTxBatch) : K W (gset string) :=
  confirms ← GetBatchConfirmByNonceAndTokenContract (ib_BatchNonce batch) (ib_TokenContract batch);
  confirming (cb_Orchestrator <$> confirms) "AccAddressFromBech32".

Definition prepLogicCallConfirms (call : OutgoingLogicCall) : K W (gset string) :=
  confirms ← GetLogicConfirmsByInvalidationIdAndNonce (lc_InvalidationId call)
               (lc_InvalidationNonce call);
  confirming (cl_Orchestrator <$> confirms) "AccAddressFromBech32".

Definition updateValidator (val : bytes) : K W Validator :=
  valObj ← gets (λ s, GetValidator (st_world s) val);
  or_panic "Validator exited set during endblocker?" valObj.

(** The innermost block of the slashing loops: refresh the validator, and slash
    and jail it unless it is in jail already. *)
Definition slash_and_jail (val : Validator) (consAddr : bytes) (fraction : Z) (ty : string) : K W unit :=
  operator ← or_panic "Failed to parse validator operator address"
               (ValAddressFromBech32 (v_OperatorAddress val));
  val ← updateValidator operator;
  if negb (v_Jailed val) then
    height ← gets st_height;
    _ ← must "Failed to slash validator"
          (call (Slash consAddr height (v_ConsensusPower val) fraction));
    _ ← emit (EventSignatureSlashing ty consAddr);
    must "Failed to jail validator" (call (Jail consAddr))
  else mret tt.

(** The body of the loops over the bonded validators: [created] is the height at
    which the validators were asked to sign. *)
Definition slash_bonded (confirms : gset string) (created fraction : Z) (ty : string)
    (val : Validator) : K W unit :=
  consAddr ← or_panic "Failed to get validator consensus addr" (v_ConsAddr val);
  info ← gets (λ s, SigningStartHeight (st_world s) consAddr);
  startHeight ← or_panic "Failed to get validator signing info" info;
  if startHeight <? int64 created then
    if bool_decide (v_OperatorAddress val ∉ confirms)
    then slash_and_jail val consAddr fraction ty else mret tt
  else mret tt.

Definition getUnbondingValidators : K W (list string) :=
  queue ← gets (λ s, UnbondingQueue (st_world s));
  or_panic "Failed to get unbonding validator iterator" queue.

(** The body of the loop over the unbonding validators. *)
Definition slash_unbonding (params : Params) (confirms : gset string) (vs : Valset)
    (valAddr : string) : K W unit :=
  addr ← or_panic "ValAddressFromBech32" (ValAddressFromBech32 valAddr);
  found ← gets (λ s, GetValidator (st_world s) addr);
  validator ← or_panic "Unable to find validator!" found;
  valConsAddr ← or_panic "GetConsAddr" (v_ConsAddr validator);
  info ← gets (λ s, SigningStartHeight (st_world s) valConsAddr);
  startHeight ← or_panic "GetValidatorSigningInfo" info;
  let startedBeforeValsetCreated := startHeight <? int64 (vs_Height vs) in
  let unbondingPeriodEndsAfterSlashingPeriod :=
    vs_Height vs <? u64 (u64 (v_UnbondingHeight validator) + p_UnbondSlashingValsetsWindow params) in
  if startedBeforeValsetCreated && bool_decide (v_Status validator = Unbonding) &&
     unbondingPeriodEndsAfterSlashingPeriod
  then
    if bool_decide (v_OperatorAddress validator ∉ confirms)
    then slash_and_jail validator valConsAddr (p_SlashFractionValset params) "valset_signature_slashing"
    else mret tt
  else mret tt.

Definition bonded_set : K W (list Validator) :=
  bonded ← gets (λ s, GetBondedValidatorsByPower (st_world s));
  or_panic "Failed to get bonded validators" bonded.

Definition valsetSlashing (params : Params) : K W unit :=
  height ← BlockHeight;
  if height <=? p_SignedValsetsWindow params then mret tt else
  unslashedValsets ← GetUnSlashedValsets (p_SignedValsetsWindow params);
  currentBondedSet ← bonded_set;
  unbondingValidators ← getUnbondingValidators;
  for_each unslashedValsets (λ vs,
    confirms ← prepValsetConfirms (vs_Nonce vs);
    _ ← for_each currentBondedSet
          (slash_bonded confirms (vs_Height vs) (p_SlashFractionValset params)
             "valset_signature_slashing");
    _ ← for_each unbondingValidators (slash_unbonding params confirms vs);
    SetLastSlashedValsetNonce (vs_Nonce vs)).

Definition batchSlashing (params : Params) : K W unit :=
  height ← BlockHeight;
  if negb (p_SignedBatchesWindow params <? height) then mret tt else
  let maxHeight := height - p_SignedBatchesWindow params in
  currentBondedSet ← bonded_set;
  unslashedBatches ← GetUnSlashedBatches maxHeight;
  for_each unslashedBatches (λ batch,
    confirms ← prepBatchConfirms batch;
    _ ← for_each currentBondedSet
          (slash_bonded confirms (ib_CosmosBlockCreated batch) (p_SlashFractionBatch params)
             "batch_signature_slashing");
    SetLastSlashedBatchBlock (ib_CosmosBlockCreated batch)).

Definition logicCallSlashing (params : Params) : K W unit :=
  height ← BlockHeight;
  if negb (p_SignedLogicCallsWindow params <? height) then mret tt else
  let maxHeight := height - p_SignedLogicCallsWindow params in
  currentBondedSet ← bonded_set;
  unslashedLogicCalls ← GetUnSlashedLogicCalls maxHeight;
  for_each unslashedLogicCalls (λ call,
    confirms ← prepLogicCallConfirms call;
    _ ← for_each currentBondedSet
          (slash_bonded confirms (lc_CosmosBlockCreated call) (p_SlashFractionLogicCall params)
             "logic_call_signature_slashing");
    SetLastSlashedLogicCallBlock (lc_CosmosBlockCreated call)).

Definition slashing : K W unit :=
  params ← must "failed to get params" GetParams;
  _ ← valsetSlashing params;
  _ ← batchSlashing params;
  logicCallSlashing params.

(** ** Time-outs *)

Definition cleanupTimedOutBatches : K W unit :=
  heights ← GetLastObservedEthereumBlockHeight;
  let ethereumHeight := EthereumBlockHeight heights in
  batches ← GetOutgoingTxBatches;
  for_each batches (λ batch,
    if ib_BatchTimeout batch <? ethereumHeight then
      must "Failed to cancel outgoing txbatch!"
        (CancelOutgoingTXBatch (ib_TokenContract batch) (ib_BatchNonce batch))
    else mret tt).

Definition cleanupTimedOutLogicCalls : K W unit :=
  heights ← GetLastObservedEthereumBlockHeight;
  let ethereumHeight := EthereumBlockHeight heights in
  calls ← GetOutgoingLogicCalls;
  for_each calls (λ call,
    if lc_Timeout call <? ethereumHeight then
      must "Failed to cancel outgoing logic call!"
        (CancelOutgoingLogicCall (lc_InvalidationId call) (lc_InvalidationNonce call))
    else mret tt).
End Valsets.

(** ** The whole end blocker *)

Section EndBlocker.
Context {W : Type} `{Geth} `{Sdk} `{Hashing} `{Codec} `{Bank W} `{Staking W} `{EthAbi}.
Context `{AttestationHandler W}.

Definition EndBlocker : K W unit :=
  params ← must "failed to get params" GetParams;
  _ ← slashing;
  _ ← attestationTally;
  _ ← cleanupTimedOutBatches;
  _ ← cleanupTimedOutLogicCalls;
  _ ← createValsets;
  _ ← pruneValsets params;
  pruneAttestations.
End EndBlocker.
