(* ===== verification/ValsetTracking.v ===== *)
(** * The validator set on Ethereum follows the voting powers (abci.go, createValsets)

    At the end of every block the module compares the current validator set with
    the latest one it asked to be signed, and asks for a new one when they have
    drifted apart. *)

From stdpp Require Import base gmap list strings sorting.
From S2P Require Import Prelude GoStd External Store Ethereum Keys OutgoingTx Valset Claims Keeper DelegateKeys Attestation OracleCorrect Registry ValsetKeeper ValsetCorrect LogicCall Pool Batch EndBlock.

#[local] Open Scope Z_scope.

(** ** A validator set does not differ from itself *)

Section PowerMaps.
Context `{Geth}.
Implicit Types (b c : list InternalBridgeValidator) (m : gmap string Z).

Definition hex_of (v : InternalBridgeValidator) : string := Hex (GetAddress (ibv_EthereumAddress v)).

Definition put_power m (bv : InternalBridgeValidator) : gmap string Z :=
  <[hex_of bv := int64 (ibv_Power bv)]> m.
Definition sub_power m (bv : InternalBridgeValidator) : gmap string Z :=
  match m !! hex_of bv with
  | Some val => <[hex_of bv := val - int64 (ibv_Power bv)]> m
  | None => <[hex_of bv := - int64 (ibv_Power bv)]> m
  end.

Lemma put_powers_other b m k : k ∉ hex_of <$> b → foldl put_power m b !! k = m !! k.
Proof.
  revert m. induction b as [|v b IH]; intros m Hk; [done|].
  cbn [fmap list_fmap] in Hk. apply not_elem_of_cons in Hk as [Hne Hk]. cbn [foldl].
  rewrite IH by done. unfold put_power. by rewrite lookup_insert_ne.
Qed.

Lemma put_powers_in b m v :
  NoDup (hex_of <$> b) → v ∈ b → foldl put_power m b !! hex_of v = Some (int64 (ibv_Power v)).
Proof.
  revert m. induction b as [|w b IH]; intros m Hnd Hv; [by apply not_elem_of_nil in Hv|].
  cbn [fmap list_fmap] in Hnd. apply NoDup_cons in Hnd as [Hw Hnd]. cbn [foldl].
  apply elem_of_cons in Hv as [->|Hv]; [|by apply IH].
  rewrite put_powers_other by done. unfold put_power. by rewrite lookup_insert_eq.
Qed.

Lemma sub_powers_zero b m :
  NoDup (hex_of <$> b) → (∀ v, v ∈ b → m !! hex_of v = Some (int64 (ibv_Power v))) →
  ∀ k x, foldl sub_power m b !! k = Some x → (k ∈ hex_of <$> b ∧ x = 0) ∨ (k ∉ hex_of <$> b ∧ m !! k = Some x).
Proof.
  revert m. induction b as [|w b IH]; intros m Hnd Hm k x Hk; [right; split; [apply not_elem_of_nil|done]|].
  cbn [fmap list_fmap] in *. apply NoDup_cons in Hnd as [Hw Hnd]. cbn [foldl] in Hk.
  assert (sub_power m w = <[hex_of w := 0]> m) as E.
  { unfold sub_power. rewrite (Hm w) by set_solver. f_equal. lia. }
  rewrite E in Hk. apply IH in Hk as [[Hin ->]|[Hni Hx]]; [| |done|].
  - left. split; [by right|done].
  - rewrite not_elem_of_cons, elem_of_cons. apply lookup_insert_Some in Hx as [[<- <-]|[Hne Hx]]; auto.
  - intros v Hv. rewrite lookup_insert_ne; [apply Hm; by right|].
    intros Eh. apply Hw. rewrite Eh. by apply list_elem_of_fmap_2.
Qed.

Lemma PowerDelta_refl b : NoDup (hex_of <$> b) → PowerDelta b b = 0.
Proof.
  intros Hnd. unfold PowerDelta.
  change (power_map b b) with (foldl sub_power (foldl put_power ∅ b) b).
  trans (sumZ (λ _ : string * Z, 0) (map_to_list (foldl sub_power (foldl put_power ∅ b) b))).
  - apply sumZ_ext, Forall_forall. intros [k x] Hk%elem_of_map_to_list. simpl.
    apply sub_powers_zero in Hk as [[_ ->]|[Hni Hx]]; [done| |done|by intros; apply put_powers_in].
    by rewrite put_powers_other, lookup_empty in Hx.
  - induction (map_to_list _) as [|kx l IH]; [done|]. simpl. lia.
Qed.

Lemma significant_diff_refl b : NoDup (hex_of <$> b) → significant_diff b b = false.
Proof. intros Hnd. unfold significant_diff. by rewrite PowerDelta_refl. Qed.
End PowerMaps.

Section Tracking.
Context {W : Type} `{GethLaws} `{Sdk} `{Bank W} `{Staking W} `{EthAbi}.
Implicit Types s : State W.

#[local] Abbreviation valsets s := (kv_valsets (st_kv s)).

Lemma current_members s v s' :
  GetCurrentValset s = Ret v s' →
  ∃ ms, BridgeValidators_ToInternal (vs_Members v) = Ok ms ∧ NoDup (hex_of <$> ms).
Proof.
  intros (latest & members & amount & token & total & _ & _ & Hnew & raws & Hnorm & Hcol)%GetCurrentValset_inv.
  apply NewValset_inv in Hnew as (_ & Hnd & ->). destruct Hcol as (_ & _ & Hok). simpl in Hok.
  assert (Forall ibv_ok members) as Hm.
  { apply mapM_Some in Hnorm. clear Hnd. induction Hnorm as [|r m raws members Hr Hm IH]; [done|].
    apply Forall_cons in Hok as [Hr0 Hok]. constructor; [|by apply IH].
    destruct (normalizeValidatorPower _ _); [|done]. by injection Hr as <-. }
  exists (Sort members). pose proof (Sort_perm members) as Hp. split; [|by rewrite Hp].
  unfold BridgeValidators_ToInternal. simpl. apply res_map_fmap_Ok.
  rewrite Hp. eapply Forall_impl; [exact Hm|]. apply InternalBridgeValidator_roundtrip.
Qed.

Definition unbonding_height s : Z := default 0 (counter_val (raw s !! LastUnBondingBlockHeight)).

Lemma GetLastUnBondingBlockHeight_eq s :
  counter_ok (raw s !! LastUnBondingBlockHeight) →
  GetLastUnBondingBlockHeight s = Ret (unbonding_height s) s.
Proof.
  intros Hok. unfold GetLastUnBondingBlockHeight, get_counter, unbonding_height, raw_get. mrun.
  destruct (raw s !! LastUnBondingBlockHeight) as [b|]; [|done].
  destruct Hok as (n & -> & Hn). rewrite counter_val_some by done. cbn [default id].
  rewrite decide_False by apply UInt64Bytes_nonempty. by rewrite UInt64_roundtrip.
Qed.

(** The powers of two validator sets differ by more than 5%. *)
Definition drifted (v latest : Valset) : bool :=
  match BridgeValidators_ToInternal (vs_Members v), BridgeValidators_ToInternal (vs_Members latest) with
  | Ok a, Ok b => significant_diff a b
  | _, _ => false
  end.

Definition valset_needed s (n : Z) (v : Valset) : bool :=
  match valsets s !! GetValsetKey n with
  | None => true
  | Some latest => (unbonding_height s =? u64 (st_height s)) || drifted v latest
  end.

Lemma GetLatestValset_eq s n :
  valsets_ok s n → GetLatestValset s = Ret (valsets s !! GetValsetKey n) s.
Proof.
  intros Hok. unfold GetLatestValset. by rewrite (bind_ret _ _ s n s) by (by apply GetLatestValsetNonce_eq).
Qed.

Lemma createValsets_run s n p v checkpoint :
  valsets_ok s n → n + 1 < two64 → kv_params (st_kv s) = Some p → params_ok p →
  counter_ok (raw s !! LastUnBondingBlockHeight) →
  GetCurrentValset s = Ret v s → Valset_GetCheckpoint (p_GravityId p) v = Some checkpoint →
  (∀ latest, valsets s !! GetValsetKey n = Some latest →
     ∃ ms, BridgeValidators_ToInternal (vs_Members latest) = Ok ms) →
  createValsets s = Ret tt (if valset_needed s n v then requested v checkpoint s else s).
Proof.
  intros Hok Hn1 Hp Hpok Hub Hcur Hcp Hmem. unfold createValsets, valset_needed, drifted.
  rewrite (bind_ret _ _ _ _ _ (GetLatestValset_eq s n Hok)).
  rewrite (bind_ret _ _ _ _ _ (GetLastUnBondingBlockHeight_eq s Hub)).
  destruct (SetValsetRequest_run s n p v checkpoint) as (_ & Hreq & _); [done..|].
  destruct (valsets s !! GetValsetKey n) as [latest|].
  - destruct (Hmem latest eq_refl) as [lms Hl]. destruct (current_members _ _ _ Hcur) as (cms & Hc & _).
    rewrite Hc, Hl. rewrite (bind_ret _ _ s (Some (significant_diff cms lms)) s).
    2:{ unfold try. rewrite (bind_ret _ _ s (Ok v) s) by (by rewrite Hcur).
        rewrite (bind_ret _ _ s cms s) by (by rewrite Hc).
        by rewrite (bind_ret _ _ s lms s). }
    rewrite (bind_ret _ _ s (u64 (st_height s)) s) by done.
    rewrite bool_decide_false by done. cbn [orb].
    destruct (_ || _); [|done]. by rewrite (bind_ret _ _ _ _ _ Hreq).
  - rewrite (bind_ret _ _ s (Some false) s) by done.
    rewrite (bind_ret _ _ s (u64 (st_height s)) s) by done.
    rewrite bool_decide_true by done. cbn [orb]. by rewrite (bind_ret _ _ _ _ _ Hreq).
Qed.

(** C37. At the end of a block a new validator set is asked for exactly when there is
    none yet, when a validator has started unbonding in this block, or when the
    powers differ from the latest request by more than 5%; nothing else changes
    otherwise.  So after every block the latest request is within 5% of the
    current powers, and control of the bridge follows the chain. *)
Theorem createValsets_tracks s n p v checkpoint :
  valsets_ok s n → n + 1 < two64 → kv_params (st_kv s) = Some p → params_ok p →
  counter_ok (raw s !! LastUnBondingBlockHeight) →
  GetCurrentValset s = Ret v s → Valset_GetCheckpoint (p_GravityId p) v = Some checkpoint →
  (∀ latest, valsets s !! GetValsetKey n = Some latest →
     ∃ ms, BridgeValidators_ToInternal (vs_Members latest) = Ok ms) →
  ∃ s', createValsets s = Ret tt s' ∧
    s' = (if valset_needed s n v then requested v checkpoint s else s) ∧
    ∃ latest, GetLatestValset s' = Ret (Some latest) s' ∧ drifted v latest = false.
Proof.
  intros Hok Hn1 Hp Hpok Hub Hcur Hcp Hmem. eexists.
  split_and!; [by eapply createValsets_run|done|].
  destruct (valset_needed s n v) eqn:En.
  - destruct (SetValsetRequest_run s n p v checkpoint) as (_ & _ & Hok'); [done..|].
    exists v. rewrite (GetLatestValset_eq _ (n + 1)) by done. split.
    + assert (vs_Nonce v = n + 1) as Ev.
      { eapply current_nonce; [exact Hok| |exact Hcur]. destruct Hok as (_ & Hn & _). unfold u64_ok in *. lia. }
      simpl. by rewrite Ev, lookup_insert_eq.
    + destruct (current_members _ _ _ Hcur) as (ms & Hms & Hnd).
      unfold drifted. rewrite Hms. by apply significant_diff_refl.
  - unfold valset_needed in En. destruct (valsets s !! GetValsetKey n) as [latest|] eqn:El; [|done].
    apply orb_false_iff in En as [_ En]. exists latest. by rewrite (GetLatestValset_eq s n), El.
Qed.
End Tracking.
