(* ===== verification/MsgServer.v ===== *)
(** * The message server (keeper/msg_server.go)

    One handler per message: what users, orchestrators and validators may do to
    the bridge.  The handlers of the governance proposals are in [Governance] and
    [Params]. *)

From stdpp Require Import base gmap list strings sorting.
From S2P Require Import Prelude GoStd Config External Store Ethereum Keys OutgoingTx Valset Claims Keeper DelegateKeys Evidence Msgs Attestation Registry ValsetKeeper IbcForward LogicCall Pool Batch.

#[local] Open Scope Z_scope.

Definition BasisPointDivisor : Z := 10000.

(** [codectypes.NewAnyWithValue] of a claim *)
Class AnyCodec := { NewAnyWithValue : EthereumClaim → res Any }.

(** What is packed is read back. *)
Class AnyCodecLaws `{Codec} `{AnyCodec} := {
  unpack_packed claim a : NewAnyWithValue claim = Ok a → UnpackClaim a = Ok claim;
}.

(** ** Fees of a send *)

Section Fees.
Context {W : Type} `{Geth} `{Sdk} `{Bank W} `{Decimals} `{Accounts W} `{Mint W} `{AuctionParams W}.

Definition IsDenomAuctionable (denom : string) : K W bool :=
  mint ← gets (λ s, MintDenom (st_world s));
  mintDenom ← or_panic "failed to get mint params" mint;
  if decide (denom = mintDenom) then mret false else
  params ← gets (λ s, NonAuctionableTokens (st_world s));
  nonAuctionableTokens ← or_panic "failed to get auction params" params;
  mret (bool_decide (denom ∉ nonAuctionableTokens)).

(** [LegacyNewDecFromInt(amount).QuoInt64(10000).MulInt64(basisPoints).TruncateInt()] *)
Definition min_fee (amount minFeeBasisPoints : Z) : option Z :=
  d ← Dec_FromInt amount;
  q ← Dec_QuoInt64 d BasisPointDivisor;
  p ← Dec_MulInt64 q minFeeBasisPoints;
  Dec_TruncateInt p.

(** [params.ChainFeeAuctionPoolFraction.Mul(LegacyNewDecFromInt(fee)).TruncateInt()];
    multiplying the nil fraction panics. *)
Definition pool_fee (fraction : option Z) (fee : Z) : option Z :=
  f ← fraction;
  d ← Dec_FromInt fee;
  p ← Dec_Mul f d;
  Dec_TruncateInt p.

(** Sends the pool's share of the fee and returns what is left for the stakers. *)
Definition deduct_pool_fee (fraction : option Z) (sender : bytes) (chainFee : Coin) : K W Z :=
  poolFee ← opt_panic "LegacyDec" (pool_fee fraction (Amount chainFee));
  stakerFee ← opt_panic "Int.Sub" (Int_Sub (Amount chainFee) poolFee);
  coin ← opt_panic "NewCoin" (NewCoin (Denom chainFee) poolFee);
  coins ← opt_panic "NewCoins" (NewCoins1 coin);
  _ ← call (SendCoinsFromAccountToModule sender AuctionPoolAccountName coins);
  mret stakerFee.

(** A fee is never the zero [sdk.Coin{}] here: its denom is not empty. *)
Definition checkAndDeductSendToEthFees (sender : bytes) (sendAmount chainFee : Coin) : K W unit :=
  set ← try GetParamsIfSet;
  let minFeeBasisPoints :=
    match set with Ok params => int64 (p_MinChainFeeBasisPoints params) | Er _ => 0 end in
  let fraction :=
    match set with Ok params => p_ChainFeeAuctionPoolFraction params | Er _ => None end in
  minFee ← opt_panic "LegacyDec" (min_fee (Amount sendAmount) minFeeBasisPoints);
  _ ← (if 0 <? minFee then
         minFeeCoin ← opt_panic "NewCoin" (NewCoin (Denom sendAmount) minFee);
         _ ← guard_panic (bool_decide (Denom chainFee ≠ Denom minFeeCoin)) "invalid coin denominations";
         guard_err (Amount chainFee <? Amount minFeeCoin) (ErrSdk "ErrInsufficientFee")
       else mret tt);
  chainFeeAuctionable ← IsDenomAuctionable (Denom chainFee);
  if 0 <? Amount chainFee then
    senderAcc ← gets (λ s, HasAccount (st_world s) sender);
    stakerFee ← (if (chainFeeAuctionable : bool) then deduct_pool_fee fraction sender chainFee
                 else mret (Amount chainFee));
    coin ← opt_panic "NewCoin" (NewCoin (Denom chainFee) stakerFee);
    coins ← opt_panic "NewCoins" (NewCoins1 coin);
    _ ← guard_panic (negb senderAcc) "nil pointer dereference";
    _ ← call (DeductFees sender coins);
    emit (EventSendToEthFeeCollected (AccAddressString sender) sendAmount chainFee)
  else mret tt.
End Fees.

(** ** Transfers to Ethereum *)

Section Transfers.
Context {W : Type} `{Geth} `{Sdk} `{Bank W} `{Decimals} `{Accounts W} `{Mint W} `{AuctionParams W} `{EthAbi}.

Definition SendToEth (msg : MsgSendToEth) : K W unit :=
  _ ← RequireBridgeActive;
  _ ← of_res (ValidateStrictDenom (Denom (se_Amount msg)));
  _ ← of_res (ValidateStrictDenom (Denom (se_BridgeFee msg)));
  _ ← of_res (ValidateStrictDenom (Denom (se_ChainFee msg)));
  _ ← guard_err (bool_decide (Denom (se_Amount msg) ≠ Denom (se_BridgeFee msg)) ||
                 bool_decide (Denom (se_Amount msg) ≠ Denom (se_ChainFee msg))) ErrInvalid;
  amountOrigin ← ClassifyDenom (Denom (se_Amount msg));
  _ ← (if decide (ao_Origin amountOrigin = AssetOriginCosmos) then
         _ ← assertMetadataWhitelisted (Denom (se_Amount msg)); mret tt
       else mret tt);
  sender ← of_res (AccAddressFromBech32 (se_Sender msg));
  dest ← of_res (NewEthAddress (se_EthDest msg));
  erc20 ← opt_panic "nil ERC20" (ao_ERC20 amountOrigin);
  invalid ← InvalidSendToEthAddress dest erc20;
  _ ← guard_err invalid ErrInvalid;
  _ ← checkAndDeductSendToEthFees sender (se_Amount msg) (se_ChainFee msg);
  txID ← AddToOutgoingPool sender dest (se_Amount msg) (se_BridgeFee msg);
  emit (EventOutgoingTxId txID).

Definition CancelSendToEth (msg : MsgCancelSendToEth) : K W unit :=
  sender ← of_res (AccAddressFromBech32 (cs_Sender msg));
  RemoveFromOutgoingPoolAndRefund (cs_TransactionId msg) sender.

Definition RequestBatch (msg : MsgRequestBatch) : K W unit :=
  _ ← RequireBridgeActive;
  _ ← of_res (ValidateStrictDenom (rb_Denom msg));
  batchOrigin ← ClassifyDenom (rb_Denom msg);
  _ ← (if decide (ao_Origin batchOrigin = AssetOriginCosmos) then
         _ ← assertMetadataWhitelisted (rb_Denom msg); mret tt
       else mret tt);
  erc20 ← opt_panic "nil ERC20" (ao_ERC20 batchOrigin);
  batch ← BuildOutgoingTXBatch erc20 OutgoingTxBatchSize;
  emit (EventBatchCreated (ib_BatchNonce batch)).
End Transfers.

Section Forwards.
Context {W : Type} `{Geth} `{Sdk} `{Bech32} `{Bank W} `{Ibc W}.

Definition ExecuteIbcAutoForwards (msg : MsgExecuteIbcAutoForwards) : K W unit :=
  ProcessPendingIbcAutoForwards (ef_ForwardsToClear msg).
End Forwards.

(** ** Delegate keys *)

Section Delegation.
Context {W : Type} `{Geth} `{Sdk} `{Staking W}.

Definition SetOrchestratorAddress (msg : MsgSetOrchestratorAddress) : K W unit :=
  _ ← of_res (MsgSetOrchestratorAddress_ValidateBasic msg);
  match AccAddressFromBech32 (so_Validator msg), AccAddressFromBech32 (so_Orchestrator msg),
        NewEthAddress (so_EthAddress msg) with
  | Ok val, Ok orch, Ok ethAddr =>
      validator ← gets (λ s, GetValidator (st_world s) val);
      _ ← guard_err (negb (is_ok validator)) (ErrSdk "ErrNoValidatorFound");
      existingOrchestratorKey ← GetOrchestratorValidator orch;
      existingEthAddress ← GetEthAddressByValidator val;
      _ ← guard_err (bool_decide (is_Some existingOrchestratorKey) ||
                     bool_decide (is_Some existingEthAddress)) ErrResetDelegateKeys;
      delegateKeys ← GetDelegateKeys;
      _ ← for_each delegateKeys (λ d,
            _ ← guard_err (bool_decide (so_EthAddress d = Hex (GetAddress ethAddr)))
                  ErrDuplicateEthereumKey;
            guard_err (bool_decide (so_Orchestrator d = AccAddressString orch))
              ErrDuplicateOrchestratorKey);
      _ ← SetOrchestratorValidator val orch;
      _ ← SetEthAddressForValidator val ethAddr;
      emit (EventSetOperatorAddress (AccAddressString orch))
  | _, _, _ =>
      (* [errorsmod.Wrap(err, ...)] of the error of [ValidateBasic], which is nil *)
      mret tt
  end.
End Delegation.

(** ** Signatures over what goes to Ethereum *)

Section Confirms.
Context {W : Type} `{Geth} `{Sdk} `{Bank W} `{Staking W} `{EthAbi} `{EthCrypto}.

Definition confirmHandlerCommon (ethAddress : string) (orchestrator : bytes) (signature : string)
    (checkpoint : bytes) : K W unit :=
  match hex_decode signature with
  | None => fail ErrInvalid
  | Some sigBytes =>
      match NewEthAddress ethAddress with
      | Er _ => fail ErrInvalid
      | Ok submittedEthAddress =>
          found ← GetOrchestratorValidator orchestrator;
          match found with
          | None => fail ErrUnknown
          | Some validator =>
              _ ← guard_err (negb (bool_decide (v_Status validator = Bonded)) &&
                             negb (bool_decide (v_Status validator = Unbonding))) ErrInvalid;
              match ValAddressFromBech32 (v_OperatorAddress validator) with
              | Er _ => fail (ErrSdk "ErrInvalidAddress")
              | Ok operator =>
                  _ ← of_res (VerifyAddressFormat operator);
                  stored ← GetEthAddressByValidator operator;
                  match stored with
                  | None => fail ErrEmpty
                  | Some ethAddressFromStore =>
                      _ ← guard_err (bool_decide (ethAddressFromStore ≠ submittedEthAddress))
                            ErrInvalid;
                      valid ← opt_panic "wrong size for signature"
                                (ValidateEthereumSignature checkpoint sigBytes ethAddressFromStore);
                      guard_err (negb (is_ok valid)) ErrInvalid
                  end
              end
          end
      end
  end.

(** The account an orchestrator signs with. *)
Definition orchestrator_address (s : string) : K W bytes :=
  match AccAddressFromBech32 s with Er _ => fail ErrInvalid | Ok a => mret a end.

Definition ValsetConfirm (msg : MsgValsetConfirm) : K W unit :=
  valset ← GetValset (vc_Nonce msg);
  match valset with
  | None => fail ErrInvalid
  | Some valset =>
      gravityID ← GetGravityID;
      checkpoint ← opt_panic "GetCheckpoint" (Valset_GetCheckpoint gravityID valset);
      orchaddr ← orchestrator_address (vc_Orchestrator msg);
      _ ← confirmHandlerCommon (vc_EthAddress msg) orchaddr (vc_Signature msg) checkpoint;
      existing ← GetValsetConfirm (vc_Nonce msg) orchaddr;
      _ ← guard_err (bool_decide (is_Some existing)) ErrDuplicate;
      key ← SetValsetConfirm msg;
      emit (EventValsetConfirmKey key)
  end.

Definition ConfirmBatch (msg : MsgConfirmBatch) : K W unit :=
  _ ← of_res (MsgConfirmBatch_ValidateBasic msg);
  match NewEthAddress (cb_TokenContract msg) with
  | Er _ => fail ErrInvalid
  | Ok contract =>
      contractOrigin ← ClassifyERC20 contract;
      _ ← (if decide (ao_Origin contractOrigin = AssetOriginCosmos) then
             _ ← assertMetadataWhitelisted (ao_Denom contractOrigin); mret tt
           else mret tt);
      found ← GetOutgoingTXBatch contract (cb_Nonce msg);
      match found with
      | None => fail ErrInvalid
      | Some batch =>
          gravityID ← GetGravityID;
          checkpoint ← opt_panic "GetCheckpoint"
                         (InternalOutgoingTxBatch_GetCheckpoint gravityID batch);
          orchaddr ← orchestrator_address (cb_Orchestrator msg);
          _ ← confirmHandlerCommon (cb_EthSigner msg) orchaddr (cb_Signature msg) checkpoint;
          existing ← GetBatchConfirm (cb_Nonce msg) contract orchaddr;
          _ ← guard_err (bool_decide (is_Some existing)) ErrDuplicate;
          key ← SetBatchConfirm msg;
          emit (EventBatchConfirmKey key)
      end
  end.

Definition ConfirmLogicCall (msg : MsgConfirmLogicCall) : K W unit :=
  _ ← RequireBridgeActive;
  match hex_decode (cl_InvalidationId msg) with
  | None => fail ErrInvalid
  | Some invalidationIdBytes =>
      (* the pointer is never nil, so the check for a missing call is not reached *)
      logic ← GetOutgoingLogicCall invalidationIdBytes (cl_InvalidationNonce msg);
      gravityID ← GetGravityID;
      checkpoint ← opt_panic "GetCheckpoint" (OutgoingLogicCall_GetCheckpoint gravityID logic);
      orchaddr ← orchestrator_address (cl_Orchestrator msg);
      _ ← confirmHandlerCommon (cl_EthSigner msg) orchaddr (cl_Signature msg) checkpoint;
      existing ← GetLogicCallConfirm invalidationIdBytes (cl_InvalidationNonce msg) orchaddr;
      _ ← guard_err (bool_decide (is_Some existing)) ErrDuplicate;
      SetLogicCallConfirm msg
  end.
End Confirms.

(** ** Claims about Ethereum *)

Section ClaimHandlers.
Context {W : Type} `{Geth} `{Sdk} `{Hashing} `{Codec} `{AnyCodec} `{Bank W} `{Staking W}.

Definition checkOrchestratorValidatorInSet (orchestrator : string) : K W unit :=
  orchaddr ← orchestrator_address orchestrator;
  found ← GetOrchestratorValidator orchaddr;
  match found with
  | None => fail ErrUnknown
  | Some validator =>
      match ValAddressFromBech32 (v_OperatorAddress validator) with
      | Er _ => fail (ErrSdk "ErrInvalidAddress")
      | Ok operator =>
          val ← gets (λ s, GetValidator (st_world s) operator);
          guard_err (match val with Ok v => negb (bool_decide (v_Status v = Bonded)) | Er _ => true end)
            (ErrSdk "ErrorInvalidSigner")
      end
  end.

Definition claimHandlerCommon (msgAny : Any) (msg : EthereumClaim) : K W unit :=
  _ ← RequireBridgeActive;
  _ ← of_res (ValidateClaimFieldLengths msg);
  _ ← Attest msg msgAny;
  hash ← of_res (ClaimHash msg);
  emit (EventClaim (GetType msg) hash (GetAttestationKey (GetEventNonce msg) hash)).

(** The token a claim is about must be one the bridge handles. *)
Definition check_claim_token (tokenContract : string) : K W unit :=
  match NewEthAddress tokenContract with
  | Er _ => fail ErrInvalid
  | Ok contract =>
      contractOrigin ← ClassifyERC20 contract;
      if decide (ao_Origin contractOrigin = AssetOriginCosmos) then
        _ ← assertMetadataWhitelisted (ao_Denom contractOrigin); mret tt
      else mret tt
  end.

Definition SendToCosmosClaim_handler (msg : MsgSendToCosmosClaim) : K W unit :=
  _ ← RequireBridgeActive;
  _ ← checkOrchestratorValidatorInSet (sc_Orchestrator msg);
  _ ← check_claim_token (sc_TokenContract msg);
  any ← of_res (NewAnyWithValue (SendToCosmosClaim msg));
  claimHandlerCommon any (SendToCosmosClaim msg).

Definition additionalPatchChecks (msg : MsgBatchSendToEthClaim) : K W unit :=
  contractAddress ← or_panic "Invalid TokenContract on MsgBatchSendToEthClaim"
                      (NewEthAddress (bc_TokenContract msg));
  b ← GetOutgoingTXBatch contractAddress (bc_BatchNonce msg);
  match b with
  | None => mret tt
  | Some b => guard_panic (ib_BatchTimeout b <=? bc_EthBlockHeight msg)
                "batch submitted after it timed out"
  end.

Definition BatchSendToEthClaim_handler (msg : MsgBatchSendToEthClaim) : K W unit :=
  _ ← RequireBridgeActive;
  _ ← checkOrchestratorValidatorInSet (bc_Orchestrator msg);
  _ ← additionalPatchChecks msg;
  _ ← check_claim_token (bc_TokenContract msg);
  msgAny ← or_panic "Could not check Any value" (NewAnyWithValue (BatchSendToEthClaim msg));
  claimHandlerCommon msgAny (BatchSendToEthClaim msg).

Definition ERC20DeployedClaim_handler (msg : MsgERC20DeployedClaim) : K W unit :=
  _ ← RequireBridgeActive;
  _ ← of_res (ValidateStrictDenom (ed_CosmosDenom msg));
  _ ← checkOrchestratorValidatorInSet (ed_Orchestrator msg);
  _ ← check_claim_token (ed_TokenContract msg);
  any ← of_res (NewAnyWithValue (ERC20DeployedClaim msg));
  claimHandlerCommon any (ERC20DeployedClaim msg).

Definition LogicCallExecutedClaim_handler (msg : MsgLogicCallExecutedClaim) : K W unit :=
  _ ← RequireBridgeActive;
  _ ← checkOrchestratorValidatorInSet (le_Orchestrator msg);
  any ← of_res (NewAnyWithValue (LogicCallExecutedClaim msg));
  claimHandlerCommon any (LogicCallExecutedClaim msg).

Definition ValsetUpdateClaim (msg : MsgValsetUpdatedClaim) : K W unit :=
  _ ← RequireBridgeActive;
  _ ← checkOrchestratorValidatorInSet (vu_Orchestrator msg);
  any ← of_res (NewAnyWithValue (ValsetUpdatedClaim msg));
  claimHandlerCommon any (ValsetUpdatedClaim msg).
End ClaimHandlers.

(** ** Evidence *)

Section EvidenceHandler.
Context {W : Type} `{Geth} `{Sdk} `{Staking W} `{EthAbi} `{EthCrypto} `{SignedCodec}.

Definition SubmitBadSignatureEvidence (msg : MsgSubmitBadSignatureEvidence) : K W unit :=
  _ ← CheckBadSignatureEvidence msg;
  emit (EventBadSignatureEvidence (be_Signature msg) (be_Subject msg)).
End EvidenceHandler.
