(* ===== verification/ConfirmCorrect.v ===== *)
(** * Confirmations are authentic

    What a validator's orchestrator may put on record as its signature over a
    validator set, a batch or a logic call. *)

From stdpp Require Import base gmap list strings.
From S2P Require Import Prelude GoStd External Store Ethereum Keys OutgoingTx Valset Claims Keeper DelegateKeys Evidence Msgs Registry ValsetKeeper LogicCall Pool Batch MsgServer.

#[local] Open Scope Z_scope.

Section ConfirmFacts.
Context {W : Type} `{Geth} `{Sdk} `{Bank W} `{Staking W} `{EthAbi} `{EthCrypto}.
Implicit Types s : State W.

(** ** Methods that only read *)

Lemma readonly_orchestrator_address o : readonly (orchestrator_address o : K W _).
Proof. unfold orchestrator_address. readonly. Qed.
Lemma readonly_confirmHandlerCommon e o sig cp : readonly (confirmHandlerCommon e o sig cp : K W _).
Proof. unfold confirmHandlerCommon. readonly. Qed.
Lemma readonly_GetValset n : readonly (GetValset n : K W _).
Proof. unfold GetValset. readonly. Qed.
Lemma readonly_GetValsetConfirm n v : readonly (GetValsetConfirm n v : K W _).
Proof. unfold GetValsetConfirm. readonly. Qed.
Lemma readonly_GetBatchConfirm n c v : readonly (GetBatchConfirm n c v : K W _).
Proof. unfold GetBatchConfirm. readonly. Qed.
Lemma readonly_GetLogicCallConfirm i n v : readonly (GetLogicCallConfirm i n v : K W _).
Proof. unfold GetLogicCallConfirm. readonly. Qed.
Lemma readonly_GetOutgoingLogicCall i n : readonly (GetOutgoingLogicCall i n : K W _).
Proof. unfold GetOutgoingLogicCall. readonly. Qed.
Lemma readonly_RequireBridgeActive : readonly (RequireBridgeActive : K W _).
Proof. unfold RequireBridgeActive. readonly. Qed.
End ConfirmFacts.

#[export] Hint Resolve readonly_orchestrator_address
  readonly_confirmHandlerCommon readonly_GetValset readonly_GetValsetConfirm
  readonly_GetBatchConfirm readonly_GetLogicCallConfirm readonly_GetOutgoingLogicCall
  readonly_RequireBridgeActive : readonly.

(** ** Writing last

    [writes_last m]: whatever error [m] returns, the state is as it was. *)
Definition writes_last {S A} (m : M S A) : Prop := ∀ s e s', m s = Fail e s' → s' = s.

Create HintDb writes_last.

Section WritesLast.
Context {S : Type}.

Lemma writes_last_readonly {A} (m : M S A) : readonly m → writes_last m.
Proof. intros Hm s e s'. by apply readonly_fail_inv. Qed.
Lemma writes_last_bind {A B} (m : M S A) (f : A → M S B) :
  readonly m → (∀ a, writes_last (f a)) → writes_last (m ≫= f).
Proof.
  intros Hm Hf s e s'. unfold mbind, M_bind. specialize (Hm s).
  destruct (m s) as [a s1|? s1|]; [subst s1; apply Hf|by intros [= _ <-]|done].
Qed.
(** A method that cannot fail may write, if what follows cannot fail either. *)
Lemma writes_last_total {A} (m : M S A) : (∀ s e s', m s ≠ Fail e s') → writes_last m.
Proof. intros Hm s e s' E. by destruct (Hm s e s'). Qed.
End WritesLast.

Ltac writes_last_step :=
  match goal with
  | |- writes_last (_ ≫= _) => apply writes_last_bind; [solve [readonly]|intros ?]
  | |- writes_last (match ?x with _ => _ end) => destruct x
  | |- writes_last _ => solve [auto with writes_last]
  | |- writes_last _ => solve [apply writes_last_readonly; readonly]
  end.
Ltac writes_last := repeat (cbv zeta; writes_last_step).

(** ** Confirmations *)

(** The three kinds of confirmations, with their common parts. *)
Inductive Confirm :=
  | ConfirmValset (m : MsgValsetConfirm)
  | ConfirmTxBatch (m : MsgConfirmBatch)
  | ConfirmCall (m : MsgConfirmLogicCall).

Definition confirm_orchestrator (c : Confirm) : string :=
  match c with
  | ConfirmValset m => vc_Orchestrator m
  | ConfirmTxBatch m => cb_Orchestrator m
  | ConfirmCall m => cl_Orchestrator m
  end.
Definition confirm_signer (c : Confirm) : string :=
  match c with
  | ConfirmValset m => vc_EthAddress m
  | ConfirmTxBatch m => cb_EthSigner m
  | ConfirmCall m => cl_EthSigner m
  end.
Definition confirm_signature (c : Confirm) : string :=
  match c with
  | ConfirmValset m => vc_Signature m
  | ConfirmTxBatch m => cb_Signature m
  | ConfirmCall m => cl_Signature m
  end.

Section Confirms.
Context {W : Type} `{Geth} `{SdkLaws} `{Bank W} `{Staking W} `{!ValidatorLaws W} `{EthAbi} `{EthCrypto}.
Implicit Types s : State W.

Definition handle_confirm (c : Confirm) : K W unit :=
  match c with
  | ConfirmValset m => ValsetConfirm m
  | ConfirmTxBatch m => ConfirmBatch m
  | ConfirmCall m => ConfirmLogicCall m
  end.

(** The signature was made over [cp] by the Ethereum key that the validator of the
    orchestrator account registered, and that validator is bonded or unbonding. *)
Definition authentic s (c : Confirm) (orch cp : bytes) : Prop :=
  ∃ a v op bz e sig e',
    raw s !! (KeyOrchestratorAddress ++ orch) = Some a ∧
    GetValidator (st_world s) a = Ok v ∧ (v_Status v = Bonded ∨ v_Status v = Unbonding) ∧
    ValAddressFromBech32 (v_OperatorAddress v) = Ok op ∧
    raw s !! (EthAddressByValidatorKey ++ op) = Some bz ∧ NewEthAddressFromBytes bz = Ok e ∧
    NewEthAddress (confirm_signer c) = Ok e ∧ hex_decode (confirm_signature c) = Some sig ∧
    EthAddressFromSignature cp sig = Some (Ok e') ∧ GetAddress e' = GetAddress e.

(** What is signed: the checkpoint of the stored object that the confirmation names.
    A logic call that is not stored counts as the zero call. *)
Definition subject s (c : Confirm) (gravityID : string) (cp : bytes) : Prop :=
  match c with
  | ConfirmValset m => ∃ vs, kv_valsets (st_kv s) !! GetValsetKey (vc_Nonce m) = Some vs ∧
      Valset_GetCheckpoint gravityID vs = Some cp
  | ConfirmTxBatch m => ∃ contract b b', NewEthAddress (cb_TokenContract m) = Ok contract ∧
      kv_batches (st_kv s) !! GetOutgoingTxBatchKey contract (cb_Nonce m) = Some b ∧
      OutgoingTxBatch_ToInternal b = Ok b' ∧
      InternalOutgoingTxBatch_GetCheckpoint gravityID b' = Some cp
  | ConfirmCall m => ∃ id, hex_decode (cl_InvalidationId m) = Some id ∧
      match kv_logicCalls (st_kv s) !! GetOutgoingLogicCallKey id (cl_InvalidationNonce m) with
      | Some call => OutgoingLogicCall_GetCheckpoint gravityID call = Some cp
      | None => OutgoingLogicCall_GetCheckpoint gravityID zero_call = Some cp
      end
  end.

(** The store before and after the confirmation of [orch] was added. *)
Definition recorded (c : Confirm) (orch : bytes) (kv kv' : KV) : Prop :=
  match c with
  | ConfirmValset m => ∃ k, GetValsetConfirmKey (vc_Nonce m) orch = Some k ∧
      kv_valsetConfirms kv !! k = None ∧ kv' = upd_valsetConfirms (insert k m) kv
  | ConfirmTxBatch m => ∃ contract k, NewEthAddress (cb_TokenContract m) = Ok contract ∧
      GetBatchConfirmKey contract (cb_Nonce m) orch = Some k ∧
      kv_batchConfirms kv !! k = None ∧ kv' = upd_batchConfirms (insert k m) kv
  | ConfirmCall m => ∃ id k, hex_decode (cl_InvalidationId m) = Some id ∧
      GetLogicConfirmKey id (cl_InvalidationNonce m) orch = Some k ∧
      kv_logicConfirms kv !! k = None ∧ kv' = upd_logicConfirms (insert k m) kv
  end.

(** *** What each step of the handlers establishes *)

Lemma confirmHandlerCommon_inv c orch cp s u s' :
  confirmHandlerCommon (confirm_signer c) orch (confirm_signature c) cp s = Ret u s' →
  s' = s ∧ authentic s c orch cp.
Proof.
  unfold confirmHandlerCommon, authentic. intros E.
  destruct (hex_decode (confirm_signature c)) as [sig|]; [|minv].
  destruct (NewEthAddress (confirm_signer c)) as [e|]; [|minv].
  mnext E as found s1 Ef. apply GetOrchestratorValidator_inv in Ef as [-> Hf].
  destruct found as [v|]; [|minv]. destruct (Hf v eq_refl) as (_ & a & Ha & Hv).
  mnext E as g s2 Eg. apply guard_err_inv in Eg as [Hg ->].
  destruct (ValAddressFromBech32 (v_OperatorAddress v)) as [op|] eqn:Hop; [|minv].
  mnext E as w s3 Ew. apply of_res_inv in Ew as [_ ->].
  mnext E as stored s4 Es. apply GetEthAddressByValidator_inv in Es as (-> & _ & ->).
  destruct (raw s !! (EthAddressByValidatorKey ++ op)) as [bz|] eqn:Hbz; [|minv].
  destruct (NewEthAddressFromBytes bz) as [e'|] eqn:He'; [|minv].
  mnext E as g' s5 Eg'. apply guard_err_inv in Eg' as [Heq ->]. zbool.
  mnext E as valid s6 Ev. apply opt_panic_inv in Ev as [Hval ->].
  apply guard_err_inv in E as [Hok ->]. split; [done|].
  unfold ValidateEthereumSignature in Hval.
  destruct (EthAddressFromSignature cp sig) as [[e''|]|] eqn:Hsig; simplify_eq.
  case_decide as Hadr; simplify_eq.
  exists a, v, op, bz, e', sig, e''. split_and!; try done.
  - destruct (v_Status v); simpl in Hg; auto; done.
  - f_equal. by apply dec_stable in Heq.
Qed.

Lemma GetGravityID_inv s g s' :
  GetGravityID s = Ret g s' → s' = s ∧ ∃ p, kv_params (st_kv s) = Some p ∧ g = p_GravityId p.
Proof.
  unfold GetGravityID, GetParams. intros E. mnext E as p s1 Ep. apply must_inv in Ep.
  mnext Ep as bz s2 Eb. apply gets_inv in Eb as [-> ->].
  destruct (kv_params (st_kv s)) as [q|] eqn:Hq; minv. split; [done|]. by exists q.
Qed.

Lemma orchestrator_address_inv o s a s' :
  orchestrator_address o s = Ret a s' → s' = s ∧ AccAddressFromBech32 o = Ok a.
Proof. unfold orchestrator_address. destruct (AccAddressFromBech32 o); intros; minv; done. Qed.

Lemma unconfirmed_key {A} (r : option A) s u s' :
  guard_err (bool_decide (is_Some r)) ErrDuplicate s = Ret u s' → s' = s ∧ r = None.
Proof. intros [Hr ->]%guard_err_inv. zbool. split; [done|]. by apply eq_None_not_Some. Qed.

(** What a confirmation that was accepted did. *)
Definition accepted s s' (c : Confirm) : Prop :=
  ∃ p orch cp, kv_params (st_kv s) = Some p ∧
    AccAddressFromBech32 (confirm_orchestrator c) = Ok orch ∧
    subject s c (p_GravityId p) cp ∧ authentic s c orch cp ∧
    recorded c orch (st_kv s) (st_kv s') ∧ st_world s' = st_world s.

Local Ltac finish_confirm :=
  eexists _, _, _; split_and!; try done; cbn [subject recorded]; repeat eexists; eauto.

Lemma ValsetConfirm_inv m s u s' : ValsetConfirm m s = Ret u s' → accepted s s' (ConfirmValset m).
Proof.
  unfold ValsetConfirm. intros E. mnext E as r s1 E1. apply gets_inv in E1 as [-> ->].
  destruct (kv_valsets (st_kv s) !! _) as [vs|] eqn:Hvs; [|minv].
  mnext E as g s1 Eg. apply GetGravityID_inv in Eg as (-> & p & Hp & ->).
  mnext E as cp s1 Ec. apply opt_panic_inv in Ec as [Hcp ->].
  mnext E as o s1 Eo. apply orchestrator_address_inv in Eo as [-> Ho].
  mnext E as h s1 Eh. apply (confirmHandlerCommon_inv (ConfirmValset m)) in Eh as [-> Hauth].
  mnext E as ex s1 Ex. unfold GetValsetConfirm in Ex.
  rewrite (acc_bech32_verified _ _ Ho) in Ex. cbn [is_ok negb] in Ex.
  mnext Ex as k s2 Ek. apply opt_panic_inv in Ek as [Hk ->]. apply gets_inv in Ex as [-> ->].
  mnext E as f s1 Ef. apply unconfirmed_key in Ef as [-> Hfr].
  mnext E as k' s1 Ek'. unfold SetValsetConfirm in Ek'. rewrite Ho in Ek'. minv_ext.
  unfold emit in E. minv. by finish_confirm.
Qed.

Lemma ConfirmBatch_inv m s u s' : ConfirmBatch m s = Ret u s' → accepted s s' (ConfirmTxBatch m).
Proof.
  unfold ConfirmBatch. intros E. mnext E as v s1 Ev. apply of_res_inv in Ev as [_ ->].
  destruct (NewEthAddress (cb_TokenContract m)) as [contract|] eqn:Hc; [|minv].
  mnext E as ori s1 Eo. eapply readonly_inv in Eo; [|auto with readonly]. subst s1.
  mnext E as wl s1 Ew. eapply readonly_inv in Ew; [|readonly]. subst s1.
  mnext E as r s1 E1. unfold GetOutgoingTXBatch in E1.
  mnext E1 as b s2 Eb. apply gets_inv in Eb as [-> ->].
  destruct (kv_batches (st_kv s) !! _) as [b|] eqn:Hb; [|minv].
  mnext E1 as b' s2 Eb'. apply or_panic_inv in Eb' as [Hb' ->]. apply mret_inv in E1 as [-> ->].
  mnext E as g s1 Eg. apply GetGravityID_inv in Eg as (-> & p & Hp & ->).
  mnext E as cp s1 Ec. apply opt_panic_inv in Ec as [Hcp ->].
  mnext E as o s1 Eo. apply orchestrator_address_inv in Eo as [-> Ho].
  mnext E as h s1 Eh. apply (confirmHandlerCommon_inv (ConfirmTxBatch m)) in Eh as [-> Hauth].
  mnext E as ex s1 Ex. unfold GetBatchConfirm in Ex.
  rewrite (acc_bech32_verified _ _ Ho) in Ex. cbn [is_ok negb] in Ex.
  mnext Ex as k s2 Ek. apply opt_panic_inv in Ek as [Hk ->]. apply gets_inv in Ex as [-> ->].
  mnext E as f s1 Ef. apply unconfirmed_key in Ef as [-> Hfr].
  mnext E as k' s1 Ek'. unfold SetBatchConfirm in Ek'. rewrite Ho, Hc in Ek'. minv_ext.
  unfold emit in E. minv. by finish_confirm.
Qed.

Lemma ConfirmLogicCall_inv m s u s' :
  ConfirmLogicCall m s = Ret u s' → accepted s s' (ConfirmCall m).
Proof.
  unfold ConfirmLogicCall. intros E. mnext E as v s1 Ev.
  eapply readonly_inv in Ev; [|auto with readonly]. subst s1.
  destruct (hex_decode (cl_InvalidationId m)) as [id|] eqn:Hid; [|minv].
  mnext E as call s1 E1. apply gets_inv in E1 as [-> ->].
  mnext E as g s1 Eg. apply GetGravityID_inv in Eg as (-> & p & Hp & ->).
  mnext E as cp s1 Ec. apply opt_panic_inv in Ec as [Hcp ->].
  mnext E as o s1 Eo. apply orchestrator_address_inv in Eo as [-> Ho].
  mnext E as h s1 Eh. apply (confirmHandlerCommon_inv (ConfirmCall m)) in Eh as [-> Hauth].
  mnext E as ex s1 Ex. unfold GetLogicCallConfirm in Ex.
  rewrite (acc_bech32_verified _ _ Ho) in Ex. cbn [is_ok negb] in Ex.
  mnext Ex as k s2 Ek. apply opt_panic_inv in Ek as [Hk ->]. apply gets_inv in Ex as [-> ->].
  mnext E as f s1 Ef. apply unconfirmed_key in Ef as [-> Hfr].
  unfold SetLogicCallConfirm in E. rewrite Ho, Hid in E. minv_ext.
  finish_confirm. by case_match.
Qed.

(** The check passes for an authentic signature. *)
Lemma confirmHandlerCommon_ok c orch cp s :
  VerifyAddressFormat orch = Ok tt → authentic s c orch cp →
  confirmHandlerCommon (confirm_signer c) orch (confirm_signature c) cp s = Ret tt s.
Proof.
  intros Horch (a & v & op & bz & e & sig & e' & Ha & Hv & Hst & Hop & Hbz & He & Hsigner & Hhex & Hrec & Eadr).
  unfold confirmHandlerCommon. rewrite Hhex, Hsigner.
  rewrite (bind_ret _ _ s (Some v) s).
  2:{ unfold GetOrchestratorValidator, GetOrchestratorValidatorAddr, GetOrchestratorAddressKey, verified.
      rewrite Horch. unfold raw_get, opt_panic. mrun. cbn [is_ok negb]. rewrite AppendBytes_pair, Ha.
      cbn [negb andb default id]. by rewrite Hv. }
  rewrite (bind_ret _ _ s tt s) by by destruct Hst as [->| ->].
  rewrite Hop. pose proof (val_bech32_verified _ _ Hop) as Hver.
  rewrite (bind_ret _ _ s tt s) by by rewrite Hver.
  rewrite (bind_ret _ _ s (Some e) s).
  2:{ unfold GetEthAddressByValidator, GetEthAddressByValidatorKey, verified. rewrite Hver.
      unfold raw_get, opt_panic. mrun. by rewrite AppendBytes_pair, Hbz, He. }
  rewrite (bind_ret _ _ s tt s) by by rewrite bool_decide_eq_false_2 by (intros []; done).
  rewrite (bind_ret _ _ s (Ok tt) s); [done|].
  unfold ValidateEthereumSignature. rewrite Hrec. by rewrite decide_True by congruence.
Qed.

(** A logic call that does not exist is confirmed like any other. *)
Lemma missing_call_confirmed m s p id orch k cp :
  kv_params (st_kv s) = Some p → p_BridgeActive p = true →
  hex_decode (cl_InvalidationId m) = Some id →
  kv_logicCalls (st_kv s) !! GetOutgoingLogicCallKey id (cl_InvalidationNonce m) = None →
  OutgoingLogicCall_GetCheckpoint (p_GravityId p) zero_call = Some cp →
  AccAddressFromBech32 (cl_Orchestrator m) = Ok orch → authentic s (ConfirmCall m) orch cp →
  GetLogicConfirmKey id (cl_InvalidationNonce m) orch = Some k → kv_logicConfirms (st_kv s) !! k = None →
  handle_confirm (ConfirmCall m) s = Ret tt (upd_kv (upd_logicConfirms (insert k m)) s).
Proof.
  intros Hp Hact Hid Hnone Hcp Ho Hauth Hk Hfr. pose proof (acc_bech32_verified _ _ Ho) as Hver.
  cbn [handle_confirm]. unfold ConfirmLogicCall.
  rewrite (bind_ret _ _ s tt s).
  2:{ unfold RequireBridgeActive. mrun. by rewrite (GetParams_eq s p), Hact. }
  rewrite Hid. rewrite (bind_ret _ _ s zero_call s).
  2:{ unfold GetOutgoingLogicCall, gets. by rewrite Hnone. }
  rewrite (bind_ret _ _ s (p_GravityId p) s) by (unfold GetGravityID; mrun; by rewrite (GetParams_eq s p)).
  rewrite (bind_ret _ _ s cp s) by by rewrite Hcp.
  rewrite (bind_ret _ _ s orch s) by (unfold orchestrator_address; by rewrite Ho).
  rewrite (bind_ret _ _ s tt s) by by apply (confirmHandlerCommon_ok (ConfirmCall m)).
  rewrite (bind_ret _ _ s None s).
  2:{ unfold GetLogicCallConfirm. rewrite Hver. cbn [is_ok negb]. unfold opt_panic. mrun. by rewrite Hk, Hfr. }
  rewrite (bind_ret _ _ s tt s) by done.
  unfold SetLogicCallConfirm. rewrite Hid, Ho. unfold opt_panic. mrun. by rewrite Hk.
Qed.

Lemma handle_confirm_writes_last c : writes_last (handle_confirm c).
Proof.
  destruct c as [m|m|m]; cbn [handle_confirm].
  - unfold ValsetConfirm. writes_last. apply writes_last_total. intros s e s'.
    unfold SetValsetConfirm, emit. mrun. destruct (AccAddressFromBech32 _); [|done].
    by destruct (GetValsetConfirmKey _ _).
  - unfold ConfirmBatch. writes_last. apply writes_last_total. intros s e s'.
    unfold SetBatchConfirm, emit. mrun. destruct (AccAddressFromBech32 _); [|done].
    destruct (NewEthAddress _); [|done]. by destruct (GetBatchConfirmKey _ _ _).
  - unfold ConfirmLogicCall. writes_last. apply writes_last_total. intros s e s'.
    unfold SetLogicCallConfirm. mrun. destruct (hex_decode _); [|done]. simpl.
    destruct (AccAddressFromBech32 _); [|done]. by destruct (GetLogicConfirmKey _ _ _).
Qed.

(** C26. A confirmation of a validator set, a batch or a logic call that is accepted
    carries a signature over the checkpoint of the object it names, made by the
    Ethereum key that the orchestrator's validator registered, and that validator is
    bonded or unbonding; it becomes the orchestrator's one confirmation of that
    object, replacing none, and nothing else changes.  A confirmation that is refused
    changes nothing.  The validator set or batch is a stored one.  The logic call
    need not be: for one that is not stored the signature is over the checkpoint of
    the zero call, and on an active bridge every such signature of a registered key
    is accepted and recorded under the id and nonce that the message names. *)
Theorem confirms_authentic c s :
  match handle_confirm c s with
  | Ret _ s' => accepted s s' c
  | Fail _ s' => s' = s
  | Panic _ => True
  end ∧
  ∀ m p id orch k cp, c = ConfirmCall m →
    kv_params (st_kv s) = Some p → p_BridgeActive p = true →
    hex_decode (cl_InvalidationId m) = Some id →
    kv_logicCalls (st_kv s) !! GetOutgoingLogicCallKey id (cl_InvalidationNonce m) = None →
    OutgoingLogicCall_GetCheckpoint (p_GravityId p) zero_call = Some cp →
    AccAddressFromBech32 (cl_Orchestrator m) = Ok orch → authentic s c orch cp →
    GetLogicConfirmKey id (cl_InvalidationNonce m) orch = Some k → kv_logicConfirms (st_kv s) !! k = None →
    handle_confirm c s = Ret tt (upd_kv (upd_logicConfirms (insert k m)) s).
Proof.
  split.
  - destruct (handle_confirm c s) as [u s'|e s'|] eqn:E; [|by eapply handle_confirm_writes_last|done].
    destruct c; [by eapply ValsetConfirm_inv|by eapply ConfirmBatch_inv|by eapply ConfirmLogicCall_inv].
  - intros m p id orch k cp -> **. by eapply missing_call_confirmed.
Qed.
End Confirms.
