(* ===== verification/DelegateCorrect.v ===== *)
(** * Delegate keys are unique

    The three indexes of the delegations agree with each other, no Ethereum key
    and no orchestrator is shared by two validators, and registering keys keeps
    it so. *)

From stdpp Require Import base gmap list strings sorting.
From S2P Require Import Prelude GoStd External Store Ethereum Keys OutgoingTx Valset Claims Keeper DelegateKeys Evidence Msgs MsgServer.

#[local] Open Scope Z_scope.

Abbreviation EthKey := EthAddressByValidatorKey.
Abbreviation ValKey := ValidatorByEthAddressKey.
Abbreviation OrchKey := KeyOrchestratorAddress.

(** ** Index keys *)

Ltac key_prefix := apply (bool_decide_unpack _); vm_compute; exact I.

Lemma EthKey_prefix : EthKey ∈ all_prefixes.
Proof. key_prefix. Qed.
Lemma ValKey_prefix : ValKey ∈ all_prefixes.
Proof. key_prefix. Qed.
Lemma OrchKey_prefix : OrchKey ∈ all_prefixes.
Proof. key_prefix. Qed.
#[local] Hint Resolve EthKey_prefix ValKey_prefix OrchKey_prefix : core.

Lemma prefixed_ne (p q x y : bytes) : p ∈ all_prefixes → q ∈ all_prefixes → p ≠ q → p ++ x ≠ q ++ y.
Proof. intros Hp Hq Hne E. by destruct (prefix_separation p q x y Hp Hq E). Qed.

(** What [index_entries] lists: the entries of the index. *)
Definition index (p : bytes) (m : gmap bytes bytes) : list (bytes * bytes) :=
  (λ kv, (drop (length p) kv.1, kv.2)) <$> iter_asc m (prefixRange p).

Lemma elem_of_index p m k v :
  p ∈ all_prefixes → last p ≠ Some 255 → (k, v) ∈ index p m ↔ m !! (p ++ k) = Some v.
Proof.
  intros Hp Hl. unfold index. pose proof prefixes_length as Hpl. rewrite Forall_forall in Hpl.
  destruct (Hpl p Hp) as [Hlen Hok]. rewrite list_elem_of_fmap. split.
  - intros ([k' v'] & [= -> ->] & [Hk Hr]%elem_of_iter_asc). cbn [fst snd] in *.
    destruct p as [|x p' _] using rev_ind; [done|]. rewrite last_snoc in Hl.
    apply range_prefix in Hr as [t ->]; [|done|congruence]. by rewrite drop_app_length.
  - intros Hk. exists (p ++ k, v). cbn [fst snd]. rewrite drop_app_length. split; [done|].
    apply elem_of_iter_asc. split; [done|]. apply prefix_in_range; [by destruct p|done].
Qed.

Section Delegates.
Context {W : Type} `{GethLaws} `{SdkLaws} `{Staking W} `{!ValidatorLaws W}.
Implicit Types (s : State W) (m : gmap bytes bytes).

(** ** The invariant *)

Record delegates_ok m : Prop := {
  (** A validator's Ethereum key leads back to it, and it has an orchestrator. *)
  dk_eth v b : m !! (EthKey ++ v) = Some b →
    VerifyAddressFormat v = Ok tt ∧ addr_ok b ∧ m !! (ValKey ++ b) = Some v ∧
    ∃ o, m !! (OrchKey ++ o) = Some v;
  dk_val b v : m !! (ValKey ++ b) = Some v → m !! (EthKey ++ v) = Some b;
  dk_orch o v : m !! (OrchKey ++ o) = Some v →
    VerifyAddressFormat o = Ok tt ∧ is_Some (m !! (EthKey ++ v));
  dk_inj o o' v : m !! (OrchKey ++ o) = Some v → m !! (OrchKey ++ o') = Some v → o = o' }.

(** Nothing is registered for the validator, the orchestrator and the key. *)
Definition fresh m (val orch : bytes) (e : EthAddress) : Prop :=
  m !! (EthKey ++ val) = None ∧ m !! (OrchKey ++ orch) = None ∧ m !! (ValKey ++ GetAddress e) = None.

Definition delegated (val orch : bytes) (e : EthAddress) m : gmap bytes bytes :=
  <[ValKey ++ GetAddress e := val]> (<[EthKey ++ val := GetAddress e]> (<[OrchKey ++ orch := val]> m)).

Lemma lookup_delegated_eth val orch e m v :
  delegated val orch e m !! (EthKey ++ v) =
  if decide (v = val) then Some (GetAddress e) else m !! (EthKey ++ v).
Proof.
  unfold delegated. rewrite lookup_insert_ne by (by apply prefixed_ne). case_decide as Hv.
  - subst v. by rewrite lookup_insert_eq.
  - rewrite lookup_insert_ne by (intros ?%app_inv_head; congruence).
    by rewrite lookup_insert_ne by (by apply prefixed_ne).
Qed.

Lemma lookup_delegated_val val orch e m b :
  delegated val orch e m !! (ValKey ++ b) =
  if decide (b = GetAddress e) then Some val else m !! (ValKey ++ b).
Proof.
  unfold delegated. case_decide as Hb.
  - subst b. by rewrite lookup_insert_eq.
  - rewrite lookup_insert_ne by (intros ?%app_inv_head; congruence).
    by rewrite !lookup_insert_ne by (by apply prefixed_ne).
Qed.

Lemma lookup_delegated_orch val orch e m o :
  delegated val orch e m !! (OrchKey ++ o) =
  if decide (o = orch) then Some val else m !! (OrchKey ++ o).
Proof.
  unfold delegated. rewrite !lookup_insert_ne by (by apply prefixed_ne). case_decide as Ho.
  - subst o. by rewrite lookup_insert_eq.
  - by rewrite lookup_insert_ne by (intros ?%app_inv_head; congruence).
Qed.

Lemma delegates_ok_delegated val orch e m :
  delegates_ok m → fresh m val orch e → VerifyAddressFormat val = Ok tt →
  VerifyAddressFormat orch = Ok tt → eth_ok e → delegates_ok (delegated val orch e m).
Proof.
  intros Hm (Hval & Horch & He) Hv Ho Hok.
  assert (∀ o, m !! (OrchKey ++ o) ≠ Some val) as Hno.
  { intros o Hs. destruct (dk_orch m Hm o val Hs) as [_ [b Hb]]. by rewrite Hval in Hb. }
  split.
  - intros v b. rewrite lookup_delegated_eth. case_decide as Ev.
    + intros [= <-]. subst v. rewrite lookup_delegated_val, decide_True by done.
      split_and!; try done. exists orch. by rewrite lookup_delegated_orch, decide_True.
    + intros Hb. destruct (dk_eth m Hm v b Hb) as (? & ? & Hvb & o & Hvo). split_and!; try done.
      * rewrite lookup_delegated_val, decide_False; [done|]. intros ->. by rewrite He in Hvb.
      * exists o. rewrite lookup_delegated_orch, decide_False; [done|]. intros ->. by rewrite Horch in Hvo.
  - intros b v. rewrite lookup_delegated_val, lookup_delegated_eth. case_decide as Eb.
    + intros [= <-]. by rewrite decide_True, Eb.
    + intros Hb. apply (dk_val m Hm) in Hb. rewrite decide_False; [done|]. intros ->. by rewrite Hval in Hb.
  - intros o v. rewrite lookup_delegated_orch, lookup_delegated_eth. case_decide as Eo.
    + intros [= <-]. subst o. rewrite decide_True by done. eauto.
    + intros Hs. destruct (dk_orch m Hm o v Hs) as [? [b Hb]]. split; [done|]. case_decide; eauto.
  - intros o o' v. rewrite !lookup_delegated_orch.
    repeat case_decide; intros; simplify_eq; try done.
    + by destruct (Hno o').
    + by destruct (Hno o).
    + by eapply dk_inj.
Qed.

(** ** The listing of all delegations *)

(** The maps the two loops build. *)
Definition eth_map (l : list (bytes * bytes)) (acc : gmap string EthAddress) : gmap string EthAddress :=
  foldl (λ acc kv, <[ValAddressString kv.1 := mkEthAddress kv.2]> acc) acc l.
Definition orch_map (l : list (bytes * bytes)) (acc : gmap string string) : gmap string string :=
  foldl (λ acc kv, <[ValAddressString kv.2 := AccAddressString kv.1]> acc) acc l.

Lemma eth_addresses_eq l s :
  Forall (λ kv, VerifyAddressFormat kv.1 = Ok tt ∧ addr_ok kv.2) l →
  eth_addresses l s = Ret (eth_map l ∅) s.
Proof.
  unfold eth_addresses, eth_map. generalize (∅ : gmap string EthAddress).
  induction l as [|[k v] l IH]; intros acc Hl; [done|].
  apply Forall_cons in Hl as [[Hk Hv] Hl]. cbn [fst snd] in *.
  cbn [for_acc foldl fst snd]. rewrite NewEthAddressFromBytes_ok, Hk by done. mrun. by apply IH.
Qed.

Lemma orch_addresses_eq l s :
  Forall (λ kv, VerifyAddressFormat kv.1 = Ok tt ∧ VerifyAddressFormat kv.2 = Ok tt) l →
  orch_addresses l s = Ret (orch_map l ∅) s.
Proof.
  unfold orch_addresses, orch_map. generalize (∅ : gmap string string).
  induction l as [|[k v] l IH]; intros acc Hl; [done|].
  apply Forall_cons in Hl as [[Hk Hv] Hl]. cbn [fst snd] in *.
  cbn [for_acc foldl fst snd]. rewrite Hk, Hv. mrun. by apply IH.
Qed.

(** What a map built by insertions holds: an entry of the list, unless an earlier
    one of the accumulator. *)
Lemma lookup_foldl_insert {A V} (f : A → string) (g : A → V) (l : list A) (acc : gmap string V) k v :
  foldl (λ acc x, <[f x := g x]> acc) acc l !! k = Some v →
  (∃ x, x ∈ l ∧ f x = k ∧ g x = v) ∨ acc !! k = Some v.
Proof.
  revert acc. induction l as [|x l IH]; intros acc; [by right|]. cbn [foldl].
  intros [(y & Hy & ? & ?)|Hk]%IH; [left; exists y; split; [by right|done]|].
  destruct (decide (f x = k)) as [<-|Hne].
  - rewrite lookup_insert_eq in Hk. left. exists x. split; [by left|]. naive_solver.
  - rewrite lookup_insert_ne in Hk by done. by right.
Qed.

Lemma lookup_foldl_is_Some {A V} (f : A → string) (g : A → V) (l : list A) (acc : gmap string V) x :
  x ∈ l ∨ is_Some (acc !! f x) → is_Some (foldl (λ acc x, <[f x := g x]> acc) acc l !! f x).
Proof.
  revert acc. induction l as [|y l IH]; intros acc Hx; cbn [foldl].
  { destruct Hx as [Hx|Hx]; [by apply not_elem_of_nil in Hx|done]. }
  apply IH. destruct (decide (f y = f x)) as [E|Hne].
  - right. by rewrite E, lookup_insert_eq.
  - rewrite lookup_insert_ne by done. destruct Hx as [[->|Hx]%elem_of_cons|Hx]; [done|by left|by right].
Qed.

(** The delegation of a validator, as it is listed. *)
Definition listed m (d : MsgSetOrchestratorAddress) : Prop :=
  ∃ v b o, m !! (EthKey ++ v) = Some b ∧ m !! (OrchKey ++ o) = Some v ∧
    d = mkMsgSetOrchestratorAddress (ValAddressString v) (AccAddressString o) (Hex b).

Lemma orch_verified m o v :
  delegates_ok m → m !! (OrchKey ++ o) = Some v →
  VerifyAddressFormat o = Ok tt ∧ VerifyAddressFormat v = Ok tt.
Proof.
  intros Hok Hv. destruct (dk_orch m Hok o v Hv) as [Ho [b Hb]].
  by destruct (dk_eth m Hok v b Hb) as [? _].
Qed.

Lemma lookup_eth_map m x e :
  delegates_ok m →
  eth_map (index EthKey m) ∅ !! x = Some e ↔
  ∃ v b, m !! (EthKey ++ v) = Some b ∧ x = ValAddressString v ∧ e = mkEthAddress b.
Proof.
  intros Hok. unfold eth_map.
  assert (∀ k v, (k, v) ∈ index EthKey m ↔ m !! (EthKey ++ k) = Some v) as Hin
    by (intros; by apply elem_of_index).
  assert (∀ x e, eth_map (index EthKey m) ∅ !! x = Some e →
    ∃ v b, m !! (EthKey ++ v) = Some b ∧ x = ValAddressString v ∧ e = mkEthAddress b) as Hinv.
  { intros x' e' [([v b] & Hvb%Hin & <- & <-)|Hk]%lookup_foldl_insert; [by exists v, b|].
    by rewrite lookup_empty in Hk. }
  split; [apply Hinv|]. intros (v & b & Hvb & -> & ->).
  destruct (lookup_foldl_is_Some (λ kv, ValAddressString kv.1) (λ kv : bytes * bytes, mkEthAddress kv.2)
    (index EthKey m) ∅ (v, b)) as [e' He'].
  { left. by apply Hin. }
  cbn [fst] in He'. rewrite He'. destruct (Hinv _ _ He') as (v' & b' & Hvb' & Ev & ->).
  apply ValAddressString_inj in Ev; [subst v'; congruence| |].
  - by destruct (dk_eth m Hok v b Hvb).
  - by destruct (dk_eth m Hok v' b' Hvb').
Qed.

Lemma lookup_orch_map m o v :
  delegates_ok m → m !! (OrchKey ++ o) = Some v →
  orch_map (index OrchKey m) ∅ !! ValAddressString v = Some (AccAddressString o).
Proof.
  intros Hok Ho. unfold orch_map.
  assert (∀ k v, (k, v) ∈ index OrchKey m ↔ m !! (OrchKey ++ k) = Some v) as Hin
    by (intros; by apply elem_of_index).
  destruct (lookup_foldl_is_Some (λ kv : bytes * bytes, ValAddressString kv.2) (λ kv, AccAddressString kv.1)
    (index OrchKey m) ∅ (o, v)) as [e He].
  { left. by apply Hin. }
  cbn [snd] in He. rewrite He.
  apply lookup_foldl_insert in He as [([o' v'] & Ho'%Hin & Ev & <-)|He]; [|by rewrite lookup_empty in He].
  cbn [fst snd] in *. apply ValAddressString_inj in Ev.
  - subst v'. by rewrite (dk_inj m Hok o o' v).
  - by destruct (orch_verified m o' v' Hok Ho').
  - by destruct (orch_verified m o v Hok Ho).
Qed.

Lemma listed_delegation m x e :
  delegates_ok m → eth_map (index EthKey m) ∅ !! x = Some e →
  ∃ d, delegation (orch_map (index OrchKey m) ∅) (x, e) = Some d ∧ listed m d.
Proof.
  intros Hok (v & b & Hvb & -> & ->)%lookup_eth_map; [|done].
  destruct (dk_eth m Hok v b Hvb) as (_ & _ & _ & o & Ho).
  unfold delegation. cbn [fst snd]. rewrite (lookup_orch_map m o v Hok Ho).
  eexists. split; [done|]. by exists v, b, o.
Qed.

(** The listing is complete, and lists nothing else. *)
Lemma GetDelegateKeys_eq s :
  delegates_ok (raw s) →
  ∃ l, GetDelegateKeys s = Ret l s ∧ ∀ d, d ∈ l ↔ listed (raw s) d.
Proof.
  intros Hok. set (m := raw s) in *. set (oks := orch_map (index OrchKey m) ∅).
  set (ees := eth_map (index EthKey m) ∅).
  assert (is_Some (mapM (delegation oks) (map_to_list ees))) as [l Hl].
  { apply mapM_is_Some_2, Forall_forall. intros [x e] Hx%elem_of_map_to_list.
    destruct (listed_delegation m x e Hok Hx) as (d & Hd & _). by exists d. }
  exists (merge_sort so_le l). split.
  - unfold GetDelegateKeys. rewrite (bind_ret _ _ s (index EthKey m) s) by done.
    rewrite (bind_ret _ _ s ees s).
    2: { apply eth_addresses_eq, Forall_forall. intros [k v] Hk%elem_of_index; [|done..].
         by destruct (dk_eth m Hok k v Hk) as (? & ? & _). }
    rewrite (bind_ret _ _ s (index OrchKey m) s) by done.
    rewrite (bind_ret _ _ s oks s).
    2: { apply orch_addresses_eq, Forall_forall. intros [k v] Hk%elem_of_index; [|done..].
         by apply (orch_verified m). }
    by rewrite Hl.
  - intros d. rewrite merge_sort_Permutation. apply mapM_Some_1 in Hl. split.
    + intros Hd. apply list_elem_of_lookup in Hd as [i Hd].
      destruct (Forall2_lookup_r _ _ _ _ _ Hl Hd) as ([x e] & Hx & Hdx).
      apply list_elem_of_lookup_2, elem_of_map_to_list in Hx.
      destruct (listed_delegation m x e Hok Hx) as (d' & Hd' & Hm). fold oks in Hd'. congruence.
    + intros (v & b & o & Hvb & Ho & ->).
      assert ((ValAddressString v, mkEthAddress b) ∈ map_to_list ees) as [i Hi]%list_elem_of_lookup.
      { apply elem_of_map_to_list, lookup_eth_map; [done|]. by exists v, b. }
      destruct (Forall2_lookup_l _ _ _ _ _ Hl Hi) as (d & Hd & Hdx).
      unfold delegation in Hdx. cbn [fst snd] in Hdx.
      rewrite (lookup_orch_map m o v Hok Ho : oks !! _ = _) in Hdx. injection Hdx as <-.
      by eapply list_elem_of_lookup_2.
Qed.

(** ** Registering keys *)

Lemma GetOrchestratorValidator_ret o s :
  VerifyAddressFormat o = Ok tt → ∃ r, GetOrchestratorValidator o s = Ret r s.
Proof.
  intros Ho. unfold GetOrchestratorValidator, GetOrchestratorValidatorAddr, GetOrchestratorAddressKey, verified.
  rewrite Ho. unfold raw_get, opt_panic. mrun. cbn [is_ok negb].
  destruct (raw s !! _) as [a|]; cbn [negb andb].
  - destruct (GetValidator _ _); eauto.
  - rewrite bool_decide_eq_false_2 by done. destruct (GetValidator _ _); eauto.
Qed.

Lemma GetEthAddressByValidator_ret op s :
  VerifyAddressFormat op = Ok tt → ∃ r, GetEthAddressByValidator op s = Ret r s.
Proof.
  intros Ho. unfold GetEthAddressByValidator, GetEthAddressByValidatorKey, verified.
  rewrite Ho. unfold raw_get, opt_panic. mrun.
  destruct (raw s !! _); [destruct (NewEthAddressFromBytes _)|]; eauto.
Qed.

(** A loop of checks either passes every one of them or fails without a trace. *)
Lemma for_each_checks {A} (P Q : A → Prop) `{∀ x, Decision (P x)} `{∀ x, Decision (Q x)} e1 e2 (l : list A) s :
  let check x := _ ← guard_err (bool_decide (P x)) e1; guard_err (bool_decide (Q x)) e2 in
  (for_each l check s = Ret tt s ∧ ∀ x, x ∈ l → ¬ P x ∧ ¬ Q x) ∨
  (∃ e x, for_each l check s = Fail e s ∧ x ∈ l ∧ (P x ∨ Q x)).
Proof.
  intros check. induction l as [|x l IH]; [left; split; [done|]; intros x Hx; by apply not_elem_of_nil in Hx|].
  assert (for_each (x :: l) check s =
    if bool_decide (P x) then Fail e1 s else if bool_decide (Q x) then Fail e2 s else for_each l check s) as ->.
  { cbn [for_each]. unfold mbind, M_bind, check at 1, guard_err, fail, mret, M_ret. unfold mbind, M_bind.
    destruct (bool_decide (P x)); [done|]. by destruct (bool_decide (Q x)). }
  case_bool_decide as HP.
  { right. exists e1, x. split_and!; [done|by left|by left]. }
  case_bool_decide as HQ.
  { right. exists e2, x. split_and!; [done|by left|by right]. }
  destruct IH as [[-> Hl]|(e & y & -> & Hy & Hpq)].
  - left. split; [done|]. intros y [->|Hy]%elem_of_cons; auto.
  - right. exists e, y. split_and!; [done|by right|done].
Qed.

(** Keys that nobody else uses are registered, any others are refused. *)
Lemma duplicates_listed m orch e :
  delegates_ok m → VerifyAddressFormat orch = Ok tt → eth_ok e →
  (∃ d, listed m d ∧ (so_EthAddress d = Hex (GetAddress e) ∨ so_Orchestrator d = AccAddressString orch)) ↔
  is_Some (m !! (ValKey ++ GetAddress e)) ∨ is_Some (m !! (OrchKey ++ orch)).
Proof.
  intros Hok Ho He. split.
  - intros (d & (v & b & o & Hvb & Hov & ->) & Hd). cbn [so_EthAddress so_Orchestrator] in Hd.
    destruct (dk_eth m Hok v b Hvb) as (Hv & Hb & Hbv & _). destruct Hd as [Hd|Hd].
    + left. apply Hex_inj in Hd as <-; eauto.
    + right. apply AccAddressString_inj in Hd as <-; [eauto| |done]. by destruct (orch_verified m o v).
  - intros [[v Hv]|[v Hv]].
    + apply (dk_val m Hok) in Hv. destruct (dk_eth m Hok v _ Hv) as (_ & _ & _ & o & Ho').
      eexists. split; [by exists v, (GetAddress e), o|]. by left.
    + destruct (dk_orch m Hok orch v Hv) as [_ [b Hb]].
      eexists. split; [by exists v, b, orch|]. by right.
Qed.

(** The state after the keys were registered. *)
Definition set_delegation (val orch : bytes) (e : EthAddress) s : State W :=
  add_event (EventSetOperatorAddress (AccAddressString orch))
    (upd_kv (upd_raw (delegated val orch e)) s).

Lemma set_delegation_run val orch e s :
  VerifyAddressFormat val = Ok tt → VerifyAddressFormat orch = Ok tt →
  (_ ← SetOrchestratorValidator val orch; _ ← SetEthAddressForValidator val e;
   emit (EventSetOperatorAddress (AccAddressString orch))) s = Ret tt (set_delegation val orch e s).
Proof.
  intros Hv Ho. unfold SetOrchestratorValidator, SetEthAddressForValidator, GetOrchestratorAddressKey,
    GetEthAddressByValidatorKey, GetValidatorByEthAddressKey, verified.
  rewrite Hv, Ho, !AppendBytes_pair. done.
Qed.

(** The message names an account of an existing validator, an orchestrator and an
    Ethereum address. *)
Definition delegation_request (msg : MsgSetOrchestratorAddress) s (val orch : bytes) (e : EthAddress) : Prop :=
  AccAddressFromBech32 (so_Validator msg) = Ok val ∧
  AccAddressFromBech32 (so_Orchestrator msg) = Ok orch ∧ NewEthAddress (so_EthAddress msg) = Ok e ∧
  is_ok (GetValidator (st_world s) val) = true.

Lemma delegation_request_dec msg s :
  (∃ val orch e, delegation_request msg s val orch e) ∨
  (∃ err, (∀ val orch e, ¬ delegation_request msg s val orch e) ∧ SetOrchestratorAddress msg s = Fail err s).
Proof.
  unfold delegation_request, SetOrchestratorAddress, MsgSetOrchestratorAddress_ValidateBasic, bech32_account,
    NewEthAddress.
  destruct (AccAddressFromBech32 (so_Validator msg)) as [val|e1]; [|right; eexists; split; [naive_solver|done]].
  destruct (AccAddressFromBech32 (so_Orchestrator msg)) as [orch|e2]; [|right; eexists; split; [naive_solver|done]].
  destruct (ValidateEthAddress (so_EthAddress msg)) as [[]|e3]; [|right; eexists; split; [naive_solver|done]].
  destruct (GetValidator (st_world s) val) as [v|e4] eqn:Hv.
  - left. eexists _, _, _. split_and!; try done. by rewrite Hv.
  - right. eexists. split; [intros ? ? ? ([= <-] & _ & _ & Hf); by rewrite Hv in Hf|].
    cbn [mbind res_bind]. rewrite (bind_ret _ _ s tt s), (bind_ret _ _ s (GetValidator (st_world s) val) s) by done.
    by rewrite Hv.
Qed.

Lemma SetOrchestratorAddress_cases msg s val orch e :
  delegates_ok (raw s) → delegation_request msg s val orch e →
  (fresh (raw s) val orch e ∧ SetOrchestratorAddress msg s = Ret tt (set_delegation val orch e s)) ∨
  (¬ fresh (raw s) val orch e ∧ ∃ err, SetOrchestratorAddress msg s = Fail err s).
Proof.
  intros Hok (Hval & Horch & He & Hx). unfold SetOrchestratorAddress, MsgSetOrchestratorAddress_ValidateBasic,
    bech32_account. pose proof He as Heok%NewEthAddress_ok.
  assert (ValidateEthAddress (so_EthAddress msg) = Ok tt) as Hve.
  { unfold NewEthAddress in He. by destruct (ValidateEthAddress _) as [[]|]. }
  pose proof (acc_bech32_verified _ _ Hval) as Vv. pose proof (acc_bech32_verified _ _ Horch) as Vo.
  rewrite Hval, Horch, He. cbn [mbind res_bind]. rewrite Hve.
  rewrite (bind_ret _ _ s tt s), (bind_ret _ _ s (GetValidator (st_world s) val) s) by done.
  rewrite Hx. rewrite (bind_ret _ _ s tt s) by done.
  destruct (GetOrchestratorValidator_ret orch s Vo) as [r Er]. rewrite (bind_ret _ _ _ _ _ Er).
  destruct (GetEthAddressByValidator_ret val s Vv) as [r' Er']. rewrite (bind_ret _ _ _ _ _ Er').
  apply GetOrchestratorValidator_inv in Er as [_ Hr]. apply GetEthAddressByValidator_inv in Er' as (_ & _ & ->).
  destruct (raw s !! (EthKey ++ val)) as [b|] eqn:Hb.
  { right. split; [by intros (? & _); congruence|]. destruct (dk_eth _ Hok val b Hb) as (_ & Hbok & _).
    rewrite NewEthAddressFromBytes_ok, (bool_decide_eq_true_2 (is_Some (Some _))), orb_true_r by done. by eexists. }
  rewrite (bool_decide_eq_false_2 (is_Some None)), orb_false_r by (by intros []).
  case_bool_decide as Hr'.
  { destruct Hr' as [v ->]. right. destruct (Hr v eq_refl) as (_ & a & Ha & _).
    split; [by intros (_ & ? & _); congruence|]. by eexists. }
  rewrite (bind_ret _ _ s tt s) by done.
  destruct (GetDelegateKeys_eq s Hok) as (l & El & Hl). rewrite (bind_ret _ _ _ _ _ El).
  pose proof (duplicates_listed (raw s) orch e Hok Vo Heok) as Hdup.
  destruct (for_each_checks (λ d, so_EthAddress d = Hex (GetAddress e))
    (λ d, so_Orchestrator d = AccAddressString orch) ErrDuplicateEthereumKey ErrDuplicateOrchestratorKey l s)
    as [[Hc Hnone]|(err & d & Hc & Hd & Hpq)].
  - left. rewrite (bind_ret _ _ _ _ _ Hc), set_delegation_run by done. split; [|done].
    assert (¬ (is_Some (raw s !! (ValKey ++ GetAddress e)) ∨ is_Some (raw s !! (OrchKey ++ orch)))) as Hno.
    { rewrite <- Hdup. intros (d & Hd%Hl & Hpq). destruct (Hnone d Hd). tauto. }
    split_and!; [done|apply eq_None_not_Some; tauto..].
  - right. rewrite (bind_fail _ _ _ _ _ Hc). split; [|by eexists].
    intros (_ & Ho & Hv). destruct (proj1 Hdup) as [[]|[]]; [exists d; by rewrite <- Hl|congruence..].
Qed.

(** While no two validators share an Ethereum key or an orchestrator and the
    indexes of the delegations agree, registering delegate keys never panics.  It
    succeeds exactly when the message names an existing validator and neither the
    validator, the orchestrator nor the Ethereum key is registered yet; it then
    adds the delegation to all three indexes, and keys stay unique.  Otherwise the
    state is unchanged. *)
Theorem SetOrchestratorAddress_spec msg s :
  delegates_ok (raw s) →
  (∃ val orch e, delegation_request msg s val orch e ∧ fresh (raw s) val orch e ∧
     SetOrchestratorAddress msg s = Ret tt (set_delegation val orch e s) ∧
     delegates_ok (raw (set_delegation val orch e s))) ∨
  (∃ err, SetOrchestratorAddress msg s = Fail err s ∧
     ∀ val orch e, delegation_request msg s val orch e → ¬ fresh (raw s) val orch e).
Proof.
  intros Hok.
  destruct (delegation_request_dec msg s) as [(val & orch & e & Hreq)|(err & Hno & Herr)].
  - destruct (SetOrchestratorAddress_cases msg s val orch e Hok Hreq) as [[Hf Hrun]|[Hf [err Hrun]]].
    + left. exists val, orch, e. split_and!; try done. destruct Hreq as (Hval & Horch & He & _).
      apply delegates_ok_delegated; try done; [by eapply acc_bech32_verified..|by eapply NewEthAddress_ok].
    + right. exists err. split; [done|]. intros val' orch' e' (Hval & Horch & He & _).
      destruct Hreq as (Hval' & Horch' & He' & _).
      rewrite Hval, Horch, He in *. by simplify_eq.
  - right. exists err. split; [done|]. intros val orch e Hreq. by destruct (Hno val orch e).
Qed.
End Delegates.
