(* ===== verification/Governance.v ===== *)
(** * Governance proposals (keeper/governance_proposals.go, types/governance_proposals.go)

    What governance can do to the bridge besides changing parameters: roll back
    the votes of a halted oracle, pay an airdrop out of the community pool, and
    edit the list of Cosmos tokens that may be bridged; with the handlers of
    keeper/msg_server.go that check who asks for it. *)

From stdpp Require Import base gmap list strings sorting.
From S2P Require Import Prelude GoStd External Store Ethereum Keys OutgoingTx Valset Claims Keeper DelegateKeys Params Msgs Attestation Registry IbcForward.

#[local] Open Scope Z_scope.

(** ** The other modules *)

(** x/distribution's community pool, and x/gov's check of a proposal's title and
    description. *)
Class CommunityPool (W : Type) := {
  FeePool : Type;
  FeePool_Get : W → res FeePool;
  FeePool_AmountOf : FeePool → string → Z;
  (** the coins left and whether one of them is negative *)
  FeePool_SafeSub : FeePool → string → Z → FeePool * bool;
  FeePool_Set : FeePool → W → option gerror * W;
}.

(** The record of the pool is kept apart from the balances that back it. *)
Class CommunityPoolLaws (W : Type) `{Bank W} `{CommunityPool W} := {
  pool_set_get f w w' : FeePool_Set f w = (None, w') → FeePool_Get w' = Ok f;
  pool_set_balance f w w' a d :
    FeePool_Set f w = (None, w') → GetBalance w' a d = GetBalance w a d;
}.

Class BankMetadata (W : Type) := {
  SetDenomMetaData : Metadata → W → W;
  Metadata_Validate : Metadata → res unit;
}.

Class BankMetadataLaws (W : Type) `{Bank W} `{BankMetadata W} := {
  set_metadata_get m w d :
    GetDenomMetaData (SetDenomMetaData m w) d =
    if decide (d = md_Base m) then Some m else GetDenomMetaData w d;
  set_metadata_balance m w a d : GetBalance (SetDenomMetaData m w) a d = GetBalance w a d;
  set_metadata_supply m w d : GetSupply (SetDenomMetaData m w) d = GetSupply w d;
}.

(** ** Proposals *)

Record UnhaltBridgeProposal := mkUnhaltBridgeProposal {
  ub_Title : string; ub_Description : string; ub_TargetNonce : Z }.
Record AirdropProposal := mkAirdropProposal {
  ad_Title : string; ad_Description : string; ad_Denom : string; ad_Recipients : bytes;
  ad_Amounts : list Z }.
Record SetCosmosBridgeableTokensProposal := mkSetTokensProposal {
  sb_Title : string; sb_Description : string; sb_Metadatas : list Metadata }.
Record DeleteCosmosBridgeableTokensProposal := mkDeleteTokensProposal {
  db_Title : string; db_Description : string; db_Metadatas : list Metadata }.

Inductive GravityProposal :=
  | UnhaltBridge (p : UnhaltBridgeProposal)
  | Airdrop (p : AirdropProposal)
  | SetTokens (p : SetCosmosBridgeableTokensProposal)
  | DeleteTokens (p : DeleteCosmosBridgeableTokensProposal)
  | OtherContent.

(** The loop over a list of metadata that stops at the second use of a denom. *)
Fixpoint first_duplicate (seen : gset string) (l : list Metadata) : bool :=
  match l with
  | [] => false
  | m :: l' => bool_decide (md_Base m ∈ seen) || first_duplicate ({[ md_Base m ]} ∪ seen) l'
  end.

Section ProposalValidation.
Context {W : Type} `{GovContent} `{BankMetadata W}.

Definition UnhaltBridgeProposal_ValidateBasic (p : UnhaltBridgeProposal) : res unit :=
  ValidateAbstract (ub_Title p) (ub_Description p).

Definition AirdropProposal_ValidateBasic (p : AirdropProposal) : res unit :=
  ValidateAbstract (ad_Title p) (ad_Description p).

(** Each entry is validated, then compared with those before it. *)
Fixpoint validate_metadatas (seen : gset string) (l : list Metadata) : res unit :=
  match l with
  | [] => Ok tt
  | m :: l' =>
      _ ← Metadata_Validate m;
      if decide (md_Base m ∈ seen) then Er (ErrSdk "duplicate base denom")
      else validate_metadatas ({[ md_Base m ]} ∪ seen) l'
  end.

Definition SetTokens_ValidateBasic (p : SetCosmosBridgeableTokensProposal) : res unit :=
  _ ← ValidateAbstract (sb_Title p) (sb_Description p);
  if decide (sb_Metadatas p = []) then Er (ErrSdk "at least one metadata entry")
  else validate_metadatas ∅ (sb_Metadatas p).

Definition DeleteTokens_ValidateBasic (p : DeleteCosmosBridgeableTokensProposal) : res unit :=
  _ ← ValidateAbstract (db_Title p) (db_Description p);
  if decide (db_Metadatas p = []) then Er (ErrSdk "at least one metadata entry")
  else validate_metadatas ∅ (db_Metadatas p).
End ProposalValidation.

(** ** Rolling back the oracle *)

Section Unhalt.
Context {W : Type} `{Geth} `{Sdk} `{Hashing} `{Codec} `{Staking W}.

(** The attestations with a nonce after the cutoff, by ascending nonce. *)
Definition reverted (attmap : gmap Z (list Attestation)) (keys : list Z) (nonceCutoff : Z)
    : list Attestation :=
  filter (λ nonce, nonceCutoff < nonce) keys ≫= λ nonce, default [] (attmap !! nonce).

Definition resetLastEventNonce (nonceCutoff : Z) (vote : string) : K W unit :=
  val ← or_panic "invalid validator address affected by bridge reset" (ValAddressFromBech32 vote);
  valLastNonce ← GetLastEventNonceByValidator val;
  if nonceCutoff <? valLastNonce then SetLastEventNonceByValidator val nonceCutoff else mret tt.

Definition pruneAttestationsAfterNonce (nonceCutoff : Z) : K W unit :=
  lastObserved ← GetLastObservedEventNonce;
  if (nonceCutoff <? lastObserved) || (nonceCutoff =? 0) then mret tt else
  mapping ← GetAttestationMapping;
  let '(attmap, keys) := mapping in
  validators ← gets (λ s, GetBondedValidatorsByPower (st_world s));
  if negb (is_ok validators) then mret tt else
  let atts := reverted attmap keys nonceCutoff in
  _ ← for_each atts DeleteAttestation;
  let affectedValidatorsSet : gset string := list_to_set (atts ≫= at_Votes) in
  for_each (elements affectedValidatorsSet) (resetLastEventNonce nonceCutoff).

Definition HandleUnhaltBridgeProposal (p : UnhaltBridgeProposal) : K W unit :=
  pruneAttestationsAfterNonce (ub_TargetNonce p).
End Unhalt.

(** ** Airdrops *)

Section Airdrops.
Context {W : Type} `{Geth} `{Sdk} `{Bank W} `{Decimals} `{CommunityPool W}.

Definition sum_amounts (amounts : list Z) : option Z :=
  foldl (λ acc v, a ← acc; Int_Add a v) (Some 0) amounts.

(** Recipients are packed 20 bytes each. *)
Definition parse_recipients (recipients : bytes) : list bytes :=
  (λ i, take 20 (drop (20 * i) recipients)) <$> seq 0 (length recipients / 20).

(** The amount sent so far, after one more recipient was paid. *)
Definition pay_recipient (denom : string) (r : bytes * Z) (totalSent : Z) : K W (Z * bool) :=
  let '(addr, usersAmount) := r in
  usersDecAmount ← opt_panic "LegacyDec" (Dec_FromInt usersAmount);
  coin ← opt_panic "NewCoin" (NewCoin denom usersAmount);
  coins ← opt_panic "NewCoins" (NewCoins1 coin);
  _ ← call (SendCoinsFromModuleToAccount DistributionModule addr coins);
  total ← opt_panic "LegacyDec" (Dec_Add totalSent usersDecAmount);
  mret (total, false).

Definition HandleAirdropProposal (p : AirdropProposal) : K W unit :=
  _ ← of_res (ValidateStrictDenom (ad_Denom p));
  startingSupply ← gets (λ s, GetSupply (st_world s) (ad_Denom p));
  _ ← guard_err (negb (ValidateDenom (ad_Denom p))) ErrInvalid;
  pool ← gets (λ s, FeePool_Get (st_world s));
  feePool ← of_res pool;
  airdropTotal ← opt_panic "Int.Add" (sum_amounts (ad_Amounts p));
  totalRequiredCoin ← opt_panic "NewCoin" (NewCoin (ad_Denom p) airdropTotal);
  totalRequiredDec ← opt_panic "LegacyDec" (Dec_FromInt (Amount totalRequiredCoin));
  _ ← guard_err (FeePool_AmountOf feePool (ad_Denom p) <? totalRequiredDec) ErrInvalid;
  let numRecipients := (length (ad_Recipients p) / 20)%nat in
  _ ← guard_err (negb (Nat.eqb (length (ad_Recipients p) mod 20) 0) ||
                 negb (Nat.eqb numRecipients (length (ad_Amounts p)))) ErrInvalid;
  let parsedRecipients := parse_recipients (ad_Recipients p) in
  _ ← guard_err (negb (Nat.eqb (length parsedRecipients) (length (ad_Amounts p)))) ErrInvalid;
  totalSent ← for_acc (zip parsedRecipients (ad_Amounts p)) 0 (pay_recipient (ad_Denom p));
  _ ← guard_err (negb (totalRequiredDec =? totalSent)) ErrInvalid;
  let '(newCoins, invalidModuleBalance) :=
    FeePool_SafeSub feePool (ad_Denom p) totalRequiredDec in
  _ ← guard_err invalidModuleBalance ErrInvalid;
  _ ← call (FeePool_Set newCoins);
  endingSupply ← gets (λ s, GetSupply (st_world s) (ad_Denom p));
  guard_err (negb (startingSupply =? endingSupply)) ErrInvalid.
End Airdrops.

(** ** The list of bridgeable tokens *)

Section Tokens.
Context {W : Type} `{Geth} `{Sdk} `{Bank W} `{BankMetadata W}.

Definition assertCosmosBridgeableTokensConsistent : K W unit :=
  tokens ← GetAllCosmosBridgeableTokens;
  _ ← for_acc tokens (∅ : gset string) (λ metadata seen,
        _ ← guard_err (ContainsEthAddress (md_Base metadata)) ErrInvalid;
        _ ← guard_err (bool_decide (md_Base metadata ∈ seen)) ErrDuplicate;
        _ ← guard_err (HasPrefix (md_Base metadata) GravityDenomPrefix) ErrInvalid;
        mret ({[ md_Base metadata ]} ∪ seen, false));
  mret tt.

Definition set_bridgeable_token (metadata : Metadata) : K W unit :=
  _ ← of_res (Metadata_Validate metadata);
  _ ← of_res (ValidateStrictDenom (md_Base metadata));
  _ ← guard_err (HasPrefix (md_Base metadata) GravityDenomPrefix) ErrInvalid;
  supply ← gets (λ s, GetSupply (st_world s) (md_Base metadata));
  _ ← guard_err (supply =? 0) ErrInvalid;
  existing ← GetCosmosBridgeableToken (md_Base metadata);
  erc20 ← getCosmosOriginatedERC20ForDenom (md_Base metadata);
  _ ← guard_err (bool_decide (is_Some existing) && bool_decide (is_Some erc20)) ErrInvalid;
  _ ← modify (upd_world (SetDenomMetaData metadata));
  _ ← SetCosmosBridgeableToken metadata;
  writtenBank ← gets (λ s, GetDenomMetaData (st_world s) (md_Base metadata));
  _ ← guard_err (bool_decide (writtenBank ≠ Some metadata)) ErrInvalid;
  writtenAllowlist ← GetCosmosBridgeableToken (md_Base metadata);
  guard_err (bool_decide (writtenAllowlist ≠ Some metadata)) ErrInvalid.

Definition HandleSetCosmosBridgeableTokensProposal (p : SetCosmosBridgeableTokensProposal) : K W unit :=
  _ ← guard_err (first_duplicate ∅ (sb_Metadatas p)) ErrDuplicate;
  _ ← for_each (sb_Metadatas p) set_bridgeable_token;
  assertCosmosBridgeableTokensConsistent.

Definition delete_bridgeable_token (metadata : Metadata) : K W unit :=
  existing ← GetCosmosBridgeableToken (md_Base metadata);
  _ ← guard_err (bool_decide (existing = None)) ErrInvalid;
  _ ← guard_err (bool_decide (existing ≠ Some metadata)) ErrInvalid;
  _ ← DeleteCosmosBridgeableToken (md_Base metadata);
  stillPresent ← GetCosmosBridgeableToken (md_Base metadata);
  guard_err (bool_decide (is_Some stillPresent)) ErrInvalid.

Definition HandleDeleteCosmosBridgeableTokensProposal (p : DeleteCosmosBridgeableTokensProposal)
    : K W unit :=
  _ ← guard_err (first_duplicate ∅ (db_Metadatas p)) ErrDuplicate;
  _ ← for_each (db_Metadatas p) delete_bridgeable_token;
  assertCosmosBridgeableTokensConsistent.
End Tokens.

(** ** Dispatch *)

Section Proposals.
Context {W : Type} `{Geth} `{Sdk} `{Hashing} `{Codec} `{Staking W} `{Bank W} `{Decimals}
  `{CommunityPool W} `{BankMetadata W}.

Definition GravityProposalHandler (content : GravityProposal) : K W unit :=
  match content with
  | UnhaltBridge p => HandleUnhaltBridgeProposal p
  | Airdrop p => HandleAirdropProposal p
  | SetTokens p => HandleSetCosmosBridgeableTokensProposal p
  | DeleteTokens p => HandleDeleteCosmosBridgeableTokensProposal p
  | OtherContent => fail (ErrSdk "ErrUnknownRequest")
  end.

(** The messages of x/gov carry the account that may execute them; [authority] is
    the keeper's [proposalAuthority]. *)
Definition authorized {A} (authority sender : string) (m : K W A) : K W A :=
  _ ← guard_err (bool_decide (authority ≠ sender)) (ErrSdk "ErrInvalidSigner");
  m.

Definition AirdropProposal_handler (authority sender : string) (p : AirdropProposal) : K W unit :=
  authorized authority sender (HandleAirdropProposal p).
Definition UnhaltBridgeProposal_handler (authority sender : string) (p : UnhaltBridgeProposal)
    : K W unit :=
  authorized authority sender (HandleUnhaltBridgeProposal p).
Definition SetCosmosBridgeableTokensProposal_handler (authority sender : string)
    (p : SetCosmosBridgeableTokensProposal) : K W unit :=
  authorized authority sender (HandleSetCosmosBridgeableTokensProposal p).
Definition DeleteCosmosBridgeableTokensProposal_handler (authority sender : string)
    (p : DeleteCosmosBridgeableTokensProposal) : K W unit :=
  authorized authority sender (HandleDeleteCosmosBridgeableTokensProposal p).
End Proposals.

(** ** The messages that carry the proposals (types/v2/msgs.go) *)

Section ProposalMessages.
Context {W : Type} `{Sdk} `{GovContent} `{BankMetadata W}.

(** The keys that the message updates are looked up in a set of those seen before. *)
Fixpoint check_param_keys (seen : gset string) (updates : list (string * string)) : res unit :=
  match updates with
  | [] => Ok tt
  | (key, _) :: updates' =>
      if decide (key ∈ seen) then Er (ErrSdk "ErrInvalidRequest")
      else check_param_keys ({[ key ]} ∪ seen) updates'
  end.

Definition MsgUpdateParamsProposal_ValidateBasic (msg : MsgUpdateParamsProposal) : res unit :=
  _ ← AccAddressFromBech32 (up_Authority msg);
  check_param_keys ∅ (up_ParamUpdates msg).

(** The other messages hold a proposal, which may be missing: validating it panics then
    ([None]). *)
Definition proposal_ValidateBasic {P} (validate : P → res unit) (authority : string)
    (proposal : option P) : option (res unit) :=
  match AccAddressFromBech32 authority with
  | Er e => Some (Er e)
  | Ok _ => validate <$> proposal
  end.

Definition MsgAirdropProposal_ValidateBasic (authority : string) (p : option AirdropProposal) :=
  proposal_ValidateBasic AirdropProposal_ValidateBasic authority p.
Definition MsgUnhaltBridgeProposal_ValidateBasic (authority : string) (p : option UnhaltBridgeProposal) :=
  proposal_ValidateBasic UnhaltBridgeProposal_ValidateBasic authority p.
Definition MsgSetCosmosBridgeableTokensProposal_ValidateBasic (authority : string)
    (p : option SetCosmosBridgeableTokensProposal) :=
  proposal_ValidateBasic (SetTokens_ValidateBasic (W := W)) authority p.
Definition MsgDeleteCosmosBridgeableTokensProposal_ValidateBasic (authority : string)
    (p : option DeleteCosmosBridgeableTokensProposal) :=
  proposal_ValidateBasic (DeleteTokens_ValidateBasic (W := W)) authority p.

(** [GetSigners] of all five: the authority, or a panic *)
Definition authority_signers (authority : string) : option (list bytes) := signer authority.
End ProposalMessages.
