(* ===== verification/Genesis.v ===== *)
(** * Genesis (keeper/genesis.go, types/genesis.go)

    The state a chain starts from, the import of such a state, and the export of
    the running state to start another chain from. *)

From stdpp Require Import base gmap list strings sorting.
From S2P Require Import Prelude GoStd External Store Ethereum Keys OutgoingTx Valset Claims Keeper Params DelegateKeys Evidence Msgs Attestation Registry ValsetKeeper IbcForward LogicCall Pool Batch Governance.

#[local] Open Scope Z_scope.

Record GravityNonces := mkGravityNonces {
  gn_LatestValsetNonce : Z; gn_LastObservedNonce : Z; gn_LastSlashedValsetNonce : Z;
  gn_LastSlashedBatchBlock : Z; gn_LastSlashedLogicCallBlock : Z; gn_LastTxPoolId : Z;
  gn_LastBatchId : Z }.

Record ERC20ToDenom := mkERC20ToDenom { ed2_Erc20 : string; ed2_Denom : string }.

Record GenesisState := mkGenesisState {
  gs_Params : Params;
  gs_GravityNonces : GravityNonces;
  gs_Valsets : list Valset;
  gs_ValsetConfirms : list MsgValsetConfirm;
  gs_Batches : list OutgoingTxBatch;
  gs_BatchConfirms : list MsgConfirmBatch;
  gs_LogicCalls : list OutgoingLogicCall;
  gs_LogicCallConfirms : list MsgConfirmLogicCall;
  gs_Attestations : list Attestation;
  gs_DelegateKeys : list MsgSetOrchestratorAddress;
  gs_Erc20ToDenoms : list ERC20ToDenom;
  gs_UnbatchedTransfers : list OutgoingTransferTx;
  gs_PendingIbcAutoForwards : list PendingIbcAutoForward;
  gs_RemappedErc20S : list string;
  gs_CosmosBridgeableTokens : list Metadata }.

Definition DefaultGenesisState : GenesisState :=
  mkGenesisState DefaultParams (mkGravityNonces 0 0 0 0 0 0 0) [] [] [] [] [] [] [] [] [] [] [] [] [].

Section GenesisValidation.
Context {W : Type} `{Geth} `{Sdk} `{BankMetadata W}.

Fixpoint validateGenesisTokens (seen : gset string) (entries : list Metadata) : res unit :=
  match entries with
  | [] => Ok tt
  | m :: entries' =>
      _ ← Metadata_Validate m;
      _ ← ValidateStrictDenom (md_Base m);
      if HasPrefix (md_Base m) GravityDenomPrefix then Er (ErrSdk "gravity-prefixed denom") else
      if decide (md_Base m ∈ seen) then Er (ErrSdk "duplicate base denom") else
      validateGenesisTokens ({[ md_Base m ]} ∪ seen) entries'
  end.

Definition validateGenesisCosmosBridgeableTokens (entries : list Metadata) : res unit :=
  validateGenesisTokens ∅ entries.

Definition GenesisState_ValidateBasic (s : GenesisState) : res unit :=
  _ ← Params_ValidateBasic (gs_Params s);
  validateGenesisCosmosBridgeableTokens (gs_CosmosBridgeableTokens s).
End GenesisValidation.

(** The two maps are as long as the list when nothing occurs twice. *)
Definition hasDuplicates (d : list MsgSetOrchestratorAddress) : bool :=
  negb (Nat.eqb (size (list_to_set (so_EthAddress <$> d) : gset string)) (length d)) ||
  negb (Nat.eqb (size (list_to_set (so_Orchestrator <$> d) : gset string)) (length d)).

(** ** Import *)

Section GenesisImport.
Context {W : Type} `{Geth} `{Sdk} `{Bech32} `{Hashing} `{Codec} `{EthAbi} `{Bank W} `{BankMetadata W}
  `{Ibc W}.

(** Stores the validator sets and returns the highest nonce. *)
Definition init_valsets (valsets : list Valset) : K W Z :=
  for_acc valsets 0 (λ vs highest,
    _ ← StoreValset vs;
    mret (if highest <? vs_Nonce vs then vs_Nonce vs else highest, false)).

Definition initBridgeDataFromGenesis (data : GenesisState) : K W unit :=
  highest ← init_valsets (gs_Valsets data);
  _ ← SetLatestValsetNonce highest;
  _ ← for_each (gs_ValsetConfirms data) (λ conf, _ ← SetValsetConfirm conf; mret tt);
  _ ← for_each (gs_Batches data) (λ batch,
        intBatch ← or_panic "unable to make batch internal" (OutgoingTxBatch_ToInternal batch);
        StoreBatch intBatch);
  _ ← for_each (gs_BatchConfirms data) (λ conf, _ ← SetBatchConfirm conf; mret tt);
  _ ← for_each (gs_LogicCalls data) SetOutgoingLogicCall;
  for_each (gs_LogicCallConfirms data) SetLogicCallConfirm.

Definition init_nonces (nonces : GravityNonces) : K W unit :=
  _ ← SetLatestValsetNonce (gn_LatestValsetNonce nonces);
  _ ← setLastObservedEventNonce (gn_LastObservedNonce nonces);
  _ ← SetLastSlashedValsetNonce (gn_LastSlashedValsetNonce nonces);
  _ ← SetLastSlashedBatchBlock (gn_LastSlashedBatchBlock nonces);
  _ ← SetLastSlashedLogicCallBlock (gn_LastSlashedLogicCallBlock nonces);
  _ ← setID (gn_LastTxPoolId nonces) KeyLastTXPoolID;
  setID (gn_LastBatchId nonces) KeyLastOutgoingBatchID.

Definition init_transfer (tx : OutgoingTransferTx) : K W unit :=
  intTx ← or_panic "invalid unbatched tx" (OutgoingTransferTx_ToInternal tx);
  must "addUnbatchedTX" (addUnbatchedTX intTx).

(** An attestation of an older genesis gets the parts it lacks. *)
Definition init_attestation (att : Attestation) : K W unit :=
  claim ← or_panic "couldn't cast to claim" (UnpackAttestationClaim att);
  att ← (if decide (at_ClaimType att = CLAIM_TYPE_UNSPECIFIED ∨ at_ClaimComponents att = None) then
           components ← or_panic "error when extracting ClaimHashComponents"
                          (ExtractClaimHashComponents claim);
           mret (mkAttestation (at_Observed att) (at_Votes att) (at_Height att) (at_Claim att)
                   (GetType claim) (Some components))
         else mret att);
  hash ← or_panic "error when computing ClaimHash" (ClaimHash claim);
  SetAttestation (GetEventNonce claim) hash att.

Definition init_votes (att : Attestation) : K W unit :=
  claim ← or_panic "couldn't cast to claim" (UnpackAttestationClaim att);
  for_each (at_Votes att) (λ vote,
    val ← or_panic "ValAddressFromBech32" (ValAddressFromBech32 vote);
    last ← GetLastEventNonceByValidator val;
    if last <? GetEventNonce claim then SetLastEventNonceByValidator val (GetEventNonce claim)
    else mret tt).

Definition init_delegation (keys : MsgSetOrchestratorAddress) : K W unit :=
  _ ← or_panic "Invalid delegate key in Genesis!" (MsgSetOrchestratorAddress_ValidateBasic keys);
  val ← or_panic "ValAddressFromBech32" (ValAddressFromBech32 (so_Validator keys));
  ethAddr ← or_panic "NewEthAddress" (NewEthAddress (so_EthAddress keys));
  orch ← or_panic "AccAddressFromBech32" (AccAddressFromBech32 (so_Orchestrator keys));
  _ ← SetOrchestratorValidator val orch;
  SetEthAddressForValidator val ethAddr.

Definition init_mapping (item : ERC20ToDenom) : K W unit :=
  ethAddr ← or_panic "invalid erc20 address in Erc20ToDenoms" (NewEthAddress (ed2_Erc20 item));
  _ ← or_panic "invalid denom in genesis state" (ValidateStrictDenom (ed2_Denom item));
  must "invalid cosmos-originated mapping in genesis state"
    (setCosmosOriginatedMapping (ed2_Denom item) ethAddr).

Definition init_token (metadata : Metadata) : K W unit :=
  _ ← or_panic "invalid CosmosBridgeableTokens metadata in genesis state" (Metadata_Validate metadata);
  _ ← modify (upd_world (SetDenomMetaData metadata));
  SetCosmosBridgeableToken metadata.

(** The reward of a relayed validator set must be a Cosmos token with an ERC20. *)
Definition check_reward : K W unit :=
  params ← must "failed to get params" GetParams;
  let valsetReward := p_ValsetReward params in
  if Coin_IsValid valsetReward && negb (Amount valsetReward =? 0) then
    _ ← or_panic "invalid valset reward denom in genesis state"
          (ValidateStrictDenom (Denom valsetReward));
    erc20 ← getCosmosOriginatedERC20ForDenom (Denom valsetReward);
    guard_panic (bool_decide (erc20 = None)) "Invalid Cosmos originated denom for valset reward"
  else mret tt.

Definition InitGenesis (data : GenesisState) : K W unit :=
  _ ← must "failed to set params" (SetParams (gs_Params data));
  _ ← init_nonces (gs_GravityNonces data);
  _ ← initBridgeDataFromGenesis data;
  _ ← for_each (gs_UnbatchedTransfers data) init_transfer;
  _ ← for_each (gs_Attestations data) init_attestation;
  _ ← for_each (gs_Attestations data) init_votes;
  _ ← guard_panic (hasDuplicates (gs_DelegateKeys data)) "Duplicate delegate key found in Genesis!";
  _ ← for_each (gs_DelegateKeys data) init_delegation;
  _ ← for_each (gs_RemappedErc20S data) (λ hexAddr,
        addr ← or_panic "invalid remapped ERC20 address in genesis" (NewEthAddress hexAddr);
        SetRemappedERC20 addr);
  _ ← for_each (gs_Erc20ToDenoms data) init_mapping;
  _ ← for_each (gs_CosmosBridgeableTokens data) init_token;
  _ ← must "CosmosBridgeableTokens post-genesis consistency check failed"
        assertCosmosBridgeableTokensConsistent;
  _ ← check_reward;
  for_each (gs_PendingIbcAutoForwards data) (λ forward,
    must "unable to restore pending ibc auto forward"
      (addPendingIbcAutoForward forward (Denom (pf_Token forward)))).
End GenesisImport.

(** ** Export *)

Section GenesisExport.
Context {W : Type} `{Geth} `{Sdk} `{Hashing} `{Codec} `{EthAbi} `{Staking W} `{Bank W}.

(** [append] of what [f] finds for each element. *)
Definition collect {A B} (l : list A) (f : A → K W (list B)) : K W (list B) :=
  for_acc l [] (λ x out, more ← f x; mret (out ++ more, false)).

Definition export_nonces : K W GravityNonces :=
  latestValsetNonce ← GetLatestValsetNonce;
  lastObservedNonce ← GetLastObservedEventNonce;
  lastSlashedValsetNonce ← GetLastSlashedValsetNonce;
  lastSlashedBatchBlock ← GetLastSlashedBatchBlock;
  lastSlashedLogicCallBlock ← GetLastSlashedLogicCallBlock;
  lastTxPoolId ← getID KeyLastTXPoolID;
  lastBatchId ← getID KeyLastOutgoingBatchID;
  mret (mkGravityNonces latestValsetNonce lastObservedNonce lastSlashedValsetNonce
          lastSlashedBatchBlock lastSlashedLogicCallBlock lastTxPoolId lastBatchId).

Definition ExportGenesis : K W GenesisState :=
  p ← must "failed to get params" GetParams;
  calls ← GetOutgoingLogicCalls;
  batches ← GetOutgoingTxBatches;
  valsets ← GetValsets;
  attestationMapping ← GetAttestationMapping;
  let '(attmap, attKeys) := attestationMapping in
  delegates ← GetDelegateKeys;
  unbatchedTransfers ← GetUnbatchedTransactions;
  forwards ← PendingIbcAutoForwards_list 0;
  vsconfs ← collect valsets (λ vs, GetValsetConfirms (vs_Nonce vs));
  batchconfs ← collect batches (λ batch,
    GetBatchConfirmByNonceAndTokenContract (ib_BatchNonce batch) (ib_TokenContract batch));
  callconfs ← collect calls (λ call,
    GetLogicConfirmsByInvalidationIdAndNonce (lc_InvalidationId call) (lc_InvalidationNonce call));
  let attestations := attKeys ≫= λ key, default [] (attmap !! key) in
  erc20ToDenoms ← IterateCosmosOriginatedMappings [] (λ denom erc20 out,
    mret (out ++ [mkERC20ToDenom (Hex (GetAddress erc20)) denom], false));
  remappedERC20s ← IterateRemappedERC20s [] (λ addr out,
    mret (out ++ [Hex (GetAddress addr)], false));
  cosmosBridgeableTokens ← GetAllCosmosBridgeableTokens;
  nonces ← export_nonces;
  mret (mkGenesisState p nonces valsets vsconfs
          (InternalOutgoingTxBatch_ToExternal <$> batches) batchconfs calls callconfs attestations
          delegates erc20ToDenoms (InternalOutgoingTransferTx_ToExternal <$> unbatchedTransfers)
          forwards remappedERC20s cosmosBridgeableTokens).
End GenesisExport.
