(* ===== verification/Handler.v ===== *)
(** * The attestation handler (keeper/attestation_handler.go)

    What an observed event does: a deposit mints or releases coins and sends them
    to their receiver, a batch execution burns what was bridged, a deployment
    registers an ERC20 for a Cosmos denom, a validator set update is recorded. *)

From stdpp Require Import base gmap list strings.
From S2P Require Import Prelude GoStd External Store Ethereum Keys OutgoingTx Valset Claims Keeper DelegateKeys Attestation Registry ValsetKeeper IbcForward Pool Batch.

#[local] Open Scope Z_scope.

Section Handler.
Context {W : Type} `{Geth} `{Sdk} `{Bech32} `{Hashing} `{Bank W} `{Ibc W}.

Definition module_balance (denom : string) : K W Coin :=
  gets (λ s, mkCoin denom (GetBalance (st_world s) (GetModuleAddress ModuleName) denom)).

Definition Coin_eqb (a b : Coin) : bool := bool_decide (a = b).

(** ** Deposits *)

Definition assertNothingSent (preSendBalance : Coin) (denom : string) : K W unit :=
  postSendBalance ← module_balance denom;
  guard_panic (negb (Coin_eqb preSendBalance postSendBalance))
    "SendToCosmos somehow sent tokens in an error case!".

Definition assertSentAmount (preSendBalance : Coin) (denom : string) (amount : Z) : K W unit :=
  postSendBalance ← module_balance denom;
  diff ← opt_panic "Coin.Sub" (Coin_Sub preSendBalance postSendBalance);
  guard_panic (negb (Amount diff =? amount)) "SendToCosmos somehow sent incorrect amount!".

Definition mintEthereumOriginatedVouchers (claim : MsgSendToCosmosClaim) (coin : Coin) : K W unit :=
  preMintBalance ← module_balance (Denom coin);
  prevSupply ← gets (λ s, GetSupply (st_world s) (Denom coin));
  let newSupply := prevSupply + sc_Amount claim in
  _ ← guard_err (256 <? BitLen newSupply) ErrIntOverflowAttestation;
  coins ← opt_panic "NewCoins" (NewCoins1 coin);
  minted ← try (call (MintCoins ModuleName coins));
  match minted with
  | Er e =>
      _ ← of_res (SendToCosmos_ClaimHash claim);
      fail e
  | Ok _ =>
      postMintBalance ← module_balance (Denom coin);
      diff ← opt_panic "Coin.Sub" (Coin_Sub postMintBalance preMintBalance);
      guard_panic (negb (Amount diff =? sc_Amount claim)) "Somehow minted incorrect amount!"
  end.

Definition sendCoinToLocalAddress (claim : MsgSendToCosmosClaim) (receiver : bytes) (coin : Coin)
    : K W unit :=
  coins ← opt_panic "NewCoins" (NewCoins1 coin);
  sent ← try (call (SendCoinsFromModuleToAccount ModuleName receiver coins));
  match sent with
  | Er e =>
      _ ← of_res (SendToCosmos_ClaimHash claim);
      fail e
  | Ok _ =>
      emit (EventSendToCosmosLocal (sc_EventNonce claim) (AccAddressString receiver) (Denom coin)
              (Amount coin))
  end.

Definition addToIbcAutoForwardQueue (accountPrefix : string) (coin : Coin) (channel : string)
    (claim : MsgSendToCosmosClaim) : K W unit :=
  _ ← guard_panic (blank accountPrefix) "provided accountPrefix is empty!";
  acctPrefix ← or_panic "invalid or inaccurate accountPrefix"
                 (GetPrefixFromBech32 (sc_CosmosReceiver claim));
  _ ← guard_panic (bool_decide (acctPrefix ≠ accountPrefix)) "invalid or inaccurate accountPrefix";
  addPendingIbcAutoForward
    (mkPendingIbcAutoForward (sc_CosmosReceiver claim) coin channel (sc_EventNonce claim))
    (sc_TokenContract claim).

(** Returns whether an IBC forward was queued. *)
Definition sendCoinToCosmosAccount (claim : MsgSendToCosmosClaim) (receiver : bytes) (coin : Coin)
    : K W bool :=
  match GetPrefixFromBech32 (sc_CosmosReceiver claim) with
  | Er e =>
      _ ← of_res (SendToCosmos_ClaimHash claim);
      fail e
  | Ok accountPrefix =>
      native ← gets (λ s, GetNativeHrp (st_world s));
      nativePrefix ← or_panic "SendToCosmos failure: bech32ibc NativeHrp has not been set!" native;
      if decide (accountPrefix = nativePrefix) then
        _ ← sendCoinToLocalAddress claim receiver coin;
        mret false
      else
        hrpIbcRecord ← gets (λ s, GetHrpIbcRecord (st_world s) accountPrefix);
        match hrpIbcRecord with
        | Er _ =>
            _ ← of_res (SendToCosmos_ClaimHash claim);
            _ ← sendCoinToLocalAddress claim receiver coin;
            mret false
        | Ok sourceChannel =>
            queued ← try (addToIbcAutoForwardQueue accountPrefix coin sourceChannel claim);
            match queued with
            | Er _ =>
                _ ← sendCoinToLocalAddress claim receiver coin;
                mret false
            | Ok _ => mret true
            end
        end
  end.

(** Sends the coin to the receiver; the result says whether it has to go to the
    community pool instead. *)
Definition deliver_deposit (claim : MsgSendToCosmosClaim) (receiver : bytes) (coin : Coin) : K W bool :=
  preSendBalance ← module_balance (Denom coin);
  sent ← try (sendCoinToCosmosAccount claim receiver coin);
  _ ← match sent with
      | Er _ | Ok true => assertNothingSent preSendBalance (Denom coin)
      | Ok false => assertSentAmount preSendBalance (Denom coin) (sc_Amount claim)
      end;
  mret (negb (is_ok sent)).

(** The token a deposit is in, on this chain. *)
Definition deposit_origin (tokenAddress : EthAddress) : K W AssetOrigin :=
  tokenOrigin ← ClassifyERC20 tokenAddress;
  _ ← of_res (ValidateStrictDenom (ao_Denom tokenOrigin));
  _ ← (if decide (ao_Origin tokenOrigin = AssetOriginCosmos) then
         _ ← assertMetadataWhitelisted (ao_Denom tokenOrigin); mret tt
       else mret tt);
  mret tokenOrigin.

Definition handleSendToCosmos (claim : MsgSendToCosmosClaim) : K W unit :=
  let receiverAddress := IBCAddressFromBech32 (sc_CosmosReceiver claim) in
  _ ← (if is_ok receiverAddress then mret tt else
       _ ← of_res (SendToCosmos_ClaimHash claim); mret tt);
  match NewEthAddress (sc_TokenContract claim), NewEthAddress (sc_EthereumSender claim) with
  | Er e, _ =>
      _ ← of_res (SendToCosmos_ClaimHash claim);
      fail e
  | Ok _, Er _ =>
      (* [errorsmod.Wrap(errTokenAddress, ...)] wraps the other error, which is nil *)
      _ ← of_res (SendToCosmos_ClaimHash claim);
      mret tt
  | Ok tokenAddress, Ok ethereumSender =>
      black ← IsOnBlacklist ethereumSender;
      _ ← (if (black : bool) then _ ← of_res (SendToCosmos_ClaimHash claim); mret tt else mret tt);
      tokenOrigin ← deposit_origin tokenAddress;
      coin ← opt_panic "NewCoin" (NewCoin (ao_Denom tokenOrigin) (sc_Amount claim));
      _ ← (if decide (ao_Origin tokenOrigin = AssetOriginEthereum)
           then mintEthereumOriginatedVouchers claim coin else mret tt);
      invalidAddress ← match receiverAddress with
                       | Ok receiver => if (black : bool) then mret true
                                        else deliver_deposit claim receiver coin
                       | Er _ => mret true
                       end;
      if (invalidAddress : bool) then
        pooled ← try (SendToCommunityPool [coin]);
        match pooled with
        | Er e => _ ← of_res (SendToCosmos_ClaimHash claim); fail e
        | Ok _ =>
            emit (EventInvalidSendToCosmosReceiver (sc_Amount claim) (sc_EventNonce claim)
                    (Hex (GetAddress tokenAddress)) (sc_EthereumSender claim))
        end
      else
        emit (EventSendToCosmos (sc_Amount claim) (sc_EventNonce claim)
                (Hex (GetAddress tokenAddress)))
  end.

(** ** Executed batches *)

Definition handleBatchSendToEth (claim : MsgBatchSendToEthClaim) : K W unit :=
  contract ← of_res (NewEthAddress (bc_TokenContract claim));
  _ ← deposit_origin contract;
  _ ← OutgoingTxBatchExecuted contract claim;
  emit (EventBatchSendToEthClaim (bc_BatchNonce claim)).

(** ** Deployed ERC20s *)

(** The exponent of the first denom unit named like the display denom, or 0. *)
Definition display_decimals (metadata : Metadata) : Z :=
  match filter (λ u, du_Denom u = md_Display metadata) (md_DenomUnits metadata) with
  | u :: _ => du_Exponent u
  | [] => 0
  end.

Definition uint32 (x : Z) : Z := x mod 4294967296.

Definition handleErc20Deployed (claim : MsgERC20DeployedClaim) : K W unit :=
  _ ← of_res (ValidateStrictDenom (ed_CosmosDenom claim));
  tokenAddress ← of_res (NewEthAddress (ed_TokenContract claim));
  _ ← validateCosmosOriginatedMapping (ed_CosmosDenom claim) tokenAddress;
  existingERC20 ← getCosmosOriginatedERC20ForDenom (ed_CosmosDenom claim);
  _ ← guard_err (bool_decide (is_Some existingERC20)) ErrInvalid;
  existingDenom ← getCosmosOriginatedDenomForERC20 tokenAddress;
  _ ← guard_err (bool_decide (is_Some existingDenom)) ErrInvalid;
  metadata ← assertMetadataWhitelisted (ed_CosmosDenom claim);
  _ ← guard_err (bool_decide (ed_Name claim ≠ md_Name metadata)) ErrInvalid;
  _ ← guard_err (bool_decide (ed_Symbol claim ≠ md_Symbol metadata)) ErrInvalid;
  _ ← guard_err (negb (display_decimals metadata =? uint32 (ed_Decimals claim))) ErrInvalid;
  _ ← setCosmosOriginatedMapping (ed_CosmosDenom claim) tokenAddress;
  emit (EventERC20DeployedClaim (Hex (GetAddress tokenAddress)) (ed_EventNonce claim)).

(** ** Updated validator sets *)

Definition handleValsetUpdated (claim : MsgValsetUpdatedClaim) : K W unit :=
  rewardAddress ← of_res (NewEthAddress (vu_RewardToken claim));
  let claimSet := mkValset (vu_ValsetNonce claim) (vu_Members claim) 0 (Some (vu_RewardAmount claim))
                    (vu_RewardToken claim) in
  _ ← (if negb (vu_ValsetNonce claim =? 0) then
         trusted ← GetValset (vu_ValsetNonce claim);
         match trusted with
         | None => fail ErrInvalidValset
         | Some trustedValset =>
             let observedValset := mkValset (vs_Nonce claimSet) (vs_Members claimSet)
                                     (vs_Height trustedValset) (vs_RewardAmount claimSet)
                                     (vs_RewardToken claimSet) in
             same ← opt_panic "nil Int" (Valset_Equal trustedValset observedValset);
             _ ← or_panic "Potential bridge highjacking: observed valset does not match stored valset!"
                   same;
             SetLastObservedValset observedValset
         end
       else SetLastObservedValset claimSet);
  _ ← (if (0 <? vu_RewardAmount claim) && bool_decide (vu_RewardToken claim ≠ ZeroAddressString) then
         rewardOrigin ← ClassifyERC20 rewardAddress;
         _ ← of_res (ValidateStrictDenom (ao_Denom rewardOrigin));
         if decide (ao_Origin rewardOrigin = AssetOriginCosmos) then
           coin ← opt_panic "NewCoin" (NewCoin (ao_Denom rewardOrigin) (vu_RewardAmount claim));
           minted ← try (call (MintCoins ModuleName [coin]));
           match minted with
           | Er e => _ ← emit (EventValsetUpdatedClaim (vu_EventNonce claim)); fail e
           | Ok _ => mret tt
           end
         else panic "Can not use Ethereum originated token as reward!"
       else mret tt);
  emit (EventValsetUpdatedClaim (vu_EventNonce claim)).

(** ** The entry point *)

Definition handle (att : Attestation) (claim : EthereumClaim) : K W unit :=
  _ ← of_res (ValidateClaimFieldLengths claim);
  match claim with
  | SendToCosmosClaim claim => handleSendToCosmos claim
  | BatchSendToEthClaim claim => handleBatchSendToEth claim
  | ERC20DeployedClaim claim => handleErc20Deployed claim
  | ValsetUpdatedClaim claim => handleValsetUpdated claim
  | LogicCallExecutedClaim _ => panic "Invalid event type for attestations"
  end.

#[export] Instance handler : AttestationHandler W := {| Handle := handle |}.
End Handler.
