(* ===== verification/Invariants.v ===== *)
(** * The invariants the chain checks of itself (keeper/invariants.go)

    The checks a running node performs on the whole store: the balance of the
    module account, the validity of every stored object, the hashes of the
    attestations and the list of bridgeable tokens.  A check fails with an error
    when the invariant is broken. *)

From stdpp Require Import base gmap list strings sorting.
From S2P Require Import Prelude GoStd External Store Ethereum Keys OutgoingTx Valset Claims Keeper Params DelegateKeys Evidence Msgs Attestation Registry ValsetKeeper IbcForward LogicCall Pool Batch EndBlock Handler Governance Genesis.

#[local] Open Scope Z_scope.

(** The text of a broken invariant. *)
Definition broken : gerror := ErrSdk "invariant broken".

(** ** Validation of stored objects *)

Section Objects.
Context `{Geth} `{Sdk} `{Hashing} `{Codec}.

Definition ERC20ToDenom_ValidateBasic (m : ERC20ToDenom) : res unit :=
  let trimDenom := TrimSpace (ed2_Denom m) in
  if bool_decide (trimDenom = "") || bool_decide (trimDenom ≠ ed2_Denom m) then Er ErrInvalid else
  let trimErc20 := TrimSpace (ed2_Erc20 m) in
  if bool_decide (trimErc20 = "") || bool_decide (trimErc20 ≠ ed2_Erc20 m) then Er ErrInvalid else
  match NewEthAddress (ed2_Erc20 m) with
  | Er _ => Er ErrInvalid
  | Ok addr =>
      if negb (is_ok (EthAddress_ValidateBasic addr)) then Er ErrInvalid else
      if negb (ValidateDenom (ed2_Denom m)) then Er ErrInvalid else
      if negb (is_ok (ValidateStrictDenom (ed2_Denom m))) then Er ErrInvalid else Ok tt
  end.

(** [None] is the panic on a nil reward. *)
Definition Valset_ValidateBasic (v : Valset) : option (res unit) :=
  if decide (vs_Members v = []) then Some (Er ErrInvalidValset) else
  match res_map NewInternalBridgeValidator (vs_Members v) with
  | Er e => Some (Er e)
  | Ok _ =>
      rewardAmount ← vs_RewardAmount v;
      if rewardAmount <? 0 then Some (Er ErrInvalidValset) else
      let cleanToken := TrimSpace (vs_RewardToken v) in
      if (0 <? rewardAmount) && bool_decide (cleanToken = "") then Some (Er ErrInvalidValset) else
      if decide (cleanToken ≠ vs_RewardToken v) then Some (Er ErrInvalidValset) else Some (Ok tt)
  end.

Definition ClaimValidateBasic (claim : Any) : res unit :=
  match UnpackClaim claim with
  | Er _ => Er ErrInvalidClaim
  | Ok ethClaim => if is_ok (Claim_ValidateBasic ethClaim) then Ok tt else Er ErrInvalidClaim
  end.

Definition Attestation_ValidateBasic (m : Attestation) : res unit :=
  if at_Observed m && bool_decide (at_Votes m = []) then Er ErrInvalidAttestation else
  if negb (is_ok (res_map ValAddressFromBech32 (at_Votes m))) then Er ErrInvalidAttestation else
  if is_ok (ClaimValidateBasic (at_Claim m)) then Ok tt else Er ErrInvalidAttestation.

Definition VerifyClaimHash (m : Attestation) : res unit :=
  match at_ClaimComponents m with
  | None => Er ErrInvalidAttestation
  | Some components =>
      ethClaim ← UnpackClaim (at_Claim m);
      hashFromClaim ← ClaimHash ethClaim;
      hashFromComponents ← ComputeClaimHash (at_ClaimType m) components;
      if decide (hashFromClaim = hashFromComponents) then Ok tt else Er ErrInvalidAttestation
  end.
End Objects.

(** ** The balance of the module account *)

Section Balances.
Context {W : Type} `{Geth} `{Sdk} `{Bank W} `{BankBalances W} `{Bech32} `{Ibc W}.

(** [*bals[denom] = bals[denom].Add(amount)], starting from zero *)
Definition add_expected (denom : string) (amount : Z) (bals : gmap string Z) : K W (gmap string Z) :=
  total ← opt_panic "Int.Add" (Int_Add (default 0 (bals !! denom)) amount);
  mret (<[denom := total]> bals).

Definition tx_amount (tx : InternalOutgoingTransferTx) : option Z :=
  Int_Add (it_Amount (tx_Erc20Token tx)) (it_Amount (tx_Erc20Fee tx)).

Definition sumUnconfirmedBatchModuleBalances (expectedBals : gmap string Z) : K W (gmap string Z) :=
  IterateOutgoingTxBatches expectedBals (λ batch expectedBals,
    batchTotal ← opt_panic "Int.Add"
      (foldl (λ acc tx, total ← acc; amount ← tx_amount tx; Int_Add total amount) (Some 0)
         (ib_Transactions batch));
    batchOrigin ← must "failed to classify ERC20 token" (ClassifyERC20 (ib_TokenContract batch));
    expectedBals ← add_expected (ao_Denom batchOrigin) batchTotal expectedBals;
    mret (expectedBals, false)).

Definition sumUnbatchedTxModuleBalances (expectedBals : gmap string Z) : K W (gmap string Z) :=
  IterateUnbatchedTransactions expectedBals (λ _ tx expectedBals,
    txOrigin ← must "failed to classify ERC20 token" (ClassifyERC20 (it_Contract (tx_Erc20Token tx)));
    txTotal ← opt_panic "Int.Add" (tx_amount tx);
    expectedBals ← add_expected (ao_Denom txOrigin) txTotal expectedBals;
    mret (expectedBals, false)).

(** The first forward of a denom that has no entry yet only creates the entry. *)
Definition sumPendingIbcAutoForwards (expectedBals : gmap string Z) : K W (gmap string Z) :=
  forwards ← PendingIbcAutoForwards_list 0;
  for_acc forwards expectedBals (λ forward expectedBals,
    let denom := Denom (pf_Token forward) in
    match expectedBals !! denom with
    | None => mret (<[denom := 0]> expectedBals, false)
    | Some _ =>
        expectedBals ← add_expected denom (Amount (pf_Token forward)) expectedBals;
        mret (expectedBals, false)
    end).

Definition expected_balances (actualBals : list Coin) : K W (gmap string Z) :=
  let expectedBals := foldl (λ m c, <[Denom c := 0]> m) ∅ actualBals in
  expectedBals ← sumUnconfirmedBatchModuleBalances expectedBals;
  expectedBals ← sumUnbatchedTxModuleBalances expectedBals;
  sumPendingIbcAutoForwards expectedBals.

(** One balance against what is expected of it: only tokens from Ethereum are
    compared. *)
Definition check_balance (expectedBals : gmap string Z) (actual : Coin) : K W unit :=
  classified ← try (ClassifyDenom (Denom actual));
  match classified with
  | Er _ => fail broken
  | Ok origin =>
      match expectedBals !! Denom actual with
      | None => fail broken
      | Some expected =>
          if decide (ao_Origin origin = AssetOriginCosmos) then mret tt
          else guard_err (negb (Amount actual =? expected)) broken
      end
  end.

Definition ModuleBalanceInvariant : K W unit :=
  actualBals ← gets (λ s, GetAllBalances (st_world s) (GetModuleAddress ModuleName));
  expectedBals ← expected_balances actualBals;
  for_each actualBals (check_balance expectedBals).
End Balances.

(** ** The registry of assets *)

Section CrossLists.
Context {W : Type} `{Geth} `{Sdk} `{Bank W}.

(** The loop variables: the denoms and the addresses seen, and whether a violation
    was found. *)
Definition check_mapping (denom : string) (erc20 : EthAddress)
    (acc : gset string * gset string * bool) : K W (gset string * gset string * bool * bool) :=
  let '(seenDenoms, seenERC20s, errs) := acc in
  let hexAddr := Hex (GetAddress erc20) in
  let dup := bool_decide (denom ∈ seenDenoms) || bool_decide (hexAddr ∈ seenERC20s) in
  valid ← try (validateCosmosOriginatedMapping denom erc20);
  reverse ← getCosmosOriginatedDenomForERC20 erc20;
  let consistent := bool_decide (reverse = Some denom) in
  mret (({[ denom ]} ∪ seenDenoms, {[ hexAddr ]} ∪ seenERC20s,
         errs || dup || negb (is_ok valid) || negb consistent), false).

Definition check_reverse (_ : bytes) (erc20Hex denom : string) (errs : bool) : K W (bool * bool) :=
  match NewEthAddress erc20Hex with
  | Er _ => mret (true, false)
  | Ok ethAddr =>
      forward ← getCosmosOriginatedERC20ForDenom denom;
      match forward with
      | None => mret (true, false)
      | Some forwardErc20 =>
          mret (errs || negb (bool_decide (GetAddress forwardErc20 = GetAddress ethAddr)), false)
      end
  end.

Definition ValidateCrossListIntegrity : K W unit :=
  r ← IterateCosmosOriginatedMappings (∅, ∅, false) check_mapping;
  errs ← IterateERC20ToDenom r.2 check_reverse;
  guard_err errs broken.
End CrossLists.

(** ** Stored objects *)

Section StoreValidity.
Context {W : Type} `{Geth} `{Sdk} `{Bech32} `{Hashing} `{Codec} `{EthAbi} `{Staking W} `{Bank W} `{Ibc W}.

(** A callback that validates and goes on: the first error ends the iteration and
    is what the caller returns. *)
Definition checked (r : res unit) : K W (unit * bool) := _ ← of_res r; mret (tt, false).

Definition valid_operator (addr : bytes) : K W (unit * bool) :=
  let bech := ValAddressString addr in
  _ ← guard_err ((slen bech =? 0) || negb (HasPrefix bech GetBech32ValidatorAddrPrefix)) broken;
  mret (tt, false).

(** Validates the sets and returns the highest nonce. *)
Definition check_valset_objects : K W Z :=
  IterateValsets 0 (λ valset latest,
    valid ← opt_panic "nil Int" (Valset_ValidateBasic valset);
    _ ← of_res valid;
    mret (if latest <? vs_Nonce valset then vs_Nonce valset else latest, false)).

Definition check_valset_confirms : K W unit :=
  IterateValsetConfirms tt (λ _ confirms nonce _,
    _ ← for_each confirms (λ confirm,
          _ ← of_res (MsgValsetConfirm_ValidateBasic confirm);
          guard_panic (negb (vc_Nonce confirm =? nonce)) "Unexpected msg Nonce in IterateValsetConfirms");
    mret (tt, false)).

(** Validates the attestations and returns the highest Ethereum height of an
    observed one. *)
Definition check_attestations (lastObservedEventNonce : Z) : K W Z :=
  IterateAttestations false 0 (λ _ att height,
    _ ← of_res (Attestation_ValidateBasic att);
    claim ← of_res (UnpackAttestationClaim att);
    if at_Observed att then
      _ ← guard_err (lastObservedEventNonce <? GetEventNonce claim) broken;
      mret (if height <? GetEthBlockHeight claim then GetEthBlockHeight claim else height, false)
    else mret (height, false)).

Definition ValidateStore : K W unit :=
  _ ← IterateEthAddressesByValidator tt (λ _ addr _, checked (EthAddress_ValidateBasic addr));
  _ ← IterateValidatorsByEthAddress tt (λ _ addr _, valid_operator addr);
  actualLatestValsetNonce ← check_valset_objects;
  _ ← check_valset_confirms;
  lastObservedEventNonce ← GetLastObservedEventNonce;
  lastObservedEthereumClaimHeight ← check_attestations lastObservedEventNonce;
  _ ← IterateUnbatchedTransactions tt (λ _ tx _,
        checked (InternalOutgoingTransferTx_ValidateBasic tx));
  _ ← IterateOutgoingTxBatches tt (λ batch _, checked (InternalOutgoingTxBatch_ValidateBasic batch));
  _ ← IterateBatchConfirms tt (λ _ confirm _, checked (MsgConfirmBatch_ValidateBasic confirm));
  _ ← IterateValidatorLastEventNonces tt (λ _ _ _, mret (tt, false));
  _ ← getID KeyLastTXPoolID;
  _ ← getID KeyLastOutgoingBatchID;
  _ ← IterateValidatorsByOrchestratorAddress tt (λ _ addr _, valid_operator addr);
  _ ← IterateOutgoingLogicCalls tt (λ _ logicCall _, checked (OutgoingLogicCall_ValidateBasic logicCall));
  _ ← IterateLogicConfirms tt (λ _ confirm _, checked (MsgConfirmLogicCall_ValidateBasic confirm));
  lastEthHeight ← GetLastObservedEthereumBlockHeight;
  _ ← guard_err (EthereumBlockHeight lastEthHeight <? lastObservedEthereumClaimHeight) broken;
  _ ← IterateCosmosOriginatedMappings tt (λ denom erc20 _,
        checked (ERC20ToDenom_ValidateBasic (mkERC20ToDenom (Hex (GetAddress erc20)) denom)));
  _ ← ValidateCrossListIntegrity;
  _ ← GetLastSlashedValsetNonce;
  latestValsetNonce ← GetLatestValsetNonce;
  _ ← guard_err (negb (latestValsetNonce =? actualLatestValsetNonce)) broken;
  _ ← GetLastSlashedBatchBlock;
  _ ← GetLastSlashedLogicCallBlock;
  _ ← GetLastUnBondingBlockHeight;
  observed ← GetLastObservedValset;
  _ ← match observed with
      | None => mret tt
      | Some valset =>
          valid ← opt_panic "nil Int" (Valset_ValidateBasic valset);
          of_res valid
      end;
  _ ← IteratePastEthSignatureCheckpoints tt (λ _ _ _, mret (tt, false));
  _ ← IteratePendingIbcAutoForwards tt (λ _ forward _,
        checked (PendingIbcAutoForward_ValidateBasic forward));
  params ← GetParams;
  of_res (Params_ValidateBasic params).

(** ** Batches *)

(** The block of creation does not go down as the nonce goes up. *)
Fixpoint created_in_order (batches : list InternalOutgoingTxBatch) : bool :=
  match batches with
  | lastBatch :: (batch :: _) as rest =>
      negb (ib_CosmosBlockCreated batch <? ib_CosmosBlockCreated lastBatch) &&
      created_in_order rest
  | _ => true
  end.

Definition CheckBatches (batchTypeUrl : string) : K W unit :=
  inProgressBatches ← GetOutgoingTxBatchesByNonce;
  if decide (inProgressBatches = ∅) then mret tt else
  let sortedNonces := merge_sort Z.le (map_to_list inProgressBatches).*1 in
  _ ← guard_err (negb (created_in_order (omap (inProgressBatches !!.) sortedNonces))) broken;
  IterateClaims true batchTypeUrl tt (λ _ att claim _,
    match claim with
    | BatchSendToEthClaim batchClaim =>
        _ ← guard_err (at_Observed att &&
              existsb (λ val, (ib_BatchNonce val <=? bc_BatchNonce batchClaim) &&
                              bool_decide (bc_TokenContract batchClaim =
                                           Hex (GetAddress (ib_TokenContract val))))
                (map_to_list inProgressBatches).*2) broken;
        mret (tt, false)
    | _ => panic "interface conversion"
    end).

(** ** Validator sets *)

(** [PowerDiff > 0.0001]: the quotient of an integer by 2^32 - 1 is not close
    enough to 0.0001 for the rounding of [float64] to matter. *)
Definition tiny_diff (b c : list InternalBridgeValidator) : bool :=
  MaxUint32 <? 10000 * PowerDelta b c.

Definition check_valset_claim (claimVs : MsgValsetUpdatedClaim) : K W (unit * bool) :=
  stored ← GetValset (vu_ValsetNonce claimVs);
  match stored with
  | None =>
      shouldNotExist ← GetValset (u64 (vu_ValsetNonce claimVs - 1));
      _ ← guard_err (bool_decide (is_Some shouldNotExist)) broken;
      mret (tt, true)
  | Some storedVs =>
      currIntBvs ← of_res (BridgeValidators_ToInternal (vs_Members storedVs));
      claimIntBvs ← of_res (BridgeValidators_ToInternal (vu_Members claimVs));
      _ ← guard_err (tiny_diff currIntBvs claimIntBvs) broken;
      mret (tt, false)
  end.

Definition CheckValsets (valsetTypeUrl : string) : K W unit :=
  valsets ← GetValsets;
  match valsets with
  | [] =>
      latestNonce ← GetLatestValsetNonce;
      guard_err (negb (latestNonce =? 0)) broken
  | first :: _ =>
      found ← GetLatestValset;
      latest ← opt_panic "nil pointer dereference" found;
      same ← opt_panic "nil Int" (Valset_Equal latest first);
      _ ← of_res same;
      current ← GetCurrentValset;
      _ ← of_res (BridgeValidators_ToInternal (vs_Members current));
      _ ← of_res (BridgeValidators_ToInternal (vs_Members latest));
      IterateClaims true valsetTypeUrl tt (λ _ att claim _,
        if negb (at_Observed att) then mret (tt, false) else
        match claim with
        | ValsetUpdatedClaim claimVs => check_valset_claim claimVs
        | _ => panic "interface conversion"
        end)
  end.
End StoreValidity.

(** ** Forwards *)

Class IbcDenoms (W : Type) := { DenomPathFromHash : W → string → res string }.

Section ForwardChecks.
Context {W : Type} `{Sdk} `{Bech32} `{Bank W} `{Ibc W} `{IbcDenoms W}.

Definition CheckPendingIbcAutoForwards : K W unit :=
  pendingForwards ← PendingIbcAutoForwards_list 0;
  for_each pendingForwards (λ fwd,
    r ← of_res (DecodeAndConvert (pf_ForeignReceiver fwd));
    _ ← guard_err (bool_decide (r.1 = GetBech32AccountAddrPrefix)) broken;
    _ ← guard_err (negb (0 <? Amount (pf_Token fwd))) broken;
    if HasPrefix (ToLower (Denom (pf_Token fwd))) "ibc/" then
      path ← gets (λ s, DenomPathFromHash (st_world s) (Denom (pf_Token fwd)));
      _ ← of_res path; mret tt
    else mret tt).
End ForwardChecks.

(** ** Attestations and tokens *)

Section OtherInvariants.
Context {W : Type} `{Geth} `{Sdk} `{Hashing} `{Codec} `{Bank W} `{BankMetadata W}.

Definition AttestationHashIntegrityInvariant : K W unit :=
  found ← IterateAttestations false false (λ _ att found,
    mret (found || negb (is_ok (VerifyClaimHash att)), false));
  guard_err found broken.

(** An entry of the list that is in order. *)
Definition token_entry_ok (seen : gset string) (metadata : Metadata) (bankMetadata : option Metadata) : bool :=
  is_ok (Metadata_Validate metadata) && is_ok (ValidateStrictDenom (md_Base metadata)) &&
  negb (ContainsEthAddress (md_Base metadata)) && negb (bool_decide (md_Base metadata ∈ seen)) &&
  bool_decide (bankMetadata = Some metadata).

(** A denom is remembered once the checks before the one for duplicates passed. *)
Definition CosmosBridgeableTokensInvariant : K W unit :=
  tokens ← GetAllCosmosBridgeableTokens;
  r ← for_acc tokens (∅ : gset string, false) (λ metadata acc,
        let '(seen, found) := acc in
        bankMetadata ← gets (λ s, GetDenomMetaData (st_world s) (md_Base metadata));
        mret ((if is_ok (Metadata_Validate metadata) && is_ok (ValidateStrictDenom (md_Base metadata)) &&
                  negb (ContainsEthAddress (md_Base metadata))
               then {[ md_Base metadata ]} ∪ seen else seen,
               found || negb (token_entry_ok seen metadata bankMetadata)), false));
  guard_err r.2 broken.
End OtherInvariants.

Section AllInvariants.
Context {W : Type} `{Geth} `{Sdk} `{Bech32} `{Hashing} `{Codec} `{EthAbi} `{Staking W} `{Bank W}
  `{BankMetadata W} `{BankBalances W} `{Ibc W} `{IbcDenoms W}.

(** [ClaimTypeToTypeUrl] of the two claim types: a slash and the name of the
    protobuf message. *)
Definition batch_type_url : string := "/gravity.v1.MsgBatchSendToEthClaim".
Definition valset_type_url : string := "/gravity.v1.MsgValsetUpdatedClaim".

Definition StoreValidityInvariant : K W unit :=
  _ ← ValidateStore;
  _ ← CheckBatches batch_type_url;
  _ ← CheckValsets valset_type_url;
  CheckPendingIbcAutoForwards.

Definition AllInvariants : K W unit :=
  _ ← StoreValidityInvariant;
  _ ← AttestationHashIntegrityInvariant;
  _ ← CosmosBridgeableTokensInvariant;
  ModuleBalanceInvariant.
End AllInvariants.
