(* ===== verification/HandlerFrames.v ===== *)
(** * What the attestation handler leaves alone

    The oracle's theorems assume of the handler only [HandlerFrame].  This file
    discharges it for the handler of keeper/attestation_handler.go. *)

From stdpp Require Import base gmap list strings sorting relations.
From S2P Require Import Prelude GoStd External Store Ethereum Keys OutgoingTx Valset Claims Keeper DelegateKeys Attestation OracleCorrect OracleObserve Registry ValsetKeeper IbcForward Pool Batch Handler.

#[local] Open Scope Z_scope.

(** The bank and the community pool do not touch the voting powers. *)
Section PowerFrames.
Context {W : Type} `{Staking W}.

Definition power_same (w w' : W) : Prop :=
  GetLastTotalPower w' = GetLastTotalPower w ∧
  ∀ v, GetLastValidatorPower w' v = GetLastValidatorPower w v.

Definition keeps_power (f : W → option gerror * W) : Prop := ∀ w, power_same w (f w).2.
End PowerFrames.

Class BankPowers (W : Type) `{Staking W} `{Bank W} `{Ibc W} := {
  send_mod_acc_power m a cs : keeps_power (SendCoinsFromModuleToAccount m a cs);
  send_mod_mod_power m n cs : keeps_power (SendCoinsFromModuleToModule m n cs);
  mint_power m cs : keeps_power (MintCoins m cs);
  burn_power m cs : keeps_power (BurnCoins m cs);
  fee_pool_power cs : keeps_power (AddToFeePool cs);
}.

Section Frames.
Context {W : Type} `{Geth} `{Sdk} `{Bech32} `{Hashing} `{Bank W} `{Ibc W} `{Staking W} `{!BankPowers W}.
Implicit Types s : State W.

Definition beside s s' : Prop := oracle_same s s' ∧ kv_params (st_kv s') = kv_params (st_kv s).

#[local] Instance beside_refl : Reflexive beside.
Proof. by split. Qed.
#[local] Instance beside_trans : Transitive beside.
Proof. intros s1 s2 s3 [? E1] [? E2]. split; [by etrans|congruence]. Qed.

(** A key of another kind. *)
Definition beside_key (k : bytes) : Prop :=
  k ≠ LastObservedEventNonceKey ∧ ∀ v, k ≠ vote_key v.

Lemma beside_raw f s k :
  beside_key k → (∀ m k', k' ≠ k → f m !! k' = m !! k') → beside s (upd_kv (upd_raw f) s).
Proof. intros [Ho Hv] Hf. repeat split; simpl; intros; by rewrite Hf. Qed.

Lemma frame_raw_set k v : beside_key k → frame beside (raw_set k v : K W _).
Proof.
  intros Hk. apply frame_modify. intros s. apply (beside_raw _ _ k); [done|].
  intros. by rewrite lookup_insert_ne.
Qed.

Lemma frame_call f : keeps_power f → frame beside (call f : K W _).
Proof.
  intros Hf s. unfold call. pose proof (Hf (st_world s)) as [? ?].
  by destruct (f (st_world s)) as [[e|] w].
Qed.

Lemma frame_emit e : frame beside (emit e : K W _).
Proof. by apply frame_modify. Qed.
Lemma frame_pool f : frame beside (modify (upd_kv (upd_pool f)) : K W _).
Proof. by apply frame_modify. Qed.
Lemma frame_batches f : frame beside (modify (upd_kv (upd_batches f)) : K W _).
Proof. by apply frame_modify. Qed.
Lemma frame_batchConfirms f : frame beside (modify (upd_kv (upd_batchConfirms f)) : K W _).
Proof. by apply frame_modify. Qed.
Lemma frame_forwards f : frame beside (modify (upd_kv (upd_forwards f)) : K W _).
Proof. by apply frame_modify. Qed.
Lemma frame_observedValset f : frame beside (modify (upd_kv (upd_observedValset f)) : K W _).
Proof. by apply frame_modify. Qed.

#[local] Hint Resolve frame_emit frame_pool frame_batches frame_batchConfirms frame_forwards
  frame_observedValset frame_call : frame.
#[local] Hint Extern 1 (keeps_power _) => first [apply send_mod_acc_power|apply send_mod_mod_power
  |apply mint_power|apply burn_power|apply fee_pool_power] : frame.

(** ** Batches *)

Lemma frame_addUnbatchedTX t : frame beside (addUnbatchedTX t : K W _).
Proof. unfold addUnbatchedTX. framed. Qed.
Lemma frame_DeleteBatch b : frame beside (DeleteBatch b : K W _).
Proof. unfold DeleteBatch. framed. Qed.
Lemma frame_DeleteBatchConfirms b : frame beside (DeleteBatchConfirms b : K W _).
Proof. unfold DeleteBatchConfirms, GetBatchConfirmByNonceAndTokenContract. framed. Qed.
#[local] Hint Resolve frame_addUnbatchedTX frame_DeleteBatch frame_DeleteBatchConfirms : frame.
Lemma frame_CancelOutgoingTXBatch a n : frame beside (CancelOutgoingTXBatch a n : K W _).
Proof. unfold CancelOutgoingTXBatch. framed. Qed.
#[local] Hint Resolve frame_CancelOutgoingTXBatch : frame.
Lemma frame_OutgoingTxBatchExecuted a c : frame beside (OutgoingTxBatchExecuted a c : K W _).
Proof. unfold OutgoingTxBatchExecuted, IterateOutgoingTxBatches. framed. Qed.
#[local] Hint Resolve frame_OutgoingTxBatchExecuted : frame.

(** ** Deposits *)

Lemma frame_SendToCommunityPool cs : frame beside (SendToCommunityPool cs : K W _).
Proof. unfold SendToCommunityPool. framed. Qed.
Lemma readonly_GetLastObservedEventNonce : readonly (GetLastObservedEventNonce : K W _).
Proof. unfold GetLastObservedEventNonce. readonly. Qed.
#[local] Hint Resolve frame_SendToCommunityPool : frame.
#[local] Hint Resolve readonly_GetLastObservedEventNonce : readonly.
Lemma readonly_ValidatePendingIbcAutoForward p : readonly (ValidatePendingIbcAutoForward p : K W _).
Proof. unfold ValidatePendingIbcAutoForward. readonly. Qed.
#[local] Hint Resolve readonly_ValidatePendingIbcAutoForward : readonly.
Lemma frame_addPendingIbcAutoForward p t : frame beside (addPendingIbcAutoForward p t : K W _).
Proof. unfold addPendingIbcAutoForward. framed. Qed.
Lemma readonly_module_balance d : readonly (module_balance d : K W _).
Proof. unfold module_balance. readonly. Qed.
#[local] Hint Resolve frame_addPendingIbcAutoForward : frame.
#[local] Hint Resolve readonly_module_balance : readonly.
Lemma frame_mintVouchers c d : frame beside (mintEthereumOriginatedVouchers c d : K W _).
Proof. unfold mintEthereumOriginatedVouchers. framed. Qed.
Lemma frame_sendCoinToLocalAddress c r d : frame beside (sendCoinToLocalAddress c r d : K W _).
Proof. unfold sendCoinToLocalAddress. framed. Qed.
#[local] Hint Resolve frame_mintVouchers frame_sendCoinToLocalAddress : frame.
Lemma frame_sendCoinToCosmosAccount c r d : frame beside (sendCoinToCosmosAccount c r d : K W _).
Proof. unfold sendCoinToCosmosAccount, addToIbcAutoForwardQueue. framed. Qed.
#[local] Hint Resolve frame_sendCoinToCosmosAccount : frame.
Lemma frame_deliver_deposit c r d : frame beside (deliver_deposit c r d : K W _).
Proof. unfold deliver_deposit, assertNothingSent, assertSentAmount. framed. Qed.
Lemma readonly_deposit_origin a : readonly (deposit_origin a : K W _).
Proof. unfold deposit_origin. readonly. Qed.
#[local] Hint Resolve frame_deliver_deposit : frame.
#[local] Hint Resolve readonly_deposit_origin : readonly.
Lemma frame_handleSendToCosmos c : frame beside (handleSendToCosmos c : K W _).
Proof. unfold handleSendToCosmos. framed. Qed.
Lemma frame_handleBatchSendToEth c : frame beside (handleBatchSendToEth c : K W _).
Proof. unfold handleBatchSendToEth. framed. Qed.

(** ** Deployments and validator sets *)

Lemma prefix_beside p x :
  p ∈ all_prefixes → p ≠ LastObservedEventNonceKey → p ≠ LastEventNonceByValidatorKey →
  beside_key (p ++ x).
Proof.
  intros Hp H1' H2'. split.
  - rewrite <- (app_nil_r LastObservedEventNonceKey).
    intros [E _]%prefix_separation; [done..|]. unfold all_prefixes. set_solver.
  - intros v [E _]%prefix_separation; [done..|]. unfold all_prefixes. set_solver.
Qed.

Lemma frame_setCosmosOriginatedMapping d a : frame beside (setCosmosOriginatedMapping d a : K W _).
Proof.
  unfold setCosmosOriginatedMapping. framed; apply frame_raw_set, prefix_beside;
    try done; unfold all_prefixes; set_solver.
Qed.
#[local] Hint Resolve frame_setCosmosOriginatedMapping frame_handleSendToCosmos
  frame_handleBatchSendToEth : frame.
Lemma frame_handleErc20Deployed c : frame beside (handleErc20Deployed c : K W _).
Proof. unfold handleErc20Deployed. framed. Qed.
Lemma frame_handleValsetUpdated c : frame beside (handleValsetUpdated c : K W _).
Proof. unfold handleValsetUpdated, GetValset, SetLastObservedValset. framed. Qed.
#[local] Hint Resolve frame_handleErc20Deployed frame_handleValsetUpdated : frame.

Lemma frame_handle att c : frame beside (handle att c : K W _).
Proof. unfold handle. framed. Qed.

(** The handler is one the oracle can rely on. *)
#[export] Instance handler_frame : HandlerFrame W.
Proof. split. intros att c s s'. apply (frame_inv beside). apply frame_handle. Qed.
End Frames.
