(* ===== verification/HandlerCorrect.v ===== *)
(** * Correctness of deposits

    What a completed deposit does to the coins: vouchers are minted for exactly the
    deposited amount, and whatever the deposit brings leaves the module's account
    again, for the receiver or the community pool, or waits there for its IBC
    forward. *)

From stdpp Require Import base gmap list strings sorting.
From S2P Require Import Prelude GoStd External Store Ethereum Keys OutgoingTx Valset Claims Keeper DelegateKeys Attestation Registry ValsetKeeper IbcForward Pool Batch Handler.

#[local] Open Scope Z_scope.

(** What deposits rely on beyond [BankLaws]: a send of at most one coin that fails
    has moved nothing, the bookkeeping of the community pool moves no coins, and
    the two module accounts are different. *)
Class DepositLaws (W : Type) `{Sdk} `{Bank W} `{Ibc W} := {
  send_fails m a cs e w w' :
    (length cs ≤ 1)%nat → SendCoinsFromModuleToAccount m a cs w = (Some e, w') →
    (∀ a' d, GetBalance w' a' d = GetBalance w a' d) ∧ (∀ d, GetSupply w' d = GetSupply w d);
  fee_pool_books cs w w' :
    AddToFeePool cs w = (None, w') →
    (∀ a d, GetBalance w' a d = GetBalance w a d) ∧ (∀ d, GetSupply w' d = GetSupply w d);
  distribution_apart : GetModuleAddress DistributionModule ≠ GetModuleAddress ModuleName;
}.

Section Deposits.
Context {W : Type} `{Geth} `{Sdk} `{Bech32} `{Hashing} `{Bank W} `{!BankLaws W} `{Ibc W} `{!DepositLaws W}.
Implicit Types s : State W.

Definition mod_balance s (d : string) : Z := GetBalance (st_world s) (GetModuleAddress ModuleName) d.
Definition supply s (d : string) : Z := GetSupply (st_world s) d.

(** What the waiting IBC forwards are worth. *)
Definition forwards s (d : string) : Z :=
  sumZ (λ kv, if decide (Denom (pf_Token kv.2) = d) then Amount (pf_Token kv.2) else 0)
    (map_to_list (kv_forwards (st_kv s))).

Definition but_forwards (k : KV) : KV := upd_forwards (λ _, ∅) k.

(** From [s] to [s'] the balances change by [db] and the supplies by [ds]; nothing of
    the module's store changes. *)
Record delta s s' (db : bytes → string → Z) (ds : string → Z) : Prop := {
  de_kv : st_kv s' = st_kv s;
  de_balance a d : GetBalance (st_world s') a d = GetBalance (st_world s) a d + db a d;
  de_supply d : supply s' d = supply s d + ds d }.

Definition none (d : string) : Z := 0.
(** [x] of denom [d0] *)
Definition only (d0 : string) (x : Z) (d : string) : Z := if decide (d0 = d) then x else 0.

(** The account [to] gains the coin [c]. *)
Definition gain (to : bytes) (c : Coin) (a : bytes) (d : string) : Z :=
  if decide (a = to) then only (Denom c) (Amount c) d else 0.
(** The module's account pays the coin [c] to the account [to]. *)
Definition pay (to : bytes) (c : Coin) (a : bytes) (d : string) : Z :=
  gain to c a d - gain (GetModuleAddress ModuleName) c a d.

Lemma delta_refl s : delta s s (λ _, none) none.
Proof. split; [done|unfold none; intros; lia..]. Qed.

Lemma delta_trans s1 s2 s3 b1 u1 b2 u2 :
  delta s1 s2 b1 u1 → delta s2 s3 b2 u2 → delta s1 s3 (λ a d, b1 a d + b2 a d) (λ d, u1 d + u2 d).
Proof.
  intros [K1 B1 U1] [K2 B2 U2]. split; [congruence|..].
  - intros a d. rewrite B2, B1. lia.
  - intros d. rewrite U2, U1. lia.
Qed.

Lemma delta_ext s s' b u b' u' :
  delta s s' b u → (∀ a d, b a d = b' a d) → (∀ d, u d = u' d) → delta s s' b' u'.
Proof. intros [] Hb Hu. split; intros; rewrite <- ?Hb, <- ?Hu; auto. Qed.

Lemma delta_emit e s s' b u : delta s s' b u → delta s (add_event e s') b u.
Proof. by intros []. Qed.

Lemma delta_world s w b u :
  (∀ a d, GetBalance w a d = GetBalance (st_world s) a d + b a d) →
  (∀ d, GetSupply w d = supply s d + u d) → delta s (upd_world (λ _, w) s) b u.
Proof. intros Hb Hu. by split. Qed.

Lemma amount_of_NewCoins1 c cs d : NewCoins1 c = Some cs → amount_of d cs = only (Denom c) (Amount c) d.
Proof.
  unfold NewCoins1, only. destruct (Z.eqb_spec (Amount c) 0) as [E|].
  - intros [= <-]. rewrite E. by case_decide.
  - destruct (Coin_IsValid c); [|done]. intros [= <-]. by rewrite amount_of_singleton.
Qed.

Lemma NewCoins1_length c cs : NewCoins1 c = Some cs → (length cs ≤ 1)%nat.
Proof. unfold NewCoins1. repeat case_match; intros; simplify_eq; simpl; lia. Qed.

Lemma try_call_inv f s r s' :
  try (call f) s = Ret r s' → ∃ o w, f (st_world s) = (o, w) ∧ s' = upd_world (λ _, w) s ∧
    r = match o with None => Ok tt | Some e => Er e end.
Proof.
  unfold try, call. destruct (f (st_world s)) as [[e|] w]; intros [= <- <-]; by repeat eexists.
Qed.

(** ** Minting *)

Lemma mint_delta claim coin s u s' :
  Amount coin = sc_Amount claim → mintEthereumOriginatedVouchers claim coin s = Ret u s' →
  delta s s' (gain (GetModuleAddress ModuleName) coin) (only (Denom coin) (Amount coin)) ∧
  supply s (Denom coin) + sc_Amount claim < 2 ^ 256.
Proof.
  intros Ham Hrun. unfold mintEthereumOriginatedVouchers in Hrun.
  mnext Hrun as pre s1 E1. apply gets_inv in E1 as [-> ->].
  mnext Hrun as prev s2 E2. apply gets_inv in E2 as [-> ->].
  mnext Hrun as u1 s3 E3. apply guard_err_inv in E3 as [Hbit ->]. zbool.
  mnext Hrun as cs s4 E4. apply opt_panic_inv in E4 as [Hcs ->].
  mnext Hrun as minted s5 E5. apply try_call_inv in E5 as (o & w & Hm & -> & ->).
  destruct o as [e|]. { mnext Hrun as h s6 E6. done. }
  apply mint_coins in Hm as (Hb & Hsup & _).
  mnext Hrun as post s6 E6. apply gets_inv in E6 as [-> ->].
  mnext Hrun as diff s7 E7. apply opt_panic_inv in E7 as [_ ->].
  apply guard_panic_inv in Hrun as [_ ->]. split.
  - apply delta_world.
    + intros a d. rewrite Hb, (amount_of_NewCoins1 _ _ _ Hcs). unfold gain. case_decide; lia.
    + intros d. rewrite Hsup, (amount_of_NewCoins1 _ _ _ Hcs). unfold supply. lia.
  - unfold supply, BitLen in *. destruct (Z.eqb_spec (GetSupply (st_world s) (Denom coin) + sc_Amount claim) 0) as [E|E].
    + rewrite E. lia.
    + apply Z.le_lt_trans with (Z.abs (GetSupply (st_world s) (Denom coin) + sc_Amount claim)); [lia|].
      apply Z.log2_lt_pow2; lia.
Qed.

(** ** The community pool *)

Lemma pool_delta coin s u s' :
  SendToCommunityPool [coin] s = Ret u s' →
  delta s s' (pay (GetModuleAddress DistributionModule) coin) none.
Proof.
  intros Hrun. unfold SendToCommunityPool in Hrun. mnext Hrun as u1 s1 E1.
  unfold call in E1, Hrun.
  destruct (SendCoinsFromModuleToModule _ _ _ _) as [[e|] w1] eqn:Es; [done|]. injection E1 as _ <-.
  destruct (AddToFeePool _ _) as [[e|] w2] eqn:Ef; [done|]. injection Hrun as _ <-.
  apply send_mod_mod in Es as (Hb & Hsup & _). apply fee_pool_books in Ef as [Hb2 Hsup2].
  cbn [st_world upd_world] in Hb2, Hsup2. apply (delta_world s w2).
  - intros a d. rewrite Hb2, Hb, amount_of_singleton. unfold pay, gain, only. repeat case_decide; lia.
  - intros d. rewrite Hsup2, Hsup. unfold supply, none. lia.
Qed.

(** ** Sending *)

(** The bank refuses to send the coin to the account. *)
Definition refused (w : W) (to : bytes) (coin : Coin) : Prop :=
  ∃ cs e w', NewCoins1 coin = Some cs ∧ SendCoinsFromModuleToAccount ModuleName to cs w = (Some e, w').

(** A local send: either it went out to the receiver, or nothing happened. *)
Lemma local_delta claim receiver coin s r s' :
  try (sendCoinToLocalAddress claim receiver coin) s = Ret r s' →
  match r with
  | Ok _ => delta s s' (pay receiver coin) none
  | Er _ => delta s s' (λ _, none) none ∧ refused (st_world s) receiver coin
  end.
Proof.
  intros Hrun. unfold try, sendCoinToLocalAddress in Hrun.
  destruct (NewCoins1 coin) as [cs|] eqn:Hcs; [|done]. unfold opt_panic in Hrun.
  rewrite (bind_ret _ _ s cs s) in Hrun by done.
  destruct (SendCoinsFromModuleToAccount ModuleName receiver cs (st_world s)) as [o w] eqn:Es.
  rewrite (bind_ret _ _ s (match o with None => Ok tt | Some e => Er e end) (upd_world (λ _, w) s)) in Hrun
    by (unfold try, call; rewrite Es; by destruct o).
  destruct o as [e|]; injection Hrun as <- <-.
  - split; [|by exists cs, e, w]. apply send_fails in Es as [Hb Hsup]; [|by eapply NewCoins1_length].
    apply delta_world; intros; rewrite ?Hb, ?Hsup; unfold supply, none; lia.
  - apply send_mod_acc in Es as (Hb & Hsup & _). apply delta_emit, delta_world.
    + intros a d. rewrite Hb, !(amount_of_NewCoins1 _ _ _ Hcs). unfold pay, gain. repeat case_decide; lia.
    + intros d. rewrite Hsup. unfold supply, none. lia.
Qed.

Lemma forwards_insert s k f d :
  kv_forwards (st_kv s) !! k = None →
  forwards (upd_kv (upd_forwards (insert k f)) s) d =
  forwards s d + only (Denom (pf_Token f)) (Amount (pf_Token f)) d.
Proof.
  intros Hk. unfold forwards, only. simpl. rewrite map_to_list_insert by done. simpl. lia.
Qed.

(** The forward of a deposit was put into the queue, and nothing else happened. *)
Definition queued claim coin s s' : Prop :=
  ∃ channel,
    let f := mkPendingIbcAutoForward (sc_CosmosReceiver claim) coin channel (sc_EventNonce claim) in
    let key := GetPendingIbcAutoForwardKey (sc_EventNonce claim) in
    kv_forwards (st_kv s) !! key = None ∧ st_kv s' = upd_forwards (insert key f) (st_kv s) ∧
    st_world s' = st_world s.

(** Queueing an IBC forward: either it is queued, or nothing happened. *)
Lemma queue_delta accountPrefix coin channel claim s r s' :
  try (addToIbcAutoForwardQueue accountPrefix coin channel claim) s = Ret r s' →
  (r = Ok tt ∧ queued claim coin s s') ∨ (is_ok r = false ∧ s' = s).
Proof.
  intros Hrun. unfold try, addToIbcAutoForwardQueue, addPendingIbcAutoForward in Hrun.
  revert Hrun. unfold guard_panic. destruct (blank accountPrefix); [done|].
  rewrite (bind_ret _ _ s tt s) by done.
  destruct (GetPrefixFromBech32 (sc_CosmosReceiver claim)) as [ap|]; [|done].
  rewrite (bind_ret _ _ s ap s) by done. destruct (bool_decide _); [done|].
  rewrite (bind_ret _ _ s tt s) by done.
  set (fw := mkPendingIbcAutoForward _ _ _ _). unfold mbind at 1, M_bind at 1.
  assert (readonly (ValidatePendingIbcAutoForward fw : K W _)) as Hro.
  { unfold ValidatePendingIbcAutoForward, GetLastObservedEventNonce. readonly. }
  specialize (Hro s). destruct (ValidatePendingIbcAutoForward fw s) as [[] s1|e s1|msg];
    [subst s1|subst s1; intros [= <- <-]; by right|done].
  cbv zeta. set (key := GetPendingIbcAutoForwardKey (pf_EventNonce fw)).
  rewrite (bind_ret _ _ s (bool_decide (is_Some (kv_forwards (st_kv s) !! key))) s) by done.
  destruct (kv_forwards (st_kv s) !! key) as [f0|] eqn:Ek.
  - rewrite bool_decide_true by done. intros [= <- <-]. by right.
  - rewrite bool_decide_false by (by intros []). intros [= <- <-]. left. split; [done|]. by exists channel.
Qed.

(** What sending to an account ends with. *)
Definition sent_to claim receiver coin (r : res bool) s s' : Prop :=
  match r with
  | Ok true => queued claim coin s s'
  | Ok false => delta s s' (pay receiver coin) none
  | Er _ => delta s s' (λ _, none) none ∧
      (is_ok (GetPrefixFromBech32 (sc_CosmosReceiver claim)) = false ∨ refused (st_world s) receiver coin)
  end.

(** A local send as the end of [sendCoinToCosmosAccount]. *)
Lemma local_end_delta claim receiver coin s r s' :
  try (_ ← sendCoinToLocalAddress claim receiver coin; mret false) s = Ret r s' →
  sent_to claim receiver coin r s s'.
Proof.
  intros Hrun. pose proof (local_delta claim receiver coin s) as Hloc.
  unfold try, mbind, M_bind in *.
  destruct (sendCoinToLocalAddress claim receiver coin s) as [[] s1|e s1|msg]; [..|done];
    injection Hrun as <- <-.
  - exact (Hloc (Ok tt) s1 eq_refl).
  - destruct (Hloc (Er e) s1 eq_refl) as [Hd Hr]. split; [done|by right].
Qed.

Lemma account_delta claim receiver coin s r s' :
  try (sendCoinToCosmosAccount claim receiver coin) s = Ret r s' → sent_to claim receiver coin r s s'.
Proof.
  unfold sendCoinToCosmosAccount.
  destruct (GetPrefixFromBech32 (sc_CosmosReceiver claim)) as [ap|e] eqn:Ep.
  2:{ intros [= <- <-]. split; [apply delta_refl|left; by rewrite Ep]. }
  unfold try at 1. rewrite (bind_ret _ _ s (GetNativeHrp (st_world s)) s) by done.
  destruct (GetNativeHrp (st_world s)) as [np|]; [|done].
  rewrite (bind_ret _ _ s np s) by done.
  case_decide; [apply local_end_delta|].
  rewrite (bind_ret _ _ s (GetHrpIbcRecord (st_world s) ap) s) by done.
  destruct (GetHrpIbcRecord (st_world s) ap) as [channel|].
  2:{ rewrite (bind_ret _ _ s (tmhash_Sum _) s) by done. apply local_end_delta. }
  pose proof (queue_delta ap coin channel claim s) as Hq.
  unfold mbind at 1, M_bind at 1.
  destruct (try (addToIbcAutoForwardQueue ap coin channel claim) s) as [q s1|e s1|msg] eqn:Eq; [| |done].
  2:{ exfalso. unfold try in Eq. by destruct (addToIbcAutoForwardQueue ap coin channel claim s). }
  destruct (Hq q s1 eq_refl) as [[-> Hd]|[Hno ->]].
  - intros [= <- <-]. done.
  - destruct q as [[]|e]; [done|]. apply local_end_delta.
Qed.

(** Delivering a deposit: the coin is queued, or has left the module's account for
    the receiver, or has stayed and is to go to the community pool. *)
Lemma deliver_delta claim receiver coin s invalid s' :
  Amount coin = sc_Amount claim → deliver_deposit claim receiver coin s = Ret invalid s' →
  (∃ r, invalid = negb (is_ok r) ∧ sent_to claim receiver coin r s s') ∧
  (GetModuleAddress ModuleName = receiver → st_kv s' = st_kv s → invalid = false → Amount coin = 0).
Proof.
  intros Ham Hrun. unfold deliver_deposit in Hrun.
  mnext Hrun as pre s1 E1. apply gets_inv in E1 as [-> ->].
  mnext Hrun as sent s2 E2. apply account_delta in E2.
  mnext Hrun as u s3 E3. apply mret_inv in Hrun as [-> ->].
  assert (s3 = s2) as ->.
  { eapply readonly_inv; [|exact E3]. unfold assertNothingSent, assertSentAmount, module_balance. readonly. }
  split; [by exists sent|]. intros Hmod Hkv Hinv. destruct sent as [[]|e]; [| |done].
  - destruct E2 as (channel & Hno & Ek & _). rewrite Ek in Hkv. exfalso.
    apply (f_equal (λ k, kv_forwards k !! GetPendingIbcAutoForwardKey (sc_EventNonce claim))) in Hkv.
    cbn in Hkv. by rewrite lookup_insert_eq, Hno in Hkv.
  - unfold assertSentAmount in E3. mnext E3 as post s4 E4. apply gets_inv in E4 as [-> ->].
    mnext E3 as diff s5 E5. apply opt_panic_inv in E5 as [Hsub ->].
    apply guard_panic_inv in E3 as [Hamt _]. apply negb_false_iff in Hamt. zbool.
    unfold Coin_Sub in Hsub. cbn [Denom Amount] in Hsub. rewrite decide_True in Hsub by done.
    destruct (_ <? _); [done|]. destruct (Int_Sub _ _) eqn:Ei; [|done]. apply int_check_inv in Ei as [-> _].
    injection Hsub as <-. cbn [Amount] in Hamt. rewrite (de_balance _ _ _ _ E2) in Hamt.
    unfold pay in Hamt. rewrite Hmod in Hamt. lia.
Qed.

Lemma deposit_origin_inv a s o s' : deposit_origin a s = Ret o s' → s' = s ∧ ClassifyERC20 a s = Ret o s.
Proof.
  intros Hrun. assert (s' = s) as ->.
  { eapply readonly_inv; [|exact Hrun]. unfold deposit_origin, assertMetadataWhitelisted, GetCosmosBridgeableToken. readonly. }
  split; [done|]. unfold deposit_origin in Hrun. mnext Hrun as o' s1 E1.
  assert (s1 = s) as -> by (eapply readonly_inv; [|exact E1]; readonly).
  mnext Hrun as u s2 E2. mnext Hrun as u1 s3 E3. by apply mret_inv in Hrun as [-> _].
Qed.

(** ** The whole deposit *)

Definition is_eth (o : AssetOrigin) : bool := bool_decide (ao_Origin o = AssetOriginEthereum).

Lemma NewCoin_inv d x c : NewCoin d x = Some c → c = mkCoin d x.
Proof. unfold NewCoin. case_match; naive_solver. Qed.

(** The second half of a deposit: delivery, or the community pool. *)
Definition finish_deposit (claim : MsgSendToCosmosClaim) (coin : Coin) (tokenAddress : EthAddress)
    (invalidAddress : bool) : K W unit :=
  if (invalidAddress : bool) then
    pooled ← try (SendToCommunityPool [coin]);
    match pooled with
    | Er e => _ ← of_res (SendToCosmos_ClaimHash claim); fail e
    | Ok _ =>
        emit (EventInvalidSendToCosmosReceiver (sc_Amount claim) (sc_EventNonce claim)
                (Hex (GetAddress tokenAddress)) (sc_EthereumSender claim))
    end
  else
    emit (EventSendToCosmos (sc_Amount claim) (sc_EventNonce claim) (Hex (GetAddress tokenAddress))).

Lemma finish_delta claim coin a invalid s u s' :
  finish_deposit claim coin a invalid s = Ret u s' →
  if invalid then delta s s' (pay (GetModuleAddress DistributionModule) coin) none
  else ∃ e, s' = add_event e s.
Proof.
  intros Hrun. unfold finish_deposit in Hrun. destruct invalid.
  - mnext Hrun as pooled s1 E1. apply try_inv in E1 as [(v & -> & E1)|(e & -> & E1)].
    + injection Hrun as _ <-. apply delta_emit. by eapply pool_delta.
    + by mnext Hrun as h s2 E2.
  - injection Hrun as _ <-. by eexists.
Qed.

(** What a deposit mints: vouchers for a token that comes from Ethereum. *)
Definition vouchers (o : AssetOrigin) (coin : Coin) (a : bytes) (d : string) : Z :=
  if is_eth o then gain (GetModuleAddress ModuleName) coin a d else 0.
Definition voucher_supply (o : AssetOrigin) (coin : Coin) (d : string) : Z :=
  if is_eth o then only (Denom coin) (Amount coin) d else 0.

(** Why a deposit goes to the community pool: its Ethereum sender is blacklisted, or
    its receiver is no address, or the bank refuses to pay the receiver. *)
Definition undeliverable claim (black : bool) (coin : Coin) (w : W) : Prop :=
  black = true ∨ is_ok (IBCAddressFromBech32 (sc_CosmosReceiver claim)) = false ∨
  is_ok (GetPrefixFromBech32 (sc_CosmosReceiver claim)) = false ∨
  ∃ r, IBCAddressFromBech32 (sc_CosmosReceiver claim) = Ok r ∧ refused w r coin.

(** Who gets the coin of a deposit: a forward to its receiver is queued, or it is
    paid to the receiver, or it is paid to the community pool. *)
Definition delivered claim (black : bool) (coin : Coin) s s' : Prop :=
  (∃ r, IBCAddressFromBech32 (sc_CosmosReceiver claim) = Ok r ∧ black = false ∧
     (queued claim coin s s' ∨ delta s s' (pay r coin) none)) ∨
  (delta s s' (pay (GetModuleAddress DistributionModule) coin) none ∧
   undeliverable claim black coin (st_world s)).

(** What the delivery takes out of the module's account, beyond the forwards. *)
Definition spent s s' (coin : Coin) : Prop :=
  ∀ d, mod_balance s' d - forwards s' d =
       mod_balance s d - forwards s d - only (Denom coin) (Amount coin) d.

Lemma delta_forwards s s' b u d : delta s s' b u → forwards s' d = forwards s d.
Proof. intros []. unfold forwards. congruence. Qed.

Lemma pay_spent s s' to coin :
  delta s s' (pay to coin) none → (GetModuleAddress ModuleName = to → Amount coin = 0) → spent s s' coin.
Proof.
  intros Hd Hto d. rewrite (delta_forwards _ _ _ _ _ Hd). unfold mod_balance. rewrite (de_balance _ _ _ _ Hd).
  unfold pay, gain, only. rewrite (decide_True (P := GetModuleAddress ModuleName = GetModuleAddress ModuleName)) by done.
  destruct (decide (GetModuleAddress ModuleName = to)) as [E|]; [apply Hto in E|]; case_decide; lia.
Qed.

Lemma queued_spent claim coin s s' : queued claim coin s s' → spent s s' coin.
Proof.
  intros (channel & Hno & Hk & Hw) d. unfold mod_balance. rewrite Hw.
  assert (forwards s' d = forwards s d + only (Denom coin) (Amount coin) d) as ->; [|lia].
  pose proof (forwards_insert s _ (mkPendingIbcAutoForward (sc_CosmosReceiver claim) coin channel
    (sc_EventNonce claim)) d Hno) as E. cbn [pf_Token] in E. rewrite <- E. unfold forwards. by rewrite Hk.
Qed.

Lemma delivered_supply claim black coin s s' d : delivered claim black coin s s' → supply s' d = supply s d.
Proof.
  assert (∀ b, delta s s' b none → supply s' d = supply s d) as Hn.
  { intros b Hd. rewrite (de_supply _ _ _ _ Hd). unfold none. lia. }
  intros [(r & _ & _ & [(c & _ & _ & Hw)|Hd])|[Hd _]]; [|exact (Hn _ Hd)..]. unfold supply. by rewrite Hw.
Qed.

(** Delivery and what follows it. *)
Lemma delivery_inv claim coin token black s6 s inv s' :
  Amount coin = sc_Amount claim →
  match IBCAddressFromBech32 (sc_CosmosReceiver claim) with
  | Ok receiver => if (black : bool) then mret true else deliver_deposit claim receiver coin
  | Er _ => mret true
  end s = Ret inv s6 →
  finish_deposit claim coin token inv s6 = Ret tt s' →
  delivered claim black coin s s' ∧ spent s s' coin.
Proof.
  intros Ham E6 Hrun. apply finish_delta in Hrun.
  assert (delta s s' (pay (GetModuleAddress DistributionModule) coin) none → spent s s' coin) as Hpool.
  { intros Hd. apply (pay_spent _ _ _ _ Hd). intros E. by destruct distribution_apart. }
  destruct (IBCAddressFromBech32 (sc_CosmosReceiver claim)) as [r|] eqn:Er; [destruct black|].
  - apply mret_inv in E6 as [-> ->]. split; [|by apply Hpool]. right. split; [done|by left].
  - destruct (deliver_delta _ _ _ _ _ _ Ham E6) as [([q|e] & -> & Hs) Hm]; cbn in Hrun.
    + destruct Hrun as [ev ->]. split.
      * left. exists r. split_and!; [done..|]. destruct q; [left|right; by apply delta_emit]. exact Hs.
      * destruct q; [by eapply (queued_spent claim)|]. eapply pay_spent; [by apply delta_emit|].
        intros E. apply Hm; [done|apply Hs|done].
    + destruct Hs as [Hd Hwhy].
      assert (delta s s' (pay (GetModuleAddress DistributionModule) coin) none) as Hd'.
      { eapply delta_ext; [eapply delta_trans; [exact Hd|exact Hrun]|..]; unfold none; intros; lia. }
      split; [|by apply Hpool]. right. split; [done|]. right. right. destruct Hwhy; [by left|right]. by exists r.
  - apply mret_inv in E6 as [-> ->]. split; [|by apply Hpool]. right. split; [done|].
    right. left. by rewrite Er.
Qed.

(** C35. A deposit whose handler completes, and whose Ethereum sender is an address,
    mints exactly the deposited amount when the token comes from Ethereum, with the
    supply staying below 2^256, and nothing when it comes from Cosmos.  That amount
    then goes to exactly one place: it is paid to the account the deposit names as
    its receiver; or, still in the module's account, it backs a newly queued IBC
    forward to that receiver with the deposit's nonce; or it is paid to the community
    pool, and this only when the sender is blacklisted, the receiver is no address, or
    the bank refuses to pay him.  No other balance, denom or supply changes, nothing
    of the module's store changes but the queue of forwards, and what the module holds
    beyond its forwards shrinks by exactly the deposit of a Cosmos token. *)
Theorem handleSendToCosmos_conserves claim token sender s s' :
  NewEthAddress (sc_TokenContract claim) = Ok token → NewEthAddress (sc_EthereumSender claim) = Ok sender →
  handleSendToCosmos claim s = Ret tt s' →
  ∃ o black s1, ClassifyERC20 token s = Ret o s ∧ IsOnBlacklist sender s = Ret black s ∧
    let coin := mkCoin (ao_Denom o) (sc_Amount claim) in
    delta s s1 (vouchers o coin) (voucher_supply o coin) ∧ delivered claim black coin s1 s' ∧
    (∀ d, supply s' d = supply s d + voucher_supply o coin d) ∧
    (is_eth o = true → supply s' (ao_Denom o) < 2 ^ 256) ∧
    (∀ d, mod_balance s' d - forwards s' d =
          mod_balance s d - forwards s d - if is_eth o then 0 else only (ao_Denom o) (sc_Amount claim) d).
Proof.
  intros Ht Hse Hrun. unfold handleSendToCosmos in Hrun. cbv zeta in Hrun. rewrite Ht, Hse in Hrun.
  mnext Hrun as u0 s0 E0.
  assert (s0 = s) as -> by (eapply readonly_inv; [|exact E0]; readonly).
  mnext Hrun as black s1 E1. assert (s1 = s) as -> by (eapply readonly_inv; [|exact E1]; readonly).
  mnext Hrun as u2 s2 E2. assert (s2 = s) as -> by (eapply readonly_inv; [|exact E2]; readonly).
  mnext Hrun as o s3 E3. apply deposit_origin_inv in E3 as [-> Ho].
  mnext Hrun as coin s4 E4. apply opt_panic_inv in E4 as [->%NewCoin_inv ->].
  mnext Hrun as u5 s5 E5. mnext Hrun as invalid s6 E6. set (coin := mkCoin _ _) in *.
  change (finish_deposit claim coin token invalid s6 = Ret tt s') in Hrun.
  destruct (delivery_inv claim coin _ _ _ _ _ _ eq_refl E6 Hrun) as [Hdel Hsp].
  exists o, black, s5. cbv zeta. fold coin.
  assert (delta s s5 (vouchers o coin) (voucher_supply o coin) ∧
    (is_eth o = true → supply s (ao_Denom o) + sc_Amount claim < 2 ^ 256)) as [Hmint Hsup].
  { unfold vouchers, voucher_supply, is_eth. destruct (decide (ao_Origin o = AssetOriginEthereum)) as [Heth|Hne].
    - apply mint_delta in E5 as [Hm Hs]; [|done]. rewrite bool_decide_true by done. by split.
    - rewrite bool_decide_false by done. apply mret_inv in E5 as [_ ->]. split; [apply delta_refl|done]. }
  assert (∀ d, supply s' d = supply s d + voucher_supply o coin d) as Hs.
  { intros d. rewrite (delivered_supply _ _ _ _ _ d Hdel). apply (de_supply _ _ _ _ Hmint). }
  split_and!; [done..| |].
  - intros E. rewrite Hs. unfold voucher_supply, only. rewrite E, decide_True by done. by apply Hsup.
  - intros d. rewrite Hsp. unfold mod_balance. rewrite (de_balance _ _ _ _ Hmint), (delta_forwards _ _ _ _ _ Hmint).
    unfold vouchers, gain. rewrite decide_True by done. destruct (is_eth o); cbn [Denom Amount coin]; lia.
Qed.

(** A deposit whose Ethereum sender cannot be parsed is reported as handled:
    the error that is returned wraps the token's error, which is nil, so nothing is
    minted, nobody is paid, and the event counts as processed. *)
Theorem handleSendToCosmos_invalid_sender claim token e s :
  NewEthAddress (sc_TokenContract claim) = Ok token → NewEthAddress (sc_EthereumSender claim) = Er e →
  handleSendToCosmos claim s = Ret tt s.
Proof.
  intros Ht Hse. unfold handleSendToCosmos. rewrite Ht, Hse. cbv zeta.
  by destruct (is_ok (IBCAddressFromBech32 (sc_CosmosReceiver claim))).
Qed.
End Deposits.
