(* ===== verification/ForwardCorrect.v ===== *)
(** * Correctness of the queue of IBC forwards

    Deposits for other chains wait in the queue, backed by coins in the module's
    account; executing the next one takes exactly its coins out of the account. *)

From stdpp Require Import base gmap list strings sorting.
From S2P Require Import Prelude GoStd External Store Ethereum Keys OutgoingTx Valset Claims Keeper DelegateKeys Attestation Registry ValsetKeeper IbcForward Pool Batch Handler HandlerCorrect.

#[local] Open Scope Z_scope.

(** A transfer over IBC takes its coins from the sender: the module's account is
    left alone when it is not the sender. *)
Class ForwardLaws (W : Type) `{Sdk} `{Bank W} `{Ibc W} := {
  transfer_spares msg a w o w' :
    mt_Sender msg = AccAddressString a → a ≠ GetModuleAddress ModuleName →
    Transfer msg w = (o, w') →
    ∀ d, GetBalance w' (GetModuleAddress ModuleName) d = GetBalance w (GetModuleAddress ModuleName) d;
}.

Section Forwards.
Context {W : Type} `{Geth} `{Sdk} `{Bech32} `{Hashing} `{Bank W} `{!BankLaws W} `{Ibc W} `{!DepositLaws W}.
Context `{!ForwardLaws W}.
Implicit Types (s : State W) (f : PendingIbcAutoForward).

#[local] Abbreviation queue s := (kv_forwards (st_kv s)).

Definition forward_key f : bytes := GetPendingIbcAutoForwardKey (pf_EventNonce f).

(** Every forward is stored under its event nonce. *)
Definition queue_ok s : Prop :=
  map_Forall (λ k f, k = forward_key f ∧ u64_ok (pf_EventNonce f)) (queue s).

Lemma forward_key_prefix f : PendingIbcAutoForwards `prefix_of` forward_key f.
Proof. exists (UInt64Bytes (pf_EventNonce f)). unfold forward_key, GetPendingIbcAutoForwardKey, AppendBytes. cbn [concat]. by rewrite app_nil_r. Qed.

Lemma forward_key_le f g :
  u64_ok (pf_EventNonce f) → u64_ok (pf_EventNonce g) →
  bytes_lt (forward_key f) (forward_key g) → pf_EventNonce f ≤ pf_EventNonce g.
Proof.
  intros Hf Hg. unfold bytes_lt, bytes_ltb, forward_key, GetPendingIbcAutoForwardKey, AppendBytes.
  cbn [concat]. rewrite !app_nil_r, bytes_cmp_app, bytes_cmp_refl, UInt64Bytes_cmp by done.
  by destruct (Z.compare_spec (pf_EventNonce f) (pf_EventNonce g)); [lia..|].
Qed.

(** The next forward is the one with the lowest event nonce. *)
Lemma GetNextPendingIbcAutoForward_eq s :
  queue_ok s →
  (GetNextPendingIbcAutoForward s = Ret None s ∧ queue s = ∅) ∨
  ∃ f, GetNextPendingIbcAutoForward s = Ret (Some f) s ∧ queue s !! forward_key f = Some f ∧
    map_Forall (λ _ g, pf_EventNonce f ≤ pf_EventNonce g) (queue s).
Proof.
  intros Hq. unfold GetNextPendingIbcAutoForward, gets.
  pose proof (iter_asc_sorted (queue s) (prefixRange PendingIbcAutoForwards)) as Hs.
  assert (∀ k g, queue s !! k = Some g →
    (k, g) ∈ iter_asc (queue s) (prefixRange PendingIbcAutoForwards)) as Hin.
  { intros k g Hk. apply elem_of_iter_asc. split; [done|]. destruct (Hq k g Hk) as [-> _].
    destruct (forward_key_prefix g) as [x ->]. apply prefix_in_range; [done|].
    pose proof prefixes_length as Hp. rewrite Forall_forall in Hp. apply Hp. unfold all_prefixes. set_solver. }
  destruct (iter_asc _ _) as [|[k f] l] eqn:E.
  - left. split; [done|]. apply map_empty. intros k. apply eq_None_not_Some. intros [g Hk].
    by apply Hin, not_elem_of_nil in Hk.
  - right. exists f. assert (queue s !! k = Some f) as Hf.
    { by apply (elem_of_iter_asc _ (prefixRange PendingIbcAutoForwards)); rewrite E; left. }
    destruct (Hq k f Hf) as [-> Hu]. split_and!; [done..|]. intros k2 g Hg.
    destruct (Hq k2 g Hg) as [-> Hug]. pose proof (Hin _ _ Hg) as Hl.
    apply elem_of_cons in Hl as [Eq|Hl]; [apply (f_equal snd) in Eq; cbn [snd] in Eq; by subst|].
    apply StronglySorted_inv in Hs as [_ Hs]. rewrite Forall_forall in Hs.
    by apply forward_key_le, (Hs _ Hl).
Qed.

Lemma forwards_delete s f d :
  queue s !! forward_key f = Some f →
  forwards s d = only (Denom (pf_Token f)) (Amount (pf_Token f)) d +
    forwards (upd_kv (upd_forwards (delete (forward_key f))) s) d.
Proof.
  intros Hf. unfold forwards, only. simpl. by rewrite <- (map_to_list_delete _ _ _ Hf).
Qed.

Lemma forward_coins f coins :
  PendingIbcAutoForward_ValidateBasic f = Ok tt → NewCoins1 (pf_Token f) = Some coins → coins = [pf_Token f].
Proof.
  unfold PendingIbcAutoForward_ValidateBasic, NewCoins1, mbind, res_bind.
  destruct (DecodeAndConvert _); [|done]. destruct (bool_decide _); [done|].
  destruct (Amount (pf_Token f) =? 0); [done|]. destruct (Coin_IsValid _); [|done]. by intros _ [= <-].
Qed.

(** What executing a forward did: it is gone from the queue, and its coins have left
    the module's account. *)
Definition executed f s s' : Prop :=
  queue s' = delete (forward_key f) (queue s) ∧ but_forwards (st_kv s') = but_forwards (st_kv s) ∧
  ∀ d, mod_balance s' d = mod_balance s d - only (Denom (pf_Token f)) (Amount (pf_Token f)) d.

(** The end of [ProcessNextPendingIbcAutoForward], once the forward is off the queue. *)
Definition finish_forward (port : string) f (a : bytes) (coins : list Coin) : K W bool :=
  sent ← try (call (SendCoinsFromModuleToAccount ModuleName a coins));
  match sent with
  | Er _ => _ ← SendToCommunityPool coins; mret false
  | Ok _ =>
      timeoutTime ← thirtyDaysInFuture;
      transferred ← try (call (Transfer (createIbcMsgTransfer port f (AccAddressString a) timeoutTime)));
      match transferred with
      | Ok _ =>
          _ ← emit (EventSendToCosmosExecutedIbcAutoForward (pf_EventNonce f) (pf_ForeignReceiver f)
                 (Denom (pf_Token f)) (Amount (pf_Token f)) (pf_IbcChannel f) timeoutTime);
          mret false
      | Er _ =>
          _ ← or_panic "IBCAddressFromBech32" (IBCAddressFromBech32 (pf_ForeignReceiver f));
          _ ← emit (EventSendToCosmosLocal (pf_EventNonce f) (pf_ForeignReceiver f)
                 (Denom (pf_Token f)) (Amount (pf_Token f)));
          mret false
      end
  end.

Lemma SendToCommunityPool_kv coins s u s' : SendToCommunityPool coins s = Ret u s' → st_kv s' = st_kv s.
Proof.
  unfold SendToCommunityPool, call. mrun. destruct (SendCoinsFromModuleToModule _ _ _ _) as [[]]; [done|].
  destruct (AddToFeePool _ _) as [[]]; [done|]. by intros [= _ <-].
Qed.

(** Its effect: the forward's coins leave the module's account. *)
Definition paid_out f s s' : Prop :=
  st_kv s' = st_kv s ∧
  ∀ d, mod_balance s' d = mod_balance s d - only (Denom (pf_Token f)) (Amount (pf_Token f)) d.

Lemma finish_forward_inv port f a s stop s' :
  a ≠ GetModuleAddress ModuleName → finish_forward port f a [pf_Token f] s = Ret stop s' →
  stop = false ∧ paid_out f s s'.
Proof.
  intros Hmod Hrun. unfold finish_forward in Hrun.
  mnext Hrun as sent s1 E1. apply try_call_inv in E1 as (o & w & Es & -> & ->).
  destruct o as [e|].
  - mnext Hrun as u s2 E2. apply mret_inv in Hrun as [-> ->]. split; [done|].
    apply send_fails in Es as [Hb _]; [|simpl; lia]. split; [by apply SendToCommunityPool_kv in E2|].
    intros d. apply pool_delta in E2 as [_ Hbal _]. unfold mod_balance. rewrite Hbal. unfold pay, gain. simpl.
    rewrite Hb, decide_False, decide_True by (done || apply not_eq_sym, distribution_apart). lia.
  - apply send_mod_acc in Es as (Hb & _). mnext Hrun as t s2 E2. apply gets_inv in E2 as [-> ->].
    mnext Hrun as tr s3 E3. apply try_call_inv in E3 as (o & w2 & Et & -> & ->).
    assert (∀ d, GetBalance w2 (GetModuleAddress ModuleName) d = GetBalance w (GetModuleAddress ModuleName) d)
      as Et' by (intros d; eapply (transfer_spares _ a); [|exact Hmod|exact Et]; done).
    assert (∀ e, paid_out f s (add_event e (upd_world (λ _, w2) (upd_world (λ _, w) s)))) as Hpaid.
    { intros e. split; [done|]. intros d. unfold mod_balance. simpl. rewrite Et'.
      rewrite Hb, amount_of_singleton. unfold only.
      rewrite (decide_False (P := GetModuleAddress ModuleName = a)) by congruence.
      rewrite (decide_True (P := GetModuleAddress ModuleName = GetModuleAddress ModuleName)) by done.
      case_decide; lia. }
    destruct o as [e|].
    + mnext Hrun as u s4 E4. apply or_panic_inv in E4 as [_ ->]. mnext Hrun as u2 s5 E5.
      apply modify_inv in E5 as ->. apply mret_inv in Hrun as [-> ->]. by split.
    + mnext Hrun as u2 s5 E5. apply modify_inv in E5 as ->. apply mret_inv in Hrun as [-> ->]. by split.
Qed.

(** C39. When no forward names the module's own account as its receiver, which the
    chain blocks from receiving, executing the next IBC forward, whichever way it ends
    (sent over IBC, left with the receiver's local account, or given to the community
    pool), takes the forward with the lowest event nonce off the queue and exactly its
    coins out of the module's account; so the coins behind the forwards that still wait
    are not touched.  An empty queue is left alone. *)
Theorem ProcessNextPendingIbcAutoForward_conserves s s' stop :
  queue_ok s → ProcessNextPendingIbcAutoForward s = Ret stop s' →
  (∀ k f a, queue s !! k = Some f → IBCAddressFromBech32 (pf_ForeignReceiver f) = Ok a →
     a ≠ GetModuleAddress ModuleName) →
  (stop = true ∧ s' = s ∧ queue s = ∅) ∨
  (stop = false ∧ queue_ok s' ∧ (∀ d, mod_balance s' d - forwards s' d = mod_balance s d - forwards s d) ∧
   ∃ f, executed f s s' ∧ map_Forall (λ _ g, pf_EventNonce f ≤ pf_EventNonce g) (queue s)).
Proof.
  intros Hq Hrun Hrec. unfold ProcessNextPendingIbcAutoForward in Hrun.
  destruct (GetNextPendingIbcAutoForward_eq s Hq) as [[E Hnone]|(f & E & Hf & Hmin)].
  { rewrite (bind_ret _ _ _ _ _ E) in Hrun. apply mret_inv in Hrun as [-> ->]. by left. }
  rewrite (bind_ret _ _ _ _ _ E) in Hrun. right.
  mnext Hrun as u1 s1 E1. apply or_panic_inv in E1 as [Hval ->].
  mnext Hrun as u2 s2 E2. apply or_panic_inv in E2 as [_ ->].
  mnext Hrun as u3 s3 E3. apply must_inv in E3.
  unfold deletePendingIbcAutoForward in E3. fold (forward_key f) in E3.
  mnext E3 as has s4 E4. apply gets_inv in E4 as [-> ->]. mnext E3 as u5 s5 E5.
  apply guard_err_inv in E5 as [_ ->]. apply modify_inv in E3 as ->.
  mnext Hrun as port s6 E6. apply gets_inv in E6 as [-> ->].
  mnext Hrun as a s7 E7. apply or_panic_inv in E7 as [Ha ->].
  mnext Hrun as coins s8 E8. apply opt_panic_inv in E8 as [Hcs ->].
  fold (finish_forward (GetPort (st_world s)) f a coins) in Hrun.
  assert (coins = [pf_Token f]) as -> by (destruct u1; by eapply forward_coins).
  apply finish_forward_inv in Hrun as [-> [Hk Hb]]; [|by eapply Hrec].
  set (s10 := upd_kv (upd_forwards (delete (forward_key f))) s) in *.
  assert (queue s' = delete (forward_key f) (queue s)) as Eq by (by rewrite Hk).
  split_and!; [done| | |exists f; split; [split_and!|]; [done|by rewrite Hk|exact Hb|done]].
  - unfold queue_ok. rewrite Eq. by apply map_Forall_delete.
  - intros d. rewrite Hb, (forwards_delete s f d Hf). unfold forwards. rewrite Eq.
    change (mod_balance s10 d) with (mod_balance s d). unfold s10. simpl. lia.
Qed.
End Forwards.
