(* ===== verification/Transfers.v ===== *)
(** * The transfers in flight: invariant and abstraction

    The pool and the batches store the external form of transfers under keys
    computed from their contents.  [transfers_ok] says that both stores are well
    formed: every entry is the encoding of a valid transfer or batch, stored
    under its own key; no transfer id occurs twice; the two counters are ahead of
    every id in use.  [transfers] is the abstract state the theorems are about:
    the collection of transfers in flight, wherever they are stored. *)

From stdpp Require Import base gmap list strings sorting.
From S2P Require Import Prelude GoStd External Store Ethereum Keys OutgoingTx Valset Claims Keeper Registry Pool Batch.

#[local] Open Scope Z_scope.

Section Abstraction.
Context `{Geth} `{Sdk}.

Definition parse_tx (e : OutgoingTransferTx) : list InternalOutgoingTransferTx :=
  match OutgoingTransferTx_ToInternal e with Ok t => [t] | Er _ => [] end.

Definition parse_batch (e : OutgoingTxBatch) : list InternalOutgoingTransferTx :=
  match OutgoingTxBatch_ToInternal e with Ok b => ib_Transactions b | Er _ => [] end.

Definition pool_txs (m : gmap bytes OutgoingTransferTx) : list InternalOutgoingTransferTx :=
  map_to_list m ≫= λ kv, parse_tx kv.2.

Definition batch_txs (m : gmap bytes OutgoingTxBatch) : list InternalOutgoingTransferTx :=
  map_to_list m ≫= λ kv, parse_batch kv.2.

(** The transfers in flight. *)
Definition transfers {W} (s : State W) : list InternalOutgoingTransferTx :=
  pool_txs (kv_pool (st_kv s)) ++ batch_txs (kv_batches (st_kv s)).

(** The key a transfer has in the pool. *)
Definition tx_key (t : InternalOutgoingTransferTx) : bytes := pool_key (tx_Erc20Fee t) (tx_Id t).

(** A valid transfer whose amount and fee are in the same token. *)
Definition wf_tx (t : InternalOutgoingTransferTx) : Prop :=
  tx_ok t ∧ it_Contract (tx_Erc20Fee t) = it_Contract (tx_Erc20Token t).

Definition pool_entry_ok (k : bytes) (e : OutgoingTransferTx) : Prop :=
  ∃ t, wf_tx t ∧ e = InternalOutgoingTransferTx_ToExternal t ∧ k = tx_key t.

Definition wf_batch (b : InternalOutgoingTxBatch) : Prop :=
  u64_ok (ib_BatchNonce b) ∧ eth_ok (ib_TokenContract b) ∧
  Forall (λ t, wf_tx t ∧ it_Contract (tx_Erc20Token t) = ib_TokenContract b) (ib_Transactions b).

Definition batch_entry_ok (k : bytes) (e : OutgoingTxBatch) : Prop :=
  ∃ b, wf_batch b ∧ e = InternalOutgoingTxBatch_ToExternal b ∧
       k = GetOutgoingTxBatchKey (ib_TokenContract b) (ib_BatchNonce b).

Record transfers_ok {W} (s : State W) : Prop := {
  tok_pool : map_Forall pool_entry_ok (kv_pool (st_kv s));
  tok_batches : map_Forall batch_entry_ok (kv_batches (st_kv s));
  tok_ids : NoDup (tx_Id <$> transfers s);
  tok_last_tx : ∃ n, raw s !! KeyLastTXPoolID = Some (UInt64Bytes n) ∧ u64_ok n ∧
    Forall (λ t, 1 ≤ tx_Id t ≤ n) (transfers s);
  tok_last_batch : ∃ n, raw s !! KeyLastOutgoingBatchID = Some (UInt64Bytes n) ∧ u64_ok n ∧
    map_Forall (λ _ e, 1 ≤ ob_BatchNonce e ≤ n) (kv_batches (st_kv s)) }.

(** ** The collection under updates *)

Lemma pool_txs_insert m k e :
  m !! k = None → pool_txs (<[k:=e]> m) ≡ₚ parse_tx e ++ pool_txs m.
Proof. intros Hk. unfold pool_txs. by rewrite map_to_list_insert. Qed.

Lemma pool_txs_delete m k e :
  m !! k = Some e → pool_txs m ≡ₚ parse_tx e ++ pool_txs (delete k m).
Proof.
  intros Hk. rewrite <- pool_txs_insert by apply lookup_delete_eq.
  by rewrite insert_delete_id.
Qed.

Lemma batch_txs_insert m k e :
  m !! k = None → batch_txs (<[k:=e]> m) ≡ₚ parse_batch e ++ batch_txs m.
Proof. intros Hk. unfold batch_txs. by rewrite map_to_list_insert. Qed.

Lemma batch_txs_delete m k e :
  m !! k = Some e → batch_txs m ≡ₚ parse_batch e ++ batch_txs (delete k m).
Proof.
  intros Hk. rewrite <- batch_txs_insert by apply lookup_delete_eq.
  by rewrite insert_delete_id.
Qed.
End Abstraction.

Section TransferLemmas.
Context `{GethLaws} `{SdkLaws}.

Lemma tx_fee_ok t : tx_ok t → fee_ok (tx_Erc20Fee t).
Proof.
  intros (_ & _ & _ & _ & Hn & Hi & Hl & _). split; [|done]. unfold int_ok in Hi.
  rewrite Z.abs_eq in Hi; lia.
Qed.

Lemma tx_fee_contract_ok t : tx_ok t → bytes_ok (GetAddress (it_Contract (tx_Erc20Fee t))).
Proof. by intros (_ & _ & _ & _ & _ & _ & _ & Hb). Qed.

Lemma tx_pool_key t :
  tx_ok t → GetOutgoingTxPoolKey (tx_Erc20Fee t) (tx_Id t) = Some (tx_key t).
Proof. intros Ht. apply GetOutgoingTxPoolKey_ok. by apply tx_fee_ok. Qed.

Lemma tx_key_inj t1 t2 :
  tx_ok t1 → tx_ok t2 → tx_key t1 = tx_key t2 →
  tx_Erc20Fee t1 = tx_Erc20Fee t2 ∧ tx_Id t1 = tx_Id t2.
Proof.
  intros H1' H2' E. apply pool_key_inj in E; [done|by apply tx_fee_ok..|apply H1'|apply H2'].
Qed.

Lemma parse_tx_ext t : tx_ok t → parse_tx (InternalOutgoingTransferTx_ToExternal t) = [t].
Proof. intros Ht. unfold parse_tx. by rewrite tx_roundtrip. Qed.

Lemma wf_batch_ok b : wf_batch b → batch_ok b.
Proof.
  intros (Hn & Hc & Ht). split_and!; [done..|]. eapply Forall_impl; [exact Ht|].
  by intros t [[? _] _].
Qed.

Lemma parse_batch_ext b :
  wf_batch b → parse_batch (InternalOutgoingTxBatch_ToExternal b) = ib_Transactions b.
Proof. intros Hb%wf_batch_ok. unfold parse_batch. by rewrite batch_roundtrip. Qed.

Lemma elem_of_pool_txs m t :
  map_Forall pool_entry_ok m →
  t ∈ pool_txs m ↔ wf_tx t ∧ m !! tx_key t = Some (InternalOutgoingTransferTx_ToExternal t).
Proof.
  intros Hm. unfold pool_txs. rewrite list_elem_of_bind. split.
  - intros ([k e] & Ht & Hk%elem_of_map_to_list). simpl in Ht.
    destruct (Hm k e Hk) as (t' & Hwf & -> & ->).
    rewrite parse_tx_ext in Ht by apply Hwf. apply list_elem_of_singleton in Ht as ->. done.
  - intros [Hwf Hk]. exists (tx_key t, InternalOutgoingTransferTx_ToExternal t).
    rewrite elem_of_map_to_list. split; [|done]. simpl. rewrite parse_tx_ext by apply Hwf.
    by apply list_elem_of_singleton.
Qed.

Lemma elem_of_batch_txs m t :
  map_Forall batch_entry_ok m →
  t ∈ batch_txs m ↔ ∃ b, wf_batch b ∧ t ∈ ib_Transactions b ∧
    m !! GetOutgoingTxBatchKey (ib_TokenContract b) (ib_BatchNonce b) =
    Some (InternalOutgoingTxBatch_ToExternal b).
Proof.
  intros Hm. unfold batch_txs. rewrite list_elem_of_bind. split.
  - intros ([k e] & Ht & Hk%elem_of_map_to_list). simpl in Ht.
    destruct (Hm k e Hk) as (b & Hwf & -> & ->). rewrite parse_batch_ext in Ht by done. eauto.
  - intros (b & Hwf & Ht & Hk).
    exists (GetOutgoingTxBatchKey (ib_TokenContract b) (ib_BatchNonce b),
            InternalOutgoingTxBatch_ToExternal b).
    rewrite elem_of_map_to_list. split; [|done]. simpl. by rewrite parse_batch_ext.
Qed.

Lemma batch_txs_wf m : map_Forall batch_entry_ok m → Forall wf_tx (batch_txs m).
Proof.
  intros Hm. apply Forall_forall. intros t (b & (_ & _ & Hf) & Ht & _)%elem_of_batch_txs; [|done].
  rewrite Forall_forall in Hf. by apply Hf.
Qed.

Lemma transfers_wf {W} (s : State W) : transfers_ok s → Forall wf_tx (transfers s).
Proof.
  intros Hs. unfold transfers. apply Forall_app. split.
  - apply Forall_forall. intros t [? _]%elem_of_pool_txs; [done|apply Hs].
  - apply batch_txs_wf, Hs.
Qed.

(** A transfer of the pool is found by its id alone. *)
Lemma pool_id_unique m t1 t2 :
  NoDup (tx_Id <$> pool_txs m) → t1 ∈ pool_txs m → t2 ∈ pool_txs m →
  tx_Id t1 = tx_Id t2 → t1 = t2.
Proof.
  intros Hnd H1' H2' E. apply list_elem_of_lookup in H1' as [i Hi], H2' as [j Hj].
  assert (i = j) as ->; [|congruence].
  eapply (NoDup_lookup _ i j (tx_Id t1)); [exact Hnd|..].
  - by rewrite list_lookup_fmap, Hi.
  - rewrite list_lookup_fmap, Hj. simpl. by rewrite E.
Qed.

Lemma tok_pool_ids {W} (s : State W) :
  transfers_ok s → NoDup (tx_Id <$> pool_txs (kv_pool (st_kv s))).
Proof.
  intros Hs. pose proof (tok_ids _ Hs) as Hnd. unfold transfers in Hnd.
  rewrite fmap_app in Hnd. by apply NoDup_app in Hnd as [? _].
Qed.
End TransferLemmas.

(** ** Iterating the pool *)

(** Loops that neither fail nor change the state. *)
Lemma for_acc_find {S A} (p : A → bool) (l : list A) (acc : option A) (s : S) :
  for_acc l acc (λ x r, mret (if p x then (Some x, true) else (r, false))) s =
  Ret (match filter (λ x, p x = true) l with x :: _ => Some x | [] => acc end) s.
Proof.
  revert acc. induction l as [|x l IH]; intros acc; [done|].
  cbn [for_acc]. rewrite filter_cons. unfold mbind, M_bind, mret, M_ret.
  destruct (p x); [by rewrite decide_True|]. rewrite decide_False by done. apply IH.
Qed.

Lemma for_acc_collect {S A} (l out : list A) (s : S) :
  for_acc l out (λ x out, mret (out ++ [x], false)) s = Ret (out ++ l) s.
Proof.
  revert out. induction l as [|x l IH]; intros out; cbn [for_acc].
  - by rewrite app_nil_r.
  - unfold mbind, M_bind, mret at 1, M_ret. rewrite IH. by rewrite <- app_assoc.
Qed.

Section Iteration.
Context {W : Type} `{GethLaws} `{SdkLaws}.
Implicit Types s : State W.

(** The valid transfers of the pool under a key prefix, in iteration order. *)
Definition pool_list (m : gmap bytes OutgoingTransferTx) (prefix : bytes)
    : list InternalOutgoingTransferTx :=
  iter_desc m (prefixRange prefix) ≫= λ kv, parse_tx kv.2.

Lemma for_acc_parsed {B} (l : list (bytes * OutgoingTransferTx)) (acc : B)
    (cb : bytes → InternalOutgoingTransferTx → B → K W (B * bool)) msg s :
  Forall (λ kv, pool_entry_ok kv.1 kv.2) l →
  for_acc l acc (λ kv acc,
    intTx ← or_panic msg (OutgoingTransferTx_ToInternal kv.2); cb kv.1 intTx acc) s =
  for_acc (l ≫= λ kv, parse_tx kv.2) acc (λ t acc, cb (tx_key t) t acc) s.
Proof.
  intros Hl. revert acc s. induction Hl as [|[k e] l Hk Hl IH]; intros acc s; [done|].
  simpl in Hk. destruct Hk as (t & [Ht _] & -> & ->).
  cbn [for_acc mbind list_bind fst snd]. rewrite parse_tx_ext by done. cbn [app for_acc].
  rewrite tx_roundtrip by done. cbn [or_panic]. unfold mbind, M_bind, mret, M_ret.
  destruct (cb (tx_key t) t acc s) as [[acc' []] s'|e s'|m]; [done| |done..]. apply IH.
Qed.

Lemma iter_desc_entries_ok {V} (P : bytes → V → Prop) m r :
  map_Forall P m → Forall (λ kv, P kv.1 kv.2) (iter_desc m r).
Proof.
  intros Hm. apply Forall_forall. intros [k v] [Hk _]%elem_of_iter_desc. by apply Hm.
Qed.

Lemma iterate_pool_eq {B} prefix (acc : B) cb s :
  map_Forall pool_entry_ok (kv_pool (st_kv s)) →
  filterAndIterateUnbatchedTransactions prefix acc cb s =
  for_acc (pool_list (kv_pool (st_kv s)) prefix) acc (λ t acc, cb (tx_key t) t acc) s.
Proof.
  intros Hm. unfold filterAndIterateUnbatchedTransactions, mbind at 1, M_bind, gets.
  apply for_acc_parsed. by apply iter_desc_entries_ok.
Qed.

Lemma elem_of_pool_list m prefix t :
  map_Forall pool_entry_ok m →
  t ∈ pool_list m prefix ↔ t ∈ pool_txs m ∧ in_range (prefixRange prefix) (tx_key t) = true.
Proof.
  intros Hm. rewrite elem_of_pool_txs by done. unfold pool_list. rewrite list_elem_of_bind. split.
  - intros ([k e] & Ht & [Hk Hr]%elem_of_iter_desc). simpl in Ht.
    destruct (Hm k e Hk) as (t' & Hwf & -> & ->).
    rewrite parse_tx_ext in Ht by apply Hwf. by apply list_elem_of_singleton in Ht as ->.
  - intros [[Hwf Hk] Hr]. exists (tx_key t, InternalOutgoingTransferTx_ToExternal t).
    rewrite elem_of_iter_desc. split; [|done]. simpl. rewrite parse_tx_ext by apply Hwf.
    by apply list_elem_of_singleton.
Qed.

(** The iteration visits the keys in descending order. *)
Lemma pool_list_sorted m prefix :
  map_Forall pool_entry_ok m →
  StronglySorted (λ t1 t2, bytes_lt (tx_key t2) (tx_key t1)) (pool_list m prefix).
Proof.
  intros Hm. unfold pool_list.
  pose proof (iter_desc_sorted m (prefixRange prefix)) as Hs.
  pose proof (iter_desc_entries_ok _ m (prefixRange prefix) Hm) as Hok.
  induction Hs as [|[k e] l Hl IH Hk]; [constructor|].
  apply Forall_cons in Hok as [(t & [Ht _] & He & Hkey) Hok]. simpl in He, Hkey. subst.
  cbn [mbind list_bind snd]. rewrite parse_tx_ext by done. simpl.
  constructor; [by apply IH|].
  rewrite Forall_forall in Hok. rewrite Forall_forall in Hk. apply Forall_forall.
  intros t2 ([k2 e2] & Ht2 & Hin)%list_elem_of_bind. simpl in Ht2.
  destruct (Hok _ Hin) as (t3 & [Ht3 _] & He3 & Hk3). simpl in He3, Hk3. subst.
  rewrite parse_tx_ext in Ht2 by done. apply list_elem_of_singleton in Ht2 as ->.
  exact (Hk _ Hin).
Qed.

Lemma pool_list_NoDup m prefix : map_Forall pool_entry_ok m → NoDup (pool_list m prefix).
Proof.
  intros Hm. pose proof (pool_list_sorted m prefix Hm) as Hs.
  induction Hs as [|t l Hl IH Ht]; constructor; [|done].
  intros Hin. rewrite Forall_forall in Ht. by eapply (irreflexivity bytes_lt), Ht.
Qed.

Lemma pool_list_contract m c t :
  map_Forall pool_entry_ok m → eth_ok c →
  t ∈ pool_list m (GetOutgoingTxPoolContractPrefix c) ↔
  t ∈ pool_txs m ∧ it_Contract (tx_Erc20Fee t) = c.
Proof.
  intros Hm Hc. rewrite elem_of_pool_list by done. split; intros [Ht Hr]; split; try done.
  - apply elem_of_pool_txs in Ht as [[Ht _] _]; [|done].
    by apply pool_prefix_iff in Hr; [..|apply tx_fee_ok|apply tx_fee_contract_ok].
  - apply elem_of_pool_txs in Ht as [[Ht _] _]; [|done].
    by apply pool_prefix_iff; [..|apply tx_fee_ok|apply tx_fee_contract_ok|].
Qed.

Lemma elem_of_pool_list_all m t :
  map_Forall pool_entry_ok m → t ∈ pool_list m OutgoingTXPoolKey ↔ t ∈ pool_txs m.
Proof.
  intros Hm. rewrite elem_of_pool_list by done. split; [by intros []|]. intros Ht.
  split; [done|]. apply elem_of_pool_txs in Ht as [[Ht _] _]; [|done].
  apply pool_prefix_all; [by apply tx_fee_ok|by apply tx_fee_contract_ok].
Qed.

(** Within a token, the transfers come by descending fee. *)
Lemma pool_list_fees m c :
  map_Forall pool_entry_ok m → eth_ok c →
  StronglySorted (λ t1 t2, it_Amount (tx_Erc20Fee t2) ≤ it_Amount (tx_Erc20Fee t1))
    (pool_list m (GetOutgoingTxPoolContractPrefix c)).
Proof.
  intros Hm Hc. pose proof (pool_list_sorted m (GetOutgoingTxPoolContractPrefix c) Hm) as Hs.
  assert (Forall (λ t, tx_ok t ∧ it_Contract (tx_Erc20Fee t) = c)
    (pool_list m (GetOutgoingTxPoolContractPrefix c))) as Hf.
  { apply Forall_forall. intros t [Ht E]%pool_list_contract; [|done..]. split; [|done].
    by apply elem_of_pool_txs in Ht as [[Ht _] _]. }
  induction Hs as [|t l Hl IH Ht]; [constructor|].
  apply Forall_cons in Hf as [[Hok1 Hc1] Hf]. constructor; [by apply IH|].
  rewrite Forall_forall in Hf. rewrite Forall_forall in Ht. apply Forall_forall.
  intros t2 Hin. destruct (Hf _ Hin) as [Hok2 Hc2].
  specialize (Ht _ Hin). unfold bytes_lt, bytes_ltb, tx_key in Ht.
  rewrite pool_key_cmp in Ht; [|by apply tx_fee_ok..|apply Hok2|apply Hok1].
  rewrite Hc1, Hc2, bytes_cmp_refl in Ht.
  destruct (Z.compare_spec (it_Amount (tx_Erc20Fee t2)) (it_Amount (tx_Erc20Fee t))); try lia; done.
Qed.
(** [GetUnbatchedTransactionsByContract] lists the transfers of a token that wait
    in the pool, all of them, each once, by descending fee: the big-endian keys put
    the most profitable transfers first. *)
Theorem GetUnbatchedTransactionsByContract_spec s c :
  transfers_ok s → eth_ok c →
  ∃ l, GetUnbatchedTransactionsByContract c s = Ret l s ∧ NoDup l ∧
    (∀ t, t ∈ l ↔ t ∈ pool_txs (kv_pool (st_kv s)) ∧ it_Contract (tx_Erc20Fee t) = c) ∧
    StronglySorted (λ t1 t2, it_Amount (tx_Erc20Fee t2) ≤ it_Amount (tx_Erc20Fee t1)) l.
Proof.
  intros Hs Hc. pose proof (tok_pool _ Hs) as Hm. eexists. split_and!.
  - unfold GetUnbatchedTransactionsByContract, collectUnbatchedTransactions.
    rewrite iterate_pool_eq by done. apply for_acc_collect.
  - by apply pool_list_NoDup.
  - intros t. by apply pool_list_contract.
  - by apply pool_list_fees.
Qed.
End Iteration.
