(* ===== verification/PoolCorrect.v ===== *)
(** * Correctness of the pool *)

From stdpp Require Import base gmap list strings sorting.
From S2P Require Import Prelude GoStd External Store Ethereum Keys OutgoingTx Valset Claims Keeper Registry Pool Batch Transfers.

#[local] Open Scope Z_scope.

(** ** The primitive operations *)

Section PoolOps.
Context {W : Type} `{GethLaws} `{SdkLaws}.
Implicit Types s : State W.

Abbreviation pool s := (kv_pool (st_kv s)).

Definition put_tx (t : InternalOutgoingTransferTx) s : State W :=
  upd_kv (upd_pool (insert (tx_key t) (InternalOutgoingTransferTx_ToExternal t))) s.
Definition drop_tx (t : InternalOutgoingTransferTx) s : State W :=
  upd_kv (upd_pool (delete (tx_key t))) s.

Lemma addUnbatchedTX_eq t s :
  tx_ok t →
  addUnbatchedTX t s =
  if decide (is_Some (pool s !! tx_key t)) then Fail ErrDuplicate s else Ret tt (put_tx t s).
Proof.
  intros Ht. unfold addUnbatchedTX. rewrite tx_pool_key by done. mrun. unfold opt_panic. mrun.
  by case_decide as E; [rewrite bool_decide_true|rewrite bool_decide_false].
Qed.

Lemma removeUnbatchedTX_eq t s :
  tx_ok t →
  removeUnbatchedTX (tx_Erc20Fee t) (tx_Id t) s =
  if decide (is_Some (pool s !! tx_key t)) then Ret tt (drop_tx t s) else Fail ErrUnknown s.
Proof.
  intros Ht. unfold removeUnbatchedTX. rewrite tx_pool_key by done. unfold opt_panic. mrun.
  by case_decide as E; [rewrite bool_decide_true|rewrite bool_decide_false].
Qed.

Lemma GetUnbatchedTxByFeeAndId_none t s :
  tx_ok t → pool s !! tx_key t = None →
  GetUnbatchedTxByFeeAndId (tx_Erc20Fee t) (tx_Id t) s = Fail ErrUnknown s.
Proof.
  intros Ht Hn. unfold GetUnbatchedTxByFeeAndId. rewrite tx_pool_key by done. unfold opt_panic.
  mrun. by rewrite Hn.
Qed.

Lemma GetUnbatchedTxById_eq id s :
  map_Forall pool_entry_ok (pool s) →
  GetUnbatchedTxById id s =
  match filter (λ t, tx_Id t = id) (pool_list (pool s) OutgoingTXPoolKey) with
  | t :: _ => Ret t s
  | [] => Fail ErrUnknown s
  end.
Proof.
  intros Hm. unfold GetUnbatchedTxById, IterateUnbatchedTransactions, mbind at 1, M_bind.
  rewrite iterate_pool_eq by done.
  rewrite (for_acc_find (λ t, tx_Id t =? id)).
  rewrite (list_filter_iff _ (λ t, tx_Id t = id)) by (intros; apply Z.eqb_eq).
  by destruct (filter _ _).
Qed.

Lemma GetUnbatchedTxById_found t s :
  transfers_ok s → t ∈ pool_txs (pool s) → GetUnbatchedTxById (tx_Id t) s = Ret t s.
Proof.
  intros Hs Ht. rewrite GetUnbatchedTxById_eq by apply Hs.
  destruct (filter _ _) as [|t' l] eqn:E.
  - exfalso. apply (not_elem_of_nil t). rewrite <- E. apply list_elem_of_filter. split; [done|].
    by apply elem_of_pool_list_all; [apply Hs|].
  - assert (t' ∈ filter (λ x, tx_Id x = tx_Id t) (pool_list (pool s) OutgoingTXPoolKey))
      as [Hid Hin]%list_elem_of_filter by (rewrite E; left).
    apply elem_of_pool_list_all in Hin; [|apply Hs]. f_equal.
    by apply (pool_id_unique (pool s)); [apply tok_pool_ids|..].
Qed.

Lemma GetUnbatchedTxById_inv id s t s' :
  transfers_ok s → GetUnbatchedTxById id s = Ret t s' →
  s' = s ∧ tx_Id t = id ∧ t ∈ pool_txs (pool s).
Proof.
  intros Hs. rewrite GetUnbatchedTxById_eq by apply Hs.
  destruct (filter _ _) as [|t' l] eqn:E; [done|]. intros [= <- <-].
  assert (t' ∈ filter (λ x, tx_Id x = id) (pool_list (pool s) OutgoingTXPoolKey))
    as [Hid Hin]%list_elem_of_filter by (rewrite E; left).
  apply elem_of_pool_list_all in Hin; [done|apply Hs].
Qed.

Lemma GetUnbatchedTxById_missing id s :
  transfers_ok s → Forall (λ t, tx_Id t ≠ id) (pool_txs (pool s)) →
  GetUnbatchedTxById id s = Fail ErrUnknown s.
Proof.
  intros Hs Hf. rewrite GetUnbatchedTxById_eq by apply Hs.
  destruct (filter _ _) as [|t l] eqn:E; [done|]. exfalso.
  assert (t ∈ filter (λ x, tx_Id x = id) (pool_list (pool s) OutgoingTXPoolKey))
    as [Hid Hin]%list_elem_of_filter by (rewrite E; left).
  apply elem_of_pool_list_all in Hin; [|apply Hs]. rewrite Forall_forall in Hf. by apply (Hf t).
Qed.
End PoolOps.

(** ** The invariant under updates *)

Section PoolInvariant.
Context {W : Type} `{GethLaws} `{SdkLaws}.
Implicit Types s : State W.

Abbreviation pool s := (kv_pool (st_kv s)).
Abbreviation batches s := (kv_batches (st_kv s)).

Lemma transfers_put t s :
  tx_ok t → pool s !! tx_key t = None → transfers (put_tx t s) ≡ₚ t :: transfers s.
Proof.
  intros Ht Hn. unfold transfers. simpl. rewrite pool_txs_insert by done.
  by rewrite parse_tx_ext.
Qed.

Lemma transfers_drop t s :
  tx_ok t → pool s !! tx_key t = Some (InternalOutgoingTransferTx_ToExternal t) →
  transfers s ≡ₚ t :: transfers (drop_tx t s).
Proof.
  intros Ht Hn. unfold transfers. simpl. rewrite (pool_txs_delete (pool s)) by done.
  by rewrite parse_tx_ext.
Qed.

(** A state whose transfers are some of those of a well-formed state. *)
Lemma transfers_ok_shrink s s' rest :
  transfers_ok s → transfers s ≡ₚ rest ++ transfers s' →
  map_Forall pool_entry_ok (pool s') → map_Forall batch_entry_ok (batches s') →
  raw s' !! KeyLastTXPoolID = raw s !! KeyLastTXPoolID →
  raw s' !! KeyLastOutgoingBatchID = raw s !! KeyLastOutgoingBatchID →
  batches s' ⊆ batches s →
  transfers_ok s'.
Proof.
  intros [Hp Hb Hi (n & Hn & Hnok & Hnb) (m & Hm & Hmok & Hmb)] Hperm Hp' Hb' E1 E2 Hsub.
  split; [done|done|..].
  - rewrite Hperm, fmap_app in Hi. by apply NoDup_app in Hi as (_ & _ & ?).
  - exists n. rewrite E1. split_and!; [done..|]. rewrite Hperm in Hnb.
    by apply Forall_app in Hnb as [_ ?].
  - exists m. rewrite E2. split_and!; [done..|]. intros k e Hk. apply (Hmb k).
    by eapply lookup_weaken.
Qed.

Lemma drop_tx_ok t s :
  transfers_ok s → t ∈ pool_txs (pool s) → transfers_ok (drop_tx t s).
Proof.
  intros Hs [[Ht _] Hk]%elem_of_pool_txs; [|apply Hs].
  apply (transfers_ok_shrink s _ [t]); [done|by apply transfers_drop|..|done|done|done].
  - simpl. apply map_Forall_delete, Hs.
  - apply Hs.
Qed.

(** The next id is free. *)
Lemma fresh_key t s n :
  transfers_ok s → tx_ok t → raw s !! KeyLastTXPoolID = Some (UInt64Bytes n) → u64_ok n →
  n < tx_Id t → pool s !! tx_key t = None.
Proof.
  intros Hs Ht Hn Hnok Hlt. apply eq_None_not_Some. intros [e He].
  destruct (tok_pool _ Hs _ _ He) as (t' & Hwf & -> & Hk).
  destruct (tx_key_inj t t') as [_ Hid]; [done|apply Hwf|done|].
  destruct (tok_last_tx _ Hs) as (n' & Hn' & Hn'ok & Hf).
  assert (n' = n) as ->. { apply UInt64Bytes_inj; [done..|congruence]. }
  assert (t' ∈ transfers s) as Hin.
  { unfold transfers. apply elem_of_app. left. apply elem_of_pool_txs; [apply Hs|].
    split; [done|]. by rewrite <- Hk. }
  rewrite Forall_forall in Hf. specialize (Hf _ Hin). lia.
Qed.

Definition bump_tx_id (n : Z) s : State W :=
  upd_kv (upd_raw (insert KeyLastTXPoolID (UInt64Bytes n))) s.

Lemma add_tx_ok t s n :
  transfers_ok s → wf_tx t → raw s !! KeyLastTXPoolID = Some (UInt64Bytes n) → u64_ok n →
  tx_Id t = n + 1 →
  transfers_ok (put_tx t (bump_tx_id (n + 1) s)).
Proof.
  intros Hs Hwf Hn Hnok Hid. pose proof (proj1 Hwf) as Ht.
  pose proof (fresh_key t s n Hs Ht Hn Hnok ltac:(lia)) as Hfresh.
  pose proof (transfers_put t (bump_tx_id (n + 1) s) Ht Hfresh) as Hperm.
  change (transfers (bump_tx_id (n + 1) s)) with (transfers s) in Hperm.
  destruct Hs as [Hp Hb Hi (n' & Hn' & Hn'ok & Hf) Hlb].
  assert (n' = n) as ->. { apply UInt64Bytes_inj; [done..|congruence]. }
  split.
  - simpl. apply map_Forall_insert_2; [|done]. by exists t.
  - done.
  - rewrite Hperm. simpl. apply NoDup_cons. split; [|done].
    intros (t' & E & Hin)%list_elem_of_fmap. rewrite Forall_forall in Hf.
    specialize (Hf _ Hin). lia.
  - exists (n + 1). split_and!.
    + simpl. by rewrite lookup_insert_eq.
    + rewrite <- Hid. apply Ht.
    + rewrite Hperm. constructor; [unfold u64_ok in *; lia|].
      eapply Forall_impl; [exact Hf|]. simpl. intros; lia.
  - destruct Hlb as (m & Hm & ?). exists m. simpl. by rewrite lookup_insert_ne.
Qed.
End PoolInvariant.

(** ** Sending *)

Section Sending.
Context {W : Type} `{GethLaws} `{SdkLaws} `{Bank W}.
Implicit Types s : State W.

(** The transfer a send creates. *)
Definition new_tx (id : Z) (sender : bytes) (receiver c : EthAddress) (amount fee : Z)
    : InternalOutgoingTransferTx :=
  mkInternalOutgoingTransferTx id sender receiver (mkInternalERC20Token amount c)
    (mkInternalERC20Token fee c).

Definition send_refused (sender : bytes) (receiver : EthAddress) (amount fee : Coin) : bool :=
  negb (is_ok (VerifyAddressFormat sender)) || negb (Coin_IsValid amount) ||
  negb (Coin_IsValid fee) || bool_decide (Denom fee ≠ Denom amount).

(** The state after a send: the coins are in the module ([w]), the counter has
    advanced and the transfer is in the pool. *)
Definition sent (t : InternalOutgoingTransferTx) (w : W) s : State W :=
  add_event (EventWithdrawalReceived (bridge_hex (st_kv s)) (chain_id (st_kv s)) (tx_Id t))
    (put_tx t (bump_tx_id (tx_Id t) (upd_world (λ _, w) s))).

Lemma new_tx_wf id sender receiver c amount fee :
  u64_ok id → VerifyAddressFormat sender = Ok tt → eth_ok receiver → eth_ok c →
  0 ≤ amount → 0 ≤ fee → amount + fee < 2 ^ 256 →
  wf_tx (new_tx id sender receiver c amount fee).
Proof.
  intros Hid Hs Hr Hc Ha Hf Hsum. split; [|done].
  split_and!; try done; unfold token_ok, int_ok; simpl; rewrite Z.abs_eq by lia;
    split_and!; try done; lia.
Qed.

Lemma Coin_IsValid_nonneg c : Coin_IsValid c = true → 0 ≤ Amount c.
Proof. unfold Coin_IsValid. intros; zbool. done. Qed.

Lemma AddToOutgoingPool_run s n sender receiver amount fee :
  transfers_ok s → reg_ok (raw s) → has_params s → eth_ok receiver →
  raw s !! KeyLastTXPoolID = Some (UInt64Bytes n) → 0 ≤ n → n + 1 < two64 →
  AddToOutgoingPool sender receiver amount fee s =
  if send_refused sender receiver amount fee then Fail ErrInvalid s
  else if 2 ^ 256 <=? Amount amount + Amount fee then Panic "Coin.Add"
  else match ClassifyDenom (Denom amount) s with
  | Ret o _ =>
      match SendCoinsFromAccountToModule sender ModuleName
              [mkCoin (Denom amount) (Amount amount + Amount fee)] (st_world s) with
      | (Some e, w) => Fail e (upd_world (λ _, w) s)
      | (None, w) =>
          Ret (n + 1) (sent (new_tx (n + 1) sender receiver
                               (default (mkEthAddress []) (ao_ERC20 o))
                               (Amount amount) (Amount fee)) w s)
      end
  | Fail e _ => Fail e s
  | Panic msg => Panic msg
  end.
Proof.
  intros Hs Hreg Hpar Hr Hn Hn0 Hn1. unfold AddToOutgoingPool, send_refused.
  rewrite (EthAddress_ValidateBasic_ok receiver) by done. cbn [is_ok negb]. rewrite orb_false_r.
  destruct (VerifyAddressFormat sender) as [[]|] eqn:Hv; cbn [is_ok negb orb]; [|done].
  destruct (Coin_IsValid amount) eqn:Ha; [|done]. destruct (Coin_IsValid fee) eqn:Hf; [|done].
  cbn [negb orb]. destruct (bool_decide (Denom fee ≠ Denom amount)) eqn:Hd; [done|].
  apply bool_decide_eq_false in Hd.
  apply Coin_IsValid_nonneg in Ha, Hf.
  rewrite (bind_ret _ _ s tt s) by done.
  unfold Coin_Add. rewrite decide_True by (destruct (decide (Denom fee = Denom amount)); naive_solver).
  unfold Int_Add, int_check. rewrite Z.abs_eq by lia.
  destruct (Z.ltb_spec (Amount amount + Amount fee) (2 ^ 256)) as [Hlt|Hge].
  2:{ destruct (Z.leb_spec (2 ^ 256) (Amount amount + Amount fee)); [done|lia]. }
  destruct (Z.leb_spec (2 ^ 256) (Amount amount + Amount fee)); [lia|].
  rewrite (bind_ret _ _ s (mkCoin (Denom amount) (Amount amount + Amount fee)) s) by done.
  cbn [Denom]. unfold mbind at 1, M_bind at 1.
  pose proof (readonly_ClassifyDenom (W:=W) (Denom amount) s) as Hro.
  destruct (ClassifyDenom (Denom amount) s) as [o s1|e s1|msg] eqn:Hc; [subst s1|by subst|done].
  apply ClassifyDenom_inv in Hc as (_ & _ & _ & c & Hco & Hcok & _); [|done].
  rewrite Hco. cbn [default].
  unfold mbind at 1, M_bind at 1, call.
  destruct (SendCoinsFromAccountToModule _ _ _ _) as [[e|] w] eqn:Hsend; [done|].
  assert (u64_ok n) as Hnok by (split; lia).
  rewrite (bind_ret _ _ _ _ _ (autoIncrementID_eq (upd_world (λ _, w) s) _ n Hn Hnok)).
  rewrite (u64_small (n + 1)) by (split; lia).
  set (s1 := upd_kv _ (upd_world (λ _, w) s)).
  rewrite (bind_ret _ _ s1 c s1) by done.
  rewrite !NewInternalERC20Token_Hex by done.
  set (t := new_tx (n + 1) sender receiver c (Amount amount) (Amount fee)).
  assert (wf_tx t) as Hwf by (apply new_tx_wf; try done; split; lia).
  rewrite (bind_ret _ _ s1 (mkInternalERC20Token (Amount fee) c) s1) by done.
  rewrite (bind_ret _ _ s1 (mkInternalERC20Token (Amount amount) c) s1) by done.
  change (mkOutgoingTransferTx _ _ _ _ _) with (InternalOutgoingTransferTx_ToExternal t).
  rewrite tx_roundtrip by apply Hwf. rewrite (bind_ret _ _ s1 t s1) by done.
  assert (kv_pool (st_kv s1) !! tx_key t = None) as Hfresh.
  { apply (fresh_key t s n); try done; [apply Hwf|simpl; lia]. }
  unfold must at 1, mbind at 1, M_bind at 1. rewrite addUnbatchedTX_eq by apply Hwf.
  rewrite decide_False by (rewrite Hfresh; by intros []).
  destruct (bridge_event (λ bridge chain,
    _ ← emit (EventWithdrawalReceived (Hex (GetAddress bridge)) chain (n + 1));
    mret (n + 1)) (put_tx t s1)) as (a & Ha' & ->); [done|].
  rewrite Ha'. done.
Qed.

End Sending.

(** ** Cancelling *)

Section Cancelling.
Context {W : Type} `{GethLaws} `{SdkLaws} `{Bank W}.
Implicit Types s : State W.

Abbreviation pool s := (kv_pool (st_kv s)).

(** What a transfer locks: its amount and its fee. *)
Definition tx_total (t : InternalOutgoingTransferTx) : Z :=
  it_Amount (tx_Erc20Token t) + it_Amount (tx_Erc20Fee t).

Definition tx_contract (t : InternalOutgoingTransferTx) : EthAddress :=
  it_Contract (tx_Erc20Token t).

(** [sdk.NewCoins] of a refund drops a zero coin. *)
Definition refund_coins (denom : string) (t : InternalOutgoingTransferTx) : list Coin :=
  if tx_total t =? 0 then [] else [mkCoin denom (tx_total t)].

Lemma amount_of_refund d denom t :
  amount_of d (refund_coins denom t) = if decide (denom = d) then tx_total t else 0.
Proof.
  unfold refund_coins. destruct (Z.eqb_spec (tx_total t) 0) as [->|]; [by case_decide|].
  by rewrite amount_of_singleton.
Qed.

(** The state after a cancellation. *)
Definition canceled (t : InternalOutgoingTransferTx) (w : W) s : State W :=
  add_event (EventWithdrawCanceled (AccAddressString (tx_Sender t)) (tx_Id t)
               (bridge_hex (st_kv s)) (chain_id (st_kv s)))
    (upd_world (λ _, w) (drop_tx t s)).

Lemma drop_tx_gone t s : pool (drop_tx t s) !! tx_key t = None.
Proof. simpl. apply lookup_delete_eq. Qed.

Lemma Remove_refuses s id sender :
  transfers_ok s →
  Forall (λ t, tx_Id t = id → tx_Sender t ≠ sender) (pool_txs (pool s)) →
  ∃ e, (e = ErrInvalid ∨ e = ErrUnknown) ∧
    RemoveFromOutgoingPoolAndRefund id sender s = Fail e s.
Proof.
  intros Hs Hf. unfold RemoveFromOutgoingPoolAndRefund.
  destruct ((id <? 1) || negb (is_ok (VerifyAddressFormat sender))); [by exists ErrInvalid; eauto|].
  rewrite (bind_ret _ _ s tt s) by done. unfold mbind at 1, M_bind at 1.
  destruct (decide (Forall (λ t, tx_Id t ≠ id) (pool_txs (pool s)))) as [Hn|Hn].
  { exists ErrUnknown. split; [by right|]. by rewrite GetUnbatchedTxById_missing. }
  apply not_Forall_Exists, Exists_exists in Hn as (t & Ht & Hid); [|apply _].
  assert (tx_Id t = id) as <- by (destruct (decide (tx_Id t = id)); naive_solver).
  rewrite (GetUnbatchedTxById_found t) by done. exists ErrInvalid. split; [by left|].
  rewrite Forall_forall in Hf.
  rewrite (bool_decide_true (tx_Sender t ≠ sender)) by (by apply Hf). done.
Qed.

(** [RemoveFromOutgoingPoolAndRefund] refuses to cancel a transfer for
    anybody but its sender, and a transfer that is not in the pool (it is
    unknown, or already in a batch), and then changes nothing. *)
Theorem RemoveFromOutgoingPoolAndRefund_refuses s id sender :
  transfers_ok s →
  Forall (λ t, tx_Id t = id → tx_Sender t ≠ sender) (pool_txs (pool s)) →
  ∃ e, (e = ErrInvalid ∨ e = ErrUnknown) ∧
    RemoveFromOutgoingPoolAndRefund id sender s = Fail e s.
Proof. apply Remove_refuses. Qed.

(** Cancelling reads of the registry only how the transfer's token is classified. *)
Lemma Remove_refunds_classified s t :
  transfers_ok s → has_params s → t ∈ pool_txs (pool s) →
  ClassifyERC20 (tx_contract t) (drop_tx t s) =
    at_state (drop_tx t s) (ClassifyERC20 (tx_contract t) s) →
  RemoveFromOutgoingPoolAndRefund (tx_Id t) (tx_Sender t) s =
  match ClassifyERC20 (tx_contract t) s with
  | Panic msg => Panic msg
  | Fail e _ => Fail e (drop_tx t s)
  | Ret o _ =>
    if negb (ValidateDenom (ao_Denom o)) then Panic "NewCoin"
    else if 2 ^ 256 <=? tx_total t then Panic "Int.Add"
    else match SendCoinsFromModuleToAccount ModuleName (tx_Sender t)
                 (refund_coins (ao_Denom o) t) (st_world s) with
    | (Some e, w) => Fail e (upd_world (λ _, w) (drop_tx t s))
    | (None, w) => Ret tt (canceled t w s)
    end
  end.
Proof.
  intros Hs Hpar Ht Hcl. unfold RemoveFromOutgoingPoolAndRefund.
  pose proof Ht as [[Hok Hsame] Hk]%elem_of_pool_txs; [|apply Hs].
  assert (1 ≤ tx_Id t) as Hid.
  { destruct (tok_last_tx _ Hs) as (n & _ & _ & Hf). rewrite Forall_forall in Hf.
    apply Hf. unfold transfers. apply elem_of_app. by left. }
  rewrite (proj1 (proj2 Hok)). destruct (Z.ltb_spec (tx_Id t) 1); [lia|].
  rewrite (bind_ret _ _ s tt s) by done.
  rewrite (bind_ret _ _ s t s) by (by apply GetUnbatchedTxById_found).
  rewrite (bool_decide_false (tx_Sender t ≠ tx_Sender t)) by (by intros []).
  rewrite (bind_ret _ _ s tt s) by done.
  rewrite (bool_decide_false (it_Contract _ ≠ _)) by (by intros []).
  rewrite (bind_ret _ _ s tt s) by done.
  rewrite (bind_ret _ _ s (Ok tt) (drop_tx t s)).
  2:{ unfold try. rewrite removeUnbatchedTX_eq, decide_True by (by rewrite ?Hk). done. }
  rewrite (bind_ret _ _ (drop_tx t s) tt (drop_tx t s)) by done.
  rewrite (bind_ret _ _ (drop_tx t s) (Er ErrUnknown) (drop_tx t s)).
  2:{ unfold try. by rewrite GetUnbatchedTxByFeeAndId_none by (by rewrite ?drop_tx_gone). }
  rewrite (bind_ret _ _ (drop_tx t s) tt (drop_tx t s)) by done.
  unfold mbind at 1, M_bind at 1. fold (tx_contract t). rewrite Hcl.
  destruct (ClassifyERC20 (tx_contract t) s) as [o s1|e s1|msg]; cbn [at_state]; [|done..].
  destruct Hok as (_ & _ & _ & (Ha & _) & (Hf & _)).
  unfold NewCoin, Coin_IsValid. cbn [Denom Amount].
  destruct (Z.leb_spec 0 (it_Amount (tx_Erc20Token t))); [|lia]. rewrite andb_true_r.
  destruct (ValidateDenom (ao_Denom o)) eqn:Hvd; cbn [negb]; [|done].
  rewrite (bind_ret _ _ (drop_tx t s) (mkCoin (ao_Denom o) (it_Amount (tx_Erc20Token t)))
             (drop_tx t s)) by done.
  unfold Int_Add, int_check. cbn [Amount Denom]. fold (tx_total t).
  rewrite Z.abs_eq by (unfold tx_total; lia).
  destruct (Z.ltb_spec (tx_total t) (2 ^ 256)), (Z.leb_spec (2 ^ 256) (tx_total t)); try lia; [|done].
  rewrite (bind_ret _ _ (drop_tx t s) (tx_total t) (drop_tx t s)) by done.
  rewrite (bind_ret _ _ (drop_tx t s) (refund_coins (ao_Denom o) t) (drop_tx t s)).
  2:{ unfold NewCoins1, refund_coins, Coin_IsValid. cbn [Amount Denom].
      destruct (tx_total t =? 0); [done|]. rewrite Hvd.
      destruct (Z.leb_spec 0 (tx_total t)); [done|]. unfold tx_total in *. lia. }
  unfold mbind at 1, M_bind at 1, call. cbn [st_world drop_tx upd_kv].
  destruct (SendCoinsFromModuleToAccount _ _ _ _) as [[e|] w]; [done|].
  destruct (bridge_event (λ bridge chain, emit (EventWithdrawCanceled
    (AccAddressString (tx_Sender t)) (tx_Id t) (Hex (GetAddress bridge)) chain))
    (upd_world (λ _, w) (drop_tx t s))) as (a & Ha' & ->); [done|]. by rewrite Ha'.
Qed.

Lemma Remove_refunds s t :
  transfers_ok s → reg_ok (raw s) → has_params s → t ∈ pool_txs (pool s) →
  RemoveFromOutgoingPoolAndRefund (tx_Id t) (tx_Sender t) s =
  match ClassifyERC20 (tx_contract t) s with
  | Panic msg => Panic msg
  | Fail e _ => Fail e (drop_tx t s)
  | Ret o _ =>
    if negb (ValidateDenom (ao_Denom o)) then Panic "NewCoin"
    else if 2 ^ 256 <=? tx_total t then Panic "Int.Add"
    else match SendCoinsFromModuleToAccount ModuleName (tx_Sender t)
                 (refund_coins (ao_Denom o) t) (st_world s) with
    | (Some e, w) => Fail e (upd_world (λ _, w) (drop_tx t s))
    | (None, w) => Ret tt (canceled t w s)
    end
  end.
Proof.
  intros Hs Hreg Hpar Ht. apply Remove_refunds_classified; [done..|]. by apply ClassifyERC20_frame.
Qed.

(** C10. What cancelling does when the sender of a pooled transfer asks: the
    transfer leaves the pool, and its amount and its fee are paid back in full,
    to its sender, in the denom of its ERC20.  The errors of the classification
    and of the payment are passed on. *)
Theorem RemoveFromOutgoingPoolAndRefund_refunds s t :
  transfers_ok s → reg_ok (raw s) → has_params s → t ∈ pool_txs (pool s) →
  RemoveFromOutgoingPoolAndRefund (tx_Id t) (tx_Sender t) s =
  match ClassifyERC20 (tx_contract t) s with
  | Panic msg => Panic msg
  | Fail e _ => Fail e (drop_tx t s)
  | Ret o _ =>
    if negb (ValidateDenom (ao_Denom o)) then Panic "NewCoin"
    else if 2 ^ 256 <=? tx_total t then Panic "Int.Add"
    else match SendCoinsFromModuleToAccount ModuleName (tx_Sender t)
                 (refund_coins (ao_Denom o) t) (st_world s) with
    | (Some e, w) => Fail e (upd_world (λ _, w) (drop_tx t s))
    | (None, w) => Ret tt (canceled t w s)
    end
  end.
Proof. apply Remove_refunds. Qed.

(** ** What a send and a cancellation do to the transfers in flight *)

Lemma transfers_sent t w s :
  transfers_ok s → wf_tx t →
  (∃ n, raw s !! KeyLastTXPoolID = Some (UInt64Bytes n) ∧ u64_ok n ∧ tx_Id t = n + 1) →
  transfers_ok (sent t w s) ∧ transfers (sent t w s) ≡ₚ t :: transfers s ∧
  pool s !! tx_key t = None.
Proof.
  intros Hs Hwf (n & Hn & Hnok & Hid).
  assert (pool s !! tx_key t = None) as Hfresh.
  { apply (fresh_key t s n); try done; [apply Hwf|lia]. }
  split_and!; [|by apply (transfers_put t s); [apply Hwf|]|done].
  pose proof (add_tx_ok t s n Hs Hwf Hn Hnok Hid) as Hok. rewrite <- Hid in Hok.
  destruct Hok as [? ? ? ? ?]. by split.
Qed.

Lemma transfers_canceled t w s :
  transfers_ok s → t ∈ pool_txs (pool s) →
  transfers_ok (canceled t w s) ∧ transfers s ≡ₚ t :: transfers (canceled t w s).
Proof.
  intros Hs Ht. split.
  - destruct (drop_tx_ok t s Hs Ht). by split.
  - apply elem_of_pool_txs in Ht as [[Ht _] Hk]; [|apply Hs]. by apply transfers_drop.
Qed.

Lemma reg_same_sent t w s : reg_same (raw s) (raw (sent t w s)).
Proof. apply reg_same_insert, counter_not_registry_key. Qed.
End Cancelling.

(** ** Send and cancel *)

Section SendCancel.
Context {W : Type} `{GethLaws} `{SdkLaws} `{Bank W} `{!BankLaws W}.
Implicit Types s : State W.

Lemma AddToOutgoingPool_inv s s' n sender receiver amount fee id :
  transfers_ok s → reg_ok (raw s) → has_params s → eth_ok receiver →
  raw s !! KeyLastTXPoolID = Some (UInt64Bytes n) → 0 ≤ n → n + 1 < two64 →
  AddToOutgoingPool sender receiver amount fee s = Ret id s' →
  ∃ o c w, ClassifyDenom (Denom amount) s = Ret o s ∧ ao_ERC20 o = Some c ∧
    let t := new_tx id sender receiver c (Amount amount) (Amount fee) in
    id = n + 1 ∧ wf_tx t ∧ s' = sent t w s ∧ VerifyAddressFormat sender = Ok tt ∧
    SendCoinsFromAccountToModule sender ModuleName
      [mkCoin (Denom amount) (Amount amount + Amount fee)] (st_world s) = (None, w).
Proof.
  intros Hs Hreg Hpar Hr Hn Hn0 Hn1. rewrite (AddToOutgoingPool_run s n) by done.
  unfold send_refused.
  destruct (VerifyAddressFormat sender) as [[]|] eqn:Hv; cbn [is_ok negb orb]; [|done].
  destruct (Coin_IsValid amount) eqn:Ha; [|done]. destruct (Coin_IsValid fee) eqn:Hf; [|done].
  cbn [negb orb]. destruct (bool_decide _); [done|].
  apply Coin_IsValid_nonneg in Ha, Hf.
  destruct (Z.leb_spec (2 ^ 256) (Amount amount + Amount fee)); [done|].
  pose proof (readonly_ClassifyDenom (W:=W) (Denom amount) s) as Hro.
  destruct (ClassifyDenom (Denom amount) s) as [o s1|e s1|msg] eqn:Hc; [subst s1|done..].
  pose proof Hc as (_ & _ & _ & c & Hco & Hcok & _)%ClassifyDenom_inv; [|done].
  rewrite Hco. cbn [default].
  destruct (SendCoinsFromAccountToModule _ _ _ _) as [[e|] w] eqn:Hsend; [done|].
  intros [= <- <-]. exists o, c, w. split_and!; try done.
  apply new_tx_wf; try done. split; lia.
Qed.

Lemma moved_back (b1 b2 b3 : W) x y cs cs' :
  moved b1 b2 x y cs → moved b2 b3 y x cs' → (∀ d, amount_of d cs' = amount_of d cs) →
  ∀ a d, GetBalance b3 a d = GetBalance b1 a d.
Proof.
  intros (H1' & _) (H2' & _) E a d. rewrite H2', H1', !E. repeat case_decide; lia.
Qed.

(** Sending and then cancelling is a round trip: the pool is what it was
    before, and so is every balance of every account, provided the coins sent
    were the ones the bridge issues for their ERC20 (they are whenever the denom
    is Cosmos-originated or written in canonical case). *)
Theorem send_then_cancel s s1 s2 sender receiver amount fee id o c u n :
  transfers_ok s → reg_ok (raw s) → has_params s → eth_ok receiver →
  raw s !! KeyLastTXPoolID = Some (UInt64Bytes n) → 0 ≤ n → n + 1 < two64 →
  AddToOutgoingPool sender receiver amount fee s = Ret id s1 →
  ClassifyDenom (Denom amount) s = Ret o s → ao_ERC20 o = Some c →
  asset_denom (raw s) c = Denom amount →
  RemoveFromOutgoingPoolAndRefund id sender s1 = Ret u s2 →
  kv_pool (st_kv s2) = kv_pool (st_kv s) ∧
  ∀ a d, GetBalance (st_world s2) a d = GetBalance (st_world s) a d.
Proof.
  intros Hs Hreg Hpar Hr Hn Hn0 Hn1 Hadd Hc Hco Hden Hrem.
  apply (AddToOutgoingPool_inv s s1 n) in Hadd
    as (o' & c' & w & Hc' & Hco' & Hid & Hwf & -> & Hv & Hsend); [|done..].
  rewrite Hc in Hc'. injection Hc' as <-. rewrite Hco in Hco'. injection Hco' as <-.
  set (t := new_tx id sender receiver c (Amount amount) (Amount fee)) in *.
  destruct (transfers_sent t w s Hs Hwf) as (Hs1 & Hperm & Hfresh).
  { exists n. split_and!; [done|split; lia|exact Hid]. }
  assert (t ∈ pool_txs (kv_pool (st_kv (sent t w s)))) as Ht.
  { apply elem_of_pool_txs; [apply Hs1|]. split; [done|]. simpl. by rewrite lookup_insert_eq. }
  pose proof (reg_same_sent t w s) as Hsame.
  pose proof (reg_same_ok _ _ Hsame Hreg) as Hreg1.
  change id with (tx_Id t) in Hrem. change sender with (tx_Sender t) in Hrem.
  rewrite Remove_refunds in Hrem by done.
  destruct (ClassifyERC20 (tx_contract t) (sent t w s)) as [o2 s3|e s3|msg] eqn:Hcl; [|done..].
  apply ClassifyERC20_inv in Hcl as (_ & Hd2 & _); [|done].
  rewrite (asset_denom_same (raw s)) in Hd2 by done.
  change (tx_contract t) with c in Hd2. rewrite Hden in Hd2.
  destruct (negb _); [done|]. destruct (2 ^ 256 <=? tx_total t); [done|].
  destruct (SendCoinsFromModuleToAccount _ _ _ _) as [[e|] w2] eqn:Hback; [done|].
  injection Hrem as <- <-. split.
  - change (delete (tx_key t) (<[tx_key t := InternalOutgoingTransferTx_ToExternal t]>
      (kv_pool (st_kv s))) = kv_pool (st_kv s)). by apply delete_insert_id.
  - simpl. apply send_acc_mod in Hsend. apply send_mod_acc in Hback. rewrite Hd2 in Hback.
    apply (moved_back _ _ _ _ _ _ _ Hsend Hback). intros d.
    by rewrite amount_of_refund, amount_of_singleton.
Qed.
End SendCancel.
