(* ===== verification/BatchCorrect.v ===== *)
(** * Correctness of batches *)

From stdpp Require Import base gmap list strings sorting.
From S2P Require Import Prelude GoStd External Store Ethereum Keys OutgoingTx Valset Claims Keeper Registry Pool Batch Transfers PoolCorrect.

#[local] Open Scope Z_scope.

(** ** Picking transfers *)

Section Picking.
Context {W : Type} `{GethLaws} `{SdkLaws}.
Implicit Types s : State W.

Abbreviation pool s := (kv_pool (st_kv s)).

(** The transfers whose destination is not blacklisted. *)
Definition eligible (kv : KV) (l : list InternalOutgoingTransferTx)
    : list InternalOutgoingTransferTx :=
  filter (λ t, blacklisted kv (tx_DestAddress t) = false) l.

(** The transfers of [c] the next batch would hold: at most [max], by descending
    fee. *)
Definition picks (kv : KV) (c : EthAddress) (max : Z) : list InternalOutgoingTransferTx :=
  take (Z.to_nat max)
    (eligible kv (pool_list (kv_pool kv) (GetOutgoingTxPoolContractPrefix c))).

Definition drop_txs (ts : list InternalOutgoingTransferTx) s : State W :=
  foldl (λ s t, drop_tx t s) s ts.

Lemma pool_drop_txs ts s :
  pool (drop_txs ts s) = foldl (λ m t, delete (tx_key t) m) (pool s) ts.
Proof. revert s. induction ts as [|t ts IH]; intros s; [done|]. simpl. by rewrite IH. Qed.

Lemma drop_txs_frame ts s : drop_txs ts s = upd_kv (upd_pool (λ _, pool (drop_txs ts s))) s.
Proof.
  revert s. induction ts as [|t ts IH]; intros s.
  - by destruct s as [[] ? ? ?].
  - simpl. rewrite IH at 1. by destruct s as [[] ? ? ?].
Qed.

Lemma lookup_foldl_delete {V} (ks : list InternalOutgoingTransferTx) (m : gmap bytes V) k :
  k ∉ tx_key <$> ks → foldl (λ m t, delete (tx_key t) m) m ks !! k = m !! k.
Proof.
  revert m. induction ks as [|t ks IH]; intros m Hk; [done|]. simpl in *.
  apply not_elem_of_cons in Hk as [Hne Hk]. rewrite IH by done. by apply lookup_delete_ne.
Qed.

Lemma lookup_foldl_delete_in {V} (ks : list InternalOutgoingTransferTx) (m : gmap bytes V) k :
  k ∈ tx_key <$> ks → foldl (λ m t, delete (tx_key t) m) m ks !! k = None.
Proof.
  revert m. induction ks as [|t ks IH]; intros m Hk; [by apply not_elem_of_nil in Hk|]. simpl in *.
  destruct (decide (k ∈ tx_key <$> ks)) as [?|Hn]; [by apply IH|].
  apply elem_of_cons in Hk as [->|]; [|done]. rewrite lookup_foldl_delete by done.
  apply lookup_delete_eq.
Qed.

(** The loop of [pickUnbatchedTxs]. *)
Definition pick_body (max : Z) (tx : InternalOutgoingTransferTx)
    (selectedTxs : list InternalOutgoingTransferTx)
    : K W (list InternalOutgoingTransferTx * bool) :=
  black ← IsOnBlacklist (tx_DestAddress tx);
  if negb black then
    let selectedTxs := selectedTxs ++ [tx] in
    _ ← must "Failed to remote tx from unbatched queue"
          (removeUnbatchedTX (tx_Erc20Fee tx) (tx_Id tx));
    old ← try (GetUnbatchedTxByFeeAndId (tx_Erc20Fee tx) (tx_Id tx));
    _ ← guard_panic (is_ok old) "picked a duplicate transaction from the pool";
    mret (selectedTxs, Z.of_nat (length selectedTxs) =? max)
  else mret (selectedTxs, false).

Lemma pick_body_eq max t sel s :
  has_params s → tx_ok t → is_Some (pool s !! tx_key t) →
  pick_body max t sel s =
  if blacklisted (st_kv s) (tx_DestAddress t) then Ret (sel, false) s
  else Ret (sel ++ [t], Z.of_nat (length (sel ++ [t])) =? max) (drop_tx t s).
Proof.
  intros Hpar Hok Hin. unfold pick_body. mrun. rewrite IsOnBlacklist_eq by done.
  destruct (blacklisted (st_kv s) (tx_DestAddress t)); cbn [negb]; [done|].
  rewrite removeUnbatchedTX_eq, decide_True by done.
  by rewrite GetUnbatchedTxByFeeAndId_none by (done || apply drop_tx_gone).
Qed.

Lemma pick_loop max l sel s :
  has_params s → NoDup (tx_key <$> l) →
  Forall (λ t, tx_ok t ∧ is_Some (pool s !! tx_key t)) l → Z.of_nat (length sel) < max →
  for_acc l sel (pick_body max) s =
  let new := take (Z.to_nat max - length sel) (eligible (st_kv s) l) in
  Ret (sel ++ new) (drop_txs new s).
Proof.
  revert sel s. induction l as [|t l IH]; intros sel s Hpar Hnd Hf Hlen.
  { cbv zeta. unfold eligible. rewrite filter_nil, take_nil. by rewrite app_nil_r. }
  apply Forall_cons in Hf as [[Hok Hin] Hf]. simpl in Hnd. apply NoDup_cons in Hnd as [Hni Hnd].
  cbn [for_acc]. unfold mbind, M_bind. rewrite pick_body_eq by done.
  unfold eligible. rewrite filter_cons. fold (eligible (st_kv s) l).
  destruct (blacklisted (st_kv s) (tx_DestAddress t)) eqn:Eb.
  { rewrite decide_False by done. by apply IH. }
  rewrite decide_True by done.
  assert (Z.to_nat max - length sel = S (Z.to_nat max - length (sel ++ [t])))%nat as ->.
  { rewrite length_app. simpl. lia. }
  cbn [take]. rewrite length_app. cbn [length].
  destruct (Z.eqb_spec (Z.of_nat (length sel + 1)) max) as [E|E].
  - assert (Z.to_nat max - (length sel + 1) = 0)%nat as -> by lia. by rewrite take_0.
  - rewrite IH; [|done|done| |rewrite length_app; simpl; lia].
    + cbv zeta. rewrite length_app, <- app_assoc. done.
    + rewrite Forall_forall in Hf. apply Forall_forall. intros t' Ht'.
      destruct (Hf t' Ht') as [? Hs']. split; [done|]. simpl. rewrite lookup_delete_ne; [done|].
      intros E'. apply Hni. rewrite E'. by apply list_elem_of_fmap_2.
Qed.

Lemma pool_list_keys_NoDup m prefix :
  map_Forall pool_entry_ok m → NoDup (tx_key <$> pool_list m prefix).
Proof.
  intros Hm. pose proof (pool_list_sorted m prefix Hm) as Hs.
  induction Hs as [|t l Hl IH Ht]; constructor; [|done].
  intros (t' & E & Hin)%list_elem_of_fmap. rewrite Forall_forall in Ht.
  specialize (Ht _ Hin). rewrite E in Ht. by apply (irreflexivity bytes_lt) in Ht.
Qed.

Lemma pool_list_in_pool m prefix :
  map_Forall pool_entry_ok m →
  Forall (λ t, tx_ok t ∧ is_Some (m !! tx_key t)) (pool_list m prefix).
Proof.
  intros Hm. apply Forall_forall. intros t [Ht _]%elem_of_pool_list; [|done].
  apply elem_of_pool_txs in Ht as [[Hok _] Hk]; [|done]. by rewrite Hk.
Qed.

Lemma pickUnbatchedTxs_eq c max s :
  map_Forall pool_entry_ok (pool s) → has_params s → 0 < max →
  pickUnbatchedTxs c max s = Ret (picks (st_kv s) c max) (drop_txs (picks (st_kv s) c max) s).
Proof.
  intros Hm Hpar Hmax. unfold pickUnbatchedTxs, IterateUnbatchedTransactionsByContract.
  rewrite iterate_pool_eq by done. change (for_acc ?l ?a _ s) with (for_acc l a (pick_body max) s).
  rewrite pick_loop; [| |apply pool_list_keys_NoDup| |]; try done.
  - cbv zeta. by rewrite Nat.sub_0_r.
  - by apply pool_list_in_pool.
Qed.
End Picking.

(** ** Fees *)

Section Fees.
Context {W : Type} `{GethLaws} `{SdkLaws}.
Implicit Types s : State W.

Abbreviation pool s := (kv_pool (st_kv s)).

Definition fee_of (t : InternalOutgoingTransferTx) : Z := it_Amount (tx_Erc20Fee t).

Definition fee_body (c : EthAddress) (max : Z) (tx : InternalOutgoingTransferTx)
    (batchFee : BatchFees) : K W (BatchFees * bool) :=
  black ← IsOnBlacklist (tx_DestAddress tx);
  if negb black then
    let fee := tx_Erc20Fee tx in
    _ ← guard_panic (bool_decide (GetAddress (it_Contract fee) ≠ GetAddress c))
          "unexpected fee contract";
    total ← opt_panic "Int.Add" (Int_Add (bf_TotalFees batchFee) (it_Amount fee));
    let count := u64 (bf_TxCount batchFee + 1) in
    mret (mkBatchFees (bf_Token batchFee) total count, count =? max)
  else mret (batchFee, false).

Lemma fee_body_eq c max t bf s :
  has_params s → it_Contract (tx_Erc20Fee t) = c →
  0 ≤ bf_TotalFees bf + fee_of t < 2 ^ 256 → u64_ok (bf_TxCount bf + 1) →
  fee_body c max t bf s =
  if blacklisted (st_kv s) (tx_DestAddress t) then Ret (bf, false) s
  else Ret (mkBatchFees (bf_Token bf) (bf_TotalFees bf + fee_of t) (bf_TxCount bf + 1),
            bf_TxCount bf + 1 =? max) s.
Proof.
  intros Hpar Hc Hsum Hcnt. unfold fee_body. mrun. rewrite IsOnBlacklist_eq by done.
  destruct (blacklisted (st_kv s) (tx_DestAddress t)); cbn [negb]; [done|].
  rewrite bool_decide_false by (rewrite Hc; by intros []). fold (fee_of t).
  unfold Int_Add. rewrite int_check_ok by (unfold int_ok; rewrite Z.abs_eq; lia).
  by rewrite (u64_small (bf_TxCount bf + 1)).
Qed.

Lemma fee_loop c max l bf s :
  has_params s → 0 ≤ bf_TotalFees bf → 0 ≤ bf_TxCount bf < max → max < two64 →
  Forall (λ t, it_Contract (tx_Erc20Fee t) = c ∧ 0 ≤ fee_of t) l →
  bf_TotalFees bf + sumZ fee_of l < 2 ^ 256 →
  for_acc l bf (fee_body c max) s =
  let new := take (Z.to_nat (max - bf_TxCount bf)) (eligible (st_kv s) l) in
  Ret (mkBatchFees (bf_Token bf) (bf_TotalFees bf + sumZ fee_of new)
         (bf_TxCount bf + Z.of_nat (length new))) s.
Proof.
  intros Hpar. revert bf. induction l as [|t l IH]; intros [tok tot cnt] Htot Hcnt Hmax Hf Hsum;
    cbn [bf_TotalFees bf_TxCount bf_Token] in *.
  { cbv zeta. unfold eligible. rewrite filter_nil, take_nil. simpl.
    by rewrite !Z.add_0_r. }
  apply Forall_cons in Hf as [[Hc Hfee] Hf]. cbn [sumZ foldr] in Hsum. fold (sumZ fee_of l) in Hsum.
  assert (0 ≤ sumZ fee_of l) as Hge.
  { apply sumZ_nonneg. eapply Forall_impl; [exact Hf|]. by intros ? []. }
  cbn [for_acc]. unfold mbind, M_bind.
  rewrite fee_body_eq; cbn [bf_TotalFees bf_TxCount bf_Token]; [|done|done|lia|split; lia].
  unfold eligible. rewrite filter_cons. fold (eligible (st_kv s) l).
  destruct (blacklisted (st_kv s) (tx_DestAddress t)) eqn:Eb.
  { rewrite decide_False by done. apply IH; simpl; try done; lia. }
  rewrite decide_True by done. cbv zeta.
  replace (Z.to_nat (max - cnt)) with (S (Z.to_nat (max - (cnt + 1)))) by lia.
  cbn [take sumZ foldr length]. fold (sumZ fee_of (take (Z.to_nat (max - (cnt + 1))) (eligible (st_kv s) l))).
  destruct (Z.eqb_spec (cnt + 1) max) as [E|E].
  - replace (Z.to_nat (max - (cnt + 1))) with 0%nat by lia. rewrite take_0. simpl.
    mrun. do 2 f_equal; lia.
  - rewrite IH; cbn [bf_TotalFees bf_TxCount bf_Token]; try done; try lia.
    cbv zeta. do 2 f_equal; lia.
Qed.

(** The fees of a batch of [c] if it were built now. *)
Lemma GetBatchFeeByTokenType_eq c max s :
  map_Forall pool_entry_ok (pool s) → has_params s → eth_ok c → 0 < max → max < two64 →
  sumZ fee_of (pool_list (pool s) (GetOutgoingTxPoolContractPrefix c)) < 2 ^ 256 →
  GetBatchFeeByTokenType c max s =
  Ret (mkBatchFees (Hex (GetAddress c)) (sumZ fee_of (picks (st_kv s) c max))
         (Z.of_nat (length (picks (st_kv s) c max)))) s.
Proof.
  intros Hm Hpar Hc Hmax Hmax' Hsum.
  unfold GetBatchFeeByTokenType, IterateUnbatchedTransactionsByContract.
  rewrite iterate_pool_eq by done.
  change (for_acc ?l ?a _ s) with (for_acc l a (fee_body c max) s).
  rewrite fee_loop; cbn [bf_TotalFees bf_TxCount bf_Token]; try done; try lia.
  - cbv zeta. by rewrite Z.sub_0_r, !Z.add_0_l.
  - apply Forall_forall. intros t [Ht Hct]%pool_list_contract; [|done..]. split; [done|].
    apply elem_of_pool_txs in Ht as [[Ht _] _]; [|done]. apply Ht.
Qed.

Lemma GetFees_eq b :
  wf_batch b → sumZ fee_of (ib_Transactions b) < 2 ^ 256 →
  GetFees (InternalOutgoingTxBatch_ToExternal b) = Some (sumZ fee_of (ib_Transactions b)).
Proof.
  intros (_ & _ & Hf). unfold GetFees. simpl.
  assert (∀ acc, 0 ≤ acc → acc + sumZ fee_of (ib_Transactions b) < 2 ^ 256 →
    foldl (λ sum t, sum ≫= λ x, Int_Add x (et_Amount (ot_Erc20Fee t))) (Some acc)
      (InternalOutgoingTransferTx_ToExternal <$> ib_Transactions b) =
    Some (acc + sumZ fee_of (ib_Transactions b))) as Hgen; [|intros; by rewrite Hgen by lia].
  induction Hf as [|t l [[Ht _] _] Hl IH]; intros acc Hacc Hsum.
  - simpl. by rewrite Z.add_0_r.
  - cbn [sumZ foldr] in *. fold (sumZ fee_of l) in *.
    assert (0 ≤ fee_of t) by apply Ht.
    assert (0 ≤ sumZ fee_of l).
    { apply sumZ_nonneg. eapply Forall_impl; [exact Hl|]. intros x [[Hx _] _]. apply Hx. }
    csimpl. fold (fee_of t). unfold Int_Add at 2, int_check. rewrite Z.abs_eq by lia.
    destruct (Z.ltb_spec (acc + fee_of t) (2 ^ 256)); [|lia].
    rewrite IH by lia. f_equal. lia.
Qed.
End Fees.

(** ** The stored batches *)

Section Stored.
Context {W : Type} `{GethLaws} `{SdkLaws}.
Implicit Types s : State W.

Abbreviation batches s := (kv_batches (st_kv s)).

Definition batch_key (b : InternalOutgoingTxBatch) : bytes :=
  GetOutgoingTxBatchKey (ib_TokenContract b) (ib_BatchNonce b).

Lemma batch_key_wf_inj b1 b2 :
  wf_batch b1 → wf_batch b2 → batch_key b1 = batch_key b2 →
  ib_TokenContract b1 = ib_TokenContract b2 ∧ ib_BatchNonce b1 = ib_BatchNonce b2.
Proof.
  intros (Hn1 & [Hc1 _] & _) (Hn2 & [Hc2 _] & _) E.
  by apply batch_key_inj in E; [|rewrite Hc1, Hc2|..].
Qed.

Definition parse_batch1 (e : OutgoingTxBatch) : list InternalOutgoingTxBatch :=
  match OutgoingTxBatch_ToInternal e with Ok b => [b] | Er _ => [] end.

Lemma parse_batch1_ext b :
  wf_batch b → parse_batch1 (InternalOutgoingTxBatch_ToExternal b) = [b].
Proof. intros Hb%wf_batch_ok. unfold parse_batch1. by rewrite batch_roundtrip. Qed.

(** The stored batches, in iteration order. *)
Definition batch_list (m : gmap bytes OutgoingTxBatch) : list InternalOutgoingTxBatch :=
  iter_desc m (None, None) ≫= λ kv, parse_batch1 kv.2.

Lemma elem_of_batch_list m b :
  map_Forall batch_entry_ok m →
  b ∈ batch_list m ↔
  wf_batch b ∧ m !! batch_key b = Some (InternalOutgoingTxBatch_ToExternal b).
Proof.
  intros Hm. unfold batch_list. rewrite list_elem_of_bind. split.
  - intros ([k e] & Hb & [Hk _]%elem_of_iter_desc). simpl in Hb.
    destruct (Hm k e Hk) as (b' & Hwf & -> & ->). rewrite parse_batch1_ext in Hb by done.
    by apply list_elem_of_singleton in Hb as ->.
  - intros [Hwf Hk]. exists (batch_key b, InternalOutgoingTxBatch_ToExternal b).
    rewrite elem_of_iter_desc. split; [|done]. simpl. rewrite parse_batch1_ext by done.
    by apply list_elem_of_singleton.
Qed.

Lemma for_acc_parsed_batches {B} (l : list (bytes * OutgoingTxBatch)) (acc : B)
    (cb : InternalOutgoingTxBatch → B → K W (B * bool)) msg s :
  Forall (λ kv, batch_entry_ok kv.1 kv.2) l →
  for_acc l acc (λ kv acc,
    b ← or_panic msg (OutgoingTxBatch_ToInternal kv.2); cb b acc) s =
  for_acc (l ≫= λ kv, parse_batch1 kv.2) acc cb s.
Proof.
  intros Hl. revert acc s. induction Hl as [|[k e] l Hk Hl IH]; intros acc s; [done|].
  simpl in Hk. destruct Hk as (b & Hwf & -> & ->).
  cbn [for_acc mbind list_bind fst snd]. rewrite parse_batch1_ext by done. cbn [app for_acc].
  rewrite batch_roundtrip by (by apply wf_batch_ok).
  cbn [or_panic]. unfold mbind, M_bind, mret, M_ret.
  destruct (cb b acc s) as [[acc' []] s'|e s'|m]; [done| |done..]. apply IH.
Qed.

Lemma iterate_batches_eq {B} (acc : B) cb s :
  map_Forall batch_entry_ok (batches s) →
  IterateOutgoingTxBatches acc cb s = for_acc (batch_list (batches s)) acc cb s.
Proof.
  intros Hm. unfold IterateOutgoingTxBatches, mbind at 1, M_bind, gets.
  apply for_acc_parsed_batches. by apply iter_desc_entries_ok.
Qed.

Lemma GetOutgoingTxBatches_eq s :
  map_Forall batch_entry_ok (batches s) →
  GetOutgoingTxBatches s = Ret (batch_list (batches s)) s.
Proof.
  intros Hm. unfold GetOutgoingTxBatches. rewrite iterate_batches_eq by done.
  by rewrite (for_acc_collect (batch_list (batches s)) []).
Qed.

(** The stored batch of [c] with the greatest nonce. *)
Definition newest_batch (kv : KV) (c : EthAddress) : option InternalOutgoingTxBatch :=
  (last_batch c (batch_list (kv_batches kv))).1.

Lemma last_batch_spec c l :
  Forall (λ b, 1 ≤ ib_BatchNonce b) l →
  0 ≤ (last_batch c l).2 ∧
  match (last_batch c l).1 with
  | Some b => b ∈ l ∧ ib_TokenContract b = c ∧ ib_BatchNonce b = (last_batch c l).2 ∧
      Forall (λ b', ib_TokenContract b' = c → ib_BatchNonce b' ≤ ib_BatchNonce b) l
  | None => (last_batch c l).2 = 0 ∧ Forall (λ b, ib_TokenContract b ≠ c) l
  end.
Proof.
  induction l as [|b l IH] using rev_ind; intros Hf; [done|].
  apply Forall_app in Hf as [Hf [Hb _]%Forall_cons]. specialize (IH Hf).
  unfold last_batch in *. rewrite foldl_snoc.
  destruct (foldl _ _ l) as [lb ln]. cbn [fst snd] in IH. destruct IH as [Hln IH].
  destruct (decide (ib_TokenContract b = c)) as [Hc|Hc].
  - rewrite bool_decide_true by congruence. cbn [andb].
    destruct (Z.ltb_spec ln (ib_BatchNonce b)) as [Hlt|Hge]; cbn [fst snd].
    + split; [lia|]. split_and!; [apply elem_of_app; right; left|done|done|].
      apply Forall_app. split; [|by repeat constructor].
      destruct lb as [lb|].
      * destruct IH as (_ & _ & E & IH). eapply Forall_impl; [exact IH|].
        intros x Hx Hxc. specialize (Hx Hxc). lia.
      * destruct IH as [_ IH]. eapply Forall_impl; [exact IH|]. naive_solver.
    + split; [done|]. destruct lb as [lb|].
      * destruct IH as (Hin & Hlc & E & IH). split_and!; [apply elem_of_app; by left|done..|].
        apply Forall_app. split; [done|]. repeat constructor. lia.
      * destruct IH as [E _]. lia.
  - rewrite bool_decide_false by (destruct b as [? ? ? [] ?], c; simpl in *; congruence).
    cbn [andb fst snd]. split; [done|]. destruct lb as [lb|].
    + destruct IH as (Hin & Hlc & E & IH). split_and!; [apply elem_of_app; by left|done..|].
      apply Forall_app. split; [done|]. by repeat constructor.
    + destruct IH as [E IH]. split; [done|]. apply Forall_app. split; [done|]. by repeat constructor.
Qed.

Lemma batch_list_nonces s :
  transfers_ok s → Forall (λ b, 1 ≤ ib_BatchNonce b) (batch_list (batches s)).
Proof.
  intros Hs. apply Forall_forall. intros b [_ Hk]%elem_of_batch_list; [|apply Hs].
  destruct (tok_last_batch _ Hs) as (n & _ & _ & Hf). by apply (Hf _ _ Hk).
Qed.

Lemma newest_batch_some s c b :
  transfers_ok s → newest_batch (st_kv s) c = Some b →
  b ∈ batch_list (batches s) ∧ ib_TokenContract b = c ∧
  ∀ b', b' ∈ batch_list (batches s) → ib_TokenContract b' = c → ib_BatchNonce b' ≤ ib_BatchNonce b.
Proof.
  intros Hs E. unfold newest_batch in E.
  destruct (last_batch_spec c _ (batch_list_nonces s Hs)) as [_ Hl]. rewrite E in Hl.
  destruct Hl as (Hin & Hc & _ & Hf). rewrite Forall_forall in Hf. eauto.
Qed.

Lemma newest_batch_none s c b :
  transfers_ok s → newest_batch (st_kv s) c = None → b ∈ batch_list (batches s) →
  ib_TokenContract b ≠ c.
Proof.
  intros Hs E Hb. unfold newest_batch in E.
  destruct (last_batch_spec c _ (batch_list_nonces s Hs)) as [_ Hl]. rewrite E in Hl.
  destruct Hl as [_ Hf]. rewrite Forall_forall in Hf. by apply Hf.
Qed.
End Stored.

(** ** Building a batch *)

Section Building.
Context {W : Type} `{GethLaws} `{SdkLaws} `{EthAbi}.
Implicit Types s : State W.

Abbreviation pool s := (kv_pool (st_kv s)).
Abbreviation batches s := (kv_batches (st_kv s)).

Definition put_batch (b : InternalOutgoingTxBatch) s : State W :=
  upd_kv (upd_batches (insert (batch_key b) (InternalOutgoingTxBatch_ToExternal b))) s.
Definition bump_batch_id (n : Z) s : State W :=
  upd_kv (upd_raw (insert KeyLastOutgoingBatchID (UInt64Bytes n))) s.

(** The batch that [BuildOutgoingTXBatch] makes of the transfers it picks. *)
Definition next_batch s (c : EthAddress) (max nonce timeout : Z) : InternalOutgoingTxBatch :=
  mkInternalOutgoingTxBatch nonce timeout (picks (st_kv s) c max) c (u64 (st_height s)).

Definition timeout_of s (p : Params) : option Z :=
  batch_timeout p (u64 (st_height s)) (default (mkEthHeight 0 0) (kv_ethHeight (st_kv s))).

(** The state after a batch was built: its transfers left the pool, it is
    stored, and its checkpoint is recorded as one the chain has made. *)
Definition built (b : InternalOutgoingTxBatch) (checkpoint : bytes) s : State W :=
  add_event (EventOutgoingBatch (bridge_hex (st_kv s)) (chain_id (st_kv s)) (batch_key b)
               (ib_BatchNonce b))
    (upd_kv (upd_raw (insert (GetPastEthSignatureCheckpointKey checkpoint) [1]))
      (put_batch b (bump_batch_id (ib_BatchNonce b) (drop_txs (ib_Transactions b) s)))).

(** Building is not worth it: the newest batch of the token already pays as much. *)
Definition unprofitable s (c : EthAddress) (max : Z) : bool :=
  match newest_batch (st_kv s) c with
  | None => false
  | Some last => sumZ fee_of (picks (st_kv s) c max) <=? sumZ fee_of (ib_Transactions last)
  end.

Lemma picks_in_pool s c max t :
  map_Forall pool_entry_ok (pool s) → eth_ok c → t ∈ picks (st_kv s) c max →
  t ∈ pool_txs (pool s) ∧ wf_tx t ∧ it_Contract (tx_Erc20Token t) = c ∧
  blacklisted (st_kv s) (tx_DestAddress t) = false.
Proof.
  intros Hm Hc Ht. unfold picks in Ht.
  eapply elem_of_submseteq in Ht; [|apply sublist_submseteq, sublist_take].
  apply list_elem_of_filter in Ht as [Hb [Ht E]%pool_list_contract]; [|done..].
  pose proof Ht as [Hwf _]%elem_of_pool_txs; [|done].
  split_and!; [done..| |done]. rewrite <- E. symmetry. apply Hwf.
Qed.

Lemma picks_NoDup s c max :
  map_Forall pool_entry_ok (pool s) → NoDup (picks (st_kv s) c max).
Proof.
  intros Hm. eapply sublist_NoDup; [|apply sublist_take].
  eapply sublist_NoDup; [|apply sublist_filter]. by apply pool_list_NoDup.
Qed.

Lemma next_batch_wf s c max nonce timeout :
  map_Forall pool_entry_ok (pool s) → eth_ok c → u64_ok nonce →
  wf_batch (next_batch s c max nonce timeout).
Proof.
  intros Hm Hc Hn. split_and!; [done..|]. apply Forall_forall. intros t Ht.
  apply picks_in_pool in Ht as (_ & ? & ? & _); done.
Qed.

(** The transfers in flight of one token. *)
Definition token_transfers s (c : EthAddress) : list InternalOutgoingTransferTx :=
  filter (λ t, tx_contract t = c) (transfers s).

Lemma fees_bounded s c l :
  transfers_ok s → sumZ fee_of (token_transfers s c) < 2 ^ 256 → l ⊆+ token_transfers s c →
  sumZ fee_of l < 2 ^ 256.
Proof.
  intros Hs Hsum [k Hk]%submseteq_Permutation. rewrite Hk, sumZ_app in Hsum.
  assert (0 ≤ sumZ fee_of k); [|lia]. apply sumZ_nonneg, Forall_forall. intros t Ht.
  assert (t ∈ token_transfers s c) as [_ Hin]%list_elem_of_filter
    by (rewrite Hk; apply elem_of_app; by right).
  pose proof (transfers_wf s Hs) as Hf. rewrite Forall_forall in Hf.
  destruct (Hf t Hin) as [Hok _]. apply Hok.
Qed.

Lemma batch_in_transfers s b :
  transfers_ok s → b ∈ batch_list (batches s) →
  ib_Transactions b ⊆+ token_transfers s (ib_TokenContract b).
Proof.
  intros Hs [Hwf Hk]%elem_of_batch_list; [|apply Hs]. unfold token_transfers, transfers.
  rewrite (batch_txs_delete _ _ _ Hk), parse_batch_ext, !filter_app by done.
  apply submseteq_inserts_l, submseteq_inserts_r.
  destruct Hwf as (_ & _ & Hf). rewrite list_filter_all; [done|].
  eapply Forall_impl; [exact Hf|]. by intros t [].
Qed.

Lemma pool_list_in_transfers s c :
  transfers_ok s → eth_ok c →
  pool_list (pool s) (GetOutgoingTxPoolContractPrefix c) ⊆+ token_transfers s c.
Proof.
  intros Hs Hc. apply NoDup_submseteq; [apply pool_list_NoDup, Hs|].
  intros t [Ht E]%pool_list_contract; [|apply Hs|done]. apply list_elem_of_filter. split.
  - apply elem_of_pool_txs in Ht as [[_ E'] _]; [|apply Hs]. unfold tx_contract. congruence.
  - unfold transfers. apply elem_of_app. by left.
Qed.

(** The check against the newest batch. *)
Lemma profit_check_eq s c max :
  transfers_ok s → has_params s → eth_ok c → 0 < max → max < two64 →
  sumZ fee_of (token_transfers s c) < 2 ^ 256 →
  (lastBatch ← GetLastOutgoingBatchByTokenType c;
   match lastBatch with
   | None => mret tt
   | Some last =>
       currentFees ← GetBatchFeeByTokenType c max;
       lastFees ← opt_panic "Int.Add" (GetFees (InternalOutgoingTxBatch_ToExternal last));
       guard_err (bf_TotalFees currentFees <=? lastFees) ErrInvalid
   end) s = if unprofitable s c max then Fail ErrInvalid s else Ret tt s.
Proof.
  intros Hs Hpar Hc Hmax Hmax' Hsum. unfold GetLastOutgoingBatchByTokenType. mrun.
  rewrite GetOutgoingTxBatches_eq by apply Hs. fold (newest_batch (st_kv s) c).
  unfold unprofitable. destruct (newest_batch (st_kv s) c) as [b|] eqn:Eb; [|done].
  apply newest_batch_some in Eb as (Hb & <- & _); [|done].
  rewrite GetBatchFeeByTokenType_eq; try done; [|apply Hs|].
  2:{ eapply fees_bounded; [done..|]. by apply pool_list_in_transfers. }
  pose proof Hb as [Hwf _]%elem_of_batch_list; [|apply Hs].
  rewrite GetFees_eq; [|done|by eapply fees_bounded; [..|apply batch_in_transfers]].
  unfold opt_panic. mrun. cbn [bf_TotalFees]. by destruct (_ <=? _).
Qed.

Lemma StoreBatch_eq b s :
  wf_batch b → batches s !! batch_key b = None → StoreBatch b s = Ret tt (put_batch b s).
Proof.
  intros Hwf Hn. unfold StoreBatch. rewrite batch_ValidateBasic_ok by (by apply wf_batch_ok).
  mrun. fold (batch_key b). rewrite Hn. done.
Qed.

Lemma RequireBridgeActive_eq s p :
  kv_params (st_kv s) = Some p →
  RequireBridgeActive s = if p_BridgeActive p then Ret tt s else Fail ErrInvalid s.
Proof.
  intros Hp. unfold RequireBridgeActive. rewrite (bind_ret _ _ _ _ _ (GetParams_eq s p Hp)).
  by destruct (p_BridgeActive p).
Qed.

(** The nonce of the next batch is free. *)
Lemma fresh_batch_key s b n :
  transfers_ok s → wf_batch b → raw s !! KeyLastOutgoingBatchID = Some (UInt64Bytes n) →
  u64_ok n → n < ib_BatchNonce b → batches s !! batch_key b = None.
Proof.
  intros Hs Hwf Hn Hnok Hlt. apply eq_None_not_Some. intros [e He].
  destruct (tok_last_batch _ Hs) as (n' & Hn' & Hn'ok & Hf).
  assert (n' = n) as ->. { apply UInt64Bytes_inj; [done..|congruence]. }
  specialize (Hf _ _ He). destruct (tok_batches _ Hs _ _ He) as (b' & Hwf' & -> & Hk).
  apply batch_key_wf_inj in Hk as [_ Hk]; [|done..]. simpl in Hf. lia.
Qed.

Lemma getBatchTimeoutHeight_eq s p :
  kv_params (st_kv s) = Some p →
  getBatchTimeoutHeight s =
  match timeout_of s p with Some t => Ret t s | None => Panic "integer divide by zero" end.
Proof.
  intros Hp. unfold getBatchTimeoutHeight. mrun. rewrite (GetParams_eq s p) by done.
  unfold BlockHeight, GetLastObservedEthereumBlockHeight. mrun. fold (timeout_of s p).
  by destruct (timeout_of s p).
Qed.

(** Storing the batch and recording its checkpoint. *)
Lemma store_and_record s p b m :
  kv_params (st_kv s) = Some p → params_ok p → wf_batch b → batches s !! batch_key b = None →
  ib_BatchNonce b = m →
  (_ ← StoreBatch b;
   gravityID ← GetGravityID;
   checkpoint ← opt_panic "GetCheckpoint" (InternalOutgoingTxBatch_GetCheckpoint gravityID b);
   _ ← SetPastEthSignatureCheckpoint checkpoint;
   bridge ← GetBridgeContractAddress;
   chain ← GetBridgeChainID;
   _ ← emit (EventOutgoingBatch (Hex (GetAddress bridge)) chain
               (GetOutgoingTxBatchKey (ib_TokenContract b) m) m);
   mret b) s =
  match InternalOutgoingTxBatch_GetCheckpoint (p_GravityId p) b with
  | None => Panic "GetCheckpoint"
  | Some checkpoint => Ret b
      (add_event (EventOutgoingBatch (bridge_hex (st_kv s)) (chain_id (st_kv s)) (batch_key b) m)
        (upd_kv (upd_raw (insert (GetPastEthSignatureCheckpointKey checkpoint) [1]))
          (put_batch b s)))
  end.
Proof.
  intros Hp Hpok Hwf Hn <-. rewrite (bind_ret _ _ _ _ _ (StoreBatch_eq b s Hwf Hn)).
  rewrite (bind_ret _ _ (put_batch b s) (p_GravityId p) (put_batch b s)).
  2:{ unfold GetGravityID. mrun. by rewrite (GetParams_eq (put_batch b s) p). }
  destruct (InternalOutgoingTxBatch_GetCheckpoint (p_GravityId p) b) as [cp|]; [|done].
  rewrite (bind_ret _ _ (put_batch b s) cp (put_batch b s)) by done.
  set (s1 := upd_kv (upd_raw (insert (GetPastEthSignatureCheckpointKey cp) [1])) (put_batch b s)).
  rewrite (bind_ret _ _ _ tt s1) by done.
  destruct (bridge_event (λ bridge chain,
    _ ← emit (EventOutgoingBatch (Hex (GetAddress bridge)) chain
               (GetOutgoingTxBatchKey (ib_TokenContract b) (ib_BatchNonce b)) (ib_BatchNonce b));
    mret b) s1) as (a & Ha & ->); [by exists p|]. by rewrite Ha.
Qed.

Lemma BuildOutgoingTXBatch_run s p c max m :
  transfers_ok s → kv_params (st_kv s) = Some p → params_ok p → eth_ok c →
  raw s !! KeyLastOutgoingBatchID = Some (UInt64Bytes m) → 0 ≤ m → m + 1 < two64 →
  0 ≤ max < two64 → sumZ fee_of (token_transfers s c) < 2 ^ 256 →
  BuildOutgoingTXBatch c max s =
  if (max =? 0) || negb (p_BridgeActive p) || unprofitable s c max ||
     bool_decide (picks (st_kv s) c max = [])
  then Fail ErrInvalid s
  else match timeout_of s p with
  | None => Panic "integer divide by zero"
  | Some timeout =>
      let b := next_batch s c max (m + 1) timeout in
      match InternalOutgoingTxBatch_GetCheckpoint (p_GravityId p) b with
      | None => Panic "GetCheckpoint"
      | Some checkpoint => Ret b (built b checkpoint s)
      end
  end.
Proof.
  intros Hs Hp Hpok Hc Hm Hm0 Hm1 Hmax Hsum.
  assert (has_params s) as Hpar by (by exists p).
  unfold BuildOutgoingTXBatch. destruct (Z.eqb_spec max 0) as [|Hmax0]; [done|].
  rewrite (bind_ret _ _ s tt s) by done. cbn [orb].
  unfold mbind at 1, M_bind at 1. rewrite (RequireBridgeActive_eq s p) by done.
  destruct (p_BridgeActive p); cbn [negb orb]; [|done]. rewrite bind_assoc.
  unfold mbind at 1, M_bind at 1. rewrite profit_check_eq by (done || lia).
  destruct (unprofitable s c max); [done|]. cbn [orb].
  rewrite (bind_ret _ _ _ _ _ (pickUnbatchedTxs_eq c max s (tok_pool _ Hs) Hpar ltac:(lia))).
  set (ts := picks (st_kv s) c max).
  destruct (bool_decide (ts = [])) eqn:Ets; [apply bool_decide_eq_true in Ets; by rewrite Ets|].
  set (s1 := drop_txs ts s). rewrite (bind_ret _ _ s1 tt s1) by done.
  pose proof (drop_txs_frame ts s) as Hfr. fold s1 in Hfr.
  assert (u64_ok (m + 1)) as Hm1ok by (split; lia).
  rewrite (bind_ret _ _ s1 (m + 1) (bump_batch_id (m + 1) s1)).
  2:{ rewrite (autoIncrementID_eq s1 _ m); [by rewrite u64_small|by rewrite Hfr|split; lia]. }
  set (s2 := bump_batch_id (m + 1) s1). unfold mbind at 1, M_bind at 1.
  rewrite (getBatchTimeoutHeight_eq s2 p) by (subst s2; by rewrite Hfr).
  replace (timeout_of s2 p) with (timeout_of s p) by (subst s2; by rewrite Hfr).
  destruct (timeout_of s p) as [timeout|]; [|done]. cbv zeta.
  set (b := next_batch s c max (m + 1) timeout).
  assert (wf_batch b) as Hwf by (apply next_batch_wf; [apply Hs|done..]).
  set (b0 := mkInternalOutgoingTxBatch (m + 1) timeout ts c 0).
  rewrite (bind_ret _ _ s2 b0 s2).
  2:{ unfold NewInternalOutgingTxBatch. fold b0. by rewrite batch_ValidateBasic_ok by (by apply wf_batch_ok). }
  rewrite (bind_ret _ _ s2 (u64 (st_height s)) s2) by (subst s2; unfold BlockHeight; mrun; by rewrite Hfr).
  change (mkInternalOutgoingTxBatch _ _ _ _ (u64 (st_height s))) with b.
  change (GetOutgoingTxBatchKey c (m + 1)) with
    (GetOutgoingTxBatchKey (ib_TokenContract b) (m + 1)).
  rewrite (store_and_record s2 p b (m + 1)); try done.
  - unfold built. fold ts s1. change (ib_Transactions b) with ts. fold s1.
    subst s2. by rewrite Hfr.
  - subst s2. by rewrite Hfr.
  - subst s2. rewrite Hfr. apply (fresh_batch_key s b m); try done; [split; lia|simpl; lia].
Qed.

(** C6. [BuildOutgoingTXBatch] on every branch.  It refuses a batch of size
    zero, a paused bridge, a batch that would not pay relayers strictly more than
    the newest batch of the token, and an empty batch, and then changes nothing;
    otherwise it stores a batch with the next nonce that holds the transfers that
    pay most ([picks]), removes exactly these from the pool, and records the
    batch's checkpoint.  It panics only when the timeout cannot be computed
    (average Ethereum block time zero) or the checkpoint cannot be encoded. *)
Theorem BuildOutgoingTXBatch_spec s p c max m :
  transfers_ok s → kv_params (st_kv s) = Some p → params_ok p → eth_ok c →
  raw s !! KeyLastOutgoingBatchID = Some (UInt64Bytes m) → 0 ≤ m → m + 1 < two64 →
  0 ≤ max < two64 → sumZ fee_of (token_transfers s c) < 2 ^ 256 →
  BuildOutgoingTXBatch c max s =
  if (max =? 0) || negb (p_BridgeActive p) || unprofitable s c max ||
     bool_decide (picks (st_kv s) c max = [])
  then Fail ErrInvalid s
  else match timeout_of s p with
  | None => Panic "integer divide by zero"
  | Some timeout =>
      let b := next_batch s c max (m + 1) timeout in
      match InternalOutgoingTxBatch_GetCheckpoint (p_GravityId p) b with
      | None => Panic "GetCheckpoint"
      | Some checkpoint => Ret b (built b checkpoint s)
      end
  end.
Proof. apply BuildOutgoingTXBatch_run. Qed.
End Building.

(** ** What building a batch achieves *)

(** Among the sublists of [L] with at most [n] elements, the first [n] elements of
    a descending [L] have the greatest sum. *)
Lemma take_max_sum {A} (f : A → Z) (L l : list A) n :
  StronglySorted (λ x y, f y ≤ f x) L → Forall (λ x, 0 ≤ f x) L →
  l ⊆+ L → (length l ≤ n)%nat → sumZ f l ≤ sumZ f (take n L).
Proof.
  intros HL. revert l n. induction HL as [|x L HL IH Hx]; intros l n Hnn Hsub Hlen.
  { apply submseteq_nil_r in Hsub as ->. by rewrite take_nil. }
  apply Forall_cons in Hnn as [Hx0 Hnn]. destruct n as [|n].
  { destruct l; [done|simpl in Hlen; lia]. }
  cbn [take sumZ foldr]. fold (sumZ f (take n L)).
  apply submseteq_cons_r in Hsub as [Hsub|(l' & Hl & Hsub)].
  - destruct l as [|y l].
    + assert (0 ≤ sumZ f (take n L)); [|simpl; lia]. by apply sumZ_nonneg, Forall_take.
    + cbn [sumZ foldr]. fold (sumZ f l). simpl in Hlen.
      assert (f y ≤ f x).
      { rewrite Forall_forall in Hx. apply Hx. eapply elem_of_submseteq; [|exact Hsub]. left. }
      assert (sumZ f l ≤ sumZ f (take n L)); [|lia]. apply IH; [done| |lia].
      etrans; [|exact Hsub]. by apply submseteq_cons.
  - rewrite Hl in *. cbn [sumZ foldr]. fold (sumZ f l'). simpl in Hlen.
    assert (sumZ f l' ≤ sumZ f (take n L)); [|lia]. apply IH; [done..|lia].
Qed.

Section Built.
Context {W : Type} `{GethLaws} `{SdkLaws} `{EthAbi}.
Implicit Types s : State W.

Abbreviation pool s := (kv_pool (st_kv s)).
Abbreviation batches s := (kv_batches (st_kv s)).

Lemma transfers_drop_txs ts s :
  NoDup (tx_key <$> ts) →
  Forall (λ t, wf_tx t ∧ pool s !! tx_key t = Some (InternalOutgoingTransferTx_ToExternal t)) ts →
  transfers s ≡ₚ ts ++ transfers (drop_txs ts s).
Proof.
  revert s. induction ts as [|t ts IH]; intros s Hnd Hf; [done|].
  simpl in Hnd. apply NoDup_cons in Hnd as [Hni Hnd].
  apply Forall_cons in Hf as [[[Hok _] Hk] Hf].
  rewrite (transfers_drop t s) by done. simpl. f_equiv. apply IH; [done|].
  rewrite Forall_forall in Hf. apply Forall_forall. intros t' Ht'.
  destruct (Hf t' Ht') as [? Hk']. split; [done|]. simpl. rewrite lookup_delete_ne; [done|].
  intros E. apply Hni. rewrite E. by apply list_elem_of_fmap_2.
Qed.

Lemma map_Forall_foldl_delete {V} (P : bytes → V → Prop) (m : gmap bytes V) (ts : list InternalOutgoingTransferTx) :
  map_Forall P m → map_Forall P (foldl (λ m t, delete (tx_key t) m) m ts).
Proof.
  revert m. induction ts as [|t ts IH]; intros m Hm; [done|]. simpl.
  by apply IH, map_Forall_delete.
Qed.

Lemma put_batch_transfers b s :
  wf_batch b → batches s !! batch_key b = None →
  transfers (put_batch b s) ≡ₚ ib_Transactions b ++ transfers s.
Proof.
  intros Hwf Hn. unfold transfers. simpl. rewrite batch_txs_insert by done.
  rewrite parse_batch_ext by done. by rewrite Permutation_app_comm, <- app_assoc, (Permutation_app_comm (batch_txs _)).
Qed.

(** Building moves the picked transfers from the pool into the new batch. *)
Lemma built_ok s c max m timeout cp :
  transfers_ok s → eth_ok c → raw s !! KeyLastOutgoingBatchID = Some (UInt64Bytes m) →
  0 ≤ m → m + 1 < two64 →
  let b := next_batch s c max (m + 1) timeout in
  transfers (built b cp s) ≡ₚ transfers s ∧ transfers_ok (built b cp s).
Proof.
  intros Hs Hc Hm Hm0 Hm1 b.
  assert (u64_ok m) as Hmok by (split; lia). assert (u64_ok (m + 1)) as Hm1ok by (split; lia).
  assert (wf_batch b) as Hwf by (apply next_batch_wf; [apply Hs|done..]).
  pose proof (fresh_batch_key s b m Hs Hwf Hm Hmok ltac:(simpl; lia)) as Hfresh.
  assert (transfers (built b cp s) ≡ₚ transfers s) as Hperm.
  { change (transfers (built b cp s)) with (transfers (put_batch b (drop_txs (ib_Transactions b) s))).
    rewrite put_batch_transfers; [|done|by rewrite drop_txs_frame].
    symmetry. apply transfers_drop_txs.
    - unfold b, next_batch. simpl. unfold picks. eapply sublist_NoDup; [by apply pool_list_keys_NoDup, Hs|].
      apply fmap_sublist. etrans; [apply sublist_take|apply sublist_filter].
    - apply Forall_forall. intros t [Ht _]%picks_in_pool; [|apply Hs|done].
      apply elem_of_pool_txs; [apply Hs|done]. }
  split; [done|]. destruct Hs as [Hp Hb Hi (n & Hn & Hnok & Hnf) (m' & Hm' & Hm'ok & Hmf)].
  assert (m' = m) as ->. { apply UInt64Bytes_inj; [done..|congruence]. }
  split.
  - simpl. rewrite pool_drop_txs. by apply map_Forall_foldl_delete.
  - simpl. rewrite drop_txs_frame. simpl. apply map_Forall_insert_2; [by exists b|done].
  - by rewrite Hperm.
  - exists n. split_and!; [|done|by rewrite Hperm]. simpl. rewrite drop_txs_frame. simpl.
    rewrite lookup_insert_ne by (intros E; discriminate E). by rewrite lookup_insert_ne.
  - exists (m + 1). split_and!; [|done|].
    + simpl. rewrite drop_txs_frame. simpl.
      rewrite lookup_insert_ne by (intros E; discriminate E). by rewrite lookup_insert_eq.
    + simpl. rewrite drop_txs_frame. simpl. apply map_Forall_insert_2; [simpl; lia|].
      eapply map_Forall_impl; [exact Hmf|]. simpl. intros; lia.
Qed.
End Built.

(** The state a batch is built in: well-formed stores, valid parameters, a batch
    counter that is not exhausted and fees of the token that fit in 256 bits. *)
Section BuildTheorems.
Context {W : Type} `{GethLaws} `{SdkLaws} `{EthAbi}.
Context (s : State W) (p : Params) (c : EthAddress) (max m : Z).
Hypothesis Hs : transfers_ok s.
Hypothesis Hp : kv_params (st_kv s) = Some p.
Hypothesis Hpok : params_ok p.
Hypothesis Hc : eth_ok c.
Hypothesis Hm : raw s !! KeyLastOutgoingBatchID = Some (UInt64Bytes m).
Hypothesis Hm_range : 0 ≤ m ∧ m + 1 < two64.
Hypothesis Hmax : 0 ≤ max < two64.
Hypothesis Hsum : sumZ fee_of (token_transfers s c) < 2 ^ 256.

Lemma BuildOutgoingTXBatch_inv b s' :
  BuildOutgoingTXBatch c max s = Ret b s' →
  0 < max ∧ p_BridgeActive p = true ∧ unprofitable s c max = false ∧
  picks (st_kv s) c max ≠ [] ∧
  ∃ timeout cp, timeout_of s p = Some timeout ∧ b = next_batch s c max (m + 1) timeout ∧
    InternalOutgoingTxBatch_GetCheckpoint (p_GravityId p) b = Some cp ∧ s' = built b cp s.
Proof.
  destruct Hm_range. rewrite (BuildOutgoingTXBatch_run s p c max m) by done.
  destruct (Z.eqb_spec max 0); [done|]. destruct (p_BridgeActive p); [|done].
  destruct (unprofitable s c max); [done|].
  destruct (bool_decide (picks (st_kv s) c max = [])) eqn:E; [done|].
  apply bool_decide_eq_false in E. cbn [negb orb].
  destruct (timeout_of s p) as [timeout|]; [|done]. cbv zeta.
  destruct (InternalOutgoingTxBatch_GetCheckpoint _ _) as [cp|] eqn:Ecp; [|done].
  intros [= <- <-]. split_and!; try done; [lia|]. by exists timeout, cp.
Qed.

(** Building a batch conserves the transfers in flight: none is lost, none is
    duplicated, and the stores stay well formed; the batch is stored and its
    transfers are no longer in the pool. *)
Theorem BuildOutgoingTXBatch_conserves b s' :
  BuildOutgoingTXBatch c max s = Ret b s' →
  transfers s' ≡ₚ transfers s ∧ transfers_ok s' ∧
  b ∈ batch_list (kv_batches (st_kv s')) ∧
  ∀ t, t ∈ ib_Transactions b →
    t ∈ pool_txs (kv_pool (st_kv s)) ∧ t ∉ pool_txs (kv_pool (st_kv s')).
Proof.
  intros (_ & _ & _ & _ & timeout & cp & _ & Eb & _ & ->)%BuildOutgoingTXBatch_inv.
  destruct Hm_range.
  destruct (built_ok s c max m timeout cp) as [Hperm Hok]; [done..|]. rewrite <- Eb in *.
  assert (wf_batch b) as Hwf by (rewrite Eb; apply next_batch_wf; [apply Hs|done|split; lia]).
  split_and!; [done..| |].
  - apply elem_of_batch_list; [apply Hok|]. split; [done|]. simpl. apply lookup_insert_eq.
  - intros t Ht. pose proof Ht as Ht'. rewrite Eb in Ht'.
    apply picks_in_pool in Ht' as [Hin _]; [|apply Hs|done]. split; [done|].
    intros [_ Hk]%elem_of_pool_txs; [|apply Hok]. simpl in Hk.
    rewrite pool_drop_txs, lookup_foldl_delete_in in Hk; [done|]. by apply list_elem_of_fmap_2.
Qed.

(** C7. The batch is the most profitable one that could have been built: it has
    at most [max] transfers, all of the token asked for and none to a
    blacklisted address, and no other choice of at most [max] such transfers of
    the pool has greater fees. *)
Theorem BuildOutgoingTXBatch_optimal b s' :
  BuildOutgoingTXBatch c max s = Ret b s' →
  Z.of_nat (length (ib_Transactions b)) ≤ max ∧
  (∀ t, t ∈ ib_Transactions b →
     tx_contract t = c ∧ blacklisted (st_kv s) (tx_DestAddress t) = false) ∧
  ∀ l, NoDup l → Z.of_nat (length l) ≤ max →
    (∀ t, t ∈ l → t ∈ pool_txs (kv_pool (st_kv s)) ∧ tx_contract t = c ∧
                  blacklisted (st_kv s) (tx_DestAddress t) = false) →
    sumZ fee_of l ≤ sumZ fee_of (ib_Transactions b).
Proof.
  intros (Hpos & _ & _ & _ & timeout & cp & _ & -> & _ & _)%BuildOutgoingTXBatch_inv.
  pose proof (tok_pool _ Hs) as Hpool. simpl. split_and!.
  - unfold picks. rewrite length_take. lia.
  - intros t (_ & _ & ? & ?)%picks_in_pool; done.
  - intros l Hnd Hlen Hl. unfold picks. apply take_max_sum; [| | |lia].
    + apply StronglySorted_filter'. by apply pool_list_fees.
    + apply Forall_forall. intros t [_ [Ht _]%pool_list_contract]%list_elem_of_filter; [|done..].
      apply elem_of_pool_txs in Ht as [[Ht _] _]; [|done]. apply Ht.
    + apply NoDup_submseteq; [done|]. intros t Ht. destruct (Hl t Ht) as (Hin & Htc & Hb).
      apply list_elem_of_filter. split; [done|]. apply pool_list_contract; [done..|].
      split; [done|]. apply elem_of_pool_txs in Hin as [[_ E] _]; [|done].
      rewrite E. exact Htc.
Qed.

(** Batches of a token are ever more profitable: a new batch has a greater
    nonce than every stored batch of its token, and its fees are strictly greater
    than those of the newest one. *)
Theorem BuildOutgoingTXBatch_profitable b s' last :
  BuildOutgoingTXBatch c max s = Ret b s' → newest_batch (st_kv s) c = Some last →
  sumZ fee_of (ib_Transactions last) < sumZ fee_of (ib_Transactions b) ∧
  ib_BatchNonce b = m + 1 ∧
  ∀ b', b' ∈ batch_list (kv_batches (st_kv s)) → ib_BatchNonce b' < ib_BatchNonce b.
Proof.
  intros (Hpos & _ & Hprofit & _ & timeout & cp & _ & -> & _ & _)%BuildOutgoingTXBatch_inv Hlast.
  unfold unprofitable in Hprofit. rewrite Hlast in Hprofit. zbool. simpl.
  split_and!; [done..|]. intros b' [_ Hk]%elem_of_batch_list; [|apply Hs].
  destruct (tok_last_batch _ Hs) as (m' & Hm' & Hm'ok & Hmf). destruct Hm_range.
  assert (m' = m) as ->. { apply UInt64Bytes_inj; [done|split; lia|congruence]. }
  specialize (Hmf _ _ Hk). simpl in Hmf. lia.
Qed.
End BuildTheorems.
