(* ===== verification/BatchLifecycle.v ===== *)
(** * Cancelling and executing batches *)

From stdpp Require Import base gmap list strings sorting.
From S2P Require Import Prelude GoStd External Store Ethereum Keys OutgoingTx Valset Claims Keeper Registry Pool Batch Transfers PoolCorrect BatchCorrect.

#[local] Open Scope Z_scope.

(** ** Confirmations *)

Section ConfirmDeletion.
Context {W : Type} `{GethLaws} `{SdkLaws}.
Implicit Types s : State W.

Definition del_confirm (b : InternalOutgoingTxBatch) (m : gmap bytes MsgConfirmBatch)
    (confirm : MsgConfirmBatch) : gmap bytes MsgConfirmBatch :=
  match AccAddressFromBech32 (cb_Orchestrator confirm) with
  | Er _ => m
  | Ok orchestrator =>
      match GetBatchConfirmKey (ib_TokenContract b) (ib_BatchNonce b) orchestrator with
      | Some k => delete k m
      | None => m
      end
  end.

Definition del_confirms (b : InternalOutgoingTxBatch) (m : gmap bytes MsgConfirmBatch)
    : gmap bytes MsgConfirmBatch :=
  foldl (del_confirm b) m
    (iter_asc m (prefixRange (GetBatchConfirmNonceContractPrefix
       (ib_TokenContract b) (ib_BatchNonce b)))).*2.

Definition confirm_body (b : InternalOutgoingTxBatch) (confirm : MsgConfirmBatch) : K W unit :=
  match AccAddressFromBech32 (cb_Orchestrator confirm) with
  | Er _ => mret tt
  | Ok orchestrator =>
      confirmKey ← opt_panic "invalid validator address"
        (GetBatchConfirmKey (ib_TokenContract b) (ib_BatchNonce b) orchestrator);
      modify (upd_kv (upd_batchConfirms (delete confirmKey)))
  end.

Lemma confirm_loop b l s :
  for_each l (confirm_body b) s =
  Ret tt (upd_kv (upd_batchConfirms (λ m, foldl (del_confirm b) m l)) s).
Proof.
  revert s. induction l as [|c l IH]; intros s; [by destruct s as [[] ? ? ?]|].
  cbn [for_each]. rewrite (bind_ret _ _ s tt (upd_kv (upd_batchConfirms (λ m, del_confirm b m c)) s)).
  - by rewrite IH.
  - unfold confirm_body, del_confirm.
    destruct (AccAddressFromBech32 (cb_Orchestrator c)) as [o|] eqn:Eo; [|by destruct s as [[] ? ? ?]].
    unfold GetBatchConfirmKey, verified. by rewrite (acc_bech32_verified _ _ Eo).
Qed.

Lemma DeleteBatchConfirms_eq b s :
  DeleteBatchConfirms b s = Ret tt (upd_kv (upd_batchConfirms (del_confirms b)) s).
Proof. apply confirm_loop. Qed.
End ConfirmDeletion.

(** ** Cancelling *)

Section CancelBatch.
Context {W : Type} `{GethLaws} `{SdkLaws}.
Implicit Types s : State W.

Abbreviation pool s := (kv_pool (st_kv s)).
Abbreviation batches s := (kv_batches (st_kv s)).

Definition put_txs (ts : list InternalOutgoingTransferTx) s : State W :=
  foldl (λ s t, put_tx t s) s ts.
Definition drop_batch (b : InternalOutgoingTxBatch) s : State W :=
  upd_kv (upd_batches (delete (batch_key b))) s.

(** The batch stored for a token and a nonce. *)
Definition find_batch (kv : KV) (c : EthAddress) (nonce : Z) : option InternalOutgoingTxBatch :=
  match kv_batches kv !! GetOutgoingTxBatchKey c nonce with
  | Some e => match OutgoingTxBatch_ToInternal e with Ok b => Some b | Er _ => None end
  | None => None
  end.

(** The state after a cancellation: the transfers are back in the pool, the batch
    and its confirmations are gone. *)
Definition batch_canceled (b : InternalOutgoingTxBatch) s : State W :=
  add_event (EventOutgoingBatchCanceled (bridge_hex (st_kv s)) (chain_id (st_kv s))
               (batch_key b) (ib_BatchNonce b))
    (upd_kv (upd_batchConfirms (del_confirms b)) (drop_batch b (put_txs (ib_Transactions b) s))).

Lemma put_txs_frame ts s : put_txs ts s = upd_kv (upd_pool (λ _, pool (put_txs ts s))) s.
Proof.
  revert s. induction ts as [|t ts IH]; intros s.
  - by destruct s as [[] ? ? ?].
  - simpl. rewrite IH at 1. by destruct s as [[] ? ? ?].
Qed.

Lemma put_loop ts s msg :
  NoDup (tx_key <$> ts) → Forall (λ t, tx_ok t ∧ pool s !! tx_key t = None) ts →
  for_each ts (λ tx, must msg (addUnbatchedTX tx)) s = Ret tt (put_txs ts s).
Proof.
  revert s. induction ts as [|t ts IH]; intros s Hnd Hf; [done|].
  simpl in Hnd. apply NoDup_cons in Hnd as [Hni Hnd]. apply Forall_cons in Hf as [[Hok Hn] Hf].
  cbn [for_each]. rewrite (bind_ret _ _ s tt (put_tx t s)).
  2:{ unfold must. rewrite addUnbatchedTX_eq by done.
      rewrite decide_False by (rewrite Hn; by intros []). done. }
  apply IH; [done|]. rewrite Forall_forall in Hf. apply Forall_forall. intros t' Ht'.
  destruct (Hf t' Ht') as [? Hn']. split; [done|]. simpl. rewrite lookup_insert_ne; [done|].
  intros E. apply Hni. rewrite E. by apply list_elem_of_fmap_2.
Qed.

Lemma pool_txs_put_txs ts s :
  NoDup (tx_key <$> ts) → Forall (λ t, tx_ok t ∧ pool s !! tx_key t = None) ts →
  pool_txs (pool (put_txs ts s)) ≡ₚ ts ++ pool_txs (pool s).
Proof.
  revert s. induction ts as [|t ts IH]; intros s Hnd Hf; [done|].
  simpl in Hnd. apply NoDup_cons in Hnd as [Hni Hnd]. apply Forall_cons in Hf as [[Hok Hn] Hf].
  simpl. rewrite IH; [|done|].
  - simpl. rewrite pool_txs_insert, parse_tx_ext by done. by rewrite Permutation_middle.
  - rewrite Forall_forall in Hf. apply Forall_forall. intros t' Ht'.
    destruct (Hf t' Ht') as [? Hn']. split; [done|]. simpl. rewrite lookup_insert_ne; [done|].
    intros E. apply Hni. rewrite E. by apply list_elem_of_fmap_2.
Qed.

Lemma put_txs_entries ts s :
  Forall wf_tx ts → map_Forall pool_entry_ok (pool s) →
  map_Forall pool_entry_ok (pool (put_txs ts s)).
Proof.
  revert s. induction ts as [|t ts IH]; intros s Hf Hm; [done|].
  apply Forall_cons in Hf as [Ht Hf]. apply IH; [done|]. simpl.
  apply map_Forall_insert_2; [by exists t|done].
Qed.

Lemma find_batch_some s c nonce b :
  transfers_ok s → eth_ok c → u64_ok nonce → find_batch (st_kv s) c nonce = Some b →
  b ∈ batch_list (batches s) ∧ ib_TokenContract b = c ∧ ib_BatchNonce b = nonce.
Proof.
  intros Hs Hc Hn. unfold find_batch.
  destruct (batches s !! GetOutgoingTxBatchKey c nonce) as [e|] eqn:Ee; [|done].
  destruct (tok_batches _ Hs _ _ Ee) as (b' & Hwf & -> & Hk).
  rewrite batch_roundtrip by (by apply wf_batch_ok). intros [= ->].
  pose proof Hwf as (Hnb & [Hlb _] & _).
  pose proof Hk as [-> ->]%batch_key_inj; [|destruct Hc; congruence|done..].
  split; [|done]. apply elem_of_batch_list; [apply Hs|done].
Qed.

Lemma find_batch_in s b :
  transfers_ok s → b ∈ batch_list (batches s) →
  find_batch (st_kv s) (ib_TokenContract b) (ib_BatchNonce b) = Some b.
Proof.
  intros Hs [Hwf Hk]%elem_of_batch_list; [|apply Hs]. unfold find_batch. fold (batch_key b).
  by rewrite Hk, batch_roundtrip by (by apply wf_batch_ok).
Qed.

Lemma GetOutgoingTXBatch_eq s c nonce :
  transfers_ok s → GetOutgoingTXBatch c nonce s = Ret (find_batch (st_kv s) c nonce) s.
Proof.
  intros Hs. unfold GetOutgoingTXBatch, find_batch. mrun.
  destruct (batches s !! GetOutgoingTxBatchKey c nonce) as [e|] eqn:Ee; [|done].
  destruct (tok_batches _ Hs _ _ Ee) as (b' & Hwf & -> & Hk).
  by rewrite batch_roundtrip by (by apply wf_batch_ok).
Qed.

Lemma NoDup_keys (l : list InternalOutgoingTransferTx) :
  Forall tx_ok l → NoDup (tx_Id <$> l) → NoDup (tx_key <$> l).
Proof.
  induction 1 as [|t l Ht Hl IH]; simpl; [constructor|]. intros [Hni Hnd]%NoDup_cons.
  apply NoDup_cons. split; [|by apply IH]. intros (t' & E & Hin)%list_elem_of_fmap.
  apply Hni. rewrite Forall_forall in Hl. apply tx_key_inj in E as [_ ->]; [|done|by apply Hl].
  by apply list_elem_of_fmap_2.
Qed.

(** No transfer of a batch has a key in the pool, and no two share a key. *)
Lemma batch_keys_fresh s b :
  transfers_ok s → b ∈ batch_list (batches s) →
  NoDup (tx_key <$> ib_Transactions b) ∧
  Forall (λ t, tx_ok t ∧ pool s !! tx_key t = None) (ib_Transactions b).
Proof.
  intros Hs Hb. pose proof Hb as [Hwf Hk]%elem_of_batch_list; [|apply Hs].
  pose proof (tok_ids _ Hs) as Hnd. unfold transfers in Hnd.
  rewrite (batch_txs_delete _ _ _ Hk), parse_batch_ext, !fmap_app in Hnd by done.
  apply NoDup_app in Hnd as (_ & Hdisj & Hnd). apply NoDup_app in Hnd as (Hnd & _ & _).
  apply wf_batch_ok in Hwf as (_ & _ & Hf). split; [by apply NoDup_keys|].
  rewrite Forall_forall in Hf. apply Forall_forall. intros t Ht. split; [by apply Hf|].
  apply eq_None_not_Some. intros [e He].
  destruct (tok_pool _ Hs _ _ He) as (t' & Hwf' & -> & Ek).
  pose proof Ek as [_ Eid]%tx_key_inj; [|by apply Hf|apply Hwf'].
  apply (Hdisj (tx_Id t)).
  - rewrite Eid. apply list_elem_of_fmap_2, elem_of_pool_txs; [apply Hs|]. by rewrite <- Ek.
  - apply elem_of_app. left. by apply list_elem_of_fmap_2.
Qed.

Lemma CancelOutgoingTXBatch_run s c nonce :
  transfers_ok s → has_params s → eth_ok c → u64_ok nonce →
  CancelOutgoingTXBatch c nonce s =
  match find_batch (st_kv s) c nonce with
  | None => Fail ErrUnknown s
  | Some b => Ret tt (batch_canceled b s)
  end.
Proof.
  intros Hs Hpar Hc Hn. unfold CancelOutgoingTXBatch.
  rewrite (bind_ret _ _ _ _ _ (GetOutgoingTXBatch_eq s c nonce Hs)).
  destruct (find_batch (st_kv s) c nonce) as [b|] eqn:Eb; [|done].
  apply find_batch_some in Eb as (Hb & <- & <-); [|done..].
  destruct (batch_keys_fresh s b Hs Hb) as [Hnd Hf].
  rewrite (bind_ret _ _ _ _ _ (put_loop _ s _ Hnd Hf)).
  set (s1 := put_txs (ib_Transactions b) s).
  pose proof Hb as [Hwf _]%elem_of_batch_list; [|apply Hs].
  rewrite (bind_ret _ _ s1 tt (drop_batch b s1)).
  2:{ unfold DeleteBatch. by rewrite batch_ValidateBasic_ok by (by apply wf_batch_ok). }
  rewrite (bind_ret _ _ _ _ _ (DeleteBatchConfirms_eq b (drop_batch b s1))).
  set (s2 := upd_kv (upd_batchConfirms (del_confirms b)) (drop_batch b s1)).
  pose proof (put_txs_frame (ib_Transactions b) s) as Hfr. fold s1 in Hfr.
  destruct (bridge_event (λ bridge chain, emit (EventOutgoingBatchCanceled
    (Hex (GetAddress bridge)) chain (GetOutgoingTxBatchKey (ib_TokenContract b)
    (ib_BatchNonce b)) (ib_BatchNonce b))) s2) as (a & Ha & ->).
  - subst s2. by rewrite Hfr.
  - rewrite Ha. unfold batch_canceled. fold s1. subst s2. by rewrite Hfr.
Qed.

(** [CancelOutgoingTXBatch] on every branch: an unknown batch is an error that
    changes nothing; the cancellation of a known batch always succeeds, whatever
    is in the pool: none of its panics can be reached. *)
Theorem CancelOutgoingTXBatch_spec s c nonce :
  transfers_ok s → has_params s → eth_ok c → u64_ok nonce →
  CancelOutgoingTXBatch c nonce s =
  match find_batch (st_kv s) c nonce with
  | None => Fail ErrUnknown s
  | Some b => Ret tt (batch_canceled b s)
  end.
Proof. apply CancelOutgoingTXBatch_run. Qed.

(** Cancelling moves the transfers of the batch back into the pool. *)
Lemma batch_canceled_ok s b :
  transfers_ok s → b ∈ batch_list (batches s) →
  transfers (batch_canceled b s) ≡ₚ transfers s ∧ transfers_ok (batch_canceled b s).
Proof.
  intros Hs Hb. destruct (batch_keys_fresh s b Hs Hb) as [Hnd Hf].
  pose proof Hb as [Hwf Hk]%elem_of_batch_list; [|apply Hs].
  pose proof (put_txs_frame (ib_Transactions b) s) as Hfr.
  assert (transfers (batch_canceled b s) ≡ₚ transfers s) as Hperm.
  { pose proof (pool_txs_put_txs _ s Hnd Hf) as Hput. unfold transfers, batch_canceled.
    simpl. rewrite Hput, Hfr. simpl.
    rewrite (batch_txs_delete (batches s) _ _ Hk), parse_batch_ext by done.
    by rewrite !app_assoc, (Permutation_app_comm (ib_Transactions b)). }
  split; [done|]. apply (transfers_ok_shrink s _ []); [done|by rewrite Hperm|..].
  - simpl. apply put_txs_entries; [|apply Hs]. destruct Hwf as (_ & _ & Hwf).
    eapply Forall_impl; [exact Hwf|]. by intros t [].
  - unfold batch_canceled. rewrite Hfr. simpl. apply map_Forall_delete, Hs.
  - unfold batch_canceled. by rewrite Hfr.
  - unfold batch_canceled. by rewrite Hfr.
  - unfold batch_canceled. rewrite Hfr. simpl. apply delete_subseteq.
Qed.
End CancelBatch.

(** ** Executing *)

Section ExecuteBatch.
Context {W : Type} `{GethLaws} `{SdkLaws} `{Bank W}.
Implicit Types s : State W.

Abbreviation pool s := (kv_pool (st_kv s)).
Abbreviation batches s := (kv_batches (st_kv s)).

Lemma batch_list_keys m :
  map_Forall batch_entry_ok m → batch_key <$> batch_list m = (iter_desc m (None, None)).*1.
Proof.
  intros Hm. unfold batch_list.
  pose proof (iter_desc_entries_ok _ m (None, None) Hm) as Hok.
  induction Hok as [|[k e] l Hk Hl IH]; [done|]. simpl in Hk. destruct Hk as (b & Hwf & -> & ->).
  cbn [mbind list_bind snd]. rewrite parse_batch1_ext by done.
  rewrite fmap_app, fmap_cons. cbn [fst fmap list_fmap app]. f_equal. exact IH.
Qed.

Lemma batch_list_NoDup m : map_Forall batch_entry_ok m → NoDup (batch_list m).
Proof.
  intros Hm. apply (NoDup_fmap_1 batch_key). rewrite batch_list_keys by done.
  apply NoDup_iter_desc.
Qed.

Lemma batch_list_delete m b b' :
  map_Forall batch_entry_ok m → b ∈ batch_list m →
  b' ∈ batch_list (delete (batch_key b) m) ↔ b' ∈ batch_list m ∧ b' ≠ b.
Proof.
  intros Hm Hb. rewrite !elem_of_batch_list by (done || by apply map_Forall_delete).
  pose proof Hb as [Hwf Hk]%elem_of_batch_list; [|done]. split.
  - intros [Hwf' Hk'].
    destruct (decide (batch_key b' = batch_key b)) as [E|E].
    + by rewrite E, lookup_delete_eq in Hk'.
    + rewrite lookup_delete_ne in Hk' by done. split; [done|]. by intros ->.
  - intros [[Hwf' Hk'] Hne]. split; [done|]. rewrite lookup_delete_ne; [done|]. intros E.
    apply Hne. rewrite <- E in Hk'. rewrite Hk in Hk'. injection Hk' as E'.
    pose proof (batch_roundtrip b (wf_batch_ok b Hwf)) as R.
    pose proof (batch_roundtrip b' (wf_batch_ok b' Hwf')) as R'.
    unfold InternalOutgoingTxBatch_ToExternal in R, R'. congruence.
Qed.

Definition exec_body (c : EthAddress) (nonce : Z) (batch : InternalOutgoingTxBatch) (u : unit)
    : K W (unit * bool) :=
  if (ib_BatchNonce batch <? nonce) &&
     bool_decide (GetAddress (ib_TokenContract batch) = GetAddress c)
  then
    _ ← must "Failed cancel out batch" (CancelOutgoingTXBatch c (ib_BatchNonce batch));
    mret (tt, false)
  else mret (tt, false).

(** An earlier batch of the same token. *)
Definition earlier (c : EthAddress) (nonce : Z) (b : InternalOutgoingTxBatch) : Prop :=
  ib_TokenContract b = c ∧ ib_BatchNonce b < nonce.

(** What a run that only cancels batches keeps. *)
Record only_batches_moved s s' : Prop := {
  obm_transfers : transfers s' ≡ₚ transfers s;
  obm_ok : transfers_ok s';
  obm_raw : raw s' = raw s;
  obm_params : kv_params (st_kv s') = kv_params (st_kv s);
  obm_world : st_world s' = st_world s }.

Lemma batch_canceled_moved s b :
  transfers_ok s → b ∈ batch_list (batches s) → only_batches_moved s (batch_canceled b s).
Proof.
  intros Hs Hb. destruct (batch_canceled_ok s b Hs Hb) as [Hperm Hok].
  pose proof (put_txs_frame (ib_Transactions b) s) as Hfr.
  split; [done..| | |]; unfold batch_canceled; by rewrite Hfr.
Qed.

Lemma only_batches_moved_trans s1 s2 s3 :
  only_batches_moved s1 s2 → only_batches_moved s2 s3 → only_batches_moved s1 s3.
Proof.
  intros [P1 _ R1 A1 W1] [P2 O2 R2 A2 W2]. split; [by rewrite P2|done|congruence..].
Qed.

(** The loop that cancels the earlier batches. *)
Lemma exec_loop c nonce l s :
  transfers_ok s → has_params s → NoDup l → (∀ b, b ∈ l → b ∈ batch_list (batches s)) →
  ∃ s', for_acc l tt (exec_body c nonce) s = Ret tt s' ∧ only_batches_moved s s' ∧
    ∀ b, b ∈ batch_list (batches s') ↔
         b ∈ batch_list (batches s) ∧ ¬ (b ∈ l ∧ earlier c nonce b).
Proof.
  revert s. induction l as [|b l IH]; intros s Hs Hpar Hnd Hin.
  { exists s. split_and!; [done|by split|]. intros b. split; [|by intros []].
    intros Hb. split; [done|]. by intros [?%not_elem_of_nil _]. }
  apply NoDup_cons in Hnd as [Hni Hnd]. cbn [for_acc].
  assert (b ∈ batch_list (batches s)) as Hb by (apply Hin; left).
  pose proof Hb as [Hwf _]%elem_of_batch_list; [|apply Hs].
  destruct (decide (earlier c nonce b)) as [[Hbc Hlt]|Hne].
  - rewrite (bind_ret _ _ s (tt, false) (batch_canceled b s)).
    2:{ unfold exec_body. rewrite Hbc, bool_decide_true by done.
        destruct (Z.ltb_spec (ib_BatchNonce b) nonce); [|lia]. cbn [andb]. mrun.
        rewrite CancelOutgoingTXBatch_run by (done || apply Hwf || (rewrite <- Hbc; apply Hwf)).
        by rewrite <- Hbc, find_batch_in. }
    pose proof (batch_canceled_moved s b Hs Hb) as Hmv.
    assert (∀ b', b' ∈ batch_list (batches (batch_canceled b s)) ↔
                  b' ∈ batch_list (batches s) ∧ b' ≠ b) as Hbl.
    { intros b'. rewrite <- (batch_list_delete _ b b') by (done || apply Hs).
      unfold batch_canceled. rewrite (put_txs_frame (ib_Transactions b) s). done. }
    destruct (IH (batch_canceled b s)) as (s' & Hrun & Hmv' & Hiff); [apply Hmv| |done| |].
    + destruct Hpar as (p & Hp & ?). exists p. by rewrite (obm_params _ _ Hmv).
    + intros b' Hb'. apply Hbl. split; [apply Hin; by right|]. by intros ->.
    + exists s'. split_and!; [done|by eapply only_batches_moved_trans|].
      intros b'. rewrite Hiff, Hbl, elem_of_cons. unfold earlier. naive_solver.
  - rewrite (bind_ret _ _ s (tt, false) s).
    2:{ unfold exec_body. destruct (Z.ltb_spec (ib_BatchNonce b) nonce); [|done].
        rewrite bool_decide_false; [done|]. intros E. apply Hne. split; [|done].
        destruct (ib_TokenContract b), c. simpl in E. by subst. }
    destruct (IH s) as (s' & Hrun & Hmv' & Hiff); [done..| |].
    + intros b' Hb'. apply Hin. by right.
    + exists s'. split_and!; [done..|]. intros b'. rewrite Hiff, elem_of_cons. naive_solver.
Qed.
(** The vouchers an executed batch burns. *)
Definition batch_total (b : InternalOutgoingTxBatch) : Z := sumZ tx_total (ib_Transactions b).

Definition burn_coins_of (denom : string) (b : InternalOutgoingTxBatch) : list Coin :=
  if batch_total b =? 0 then [] else [mkCoin denom (batch_total b)].

Lemma amount_of_burn d denom b :
  amount_of d (burn_coins_of denom b) = if decide (denom = d) then batch_total b else 0.
Proof.
  unfold burn_coins_of. destruct (Z.eqb_spec (batch_total b) 0) as [->|]; [by case_decide|].
  by rewrite amount_of_singleton.
Qed.

Lemma tx_total_nonneg t : tx_ok t → 0 ≤ tx_total t.
Proof. intros (_ & _ & _ & (? & _) & (? & _)). unfold tx_total. lia. Qed.

Lemma total_to_burn_eq txs :
  Forall tx_ok txs → sumZ tx_total txs < 2 ^ 256 → total_to_burn txs = Some (sumZ tx_total txs).
Proof.
  intros Hf. unfold total_to_burn.
  assert (∀ acc, 0 ≤ acc → acc + sumZ tx_total txs < 2 ^ 256 →
    foldl (λ sum tx, x ← sum;
             t ← Int_Add (it_Amount (tx_Erc20Token tx)) (it_Amount (tx_Erc20Fee tx));
             Int_Add x t) (Some acc) txs = Some (acc + sumZ tx_total txs)) as Hgen;
    [|intros; by rewrite Hgen by lia].
  induction Hf as [|t l Ht Hl IH]; intros acc Hacc Hsum; [simpl; by rewrite Z.add_0_r|].
  cbn [sumZ foldr] in *. fold (sumZ tx_total l) in *.
  pose proof (tx_total_nonneg t Ht). assert (0 ≤ sumZ tx_total l).
  { apply sumZ_nonneg. eapply Forall_impl; [exact Hl|apply tx_total_nonneg]. }
  cbn [foldl mbind option_bind].
  rewrite (Int_Add_ok (it_Amount (tx_Erc20Token t))) by (fold (tx_total t); lia).
  fold (tx_total t). cbn [mbind option_bind]. rewrite (Int_Add_ok acc (tx_total t)) by lia.
  rewrite IH by lia. f_equal. lia.
Qed.

(** The payment: an Ethereum-originated token's vouchers are burnt, the coins of a
    Cosmos-originated one stay locked. *)
Definition settled (o : AssetOrigin) (b : InternalOutgoingTxBatch) (w w' : W) : Prop :=
  if decide (ao_Origin o = AssetOriginEthereum)
  then ValidateDenom (ao_Denom o) = true ∧ batch_total b < 2 ^ 256 ∧
       BurnCoins ModuleName (burn_coins_of (ao_Denom o) b) w = (None, w')
  else w' = w.

Lemma settle_eq s o b w :
  wf_batch b → settled o b (st_world s) w →
  (if decide (ao_Origin o = AssetOriginEthereum) then
     totalToBurn ← opt_panic "Int.Add" (total_to_burn (ib_Transactions b));
     coin ← opt_panic "NewCoin" (NewCoin (ao_Denom o) totalToBurn);
     burnVouchers ← opt_panic "NewCoins" (NewCoins1 coin);
     must "BurnCoins" (call (BurnCoins ModuleName burnVouchers))
   else mret tt) s = Ret tt (upd_world (λ _, w) s).
Proof.
  intros Hwf%wf_batch_ok. destruct Hwf as (_ & _ & Hf). unfold settled.
  destruct (decide (ao_Origin o = AssetOriginEthereum)).
  2:{ intros ->. by destruct s. }
  intros (Hvd & Hlt & Hburn). rewrite total_to_burn_eq by done. fold (batch_total b).
  assert (0 ≤ batch_total b).
  { apply sumZ_nonneg. eapply Forall_impl; [exact Hf|apply tx_total_nonneg]. }
  rewrite (bind_ret _ _ s (batch_total b) s) by done.
  unfold NewCoin, Coin_IsValid. cbn [Denom Amount]. rewrite Hvd.
  destruct (Z.leb_spec 0 (batch_total b)); [|lia]. cbn [andb].
  rewrite (bind_ret _ _ s (mkCoin (ao_Denom o) (batch_total b)) s) by done.
  rewrite (bind_ret _ _ s (burn_coins_of (ao_Denom o) b) s).
  - unfold must, call. by rewrite Hburn.
  - unfold NewCoins1, burn_coins_of, Coin_IsValid. cbn [Denom Amount]. rewrite Hvd.
    destruct (batch_total b =? 0); [done|]. by destruct (Z.leb_spec 0 (batch_total b)); [|lia].
Qed.

Lemma OutgoingTxBatchExecuted_run s c claim b o w :
  transfers_ok s → reg_ok (raw s) → has_params s → eth_ok c → u64_ok (bc_BatchNonce claim) →
  find_batch (st_kv s) c (bc_BatchNonce claim) = Some b →
  bc_EthBlockHeight claim < ib_BatchTimeout b →
  ClassifyERC20 c s = Ret o s → settled o b (st_world s) w →
  ∃ s', OutgoingTxBatchExecuted c claim s = Ret tt s' ∧ st_world s' = w ∧ raw s' = raw s ∧
    kv_params (st_kv s') = kv_params (st_kv s) ∧
    transfers s ≡ₚ ib_Transactions b ++ transfers s' ∧ transfers_ok s' ∧
    ∀ b', b' ∈ batch_list (batches s') ↔
          b' ∈ batch_list (batches s) ∧ ¬ (ib_TokenContract b' = c ∧ ib_BatchNonce b' ≤ ib_BatchNonce b).
Proof.
  intros Hs Hreg Hpar Hc Hn Hfind Hto Hcl Hset. unfold OutgoingTxBatchExecuted.
  rewrite (bind_ret _ _ _ _ _ (GetOutgoingTXBatch_eq s c _ Hs)), Hfind.
  apply find_batch_some in Hfind as (Hb & Hbc & Hbn); [|done..].
  pose proof Hb as [Hwf _]%elem_of_batch_list; [|apply Hs].
  rewrite (bind_ret _ _ s b s) by done.
  destruct (Z.leb_spec (ib_BatchTimeout b) (bc_EthBlockHeight claim)); [lia|].
  rewrite (bind_ret _ _ s tt s) by done. cbv zeta. rewrite Hbc.
  rewrite (bind_ret _ _ s o s) by (unfold must; by rewrite Hcl).
  rewrite (bind_ret _ _ _ _ _ (settle_eq s o b w Hwf Hset)).
  set (s1 := upd_world (λ _, w) s).
  assert (transfers_ok s1) as Hs1 by (destruct Hs; by split).
  destruct (exec_loop c (ib_BatchNonce b) (batch_list (batches s1)) s1)
    as (s2 & Hrun & Hmv & Hiff); [done..|by apply batch_list_NoDup, Hs1|done|].
  rewrite (bind_ret _ _ s1 tt s2) by (by rewrite iterate_batches_eq by apply Hs1).
  assert (b ∈ batch_list (batches s2)) as Hb2.
  { apply Hiff. split; [done|]. intros [_ [_ ?]]. lia. }
  rewrite (bind_ret _ _ s2 tt (drop_batch b s2)).
  2:{ unfold DeleteBatch. by rewrite batch_ValidateBasic_ok by (by apply wf_batch_ok). }
  rewrite DeleteBatchConfirms_eq. eexists. split; [done|].
  pose proof (obm_ok _ _ Hmv) as Hs2.
  pose proof Hb2 as [_ Hk2]%elem_of_batch_list; [|apply Hs2].
  assert (transfers s ≡ₚ ib_Transactions b ++ transfers (drop_batch b s2)) as Hperm.
  { change (transfers s) with (transfers s1). rewrite <- (obm_transfers _ _ Hmv).
    unfold transfers. simpl. rewrite (batch_txs_delete _ _ _ Hk2), parse_batch_ext by done.
    by rewrite !app_assoc, (Permutation_app_comm (pool_txs _)). }
  split_and!; [apply (obm_world _ _ Hmv)|apply (obm_raw _ _ Hmv)|apply (obm_params _ _ Hmv)|done|..].
  - apply (transfers_ok_shrink s2 _ (ib_Transactions b)); [done| |apply Hs2| |done|done|].
    + rewrite (obm_transfers _ _ Hmv). exact Hperm.
    + simpl. apply map_Forall_delete, Hs2.
    + simpl. apply delete_subseteq.
  - intros b'. simpl. rewrite batch_list_delete by (done || apply Hs2). rewrite Hiff.
    change (batches s1) with (batches s). unfold earlier. split.
    + intros [[Hb' Hne] Hnb]. split; [done|]. intros [Hc' Hle].
      destruct (decide (ib_BatchNonce b' = ib_BatchNonce b)) as [E|E]; [|apply Hne; split_and!; try done; lia].
      apply Hnb. apply find_batch_in in Hb', Hb; [|done..].
      rewrite Hc', E in Hb'. rewrite Hbc in Hb. congruence.
    + intros [Hb' Hne]. split_and!; [done| |intros ->; apply Hne; split; [done|lia]].
      intros [_ [? ?]]. apply Hne. split; [done|lia].
Qed.

(** C8. [OutgoingTxBatchExecuted], for a known batch that has not timed out and
    whose payment can be settled, always completes: the batch's transfers, and no
    others, leave the chain, the earlier batches of the token are cancelled, every
    other batch stays. *)
Theorem OutgoingTxBatchExecuted_completes s c claim b o w :
  transfers_ok s → reg_ok (raw s) → has_params s → eth_ok c → u64_ok (bc_BatchNonce claim) →
  find_batch (st_kv s) c (bc_BatchNonce claim) = Some b →
  bc_EthBlockHeight claim < ib_BatchTimeout b →
  ClassifyERC20 c s = Ret o s → settled o b (st_world s) w →
  ∃ s', OutgoingTxBatchExecuted c claim s = Ret tt s' ∧ st_world s' = w ∧
    transfers s ≡ₚ ib_Transactions b ++ transfers s' ∧ transfers_ok s' ∧
    ∀ b', b' ∈ batch_list (batches s') ↔
          b' ∈ batch_list (batches s) ∧ ¬ (ib_TokenContract b' = c ∧ ib_BatchNonce b' ≤ ib_BatchNonce b).
Proof.
  intros Hs Hreg Hpar Hc Hn Hfind Hto Hcl Hset.
  destruct (OutgoingTxBatchExecuted_run s c claim b o w)
    as (s' & ? & ? & _ & _ & ? & ? & ?); [done..|]. by exists s'.
Qed.

(** [OutgoingTxBatchExecuted] never applies a claim about a batch that does
    not exist or whose timeout the Ethereum height of the claim has reached: it
    panics. *)
Theorem OutgoingTxBatchExecuted_panics s c claim :
  transfers_ok s →
  (∀ b, find_batch (st_kv s) c (bc_BatchNonce claim) = Some b →
        ib_BatchTimeout b ≤ bc_EthBlockHeight claim) →
  ∃ msg, OutgoingTxBatchExecuted c claim s = Panic msg.
Proof.
  intros Hs Hf. unfold OutgoingTxBatchExecuted.
  rewrite (bind_ret _ _ _ _ _ (GetOutgoingTXBatch_eq s c _ Hs)).
  destruct (find_batch (st_kv s) c (bc_BatchNonce claim)) as [b|]; [|by eexists].
  rewrite (bind_ret _ _ s b s) by done. specialize (Hf b eq_refl).
  destruct (Z.leb_spec (ib_BatchTimeout b) (bc_EthBlockHeight claim)); [|lia]. by eexists.
Qed.

Lemma total_to_burn_inv txs x :
  total_to_burn txs = Some x → x = sumZ tx_total txs ∧ int_ok x.
Proof.
  unfold total_to_burn. assert (int_ok 0) as H0' by done. revert H0'.
  replace (sumZ tx_total txs) with (0 + sumZ tx_total txs) by lia. generalize 0.
  induction txs as [|t txs IH]; intros acc Hacc; [simpl; intros [= <-]; split; [lia|done]|].
  cbn [foldl mbind option_bind sumZ foldr]. fold (sumZ tx_total txs).
  assert (foldl (λ sum tx, x ← sum;
      t ← Int_Add (it_Amount (tx_Erc20Token tx)) (it_Amount (tx_Erc20Fee tx));
      Int_Add x t) None txs = None) as Hnone by (clear; by induction txs).
  destruct (Int_Add (it_Amount (tx_Erc20Token t)) (it_Amount (tx_Erc20Fee t))) as [y|] eqn:Ey;
    cbn [mbind option_bind]; [|by rewrite Hnone].
  destruct (Int_Add acc y) as [z|] eqn:Ez; [|by rewrite Hnone].
  unfold Int_Add in Ey, Ez. fold (tx_total t) in Ey.
  apply int_check_inv in Ey as [-> _], Ez as [-> ?]. intros [-> ?]%IH; [|done].
  split; [lia|done].
Qed.

Lemma settle_inv s s' o b u :
  (if decide (ao_Origin o = AssetOriginEthereum) then
     totalToBurn ← opt_panic "Int.Add" (total_to_burn (ib_Transactions b));
     coin ← opt_panic "NewCoin" (NewCoin (ao_Denom o) totalToBurn);
     burnVouchers ← opt_panic "NewCoins" (NewCoins1 coin);
     must "BurnCoins" (call (BurnCoins ModuleName burnVouchers))
   else mret tt) s = Ret u s' →
  settled o b (st_world s) (st_world s').
Proof.
  unfold settled. destruct (decide (ao_Origin o = AssetOriginEthereum)); [|by intros [= _ <-]].
  intros Hrun. minv_ext.
  match goal with H : total_to_burn _ = Some _ |- _ => apply total_to_burn_inv in H as [-> Hi] end.
  fold (batch_total b) in *. unfold NewCoin in *.
  destruct (Coin_IsValid _) eqn:Hv; [|done]. simplify_eq.
  unfold Coin_IsValid in Hv. zbool. cbn [Denom Amount] in *.
  unfold int_ok in Hi. rewrite Z.abs_eq in Hi by lia. split_and!; [done..|].
  unfold NewCoins1 in *. unfold burn_coins_of. cbn [Denom Amount] in *.
  unfold call in *. destruct (batch_total b =? 0); simplify_eq.
  - by destruct (BurnCoins _ _ _) as [[] ?]; simplify_eq.
  - unfold Coin_IsValid in *. cbn [Denom Amount] in *.
    match goal with H : (if ?c then _ else _) = Some _ |- _ => destruct c; [|done] end. simplify_eq.
    by destruct (BurnCoins _ _ _) as [[] ?]; simplify_eq.
Qed.

(** A completed execution was of a known batch, in time, and settled. *)
Lemma OutgoingTxBatchExecuted_inv s s' c claim u :
  transfers_ok s → reg_ok (raw s) → eth_ok c → u64_ok (bc_BatchNonce claim) →
  OutgoingTxBatchExecuted c claim s = Ret u s' →
  ∃ b o w, find_batch (st_kv s) c (bc_BatchNonce claim) = Some b ∧
    bc_EthBlockHeight claim < ib_BatchTimeout b ∧ ClassifyERC20 c s = Ret o s ∧
    settled o b (st_world s) w.
Proof.
  intros Hs Hreg Hc Hn. unfold OutgoingTxBatchExecuted.
  rewrite (bind_ret _ _ _ _ _ (GetOutgoingTXBatch_eq s c _ Hs)).
  destruct (find_batch (st_kv s) c (bc_BatchNonce claim)) as [b|] eqn:Eb; [|done].
  rewrite (bind_ret _ _ s b s) by done.
  destruct (Z.leb_spec (ib_BatchTimeout b) (bc_EthBlockHeight claim)); [done|].
  apply find_batch_some in Eb as (_ & Hbc & _); [|done..].
  rewrite (bind_ret _ _ s tt s) by done. cbv zeta. rewrite Hbc.
  intros (o & s1 & Ho & Hrun)%bind_ret_inv. apply must_inv in Ho.
  pose proof Ho as (-> & _)%ClassifyERC20_inv; [|done].
  apply bind_ret_inv in Hrun as (v & s2 & Hset%settle_inv & _).
  exists b, o, (st_world s2). done.
Qed.
End ExecuteBatch.
