(* ===== verification/EndBlockCorrect.v ===== *)
(** * Correctness of the end blocker: time-outs and slashing *)

From stdpp Require Import base gmap list strings sorting.
From S2P Require Import Prelude GoStd External Store Ethereum Keys OutgoingTx Valset Claims Keeper DelegateKeys Attestation OracleCorrect OracleObserve Registry ValsetKeeper LogicCall Pool Batch Transfers PoolCorrect BatchCorrect BatchLifecycle EndBlock.

#[local] Open Scope Z_scope.

(** ** Timed out batches *)

Section TimeOut.
Context {W : Type} `{GethLaws} `{SdkLaws} `{Bank W}.
Implicit Types s : State W.

Abbreviation batches s := (kv_batches (st_kv s)).

Definition cleanup_body (ethereumHeight : Z) (batch : InternalOutgoingTxBatch) : K W unit :=
  if ib_BatchTimeout batch <? ethereumHeight then
    must "Failed to cancel outgoing txbatch!"
      (CancelOutgoingTXBatch (ib_TokenContract batch) (ib_BatchNonce batch))
  else mret tt.

(** What is left of the batches while [rest] has not been visited. *)
Record cleaning s (height : Z) (rest : list InternalOutgoingTxBatch) s' : Prop := {
  cl_moved : only_batches_moved s s';
  cl_batches b : b ∈ batch_list (batches s') ↔
    b ∈ batch_list (batches s) ∧ (b ∈ rest ∨ height ≤ ib_BatchTimeout b) }.

Lemma cleanup_step s height b rest s1 :
  has_params s → b ∈ batch_list (batches s) → b ∉ rest → cleaning s height (b :: rest) s1 →
  ∃ u s2, cleanup_body height b s1 = Ret u s2 ∧ cleaning s height rest s2.
Proof.
  intros Hpar Hb Hni [Hmv Hiff]. unfold cleanup_body.
  destruct (Z.ltb_spec (ib_BatchTimeout b) height) as [Hlt|Hge].
  - pose proof (obm_ok _ _ Hmv) as Hs1.
    assert (b ∈ batch_list (batches s1)) as Hb1 by (apply Hiff; split; [done|left; left]).
    pose proof Hb1 as [(Hn & Hc & _) _]%elem_of_batch_list; [|apply Hs1].
    exists tt, (batch_canceled b s1). split.
    + unfold must. rewrite CancelOutgoingTXBatch_run; [|done| |done..].
      * by rewrite find_batch_in.
      * destruct Hpar as (p & Hp & ?). exists p. by rewrite (obm_params _ _ Hmv).
    + split; [eapply only_batches_moved_trans; [done|by apply batch_canceled_moved]|].
      intros b'. unfold batch_canceled. rewrite (put_txs_frame (ib_Transactions b) s1). simpl.
      rewrite batch_list_delete by (done || apply Hs1). rewrite Hiff, elem_of_cons.
      split; [naive_solver|]. intros [? [Hin|Hle]].
      * split_and!; [done|by left; right|by intros ->].
      * split_and!; [done|by right|]. intros ->. lia.
  - exists tt, s1. split; [done|]. split; [done|]. intros b'. rewrite Hiff, elem_of_cons. naive_solver.
Qed.

(** At the end of a block every batch whose timeout lies below the last
    observed Ethereum height is cancelled, and no other: the call never panics or
    fails, the transfers of the cancelled batches go back to the pool and none is
    lost, and no coin moves. *)
Theorem cleanupTimedOutBatches_spec s :
  transfers_ok s → has_params s →
  ∃ s', cleanupTimedOutBatches s = Ret tt s' ∧
    transfers s' ≡ₚ transfers s ∧ transfers_ok s' ∧ st_world s' = st_world s ∧
    ∀ b, b ∈ batch_list (batches s') ↔ b ∈ batch_list (batches s) ∧ eth_height s ≤ ib_BatchTimeout b.
Proof.
  intros Hs Hpar. unfold cleanupTimedOutBatches.
  rewrite (bind_ret _ _ s (default (mkEthHeight 0 0) (kv_ethHeight (st_kv s))) s) by done.
  cbv zeta. fold (eth_height s).
  rewrite (bind_ret _ _ s (batch_list (batches s)) s).
  2:{ unfold GetOutgoingTxBatches. rewrite iterate_batches_eq by apply Hs. apply for_acc_collect. }
  destruct (for_each_returns (λ rest s', cleaning s (eth_height s) rest s')
    (batch_list (batches s)) (cleanup_body (eth_height s)) s) as ([] & s' & E & [Hmv Hiff]).
  - split; [by split|]. intros b. naive_solver.
  - intros b rest s1 [seen Esuf] Hcl. pose proof (batch_list_NoDup _ (tok_batches _ Hs)) as Hnd.
    rewrite Esuf in Hnd. apply NoDup_app in Hnd as (_ & _ & [Hni _]%NoDup_cons).
    apply cleanup_step; [done| |done..]. rewrite Esuf. set_solver.
  - exists s'. split; [exact E|]. destruct Hmv as [Hp Hok _ _ Hw]. split_and!; [done..|].
    intros b. rewrite Hiff, elem_of_nil. naive_solver.
Qed.
End TimeOut.

(** ** Slashing *)

(** What slashing relies on x/staking for: the consensus address [cons_of] of an
    operator is fixed; slashing does not release a validator from jail, and
    jailing puts the validator with that consensus address in jail. *)
Class SlashLaws (W : Type) `{Sdk} `{Staking W} (cons_of : bytes → bytes) := {
  #[global] slash_validators :: ValidatorLaws W;
  validator_cons w op v : GetValidator w op = Ok v → v_ConsAddr v = Ok (cons_of op);
  bonded_cons w l v op :
    GetBondedValidatorsByPower w = Ok l → v ∈ l →
    ValAddressFromBech32 (v_OperatorAddress v) = Ok op → v_ConsAddr v = Ok (cons_of op);
  slash_keeps_jail c h p f w op v' :
    GetValidator (Slash c h p f w).2 op = Ok v' →
    ∃ v, GetValidator w op = Ok v ∧ v_Jailed v' = v_Jailed v;
  jail_keeps_jail c w op v' :
    GetValidator (Jail c w).2 op = Ok v' →
    ∃ v, GetValidator w op = Ok v ∧ (v_Jailed v = true → v_Jailed v' = true);
  jail_jails c w w' op v' :
    Jail c w = (None, w') → GetValidator w' op = Ok v' → cons_of op = c → v_Jailed v' = true;
}.

Section Slashing.
Context {W : Type} `{Geth} `{Sdk} `{Bank W} `{Staking W} (cons_of : bytes → bytes).
Context `{!SlashLaws W cons_of}.
Implicit Types (s : State W) (w : W).

Definition jailed w (c : bytes) : Prop :=
  ∀ op v, GetValidator w op = Ok v → cons_of op = c → v_Jailed v = true.
Definition free w (c : bytes) : Prop :=
  ∃ op v, GetValidator w op = Ok v ∧ cons_of op = c ∧ v_Jailed v = false.

(** The consensus addresses slashed so far, as announced: the code emits an
    [EventSignatureSlashing] right after each [Slash] that went through, and nowhere
    else ([slash_and_jail]), so these events count the slashings. *)
Definition slashed s : list bytes :=
  omap (λ e, match e with EventSignatureSlashing _ c => Some c | _ => None end) (st_events s).

(** Between two states, validators were slashed once each, and jailed. *)
Record slashed_once s s' : Prop := {
  so_free c : free (st_world s') c → free (st_world s) c;
  so_jailed c : jailed (st_world s) c → jailed (st_world s') c;
  so_new : ∃ new, slashed s' = slashed s ++ new ∧ NoDup new ∧
    Forall (λ c, free (st_world s) c ∧ jailed (st_world s') c) new }.

Lemma free_not_jailed w c : free w c → ¬ jailed w c.
Proof. intros (op & v & Hv & Hc & Hj) Hjl. by rewrite (Hjl op v Hv Hc) in Hj. Qed.

#[local] Instance slashed_once_refl : Reflexive slashed_once.
Proof. intros s. split; [done..|]. exists []. by rewrite app_nil_r; repeat constructor. Qed.
#[local] Instance slashed_once_trans : Transitive slashed_once.
Proof.
  intros s1 s2 s3 [F1 J1 (n1 & E1 & N1 & P1)] [F2 J2 (n2 & E2 & N2 & P2)].
  split; [by auto..|]. exists (n1 ++ n2). rewrite E2, E1, app_assoc. split; [done|].
  rewrite Forall_forall in P1. rewrite Forall_forall in P2. split.
  - apply NoDup_app. split_and!; [done| |done]. intros c H1' H2'.
    destruct (P1 c H1') as [_ Hj], (P2 c H2') as [Hf _]. by apply (free_not_jailed (st_world s2) c).
  - apply Forall_forall. intros c [Hin|Hin]%elem_of_app.
    + destruct (P1 c Hin). auto.
    + destruct (P2 c Hin). auto.
Qed.

Lemma slashed_once_kv f s : slashed_once s (upd_kv f s).
Proof. split; [done..|]. exists []. by rewrite app_nil_r; repeat constructor. Qed.

Lemma frame_raw_set_once k v : frame slashed_once (raw_set k v : K W _).
Proof. apply frame_modify. intros s. apply slashed_once_kv. Qed.
#[local] Hint Resolve frame_raw_set_once : frame.

Lemma free_step w w' c :
  (∀ op v', GetValidator w' op = Ok v' →
     ∃ v, GetValidator w op = Ok v ∧ (v_Jailed v = true → v_Jailed v' = true)) →
  (free w' c → free w c) ∧ (jailed w c → jailed w' c).
Proof.
  intros Hstep. split.
  - intros (op & v' & Hv' & Hc & Hj). destruct (Hstep op v' Hv') as (v & Hv & Himp).
    exists op, v. split_and!; [done..|]. destruct (v_Jailed v); [|done].
    by rewrite Himp in Hj.
  - intros Hj op v' Hv' Hc. destruct (Hstep op v' Hv') as (v & Hv & Himp). eauto.
Qed.

(** The innermost block: whoever is slashed was free and is now in jail. *)
Lemma frame_slash_and_jail val consAddr fraction ty :
  (∀ op, ValAddressFromBech32 (v_OperatorAddress val) = Ok op → consAddr = cons_of op) →
  frame slashed_once (slash_and_jail val consAddr fraction ty : K W _).
Proof.
  intros Hcons s. unfold slash_and_jail, updateValidator.
  destruct (ValAddressFromBech32 (v_OperatorAddress val)) as [op|] eqn:Eop; [|done].
  specialize (Hcons op eq_refl). mrun.
  destruct (GetValidator (st_world s) op) as [v|] eqn:Ev; [|done].
  destruct (v_Jailed v) eqn:Ej; [by apply slashed_once_refl|]. cbn [negb]. unfold call, emit. mrun.
  destruct (Slash consAddr (st_height s) (v_ConsensusPower v) fraction (st_world s)) as [[e|] w1] eqn:Es;
    [done|]. simpl.
  destruct (Jail consAddr w1) as [[e|] w2] eqn:Ejl; [done|]. simpl.
  assert (∀ op' v', GetValidator w2 op' = Ok v' → ∃ v0, GetValidator (st_world s) op' = Ok v0 ∧
    (v_Jailed v0 = true → v_Jailed v' = true)) as Hstep.
  { intros op' v' Hv'. pose proof (jail_keeps_jail consAddr w1 op' v') as Hj. rewrite Ejl in Hj.
    destruct (Hj Hv') as (v1 & Hv1 & Himp1).
    pose proof (slash_keeps_jail consAddr (st_height s) (v_ConsensusPower v) fraction (st_world s) op' v1) as Hsl.
    rewrite Es in Hsl. destruct (Hsl Hv1) as (v0 & Hv0 & E). exists v0. split; [done|].
    intros ?. apply Himp1. congruence. }
  split; simpl.
  - intros c. by apply free_step.
  - intros c. by apply free_step.
  - exists [consAddr]. split; [unfold slashed; simpl; by rewrite omap_app|].
    split; [apply NoDup_singleton|]. repeat constructor.
    + by exists op, v.
    + intros op' v' Hv' Hc. by eapply jail_jails.
Qed.

Lemma frame_slash_bonded confirms created fraction ty val :
  (∀ op, ValAddressFromBech32 (v_OperatorAddress val) = Ok op → v_ConsAddr val = Ok (cons_of op)) →
  frame slashed_once (slash_bonded confirms created fraction ty val : K W _).
Proof.
  intros Hcons. unfold slash_bonded. apply frame_bind_post; [apply _|framed|].
  intros c s1 s2 [Ec _]%or_panic_inv. framed. apply frame_slash_and_jail.
  intros op Hop. specialize (Hcons op Hop). congruence.
Qed.

Lemma frame_slash_unbonding params confirms vs valAddr :
  frame slashed_once (slash_unbonding params confirms vs valAddr : K W _).
Proof.
  unfold slash_unbonding. apply frame_bind; [apply _|framed|]. intros addr.
  apply frame_bind_post; [apply _|framed|]. intros found s1 s2 [-> _]%gets_inv.
  apply frame_bind_post; [apply _|framed|]. intros v s3 s4 [Hv _]%or_panic_inv.
  apply frame_bind_post; [apply _|framed|]. intros c s5 s6 [Ec _]%or_panic_inv.
  framed. apply frame_slash_and_jail. intros op Hop.
  pose proof (validator_cons _ _ _ Hv) as E1. pose proof (validator_operator _ _ _ Hv) as E2. congruence.
Qed.
#[local] Hint Resolve frame_slash_unbonding : frame.

Lemma readonly_confirming l msg : readonly (confirming l msg : K W _).
Proof. unfold confirming. readonly. Qed.
#[local] Hint Resolve readonly_confirming : readonly.
Lemma readonly_prepValsetConfirms n : readonly (prepValsetConfirms n : K W _).
Proof. unfold prepValsetConfirms, GetValsetConfirms. readonly. Qed.
Lemma readonly_prepBatchConfirms b : readonly (prepBatchConfirms b : K W _).
Proof. unfold prepBatchConfirms, GetBatchConfirmByNonceAndTokenContract. readonly. Qed.
Lemma readonly_prepLogicCallConfirms c : readonly (prepLogicCallConfirms c : K W _).
Proof.
  unfold prepLogicCallConfirms, GetLogicConfirmsByInvalidationIdAndNonce,
    IterateLogicConfirmsByInvalidationIDAndNonce, iterateLogicConfirmsByPrefix. readonly.
Qed.
Lemma readonly_GetUnSlashedValsets n : readonly (GetUnSlashedValsets n : K W _).
Proof.
  unfold GetUnSlashedValsets, GetLastSlashedValsetNonce, get_counter, BlockHeight,
    IterateValsetBySlashedValsetNonce, GetLatestValsetNonce, CheckLatestValsetNonce. readonly.
Qed.
Lemma readonly_GetUnSlashedBatches n : readonly (GetUnSlashedBatches n : K W _).
Proof.
  unfold GetUnSlashedBatches, GetLastSlashedBatchBlock, GetOutgoingTxBatches,
    IterateOutgoingTxBatches. readonly.
Qed.
Lemma readonly_GetUnSlashedLogicCalls n : readonly (GetUnSlashedLogicCalls n : K W _).
Proof.
  unfold GetUnSlashedLogicCalls, GetLastSlashedLogicCallBlock, GetOutgoingLogicCalls,
    IterateOutgoingLogicCalls. readonly.
Qed.
Lemma frame_SetLastSlashedBatchBlock n : frame slashed_once (SetLastSlashedBatchBlock n : K W _).
Proof. unfold SetLastSlashedBatchBlock, HasLastSlashedBatchBlock, GetLastSlashedBatchBlock. framed. Qed.
Lemma frame_SetLastSlashedLogicCallBlock n :
  frame slashed_once (SetLastSlashedLogicCallBlock n : K W _).
Proof.
  unfold SetLastSlashedLogicCallBlock, HasLastSlashedLogicCallBlock, GetLastSlashedLogicCallBlock. framed.
Qed.
#[local] Hint Resolve readonly_prepValsetConfirms readonly_prepBatchConfirms
  readonly_prepLogicCallConfirms readonly_GetUnSlashedValsets readonly_GetUnSlashedBatches
  readonly_GetUnSlashedLogicCalls : readonly.
#[local] Hint Resolve frame_SetLastSlashedBatchBlock frame_SetLastSlashedLogicCallBlock : frame.

(** A loop over the bonded validators. *)
Lemma frame_bonded {A} (f : list Validator → K W A) :
  (∀ l, (∀ confirms created fraction ty, frame slashed_once
           (for_each l (slash_bonded confirms created fraction ty) : K W _)) →
        frame slashed_once (f l)) →
  frame slashed_once (l ← bonded_set; f l).
Proof.
  intros Hf. apply frame_bind_post; [apply _|unfold bonded_set; framed|].
  intros l s s' Hl. apply Hf. intros confirms created fraction ty.
  unfold bonded_set in Hl. minv. apply frame_for_each_in; [apply _..|]. intros v Hv.
  apply frame_slash_bonded. intros op Hop. by eapply bonded_cons.
Qed.

Lemma frame_valsetSlashing params : frame slashed_once (valsetSlashing params : K W _).
Proof.
  unfold valsetSlashing, BlockHeight, SetLastSlashedValsetNonce, getUnbondingValidators.
  apply frame_bind; [apply _|framed|]. intros h. case_match; [framed|].
  apply frame_bind; [apply _|framed|]. intros l. apply frame_bonded. intros vals Hvals. framed.
Qed.
Lemma frame_batchSlashing params : frame slashed_once (batchSlashing params : K W _).
Proof.
  unfold batchSlashing, BlockHeight. apply frame_bind; [apply _|framed|]. intros h.
  case_match; [framed|]. apply frame_bonded. intros vals Hvals. framed.
Qed.
Lemma frame_logicCallSlashing params : frame slashed_once (logicCallSlashing params : K W _).
Proof.
  unfold logicCallSlashing, BlockHeight. apply frame_bind; [apply _|framed|]. intros h.
  case_match; [framed|]. apply frame_bonded. intros vals Hvals. framed.
Qed.
#[local] Hint Resolve frame_valsetSlashing frame_batchSlashing frame_logicCallSlashing : frame.

(** C36. Whatever a validator has failed to sign, valsets, batches or logic calls,
    and however many of them, it is slashed at most once in a block: whoever is
    slashed was not in jail before and is in jail afterwards. *)
Theorem slashing_once s s' :
  slashing s = Ret tt s' →
  ∃ new, slashed s' = slashed s ++ new ∧ NoDup new ∧
    Forall (λ c, free (st_world s) c ∧ jailed (st_world s') c) new.
Proof.
  intros Hrun. apply (frame_inv slashed_once) in Hrun; [apply Hrun|]. unfold slashing. framed.
Qed.
End Slashing.

(** ** The order in which batches are slashed *)

Section SlashOrder.
Context {W : Type} `{Geth} `{Sdk} `{Bank W} `{Staking W}.
Implicit Types s : State W.

Definition kv_same s s' : Prop := st_kv s' = st_kv s.
#[local] Instance kv_same_refl : Reflexive kv_same.
Proof. done. Qed.
#[local] Instance kv_same_trans : Transitive kv_same.
Proof. intros s1 s2 s3. unfold kv_same. congruence. Qed.

Lemma frame_call_kv f : frame kv_same (call f : K W _).
Proof. intros s. unfold call. by destruct (f (st_world s)) as [[]]. Qed.
Lemma frame_emit_kv e : frame kv_same (emit e : K W _).
Proof. by apply frame_modify. Qed.
#[local] Hint Resolve frame_call_kv frame_emit_kv : frame.

Lemma frame_slash_bonded_kv confirms created fraction ty val :
  frame kv_same (slash_bonded confirms created fraction ty val : K W _).
Proof. unfold slash_bonded, slash_and_jail, updateValidator. framed. Qed.
#[local] Hint Resolve frame_slash_bonded_kv : frame.

Definition slash_batch (params : Params) (vals : list Validator) (batch : InternalOutgoingTxBatch) : K W unit :=
  confirms ← prepBatchConfirms batch;
  _ ← for_each vals
        (slash_bonded confirms (ib_CosmosBlockCreated batch) (p_SlashFractionBatch params)
           "batch_signature_slashing");
  SetLastSlashedBatchBlock (ib_CosmosBlockCreated batch).

Lemma slash_batch_inv params vals batch s s' h :
  raw s !! LastSlashedBatchBlock = Some (UInt64Bytes h) → u64_ok h →
  slash_batch params vals batch s = Ret tt s' →
  h ≤ ib_CosmosBlockCreated batch ∧
  raw s' !! LastSlashedBatchBlock = Some (UInt64Bytes (ib_CosmosBlockCreated batch)).
Proof.
  intros Hh Hu Hrun. unfold slash_batch in Hrun. mnext Hrun as confirms s1 E1.
  apply readonly_inv in E1 as ->; [|unfold prepBatchConfirms, confirming, GetBatchConfirmByNonceAndTokenContract; readonly].
  mnext Hrun as u s2 E2. apply (frame_inv kv_same) in E2; [|framed]. unfold kv_same in E2.
  unfold SetLastSlashedBatchBlock, HasLastSlashedBatchBlock, raw_has in Hrun.
  mnext Hrun as has s3 E3. apply gets_inv in E3 as [-> ->]. rewrite E2, Hh, bool_decide_true in Hrun by done.
  mnext Hrun as u2 s4 E4. mnext E4 as last s5 E5.
  unfold GetLastSlashedBatchBlock, raw_get in E5. mnext E5 as bz s6 E6. apply gets_inv in E6 as [-> ->].
  rewrite E2, Hh in E5. cbn [default id] in E5. mnext E5 as u3 s7 E7. apply guard_panic_inv in E7 as [_ ->].
  rewrite UInt64_roundtrip in E5 by done. apply opt_panic_inv in E5 as [[= <-] ->].
  apply guard_panic_inv in E4 as [Hle ->]. zbool. apply modify_inv in Hrun as ->.
  split; [done|]. simpl. by rewrite lookup_insert_eq.
Qed.

Lemma slash_batches_sorted params vals l s s' h :
  raw s !! LastSlashedBatchBlock = Some (UInt64Bytes h) → u64_ok h →
  Forall (λ b, u64_ok (ib_CosmosBlockCreated b)) l →
  for_each l (slash_batch params vals) s = Ret tt s' →
  Sorted Z.le (h :: (ib_CosmosBlockCreated <$> l)).
Proof.
  revert s h. induction l as [|b l IH]; intros s h Hh Hu Hf Hrun; [repeat constructor|].
  apply Forall_cons in Hf as [Hb Hf]. cbn [for_each] in Hrun. mnext Hrun as u s1 E1. destruct u.
  destruct (slash_batch_inv params vals b s s1 h Hh Hu E1) as [Hle Hr].
  cbn [fmap list_fmap]. constructor; [by eapply IH|by constructor].
Qed.

(** Slashing for unsigned batches completes only when the batches come in the order
    of their creation: handling one records its height, and the next may not be
    older. *)
Lemma batchSlashing_needs_order params s s' u l h :
  raw s !! LastSlashedBatchBlock = Some (UInt64Bytes h) → u64_ok h →
  p_SignedBatchesWindow params < u64 (st_height s) →
  GetUnSlashedBatches (u64 (st_height s) - p_SignedBatchesWindow params) s = Ret l s →
  Forall (λ b, u64_ok (ib_CosmosBlockCreated b)) l →
  batchSlashing params s = Ret u s' → Sorted Z.le (ib_CosmosBlockCreated <$> l).
Proof.
  intros Hh Hu Hw Hl Hf Hrun. unfold batchSlashing, BlockHeight in Hrun.
  mnext Hrun as height s1 E1. apply gets_inv in E1 as [-> ->].
  rewrite (proj2 (Z.ltb_lt _ _) Hw) in Hrun. cbn [negb] in Hrun. mnext Hrun as vals s2 E2.
  apply readonly_inv in E2 as ->; [|unfold bonded_set; readonly].
  rewrite (bind_ret _ _ _ _ _ Hl) in Hrun. fold (slash_batch params vals) in Hrun. destruct u.
  apply slash_batches_sorted with (h := h) in Hrun; [|done..]. by apply Sorted_inv in Hrun as [? _].
Qed.

End SlashOrder.

(** *** Methods that return or panic, and never return an error *)

Definition never_fails {S A} (m : M S A) : Prop := ∀ s e s', m s ≠ Fail e s'.

Lemma never_fails_bind {S A B} (m : M S A) (f : A → M S B) :
  never_fails m → (∀ a, never_fails (f a)) → never_fails (m ≫= f).
Proof.
  intros Hm Hf s e s'. unfold mbind, M_bind. specialize (Hm s).
  destruct (m s) as [a s1|e1 s1|msg]; [apply Hf|by destruct (Hm e1 s1)|done].
Qed.
Lemma never_fails_for_each {S A} (l : list A) (body : A → M S unit) :
  (∀ x, never_fails (body x)) → never_fails (for_each l body).
Proof. intros Hb. induction l as [|x l IH]; [done|]. by apply never_fails_bind. Qed.
Lemma never_fails_for_acc {S A B} (l : list A) (acc : B) (body : A → B → M S (B * bool)) :
  (∀ x b, never_fails (body x b)) → never_fails (for_acc l acc body).
Proof.
  intros Hb. revert acc. induction l as [|x l IH]; intros acc; [done|].
  apply never_fails_bind; [done|]. intros [b []]; [done|apply IH].
Qed.
Lemma never_fails_must {S A} msg (m : M S A) : never_fails (must msg m).
Proof. intros s e s'. unfold must. by destruct (m s). Qed.
Lemma never_fails_or_panic {S A} msg (r : res A) : never_fails (or_panic msg r : M S A).
Proof. by destruct r. Qed.
Lemma never_fails_opt_panic {S A} msg (o : option A) : never_fails (opt_panic msg o : M S A).
Proof. by destruct o. Qed.
Lemma never_fails_guard_panic {S} b msg : never_fails (guard_panic b msg : M S unit).
Proof. by destruct b. Qed.

Local Ltac never_fails :=
  repeat (cbv zeta; match goal with
  | |- never_fails (_ ≫= _) => apply never_fails_bind; [|intros ?]
  | |- never_fails (for_each _ _) => apply never_fails_for_each; intros ?
  | |- never_fails (for_acc _ _ _) => apply never_fails_for_acc; intros ? ?
  | |- never_fails (must _ _) => apply never_fails_must
  | |- never_fails (or_panic _ _) => apply never_fails_or_panic
  | |- never_fails (opt_panic _ _) => apply never_fails_opt_panic
  | |- never_fails (guard_panic _ _) => apply never_fails_guard_panic
  | |- never_fails (match ?x with _ => _ end) => destruct x
  | |- never_fails _ => done
  end).

Section SameToken.
Context {W : Type} `{GethLaws} `{SdkLaws} `{Bank W} `{Staking W}.
Implicit Types s : State W.

Lemma batchSlashing_never_fails params : never_fails (batchSlashing params : K W _).
Proof.
  unfold batchSlashing, bonded_set, GetUnSlashedBatches, GetLastSlashedBatchBlock, GetOutgoingTxBatches,
    IterateOutgoingTxBatches, prepBatchConfirms, confirming, GetBatchConfirmByNonceAndTokenContract,
    GetOrchestratorValidatorAddr, slash_bonded, slash_and_jail, updateValidator, SetLastSlashedBatchBlock,
    HasLastSlashedBatchBlock, GetLastSlashedBatchBlock. never_fails.
Qed.

(** *** The order of the batches of one token *)

Lemma batch_list_sorted m :
  map_Forall batch_entry_ok m →
  StronglySorted (λ b1 b2, bytes_lt (batch_key b2) (batch_key b1)) (batch_list m).
Proof.
  intros Hm. unfold batch_list.
  pose proof (iter_desc_sorted m (None, None)) as Hs.
  pose proof (iter_desc_entries_ok _ m (None, None) Hm) as Hok.
  induction Hs as [|[k e] l Hl IH Hk]; [constructor|].
  apply Forall_cons in Hok as [(b & Hb & He & Hkey) Hok]. simpl in He, Hkey. subst.
  cbn [mbind list_bind snd]. rewrite parse_batch1_ext by done. simpl.
  constructor; [by apply IH|].
  rewrite Forall_forall in Hok. rewrite Forall_forall in Hk. apply Forall_forall.
  intros b2 ([k2 e2] & Hb2 & Hin)%list_elem_of_bind. simpl in Hb2.
  destruct (Hok _ Hin) as (b3 & Hb3 & He3 & Hk3). simpl in He3, Hk3. subst.
  rewrite parse_batch1_ext in Hb2 by done. apply list_elem_of_singleton in Hb2 as ->.
  exact (Hk _ Hin).
Qed.

Lemma batch_key_lt b1 b2 :
  wf_batch b1 → wf_batch b2 → ib_TokenContract b1 = ib_TokenContract b2 →
  ib_BatchNonce b1 < ib_BatchNonce b2 → bytes_lt (batch_key b1) (batch_key b2).
Proof.
  intros (Hn1 & _) (Hn2 & _) Hc Hlt. unfold batch_key. rewrite !batch_key_eq, Hc.
  unfold bytes_lt, bytes_ltb. rewrite !bytes_cmp_app by done. rewrite !bytes_cmp_refl.
  rewrite UInt64Bytes_cmp by done. by apply Z.compare_lt_iff in Hlt as ->.
Qed.

(** In a list that descends by one measure and ascends by another, no element is
    below another by both. *)
Lemma sorted_opposite {A} (g : A → bytes) (f : A → Z) (l : list A) x y :
  StronglySorted (λ a b, bytes_lt (g b) (g a)) l → StronglySorted Z.le (f <$> l) → x ∈ l → y ∈ l →
  bytes_lt (g x) (g y) → f x < f y → False.
Proof.
  induction l as [|a l IH]; intros Hs Hf Hx Hy HR Hlt; [by apply not_elem_of_nil in Hx|].
  cbn [fmap list_fmap] in Hf. apply StronglySorted_inv in Hs as [Hs Ha], Hf as [Hf Hfa].
  rewrite Forall_forall in Ha. rewrite Forall_forall in Hfa.
  apply elem_of_cons in Hx as [->|Hx], Hy as [->|Hy]; [lia| | |by apply IH].
  - apply (irreflexivity bytes_lt (g a)). etrans; [exact HR|by apply Ha].
  - specialize (Hfa (f x)). rewrite list_elem_of_fmap in Hfa. specialize (Hfa ltac:(by exists x)). lia.
Qed.

(** C40. Two batches of one token that are due for slashing in the same block stop the
    chain.  Slashing goes through the batches in descending order of their keys, so
    among those of a token the newest nonce comes first, and handling a batch records
    its height, below which the next one may not be.  So when an older and a newer
    batch of a token are both unslashed and both past the signing window, as after
    the window has been shortened, [batchSlashing] panics in the end blocker. *)
Theorem batchSlashing_halts params s h older newer :
  transfers_ok s → raw s !! LastSlashedBatchBlock = Some (UInt64Bytes h) → u64_ok h →
  Forall (λ b, u64_ok (ib_CosmosBlockCreated b)) (batch_list (kv_batches (st_kv s))) →
  older ∈ batch_list (kv_batches (st_kv s)) → newer ∈ batch_list (kv_batches (st_kv s)) →
  ib_TokenContract older = ib_TokenContract newer → ib_BatchNonce older < ib_BatchNonce newer →
  h < ib_CosmosBlockCreated older < ib_CosmosBlockCreated newer →
  ib_CosmosBlockCreated newer + p_SignedBatchesWindow params < u64 (st_height s) →
  ∃ msg, batchSlashing params s = Panic msg.
Proof.
  intros Hs Hh Hu Hf H1' H2' Hc Hn Hht Hdue.
  destruct (batchSlashing params s) as [u s'|e s'|msg] eqn:E;
    [exfalso|by destruct (batchSlashing_never_fails params s e s')|by exists msg].
  pose proof (batch_list_sorted _ (tok_batches _ Hs)) as Hsort.
  set (due := filter (λ b, h < ib_CosmosBlockCreated b ∧
    ib_CosmosBlockCreated b < u64 (st_height s) - p_SignedBatchesWindow params)
    (batch_list (kv_batches (st_kv s)))).
  rewrite Forall_forall in Hf. pose proof (Hf _ H1') as Hu1.
  assert (Sorted Z.le (ib_CosmosBlockCreated <$> due)) as Hasc.
  { eapply (batchSlashing_needs_order params s s' u due h); try done.
    - unfold u64_ok in Hu1. lia.
    - unfold GetUnSlashedBatches, GetLastSlashedBatchBlock, raw_get, opt_panic. mrun. rewrite Hh. cbn [default id].
      rewrite bool_decide_eq_false_2 by done. cbn [guard_panic]. rewrite UInt64_roundtrip by done.
      by rewrite GetOutgoingTxBatches_eq by apply Hs.
    - apply Forall_forall. intros b [_ Hb]%list_elem_of_filter. by apply Hf. }
  apply Sorted_StronglySorted in Hasc; [|intros x y z; lia].
  pose proof H1' as [Hw1 _]%elem_of_batch_list; [|apply Hs].
  pose proof H2' as [Hw2 _]%elem_of_batch_list; [|apply Hs].
  apply (sorted_opposite batch_key ib_CosmosBlockCreated due older newer);
    [by apply StronglySorted_filter'|done|apply list_elem_of_filter; split; [lia|done]..| |lia].
  by apply batch_key_lt.
Qed.
End SameToken.
