(* ===== verification/Escrow.v ===== *)
(** * Solvency: the module holds what it owes

    The transfer subsystem as a state machine: users send and cancel, batches are
    built, cancelled and executed.  Every transfer in flight is backed by coins in
    the module account, in every reachable state, provided that nobody holds coins of a
    denom that names an ERC20 which the bridge pays out in another denom. *)

From stdpp Require Import base gmap list strings sorting relations.
From S2P Require Import Prelude GoStd External Store Ethereum Keys OutgoingTx Valset Claims Keeper Registry Pool Batch Transfers PoolCorrect BatchCorrect BatchLifecycle.

#[local] Open Scope Z_scope.

Section Escrow.
Context {W : Type} `{GethLaws} `{SdkLaws} `{EthAbi} `{Bank W} `{!BankLaws W}.
Implicit Types s : State W.

Definition module_address : bytes := GetModuleAddress ModuleName.

(** What the transfers of a token in flight are worth. *)
Definition locked s (c : EthAddress) : Z := sumZ tx_total (token_transfers s c).

Definition escrow_ok s : Prop :=
  ∀ c, eth_ok c → locked s c ≤ GetBalance (st_world s) module_address (asset_denom (raw s) c).

Record bridge_ok s : Prop := {
  bo_transfers : transfers_ok s;
  bo_registry : reg_ok (raw s);
  bo_params : has_params s;
  bo_escrow : escrow_ok s }.

Definition unheld (w : W) (d : string) : Prop := ∀ a, GetBalance w a d = 0.

(** A denom that names an ERC20 which the bridge pays out in another denom: the
    voucher [gravity0xC] of a contract [C] that is registered for a Cosmos coin, or
    a voucher spelt in another case.  [ClassifyDenom] accepts such a denom. *)
Definition shadow (m : gmap bytes bytes) (d : string) : Prop :=
  ∃ c, namespace_parse (bool_decide (is_Some (m !! GetRemappedERC20Key c))) d = Ok c ∧
    asset_denom m c ≠ d.

Definition no_shadows s : Prop := ∀ d, shadow (raw s) d → unheld (st_world s) d.

(** One completed operation of the transfer subsystem.  The module's own account
    sends nothing, and a counter that has reached 2^64 - 1 is not advanced. *)
Inductive bridge_step : State W → State W → Prop :=
  | step_send s s' sender receiver amount fee id :
      eth_ok receiver → sender ≠ module_address →
      raw s !! KeyLastTXPoolID ≠ Some (UInt64Bytes (two64 - 1)) →
      AddToOutgoingPool sender receiver amount fee s = Ret id s' → bridge_step s s'
  | step_cancel s s' id sender :
      RemoveFromOutgoingPoolAndRefund id sender s = Ret tt s' → bridge_step s s'
  | step_build s s' c max b :
      eth_ok c → 0 ≤ max < two64 →
      raw s !! KeyLastOutgoingBatchID ≠ Some (UInt64Bytes (two64 - 1)) →
      BuildOutgoingTXBatch c max s = Ret b s' → bridge_step s s'
  | step_cancel_batch s s' c nonce :
      eth_ok c → u64_ok nonce → CancelOutgoingTXBatch c nonce s = Ret tt s' → bridge_step s s'
  | step_execute s s' c claim :
      eth_ok c → u64_ok (bc_BatchNonce claim) →
      OutgoingTxBatchExecuted c claim s = Ret tt s' → bridge_step s s'.

(** ** What is locked, under updates *)

Lemma locked_perm s s' ts c :
  transfers s' ≡ₚ ts ++ transfers s →
  locked s' c = sumZ (λ t, if decide (tx_contract t = c) then tx_total t else 0) ts + locked s c.
Proof.
  intros Hp. unfold locked, token_transfers. rewrite Hp, filter_app, sumZ_app.
  by rewrite sumZ_filter.
Qed.

Lemma locked_one s s' t c :
  transfers s' ≡ₚ t :: transfers s →
  locked s' c = (if decide (tx_contract t = c) then tx_total t else 0) + locked s c.
Proof. intros Hp. rewrite (locked_perm s s' [t]) by done. simpl. lia. Qed.

Lemma locked_same s s' c : transfers s' ≡ₚ transfers s → locked s' c = locked s c.
Proof. intros Hp. rewrite (locked_perm s s' []) by done. simpl. lia. Qed.

Lemma contract_sum b c :
  wf_batch b →
  sumZ (λ t, if decide (tx_contract t = c) then tx_total t else 0) (ib_Transactions b) =
  if decide (ib_TokenContract b = c) then batch_total b else 0.
Proof.
  intros (_ & _ & Hf). unfold batch_total. rewrite <- sumZ_filter. case_decide as E.
  - rewrite list_filter_all; [done|]. eapply Forall_impl; [exact Hf|]. intros t [_ Hc].
    unfold tx_contract. congruence.
  - rewrite list_filter_none; [done|]. eapply Forall_impl; [exact Hf|]. intros t [_ Hc].
    unfold tx_contract. congruence.
Qed.

Lemma locked_fees s c :
  transfers_ok s → escrow_ok s → eth_ok c → sumZ fee_of (token_transfers s c) < 2 ^ 256.
Proof.
  intros Hs He Hc. specialize (He c Hc).
  pose proof (balance_range (st_world s) module_address (asset_denom (raw s) c)) as Hb.
  assert (sumZ fee_of (token_transfers s c) ≤ locked s c); [|lia].
  apply sumZ_le, Forall_forall. intros t [_ Ht]%list_elem_of_filter.
  pose proof (transfers_wf s Hs) as Hf. rewrite Forall_forall in Hf.
  destruct (Hf t Ht) as [(_ & _ & _ & (? & _) & _) _]. unfold fee_of, tx_total. lia.
Qed.

(** Escrow after one token's locked amount and its denom's balance changed. *)
Lemma escrow_change s s' c0 dl db :
  escrow_ok s → reg_ok (raw s) → eth_ok c0 → reg_same (raw s) (raw s') →
  (∀ c, locked s' c = (if decide (c0 = c) then dl else 0) + locked s c) →
  (∀ d, GetBalance (st_world s') module_address d =
        GetBalance (st_world s) module_address d +
        (if decide (asset_denom (raw s) c0 = d) then db else 0)) →
  dl ≤ db → escrow_ok s'.
Proof.
  intros He Hreg Hc0 Hsame Hl Hb Hle c Hc. specialize (He c Hc).
  rewrite Hl, Hb, (asset_denom_same (raw s)) by done.
  destruct (decide (c0 = c)) as [->|Hne].
  - rewrite decide_True by done. lia.
  - rewrite decide_False; [lia|]. intros E. apply Hne. by apply (asset_denom_inj (raw s)).
Qed.

Lemma escrow_same s s' :
  escrow_ok s → reg_same (raw s) (raw s') → transfers s' ≡ₚ transfers s →
  st_world s' = st_world s → escrow_ok s'.
Proof.
  intros He Hsame Hp Hw c Hc. rewrite (locked_same s), Hw, (asset_denom_same (raw s)) by done.
  by apply He.
Qed.
(** ** Each operation preserves the invariant *)

Lemma not_exhausted (m : gmap bytes bytes) k n :
  m !! k = Some (UInt64Bytes n) → m !! k ≠ Some (UInt64Bytes (two64 - 1)) → u64_ok n →
  0 ≤ n ∧ n + 1 < two64.
Proof.
  intros Hk Hne [Hn0 Hn1]. split; [done|].
  assert (n ≠ two64 - 1); [|lia]. intros E. apply Hne. by rewrite Hk, E.
Qed.

Lemma send_preserves s s' sender receiver amount fee id o c :
  bridge_ok s → eth_ok receiver → sender ≠ module_address →
  raw s !! KeyLastTXPoolID ≠ Some (UInt64Bytes (two64 - 1)) →
  ClassifyDenom (Denom amount) s = Ret o s → ao_ERC20 o = Some c →
  asset_denom (raw s) c = Denom amount →
  AddToOutgoingPool sender receiver amount fee s = Ret id s' → bridge_ok s'.
Proof.
  intros [Hs Hreg Hpar He] Hr Hmod Hcnt Hc Hco Hden Hadd.
  destruct (tok_last_tx _ Hs) as (n & Hn & Hnok & _).
  destruct (not_exhausted _ _ n Hn Hcnt Hnok) as [Hn0 Hn1].
  destruct (AddToOutgoingPool_inv s s' n sender receiver amount fee id)
    as (o' & c' & w & Hc' & Hco' & Hid & Hwf & -> & _ & Hsend); [done..|].
  rewrite Hc in Hc'. injection Hc' as <-. rewrite Hco in Hco'. injection Hco' as <-.
  apply ClassifyDenom_inv in Hc as (_ & _ & _ & c' & Hco' & Hcok & _); [|done].
  rewrite Hco in Hco'. injection Hco' as <-. cbv zeta in *.
  set (t := new_tx id sender receiver c (Amount amount) (Amount fee)) in *.
  destruct (transfers_sent t w s Hs Hwf) as (Hs1 & Hperm & _).
  { exists n. split_and!; [done..|exact Hid]. }
  pose proof (reg_same_sent t w s) as Hsame.
  split; [done|by eapply reg_same_ok|done|].
  apply (escrow_change s _ c (tx_total t) (tx_total t)); try done.
  - intros c'. by rewrite (locked_one s _ t).
  - intros d. simpl. apply send_acc_mod in Hsend as (Hb & _). rewrite Hb, Hden.
    unfold module_address. rewrite decide_True, decide_False by (done || by intros <-).
    rewrite amount_of_singleton. cbn [Denom Amount]. unfold tx_total. simpl. lia.
Qed.

(** What an accepted denom can be. *)
Lemma classified_denom s d o c :
  reg_ok (raw s) → ClassifyDenom d s = Ret o s → ao_ERC20 o = Some c →
  asset_denom (raw s) c = d ∨ asset_denom (raw s) c ≠ d ∧ shadow (raw s) d.
Proof.
  intros Hreg (_ & _ & _ & a & Ha & _ & Hcase)%ClassifyDenom_inv Hc; [|done].
  rewrite Hc in Ha. injection Ha as <-.
  destruct (decide (asset_denom (raw s) c = d)) as [?|Hne]; [by left|right]. split; [done|].
  destruct Hcase as [[_ Hl]|(r & _ & Hp & -> & _)]; [|by exists c].
  destruct Hne. destruct (reg_denom _ Hreg d _ Hl) as (_ & a' & _ & E & He).
  destruct c as [c], a' as [a']. simpl in E. subst a'.
  unfold asset_denom. by rewrite He, string_of_bytes_of_string.
Qed.

Lemma unheld_moved w w' from to cs d : moved w w' from to cs → unheld w d → unheld w' d.
Proof.
  intros (Hb & _) Hu a.
  pose proof (Hb from d) as Hf. pose proof (Hb to d) as Ht. rewrite Hu in Hf, Ht.
  pose proof (balance_range w' from d). pose proof (balance_range w' to d).
  rewrite Hb, Hu. repeat case_decide; subst; lia || congruence.
Qed.

Lemma unheld_supplied w w' acc cs d :
  0 ≤ amount_of d cs → supplied (-1) w w' acc cs → unheld w d → unheld w' d.
Proof.
  intros Hnn (Hb & _) Hu a. pose proof (Hb acc d) as Hf. rewrite Hu, decide_True in Hf by done.
  pose proof (balance_range w' acc d). rewrite Hb, Hu. case_decide; lia.
Qed.

Lemma no_shadows_step s s' :
  reg_same (raw s) (raw s') → (∀ d, unheld (st_world s) d → unheld (st_world s') d) →
  no_shadows s → no_shadows s'.
Proof.
  intros Hsame Hw Hns d (c & Hp & Hne). apply Hw, Hns. exists c.
  rewrite (asset_denom_same (raw s)) in Hne by done. destruct Hsame as (_ & _ & E). by rewrite E in Hp.
Qed.

(** A send of a shadow denom: nobody holds coins of it, so nothing is sent. *)
Lemma shadow_send s s' sender receiver amount fee id :
  bridge_ok s → unheld (st_world s) (Denom amount) → eth_ok receiver → sender ≠ module_address →
  raw s !! KeyLastTXPoolID ≠ Some (UInt64Bytes (two64 - 1)) →
  AddToOutgoingPool sender receiver amount fee s = Ret id s' → bridge_ok s'.
Proof.
  intros [Hs Hreg Hpar He] Hun Hr Hmod Hcnt Hadd.
  destruct (tok_last_tx _ Hs) as (n & Hn & Hnok & _).
  destruct (not_exhausted _ _ n Hn Hcnt Hnok) as [Hn0 Hn1].
  destruct (AddToOutgoingPool_inv s s' n sender receiver amount fee id)
    as (o & c & w & Hc & Hco & Hid & Hwf & -> & _ & Hsend); [done..|].
  apply ClassifyDenom_inv in Hc as (_ & _ & _ & c' & Hco' & Hcok & _); [|done].
  rewrite Hco in Hco'. injection Hco' as <-. cbv zeta in *.
  set (t := new_tx id sender receiver c (Amount amount) (Amount fee)) in *.
  destruct (transfers_sent t w s Hs Hwf) as (Hs1 & Hperm & _).
  { exists n. split_and!; [done..|exact Hid]. }
  pose proof (reg_same_sent t w s) as Hsame. apply send_acc_mod in Hsend as (Hb & _).
  assert (tx_total t = 0) as Ht0.
  { pose proof (Hb sender (Denom amount)) as E. pose proof (balance_range w sender (Denom amount)).
    rewrite Hun, decide_False, decide_True, amount_of_singleton in E by done.
    cbn [Denom Amount] in E. rewrite decide_True in E by done.
    assert (0 ≤ tx_total t) by (apply tx_total_nonneg, Hwf). unfold tx_total in *. cbn in *. lia. }
  split; [done|by eapply reg_same_ok|done|].
  apply (escrow_change s _ c 0 0); try done.
  - intros c'. by rewrite (locked_one s _ t), Ht0.
  - intros d. simpl. rewrite Hb, amount_of_singleton. cbn [Denom Amount].
    unfold tx_total in Ht0. cbn in Ht0. repeat case_decide; lia.
Qed.

(** A refund as a relation. *)
Lemma Remove_inv s s' id sender :
  transfers_ok s → reg_ok (raw s) → has_params s →
  RemoveFromOutgoingPoolAndRefund id sender s = Ret tt s' →
  ∃ t o w, t ∈ pool_txs (kv_pool (st_kv s)) ∧ tx_Id t = id ∧ tx_Sender t = sender ∧
    ao_Denom o = asset_denom (raw s) (tx_contract t) ∧ s' = canceled t w s ∧
    SendCoinsFromModuleToAccount ModuleName (tx_Sender t) (refund_coins (ao_Denom o) t)
      (st_world s) = (None, w).
Proof.
  intros Hs Hreg Hpar Hrem.
  destruct (decide (Forall (λ t, tx_Id t = id → tx_Sender t ≠ sender)
              (pool_txs (kv_pool (st_kv s))))) as [Hf|Hf].
  { destruct (Remove_refuses s id sender Hs Hf) as (e & _ & E).
    congruence. }
  apply not_Forall_Exists, Exists_exists in Hf as (t & Ht & Hid); [|apply _].
  assert (tx_Id t = id ∧ tx_Sender t = sender) as [<- <-].
  { simpl in Hid. destruct (decide (tx_Id t = id)), (decide (tx_Sender t = sender)); naive_solver. }
  rewrite Remove_refunds in Hrem by done.
  destruct (ClassifyERC20 (tx_contract t) s) as [o s3|e s3|msg] eqn:Hcl; [|done..].
  apply ClassifyERC20_inv in Hcl as (_ & Hden & _); [|done].
  destruct (negb _); [done|]. destruct (2 ^ 256 <=? tx_total t); [done|].
  destruct (SendCoinsFromModuleToAccount _ _ _ _) as [[e|] w] eqn:Hback; [done|].
  injection Hrem as <-. by exists t, o, w.
Qed.

Lemma cancel_preserves s s' id sender :
  bridge_ok s → RemoveFromOutgoingPoolAndRefund id sender s = Ret tt s' → bridge_ok s'.
Proof.
  intros [Hs Hreg Hpar He] Hrem.
  destruct (Remove_inv s s' id sender Hs Hreg Hpar Hrem) as (t & o & w & Ht & _ & _ & Hden & -> & Hback).
  destruct (transfers_canceled t w s Hs Ht) as [Hs1 Hperm].
  pose proof Ht as [[Hok _] _]%elem_of_pool_txs; [|apply Hs].
  assert (eth_ok (tx_contract t)) as Hcok by apply Hok.
  assert (0 ≤ tx_total t) by (by apply tx_total_nonneg).
  split; [done|done|done|].
  apply (escrow_change s _ (tx_contract t) (- tx_total t)
           (if decide (module_address = tx_Sender t) then 0 else - tx_total t)); try done.
  - intros c'. rewrite (locked_one (canceled t w s) s t c') by done. case_decide; lia.
  - intros d. simpl. apply send_mod_acc in Hback as (Hb & _). rewrite Hb, amount_of_refund, Hden.
    unfold module_address. repeat case_decide; try done; lia.
  - case_decide; lia.
Qed.

Lemma reg_same_built b cp s : reg_same (raw s) (raw (built b cp s)).
Proof.
  unfold built. rewrite (drop_txs_frame (ib_Transactions b) s). simpl.
  eapply reg_same_trans; apply reg_same_insert;
    [apply counter_not_registry_key|apply checkpoint_not_registry_key].
Qed.

Lemma build_preserves s s' c max b :
  bridge_ok s → eth_ok c → 0 ≤ max < two64 →
  raw s !! KeyLastOutgoingBatchID ≠ Some (UInt64Bytes (two64 - 1)) →
  BuildOutgoingTXBatch c max s = Ret b s' → bridge_ok s'.
Proof.
  intros [Hs Hreg (p & Hp & Hpok) He] Hc Hmax Hcnt Hrun.
  destruct (tok_last_batch _ Hs) as (m & Hm & Hmok & _).
  pose proof (not_exhausted _ _ m Hm Hcnt Hmok) as [Hm0 Hm1].
  pose proof (locked_fees s c Hs He Hc) as Hsum.
  destruct (BuildOutgoingTXBatch_inv s p c max m Hs Hp Hpok Hc Hm (conj Hm0 Hm1) Hmax Hsum b s' Hrun)
    as (_ & _ & _ & _ & timeout & cp & _ & Eb & _ & ->).
  destruct (built_ok s c max m timeout cp Hs Hc Hm Hm0 Hm1) as [Hperm Hok]. rewrite <- Eb in *.
  pose proof (drop_txs_frame (ib_Transactions b) s) as Hfr.
  pose proof (reg_same_built b cp s) as Hsame.
  split; [done|by eapply reg_same_ok| |].
  - exists p. split; [|done]. unfold built. by rewrite Hfr.
  - apply (escrow_same s); [done..|]. unfold built. by rewrite Hfr.
Qed.

Lemma cancel_batch_preserves s s' c nonce :
  bridge_ok s → eth_ok c → u64_ok nonce →
  CancelOutgoingTXBatch c nonce s = Ret tt s' → bridge_ok s'.
Proof.
  intros [Hs Hreg Hpar He] Hc Hn. rewrite CancelOutgoingTXBatch_run by done.
  destruct (find_batch (st_kv s) c nonce) as [b|] eqn:Eb; [|done]. intros [= <-].
  apply find_batch_some in Eb as (Hb & _ & _); [|done..].
  destruct (batch_canceled_moved s b Hs Hb) as [Hperm Hok Hraw Hp Hw].
  assert (reg_same (raw s) (raw (batch_canceled b s))) as Hsame by (by rewrite Hraw).
  split; [done|by eapply reg_same_ok| |by apply (escrow_same s)].
  destruct Hpar as (p & Hpp & ?). exists p. by rewrite Hp.
Qed.

Lemma batch_total_nonneg b : wf_batch b → 0 ≤ batch_total b.
Proof.
  intros (_ & _ & Hf)%wf_batch_ok. apply sumZ_nonneg.
  eapply Forall_impl; [exact Hf|apply tx_total_nonneg].
Qed.

Lemma execute_preserves s s' c claim :
  bridge_ok s → eth_ok c → u64_ok (bc_BatchNonce claim) →
  OutgoingTxBatchExecuted c claim s = Ret tt s' → bridge_ok s'.
Proof.
  intros [Hs Hreg Hpar He] Hc Hn Hrun.
  destruct (OutgoingTxBatchExecuted_inv s s' c claim tt Hs Hreg Hc Hn Hrun)
    as (b & o & w & Hfind & Hto & Hcl & Hset).
  destruct (OutgoingTxBatchExecuted_run s c claim b o w)
    as (s2 & Hrun2 & Hw & Hraw & Hpp & Hperm & Hok & _); [done..|].
  rewrite Hrun in Hrun2. injection Hrun2 as <-.
  pose proof Hfind as (Hb & Hbc & _)%find_batch_some; [|done..].
  pose proof Hb as [Hwf _]%elem_of_batch_list; [|apply Hs].
  assert (reg_same (raw s) (raw s')) as Hsame by (by rewrite Hraw).
  split; [done|by eapply reg_same_ok| |].
  { destruct Hpar as (p & Hp & ?). exists p. by rewrite Hpp. }
  pose proof (batch_total_nonneg b Hwf) as Hnn.
  pose proof Hcl as (_ & Hden & _)%ClassifyERC20_inv; [|done].
  apply (escrow_change s _ c (- batch_total b)
    (if decide (ao_Origin o = AssetOriginEthereum) then - batch_total b else 0)); try done.
  - intros c'. rewrite (locked_perm s' s (ib_Transactions b) c'), contract_sum by done.
    rewrite Hbc. case_decide; lia.
  - intros d. rewrite Hw. unfold settled in Hset.
    destruct (decide (ao_Origin o = AssetOriginEthereum)); [|subst w; case_decide; lia].
    destruct Hset as (_ & _ & Hburn). apply burn_coins in Hburn as (Hbal & _).
    rewrite Hbal, Hden. unfold module_address. rewrite decide_True by done.
    rewrite amount_of_burn. case_decide; lia.
  - case_decide; lia.
Qed.

Lemma send_step_ok s s' sender receiver amount fee id :
  bridge_ok s → no_shadows s → eth_ok receiver → sender ≠ module_address →
  raw s !! KeyLastTXPoolID ≠ Some (UInt64Bytes (two64 - 1)) →
  AddToOutgoingPool sender receiver amount fee s = Ret id s' → bridge_ok s' ∧ no_shadows s'.
Proof.
  intros Hok Hns Hr Hmod Hcnt Hadd. pose proof Hok as [Hs Hreg Hpar _].
  destruct (tok_last_tx _ Hs) as (n & Hn & Hnok & _).
  destruct (not_exhausted _ _ n Hn Hcnt Hnok) as [Hn0 Hn1].
  destruct (AddToOutgoingPool_inv s s' n sender receiver amount fee id)
    as (o & c & w & Hc & Hco & _ & _ & Es & _ & Hsend); [done..|]. split.
  - destruct (classified_denom s (Denom amount) o c Hreg Hc Hco) as [Hden|[_ Hsh]].
    + by eapply send_preserves.
    + eapply shadow_send; [done|by apply Hns|done..].
  - rewrite Es. apply (no_shadows_step s); [apply reg_same_sent| |done].
    intros d. eapply unheld_moved, send_acc_mod, Hsend.
Qed.

Lemma cancel_no_shadows s s' id sender :
  bridge_ok s → no_shadows s → RemoveFromOutgoingPoolAndRefund id sender s = Ret tt s' → no_shadows s'.
Proof.
  intros [Hs Hreg Hpar He] Hns Hrem.
  destruct (Remove_inv s s' id sender Hs Hreg Hpar Hrem) as (t & o & w & _ & _ & _ & _ & -> & Hback).
  apply (no_shadows_step s); [done| |done]. intros d. eapply unheld_moved, send_mod_acc, Hback.
Qed.

Lemma build_no_shadows s s' c max b :
  bridge_ok s → no_shadows s → eth_ok c → 0 ≤ max < two64 →
  raw s !! KeyLastOutgoingBatchID ≠ Some (UInt64Bytes (two64 - 1)) →
  BuildOutgoingTXBatch c max s = Ret b s' → no_shadows s'.
Proof.
  intros [Hs Hreg (p & Hp & Hpok) He] Hns Hc Hmax Hcnt Hrun.
  destruct (tok_last_batch _ Hs) as (m & Hm & Hmok & _).
  pose proof (not_exhausted _ _ m Hm Hcnt Hmok) as [Hm0 Hm1].
  pose proof (locked_fees s c Hs He Hc) as Hsum.
  destruct (BuildOutgoingTXBatch_inv s p c max m Hs Hp Hpok Hc Hm (conj Hm0 Hm1) Hmax Hsum b s' Hrun)
    as (_ & _ & _ & _ & timeout & cp & _ & Eb & _ & ->).
  pose proof (drop_txs_frame (ib_Transactions b) s) as Hfr.
  apply (no_shadows_step s); [by apply reg_same_built| |done]. unfold built. by rewrite Hfr.
Qed.

Lemma execute_no_shadows s s' c claim :
  bridge_ok s → no_shadows s → eth_ok c → u64_ok (bc_BatchNonce claim) →
  OutgoingTxBatchExecuted c claim s = Ret tt s' → no_shadows s'.
Proof.
  intros [Hs Hreg Hpar He] Hns Hc Hn Hrun.
  destruct (OutgoingTxBatchExecuted_inv s s' c claim tt Hs Hreg Hc Hn Hrun)
    as (b & o & w & Hfind & Hto & Hcl & Hset).
  destruct (OutgoingTxBatchExecuted_run s c claim b o w)
    as (s2 & Hrun2 & Hw & Hraw & _); [done..|].
  rewrite Hrun in Hrun2. injection Hrun2 as <-.
  pose proof Hfind as (Hb & _)%find_batch_some; [|done..].
  pose proof Hb as [Hwf _]%elem_of_batch_list; [|apply Hs].
  apply (no_shadows_step s); [by rewrite Hraw| |done].
  intros d Hun. rewrite Hw. unfold settled in Hset.
  destruct (decide (ao_Origin o = AssetOriginEthereum)); [|by subst w].
  destruct Hset as (_ & _ & Hburn). apply burn_coins in Hburn.
  eapply unheld_supplied; [|exact Hburn|done]. rewrite amount_of_burn. case_decide; [|done].
  by apply batch_total_nonneg.
Qed.

Lemma bridge_step_ok s s' :
  bridge_ok s → no_shadows s → bridge_step s s' → bridge_ok s' ∧ no_shadows s'.
Proof.
  intros Hok Hns Hstep. destruct Hstep as [| | |s s' c nonce Hc Hn Hrun|].
  - by eapply send_step_ok.
  - split; [by eapply cancel_preserves|by eapply cancel_no_shadows].
  - split; [by eapply build_preserves|by eapply build_no_shadows].
  - split; [by eapply cancel_batch_preserves|]. pose proof Hok as [Hs _ _ _].
    rewrite CancelOutgoingTXBatch_run in Hrun by (done || apply Hok).
    destruct (find_batch (st_kv s) c nonce) as [b|] eqn:Eb; [|done]. injection Hrun as <-.
    apply find_batch_some in Eb as (Hb & _ & _); [|done..].
    destruct (batch_canceled_moved s b Hs Hb) as [_ _ Hraw _ Hw].
    apply (no_shadows_step s); [by rewrite Hraw|by rewrite Hw|done].
  - split; [by eapply execute_preserves|by eapply execute_no_shadows].
Qed.

(** C1. Solvency.  Take a well-formed state in which nobody holds coins of a denom
    that names an ERC20 which the bridge pays out in another denom: the voucher
    [gravity0xC] of a contract [C] that is registered for a Cosmos coin
    ([no_shadows]; the chain does not check this when it registers [C], see the
    findings).  Then in every state that any sends, cancellations, batches built,
    cancelled or executed can reach from it, the module account holds, for every
    token, at least the amounts and fees of all its transfers in flight; the stores
    stay well formed and the registry a bijection, and still nobody holds such
    coins.  Every send that is accepted is a step, but for sends of the module's own
    account and with a counter of transfers that has reached 2^64 - 1. *)
Theorem bridge_solvent s s' :
  bridge_ok s → no_shadows s → rtc bridge_step s s' →
  bridge_ok s' ∧ no_shadows s' ∧
  ∀ c, eth_ok c →
    locked s' c ≤ GetBalance (st_world s') (GetModuleAddress ModuleName) (asset_denom (raw s') c).
Proof.
  intros Hok Hns Hrtc. assert (bridge_ok s' ∧ no_shadows s') as [Hok' Hns']; [|split_and!; [done..|apply Hok']].
  induction Hrtc as [|s1 s2 s3 Hstep _ IH]; [done|].
  destruct (bridge_step_ok s1 s2 Hok Hns Hstep). by apply IH.
Qed.
End Escrow.
