(* ===== verification/SendCorrect.v ===== *)
(** * Sends to Ethereum pay their fees

    The minimum fee of a send, how the chain's fee is split between the auction
    pool and the stakers, and what a send through the message server does. *)

From stdpp Require Import base gmap list strings sorting.
From S2P Require Import Prelude GoStd Config External Store Ethereum Keys OutgoingTx Valset Claims Keeper DelegateKeys Evidence Msgs Registry Pool Batch MsgServer ConfirmCorrect Transfers PoolCorrect BatchCorrect BatchLifecycle Escrow.

#[local] Open Scope Z_scope.

(** ** Arithmetic of fees *)

Section FeeArithmetic.
Context `{DecimalsLaws}.

Lemma min_fee_exact amount bp m :
  0 ≤ amount → 0 ≤ bp → min_fee amount bp = Some m → m = amount * bp / 10000.
Proof.
  intros Ha Hb. unfold min_fee. intros E.
  apply bind_Some in E as (d & ->%dec_from_int & E). apply bind_Some in E as (q & ->%dec_quo_int64 & E).
  apply bind_Some in E as (p & ->%dec_mul_int64 & ->%dec_truncate).
  unfold dec_one, BasisPointDivisor.
  rewrite (Z.quot_div_nonneg (amount * _) 10000) by lia.
  replace (amount * 1000000000000000000) with ((amount * 100000000000000) * 10000) by lia.
  rewrite Z.div_mul by lia. rewrite Z.quot_div_nonneg by lia.
  replace (amount * 100000000000000 * bp) with ((amount * bp) * 100000000000000) by lia.
  change 1000000000000000000 with (10000 * 100000000000000).
  by rewrite Z.div_mul_cancel_r by lia.
Qed.

(** The pool's share is the fraction of the fee, rounded down. *)
Lemma pool_fee_exact f fee x :
  0 ≤ f → 0 ≤ fee → pool_fee (Some f) fee = Some x → x = f * fee / dec_one.
Proof.
  intros Hf Hfee. unfold pool_fee. cbn [mbind option_bind]. intros E.
  apply bind_Some in E as (d & ->%dec_from_int & E). apply bind_Some in E as (p & Hp & ->%dec_truncate).
  assert (p = f * fee) as ->.
  { apply dec_mul in Hp; [|exists (f * fee); lia]. unfold dec_one in *. lia. }
  unfold dec_one. by rewrite Z.quot_div_nonneg by lia.
Qed.

Lemma pool_fee_range f fee x :
  0 ≤ f ≤ dec_one → 0 ≤ fee → pool_fee (Some f) fee = Some x → 0 ≤ x ≤ fee.
Proof.
  intros Hf Hfee ->%pool_fee_exact; [|lia..]. unfold dec_one in *. split.
  - apply Z.div_pos; lia.
  - apply Z.div_le_upper_bound; nia.
Qed.
End FeeArithmetic.

Section Sends.
Context {W : Type} `{GethLaws} `{SdkLaws} `{!ModuleAccounts} `{EthAbi} `{Bank W} `{!BankLaws W}
  `{DecimalsLaws} `{Accounts W} `{!AccountsLaws W} `{Mint W} `{AuctionParams W}.
Implicit Types (s : State W) (w : W).

(** [sdk.NewCoins] of one coin *)
Definition coins_of (d : string) (x : Z) : list Coin := if x =? 0 then [] else [mkCoin d x].

Lemma NewCoin_coins d x c l : NewCoin d x = Some c → NewCoins1 c = Some l → l = coins_of d x ∧ 0 ≤ x.
Proof.
  unfold NewCoin, NewCoins1, coins_of. destruct (Coin_IsValid (mkCoin d x)) eqn:E; [|done].
  intros [= <-]. cbn [Amount]. rewrite E. unfold Coin_IsValid in E. zbool. cbn [Amount] in *.
  destruct (x =? 0); naive_solver.
Qed.

Lemma call_inv (f : W → option gerror * W) s u s' :
  call f s = Ret u s' → ∃ w, f (st_world s) = (None, w) ∧ s' = upd_world (λ _, w) s.
Proof. unfold call. destruct (f (st_world s)) as [[e|] w]; naive_solver. Qed.

(** The share of the fee that goes to the auction pool. *)
Definition pool_share (auctionable : bool) (p : Params) (fee : Z) : Z :=
  if auctionable then default 0 (p_ChainFeeAuctionPoolFraction p) * fee / dec_one else 0.

(** The fee left the sender: the pool's share to the auction pool, the rest to the
    account that collects the stakers' fees. *)
Definition fee_paid w w' (sender : bytes) (d : string) (fee share : Z) : Prop :=
  ∃ w1, moved w w1 sender (GetModuleAddress AuctionPoolAccountName) (coins_of d share) ∧
    moved w1 w' sender (GetModuleAddress FeeCollectorName) (coins_of d (fee - share)).

Lemma moved_nothing w a b : moved w w a b [].
Proof. split; [|done]. intros x d. unfold amount_of. simpl. repeat case_decide; lia. Qed.

Lemma deduct_pool_fee_inv p sender fee s x s' :
  0 < Amount fee → deduct_pool_fee (p_ChainFeeAuctionPoolFraction p) sender fee s = Ret x s' →
  (∀ f, p_ChainFeeAuctionPoolFraction p = Some f → 0 ≤ f) →
  ∃ w', s' = upd_world (λ _, w') s ∧ x = Amount fee - pool_share true p (Amount fee) ∧
    moved (st_world s) w' sender (GetModuleAddress AuctionPoolAccountName)
      (coins_of (Denom fee) (pool_share true p (Amount fee))).
Proof.
  intros Hfee E Hf. unfold deduct_pool_fee in E.
  mnext E as share s1 E1. apply opt_panic_inv in E1 as [Hs ->].
  mnext E as st s1 E1. apply opt_panic_inv in E1 as [[-> _]%int_check_inv ->].
  mnext E as c s1 E1. apply opt_panic_inv in E1 as [Hc ->].
  mnext E as l s1 E1. apply opt_panic_inv in E1 as [Hl ->].
  mnext E as u s1 E1. apply call_inv in E1 as (w' & Hw & ->).
  apply mret_inv in E as [-> ->]. destruct (NewCoin_coins _ _ _ _ Hc Hl) as [-> _].
  assert (share = pool_share true p (Amount fee)) as ->.
  { unfold pool_share. destruct (p_ChainFeeAuctionPoolFraction p) as [f|] eqn:Ef; [|done].
    apply pool_fee_exact in Hs; [done|by apply Hf|lia]. }
  exists w'. split_and!; [done..|]. by apply send_acc_mod.
Qed.

(** The parameters bound the fees. *)
Definition fee_params_ok (p : Params) : Prop :=
  0 ≤ p_MinChainFeeBasisPoints p ≤ 10000 ∧
  ∃ f, p_ChainFeeAuctionPoolFraction p = Some f ∧ 0 ≤ f ≤ dec_one.

Lemma checkAndDeduct_inv sender amount fee s u s' p :
  kv_params (st_kv s) = Some p → fee_params_ok p → 0 ≤ Amount amount → 0 ≤ Amount fee →
  checkAndDeductSendToEthFees sender amount fee s = Ret u s' →
  Amount amount * p_MinChainFeeBasisPoints p / 10000 ≤ Amount fee ∧
  ∃ auctionable, IsDenomAuctionable (Denom fee) s = Ret auctionable s ∧
    fee_paid (st_world s) (st_world s') sender (Denom fee) (Amount fee)
      (pool_share auctionable p (Amount fee)) ∧ st_kv s' = st_kv s.
Proof.
  intros Hp [Hbp (f & Hf & Hf01)] Ha Hfee E. unfold checkAndDeductSendToEthFees in E.
  rewrite (bind_ret _ _ s (Ok p) s) in E.
  2: { unfold GetParamsIfSet. mrun. rewrite Hp. cbn [bool_decide]. rewrite bool_decide_eq_true_2 by done.
       cbn [negb]. by rewrite (GetParams_eq s p). }
  cbv zeta in E. mnext E as minFee s1 E1. apply opt_panic_inv in E1 as [Hmin ->].
  assert (int64 (p_MinChainFeeBasisPoints p) = p_MinChainFeeBasisPoints p) as Hi.
  { unfold int64. destruct (Z.ltb_spec (p_MinChainFeeBasisPoints p) 9223372036854775808); lia. }
  rewrite Hi in Hmin. apply min_fee_exact in Hmin; [|lia..]. rewrite <- Hmin.
  mnext E as g s1 E1. assert (s1 = s ∧ minFee ≤ Amount fee) as [-> Hle].
  { destruct (Z.ltb_spec 0 minFee); [|minv; split; [done|lia]].
    mnext E1 as c s2 E2. apply opt_panic_inv in E2 as [Hc ->].
    unfold NewCoin in Hc. destruct (Coin_IsValid _); [|done]. injection Hc as <-.
    mnext E1 as g2 s2 E2. apply guard_panic_inv in E2 as [_ ->].
    apply guard_err_inv in E1 as [Hl ->]. cbn [Amount] in Hl. zbool. done. }
  split; [done|]. clear E1. mnext E as auc s1 Ea. pose proof Ea as E1'.
  eapply readonly_inv in E1'; [|unfold IsDenomAuctionable; readonly]. subst s1.
  exists auc. split; [done|]. destruct (Z.ltb_spec 0 (Amount fee)) as [Hpos|Hz].
  - mnext E as acc s1 Eacc. apply gets_inv in Eacc as [-> ->].
    mnext E as st s1 Est.
    assert (∃ w1, s1 = upd_world (λ _, w1) s ∧ st = Amount fee - pool_share auc p (Amount fee) ∧
      moved (st_world s) w1 sender (GetModuleAddress AuctionPoolAccountName)
        (coins_of (Denom fee) (pool_share auc p (Amount fee)))) as (w1 & -> & -> & Hm1).
    { destruct auc.
      - apply deduct_pool_fee_inv in Est; [done|done|]. intros f' Hf'. rewrite Hf in Hf'. simplify_eq. lia.
      - apply mret_inv in Est as [-> ->]. exists (st_world s). split_and!; [by destruct s| |].
        + unfold pool_share. lia.
        + apply moved_nothing. }
    mnext E as c s1 E2. apply opt_panic_inv in E2 as [Hc ->].
    mnext E as l s1 E2. apply opt_panic_inv in E2 as [Hl ->].
    mnext E as g2 s1 E2. apply guard_panic_inv in E2 as [_ ->].
    mnext E as d s1 E2. apply call_inv in E2 as (w2 & Hw2 & ->).
    unfold emit in E. apply modify_inv in E as ->.
    destruct (NewCoin_coins _ _ _ _ Hc Hl) as [-> _]. apply deduct_fees in Hw2.
    split; [|done]. by exists w1.
  - apply mret_inv in E as [_ ->]. assert (Amount fee = 0) as -> by lia. split; [|done].
    assert (pool_share auc p 0 = 0) as -> by (unfold pool_share; rewrite Z.mul_0_r; by destruct auc).
    exists (st_world s). split; apply moved_nothing.
Qed.

(** The origin of a denom depends on the registry alone. *)
Lemma ClassifyDenom_unique s s1 d o o1 :
  reg_ok (raw s) → raw s1 = raw s →
  ClassifyDenom d s = Ret o s → ClassifyDenom d s1 = Ret o1 s1 → o1 = o.
Proof.
  intros Hreg Hraw E E1. rewrite ClassifyDenom_eq in E by done.
  rewrite ClassifyDenom_eq in E1 by by rewrite Hraw. rewrite Hraw in E1.
  unfold classifyEthOriginated, classifyCosmosOriginated, checked_origin in *.
  repeat case_match; minv; try done; congruence.
Qed.

Lemma fee_module_balance w w' sender d fee share d' :
  sender ≠ module_address → fee_paid w w' sender d fee share →
  GetBalance w' module_address d' = GetBalance w module_address d'.
Proof.
  intros Hsend (w1 & (Hb1 & _) & (Hb2 & _)). rewrite Hb2, Hb1. unfold module_address in *.
  rewrite !(decide_False (P := GetModuleAddress ModuleName = sender)) by congruence.
  rewrite decide_False by by intros E%module_address_inj.
  rewrite decide_False by by intros E%module_address_inj. lia.
Qed.

(** Paying a fee neither touches the module's own account nor the bridge's data. *)
Lemma fee_keeps_bridge s s1 sender d fee share :
  bridge_ok s → sender ≠ module_address → st_kv s1 = st_kv s →
  fee_paid (st_world s) (st_world s1) sender d fee share → bridge_ok s1.
Proof.
  destruct s as [kv w h ev], s1 as [kv1 w' h1 ev1]. intros [Hs Hreg Hp He] Hsend Hkv.
  cbn in Hkv. subst kv1. intros Hpaid. cbn [st_world] in *.
  split; [by destruct Hs as [? ? ? ? ?]; split|done|done|].
  intros c Hc. specialize (He c Hc). cbn [st_world] in *. by rewrite (fee_module_balance w w' _ _ _ _ _ Hsend Hpaid).
Qed.

Lemma SendToEth_amounts msg :
  MsgSendToEth_ValidateBasic msg = Ok tt →
  0 ≤ Amount (se_Amount msg) ∧ 0 ≤ Amount (se_ChainFee msg).
Proof.
  unfold MsgSendToEth_ValidateBasic, Coin_IsValid, mbind, res_bind.
  repeat (case_match; try done). intros _.
  repeat match goal with E : (_ || _)%bool = false |- _ => apply orb_false_elim in E as [] end.
  repeat match goal with E : negb _ = false |- _ => apply negb_false_iff in E end. zbool. lia.
Qed.

(** ** A send, end to end *)

(** What joining the pool did, as a relation. *)
Lemma pool_entry_added s s' sender dest amount fee id :
  bridge_ok s → eth_ok dest → sender ≠ module_address →
  raw s !! KeyLastTXPoolID ≠ Some (UInt64Bytes (two64 - 1)) →
  AddToOutgoingPool sender dest amount fee s = Ret id s' →
  ∃ o c, ClassifyDenom (Denom amount) s = Ret o s ∧ ao_ERC20 o = Some c ∧
    moved (st_world s) (st_world s') sender module_address
      [mkCoin (Denom amount) (Amount amount + Amount fee)] ∧
    transfers s' ≡ₚ new_tx id sender dest c (Amount amount) (Amount fee) :: transfers s ∧
    (asset_denom (raw s) c = Denom amount ∨ unheld (st_world s) (Denom amount) → bridge_ok s').
Proof.
  intros Hs Hd Hsend Hcnt Hadd. pose proof Hs as [Ht Hreg Hpar _].
  destruct (tok_last_tx _ Ht) as (n & Hn & Hnok & _).
  destruct (not_exhausted _ _ n Hn Hcnt Hnok) as [Hn0 Hn1].
  destruct (AddToOutgoingPool_inv s s' n sender dest amount fee id)
    as (o & c & w & Ho & Hc & Hid & Hwf & Es & _ & Hw); [done..|].
  exists o, c. split_and!; [done..| | |].
  - rewrite Es. by apply send_acc_mod.
  - rewrite Es. apply (transfers_sent _ w s Ht Hwf). by exists n.
  - intros [Hden|Hun]; [by eapply send_preserves|by eapply shadow_send].
Qed.

(** A send of a denom that names an ERC20 which the bridge pays out in another denom
    adds to what is owed in that denom and to nothing that backs it. *)
Lemma shadow_unbacked s s' t d x c sender :
  sender ≠ module_address → tx_contract t = c → asset_denom (raw s) c ≠ d →
  transfers s' ≡ₚ t :: transfers s → moved (st_world s) (st_world s') sender module_address [mkCoin d x] →
  locked s' c = locked s c + tx_total t ∧
  GetBalance (st_world s') module_address (asset_denom (raw s) c) =
  GetBalance (st_world s) module_address (asset_denom (raw s) c).
Proof.
  intros Hne Hc Hd Hp (Hb & _). split.
  - rewrite (locked_one s s' t) by done. rewrite decide_True by done. lia.
  - rewrite Hb, amount_of_singleton. cbn [Denom Amount]. rewrite (decide_False (P := d = _)) by congruence.
    repeat case_decide; lia.
Qed.

Lemma fee_unheld w w' sender d fee share d' : fee_paid w w' sender d fee share → unheld w d' → unheld w' d'.
Proof. intros (w1 & H1' & H2') Hu. eapply unheld_moved, unheld_moved; [done..|]. done. Qed.

(** What a completed send did. *)
Record sent_to_eth (msg : MsgSendToEth) (sender : bytes) (p : Params) s s' : Prop := {
  se_active : p_BridgeActive p = true;
  se_one_denom : Denom (se_BridgeFee msg) = Denom (se_Amount msg) ∧
                 Denom (se_ChainFee msg) = Denom (se_Amount msg);
  se_fee_enough : Amount (se_Amount msg) * p_MinChainFeeBasisPoints p / 10000 ≤ Amount (se_ChainFee msg);
  se_effect : ∃ o c dest id w1 auctionable,
    ClassifyDenom (Denom (se_Amount msg)) s = Ret o s ∧ ao_ERC20 o = Some c ∧
    NewEthAddress (se_EthDest msg) = Ok dest ∧
    dest ≠ ZeroAddress ∧ blacklisted (st_kv s) dest = false ∧
    IsDenomAuctionable (Denom (se_ChainFee msg)) s = Ret auctionable s ∧
    fee_paid (st_world s) w1 sender (Denom (se_Amount msg)) (Amount (se_ChainFee msg))
      (pool_share auctionable p (Amount (se_ChainFee msg))) ∧
    moved w1 (st_world s') sender module_address
      [mkCoin (Denom (se_Amount msg)) (Amount (se_Amount msg) + Amount (se_BridgeFee msg))] ∧
    transfers s' ≡ₚ new_tx id sender dest c (Amount (se_Amount msg)) (Amount (se_BridgeFee msg))
                    :: transfers s ∧
    (asset_denom (raw s) c = Denom (se_Amount msg) ∨ no_shadows s → bridge_ok s') ∧
    (asset_denom (raw s) c ≠ Denom (se_Amount msg) →
     locked s' c = locked s c + (Amount (se_Amount msg) + Amount (se_BridgeFee msg)) ∧
     GetBalance (st_world s') module_address (asset_denom (raw s) c) =
     GetBalance (st_world s) module_address (asset_denom (raw s) c)) }.

(** The checks that an accepted message has passed, and the two payments. *)
Lemma SendToEth_inv s s' p msg sender :
  bridge_ok s → kv_params (st_kv s) = Some p → AccAddressFromBech32 (se_Sender msg) = Ok sender →
  SendToEth msg s = Ret tt s' →
  p_BridgeActive p = true ∧ Denom (se_Amount msg) = Denom (se_BridgeFee msg) ∧
  Denom (se_Amount msg) = Denom (se_ChainFee msg) ∧
  ∃ o c dest u s1 id s2, ClassifyDenom (Denom (se_Amount msg)) s = Ret o s ∧ ao_ERC20 o = Some c ∧
    NewEthAddress (se_EthDest msg) = Ok dest ∧ dest ≠ ZeroAddress ∧ blacklisted (st_kv s) dest = false ∧
    checkAndDeductSendToEthFees sender (se_Amount msg) (se_ChainFee msg) s = Ret u s1 ∧
    AddToOutgoingPool sender dest (se_Amount msg) (se_BridgeFee msg) s1 = Ret id s2 ∧
    s' = add_event (EventOutgoingTxId id) s2.
Proof.
  intros Hs Hp Hacc E. unfold SendToEth in E.
  mnext E as x0 s1 E0. unfold RequireBridgeActive in E0.
  rewrite (bind_ret _ _ s p s) in E0 by by apply GetParams_eq. apply guard_err_inv in E0 as [Hact ->].
  apply negb_false_iff in Hact.
  mnext E as x1 s1 E1. apply of_res_inv in E1 as [_ ->].
  mnext E as x2 s1 E1. apply of_res_inv in E1 as [_ ->].
  mnext E as x3 s1 E1. apply of_res_inv in E1 as [_ ->].
  mnext E as x4 s1 E1. apply guard_err_inv in E1 as [Hden ->].
  apply orb_false_elim in Hden as [Hd1%bool_decide_eq_false Hd2%bool_decide_eq_false].
  apply dec_stable in Hd1, Hd2.
  mnext E as o s1 Ho. destruct (ClassifyDenom_inv s _ o s1 (bo_registry _ Hs) Ho) as (-> & _).
  mnext E as x5 s1 E1.
  eapply readonly_inv in E1; [|case_decide; readonly]. subst s1.
  mnext E as x6 s1 E1. apply of_res_inv in E1 as [Hacc' ->].
  rewrite Hacc in Hacc'. injection Hacc' as <-.
  mnext E as dest s1 E1. apply of_res_inv in E1 as [Hdest ->].
  mnext E as c s1 E1. apply opt_panic_inv in E1 as [Hc ->].
  mnext E as inv s1 E1. unfold InvalidSendToEthAddress in E1.
  rewrite (bind_ret _ _ s _ s) in E1 by by apply IsOnBlacklist_eq, Hs.
  apply mret_inv in E1 as [-> ->].
  mnext E as x7 s1 E1. apply guard_err_inv in E1 as [Hinv ->].
  apply orb_false_elim in Hinv as [Hbl Hzero%bool_decide_eq_false].
  mnext E as x8 s1 Efee. mnext E as id s2 Eadd. unfold emit in E. apply modify_inv in E as ->.
  split_and!; [done..|]. by exists o, c, dest, x8, s1, id, s2.
Qed.

End Sends.
