(* ===== verification/EvidenceCorrect.v ===== *)
(** * Evidence punishes forgers and never honest signers

    What evidence of a bad signature does, and why a validator that only signed
    what the chain asked for is safe from it. *)

From stdpp Require Import base gmap list strings sorting relations.
From S2P Require Import Prelude GoStd External Store Ethereum Keys OutgoingTx Valset Claims Keeper DelegateKeys Evidence Msgs Registry Pool Batch MsgServer ConfirmCorrect Transfers PoolCorrect BatchCorrect BatchLifecycle Escrow SendCorrect.

#[local] Open Scope Z_scope.

Section Evidence.
Context {W : Type} `{Geth} `{Sdk} `{Staking W} `{EthAbi} `{EthCrypto} `{SignedCodec}.
Implicit Types s : State W.

(** The checkpoint is on record, as it is for whatever the chain itself asked the
    validators to sign (what a genesis import stores is recorded for logic calls
    only). *)
Definition checkpoint_known s (cp : bytes) : Prop :=
  raw s !! GetPastEthSignatureCheckpointKey cp = Some [1].

#[global] Instance checkpoint_known_dec s cp : Decision (checkpoint_known s cp).
Proof. unfold checkpoint_known. apply _. Defined.

(** The validator whose registered key signed the checkpoint is jailed and slashed,
    unless it is in jail already, and nothing else changes. *)
Definition punished (p : Params) (cp : bytes) (signature : string) s s' : Prop :=
  ∃ sig eth op val cons,
    decode_evidence_signature signature = Some (Some sig) ∧
    EthAddressFromSignature cp sig = Some (Ok eth) ∧
    raw s !! GetValidatorByEthAddressKey eth = Some op ∧
    GetValidator (st_world s) op = Ok val ∧ v_ConsAddr val = Ok cons ∧
    st_kv s' = st_kv s ∧
    if v_Jailed val then st_world s' = st_world s else
    ∃ w, Jail cons (st_world s) = (None, w) ∧
      Slash cons (st_height s) (v_ConsensusPower val) (p_SlashFractionBadEthSignature p) w =
        (None, st_world s').

Lemma known_eq s cp :
  GetPastEthSignatureCheckpoint cp s = Ret (bool_decide (checkpoint_known s cp)) s.
Proof.
  unfold GetPastEthSignatureCheckpoint, raw_get. mrun. f_equal. apply bool_decide_ext.
  unfold checkpoint_known. destruct (raw s !! _); naive_solver.
Qed.

Lemma evidence_refused s p subject cp sig :
  kv_params (st_kv s) = Some p → Signed_GetCheckpoint (p_GravityId p) subject = Some cp →
  checkpoint_known s cp → checkBadSignatureEvidenceInternal subject sig s = Fail ErrInvalid s.
Proof.
  intros Hp Hcp Hk. unfold checkBadSignatureEvidenceInternal, GetGravityID, opt_panic. mrun.
  rewrite (GetParams_eq s p) by done. rewrite Hcp. rewrite known_eq.
  by rewrite bool_decide_eq_true_2 by done.
Qed.

Lemma evidence_inv s s' p subject sig :
  kv_params (st_kv s) = Some p → checkBadSignatureEvidenceInternal subject sig s = Ret tt s' →
  ∃ cp, Signed_GetCheckpoint (p_GravityId p) subject = Some cp ∧ ¬ checkpoint_known s cp ∧
    punished p cp sig s s'.
Proof.
  intros Hp E. unfold checkBadSignatureEvidenceInternal in E.
  rewrite (bind_ret _ _ s (p_GravityId p) s) in E
    by (unfold GetGravityID; mrun; by rewrite (GetParams_eq s p)).
  mnext E as cp s1 E1. apply opt_panic_inv in E1 as [Hcp ->].
  rewrite (bind_ret _ _ _ _ _ (known_eq s cp)) in E.
  mnext E as x1 s1 E1. apply guard_err_inv in E1 as [Hk%bool_decide_eq_false ->].
  exists cp. split; [done|]. split; [done|].
  mnext E as d s1 E1. apply opt_panic_inv in E1 as [Hd ->].
  destruct d as [sb|]; [|done].
  mnext E as r s1 E1. apply opt_panic_inv in E1 as [Hr ->].
  destruct r as [eth|]; [|done].
  mnext E as f s1 E1. unfold GetValidatorByEthAddress, raw_get in E1.
  mnext E1 as a s2 E2. apply gets_inv in E2 as [-> ->].
  destruct (raw s !! GetValidatorByEthAddressKey eth) as [op|] eqn:Hop; [|minv; done].
  mnext E1 as v s2 E2. apply gets_inv in E2 as [-> ->].
  destruct (GetValidator (st_world s) op) as [val|] eqn:Hval; [|minv; done].
  apply mret_inv in E1 as [-> ->].
  mnext E as cons s1 E1. apply of_res_inv in E1 as [Hcons ->].
  rewrite (bind_ret _ _ s p s) in E by by apply GetParams_eq.
  exists sb, eth, op, val, cons. split_and!; try done.
  all: destruct (v_Jailed val); cbn [negb] in E; [by apply mret_inv in E as [_ ->]|].
  all: mnext E as x2 s1 E1; apply call_inv in E1 as (w & Hw & ->);
    mnext E as h s1 E1; apply gets_inv in E1 as [-> ->]; apply call_inv in E as (w' & Hw' & ->).
  - done.
  - by exists w.
Qed.

(** C27. Evidence that the chain accepts names a checkpoint that is not on record.
    The validator it concerns is the one whose registered Ethereum key made the
    signature: unless it is in jail already, it is jailed and slashed by the
    fraction of the parameters; one that is in jail is neither jailed nor slashed
    again, and nothing changes.  The bridge's own stores do not change.  Evidence
    over a checkpoint that is on record is refused and changes nothing. *)
Theorem SubmitBadSignatureEvidence_spec s p msg subject :
  kv_params (st_kv s) = Some p → UnpackSigned (be_Subject msg) = Ok (Some subject) →
  (∀ s', SubmitBadSignatureEvidence msg s = Ret tt s' →
    ∃ cp, Signed_GetCheckpoint (p_GravityId p) subject = Some cp ∧ ¬ checkpoint_known s cp ∧
      punished p cp (be_Signature msg) s s') ∧
  (∀ cp, Signed_GetCheckpoint (p_GravityId p) subject = Some cp → checkpoint_known s cp →
    SubmitBadSignatureEvidence msg s = Fail ErrInvalid s).
Proof.
  intros Hp Hu. unfold SubmitBadSignatureEvidence, CheckBadSignatureEvidence. rewrite Hu. split.
  - intros s' E. mnext E as x s1 E1. destruct x. unfold emit in E. apply modify_inv in E as ->.
    apply (evidence_inv s s1 p) in E1 as (cp & Hcp & Hk & Hpun); [|done]. by exists cp.
  - intros cp Hcp Hk. mrun. by rewrite (evidence_refused s p subject cp).
Qed.
End Evidence.

(** ** Honest signers *)

Section Honest.
Context {W : Type} `{GethLaws} `{SdkLaws} `{EthAbi} `{Bank W} `{!BankLaws W}.
Context `{Staking W} `{EthCrypto} `{SignedCodec}.
Implicit Types s : State W.

(** The parameters stay and no checkpoint is forgotten. *)
Definition remembers s s' : Prop :=
  kv_params (st_kv s') = kv_params (st_kv s) ∧
  ∀ cp, checkpoint_known s cp → checkpoint_known s' cp.

Lemma remembers_same s s' :
  kv_params (st_kv s') = kv_params (st_kv s) → raw s' = raw s → remembers s s'.
Proof. intros Hp Hr. split; [done|]. unfold checkpoint_known. by rewrite Hr. Qed.

Lemma counter_key_ne cp :
  KeyLastTXPoolID ≠ GetPastEthSignatureCheckpointKey cp ∧
  KeyLastOutgoingBatchID ≠ GetPastEthSignatureCheckpointKey cp.
Proof. unfold GetPastEthSignatureCheckpointKey. split; key_ne. Qed.

Lemma built_remembers b cp s : remembers s (built b cp s) ∧ checkpoint_known (built b cp s) cp.
Proof.
  unfold remembers, built, checkpoint_known.
  rewrite (drop_txs_frame (ib_Transactions b) s). cbn. split; [split; [done|]|by rewrite lookup_insert_eq].
  intros cp' Hk.
  destruct (decide (GetPastEthSignatureCheckpointKey cp = GetPastEthSignatureCheckpointKey cp')) as [->|Hne].
  - by rewrite lookup_insert_eq.
  - rewrite lookup_insert_ne by done. by rewrite lookup_insert_ne by apply counter_key_ne.
Qed.

Lemma build_remembers s s' p c max b :
  bridge_ok s → kv_params (st_kv s) = Some p → eth_ok c → 0 ≤ max < two64 →
  raw s !! KeyLastOutgoingBatchID ≠ Some (UInt64Bytes (two64 - 1)) →
  BuildOutgoingTXBatch c max s = Ret b s' →
  remembers s s' ∧ ∃ cp, InternalOutgoingTxBatch_GetCheckpoint (p_GravityId p) b = Some cp ∧
    checkpoint_known s' cp.
Proof.
  intros [Hs Hreg (p' & Hp & Hpok) He] Hp' Hc Hmax Hcnt Hrun.
  rewrite Hp in Hp'. injection Hp' as ->.
  destruct (tok_last_batch _ Hs) as (m & Hm & Hmok & _).
  pose proof (not_exhausted _ _ m Hm Hcnt Hmok) as [Hm0 Hm1].
  pose proof (locked_fees s c Hs He Hc) as Hsum.
  destruct (BuildOutgoingTXBatch_inv s p c max m Hs Hp Hpok Hc Hm (conj Hm0 Hm1) Hmax Hsum b s' Hrun)
    as (_ & _ & _ & _ & timeout & cp & _ & _ & Hcp & ->).
  destruct (built_remembers b cp s) as [Hr Hk]. split; [done|]. by exists cp.
Qed.

(** Every operation of the transfer subsystem remembers, in any state. *)
#[local] Instance remembers_refl : Reflexive remembers.
Proof. by split. Qed.
#[local] Instance remembers_trans : Transitive remembers.
Proof. intros s1 s2 s3 [E1 H1'] [E2 H2']. split; [congruence|auto]. Qed.

Lemma frame_counter k v :
  k ∈ [KeyLastTXPoolID; KeyLastOutgoingBatchID] → frame remembers (raw_set k v : K W _).
Proof.
  intros Hk. apply frame_modify. intros s. split; [done|]. intros cp Hcp.
  unfold checkpoint_known in *. cbn. rewrite lookup_insert_ne; [done|].
  apply elem_of_cons in Hk as [->|Hk%list_elem_of_singleton]; [|subst k]; apply counter_key_ne.
Qed.
Lemma frame_tx_id : frame remembers (autoIncrementID KeyLastTXPoolID : K W _).
Proof. unfold autoIncrementID, setID. framed. apply frame_counter. by left. Qed.
Lemma frame_batch_id : frame remembers (autoIncrementID KeyLastOutgoingBatchID : K W _).
Proof. unfold autoIncrementID, setID. framed. apply frame_counter. right; by left. Qed.
Lemma frame_checkpoint cp : frame remembers (SetPastEthSignatureCheckpoint cp : K W _).
Proof.
  apply frame_modify. intros s. split; [done|]. intros cp' Hcp. unfold checkpoint_known in *. cbn.
  destruct (decide (GetPastEthSignatureCheckpointKey cp = GetPastEthSignatureCheckpointKey cp')) as [->|?];
    [by rewrite lookup_insert_eq|by rewrite lookup_insert_ne].
Qed.
Lemma frame_call_remembers f : frame remembers (call f : K W _).
Proof. intros s. unfold call. by destruct (f (st_world s)) as [[e|] w]. Qed.
#[local] Hint Resolve frame_tx_id frame_batch_id frame_checkpoint frame_call_remembers : frame.
#[local] Hint Extern 1 (frame remembers (modify _)) => (by apply frame_modify) : frame.
#[local] Hint Extern 1 (frame remembers (emit _)) => (by apply frame_modify) : frame.

Lemma frame_pool_insert t : frame remembers (addUnbatchedTX t : K W _).
Proof. unfold addUnbatchedTX. framed. Qed.
Lemma frame_pool_delete fee id : frame remembers (removeUnbatchedTX fee id : K W _).
Proof. unfold removeUnbatchedTX. framed. Qed.
#[local] Hint Resolve frame_pool_insert frame_pool_delete : frame.

Lemma frame_AddToOutgoingPool sender dest amount fee :
  frame remembers (AddToOutgoingPool sender dest amount fee : K W _).
Proof. unfold AddToOutgoingPool. framed. Qed.
Lemma frame_Remove id sender : frame remembers (RemoveFromOutgoingPoolAndRefund id sender : K W _).
Proof.
  unfold RemoveFromOutgoingPoolAndRefund, GetUnbatchedTxById, IterateUnbatchedTransactions,
    filterAndIterateUnbatchedTransactions, GetUnbatchedTxByFeeAndId. framed.
Qed.
Lemma frame_Build c max : frame remembers (BuildOutgoingTXBatch c max : K W _).
Proof.
  unfold BuildOutgoingTXBatch, pickUnbatchedTxs, GetBatchFeeByTokenType, IterateUnbatchedTransactionsByContract,
    filterAndIterateUnbatchedTransactions, GetUnbatchedTxByFeeAndId, GetLastOutgoingBatchByTokenType,
    GetOutgoingTxBatches, IterateOutgoingTxBatches, RequireBridgeActive, getBatchTimeoutHeight, StoreBatch,
    BlockHeight, GetLastObservedEthereumBlockHeight. framed.
Qed.
Lemma frame_CancelBatch c n : frame remembers (CancelOutgoingTXBatch c n : K W _).
Proof.
  unfold CancelOutgoingTXBatch, DeleteBatch, DeleteBatchConfirms, GetOutgoingTXBatch,
    GetBatchConfirmByNonceAndTokenContract. framed.
Qed.
#[local] Hint Resolve frame_CancelBatch : frame.
Lemma frame_Executed c claim : frame remembers (OutgoingTxBatchExecuted c claim : K W _).
Proof.
  unfold OutgoingTxBatchExecuted, IterateOutgoingTxBatches, DeleteBatch, DeleteBatchConfirms,
    GetBatchConfirmByNonceAndTokenContract. framed.
Qed.

Lemma step_remembers s s' : bridge_step s s' → remembers s s'.
Proof.
  intros Hstep. destruct Hstep; (eapply (frame_inv remembers); [|eassumption]);
    auto using frame_AddToOutgoingPool, frame_Remove, frame_Build, frame_CancelBatch, frame_Executed.
Qed.

(** C28. A validator is never punished for a signature the chain asked for: once a
    batch is built, evidence about its checkpoint is refused and changes nothing,
    right then and in every later state of the transfer subsystem, also after the
    batch is executed or cancelled. *)
Theorem honest_signers_safe s s1 s2 p c max b msg subject :
  bridge_ok s → kv_params (st_kv s) = Some p → eth_ok c → 0 ≤ max < two64 →
  raw s !! KeyLastOutgoingBatchID ≠ Some (UInt64Bytes (two64 - 1)) →
  BuildOutgoingTXBatch c max s = Ret b s1 → rtc bridge_step s1 s2 →
  UnpackSigned (be_Subject msg) = Ok (Some subject) →
  Signed_GetCheckpoint (p_GravityId p) subject =
    InternalOutgoingTxBatch_GetCheckpoint (p_GravityId p) b →
  SubmitBadSignatureEvidence msg s2 = Fail ErrInvalid s2.
Proof.
  intros Hok Hp Hc Hmax Hcnt Hb Hrtc Hu Hcp.
  destruct (build_remembers s s1 p c max b) as ([Hp1 _] & cp & Hcpb & Hk); [done..|].
  rewrite Hp in Hp1. clear Hb Hok Hp.
  induction Hrtc as [s1|s1 s3 s2 Hstep Hrtc IH].
  - unfold SubmitBadSignatureEvidence, CheckBadSignatureEvidence. rewrite Hu. mrun.
    by rewrite (evidence_refused s1 p subject cp) by congruence.
  - destruct (step_remembers s1 s3 Hstep) as [Hp3 Hk3]. apply IH; [congruence|by apply Hk3].
Qed.
End Honest.
