(* ===== verification/ServerCorrect.v ===== *)
(** * The message server as a whole

    What every claim goes through before it counts as a vote, what a halted bridge
    refuses, and which parameters governance can put in place. *)

From stdpp Require Import base gmap list strings sorting.
From S2P Require Import Prelude GoStd External Store Ethereum Keys OutgoingTx Valset Claims Keeper Params DelegateKeys Evidence Msgs Attestation OracleCorrect Registry Pool Batch MsgServer ConfirmCorrect Transfers PoolCorrect BatchCorrect BatchLifecycle Escrow SendCorrect.

#[local] Open Scope Z_scope.

(** ** Claims *)

Section ClaimServer.
Context {W : Type} `{Geth} `{SdkLaws} `{Hashing} `{Codec} `{AnyCodec} `{!AnyCodecLaws} `{Bank W}
  `{Staking W}.
Implicit Types s : State W.

(** The handler of a claim. *)
Definition handle_claim (claim : EthereumClaim) : K W unit :=
  match claim with
  | SendToCosmosClaim msg => SendToCosmosClaim_handler msg
  | BatchSendToEthClaim msg => BatchSendToEthClaim_handler msg
  | ERC20DeployedClaim msg => ERC20DeployedClaim_handler msg
  | LogicCallExecutedClaim msg => LogicCallExecutedClaim_handler msg
  | ValsetUpdatedClaim msg => ValsetUpdateClaim msg
  end.

(** The validator whose orchestrator signed is in the set. *)
Definition bonded_operator s (orchestrator : string) (op : bytes) : Prop :=
  ∃ a val v, AccAddressFromBech32 orchestrator = Ok a ∧
    GetOrchestratorValidator a s = Ret (Some val) s ∧
    ValAddressFromBech32 (v_OperatorAddress val) = Ok op ∧
    GetValidator (st_world s) op = Ok v ∧ v_Status v = Bonded.

Lemma readonly_checkOrchestratorValidatorInSet o : readonly (checkOrchestratorValidatorInSet o : K W _).
Proof. unfold checkOrchestratorValidatorInSet. readonly. Qed.
Lemma readonly_check_claim_token t : readonly (check_claim_token t : K W _).
Proof. unfold check_claim_token. readonly. Qed.
Lemma readonly_additionalPatchChecks m : readonly (additionalPatchChecks m : K W _).
Proof. unfold additionalPatchChecks. readonly. Qed.

Lemma checkOrchestrator_inv o s u s' :
  checkOrchestratorValidatorInSet o s = Ret u s' → s' = s ∧ ∃ op, bonded_operator s o op.
Proof.
  intros E. pose proof E as E'. eapply readonly_inv in E' as ->;
    [|apply readonly_checkOrchestratorValidatorInSet]. split; [done|].
  unfold checkOrchestratorValidatorInSet, orchestrator_address in E.
  destruct (AccAddressFromBech32 o) as [a|] eqn:Ha; [|done].
  rewrite (bind_ret _ _ s a s) in E by done.
  mnext E as f s1 E1. pose proof E1 as E1'. eapply readonly_inv in E1'; [|auto with readonly]. subst s1.
  destruct f as [val|]; [|done].
  destruct (ValAddressFromBech32 (v_OperatorAddress val)) as [op|] eqn:Hop; [|done].
  mnext E as v s1 E2. apply gets_inv in E2 as [-> ->]. apply guard_err_inv in E as [Hb _].
  destruct (GetValidator (st_world s) op) as [v|] eqn:Hv; [|done].
  apply negb_false_iff, bool_decide_eq_true in Hb. exists op, a, val, v. done.
Qed.

Lemma claimHandlerCommon_inv s s' claim any :
  claimHandlerCommon any claim s = Ret tt s' →
  ∃ att s1, ValidateClaimFieldLengths claim = Ok tt ∧ Attest claim any s = Ret att s1 ∧
    st_kv s' = st_kv s1 ∧ st_world s' = st_world s1.
Proof.
  intros E. unfold claimHandlerCommon in E.
  mnext E as x s1 E1. eapply readonly_inv in E1; [|auto with readonly]. subst s1.
  mnext E as y s1 E1. apply of_res_inv in E1 as [Hl ->]. destruct y.
  mnext E as att s1 Ea. mnext E as h s2 E1. apply of_res_inv in E1 as [_ ->].
  unfold emit in E. apply modify_inv in E as ->. by exists att, s1.
Qed.

(** A check that only reads is passed. *)
Lemma pass_check {A} (m : K W A) (k : K W unit) s s' :
  readonly m → (_ ← m; k) s = Ret tt s' → k s = Ret tt s'.
Proof. intros Hm E. mnext E as x s1 E1. eapply readonly_inv in E1; [|done]. by subst. Qed.

Lemma active_check (m : K W unit) s s' :
  (_ ← RequireBridgeActive; m) s = Ret tt s' → RequireBridgeActive s = Ret tt s ∧ m s = Ret tt s'.
Proof.
  intros E. mnext E as x s1 E1. destruct x. pose proof E1 as E1'.
  eapply readonly_inv in E1'; [|auto with readonly]. by subst s1.
Qed.

Lemma bonded_check o (m : K W unit) s s' :
  (_ ← checkOrchestratorValidatorInSet o; m) s = Ret tt s' →
  (∃ op, bonded_operator s o op) ∧ m s = Ret tt s'.
Proof. intros E. mnext E as x s1 E1. by apply checkOrchestrator_inv in E1 as [-> Hop]. Qed.

(** Every claim goes the same way: the bridge is active, its orchestrator speaks for
    a bonded validator, and the claim, packed, is put to the vote. *)
Lemma handle_claim_inv s s' claim :
  handle_claim claim s = Ret tt s' →
  RequireBridgeActive s = Ret tt s ∧ (∃ op, bonded_operator s (GetOrchestrator claim) op) ∧
  ∃ any att s1, NewAnyWithValue claim = Ok any ∧ ValidateClaimFieldLengths claim = Ok tt ∧
    Attest claim any s = Ret att s1 ∧ st_kv s' = st_kv s1 ∧ st_world s' = st_world s1.
Proof.
  assert (∀ any, claimHandlerCommon any claim s = Ret tt s' → NewAnyWithValue claim = Ok any →
    ∃ any att s1, NewAnyWithValue claim = Ok any ∧ ValidateClaimFieldLengths claim = Ok tt ∧
      Attest claim any s = Ret att s1 ∧ st_kv s' = st_kv s1 ∧ st_world s' = st_world s1) as Hcommon.
  { intros any (att & s1 & ?)%claimHandlerCommon_inv ?. by exists any, att, s1. }
  destruct claim as [m|m|m|m|m]; cbn [handle_claim GetOrchestrator]; intros E;
    apply active_check in E as [Hact E]; (split; [done|]).
  3: apply pass_check in E; [|readonly].
  all: apply bonded_check in E as [Hop E]; (split; [done|]).
  2: apply pass_check in E; [|apply readonly_additionalPatchChecks].
  1-3: apply pass_check in E; [|apply readonly_check_claim_token].
  all: mnext E as any s1 E1; first [apply of_res_inv in E1 as [Hany ->]|apply or_panic_inv in E1 as [Hany ->]];
    by eapply Hcommon.
Qed.

(** C29. Only a bonded validator's word counts.  Whatever the claim, the message
    server records it as a vote only while the bridge is active, for the validator
    the signing orchestrator is delegated from, which is bonded at that moment, and
    only as that validator's next event: afterwards this nonce is its last one.
    Nobody votes twice for an event and no event has two observed attestations. *)
Theorem claims_from_bonded s s' p claim :
  oracle_ok s → kv_params (st_kv s) = Some p → u64_ok (GetEventNonce claim) →
  GetEventNonce claim ≠ 0 → handle_claim claim s = Ret tt s' →
  p_BridgeActive p = true ∧ oracle_ok s' ∧
  ∃ op, bonded_operator s (GetOrchestrator claim) op ∧
    GetEventNonce claim = u64 (effective_vote s op + 1) ∧
    last_vote s' op = Some (GetEventNonce claim).
Proof.
  intros Hok Hp Hn Hn0 E.
  apply handle_claim_inv in E as (Ha & (op & Hop) & any & att & s1 & Hany & _ & Hat & Hkv & Hw).
  split_and!.
  - unfold RequireBridgeActive in Ha. rewrite (bind_ret _ _ s p s) in Ha by by apply GetParams_eq.
    apply guard_err_inv in Ha as [Ha _]. by apply negb_false_iff in Ha.
  - apply (oracle_ok_same s1); [split; by rewrite ?Hkv, ?Hw|].
    eapply Attest_oracle_ok; [done..| |done]. by apply unpack_packed.
  - exists op. split; [done|].
    apply (Attest_inv s s1 claim any att Hok) in Hat
      as (v & h & att0 & (cl & val & Hcl & Hval & Hv) & _ & _ & En & _ & _ & _ & ->).
    destruct Hop as (a & val' & v' & Ha' & Hval' & Hop & _).
    assert (cl = a) as ->.
    { unfold GetClaimer in Hcl. destruct (Claim_ValidateBasic claim); [|done].
      rewrite Ha' in Hcl. by injection Hcl as ->. }
    assert (v = op) as -> by congruence. split; [done|].
    unfold last_vote. rewrite Hkv. fold (last_vote (voted_state
      (GetAttestationKey (GetEventNonce claim) h) att0 op (GetEventNonce claim) s) op).
    by rewrite last_vote_voted_state, decide_True.
Qed.
End ClaimServer.

(** ** A halted bridge *)

Section Halted.
Context {W : Type} `{Geth} `{Sdk} `{Hashing} `{Codec} `{AnyCodec} `{Bank W} `{Staking W}
  `{EthAbi} `{EthCrypto} `{Decimals} `{Accounts W} `{Mint W} `{AuctionParams W}.
Implicit Types s : State W.

(** The messages that need an active bridge. *)
Inductive BridgeMsg :=
  | BridgeSend (msg : MsgSendToEth)
  | BridgeRequestBatch (msg : MsgRequestBatch)
  | BridgeConfirmLogicCall (msg : MsgConfirmLogicCall)
  | BridgeClaim (claim : EthereumClaim).

Definition serve (msg : BridgeMsg) : K W unit :=
  match msg with
  | BridgeSend msg => SendToEth msg
  | BridgeRequestBatch msg => RequestBatch msg
  | BridgeConfirmLogicCall msg => ConfirmLogicCall msg
  | BridgeClaim claim => handle_claim claim
  end.

Lemma inactive_stops {A} (k : K W A) s p :
  kv_params (st_kv s) = Some p → p_BridgeActive p = false →
  (_ ← RequireBridgeActive; k) s = Fail ErrInvalid s.
Proof.
  intros Hp Ha. unfold RequireBridgeActive. mrun. rewrite (GetParams_eq s p) by done. by rewrite Ha.
Qed.

(** While the bridge is halted nothing goes in or out: no transfer is accepted,
    no batch is made, no logic call is confirmed and no claim about Ethereum is
    recorded.  Each of these messages is refused and leaves the state as it is. *)
Theorem halted_refuses s p msg :
  kv_params (st_kv s) = Some p → p_BridgeActive p = false → serve msg s = Fail ErrInvalid s.
Proof.
  intros Hp Ha. destruct msg as [m|m|m|[m|m|m|m|m]]; cbn [serve handle_claim]; by eapply inactive_stops.
Qed.
End Halted.

(** ** Parameters *)

Section ParamsServer.
Context {W : Type} `{Geth} `{Sdk} `{TextFormats}.
Implicit Types s : State W.

(** The unsigned fields are in their width. *)
Record params_typed (p : Params) : Prop := {
  pt_chain : u64_ok (p_BridgeChainId p);
  pt_valsets : u64_ok (p_SignedValsetsWindow p);
  pt_batches : u64_ok (p_SignedBatchesWindow p);
  pt_calls : u64_ok (p_SignedLogicCallsWindow p);
  pt_timeout : u64_ok (p_TargetBatchTimeout p);
  pt_block : u64_ok (p_AverageBlockTime p);
  pt_eth_block : u64_ok (p_AverageEthereumBlockTime p);
  pt_unbond : u64_ok (p_UnbondSlashingValsetsWindow p);
  pt_min_fee : u64_ok (p_MinChainFeeBasisPoints p) }.

(** What the bridge relies on. *)
Record params_sound (p : Params) : Prop := {
  pv_id : slen (p_GravityId p) ≤ 32;
  pv_bridge : p_BridgeEthereumAddress p = "" ∨ ∃ a, NewEthAddress (p_BridgeEthereumAddress p) = Ok a;
  pv_timeout : 60000 ≤ p_TargetBatchTimeout p;
  pv_blocks : 100 ≤ p_AverageBlockTime p ∧ 100 ≤ p_AverageEthereumBlockTime p;
  pv_blacklist : Forall (λ b, ∃ a, NewEthAddress b = Ok a) (p_EthereumBlacklist p);
  pv_fees : fee_params_ok p }.

Lemma parse_digits_nonneg str acc n : 0 ≤ acc → parse_digits str acc = Some n → 0 ≤ n.
Proof.
  revert acc. induction str as [|c str IH]; intros acc Ha; [by intros [= <-]|]. cbn.
  unfold digit. destruct ((48 <=? _) && _)%bool eqn:E; [|done]. cbn. zbool. apply IH. lia.
Qed.

Lemma ParseUint_range str n : ParseUint str = Ok n → u64_ok n.
Proof.
  unfold ParseUint. case_decide; [done|]. destruct (parse_digits str 0) as [m|] eqn:E; [|done].
  destruct (Z.leb_spec two64 m); [done|]. intros [= <-]. split; [|done].
  by eapply parse_digits_nonneg; [|exact E].
Qed.

Lemma updateParam_typed p key value p' :
  params_typed p → updateParam p key value = Ok p' → params_typed p'.
Proof.
  intros Ht. destruct p. unfold updateParam, upd_uint, upd_dec, mbind, res_bind.
  repeat (case_decide as E;
    [clear E; repeat case_match; try done; intros [= <-]; destruct Ht; split; cbn in *;
     eauto using ParseUint_range|clear E]).
  done.
Qed.

Lemma updateParams_typed p updates p' :
  params_typed p → updateParams p updates = Ok p' → params_typed p'.
Proof.
  revert p. induction updates as [|[k v] us IH]; intros p Ht; cbn; [by intros [= <-]|].
  unfold mbind, res_bind. destruct (updateParam p k v) as [p1|] eqn:E; [|done].
  apply IH. by eapply updateParam_typed.
Qed.

Lemma valid_address str : ValidateEthAddress str = Ok tt → ∃ a, NewEthAddress str = Ok a.
Proof. intros E. unfold NewEthAddress, mbind, res_bind. rewrite E. eauto. Qed.

Lemma blacklist_valid l : is_ok (res_map ValidateEthAddress l) → Forall (λ b, ∃ a, NewEthAddress b = Ok a) l.
Proof.
  induction l as [|b l IH]; [constructor|]. cbn. unfold mbind, res_bind.
  destruct (ValidateEthAddress b) as [[]|] eqn:E; [|done].
  destruct (res_map ValidateEthAddress l); [|done]. intros _. constructor; [by apply valid_address|auto].
Qed.

Lemma Params_ValidateBasic_valid p :
  params_typed p → Params_ValidateBasic p = Ok tt → params_sound p.
Proof.
  intros Ht. unfold Params_ValidateBasic, mbind, res_bind.
  destruct (validateGravityID (p_GravityId p)) eqn:E1; [|done].
  destruct (validateBridgeContractAddress (p_BridgeEthereumAddress p)) eqn:E2; [|done].
  unfold validateContractHash, validateBridgeChainID, validateSignedValsetsWindow,
    validateSignedBatchesWindow, validateSignedLogicCallsWindow, validateSlashFractionValset,
    validateSlashFractionBatch, validateSlashFractionLogicCall,
    validateSlashFractionBadEthSignature, validateUnbondSlashingValsetsWindow, validateBridgeActive.
  unfold validateTargetBatchTimeout, validateAverageBlockTime, validateAverageEthereumBlockTime.
  destruct (Z.ltb_spec (p_TargetBatchTimeout p) 60000); [done|].
  destruct (Z.ltb_spec (p_AverageBlockTime p) 100); [done|].
  destruct (Z.ltb_spec (p_AverageEthereumBlockTime p) 100); [done|].
  destruct (validateValsetRewardAmount (p_ValsetReward p)); [|done].
  unfold validateEthereumBlacklistAddresses, mbind, res_bind.
  destruct (res_map ValidateEthAddress (p_EthereumBlacklist p)) eqn:E3; [|done].
  unfold validateMinChainFeeBasisPoints, validateChainFeeAuctionPoolFraction.
  destruct (Z.ltb_spec 10000 (p_MinChainFeeBasisPoints p)); [done|].
  destruct (p_ChainFeeAuctionPoolFraction p) as [f|] eqn:E4; [|done].
  destruct (Z.ltb_spec f 0); [done|]. destruct (Z.ltb_spec LegacyOneDec f); [done|]. intros _.
  split; try done.
  - unfold validateGravityID, strToFixByteArray, mbind, res_bind in E1.
    destruct (Z.ltb_spec 32 (slen (p_GravityId p))); [done|lia].
  - unfold validateBridgeContractAddress in E2.
    destruct (ValidateEthAddress (p_BridgeEthereumAddress p)) as [[]|e] eqn:E; [right; by apply valid_address|].
    case_decide as Ee; [|done]. left. subst e. unfold ValidateEthAddress in E.
    repeat case_match; try done.
  - apply blacklist_valid. by rewrite E3.
  - destruct (pt_min_fee _ Ht). split; [lia|]. exists f. done.
Qed.

(** C34. Parameters change by governance only, all together or not at all, and only
    to valid ones: the proposal is refused, with the state unchanged, unless it comes
    from the authority; when it succeeds the new parameters are the old ones with the
    updates applied in order, every unsigned field is in its width, times, addresses
    and the bridge's identifier are valid, and so are the fee parameters on which
    the arithmetic of fees depends.  Nothing but the parameters changes. *)
Theorem UpdateParamsProposal_spec s p authority msg :
  kv_params (st_kv s) = Some p → params_typed p →
  match UpdateParamsProposal authority msg s with
  | Ret _ s' => up_Authority msg = authority ∧ ∃ p',
      updateParams p (up_ParamUpdates msg) = Ok p' ∧ params_typed p' ∧ params_sound p' ∧
      s' = upd_kv (upd_params (λ _, Some p')) s
  | Fail _ s' => s' = s
  | Panic _ => False
  end.
Proof.
  intros Hp Ht. unfold UpdateParamsProposal, SetParams. mrun.
  destruct (bool_decide (authority ≠ up_Authority msg)) eqn:Ea; [done|].
  apply bool_decide_eq_false, dec_stable in Ea. rewrite (GetParams_eq s p) by done.
  destruct (updateParams p (up_ParamUpdates msg)) as [p'|] eqn:Eu; [|done].
  destruct (Params_ValidateBasic p') as [[]|] eqn:Ev; [|done].
  split; [done|]. exists p'. pose proof (updateParams_typed _ _ _ Ht Eu). 
  split_and!; [done..| |done]. by apply Params_ValidateBasic_valid.
Qed.
End ParamsServer.
