(* ===== verification/GovernanceCorrect.v ===== *)
(** * Governance proposals keep the bridge's invariants

    Unhalting rolls the oracle back to an event nonce; airdrops pay from the
    community pool; the list of bridgeable tokens agrees with the bank.  With the
    roll-back as a step, the reachable states of the oracle. *)

From stdpp Require Import base gmap list strings sorting relations.
From S2P Require Import Prelude GoStd External Store Ethereum Keys OutgoingTx Valset Claims Keeper Params DelegateKeys Evidence Msgs Attestation OracleCorrect OracleObserve OracleTally Registry IbcForward Governance SendCorrect.

#[local] Open Scope Z_scope.

(** ** Unhalting *)

Section Unhalt.
Context {W : Type} `{Geth} `{SdkLaws} `{Hashing} `{Codec} `{Staking W}.
Implicit Types s : State W.

(** The attestations at the end of the loop that deletes those of [l]. *)
Lemma delete_each s seen rest :
  oracle_ok s → Forall (λ a, ∃ k, atts s !! k = Some a) rest →
  for_each rest DeleteAttestation (set_atts (filter (λ kv, kv.2 ∉ seen) (atts s)) s) =
  Ret tt (set_atts (filter (λ kv, kv.2 ∉ seen ++ rest) (atts s)) s).
Proof.
  intros Hok. revert seen. induction rest as [|a rest IH]; intros seen Hf.
  - by rewrite app_nil_r.
  - apply Forall_cons in Hf as [[k Ha] Hf]. cbn [for_each].
    destruct (oracle_ok_stored s k a Hok Ha) as (c & h & Hc & Hk & _).
    rewrite (bind_ret _ _ _ _ _ (DeleteAttestation_eq _ a c h Hc)). rewrite <- Hk.
    specialize (IH (seen ++ [a]) Hf). rewrite <- app_assoc in IH. etrans; [|exact IH]. f_equal.
    unfold set_atts, upd_kv, upd_attestations. simpl. do 2 f_equal.
    apply map_eq. intros k'. apply option_eq. intros a'.
    rewrite lookup_delete_Some, !map_lookup_filter_Some. cbn [snd].
    rewrite elem_of_app, list_elem_of_singleton. split.
    + intros (Hne & Ha' & Hn). split; [done|]. intros [?| ->]; [done|].
      destruct (oracle_ok_stored s k' a Hok Ha') as (c' & h' & Hc' & Hk' & _).
      destruct (att_claim_unique a c' h' c h Hc' Hc) as [-> ->]. congruence.
    + intros (Ha' & Hn). split; [|naive_solver]. intros ->. rewrite Ha in Ha'.
      injection Ha' as <-. apply Hn. by right.
Qed.

(** The votes of [votes] go back to [cutoff]. *)
Record rewound (cutoff : Z) (votes : list string) s s' : Prop := {
  rw_frame : s' = upd_kv (upd_raw (λ _, raw s')) s;
  rw_raw k : (∀ v, k ≠ vote_key v) → raw s' !! k = raw s !! k;
  rw_votes v : raw s' !! vote_key v =
    if decide (VerifyAddressFormat v = Ok tt ∧ ValAddressString v ∈ votes)
    then Some (UInt64Bytes cutoff) else raw s !! vote_key v }.

Definition counters_ok s : Prop :=
  counter_ok (raw s !! LastObservedEventNonceKey) ∧ ∀ v, counter_ok (raw s !! vote_key v).

(** A vote past the cutoff. *)
Definition ahead (cutoff : Z) s (vote : string) : Prop :=
  ∃ v m, VerifyAddressFormat v = Ok tt ∧ vote = ValAddressString v ∧
    last_vote s v = Some m ∧ cutoff < m.

Definition set_vote (v : bytes) (n : Z) s : State W :=
  upd_kv (upd_raw (insert (vote_key v) (UInt64Bytes n))) s.

Lemma resetLastEventNonce_eq cutoff s v m :
  counters_ok s → VerifyAddressFormat v = Ok tt → last_vote s v = Some m → cutoff < m →
  resetLastEventNonce cutoff (ValAddressString v) s = Ret tt (set_vote v cutoff s).
Proof.
  intros [Ho Hv] Hver Hm Hlt. unfold resetLastEventNonce.
  rewrite (bind_ret _ _ s v s) by by rewrite val_bech32_roundtrip.
  rewrite (bind_ret _ _ _ _ _ (GetLastEventNonceByValidator_eq s v Hver Ho (Hv v))).
  unfold effective_vote. rewrite Hm. destruct (Z.ltb_spec cutoff m); [|lia].
  unfold SetLastEventNonceByValidator. mrun. rewrite Hver. unfold opt_panic.
  by rewrite vote_key_eq.
Qed.

Lemma raw_set_vote v n s v' :
  raw (set_vote v n s) !! vote_key v' =
  if decide (v' = v) then Some (UInt64Bytes n) else raw s !! vote_key v'.
Proof.
  unfold set_vote. cbn. case_decide as E; [by rewrite E, lookup_insert_eq|].
  rewrite lookup_insert_ne; [done|]. intros E'%vote_key_inj. congruence.
Qed.

Lemma set_vote_ahead cutoff s v vote :
  VerifyAddressFormat v = Ok tt → vote ≠ ValAddressString v → ahead cutoff s vote →
  ahead cutoff (set_vote v cutoff s) vote.
Proof.
  intros Hv Hne (v' & m & Hv' & -> & Hm & Hlt). exists v', m. split_and!; try done.
  unfold last_vote in *. rewrite raw_set_vote, decide_False; [done|]. by intros ->.
Qed.

Lemma set_vote_counters cutoff s v : u64_ok cutoff → counters_ok s → counters_ok (set_vote v cutoff s).
Proof.
  intros Hn [Ho Hv]. split.
  - unfold set_vote. cbn. by rewrite lookup_insert_ne by apply vote_observed_key_ne.
  - intros v'. rewrite raw_set_vote. case_decide; [by exists cutoff|done].
Qed.

Lemma rewind_loop cutoff votes s :
  u64_ok cutoff → counters_ok s → NoDup votes → Forall (ahead cutoff s) votes →
  ∃ s', for_each votes (resetLastEventNonce cutoff) s = Ret tt s' ∧ rewound cutoff votes s s'.
Proof.
  intros Hn Hc Hnd. revert s Hc. induction Hnd as [|x votes Hx Hnd IH]; intros s Hc Hf.
  - exists s. split; [done|]. split; [by destruct s as [[] ? ? ?]|done|]. intros v.
    rewrite decide_False; [done|]. intros [_ []%not_elem_of_nil].
  - apply Forall_cons in Hf as [(v & m & Hv & -> & Hm & Hlt) Hf].
    destruct (IH (set_vote v cutoff s)) as (s' & Hrun & [Hfr Ho Hvs]).
    { by apply set_vote_counters. }
    { rewrite Forall_forall in *. intros y Hy. apply set_vote_ahead; [done| |by apply Hf].
      by intros ->. }
    exists s'. split; [cbn [for_each]; by rewrite (bind_ret _ _ _ _ _ (resetLastEventNonce_eq _ _ _ _ Hc Hv Hm Hlt))|].
    split.
    + rewrite Hfr at 1. done.
    + intros k Hk. rewrite Ho by done. unfold set_vote. cbn. by rewrite lookup_insert_ne.
    + intros v'. rewrite Hvs, raw_set_vote.
      destruct (decide (VerifyAddressFormat v' = Ok tt ∧ ValAddressString v' ∈ votes)) as [[? ?]|Hno].
      * rewrite decide_True; [done|]. set_solver.
      * destruct (decide (v' = v)) as [->|Hne].
        -- rewrite decide_True; [done|]. set_solver.
        -- rewrite decide_False; [done|]. intros [Hv' [E|?]%elem_of_cons]; [|naive_solver].
           apply Hne. by apply ValAddressString_inj.
Qed.

Definition reverted_atts s (n : Z) : list Attestation :=
  reverted (foldl add_att ∅ (stored_atts s))
    (merge_sort Z.le (map_to_list (foldl add_att ∅ (stored_atts s))).*1) n.

Lemma elem_of_reverted s n a :
  oracle_ok s → a ∈ reverted_atts s n ↔ (∃ k, atts s !! k = Some a) ∧ n < nonce_of a.
Proof.
  intros Hok. unfold reverted_atts, reverted. rewrite list_elem_of_bind. split.
  - intros (m & Ha & [Hm _]%list_elem_of_filter). rewrite lookup_add_atts in Ha.
    apply elem_of_app in Ha as [Ha|[<- Ha]%list_elem_of_filter].
    + rewrite lookup_empty in Ha. by apply not_elem_of_nil in Ha.
    + split; [by apply elem_of_stored|done].
  - intros [Hk Hn]. assert ((nonce_of a, a) ∈ by_nonce s) as Hb by by apply elem_of_by_nonce.
    unfold by_nonce in Hb.
    apply list_elem_of_bind in Hb as (m & Ha & Hm). apply list_elem_of_fmap in Ha as (a' & E & Ha).
    injection E as <- <-. exists (nonce_of a). rewrite lookup_add_atts, lookup_empty.
    split; [done|by apply list_elem_of_filter].
Qed.

(** Whoever voted for an attestation after the nonce. *)
Definition voted_after s (n : Z) (v : bytes) : Prop :=
  ∃ k a, atts s !! k = Some a ∧ n < nonce_of a ∧ ValAddressString v ∈ at_Votes a.

(** The oracle as it was before the events after [n]: the state differs from [s]
    in the attestations and in the validators' last votes, and in nothing else. *)
Record rolled_back s (n : Z) s' : Prop := {
  rb_atts : atts s' = filter (λ kv, nonce_of kv.2 ≤ n) (atts s);
  rb_frame : s' = upd_kv (upd_raw (λ _, raw s')) (set_atts (atts s') s);
  rb_raw k : (∀ v, k ≠ vote_key v) → raw s' !! k = raw s !! k;
  rb_revote v : VerifyAddressFormat v = Ok tt → voted_after s n v → last_vote s' v = Some n;
  rb_others v : VerifyAddressFormat v = Ok tt → ¬ voted_after s n v → last_vote s' v = last_vote s v }.

Lemma elem_of_affected s n v :
  oracle_ok s →
  ValAddressString v ∈ elements (list_to_set (reverted_atts s n ≫= at_Votes) : gset string) ↔
  voted_after s n v.
Proof.
  intros Hok. rewrite elem_of_elements, elem_of_list_to_set, list_elem_of_bind. unfold voted_after.
  split.
  - intros (a & Hv & [[k Ha] Hn]%elem_of_reverted); [|done]. by exists k, a.
  - intros (k & a & Ha & Hn & Hv). exists a. split; [done|]. apply elem_of_reverted; eauto.
Qed.

Lemma voted_after_dec s n v : oracle_ok s → voted_after s n v ∨ ¬ voted_after s n v.
Proof.
  intros Hok. destruct (decide (ValAddressString v ∈
    elements (list_to_set (reverted_atts s n ≫= at_Votes) : gset string))) as [E|E].
  - left. by apply elem_of_affected in E.
  - right. intros Hv. apply E. by apply elem_of_affected.
Qed.

Lemma affected_ahead s n :
  oracle_ok s →
  Forall (ahead n s) (elements (list_to_set (reverted_atts s n ≫= at_Votes) : gset string)).
Proof.
  intros Hok. apply Forall_forall. intros vote.
  rewrite elem_of_elements, elem_of_list_to_set, list_elem_of_bind.
  intros (a & Hv & [[k Ha] Hn]%elem_of_reverted); [|done].
  destruct (ok_atts _ Hok _ _ Ha) as (c & h & [Hu _] & _ & _ & Hf & _).
  rewrite Forall_forall in Hf. destruct (Hf _ Hv) as (v & m & Hver & -> & Hm & Hle).
  exists v, m. split_and!; try done. unfold nonce_of in Hn. rewrite Hu in Hn. lia.
Qed.

Lemma delete_reverted s n :
  oracle_ok s →
  for_each (reverted_atts s n) DeleteAttestation s =
  Ret tt (set_atts (filter (λ kv, kv.2 ∉ reverted_atts s n) (atts s)) s).
Proof.
  intros Hok. pose proof (delete_each s [] (reverted_atts s n) Hok) as E. cbn [app] in E.
  rewrite <- E; [f_equal|].
  - replace (filter _ (atts s)) with (atts s); [by destruct s as [[] ? ? ?]|].
    symmetry. apply map_filter_id. intros k a _. apply not_elem_of_nil.
  - apply Forall_forall. intros a [Ha _]%elem_of_reverted; done.
Qed.

(** The two loops together. *)
Lemma rewound_rolled_back s n s' :
  oracle_ok s → u64_ok n →
  rewound n (elements (list_to_set (reverted_atts s n ≫= at_Votes) : gset string))
    (set_atts (filter (λ kv, kv.2 ∉ reverted_atts s n) (atts s)) s) s' →
  counters_ok s' ∧ rolled_back s n s'.
Proof.
  intros Hok Hn [Hfr Ho Hv]. cbn in Ho.
  assert (atts s' = filter (λ kv, kv.2 ∉ reverted_atts s n) (atts s)) as Ha by by rewrite Hfr.
  split; [split|split].
  - rewrite Ho; [apply Hok|]. intros v E. by eapply vote_observed_key_ne.
  - intros v. rewrite Hv. case_decide; [by exists n|]. apply Hok.
  - rewrite Ha. apply map_filter_ext. intros k a Hk. cbn [snd]. rewrite elem_of_reverted by done.
    split; [|lia]. intros Hno. destruct (Z.lt_ge_cases n (nonce_of a)); [|done].
    exfalso. apply Hno. eauto.
  - rewrite Ha. exact Hfr.
  - done.
  - intros v Hver Hva. unfold last_vote. rewrite Hv, decide_True; [by apply counter_val_some|].
    split; [done|]. by apply elem_of_affected.
  - intros v Hver Hva. unfold last_vote. rewrite Hv, decide_False; [done|].
    intros [_ E%elem_of_affected]; done.
Qed.

Lemma rolled_back_observed s n s' : rolled_back s n s' → last_observed s' = last_observed s.
Proof.
  intros Hrb. unfold last_observed. rewrite (rb_raw _ _ _ Hrb); [done|].
  intros v E. by eapply vote_observed_key_ne.
Qed.

(** Rolling back keeps the invariant of the votes. *)
Lemma rolled_back_ok s n s' :
  oracle_ok s → counters_ok s' → rolled_back s n s' → oracle_ok s'.
Proof.
  intros Hok [Ho' Hvs'] Hrb. pose proof (rolled_back_observed _ _ _ Hrb) as Eobs.
  destruct Hrb as [Eatts _ _ Hre Hoth]. pose proof Hok as [Ho Hvs Ha Hon Hu].
  assert (∀ k a, atts s' !! k = Some a → atts s !! k = Some a ∧ nonce_of a ≤ n) as Hsub.
  { intros k a. rewrite Eatts, map_lookup_filter_Some. done. }
  split.
  - done.
  - done.
  - intros k a [Hk Hn]%Hsub. destruct (Ha k a Hk) as (c & h & Hc & Ek & Hnd & Hf & Hob).
    exists c, h. rewrite Eobs. split_and!; try done. rewrite Forall_forall in *.
    intros vote Hv. destruct (Hf vote Hv) as (v & m & Hver & -> & Hm & Hle).
    assert (nonce_of a = GetEventNonce c) as Ea by (unfold nonce_of; by destruct Hc as [-> _]).
    destruct (voted_after_dec s n v Hok) as [Hva|Hva].
    + exists v, n. split_and!; [done|done|by apply Hre|lia].
    + exists v, m. split_and!; [done|done|by rewrite Hoth|done].
  - intros k1 a1 c1 h1 k2 a2 c2 h2 vote [E1 _]%Hsub [E2 _]%Hsub. by apply Hon.
  - intros k1 a1 c1 h1 k2 a2 c2 h2 [E1 _]%Hsub [E2 _]%Hsub. by apply Hu.
Qed.

Lemma HandleUnhalt_run s p :
  oracle_ok s → u64_ok (ub_TargetNonce p) →
  ∃ s', HandleUnhaltBridgeProposal p s = Ret tt s' ∧ oracle_ok s' ∧
    if (ub_TargetNonce p <? last_observed s) || (ub_TargetNonce p =? 0) ||
       negb (is_ok (GetBondedValidatorsByPower (st_world s)))
    then s' = s else rolled_back s (ub_TargetNonce p) s'.
Proof.
  intros Hok Hn. unfold HandleUnhaltBridgeProposal, pruneAttestationsAfterNonce.
  set (n := ub_TargetNonce p) in *.
  rewrite (bind_ret _ _ s (last_observed s) s) by (apply GetLastObservedEventNonce_eq, Hok).
  destruct ((n <? last_observed s) || (n =? 0)) eqn:Eskip; [by exists s|].
  rewrite (bind_ret _ _ _ _ _ (GetAttestationMapping_eq s Hok)). cbv beta iota.
  rewrite (bind_ret _ _ s (GetBondedValidatorsByPower (st_world s)) s) by done.
  destruct (is_ok (GetBondedValidatorsByPower (st_world s))); cbn [negb orb]; [|by exists s].
  fold (reverted_atts s n). cbv zeta.
  set (s1 := set_atts (filter (λ kv, kv.2 ∉ reverted_atts s n) (atts s)) s).
  rewrite (bind_ret _ _ s tt s1); [|by apply delete_reverted].
  destruct (rewind_loop n (elements (list_to_set (reverted_atts s n ≫= at_Votes) : gset string)) s1)
    as (s' & Hrun & Hrw); [done|by split; apply Hok|apply NoDup_elements| |].
  { eapply Forall_impl; [by apply affected_ahead|]. done. }
  exists s'. destruct (rewound_rolled_back s n s') as [Hc Hrb]; [done..|].
  split_and!; [done|by eapply rolled_back_ok|done].
Qed.

End Unhalt.

(** ** All interleavings *)

Section Reachable.
Context {W : Type} `{Geth} `{SdkLaws} `{Hashing} `{Codec} `{StakingLaws W}.
Context `{AttestationHandler W} `{!HandlerFrame W}.
Implicit Types s : State W.

(** A step of the chain as the oracle sees it: a vote that is accepted, a tally or
    a pruning of the end blocker that returns, a proposal that unhalts the bridge,
    or anything that leaves the oracle's state alone (staking powers, heights and
    parameters may change). *)
Inductive oracle_step s : State W → Prop :=
  | step_vote s' claim any att :
      u64_ok (GetEventNonce claim) → GetEventNonce claim ≠ 0 → UnpackClaim any = Ok claim →
      Attest claim any s = Ret att s' → oracle_step s s'
  | step_tally s' : attestationTally s = Ret tt s' → oracle_step s s'
  | step_prune s' : pruneAttestations s = Ret tt s' → oracle_step s s'
  | step_unhalt s' p :
      u64_ok (ub_TargetNonce p) → HandleUnhaltBridgeProposal p s = Ret tt s' → oracle_step s s'
  | step_other s' :
      atts s' = atts s →
      raw s' !! LastObservedEventNonceKey = raw s !! LastObservedEventNonceKey →
      (∀ v, raw s' !! vote_key v = raw s !! vote_key v) → oracle_step s s'.

(** Before the first vote. *)
Definition oracle_init s : Prop :=
  atts s = ∅ ∧ raw s !! LastObservedEventNonceKey = None ∧ ∀ v, raw s !! vote_key v = None.

Lemma oracle_init_ok s : oracle_init s → oracle_ok s.
Proof.
  intros (Ea & Eo & Ev). split.
  - by rewrite Eo.
  - intros v. by rewrite Ev.
  - intros k att. by rewrite Ea, lookup_empty.
  - intros k1 a1 c1 h1 k2 a2 c2 h2 vote. by rewrite Ea, lookup_empty.
  - intros k1 a1 c1 h1 k2 a2 c2 h2. by rewrite Ea, lookup_empty.
Qed.

Lemma oracle_step_ok s s' :
  oracle_step s s' → oracle_ok s → oracle_ok s' ∧ last_observed s ≤ last_observed s'.
Proof.
  intros Hstep Hok. destruct Hstep as [s' claim any att Hu Hn0 Hany Hrun|s' Hrun|s' Hrun|s' p Hn Hrun|s' Ea Eo Ev].
  - split; [by eapply Attest_oracle_ok|].
    destruct (Attest_inv s s' claim any att Hok Hrun) as (v & h & a0 & _ & _ & _ & _ & _ & _ & _ & ->).
    by rewrite last_observed_voted_state.
  - apply attestationTally_tallied in Hrun as Ht; [|done]. split; apply Ht.
  - destruct (pruneAttestations_run s Hok) as [E Hok']. rewrite Hrun in E. injection E as ->.
    split; [done|]. unfold pruned. by case_match.
  - destruct (HandleUnhalt_run s p Hok Hn) as (s2 & E & Hok2 & Hcase). rewrite Hrun in E. injection E as <-.
    split; [done|]. case_match; [by subst|]. by rewrite (rolled_back_observed _ _ _ Hcase).
  - assert (last_observed s' = last_observed s) as El by (unfold last_observed; by rewrite Eo).
    split; [|by rewrite El]. destruct Hok as [Ho Hv Ha Hon Hu]. split.
    + by rewrite Eo.
    + intros v. by rewrite Ev.
    + rewrite Ea. intros k att (c & h & ? & ? & ? & Hvt & ?)%Ha. exists c, h.
      rewrite El. split_and!; try done. eapply Forall_impl; [exact Hvt|].
      intros vote (v & m & ? & ? & ? & ?). exists v, m. unfold last_vote in *. by rewrite Ev.
    + by rewrite Ea.
    + by rewrite Ea.
Qed.

(** C2. Whatever the order of accepted votes, tallies that return, prunings,
    unhalting proposals and work that does not touch the oracle's records, with any
    heights, powers and parameters, in every state the chain can reach from one
    without votes: the last observed event nonce has not gone back;
    every stored attestation is under the key of its claim with no validator
    counted twice; no validator has votes on two attestations of one event; no
    event has two observed attestations. *)
Theorem oracle_safe s0 s :
  oracle_init s0 → rtc oracle_step s0 s →
  oracle_ok s ∧ ∀ s', rtc oracle_step s s' → last_observed s ≤ last_observed s'.
Proof.
  assert (∀ s1 s2, rtc oracle_step s1 s2 → oracle_ok s1 →
    oracle_ok s2 ∧ last_observed s1 ≤ last_observed s2) as Hrtc.
  { intros s1 s2. induction 1 as [|s1 s2 s3 H12 _ IH]; intros Hok; [done|].
    apply oracle_step_ok in H12 as [Hok2 Hle]; [|done]. destruct (IH Hok2). split; [done|lia]. }
  intros Hi%oracle_init_ok Hs. destruct (Hrtc _ _ Hs Hi) as [Hok _]. split; [done|].
  intros s' Hs'. by apply Hrtc.
Qed.
End Reachable.

(** ** Bridgeable tokens *)

Section Tokens.
Context {W : Type} `{Geth} `{Sdk} `{Bank W} `{BankMetadata W} `{!BankMetadataLaws W}.
Implicit Types s : State W.

(** The list of bridgeable tokens, by denom. *)
Definition listed s (d : string) : option Metadata :=
  kv_bridgeable (st_kv s) !! GetCosmosBridgeableTokenKey d.

(** The entry a list of metadata has for a denom. *)
Fixpoint entry_of (l : list Metadata) (d : string) : option Metadata :=
  match l with
  | [] => None
  | m :: l' => if decide (md_Base m = d) then Some m else entry_of l' d
  end.

(** A token on the list has the same metadata in the bank, so it can be bridged. *)
Definition tokens_ok s : Prop :=
  ∀ d m, listed s d = Some m → md_Base m = d ∧ GetDenomMetaData (st_world s) d = Some m.

Lemma token_key_inj d d' : GetCosmosBridgeableTokenKey d = GetCosmosBridgeableTokenKey d' → d = d'.
Proof.
  unfold GetCosmosBridgeableTokenKey, AppendBytes. cbn [concat]. rewrite !app_nil_r.
  intros [_ E]%app_inj_1; [|done]. by apply bytes_of_string_inj.
Qed.

(** What listing one token requires. *)
Definition may_list s (m : Metadata) : Prop :=
  HasPrefix (md_Base m) GravityDenomPrefix = false ∧ GetSupply (st_world s) (md_Base m) ≠ 0 ∧
  (listed s (md_Base m) = None ∨
   raw s !! GetDenomToERC20Key (md_Base m) = None).

Definition list_token (m : Metadata) s : State W :=
  upd_kv (upd_bridgeable (insert (GetCosmosBridgeableTokenKey (md_Base m)) m))
    (upd_world (SetDenomMetaData m) s).

Lemma set_bridgeable_token_inv m s s' :
  set_bridgeable_token m s = Ret tt s' → may_list s m ∧ s' = list_token m s.
Proof.
  intros E. unfold set_bridgeable_token in E.
  mnext E as x1 s1 E1. apply of_res_inv in E1 as [_ ->].
  mnext E as x2 s1 E1. apply of_res_inv in E1 as [_ ->].
  mnext E as x3 s1 E1. apply guard_err_inv in E1 as [Hp ->].
  mnext E as sup s1 E1. apply gets_inv in E1 as [-> ->].
  mnext E as x4 s1 E1. apply guard_err_inv in E1 as [Hs ->].
  mnext E as ex s1 E1. unfold GetCosmosBridgeableToken in E1. apply gets_inv in E1 as [-> ->].
  mnext E as er s1 E1. pose proof E1 as E1'. eapply readonly_inv in E1'; [|auto with readonly]. subst s1.
  mnext E as x5 s1 E2. apply guard_err_inv in E2 as [Hb ->].
  mnext E as x6 s1 E2. apply modify_inv in E2 as ->.
  mnext E as x7 s1 E2. unfold SetCosmosBridgeableToken in E2. apply modify_inv in E2 as ->.
  mnext E as wb s1 E2. apply gets_inv in E2 as [-> ->].
  mnext E as x8 s1 E2. apply guard_err_inv in E2 as [_ ->].
  mnext E as wa s1 E2. unfold GetCosmosBridgeableToken in E2. apply gets_inv in E2 as [-> ->].
  apply guard_err_inv in E as [_ ->]. split; [|done]. zbool. split_and!; [done|done|].
  apply andb_false_iff in Hb as [Hb|Hb]; apply bool_decide_eq_false in Hb;
    rewrite <- eq_None_not_Some in Hb; [by left|right; subst].
  unfold getCosmosOriginatedERC20ForDenom, raw_get in E1.
  mnext E1 as bz s1 E2. apply gets_inv in E2 as [-> ->].
  destruct (raw s !! GetDenomToERC20Key (md_Base m)); [|done]. minv.
Qed.

Lemma listed_list_token m s d :
  listed (list_token m s) d = if decide (d = md_Base m) then Some m else listed s d.
Proof.
  unfold listed, list_token. cbn. case_decide as E; [by rewrite E, lookup_insert_eq|].
  rewrite lookup_insert_ne; [done|]. intros E'%token_key_inj. congruence.
Qed.

Lemma entry_of_None l d : d ∉ md_Base <$> l → entry_of l d = None.
Proof.
  induction l as [|m l IH]; [done|]. cbn [fmap list_fmap entry_of].
  rewrite not_elem_of_cons. intros [Hne Hd]. rewrite decide_False by congruence. by apply IH.
Qed.

Lemma first_duplicate_NoDup seen l :
  first_duplicate seen l = false →
  NoDup (md_Base <$> l) ∧ Forall (λ m, md_Base m ∉ seen) l.
Proof.
  revert seen. induction l as [|m l IH]; intros seen; [intros _; split; constructor|].
  cbn. rewrite orb_false_iff, bool_decide_eq_false. intros [Hm [Hnd Hf]%IH].
  rewrite Forall_forall in Hf. split; constructor; try done.
  - intros (m' & E & Hm')%list_elem_of_fmap. specialize (Hf _ Hm'). set_solver.
  - apply Forall_forall. intros m' Hm'. specialize (Hf _ Hm'). set_solver.
Qed.

(** The tokens of [l] are listed, with their metadata in the bank too. *)
Record tokens_listed (l : list Metadata) s s' : Prop := {
  tl_list d : listed s' d = entry_of l d ∪ listed s d;
  tl_bank d : GetDenomMetaData (st_world s') d = entry_of l d ∪ GetDenomMetaData (st_world s) d;
  tl_balance a d : GetBalance (st_world s') a d = GetBalance (st_world s) a d;
  tl_supply d : GetSupply (st_world s') d = GetSupply (st_world s) d;
  tl_raw : raw s' = raw s }.

Lemma may_list_frame m m' s :
  md_Base m' ≠ md_Base m → may_list (list_token m s) m' → may_list s m'.
Proof.
  intros Hne (? & Hsup & Hl). rewrite listed_list_token, decide_False in Hl by done.
  split_and!; [done| |done]. cbn in Hsup. by rewrite set_metadata_supply in Hsup.
Qed.

Lemma set_tokens_loop l s s' u :
  NoDup (md_Base <$> l) → for_each l set_bridgeable_token s = Ret u s' →
  Forall (may_list s) l ∧ tokens_listed l s s'.
Proof.
  revert s. induction l as [|m l IH]; intros s Hnd E.
  - apply mret_inv in E as [_ ->]. split; [constructor|]. split; intros; try done; cbn [entry_of];
      by rewrite (left_id_L None (∪)).
  - cbn [for_each] in E. mnext E as x s1 E1. destruct x.
    apply set_bridgeable_token_inv in E1 as [Hm ->].
    cbn [fmap list_fmap] in Hnd. apply NoDup_cons in Hnd as [Hnot Hnd].
    destruct (IH _ Hnd E) as [Hf [H1' H2' H3' H4' H5']]. split.
    + constructor; [done|]. rewrite Forall_forall in *. intros m' Hm'.
      apply (may_list_frame m); [|by apply Hf]. intros Eb. apply Hnot. rewrite <- Eb.
      by apply list_elem_of_fmap_2.
    + split; intros.
      * rewrite H1', listed_list_token. cbn [entry_of]. case_decide as Ed.
        -- subst d. rewrite decide_True, entry_of_None by done. by destruct (listed s _).
        -- by rewrite decide_False by congruence.
      * rewrite H2'. cbn. rewrite set_metadata_get. case_decide as Ed.
        -- subst d. rewrite decide_True, entry_of_None by done.
           by destruct (GetDenomMetaData (st_world s) _).
        -- by rewrite decide_False by congruence.
      * rewrite H3'. cbn. apply set_metadata_balance.
      * rewrite H4'. cbn. apply set_metadata_supply.
      * by rewrite H5'.
Qed.

Lemma entry_of_base l d m : entry_of l d = Some m → md_Base m = d.
Proof. induction l as [|m' l IH]; cbn; [done|]. case_decide; naive_solver. Qed.

Lemma readonly_assert_tokens : readonly (assertCosmosBridgeableTokensConsistent : K W _).
Proof. unfold assertCosmosBridgeableTokensConsistent, GetAllCosmosBridgeableTokens. readonly. Qed.

(** A proposal that lists tokens as bridgeable and succeeds lists exactly the
    tokens it names, each once, and gives each the same metadata in the list and in
    the bank: every listed token can be bridged afterwards if every one could be
    before.  None of the tokens is a voucher of the bridge, each exists, and none
    already has both an entry and an ERC20 on Ethereum whose metadata it would
    change.  Balances, supplies and the registry of ERC20s are untouched. *)
Theorem HandleSetCosmosBridgeableTokensProposal_spec s s' p :
  HandleSetCosmosBridgeableTokensProposal p s = Ret tt s' →
  NoDup (md_Base <$> sb_Metadatas p) ∧ Forall (may_list s) (sb_Metadatas p) ∧
  tokens_listed (sb_Metadatas p) s s' ∧ (tokens_ok s → tokens_ok s').
Proof.
  intros E. unfold HandleSetCosmosBridgeableTokensProposal in E.
  mnext E as x1 s1 E1. apply guard_err_inv in E1 as [[Hnd _]%first_duplicate_NoDup ->].
  mnext E as x2 s1 E1. eapply readonly_inv in E; [|apply readonly_assert_tokens]. subst s1.
  destruct (set_tokens_loop _ _ _ _ Hnd E1) as [Hf Hl]. split_and!; try done.
  intros Hok d m Hd. pose proof Hl as [H1' H2' _ _ _]. rewrite H1' in Hd. rewrite H2'.
  destruct (entry_of (sb_Metadatas p) d) as [m'|] eqn:Ee.
  - assert (m' = m) as -> by (destruct (listed s d); cbn in Hd; congruence).
    split; [by eapply entry_of_base|]. by destruct (GetDenomMetaData (st_world s) d).
  - rewrite (left_id_L None (∪)) in *. by apply Hok.
Qed.
End Tokens.

(** ** Airdrops *)

Section Airdrops.
Context {W : Type} `{Geth} `{Sdk} `{Bank W} `{!BankLaws W} `{DecimalsLaws} `{CommunityPool W}
  `{!CommunityPoolLaws W}.
Implicit Types (s : State W) (w : W).

(** What the list of payments gives an account. *)
Definition share_of (a : bytes) (payments : list (bytes * Z)) : Z :=
  sumZ (λ r, if decide (r.1 = a) then r.2 else 0) payments.

(** The payments are made from the distribution module's account. *)
Definition paid_out (d : string) (payments : list (bytes * Z)) w w' : Prop :=
  (∀ a d', GetBalance w' a d' = GetBalance w a d' +
     if decide (d' = d) then share_of a payments -
       (if decide (a = GetModuleAddress DistributionModule) then sumZ snd payments else 0) else 0) ∧
  ∀ d', GetSupply w' d' = GetSupply w d'.

Lemma amount_of_coins_of d' d x : amount_of d' (coins_of d x) = if decide (d' = d) then x else 0.
Proof.
  unfold coins_of. destruct (Z.eqb_spec x 0) as [->|].
  - cbn. by case_decide.
  - rewrite amount_of_singleton. cbn. repeat case_decide; congruence.
Qed.

Lemma pay_recipient_inv d r acc s acc' stop s' :
  pay_recipient d r acc s = Ret (acc', stop) s' →
  stop = false ∧ acc' = acc + r.2 * dec_one ∧
  ∃ w, s' = upd_world (λ _, w) s ∧
    moved (st_world s) w (GetModuleAddress DistributionModule) r.1 (coins_of d r.2).
Proof.
  destruct r as [addr x]. intros E. unfold pay_recipient in E.
  mnext E as dec s1 E1. apply opt_panic_inv in E1 as [->%dec_from_int ->].
  mnext E as c s1 E1. apply opt_panic_inv in E1 as [Hc ->].
  mnext E as l s1 E1. apply opt_panic_inv in E1 as [Hl ->].
  mnext E as u s1 E1. apply call_inv in E1 as (w & Hw & ->).
  mnext E as t s1 E1. apply opt_panic_inv in E1 as [->%dec_add ->].
  apply mret_inv in E as [E ->]. injection E as -> ->.
  destruct (NewCoin_coins _ _ _ _ Hc Hl) as [-> _]. split_and!; [done..|].
  exists w. split; [done|]. by apply send_mod_acc.
Qed.

Lemma paid_out_nil d w : paid_out d [] w w.
Proof. split; [|done]. intros a d'. cbn. repeat case_decide; lia. Qed.

Lemma paid_out_cons d r l w w1 w' :
  moved w w1 (GetModuleAddress DistributionModule) r.1 (coins_of d r.2) →
  paid_out d l w1 w' → paid_out d (r :: l) w w'.
Proof.
  intros (Hb & Hs & _) [Hb' Hs']. split; [|intros d'; by rewrite Hs', Hs].
  intros a d'. rewrite Hb', Hb, !amount_of_coins_of. unfold share_of. cbn [sumZ foldr].
  fold (sumZ (λ r, if decide (r.1 = a) then r.2 else 0) l). fold (sumZ snd l).
  repeat case_decide; subst; try done; lia.
Qed.

Lemma pay_loop d l acc s r s' :
  for_acc l acc (pay_recipient d) s = Ret r s' →
  r = acc + sumZ snd l * dec_one ∧
  ∃ w, s' = upd_world (λ _, w) s ∧ paid_out d l (st_world s) w.
Proof.
  revert acc s. induction l as [|x l IH]; intros acc s E.
  - apply mret_inv in E as [-> ->]. split; [cbn; lia|]. exists (st_world s).
    split; [by destruct s|apply paid_out_nil].
  - cbn [for_acc] in E. mnext E as st s1 E1. destruct st as [acc1 stop].
    apply pay_recipient_inv in E1 as (-> & -> & w & -> & Hm).
    destruct (IH _ _ E) as (-> & w' & -> & Hp). split; [cbn [sumZ foldr]; fold (sumZ snd l); lia|].
    exists w'. split; [done|]. by eapply paid_out_cons.
Qed.

(** An airdrop that succeeds pays every recipient the amount listed for it out
    of the distribution module's account, and takes exactly the total off the
    community pool, which covered it; no coin is created or destroyed, no other
    account changes, and neither does the bridge. *)
Theorem HandleAirdropProposal_spec s s' p :
  HandleAirdropProposal p s = Ret tt s' →
  let payments := zip (parse_recipients (ad_Recipients p)) (ad_Amounts p) in
  let total := sumZ snd payments * dec_one in
  length (ad_Recipients p) = (20 * length (ad_Amounts p))%nat ∧
  (∀ a d, GetBalance (st_world s') a d = GetBalance (st_world s) a d +
     if decide (d = ad_Denom p) then share_of a payments -
       (if decide (a = GetModuleAddress DistributionModule) then sumZ snd payments else 0) else 0) ∧
  GetSupply (st_world s') (ad_Denom p) = GetSupply (st_world s) (ad_Denom p) ∧
  (∃ f f', FeePool_Get (st_world s) = Ok f ∧ total ≤ FeePool_AmountOf f (ad_Denom p) ∧
    FeePool_SafeSub f (ad_Denom p) total = (f', false) ∧ FeePool_Get (st_world s') = Ok f') ∧
  st_kv s' = st_kv s.
Proof.
  intros E payments total. unfold HandleAirdropProposal in E.
  mnext E as x1 s1 E1. apply of_res_inv in E1 as [_ ->].
  mnext E as supply s1 E1. apply gets_inv in E1 as [-> ->].
  mnext E as x2 s1 E1. apply guard_err_inv in E1 as [_ ->].
  mnext E as pool s1 E1. apply gets_inv in E1 as [-> ->].
  mnext E as f s1 E1. apply of_res_inv in E1 as [Hf ->].
  mnext E as tot s1 E1. apply opt_panic_inv in E1 as [Htot ->].
  mnext E as c s1 E1. apply opt_panic_inv in E1 as [Hc ->].
  unfold NewCoin in Hc. destruct (Coin_IsValid _); [|done]. injection Hc as <-.
  mnext E as req s1 E1. apply opt_panic_inv in E1 as [->%dec_from_int ->]. cbn [Amount] in E.
  mnext E as x3 s1 E1. apply guard_err_inv in E1 as [Henough ->]. zbool.
  mnext E as x4 s1 E1. apply guard_err_inv in E1 as [Hlen ->].
  apply orb_false_elim in Hlen as [Hmod%negb_false_iff%Nat.eqb_eq Hdiv%negb_false_iff%Nat.eqb_eq].
  mnext E as x5 s1 E1. apply guard_err_inv in E1 as [Hpl%negb_false_iff%Nat.eqb_eq ->].
  mnext E as sent s1 E1. apply pay_loop in E1 as (-> & w & -> & [Hb Hs]). fold payments in E, Hb.
  mnext E as x6 s1 E1. apply guard_err_inv in E1 as [Heq%negb_false_iff ->]. zbool.
  assert (tot * dec_one = total) as Ht by (unfold total; lia). rewrite Ht in *.
  destruct (FeePool_SafeSub f (ad_Denom p) total) as [f' neg] eqn:Esub.
  mnext E as x7 s1 E1. apply guard_err_inv in E1 as [-> ->].
  mnext E as x8 s1 E1. apply call_inv in E1 as (w' & Hw' & ->). cbn [st_world upd_world] in *.
  mnext E as fin s1 E1. apply gets_inv in E1 as [-> ->]. apply guard_err_inv in E as [Hsup ->].
  apply negb_false_iff in Hsup. zbool. cbn [st_world upd_world st_kv] in *.
  split_and!; try done.
  - pose proof (Nat.div_mod_eq (length (ad_Recipients p)) 20). lia.
  - intros a d. rewrite (pool_set_balance _ _ _ a d Hw'). apply Hb.
  - exists f, f'. split_and!; try done. by eapply pool_set_get.
Qed.
End Airdrops.

(** ** The message that updates parameters *)

Section ParamMessages.
Context `{Sdk}.

Lemma check_param_keys_ok (seen : gset string) (updates : list (string * string)) :
  check_param_keys seen updates = Ok tt ↔ NoDup updates.*1 ∧ Forall (.∉ seen) updates.*1.
Proof.
  revert seen. induction updates as [|[k v] updates IH]; intros seen; cbn [check_param_keys fmap list_fmap].
  { split; [|done]. intros _. split; constructor. }
  rewrite NoDup_cons, Forall_cons. cbn [fst]. case_decide as Hk; [naive_solver|].
  rewrite IH, !Forall_forall. split.
  - intros [Hnd Hf]. split_and!; [|done|done|]; set_solver.
  - intros [[Hk' Hnd] [_ Hf]]. split; [done|]. intros x Hx. specialize (Hf x Hx). set_solver.
Qed.

(** The message is well-formed exactly when its authority is an account and no parameter is named twice. *)
Lemma MsgUpdateParamsProposal_valid (msg : MsgUpdateParamsProposal) :
  MsgUpdateParamsProposal_ValidateBasic msg = Ok tt ↔
  is_ok (AccAddressFromBech32 (up_Authority msg)) = true ∧ NoDup (up_ParamUpdates msg).*1.
Proof.
  unfold MsgUpdateParamsProposal_ValidateBasic. destruct (AccAddressFromBech32 _); cbn; [|naive_solver].
  rewrite check_param_keys_ok. split; [naive_solver|]. intros [_ Hnd]. split; [done|].
  apply Forall_forall. intros k _. apply not_elem_of_empty.
Qed.
End ParamMessages.
