(* ===== verification/AuditCorrect.v ===== *)
(** * The audit of the module's balance

    [ModuleBalanceInvariant] of keeper/invariants.go sums up every transfer in
    flight and every pending forward, and compares the sums with the module's
    account.  When it passes, the bridge owes exactly what it holds. *)

From stdpp Require Import base gmap list strings sorting.
From S2P Require Import Prelude GoStd External Store Ethereum Keys OutgoingTx Valset Claims Keeper Registry IbcForward Pool Batch Invariants Transfers PoolCorrect BatchCorrect BatchLifecycle Escrow.

#[local] Open Scope Z_scope.

Section Audit.
Context {W : Type} `{GethLaws} `{SdkLaws} `{EthAbi} `{Bank W} `{!BankLaws W} `{BankBalances W}
  `{!BankBalancesLaws W} `{Bech32} `{Ibc W}.
Implicit Types (s : State W) (m : gmap string Z).

(** [m'] is [m] with [f d] added to every denom that has an entry. *)
Definition credited (f : string → Z) m m' : Prop :=
  ∀ d x, m !! d = Some x → m' !! d = Some (x + f d).

Lemma credited_refl f m : (∀ d, f d = 0) → credited f m m.
Proof. intros Hf d x Hx. rewrite Hf, Z.add_0_r. done. Qed.

Lemma credited_trans f g h m1 m2 m3 :
  credited f m1 m2 → credited g m2 m3 → (∀ d, h d = f d + g d) → credited h m1 m3.
Proof.
  intros H12 H23 Hh d x Hx. apply H12, H23 in Hx. rewrite Hx, Hh. f_equal. lia.
Qed.

Lemma credited_ext f g m m' : (∀ d, f d = g d) → credited f m m' → credited g m m'.
Proof. intros Hfg Hc d x Hx. rewrite <- Hfg. by apply Hc. Qed.

Lemma sumZ_bind {A B} (f : B → Z) (g : A → list B) (l : list A) :
  sumZ f (l ≫= g) = sumZ (λ x, sumZ f (g x)) l.
Proof.
  induction l as [|x l IH]; [done|]. cbn [mbind list_bind]. rewrite sumZ_app.
  change (l ≫= g) with (mbind g l) in IH. rewrite IH. done.
Qed.

Lemma iter_desc_pool (m : gmap bytes OutgoingTransferTx) :
  map_Forall pool_entry_ok m → iter_desc m (prefixRange OutgoingTXPoolKey) ≡ₚ map_to_list m.
Proof.
  intros Hm. unfold iter_desc. rewrite reverse_Permutation, iter_asc_perm.
  rewrite list_filter_all; [done|]. apply Forall_forall. intros [k e] Hk%elem_of_map_to_list.
  destruct (Hm k e Hk) as (t & _ & _ & ->). cbn [fst]. unfold tx_key, pool_key.
  apply prefix_in_range; [done|]. by repeat constructor.
Qed.

(** What the entry [e] owes in a denom, when it owes [amount e] in [denom e]. *)
Definition owes (d0 : string) (amount : Z) (d : string) : Z := if decide (d0 = d) then amount else 0.

Lemma add_expected_inv d x m s m' s' :
  add_expected d x m s = Ret m' s' → s' = s ∧ credited (owes d x) m m'.
Proof.
  intros E. unfold add_expected in E.
  mnext E as t s1 E1. apply opt_panic_inv in E1 as [[-> _]%int_check_inv ->].
  apply mret_inv in E as [-> ->]. split; [done|]. intros d' y Hy. unfold owes. case_decide as Ed.
  - subst d'. rewrite lookup_insert_eq, Hy. done.
  - rewrite lookup_insert_ne by done. rewrite Hy. f_equal. lia.
Qed.

(** A loop whose body credits what each element owes. *)
Lemma credit_loop {A} (l : list A) (f : A → string → Z) body m s m' s' :
  (∀ x m m' stop s1, x ∈ l → body x m s = Ret (m', stop) s1 → stop = false ∧ s1 = s ∧ credited (f x) m m') →
  for_acc l m body s = Ret m' s' →
  s' = s ∧ credited (λ d, sumZ (λ x, f x d) l) m m'.
Proof.
  intros Hbody. revert m. induction l as [|x l IH]; intros m E.
  - apply mret_inv in E as [-> ->]. split; [done|]. by apply credited_refl.
  - cbn [for_acc] in E. mnext E as r s1 E1. destruct r as [m1 stop].
    apply Hbody in E1 as (-> & -> & Hc); [|left].
    apply IH in E as [-> Hc']; [|intros; eapply Hbody; [right|]; done].
    split; [done|]. eapply credited_trans; [done..|]. done.
Qed.

(** What the transfers owe in a denom. *)
Definition owed s (ts : list InternalOutgoingTransferTx) (d : string) : Z :=
  sumZ (λ t, owes (asset_denom (raw s) (tx_contract t)) (tx_total t) d) ts.

Lemma batch_total_inv ts x y :
  foldl (λ acc tx, total ← acc; amount ← tx_amount tx; Int_Add total amount) (Some x) ts = Some y →
  y = x + sumZ tx_total ts.
Proof.
  revert x. induction ts as [|t ts IH]; intros x; [intros [= <-]; cbn; lia|].
  cbn [foldl]. cbn [mbind option_bind]. intros E.
  destruct (tx_amount t ≫= λ amount, Int_Add x amount) as [z|] eqn:Ez.
  - apply bind_Some in Ez as (a & [-> _]%int_check_inv & [-> _]%int_check_inv).
    apply IH in E. rewrite E. unfold sumZ at 2. cbn [foldr].
    fold (sumZ tx_total ts). unfold tx_total at 2. lia.
  - exfalso. clear -E. by induction ts.
Qed.

Lemma batch_owes s b d :
  wf_batch b →
  owed s (ib_Transactions b) d = owes (asset_denom (raw s) (ib_TokenContract b))
    (sumZ tx_total (ib_Transactions b)) d.
Proof.
  intros (_ & _ & Hf). unfold owed, owes. induction Hf as [|t ts [_ Ht] Hf IH].
  - cbn. by case_decide.
  - unfold sumZ in *. cbn [foldr]. rewrite IH. unfold tx_contract. rewrite Ht. case_decide; lia.
Qed.

Lemma batches_credited s m m' s' :
  transfers_ok s → reg_ok (raw s) → sumUnconfirmedBatchModuleBalances m s = Ret m' s' →
  s' = s ∧ credited (owed s (batch_txs (kv_batches (st_kv s)))) m m'.
Proof.
  intros Hs Hreg E. unfold sumUnconfirmedBatchModuleBalances, IterateOutgoingTxBatches in E.
  mnext E as l s1 E1. apply gets_inv in E1 as [-> ->].
  eapply (credit_loop _ (λ kv, owed s (parse_batch kv.2))) in E as [-> Hc].
  - split; [done|]. eapply credited_ext; [|exact Hc]. intros d. unfold owed, batch_txs.
    rewrite sumZ_bind. by rewrite iter_desc_all.
  - intros [k e] m1 m2 stop s1 Hin E1. apply elem_of_iter_desc in Hin as [Hk _].
    destruct (tok_batches _ Hs k e Hk) as (b & Hwf & -> & _). cbn [snd] in *.
    unfold parse_batch. rewrite batch_roundtrip in * by by apply wf_batch_ok.
    rewrite (bind_ret _ _ s b s) in E1 by done.
    mnext E1 as t s2 E2. apply opt_panic_inv in E2 as [->%batch_total_inv ->].
    mnext E1 as o s2 E2. apply must_inv in E2.
    apply ClassifyERC20_inv in E2 as (-> & Hd & _); [|done].
    mnext E1 as m3 s2 E2. apply add_expected_inv in E2 as [-> Hc].
    apply mret_inv in E1 as [E1 ->]. injection E1 as -> ->. split_and!; [done..|].
    eapply credited_ext; [|exact Hc]. intros d. rewrite batch_owes, Hd by done. done.
Qed.

Lemma pool_credited s m m' s' :
  transfers_ok s → reg_ok (raw s) → sumUnbatchedTxModuleBalances m s = Ret m' s' →
  s' = s ∧ credited (owed s (pool_txs (kv_pool (st_kv s)))) m m'.
Proof.
  intros Hs Hreg E.
  unfold sumUnbatchedTxModuleBalances, IterateUnbatchedTransactions, filterAndIterateUnbatchedTransactions in E.
  mnext E as l s1 E1. apply gets_inv in E1 as [-> ->].
  eapply (credit_loop _ (λ kv, owed s (parse_tx kv.2))) in E as [-> Hc].
  - split; [done|]. eapply credited_ext; [|exact Hc]. intros d. unfold owed, pool_txs.
    rewrite sumZ_bind. rewrite iter_desc_pool; [done|apply Hs].
  - intros [k e] m1 m2 stop s1 Hin E1. apply elem_of_iter_desc in Hin as [Hk _].
    destruct (tok_pool _ Hs k e Hk) as (t & Hwf & -> & _). cbn [snd fst] in *.
    unfold parse_tx. rewrite tx_roundtrip in * by apply Hwf.
    rewrite (bind_ret _ _ s t s) in E1 by done.
    mnext E1 as o s2 E2. apply must_inv in E2.
    apply ClassifyERC20_inv in E2 as (-> & Hd & _); [|done].
    mnext E1 as x s2 E2. apply opt_panic_inv in E2 as [[-> _]%int_check_inv ->].
    mnext E1 as m3 s2 E2. apply add_expected_inv in E2 as [-> Hc].
    apply mret_inv in E1 as [E1 ->]. injection E1 as -> ->. split_and!; [done..|].
    eapply credited_ext; [|exact Hc]. intros d. unfold owed, sumZ. cbn [foldr].
    rewrite Z.add_0_r, Hd. done.
Qed.

(** What the pending forwards owe in a denom. *)
Definition pending s (d : string) : Z :=
  sumZ (λ kv, owes (Denom (pf_Token kv.2)) (Amount (pf_Token kv.2)) d)
    (map_to_list (kv_forwards (st_kv s))).

Lemma forwards_credited s m m' s' :
  sumPendingIbcAutoForwards m s = Ret m' s' → s' = s ∧ credited (pending s) m m'.
Proof.
  intros E. unfold sumPendingIbcAutoForwards in E.
  rewrite (bind_ret _ _ _ _ _ (PendingIbcAutoForwards_all s)) in E.
  eapply (credit_loop _ (λ f, owes (Denom (pf_Token f)) (Amount (pf_Token f)))) in E as [-> Hc].
  - split; [done|]. eapply credited_ext; [|exact Hc]. intros d. unfold pending.
    rewrite sumZ_fmap. unfold compose.
    rewrite iter_asc_perm, list_filter_all; [done|]. by apply Forall_forall; intros [] _.
  - intros f m1 m2 stop s1 _ E1. cbv zeta in E1.
    destruct (m1 !! Denom (pf_Token f)) as [x|] eqn:Ex.
    + mnext E1 as m3 s2 E2. apply add_expected_inv in E2 as [-> Hc].
      apply mret_inv in E1 as [E1 ->]. by injection E1 as -> ->.
    + apply mret_inv in E1 as [E1 ->]. injection E1 as -> ->. split_and!; [done..|].
      intros d y Hy. unfold owes. rewrite decide_False by congruence.
      rewrite lookup_insert_ne by congruence. rewrite Hy. f_equal. lia.
Qed.

Lemma start_entries (l : list Coin) m d :
  (∃ c, c ∈ l ∧ Denom c = d) ∨ m !! d = Some 0 → foldl (λ m c, <[Denom c := 0]> m) m l !! d = Some 0.
Proof.
  revert m. induction l as [|c l IH]; intros m.
  - intros [(c & []%not_elem_of_nil & _)|Hm]; done.
  - cbn [foldl]. intros Hd. apply IH. destruct (decide (Denom c = d)) as [<-|Hne].
    + right. apply lookup_insert_eq.
    + destruct Hd as [(c' & [->|Hc]%elem_of_cons & <-)|Hm]; [done|left; eauto|right].
      by rewrite lookup_insert_ne.
Qed.

(** Every denom held is compared with all that is owed in it. *)
Lemma expected_balances_inv s l m s' :
  transfers_ok s → reg_ok (raw s) → expected_balances l s = Ret m s' →
  s' = s ∧ ∀ c, c ∈ l → m !! Denom c = Some (owed s (transfers s) (Denom c) + pending s (Denom c)).
Proof.
  intros Hs Hreg E. unfold expected_balances in E. cbv zeta in E.
  mnext E as m1 s1 E1. apply batches_credited in E1 as [-> H1']; [|done..].
  mnext E as m2 s1 E1. apply pool_credited in E1 as [-> H2']; [|done..].
  apply forwards_credited in E as [-> H3']. split; [done|]. intros c Hc.
  assert (foldl (λ m c, <[Denom c := 0]> m) ∅ l !! Denom c = Some 0) as H0' by (apply start_entries; eauto).
  apply H1', H2', H3' in H0'. rewrite H0'. unfold transfers, owed. rewrite sumZ_app. f_equal. lia.
Qed.

Lemma check_balance_inv m c s u s' :
  check_balance m c s = Ret u s' →
  s' = s ∧ ∃ o, ClassifyDenom (Denom c) s = Ret o s ∧
    (ao_Origin o ≠ AssetOriginCosmos → m !! Denom c = Some (Amount c)).
Proof.
  intros E. unfold check_balance in E. mnext E as r s1 E1.
  apply try_inv in E1 as [(o & -> & Ho)|(e & -> & _)]; [|done].
  pose proof Ho as Ho'. eapply readonly_inv in Ho'; [|auto with readonly]. subst s1.
  destruct (m !! Denom c) as [x|]; [|done]. case_decide as Ec.
  - apply mret_inv in E as [_ ->]. split; [done|]. by exists o.
  - apply guard_err_inv in E as [Hx%negb_false_iff ->]. zbool. split; [done|]. exists o.
    split; [done|]. intros _. by rewrite Hx.
Qed.

Lemma check_all m l s u s' :
  for_each l (check_balance m) s = Ret u s' →
  s' = s ∧ ∀ c, c ∈ l → ∃ o, ClassifyDenom (Denom c) s = Ret o s ∧
    (ao_Origin o ≠ AssetOriginCosmos → m !! Denom c = Some (Amount c)).
Proof.
  induction l as [|c l IH]; intros E.
  - apply mret_inv in E as [_ ->]. split; [done|]. by intros c []%not_elem_of_nil.
  - cbn [for_each] in E. mnext E as x s1 E1. apply check_balance_inv in E1 as [-> Hc].
    apply IH in E as [-> Hl]. split; [done|]. intros c' [->|Hc']%elem_of_cons; [done|by apply Hl].
Qed.

(** What is owed in the denom of a token is what its transfers lock. *)
Lemma owed_locked s c :
  transfers_ok s → reg_ok (raw s) → eth_ok c →
  owed s (transfers s) (asset_denom (raw s) c) = locked s c.
Proof.
  intros Hs Hreg Hc. unfold locked, token_transfers. rewrite sumZ_filter. apply sumZ_ext.
  eapply Forall_impl; [by apply transfers_wf|]. intros t [(_ & _ & _ & (_ & _ & Ht) & _) _].
  unfold owes. repeat case_decide; try done; [|congruence].
  exfalso. by eauto using asset_denom_inj.
Qed.

(** A denom of a token from Ethereum is not classified as one from Cosmos. *)
Lemma ethereum_denom s c o :
  reg_ok (raw s) → eth_ok c → raw s !! GetERC20ToDenomKey c = None →
  ClassifyDenom (asset_denom (raw s) c) s = Ret o s → ao_Origin o ≠ AssetOriginCosmos.
Proof.
  intros Hreg Hc Hnone E. apply ClassifyDenom_inv in E as (_ & _ & _ & a & _ & _ & Hcase); [|done].
  destruct Hcase as [[-> Hd]|(r & -> & _)]; [|done]. exfalso.
  destruct (reg_denom _ Hreg _ _ Hd) as (_ & a' & Ha' & _ & Hrev).
  assert (asset_denom (raw s) a' = asset_denom (raw s) c) as E.
  { unfold asset_denom at 1. by rewrite Hrev, string_of_bytes_of_string. }
  apply asset_denom_inj in E; [|done..]. congruence.
Qed.

(** C31. The audit of the module's balance is exact: when it passes, the module
    holds of every token from Ethereum, unless it holds none of it, exactly the
    amounts and fees of the transfers in flight plus what waits to be forwarded over
    IBC.  The audit changes nothing. *)
Theorem ModuleBalanceInvariant_exact s s' c :
  transfers_ok s → reg_ok (raw s) → ModuleBalanceInvariant s = Ret tt s' →
  eth_ok c → raw s !! GetERC20ToDenomKey c = None →
  let d := asset_denom (raw s) c in
  GetBalance (st_world s) module_address d ≠ 0 →
  s' = s ∧ GetBalance (st_world s) module_address d = locked s c + pending s d.
Proof.
  intros Hs Hreg E Hc Hnone d Hbal. unfold ModuleBalanceInvariant in E.
  mnext E as l s1 E1. apply gets_inv in E1 as [-> ->].
  mnext E as m s1 E1. apply expected_balances_inv in E1 as [-> Hm]; [|done..].
  apply check_all in E as [-> Hall]. split; [done|].
  set (coin := mkCoin d (GetBalance (st_world s) module_address d)).
  assert (coin ∈ GetAllBalances (st_world s) (GetModuleAddress ModuleName)) as Hin
    by by apply all_balances.
  destruct (Hall coin Hin) as (o & Ho & Heq). cbn [Denom Amount coin] in Ho, Heq.
  pose proof (Heq (ethereum_denom s c o Hreg Hc Hnone Ho)) as E1.
  pose proof (Hm coin Hin) as E2. cbn [Denom coin] in E2. rewrite E2 in E1. injection E1 as E1.
  rewrite <- E1. unfold d. by rewrite owed_locked.
Qed.
End Audit.
