(* ===== verification/GenesisCorrect.v ===== *)
(** * Export and import of the bridge's transfers

    A chain that is exported and started again from the exported genesis has the
    same transfers in flight; and which genesis states cannot be imported. *)

From stdpp Require Import base gmap list strings sorting.
From S2P Require Import Prelude GoStd External Store Ethereum Keys OutgoingTx Valset Claims Keeper Params DelegateKeys Evidence Msgs Attestation Registry ValsetKeeper IbcForward LogicCall Pool Batch EndBlock ConfirmCorrect Governance Genesis Transfers PoolCorrect BatchCorrect BatchLifecycle.

#[local] Open Scope Z_scope.

(** ** The import around the transfers *)

Section GenesisParts.
Context {W : Type} `{Geth} `{Sdk} `{Bech32} `{Hashing} `{Codec} `{EthAbi} `{Bank W} `{BankMetadata W}
  `{Ibc W}.
Implicit Types s : State W.

Definition import_batch (batch : OutgoingTxBatch) : K W unit :=
  intBatch ← or_panic "unable to make batch internal" (OutgoingTxBatch_ToInternal batch);
  StoreBatch intBatch.

(** What [InitGenesis] does before, between and after the two loops that store the
    batches and the transfers. *)
Definition import_before (data : GenesisState) : K W unit :=
  _ ← must "failed to set params" (SetParams (gs_Params data));
  _ ← init_nonces (gs_GravityNonces data);
  highest ← init_valsets (gs_Valsets data);
  _ ← SetLatestValsetNonce highest;
  for_each (gs_ValsetConfirms data) (λ conf, _ ← SetValsetConfirm conf; mret tt).

Definition import_between (data : GenesisState) : K W unit :=
  _ ← for_each (gs_BatchConfirms data) (λ conf, _ ← SetBatchConfirm conf; mret tt);
  _ ← for_each (gs_LogicCalls data) SetOutgoingLogicCall;
  for_each (gs_LogicCallConfirms data) SetLogicCallConfirm.

Definition import_after (data : GenesisState) : K W unit :=
  _ ← for_each (gs_Attestations data) init_attestation;
  _ ← for_each (gs_Attestations data) init_votes;
  _ ← guard_panic (hasDuplicates (gs_DelegateKeys data)) "Duplicate delegate key found in Genesis!";
  _ ← for_each (gs_DelegateKeys data) init_delegation;
  _ ← for_each (gs_RemappedErc20S data) (λ hexAddr,
        addr ← or_panic "invalid remapped ERC20 address in genesis" (NewEthAddress hexAddr);
        SetRemappedERC20 addr);
  _ ← for_each (gs_Erc20ToDenoms data) init_mapping;
  _ ← for_each (gs_CosmosBridgeableTokens data) init_token;
  _ ← must "CosmosBridgeableTokens post-genesis consistency check failed"
        assertCosmosBridgeableTokensConsistent;
  _ ← check_reward;
  for_each (gs_PendingIbcAutoForwards data) (λ forward,
    must "unable to restore pending ibc auto forward"
      (addPendingIbcAutoForward forward (Denom (pf_Token forward)))).

Lemma InitGenesis_parts data s :
  InitGenesis data s =
  (_ ← import_before data; _ ← for_each (gs_Batches data) import_batch; _ ← import_between data;
   _ ← for_each (gs_UnbatchedTransfers data) init_transfer; import_after data) s.
Proof.
  unfold InitGenesis, initBridgeDataFromGenesis, import_before, import_between, import_after. fold import_batch.
  unfold mbind, M_bind.
  repeat match goal with
  | |- ?x = ?x => reflexivity
  | |- context [match ?m with Ret _ _ => _ | Fail _ _ => _ | Panic _ => _ end] =>
      lazymatch m with
      | for_each _ _ _ => destruct m
      | context [match _ with Ret _ _ => _ | Fail _ _ => _ | Panic _ => _ end] => fail
      | _ => destruct m
      end
  end.
Qed.

(** The genesis state without the transfers in flight. *)
Definition without_transfers (data : GenesisState) : GenesisState :=
  let '(mkGenesisState p n vs vcs _ bcs lcs lccs atts dks es _ fs rs ts) := data in
  mkGenesisState p n vs vcs [] bcs lcs lccs atts dks es [] fs rs ts.

(** The chain with these transfers in its pool and in its batches. *)
Definition with_transfers (p : gmap bytes OutgoingTransferTx) (b : gmap bytes OutgoingTxBatch) s : State W :=
  upd_kv (λ k, upd_batches (λ _, b) (upd_pool (λ _, p) k)) s.

Lemma with_transfers_id s : with_transfers (kv_pool (st_kv s)) (kv_batches (st_kv s)) s = s.
Proof. by destruct s as [[]]. Qed.

(** None of the three parts looks at the transfers. *)
Section Parts.
Context (p : gmap bytes OutgoingTransferTx) (b : gmap bytes OutgoingTxBatch).

#[local] Hint Extern 1 (blind _ (modify _)) => (by apply blind_modify) : blind.
#[local] Hint Extern 1 (blind _ (raw_set _ _)) => (by apply blind_modify) : blind.
#[local] Hint Extern 1 (blind _ (emit _)) => (by apply blind_modify) : blind.
#[local] Hint Extern 1 (blind _ (gets _)) => (by apply blind_gets) : blind.
#[local] Hint Extern 1 (blind _ (raw_get _)) => (by apply blind_gets) : blind.
#[local] Hint Extern 1 (blind _ (raw_has _)) => (by apply blind_gets) : blind.
#[local] Hint Extern 1 (blind _ (opt_panic _ ?o)) => (destruct o; done) : blind.

Lemma blind_before data : blind (with_transfers p b) (import_before data).
Proof.
  unfold import_before, SetParams, init_nonces, init_valsets, StoreValset, SetLatestValsetNonce,
    GetLatestValsetNonce, CheckLatestValsetNonce, setLastObservedEventNonce, GetLastObservedEventNonce,
    SetLastSlashedValsetNonce, SetLastSlashedBatchBlock, HasLastSlashedBatchBlock, GetLastSlashedBatchBlock,
    SetLastSlashedLogicCallBlock, HasLastSlashedLogicCallBlock, GetLastSlashedLogicCallBlock, setID, SetValsetConfirm.
  blinded.
Qed.

Lemma blind_between data : blind (with_transfers p b) (import_between data).
Proof.
  unfold import_between, SetBatchConfirm, SetOutgoingLogicCall, GetGravityID, GetParams,
    SetPastEthSignatureCheckpoint, SetLogicCallConfirm.
  blinded.
Qed.

Lemma blind_after data : blind (with_transfers p b) (import_after data).
Proof.
  unfold import_after, init_attestation, SetAttestation, init_votes, GetLastEventNonceByValidator,
    SetLastEventNonceByValidator, GetLastObservedEventNonce, init_delegation, SetOrchestratorValidator,
    SetEthAddressForValidator, SetRemappedERC20, init_mapping, setCosmosOriginatedMapping,
    validateCosmosOriginatedMapping, IsRemappedERC20, getCosmosOriginatedERC20ForDenom,
    getCosmosOriginatedDenomForERC20, init_token, SetCosmosBridgeableToken,
    assertCosmosBridgeableTokensConsistent, GetAllCosmosBridgeableTokens, check_reward, GetParams,
    getCosmosOriginatedERC20ForDenom, addPendingIbcAutoForward, ValidatePendingIbcAutoForward,
    GetLastObservedEventNonce.
  blinded.
Qed.
End Parts.
End GenesisParts.

(** ** Export, then import *)

Section RoundTrip.
Context {W : Type} `{GethLaws} `{SdkLaws} `{Bech32} `{Hashing} `{Codec} `{EthAbi} `{Staking W} `{Bank W}
  `{BankMetadata W} `{Ibc W}.
Implicit Types s : State W.

Lemma import_pool (ts : list InternalOutgoingTransferTx) s s' (m : gmap bytes OutgoingTransferTx) u :
  Forall (λ t, wf_tx t ∧ m !! tx_key t = Some (InternalOutgoingTransferTx_ToExternal t)) ts →
  for_each (InternalOutgoingTransferTx_ToExternal <$> ts) init_transfer s = Ret u s' →
  kv_pool (st_kv s) ⊆ m →
  kv_pool (st_kv s') ⊆ m ∧ kv_batches (st_kv s') = kv_batches (st_kv s) ∧
  ∀ k, is_Some (kv_pool (st_kv s) !! k) ∨ k ∈ tx_key <$> ts → is_Some (kv_pool (st_kv s') !! k).
Proof.
  intros Hf. revert s. induction Hf as [|t ts [Hwf Ht] Hf IH]; intros s E Hsub.
  - apply mret_inv in E as [_ ->]. split_and!; [done..|]. intros k [?|[]%not_elem_of_nil]; done.
  - cbn [fmap list_fmap for_each] in E. mnext E as x s1 E1. unfold init_transfer in E1.
    rewrite (bind_ret _ _ s t s) in E1 by by rewrite tx_roundtrip by apply Hwf.
    apply must_inv in E1. rewrite addUnbatchedTX_eq in E1 by apply Hwf.
    case_decide as Ek; [done|]. injection E1 as _ <-.
    destruct (IH _ E) as (H1' & H2' & H3').
    { cbn. by apply insert_subseteq_l. }
    split_and!; [done|by rewrite H2'|]. intros k Hk. apply H3'. cbn.
    rewrite lookup_insert_is_Some'. cbn [fmap list_fmap] in Hk. rewrite elem_of_cons in Hk. naive_solver.
Qed.

Lemma import_batches (bs : list InternalOutgoingTxBatch) s s' (m : gmap bytes OutgoingTxBatch) u :
  Forall (λ b, wf_batch b ∧ m !! batch_key b = Some (InternalOutgoingTxBatch_ToExternal b)) bs →
  for_each (InternalOutgoingTxBatch_ToExternal <$> bs) import_batch s = Ret u s' →
  kv_batches (st_kv s) ⊆ m →
  kv_batches (st_kv s') ⊆ m ∧ kv_pool (st_kv s') = kv_pool (st_kv s) ∧
  ∀ k, is_Some (kv_batches (st_kv s) !! k) ∨ k ∈ batch_key <$> bs →
    is_Some (kv_batches (st_kv s') !! k).
Proof.
  intros Hf. revert s. induction Hf as [|b bs [Hwf Hb] Hf IH]; intros s E Hsub.
  - apply mret_inv in E as [_ ->]. split_and!; [done..|]. intros k [?|[]%not_elem_of_nil]; done.
  - cbn [fmap list_fmap for_each] in E. mnext E as x s1 E1. unfold import_batch in E1.
    rewrite (bind_ret _ _ s b s) in E1 by by rewrite batch_roundtrip by by apply wf_batch_ok.
    destruct (kv_batches (st_kv s) !! batch_key b) eqn:Ek.
    { unfold StoreBatch in E1. mnext E1 as y1 s2 E2. apply or_panic_inv in E2 as [_ ->].
      cbv zeta in E1. mnext E1 as y2 s2 E2. apply gets_inv in E2 as [-> ->].
      fold (batch_key b) in E1. rewrite Ek in E1. mnext E1 as y3 s2 E2.
      by apply guard_panic_inv in E2 as [E2%bool_decide_eq_false ->]; destruct E2. }
    rewrite StoreBatch_eq in E1 by done. injection E1 as _ <-.
    destruct (IH _ E) as (H1' & H2' & H3').
    { cbn. by apply insert_subseteq_l. }
    split_and!; [done|by rewrite H2'|]. intros k Hk. apply H3'. cbn.
    rewrite lookup_insert_is_Some'. cbn [fmap list_fmap] in Hk. rewrite elem_of_cons in Hk. naive_solver.
Qed.

(** Two maps of which one is part of the other and has all its keys. *)
Lemma map_full {K V} `{Countable K} (m1 m2 : gmap K V) :
  m1 ⊆ m2 → (∀ k, is_Some (m2 !! k) → is_Some (m1 !! k)) → m1 = m2.
Proof.
  intros Hs Hd. apply map_eq. intros k. destruct (m2 !! k) as [v|] eqn:E.
  - destruct (Hd k) as [v' E']; [by rewrite E|]. pose proof (lookup_weaken _ _ _ _ E' Hs). congruence.
  - destruct (m1 !! k) as [v|] eqn:E'; [|done]. pose proof (lookup_weaken _ _ _ _ E' Hs). congruence.
Qed.

Lemma ExportGenesis_inv s s' g :
  transfers_ok s → ExportGenesis s = Ret g s' →
  gs_UnbatchedTransfers g = InternalOutgoingTransferTx_ToExternal <$> pool_list (kv_pool (st_kv s)) OutgoingTXPoolKey ∧
  gs_Batches g = InternalOutgoingTxBatch_ToExternal <$> batch_list (kv_batches (st_kv s)).
Proof.
  intros Hs E. unfold ExportGenesis in E.
  mnext E as p s1 E1. eapply readonly_inv in E1; [|readonly]. subst s1.
  mnext E as calls s1 E1.
  eapply readonly_inv in E1; [|unfold GetOutgoingLogicCalls, IterateOutgoingLogicCalls; readonly]. subst s1.
  rewrite (bind_ret _ _ _ _ _ (GetOutgoingTxBatches_eq s (tok_batches _ Hs))) in E.
  mnext E as vs s1 E1. eapply readonly_inv in E1; [|unfold GetValsets, IterateValsets; readonly]. subst s1.
  mnext E as am s1 E1.
  eapply readonly_inv in E1; [|unfold GetAttestationMapping, IterateAttestations, attestation_entries,
    UnpackAttestationClaim; readonly]. subst s1. destruct am as [attmap keys].
  mnext E as del s1 E1. eapply readonly_inv in E1; [|auto with readonly]. subst s1.
  rewrite (bind_ret _ _ s (pool_list (kv_pool (st_kv s)) OutgoingTXPoolKey) s) in E
    by (unfold GetUnbatchedTransactions, collectUnbatchedTransactions;
        rewrite iterate_pool_eq by apply Hs; apply for_acc_collect).
  mnext E as fw s1 E1. mnext E as c1 s2 E2. mnext E as c2 s3 E3. mnext E as c3 s4 E4.
  cbv zeta in E. mnext E as maps s5 E5. mnext E as re s6 E6. mnext E as toks s7 E7.
  mnext E as ns s8 E8. apply mret_inv in E as [-> _]. done.
Qed.

(** The two loops store what the export wrote. *)
Lemma import_batches_run (bs : list InternalOutgoingTxBatch) s :
  Forall wf_batch bs → NoDup (batch_key <$> bs) →
  (∀ k, k ∈ batch_key <$> bs → kv_batches (st_kv s) !! k = None) →
  ∃ m, for_each (InternalOutgoingTxBatch_ToExternal <$> bs) import_batch s =
       Ret tt (upd_kv (upd_batches (λ _, m)) s).
Proof.
  intros Hf. revert s. induction Hf as [|b bs Hwf Hf IH]; intros s Hnd Hno.
  { exists (kv_batches (st_kv s)). by destruct s as [[]]. }
  cbn [fmap list_fmap] in Hnd, Hno. apply NoDup_cons in Hnd as [Hb Hnd].
  destruct (IH (put_batch b s) Hnd) as [m E].
  { intros k Hk. cbn. rewrite lookup_insert_ne by (intros <-; done). apply Hno. by right. }
  exists m. cbn [fmap list_fmap for_each]. rewrite (bind_ret _ _ s tt (put_batch b s)); [exact E|].
  unfold import_batch. rewrite (bind_ret _ _ s b s) by by rewrite batch_roundtrip by by apply wf_batch_ok.
  apply StoreBatch_eq; [done|]. apply Hno. by left.
Qed.

Lemma import_pool_run (ts : list InternalOutgoingTransferTx) s :
  Forall wf_tx ts → NoDup (tx_key <$> ts) →
  (∀ k, k ∈ tx_key <$> ts → kv_pool (st_kv s) !! k = None) →
  ∃ m, for_each (InternalOutgoingTransferTx_ToExternal <$> ts) init_transfer s =
       Ret tt (upd_kv (upd_pool (λ _, m)) s).
Proof.
  intros Hf. revert s. induction Hf as [|t ts Hwf Hf IH]; intros s Hnd Hno.
  { exists (kv_pool (st_kv s)). by destruct s as [[]]. }
  cbn [fmap list_fmap] in Hnd, Hno. apply NoDup_cons in Hnd as [Ht Hnd].
  destruct (IH (put_tx t s) Hnd) as [m E].
  { intros k Hk. cbn. rewrite lookup_insert_ne by (intros <-; done). apply Hno. by right. }
  exists m. cbn [fmap list_fmap for_each]. rewrite (bind_ret _ _ s tt (put_tx t s)); [exact E|].
  unfold init_transfer. rewrite (bind_ret _ _ s t s) by by rewrite tx_roundtrip by apply Hwf.
  unfold must. rewrite addUnbatchedTX_eq by apply Hwf. rewrite decide_False; [done|].
  rewrite Hno by by left. by intros [].
Qed.

Lemma import_batches_eq m s :
  map_Forall batch_entry_ok m → kv_batches (st_kv s) = ∅ →
  for_each (InternalOutgoingTxBatch_ToExternal <$> batch_list m) import_batch s =
  Ret tt (upd_kv (upd_batches (λ _, m)) s).
Proof.
  intros Hm H0'. destruct (import_batches_run (batch_list m) s) as [m' E].
  - apply Forall_forall. intros b Hb. by apply elem_of_batch_list in Hb as [? _].
  - rewrite batch_list_keys by done. apply NoDup_iter_desc.
  - intros k _. by rewrite H0'.
  - enough (m' = m) as <- by done.
    apply (import_batches _ _ _ m) in E as (Sb & _ & Db).
    2: { apply Forall_forall. intros b. by apply elem_of_batch_list. }
    2: { rewrite H0'. apply map_empty_subseteq. }
    apply map_full; [exact Sb|]. intros k [e He]. apply (Db k). right.
    destruct (Hm k e He) as (b & Hwf & -> & ->). fold (batch_key b). apply list_elem_of_fmap_2.
    by apply elem_of_batch_list.
Qed.

Lemma import_pool_eq m s :
  map_Forall pool_entry_ok m → kv_pool (st_kv s) = ∅ →
  for_each (InternalOutgoingTransferTx_ToExternal <$> pool_list m OutgoingTXPoolKey) init_transfer s =
  Ret tt (upd_kv (upd_pool (λ _, m)) s).
Proof.
  intros Hm H0'.
  assert (∀ t, t ∈ pool_list m OutgoingTXPoolKey ↔
            wf_tx t ∧ m !! tx_key t = Some (InternalOutgoingTransferTx_ToExternal t)) as Hin.
  { intros t. rewrite elem_of_pool_list_all by done. by apply elem_of_pool_txs. }
  destruct (import_pool_run (pool_list m OutgoingTXPoolKey) s) as [m' E].
  - apply Forall_forall. by intros t [? _]%Hin.
  - by apply pool_list_keys_NoDup.
  - intros k _. by rewrite H0'.
  - enough (m' = m) as <- by done.
    apply (import_pool _ _ _ m) in E as (Sb & _ & Db).
    2: { apply Forall_forall. by intros t ?%Hin. }
    2: { rewrite H0'. apply map_empty_subseteq. }
    apply map_full; [exact Sb|]. intros k [e He]. apply (Db k). right.
    destruct (Hm k e He) as (t & Hwf & -> & ->). apply list_elem_of_fmap_2. by apply Hin.
Qed.

(** A part of the import that does not look at the transfers leaves none of them. *)
Lemma blind_keeps p b (m : K W unit) s u s' :
  blind (with_transfers p b) m → kv_pool (st_kv s) = p → kv_batches (st_kv s) = b → m s = Ret u s' →
  kv_pool (st_kv s') = p ∧ kv_batches (st_kv s') = b.
Proof.
  intros Hbl <- <- E. specialize (Hbl s). rewrite with_transfers_id, E in Hbl. injection Hbl as ->. done.
Qed.

(** C32. Exporting the bridge and importing the result on an empty chain restores
    every transfer.  The transfers never stop the import: it completes exactly when it
    completes for the same genesis state without them (which it does not when the
    bridge has delegate keys, or when another part of the genesis state is refused);
    and when it does, the pool and the batches are those that were exported, under the
    same keys, the transfers in flight are the same, and everything else is as without
    them. *)
Theorem genesis_transfers_roundtrip s g s0 s1 :
  transfers_ok s → ExportGenesis s = Ret g s0 →
  kv_pool (st_kv s1) = ∅ → kv_batches (st_kv s1) = ∅ →
  match InitGenesis (without_transfers g) s1 with
  | Ret _ t =>
      let s' := with_transfers (kv_pool (st_kv s)) (kv_batches (st_kv s)) t in
      InitGenesis g s1 = Ret tt s' ∧ transfers s' = transfers s
  | Fail _ _ | Panic _ => ∀ s', InitGenesis g s1 ≠ Ret tt s'
  end.
Proof.
  intros Hs Hex Hp0 Hb0. destruct (ExportGenesis_inv s s0 g Hs Hex) as [Ep Eb].
  set (p := kv_pool (st_kv s)) in *. set (b := kv_batches (st_kv s)) in *.
  rewrite !InitGenesis_parts, Ep, Eb. clear Hex Ep Eb.
  destruct g as [q1 q2 q3 q4 q5 q6 q7 q8 q9 q10 q11 q12 q13 q14 q15].
  cbn [gs_Batches gs_UnbatchedTransfers without_transfers].
  set (g' := mkGenesisState q1 q2 q3 q4 [] _ _ _ _ _ _ _ _ _ _). set (g := mkGenesisState q1 q2 q3 q4 q5 _ _ _ _ _ _ _ _ _ _).
  change (import_before g') with (import_before g : K W unit).
  change (import_between g') with (import_between g : K W unit).
  change (import_after g') with (import_after g : K W unit).
  unfold mbind, M_bind. cbn [for_each]. unfold mret, M_ret.
  destruct (import_before g s1) as [u1 t1|e t1|msg] eqn:E1; [|done..].
  destruct (blind_keeps ∅ ∅ _ _ _ _ (blind_before ∅ ∅ g) Hp0 Hb0 E1) as [Hp1 Hb1].
  rewrite (import_batches_eq b t1) by (done || apply Hs).
  assert (upd_kv (upd_batches (λ _, b)) t1 = with_transfers ∅ b t1) as ->.
  { rewrite <- Hp1. by destruct t1 as [[]]. }
  rewrite (blind_between ∅ b g t1).
  destruct (import_between g t1) as [u2 t2|e t2|msg] eqn:E2; [|done..]. cbn [map_state].
  rewrite (import_pool_eq p (with_transfers ∅ b t2)) by (done || apply Hs).
  change (upd_kv (upd_pool (λ _, p)) (with_transfers ∅ b t2)) with (with_transfers p b t2).
  rewrite (blind_after p b g t2). destruct (import_after g t2) as [[] t3|e t3|msg]; done.
Qed.
End RoundTrip.

(** ** Delegate keys *)

(** The chain's account and validator addresses have different bech32 prefixes. *)
Class Bech32Prefixes `{Sdk} := {
  prefixes_differ x a b : AccAddressFromBech32 x = Ok a → ValAddressFromBech32 x = Ok b → False;
}.

Section Delegates.
Context {W : Type} `{Geth} `{Sdk} `{!Bech32Prefixes} `{Bech32} `{Hashing} `{Codec} `{EthAbi} `{Bank W}
  `{BankMetadata W} `{Ibc W}.
Implicit Types s : State W.

(** No delegation can be imported: its validator must be an account address for
    the validation and an operator address for the import. *)
Lemma init_delegation_panics keys s : ∃ msg, init_delegation keys s = Panic msg.
Proof.
  unfold init_delegation. mrun.
  destruct (MsgSetOrchestratorAddress_ValidateBasic keys) as [[]|] eqn:Ev; [|by eexists].
  destruct (ValAddressFromBech32 (so_Validator keys)) as [b|] eqn:Eb; [|by eexists].
  unfold MsgSetOrchestratorAddress_ValidateBasic, bech32_account, mbind, res_bind in Ev.
  destruct (AccAddressFromBech32 (so_Validator keys)) as [a|] eqn:Ea; [|done].
  exfalso. by eapply prefixes_differ.
Qed.

(** C33. A genesis state that delegates keys cannot be imported: whatever the keys,
    and in particular when they are those the export wrote, the import does not
    complete. *)
Theorem InitGenesis_no_delegates data s s' :
  InitGenesis data s = Ret tt s' → gs_DelegateKeys data = [].
Proof.
  intros E. unfold InitGenesis in E.
  mnext E as x1 s1 E1. mnext E as x2 s2 E2. mnext E as x3 s3 E3. mnext E as x4 s4 E4.
  mnext E as x5 s5 E5. mnext E as x6 s6 E6. mnext E as x7 s7 E7. mnext E as x8 s8 E8.
  destruct (gs_DelegateKeys data) as [|keys l]; [done|]. cbn [for_each] in E8.
  mnext E8 as y s9 E9. destruct (init_delegation_panics keys s7) as [msg Hp]. congruence.
Qed.
End Delegates.
