(* ===== verification/Instances.v ===== *)
(** * Concrete instances of the interfaces

    Executable implementations of everything the module calls, with their laws:
    the theorems about the module apply to them, and the examples that follow
    evaluate the module on them.  The ledger of [World] is a plain map of balances;
    addresses are written in hexadecimal behind a bech32-like prefix. *)

From stdpp Require Import base gmap list strings sorting.
From S2P Require Import Prelude GoStd External Store Ethereum Keys OutgoingTx Valset Claims Keeper DelegateKeys Attestation OracleCorrect OracleObserve Registry ValsetKeeper IbcForward Pool Batch Handler HandlerFrames HandlerCorrect ForwardCorrect EndBlockCorrect Params Evidence Msgs MsgServer Governance Genesis Invariants PoolCorrect SendCorrect GenesisCorrect.

#[local] Open Scope Z_scope.

(** ** go-ethereum *)

Definition zeros20 : bytes := replicate 20 0.

Definition hex_to_address (s : string) : bytes :=
  match hex_decode (strip0x s) with
  | Some l => if Nat.eqb (length l) 20 then l else zeros20
  | None => zeros20
  end.

#[export] Instance geth : Geth := {|
  IsHexAddress s := (slen (strip0x s) =? 40) && all_hex (strip0x s);
  HexToAddress := hex_to_address;
  BytesToAddress b := if Nat.eqb (length b) 20 then b else zeros20;
  Hex a := "0x" +:+ hex_encode a |}.

Lemma zeros20_ok : addr_ok zeros20.
Proof. split; [done|]. unfold bytes_ok, byte_ok. apply (bool_decide_unpack _). by vm_compute. Qed.

#[export] Instance geth_laws : GethLaws.
Proof.
  split; cbn [IsHexAddress HexToAddress BytesToAddress Hex geth].
  - done.
  - intros s l Hd Hl. unfold hex_to_address. by rewrite Hd, Hl.
  - intros s. unfold hex_to_address. destruct (hex_decode (strip0x s)) as [l|] eqn:Hd; [|apply zeros20_ok].
    destruct (Nat.eqb_spec (length l) 20); [|apply zeros20_ok]. apply hex_decode_ok in Hd as (Hb & _). by split.
  - intros b ->. done.
  - intros a [_ Hb]. exists (hex_encode a). split; [done|]. by apply hex_decode_encode.
Qed.

(** ** Cosmos SDK *)

Definition address_format (a : bytes) : res unit :=
  if bool_decide (0 < length a ≤ 255)%nat && bool_decide (bytes_ok a) then Ok tt else Er (ErrSdk "address").

Definition parse_address (prefix s : string) : res bytes :=
  if HasPrefix s prefix then
    match hex_decode (drop_str (String.length prefix) s) with
    | Some a => match address_format a with Ok _ => Ok a | Er e => Er e end
    | None => Er (ErrSdk "bech32")
    end
  else Er (ErrSdk "bech32").

#[export] Instance sdk : Sdk := {|
  VerifyAddressFormat := address_format;
  AccAddressFromBech32 := parse_address "gravity1";
  AccAddressString a := "gravity1" +:+ hex_encode a;
  ValAddressFromBech32 := parse_address "gravityvaloper1";
  ValAddressString a := "gravityvaloper1" +:+ hex_encode a;
  ValidateDenom d := (2 <? slen d) && (slen d <? 129);
  GetModuleAddress m := bytes_of_string m |}.

Lemma parse_address_roundtrip p a :
  address_format a = Ok tt → parse_address p (p +:+ hex_encode a) = Ok a.
Proof.
  intros Ha. unfold parse_address. rewrite HasPrefix_app, drop_str_app.
  rewrite hex_decode_encode, Ha; [done|]. unfold address_format in Ha.
  destruct (bool_decide (bytes_ok a)) eqn:E; [by apply bool_decide_eq_true in E|by rewrite andb_false_r in Ha].
Qed.

Lemma parse_address_verified p s a : parse_address p s = Ok a → address_format a = Ok tt.
Proof.
  unfold parse_address. destruct (HasPrefix s p); [|done]. destruct (hex_decode _) as [b|]; [|done].
  destruct (address_format b) as [[]|] eqn:E; [|done]. by intros [= <-].
Qed.

#[export] Instance sdk_laws : SdkLaws.
Proof.
  split; cbn [VerifyAddressFormat AccAddressFromBech32 AccAddressString ValAddressFromBech32 ValAddressString sdk].
  - intros a. apply parse_address_roundtrip.
  - intros s a. apply parse_address_verified.
  - intros a. apply parse_address_roundtrip.
  - intros s a. apply parse_address_verified.
  - done.
Qed.

#[export] Instance bech32 : Bech32 := {|
  DecodeAndConvert s :=
    match GetPrefixFromBech32 s with
    | Ok p => match hex_decode (drop_str (S (String.length p)) s) with
              | Some a => Ok (p, a) | None => Er (ErrSdk "bech32") end
    | Er e => Er e
    end;
  GetBech32AccountAddrPrefix := "gravity";
  GetBech32ValidatorAddrPrefix := "gravityvaloper" |}.

(** ** Hashes and encodings *)

(** A sign and 32 bytes in hexadecimal. *)
Definition int_string (z : Z) : string :=
  (if z <? 0 then "-" else "+") +:+ hex_encode (be_bytes 32 (Z.abs z)).

Definition int_parse (s : string) : option Z :=
  l ← hex_decode (drop_str 1 s);
  Some (if HasPrefix s "-" then - be_val l else be_val l).

#[export] Instance hashing : Hashing := {|
  tmhash_Sum b := MD5.sum b; Int_String := int_string; NewIntFromString := int_parse |}.

#[export] Instance hashing_laws : HashingLaws.
Proof.
  split. intros z Hz. cbn [NewIntFromString Int_String hashing]. unfold int_parse, int_string.
  assert (be_val (be_bytes 32 (Z.abs z)) = Z.abs z) as E.
  { rewrite be_val_be_bytes. apply Z.mod_small. unfold int_ok in Hz.
    change (256 ^ Z.of_nat 32) with (2 ^ 256). lia. }
  destruct (Z.ltb_spec z 0).
  - rewrite (drop_str_app "-"), HasPrefix_app, hex_decode_encode by apply be_bytes_ok.
    cbn [mbind option_bind]. rewrite E. f_equal. lia.
  - rewrite (drop_str_app "+"), hex_decode_encode by apply be_bytes_ok.
    cbn [mbind option_bind]. rewrite E. rewrite Z.abs_eq by done. reflexivity.
Qed.

Definition abi_bytes (a : AbiArg) : bytes :=
  match a with
  | ABytes32 b => b
  | AUint n => be_bytes 32 n
  | AAddr a => a
  | AUints ns => ns ≫= be_bytes 32
  | AAddrs l => concat l
  | ABytes b => b
  end.

#[export] Instance ethabi : EthAbi := {|
  Pack _ _ args := Ok ([0; 0; 0; 0] ++ (args ≫= abi_bytes)); Keccak256Hash b := MD5.sum b |}.

(** The deposit with event nonce [n] to an account of the chain, as reported by
    the orchestrator of the [i]th validator. *)
Definition deposit (i n : Z) : MsgSendToCosmosClaim :=
  mkSendToCosmos n (100 + n) ("0x" +:+ hex_encode (replicate 20 34)) 50
    ("0x" +:+ hex_encode (replicate 20 51)) ("gravity1" +:+ hex_encode (replicate 20 170))
    ("gravity1" +:+ hex_encode (replicate 20 (180 + i))).

#[export] Instance codec : Codec := {|
  UnpackClaim a :=
    match any_Value a with [i; n] => Ok (SendToCosmosClaim (deposit i n)) | _ => Er (ErrSdk "any") end |}.

(** ** The other modules

    Balances by account and denom, supplies, metadata, the validators and the
    community pool. *)
Record World := mkWorld {
  wd_balances : gmap (bytes * string) Z; wd_supply : gmap string Z; wd_meta : gmap string Metadata;
  wd_validators : gmap bytes Validator; wd_powers : gmap bytes Z; wd_total : Z;
  wd_pool : gmap string Z }.

Definition set_balances (f : gmap (bytes * string) Z → gmap (bytes * string) Z) (w : World) : World :=
  mkWorld (f (wd_balances w)) (wd_supply w) (wd_meta w) (wd_validators w) (wd_powers w) (wd_total w)
    (wd_pool w).
Definition set_supply (f : gmap string Z → gmap string Z) (w : World) : World :=
  mkWorld (wd_balances w) (f (wd_supply w)) (wd_meta w) (wd_validators w) (wd_powers w) (wd_total w)
    (wd_pool w).
Definition set_validators (f : gmap bytes Validator → gmap bytes Validator) (w : World) : World :=
  mkWorld (wd_balances w) (wd_supply w) (wd_meta w) (f (wd_validators w)) (wd_powers w) (wd_total w)
    (wd_pool w).

(** A valid balance. *)
Definition balance_ok (x : Z) : Prop := 0 ≤ x < 2 ^ 256.
#[global] Instance balance_ok_dec x : Decision (balance_ok x).
Proof. unfold balance_ok. apply _. Defined.

Definition ledger_ok (m : gmap (bytes * string) Z) : Prop := map_Forall (λ _ x, balance_ok x) m.

Definition credit (sign : Z) (a : bytes) (cs : list Coin) (m : gmap (bytes * string) Z)
    : gmap (bytes * string) Z :=
  foldr (λ c m, <[(a, Denom c) := default 0 (m !! (a, Denom c)) + sign * Amount c]> m) m cs.

Definition add_supply (sign : Z) (cs : list Coin) (m : gmap string Z) : gmap string Z :=
  foldr (λ c m, <[Denom c := default 0 (m !! Denom c) + sign * Amount c]> m) m cs.

Definition balance (w : World) (a : bytes) (d : string) : Z :=
  let x := default 0 (wd_balances w !! (a, d)) in if decide (balance_ok x) then x else 0.

(** An operation that would leave an invalid balance fails and changes nothing. *)
Definition guarded (f : World → World) (w : World) : option gerror * World :=
  if decide (ledger_ok (wd_balances w) ∧ ledger_ok (wd_balances (f w))) then (None, f w)
  else (Some (ErrSdk "insufficient funds"), w).

Definition move (from to : bytes) (cs : list Coin) (w : World) : World :=
  set_balances (λ m, credit 1 to cs (credit (-1) from cs m)) w.

Definition issue (sign : Z) (a : bytes) (cs : list Coin) (w : World) : World :=
  set_supply (add_supply sign cs) (set_balances (credit sign a cs) w).

#[export] Instance bank : Bank World := {|
  SendCoinsFromAccountToModule a m cs := guarded (move a (bytes_of_string m) cs);
  SendCoinsFromModuleToAccount m a cs := guarded (move (bytes_of_string m) a cs);
  SendCoinsFromModuleToModule m n cs := guarded (move (bytes_of_string m) (bytes_of_string n) cs);
  MintCoins m cs := guarded (issue 1 (bytes_of_string m) cs);
  BurnCoins m cs := guarded (issue (-1) (bytes_of_string m) cs);
  GetBalance := balance;
  GetSupply w d := default 0 (wd_supply w !! d);
  GetDenomMetaData w d := wd_meta w !! d |}.

Lemma lookup_credit sign a cs m a' d :
  default 0 (credit sign a cs m !! (a', d)) =
  default 0 (m !! (a', d)) + if decide (a' = a) then sign * amount_of d cs else 0.
Proof.
  induction cs as [|c cs IH]; [unfold amount_of; simpl; case_decide; lia|].
  unfold amount_of in *. cbn [credit foldr sumZ]. fold (credit sign a cs m).
  destruct (decide ((a, Denom c) = (a', d))) as [[= <- <-]|Hne].
  - rewrite lookup_insert_eq. cbn [default id]. rewrite IH. rewrite !decide_True by done.
    fold (sumZ (λ c0, if decide (Denom c0 = Denom c) then Amount c0 else 0) cs). lia.
  - rewrite lookup_insert_ne, IH by done. case_decide as Ea; [subst a'|done].
    rewrite (decide_False (P := Denom c = d)) by (intros <-; done).
    fold (sumZ (λ c0, if decide (Denom c0 = d) then Amount c0 else 0) cs). lia.
Qed.

Lemma lookup_add_supply sign cs m d :
  default 0 (add_supply sign cs m !! d) = default 0 (m !! d) + sign * amount_of d cs.
Proof.
  induction cs as [|c cs IH]; [unfold amount_of; simpl; lia|].
  unfold amount_of in *. cbn [add_supply foldr sumZ]. fold (add_supply sign cs m).
  destruct (decide (Denom c = d)) as [<-|Hne].
  - rewrite lookup_insert_eq. cbn [default id]. rewrite IH.
    fold (sumZ (λ c0, if decide (Denom c0 = Denom c) then Amount c0 else 0) cs). lia.
  - rewrite lookup_insert_ne, IH by done.
    fold (sumZ (λ c0, if decide (Denom c0 = d) then Amount c0 else 0) cs). lia.
Qed.

Lemma balance_raw w a d : ledger_ok (wd_balances w) → balance w a d = default 0 (wd_balances w !! (a, d)).
Proof.
  intros Hok. unfold balance. rewrite decide_True; [done|].
  destruct (wd_balances w !! (a, d)) as [x|] eqn:E; [by apply (Hok (a, d))|]. done.
Qed.

Lemma guarded_inv f w w' :
  guarded f w = (None, w') → w' = f w ∧ ledger_ok (wd_balances w) ∧ ledger_ok (wd_balances (f w)).
Proof. unfold guarded. case_decide; naive_solver. Qed.

Lemma guarded_fails f w e w' : guarded f w = (Some e, w') → w' = w.
Proof. unfold guarded. case_decide; naive_solver. Qed.

Lemma move_moved from to cs w w' : guarded (move from to cs) w = (None, w') → moved w w' from to cs.
Proof.
  intros (-> & Hok & Hok')%guarded_inv. split_and!; [|done..]. intros a d.
  cbn [GetBalance bank]. rewrite !balance_raw by done. simpl.
  rewrite !lookup_credit. repeat case_decide; lia.
Qed.

Lemma issue_supplied sign a cs w w' :
  guarded (issue sign a cs) w = (None, w') → supplied sign w w' a cs.
Proof.
  intros (-> & Hok & Hok')%guarded_inv. split_and!; [| |done].
  - intros a' d. cbn [GetBalance bank]. rewrite !balance_raw by done. simpl. apply lookup_credit.
  - intros d. cbn [GetSupply bank]. simpl. apply lookup_add_supply.
Qed.

#[export] Instance bank_laws : BankLaws World.
Proof.
  split; cbn [SendCoinsFromAccountToModule SendCoinsFromModuleToAccount SendCoinsFromModuleToModule
              MintCoins BurnCoins GetModuleAddress bank sdk].
  - intros a m cs b b'. apply move_moved.
  - intros m a cs b b'. apply move_moved.
  - intros m n cs b b'. apply move_moved.
  - intros m cs b b'. apply issue_supplied.
  - intros m cs b b'. apply issue_supplied.
  - intros b a d. cbn [GetBalance bank]. unfold balance. by case_decide.
Qed.

#[export] Instance ibc : Ibc World := {|
  GetNativeHrp _ := Ok "gravity";
  GetHrpIbcRecord _ p := if decide (p = "cosmos") then Ok "channel-0" else Er (ErrSdk "hrp");
  GetPort _ := "transfer";
  Transfer _ w := (None, w);
  AddToFeePool _ w := (None, w);
  BlockTimeNano _ := 0 |}.

#[export] Instance deposit_laws : DepositLaws World.
Proof.
  split.
  - intros m a cs e w w' _ ->%guarded_fails. done.
  - intros cs w w' [= <-]. done.
  - done.
Qed.

(** ** Validators

    The consensus address of a validator is its operator address. *)

Definition validator_ok (op : bytes) (v : Validator) : bool :=
  match v_ConsAddr v, ValAddressFromBech32 (v_OperatorAddress v) with
  | Ok c, Ok o => bool_decide (c = op) && bool_decide (o = op)
  | _, _ => false
  end.

Definition get_validator (w : World) (op : bytes) : res Validator :=
  match wd_validators w !! op with
  | Some v => if validator_ok op v then Ok v else Er (ErrSdk "validator")
  | None => Er (ErrSdk "validator")
  end.

Definition jail_validator (v : Validator) : Validator :=
  mkValidator (v_OperatorAddress v) (v_ConsAddr v) true (v_Status v) (v_UnbondingHeight v)
    (v_ConsensusPower v).

Definition bonded (w : World) : list Validator :=
  snd <$> filter (λ p, validator_ok p.1 p.2 = true ∧ v_Status p.2 = Bonded) (map_to_list (wd_validators w)).

#[export] Instance staking : Staking World := {|
  GetValidator := get_validator;
  GetLastTotalPower w := Ok (Z.max 0 (wd_total w));
  GetLastValidatorPower w a := Ok (Z.max 0 (default 0 (wd_powers w !! a)));
  GetBondedValidatorsByPower w := Ok (bonded w);
  UnbondingQueue _ := Ok [];
  SigningStartHeight _ _ := Ok 0;
  Slash _ _ _ _ w := (None, w);
  Jail c w := (None, set_validators (alter jail_validator c) w) |}.

#[export] Instance staking_laws : StakingLaws World.
Proof. split; cbn [GetLastValidatorPower GetLastTotalPower staking]; intros; simplify_eq; lia. Qed.

Lemma validator_ok_inv op v :
  validator_ok op v = true → v_ConsAddr v = Ok op ∧ ValAddressFromBech32 (v_OperatorAddress v) = Ok op.
Proof.
  unfold validator_ok. destruct (v_ConsAddr v), (ValAddressFromBech32 _); try done.
  intros Hv. zbool. by subst.
Qed.

Lemma get_validator_inv w op v :
  get_validator w op = Ok v → wd_validators w !! op = Some v ∧ validator_ok op v = true.
Proof. unfold get_validator. destruct (wd_validators w !! op); [|done]. case_match; naive_solver. Qed.

Lemma get_jailed c w op v' :
  get_validator (set_validators (alter jail_validator c) w) op = Ok v' →
  ∃ v, get_validator w op = Ok v ∧ v' = if decide (op = c) then jail_validator v else v.
Proof.
  intros [Hl Hok]%get_validator_inv. simpl in Hl. unfold get_validator. case_decide as Hc.
  - subst c. rewrite lookup_alter_eq in Hl. destruct (wd_validators w !! op) as [v|]; [|done].
    injection Hl as <-. exists v. change (validator_ok op v = true) in Hok. by rewrite Hok.
  - rewrite lookup_alter_ne in Hl by done. exists v'. by rewrite Hl, Hok.
Qed.

#[export] Instance validator_laws : ValidatorLaws World.
Proof.
  split. intros w op v. cbn [GetValidator staking].
  by intros [_ [_ ?]%validator_ok_inv]%get_validator_inv.
Qed.

#[export] Instance slash_laws : SlashLaws World id.
Proof.
  split; [apply _|..]; cbn [GetValidator GetBondedValidatorsByPower Slash Jail staking snd id].
  - intros w op v [_ [? _]%validator_ok_inv]%get_validator_inv. done.
  - intros w l v op [= <-] Hv Hop. unfold bonded in Hv.
    apply list_elem_of_fmap in Hv as ([k v''] & -> & [[Hok _] _]%list_elem_of_filter).
    cbn [fst snd] in *.
    apply validator_ok_inv in Hok as [Hc Ho]. rewrite Ho in Hop. by simplify_eq.
  - intros. by eexists.
  - intros c w op v' (v & Hv & ->)%get_jailed. exists v. split; [done|]. by case_decide.
  - intros c w w' op v' [= <-] (v & Hv & ->)%get_jailed Hc. by rewrite decide_True.
Qed.

Lemma guarded_power f :
  (∀ w, wd_powers (f w) = wd_powers w ∧ wd_total (f w) = wd_total w) → keeps_power (guarded f).
Proof.
  intros Hf w. destruct (Hf w) as [Hp Ht]. unfold guarded, power_same.
  cbn [GetLastTotalPower GetLastValidatorPower staking]. case_decide; [|done]. simpl. by rewrite Hp, Ht.
Qed.

#[export] Instance bank_powers : BankPowers World.
Proof. split; intros; try (by apply guarded_power); done. Qed.

#[export] Instance forward_laws : ForwardLaws World.
Proof. split. intros msg a w o w' _ _ [= _ <-]. done. Qed.

(** * Concrete instances for the message server

    The interfaces that the message server, governance, genesis and the audits use
    besides those of [Instances]: decimals, accounts, auction parameters,
    signatures, the community pool and the packed forms of messages. *)

(** ** Numbers and texts *)

#[export] Instance decimals : Decimals := {|
  Dec_FromInt x := Some (x * dec_one);
  Dec_QuoInt64 d i := Some (Z.quot d i);
  Dec_MulInt64 d i := Some (d * i);
  Dec_Mul a b := Some (a * b / dec_one);
  Dec_TruncateInt d := Some (Z.quot d dec_one);
  Dec_Add a b := Some (a + b) |}.

#[export] Instance decimals_laws : DecimalsLaws.
Proof.
  split; cbn; intros; simplify_eq; try done.
  match goal with H : (_ | _) |- _ => destruct H as [q ->] end.
  unfold dec_one. by rewrite Z.div_mul.
Qed.

#[export] Instance text_formats : TextFormats := {|
  LegacyNewDecFromStr := ParseUint;
  ParseCoinNormalized s := match ParseUint s with Ok n => Ok (mkCoin "ugraviton" n) | Er e => Er e end;
  UnmarshalStrings s := Ok [s] |}.

#[export] Instance gov_content : GovContent := {| ValidateAbstract _ _ := Ok tt |}.

(** ** Accounts *)

#[export] Instance accounts : Accounts World := {|
  HasAccount _ _ := true;
  DeductFees a cs := guarded (move a (bytes_of_string FeeCollectorName) cs) |}.

#[export] Instance accounts_laws : AccountsLaws World.
Proof. split. intros a cs b b'. apply move_moved. Qed.

#[export] Instance module_accounts : ModuleAccounts.
Proof. split. intros m n. apply bytes_of_string_inj. Qed.

#[export] Instance mint : Mint World := {| MintDenom _ := Ok "ugraviton" |}.
#[export] Instance auction_params : AuctionParams World := {| NonAuctionableTokens _ := Ok [] |}.

#[export] Instance bech32_prefixes : Bech32Prefixes.
Proof.
  split. intros x a b. cbn [AccAddressFromBech32 ValAddressFromBech32 sdk]. unfold parse_address.
  destruct (HasPrefix x "gravity1") eqn:E1; [|done]. destruct (HasPrefix x "gravityvaloper1") eqn:E2; [|done].
  apply HasPrefix_inv in E1 as [t ->]. apply HasPrefix_inv in E2 as [t' E2]. discriminate E2.
Qed.

(** ** Signatures

    A signature starts with the address that made it. *)

#[export] Instance eth_crypto : EthCrypto := {|
  Pubkey := bytes;
  ValidateSignatureValues _ _ _ := true;
  SigToPub _ sig := Ok (take 20 sig);
  PubkeyToAddress := id |}.

(** ** Packed claims *)

#[export] Instance deposit_eq_dec : EqDecision MsgSendToCosmosClaim.
Proof. solve_decision. Defined.

Definition pack_deposit (m : MsgSendToCosmosClaim) : res Any :=
  match list_find (λ i, deposit i (sc_EventNonce m) = m) [0; 1; 2] with
  | Some (_, i) => Ok (mkAny "/gravity.v1.MsgSendToCosmosClaim" [i; sc_EventNonce m])
  | None => Er (ErrSdk "any")
  end.

#[export] Instance any_codec : AnyCodec := {|
  NewAnyWithValue claim :=
    match claim with SendToCosmosClaim m => pack_deposit m | _ => Er (ErrSdk "any") end |}.

#[export] Instance any_codec_laws : AnyCodecLaws.
Proof.
  split. intros [m|m|m|m|m] a; cbn [NewAnyWithValue any_codec]; try done. unfold pack_deposit.
  destruct (list_find _ _) as [[n i]|] eqn:E; [|done]. intros [= <-].
  apply list_find_Some in E as (_ & E & _). cbn [UnpackClaim codec any_Value]. by rewrite E.
Qed.

(** ** The bank's metadata, all balances, and the community pool *)

Definition set_meta (f : gmap string Metadata → gmap string Metadata) (w : World) : World :=
  mkWorld (wd_balances w) (wd_supply w) (f (wd_meta w)) (wd_validators w) (wd_powers w) (wd_total w)
    (wd_pool w).
Definition set_pool (f : gmap string Z → gmap string Z) (w : World) : World :=
  mkWorld (wd_balances w) (wd_supply w) (wd_meta w) (wd_validators w) (wd_powers w) (wd_total w)
    (f (wd_pool w)).

#[export] Instance bank_metadata : BankMetadata World := {|
  SetDenomMetaData m := set_meta (insert (md_Base m) m);
  Metadata_Validate m := if decide (md_Base m = "") then Er (ErrSdk "base") else Ok tt |}.

#[export] Instance bank_metadata_laws : BankMetadataLaws World.
Proof.
  split; [|done..]. intros m w d. cbn [GetDenomMetaData SetDenomMetaData bank bank_metadata]. cbn.
  case_decide as E; [by rewrite E, lookup_insert_eq|by rewrite lookup_insert_ne].
Qed.

#[export] Instance community_pool : CommunityPool World := {|
  FeePool := gmap string Z;
  FeePool_Get w := Ok (wd_pool w);
  FeePool_AmountOf f d := default 0 (f !! d);
  FeePool_SafeSub f d x := (<[d := default 0 (f !! d) - x]> f, default 0 (f !! d) <? x);
  FeePool_Set f w := (None, set_pool (λ _, f) w) |}.

#[export] Instance community_pool_laws : CommunityPoolLaws World.
Proof. split; intros; cbn in *; by simplify_eq. Qed.

#[export] Instance bank_balances : BankBalances World := {|
  GetAllBalances w a :=
    (λ p, mkCoin p.1.2 p.2) <$>
      filter (λ p, p.1.1 = a ∧ balance_ok p.2 ∧ p.2 ≠ 0) (map_to_list (wd_balances w)) |}.

#[export] Instance bank_balances_laws : BankBalancesLaws World.
Proof.
  split. intros w a [d x]. cbn [GetAllBalances GetBalance bank bank_balances Denom Amount].
  rewrite list_elem_of_fmap. unfold balance. split.
  - intros ([[a' d'] x'] & [= -> ->] & [(<- & Hok & Hne) Hin%elem_of_map_to_list]%list_elem_of_filter).
    cbn [fst snd] in *. rewrite Hin. cbn. by rewrite decide_True.
  - intros [Hx Hne]. exists ((a, d), x). split; [done|]. apply list_elem_of_filter. cbn [fst snd].
    destruct (wd_balances w !! (a, d)) as [y|] eqn:Ey; cbn in Hx; case_decide; simplify_eq; try done.
    split; [done|]. by apply elem_of_map_to_list.
Qed.
