(* ===== verification/Scenario.v ===== *)
(** * A concrete chain

    A small chain, evaluated: two users, three validators of different power, one
    token from Ethereum.  The states below are the results of running the methods
    of the module, starting from a fresh store. *)

From stdpp Require Import base gmap list strings sorting relations.
From S2P Require Import Prelude GoStd External Store Ethereum Keys OutgoingTx Valset Claims Keeper DelegateKeys Attestation OracleCorrect OracleObserve OracleTally Registry ValsetKeeper IbcForward Pool Batch EndBlock ValsetTracking Handler HandlerFrames HandlerCorrect ForwardCorrect Transfers PoolCorrect BatchCorrect BatchLifecycle EndBlockCorrect Escrow Instances Config Params Evidence Msgs LogicCall MsgServer ConfirmCorrect DelegateCorrect Governance Genesis Invariants SendCorrect EvidenceCorrect ServerCorrect GovernanceCorrect AuditCorrect GenesisCorrect.

#[local] Open Scope Z_scope.

(** ** Running *)

Definition run {S A} (m : M S A) (s : S) : S := match m s with Ret _ s' | Fail _ s' => s' | Panic _ => s end.
Definition result {S A} (m : M S A) (s : S) : option A := match m s with Ret a _ => Some a | _ => None end.

Lemma run_result {S A} (m : M S A) s a : result m s = Some a → m s = Ret a (run m s).
Proof. unfold result, run. destruct (m s); naive_solver. Qed.

(** An equation of which both sides evaluate. *)
Ltac evaluate := match goal with |- _ = ?x => vm_cast_no_check (eq_refl x) end.

(** A decidable statement about concrete states. *)
Ltac decided := apply (bool_decide_unpack _); vm_compute; exact I.

(** No key of a map has the prefix [p]. *)
Lemma no_prefix {A} (m : gmap bytes A) (p : bytes) :
  Forall (λ kv, take (length p) kv.1 ≠ p) (map_to_list m) → ∀ v, m !! (p ++ v) = None.
Proof.
  intros Hf v. destruct (m !! (p ++ v)) as [x|] eqn:E; [|done].
  apply elem_of_map_to_list in E. rewrite Forall_forall in Hf. destruct (Hf _ E). simpl.
  by rewrite take_app_length.
Qed.

(** ** The participants *)

Definition addr (n : Z) : bytes := replicate 20 n.
Definition eth (n : Z) : EthAddress := mkEthAddress (addr n).

Definition alice : bytes := addr 170.
Definition bob : bytes := addr 171.
Definition token : EthAddress := eth 34.
Definition denom : string := GravityDenom token.

Definition operator (n : Z) : bytes := addr (200 + n).
Definition orchestrator (n : Z) : bytes := addr (180 + n).

Definition params : Params :=
  mkParams "gravity-test" "" (Hex (addr 17)) 1 10000 10000 10000 43200000 5000 15000
    1000000000000000 1000000000000000 1000000000000000 10000 1000000000000000
    (mkCoin "" 0) true [Hex (addr 66)] 10 (Some 500000000000000000).

Definition validator (n : Z) : Validator :=
  mkValidator (ValAddressString (operator n)) (Ok (operator n)) false Bonded 0 10.

Definition world : World :=
  mkWorld (list_to_map [((alice, denom), 1000); ((bob, denom), 500)]) {[ denom := 1500 ]} ∅
    (list_to_map ((λ n, (operator n, validator n)) <$> [0; 1; 2]))
    (list_to_map [(operator 0, 50); (operator 1, 30); (operator 2, 20)]) 100 ∅.

Definition counters : gmap bytes bytes :=
  list_to_map
    ([(KeyLastTXPoolID, UInt64Bytes 0); (KeyLastOutgoingBatchID, UInt64Bytes 0);
      (LatestValsetNonce, UInt64Bytes 0); (LastSlashedBatchBlock, UInt64Bytes 0);
      (LastSlashedLogicCallBlock, UInt64Bytes 0)] ++
     ((λ n, (KeyOrchestratorAddress ++ orchestrator n, operator n)) <$> [0; 1; 2]) ++
     ((λ n, (EthAddressByValidatorKey ++ operator n, addr (80 + n))) <$> [0; 1; 2])).

Definition genesis : State World :=
  mkState (mkKV counters (Some params) ∅ ∅ ∅ ∅ (Some (mkEthHeight 9 100)) None ∅ ∅ ∅ ∅ ∅ ∅) world 10 [].

Lemma eth_ok_by_computation a : bool_decide (length (GetAddress a) = 20%nat ∧ Forall (λ b, 0 ≤ b < 256) (GetAddress a)) = true → eth_ok a.
Proof. intros Hb. by apply bool_decide_eq_true in Hb. Qed.

Lemma token_ok' : eth_ok token.
Proof. apply eth_ok_by_computation. by vm_compute. Qed.

Lemma params_valid : params_ok params.
Proof.
  split.
  - exists (eth 17). by vm_compute.
  - repeat constructor. exists (eth 66). by vm_compute.
Qed.

Lemma genesis_params : has_params genesis.
Proof. exists params. split; [done|]. apply params_valid. Qed.

Ltac by_prefix := apply no_prefix; apply (bool_decide_unpack _); by vm_compute.

Lemma genesis_registry : reg_ok (raw genesis).
Proof.
  assert (∀ d, raw genesis !! GetDenomToERC20Key d = None) as Hd.
  { intros d. unfold GetDenomToERC20Key. by_prefix. }
  assert (∀ a, raw genesis !! GetERC20ToDenomKey a = None) as Ha.
  { intros a. unfold GetERC20ToDenomKey. by_prefix. }
  split.
  - intros d b. by rewrite Hd.
  - intros a b. by rewrite Ha.
  - intros a _. apply Ha.
Qed.

Lemma genesis_transfers : transfers_ok genesis.
Proof.
  split; [done..|constructor| |]; exists 0; split_and!; try done; try (by vm_compute); constructor.
Qed.

Lemma genesis_ok : bridge_ok genesis.
Proof.
  split; [apply genesis_transfers|apply genesis_registry|apply genesis_params|].
  intros c _. change (0 ≤ GetBalance world module_address (asset_denom (raw genesis) c)).
  apply (balance_range (B := World)).
Qed.

(** All coins are vouchers of the one token, and it is paid out in them. *)
Lemma genesis_no_shadows : no_shadows genesis.
Proof.
  intros d (c & Hp & Hne) a.
  assert (raw genesis !! GetRemappedERC20Key c = None) as Hr by (unfold GetRemappedERC20Key; by_prefix).
  rewrite Hr in Hp. rewrite bool_decide_eq_false_2 in Hp by by intros [].
  destruct (decide (d = denom)) as [->|Hd].
  - exfalso. apply Hne. assert (namespace_parse false denom = Ok token) as E by evaluate.
    rewrite E in Hp. injection Hp as <-. evaluate.
  - change (balance world a d = 0). unfold balance.
    assert (wd_balances world !! (a, d) = None) as ->; [|by case_decide].
    cbn [world wd_balances list_to_map foldr fst snd]. rewrite !lookup_insert_ne by congruence. apply lookup_empty.
Qed.

(** ** Transfers to Ethereum

    Alice and Bob send, a batch of one is built from the better fee, Alice sends
    again with a still better fee, and a second batch is built. *)

Definition send (who : bytes) (amount fee : Z) : K World Z :=
  AddToOutgoingPool who (eth 99) (mkCoin denom amount) (mkCoin denom fee).

(** Paying for a send, and the transfer it creates. *)
Definition pay (who : bytes) (total : Z) (w : World) : World :=
  (SendCoinsFromAccountToModule who ModuleName [mkCoin denom total] w).2.
Definition transfer (id : Z) (who : bytes) (amount fee : Z) : InternalOutgoingTransferTx :=
  new_tx id who (eth 99) token amount fee.

Definition tx1 : InternalOutgoingTransferTx := transfer 1 alice 100 5.
Definition tx2 : InternalOutgoingTransferTx := transfer 2 bob 50 9.
Definition tx3 : InternalOutgoingTransferTx := transfer 3 alice 10 20.
Definition batch1 : InternalOutgoingTxBatch := mkInternalOutgoingTxBatch 1 2980 [tx2] token 10.
Definition batch2 : InternalOutgoingTxBatch := mkInternalOutgoingTxBatch 2 2980 [tx3] token 10.
Definition batch_checkpoint (b : InternalOutgoingTxBatch) : bytes :=
  default [] (InternalOutgoingTxBatch_GetCheckpoint (p_GravityId params) b).

Definition s1 : State World := sent tx1 (pay alice 105 (st_world genesis)) genesis.
Definition s2 : State World := sent tx2 (pay bob 59 (st_world s1)) s1.
Definition s3 : State World := built batch1 (batch_checkpoint batch1) s2.
Definition s4 : State World := sent tx3 (pay alice 30 (st_world s3)) s3.
Definition s5 : State World := built batch2 (batch_checkpoint batch2) s4.

Definition origin : AssetOrigin := mkAssetOrigin AssetOriginEthereum false denom (Some token).

Lemma denom_origin : ClassifyDenom denom genesis = Ret origin genesis.
Proof. evaluate. Qed.

Definition some {A} (o : option A) : bool := match o with Some _ => true | None => false end.
Lemma some_default {A} (o : option A) (d : A) : some o = true → o = Some (default d o).
Proof. by destruct o. Qed.

Lemma batch2_checkpoint :
  InternalOutgoingTxBatch_GetCheckpoint (p_GravityId params) batch2 = Some (batch_checkpoint batch2).
Proof. apply (some_default (InternalOutgoingTxBatch_GetCheckpoint (p_GravityId params) batch2)). evaluate. Qed.

Lemma pair_first {A B} (p : option A * B) : p.1 = None → p = (None, p.2).
Proof. destruct p. simpl. by intros ->. Qed.

Lemma receiver_ok : eth_ok (eth 99).
Proof. apply eth_ok_by_computation. evaluate. Qed.

Lemma not_last n : 0 ≤ n → n + 1 < two64 → Some (UInt64Bytes n) ≠ Some (UInt64Bytes (two64 - 1)).
Proof.
  intros Hn0 Hn1 E. apply (inj Some), UInt64Bytes_inj in E; [lia|unfold u64_ok; lia|done].
Qed.

(** A step of the scenario: what the run returns, and that the invariant is kept. *)
Lemma send_step s n who amount fee :
  bridge_ok s → raw s !! KeyLastTXPoolID = Some (UInt64Bytes n) → 0 ≤ n → n + 1 < two64 →
  who ≠ module_address → send_refused who (eth 99) (mkCoin denom amount) (mkCoin denom fee) = false →
  (2 ^ 256 <=? amount + fee) = false → ClassifyDenom denom s = Ret origin s →
  asset_denom (raw s) token = denom →
  (SendCoinsFromAccountToModule who ModuleName [mkCoin denom (amount + fee)] (st_world s)).1 = None →
  let s' := sent (transfer (n + 1) who amount fee) (pay who (amount + fee) (st_world s)) s in
  send who amount fee s = Ret (n + 1) s' ∧ bridge_ok s'.
Proof.
  intros Hs Hn Hn0 Hn1 Hwho Href Hbig Hc Hd Hpay%pair_first s'.
  assert (send who amount fee s = Ret (n + 1) s') as Hrun.
  { unfold send. rewrite (AddToOutgoingPool_run s n) by (apply Hs || apply receiver_ok || done).
    rewrite Href. cbn [Amount Denom]. by rewrite Hbig, Hc, Hpay. }
  split; [done|].
  apply (send_preserves s _ who (eth 99) (mkCoin denom amount) (mkCoin denom fee) (n + 1) origin token);
    try done; [apply receiver_ok|]. rewrite Hn. by apply not_last.
Qed.

Lemma build_step s m b :
  bridge_ok s → kv_params (st_kv s) = Some params →
  raw s !! KeyLastOutgoingBatchID = Some (UInt64Bytes m) → 0 ≤ m → m + 1 < two64 →
  unprofitable s token 1 = false → bool_decide (picks (st_kv s) token 1 = []) = false →
  timeout_of s params = Some (ib_BatchTimeout b) → next_batch s token 1 (m + 1) (ib_BatchTimeout b) = b →
  some (InternalOutgoingTxBatch_GetCheckpoint (p_GravityId params) b) = true →
  let s' := built b (batch_checkpoint b) s in
  BuildOutgoingTXBatch token 1 s = Ret b s' ∧ bridge_ok s'.
Proof.
  intros Hs Hp Hm Hm0 Hm1 Hun Hpick Hto Hb Hcp%(some_default _ []) s'.
  assert (BuildOutgoingTXBatch token 1 s = Ret b s') as Hrun.
  { rewrite (BuildOutgoingTXBatch_run s params token 1 m); try done; [|apply Hs|apply params_valid|apply token_ok'|].
    - rewrite Hun, Hpick, Hto, Hb. cbn [orb negb p_BridgeActive params]. cbv zeta. by rewrite Hcp.
    - apply locked_fees; [apply Hs..|apply token_ok']. }
  split; [done|]. apply (build_preserves s _ token 1 b); try done; [apply token_ok'|].
  rewrite Hm. by apply not_last.
Qed.

Lemma s1_step : send alice 100 5 genesis = Ret 1 s1 ∧ bridge_ok s1.
Proof. apply (send_step genesis 0 alice 100 5); [apply genesis_ok|evaluate|done..|evaluate|evaluate|evaluate|evaluate|evaluate]. Qed.
Lemma s1_run : send alice 100 5 genesis = Ret 1 s1.
Proof. apply s1_step. Qed.
Lemma s1_ok : bridge_ok s1.
Proof. apply s1_step. Qed.
Lemma s2_ok : bridge_ok s2.
Proof. apply (send_step s1 1 bob 50 9); [apply s1_ok|evaluate|done..|evaluate|evaluate|evaluate|evaluate|evaluate]. Qed.
Lemma s3_ok : bridge_ok s3.
Proof. apply (build_step s2 0 batch1); [apply s2_ok|evaluate|evaluate|done..|evaluate|evaluate|evaluate|evaluate|evaluate]. Qed.
Lemma s4_ok : bridge_ok s4.
Proof. apply (send_step s3 2 alice 10 20); [apply s3_ok|evaluate|done..|evaluate|evaluate|evaluate|evaluate|evaluate]. Qed.
Lemma s5_step : BuildOutgoingTXBatch token 1 s4 = Ret batch2 s5 ∧ bridge_ok s5.
Proof. apply (build_step s4 1 batch2); [apply s4_ok|evaluate|evaluate|done..|evaluate|evaluate|evaluate|evaluate|evaluate]. Qed.
Lemma s5_run : BuildOutgoingTXBatch token 1 s4 = Ret batch2 s5.
Proof. apply s5_step. Qed.
Lemma s5_ok : bridge_ok s5.
Proof. apply s5_step. Qed.
Lemma s4_fees : sumZ fee_of (token_transfers s4 token) < 2 ^ 256.
Proof. apply locked_fees; [apply s4_ok..|apply token_ok']. Qed.

(** ** Votes

    The validators' orchestrators report one deposit each after the other. *)

Definition report (i n : Z) : EthereumClaim := SendToCosmosClaim (deposit i n).
Definition report_any (i n : Z) : Any := mkAny "/gravity.v1.MsgSendToCosmosClaim" [i; n].
Definition vote (i n : Z) : K World Attestation := Attest (report i n) (report_any i n).

(** The attestation of the first deposit, and where it is stored. *)
Definition hash1 : bytes := match ClaimHash (report 0 1) with Ok h => h | Er _ => [] end.
Definition key1 : bytes := GetAttestationKey 1 hash1.
Definition comps1 : ClaimHashComponents :=
  match ExtractClaimHashComponents (report 0 1) with Ok c => c | Er _ => BatchSendToEthClaimComponents 0 0 0 "" end.
Definition att_with (votes : list Z) : Attestation :=
  mkAttestation false ((λ i, ValAddressString (operator i)) <$> votes) 10 (report_any 0 1)
    CLAIM_TYPE_SEND_TO_COSMOS (Some comps1).

Definition v1 : State World := voted_state key1 (att_with []) (operator 0) 1 genesis.
Definition v2 : State World := voted_state key1 (att_with [0]) (operator 1) 1 v1.
Definition v3 : State World := run attestationTally v2.

(** The orchestrator of validator [i] votes for it. *)
Lemma votes_for_operator i s :
  GetClaimer (report i 1) = Some (orchestrator i) →
  GetOrchestratorValidator (orchestrator i) s = Ret (Some (validator i)) s →
  ValAddressFromBech32 (ValAddressString (operator i)) = Ok (operator i) → votes_for s (report i 1) (operator i).
Proof. intros H1 H2 H3. by exists (orchestrator i), (validator i). Qed.

Lemma genesis_oracle : oracle_init genesis.
Proof. split_and!; [done|evaluate|]. intros v. unfold vote_key. by_prefix. Qed.
Lemma genesis_oracle_ok : oracle_ok genesis.
Proof. apply oracle_init_ok, genesis_oracle. Qed.

Lemma vote_ok s s' i n att :
  u64_ok n → n ≠ 0 → oracle_ok s → vote i n s = Ret att s' → oracle_ok s'.
Proof. intros Hn Hn0 Hs. by apply (Attest_oracle_ok s _ (report i n) (report_any i n) att). Qed.

(** An operation has one outcome. *)
Lemma ret_unique {S A} (m : M S A) (s s1 s2 : S) (a1 a2 : A) :
  m s = Ret a1 s1 → m s = Ret a2 s2 → s1 = s2.
Proof. congruence. Qed.
Lemma ret_not_panic {S A} (m : M S A) (s s1 : S) (a : A) msg : m s = Ret a s1 → m s = Panic msg → False.
Proof. congruence. Qed.

Lemma v1_run : vote 0 1 genesis = Ret (att_with [0]) v1.
Proof.
  unfold vote. rewrite (Attest_run genesis (report 0 1) (report_any 0 1) (operator 0) hash1 comps1).
  - replace (negb _) with false by evaluate.
    replace (atts genesis !! _) with (None : option Attestation) by evaluate. reflexivity.
  - apply genesis_oracle_ok.
  - apply votes_for_operator; evaluate.
  - decided.
  - evaluate.
  - evaluate.
  - by replace (atts genesis !! _) with (None : option Attestation) by evaluate.
Qed.
Lemma v1_ok : oracle_ok v1.
Proof. by apply (vote_ok genesis v1 0 1 (att_with [0])); [..|apply genesis_oracle_ok|apply v1_run]. Qed.

Lemma v1_atts : atts v1 !! key1 = Some (att_with [0]).
Proof. unfold v1. simpl. apply lookup_insert_eq. Qed.

Lemma v1_expected : negb (1 =? u64 (effective_vote v1 (operator 1) + 1)) = false.
Proof. evaluate. Qed.
Lemma v1_votes : votes_for v1 (report 1 1) (operator 1).
Proof. apply votes_for_operator; evaluate. Qed.
Lemma v1_components att0 :
  atts v1 !! key1 = Some att0 → ∃ st, at_ClaimComponents att0 = Some st ∧
     ComputeClaimHash (at_ClaimType att0) st = Ok hash1.
Proof. rewrite v1_atts. intros [= <-]. exists comps1. split; [done|evaluate]. Qed.

Lemma v2_run : vote 1 1 v1 = Ret (att_with [0; 1]) v2.
Proof.
  unfold vote. rewrite (Attest_run v1 (report 1 1) (report_any 1 1) (operator 1) hash1 comps1).
  - change (GetAttestationKey _ hash1) with key1.
    change (GetEventNonce (report 1 1)) with 1. rewrite v1_expected, v1_atts.
    by rewrite decide_True.
  - apply v1_ok.
  - apply v1_votes.
  - decided.
  - evaluate.
  - evaluate.
  - apply v1_components.
Qed.
Lemma v2_ok : oracle_ok v2.
Proof. by apply (vote_ok v1 v2 1 1 (att_with [0; 1])); [..|apply v1_ok|apply v2_run]. Qed.

Lemma v3_run : attestationTally v2 = Ret tt v3.
Proof. unfold v3. apply (run_result attestationTally v2). evaluate. Qed.

Lemma att_claim1 votes : att_claim (att_with votes) (report 0 1) hash1.
Proof. split_and!; [done|evaluate|done..]. Qed.

Lemma v2_atts : atts v2 = {[ key1 := att_with [0; 1] ]}.
Proof. unfold v2, v1. simpl. by rewrite insert_insert_eq. Qed.

Lemma v2_powers : powers_ok v2 (att_with [0; 1]).
Proof.
  split_and!.
  - exists 100. split; [evaluate|done].
  - repeat constructor; [exists (operator 0), 50|exists (operator 1), 30]; (split; evaluate).
  - decided.
Qed.

Lemma v2_params : has_params v2.
Proof. exists params. split; [evaluate|apply params_valid]. Qed.
Lemma v2_active : bridge_active v2 = true.
Proof. evaluate. Qed.

Lemma v3_ok : oracle_ok v3.
Proof. apply (oracle_step_ok v2 v3); [|apply v2_ok]. apply step_tally, v3_run. Qed.

Lemma v3_powers : powers_ok v3 (att_with [0; 1]).
Proof.
  split_and!.
  - exists 100. split; [evaluate|done].
  - repeat constructor; [exists (operator 0), 50|exists (operator 1), 30]; (split; evaluate).
  - decided.
Qed.

(** ** Validator sets

    A validator set is requested, only the first validator signs it, and the
    signing window passes. *)

Definition valset1 : Valset :=
  mkValset 1 [mkBridgeValidator 2147483648 (Hex (addr 80)); mkBridgeValidator 1288490188 (Hex (addr 81));
              mkBridgeValidator 858993459 (Hex (addr 82))] 10 (Some 0) ZeroAddressString.

Definition at_height (h : Z) (s : State World) : State World :=
  mkState (st_kv s) (st_world s) h (st_events s).

Definition signed : MsgValsetConfirm :=
  mkMsgValsetConfirm 1 (AccAddressString (orchestrator 0)) (Hex (addr 80)) "".

Definition r1 : State World := run SetValsetRequest genesis.
Definition r2 : State World := at_height 20000 (run (SetValsetConfirm signed) r1).
Definition r3 : State World := run slashing r2.

Lemma valset1_current : GetCurrentValset genesis = Ret valset1 genesis.
Proof. evaluate. Qed.
Lemma r3_run : slashing r2 = Ret tt r3.
Proof. unfold r3. apply (run_result slashing r2). evaluate. Qed.

(** ** A forward over IBC *)

(** A deposit for an account of another chain. *)
Definition forward1 : PendingIbcAutoForward :=
  mkPendingIbcAutoForward ("cosmos1" +:+ hex_encode (addr 170)) (mkCoin denom 50) "channel-0" 1.

Definition f1 : State World :=
  mkState (upd_forwards (insert (forward_key forward1) forward1) (st_kv genesis))
    (set_balances (insert (module_address, denom) 50) world) 10 [].
Definition f2 : State World := run ProcessNextPendingIbcAutoForward f1.

Lemma f2_run : ProcessNextPendingIbcAutoForward f1 = Ret false f2.
Proof. unfold f2. apply (run_result ProcessNextPendingIbcAutoForward f1). evaluate. Qed.

Lemma f1_queue : queue_ok f1.
Proof. unfold queue_ok. simpl. apply map_Forall_insert_2; [done|]. apply map_Forall_empty. Qed.

(** ** Unsigned batches *)

(** Two batches built at different heights and due at the same time. *)
Definition later : State World := at_height 20 s4.
Definition batch3 : InternalOutgoingTxBatch :=
  mkInternalOutgoingTxBatch 2 (default 0 (timeout_of later params)) [tx3] token 20.
Definition b3 : State World := at_height 20000 (built batch3 (batch_checkpoint batch3) later).

Lemma at_height_ok n s : bridge_ok s → bridge_ok (at_height n s).
Proof. intros [[? ? ? ? ?] ? ? ?]. by split. Qed.
Lemma b3_ok : bridge_ok b3.
Proof.
  apply at_height_ok.
  apply (build_step later 1 batch3); [apply at_height_ok, s4_ok|evaluate|evaluate|done..|evaluate|evaluate|evaluate|evaluate|evaluate].
Qed.
Lemma b3_batches : batch_list (kv_batches (st_kv b3)) = [batch3; batch1].
Proof. evaluate. Qed.
Example slashing_stops : slashing b3 = Panic "Attempted to decrement LastSlashedBatchBlock".
Proof. evaluate. Qed.

(** * The message server on the concrete chain

    Messages of users, orchestrators and governance, evaluated on the chain of
    [Scenario]. *)

(** ** Users *)

Definition send_msg : MsgSendToEth :=
  mkMsgSendToEth (AccAddressString alice) (Hex (addr 99)) (mkCoin denom 100) (mkCoin denom 5) (mkCoin denom 4).

Definition sent_msg : State World := run (SendToEth send_msg) genesis.

Lemma send_msg_run : SendToEth send_msg genesis = Ret tt sent_msg.
Proof. apply (run_result (SendToEth send_msg) genesis). evaluate. Qed.

Lemma fee_params : fee_params_ok params.
Proof. split; [done|]. exists 500000000000000000. done. Qed.

Definition halted : State World :=
  upd_kv (upd_params (λ _, Some
    (mkParams "gravity-test" "" (Hex (addr 17)) 1 10000 10000 10000 43200000 5000 15000
       1000000000000000 1000000000000000 1000000000000000 10000 1000000000000000
       (mkCoin "" 0) false [Hex (addr 66)] 10 (Some 500000000000000000)))) genesis.

(** ** Orchestrators *)

(** A signature made by the Ethereum key of the [i]th validator. *)
Definition signature (i : Z) : string := hex_encode (replicate 20 (80 + i) ++ replicate 44 0 ++ [27]).

Definition confirm_msg : Confirm :=
  ConfirmTxBatch (mkMsgConfirmBatch 2 (Hex (addr 34)) (Hex (addr 80))
    (AccAddressString (orchestrator 0)) (signature 0)).

Definition confirmed : State World := run (handle_confirm confirm_msg) s5.

Lemma confirm_msg_run : handle_confirm confirm_msg s5 = Ret tt confirmed.
Proof. apply (run_result (handle_confirm confirm_msg) s5). evaluate. Qed.

Definition claimed : State World := run (handle_claim (report 0 1)) genesis.

Lemma claimed_run : handle_claim (report 0 1) genesis = Ret tt claimed.
Proof. apply (run_result (handle_claim (report 0 1)) genesis). evaluate. Qed.

(** ** Evidence *)

(** A batch the chain never built, and the one it built last. *)
Definition forged : OutgoingTxBatch :=
  InternalOutgoingTxBatch_ToExternal (mkInternalOutgoingTxBatch 7 2980 [tx2] token 10).

#[export] Instance signed_codec : SignedCodec := {|
  UnpackSigned a :=
    match a with
    | Some any =>
        match any_Value any with
        | [2] => Ok (Some (SignedBatch (InternalOutgoingTxBatch_ToExternal batch2)))
        | [7] => Ok (Some (SignedBatch forged))
        | _ => Er (ErrSdk "any")
        end
    | None => Ok None
    end |}.

Definition evidence (i n : Z) : MsgSubmitBadSignatureEvidence :=
  mkMsgSubmitBadSignatureEvidence (Some (mkAny "/gravity.v1.OutgoingTxBatch" [n])) (signature i)
    (AccAddressString bob).

(** The chain with the index from Ethereum keys to validators. *)
Definition indexed : State World :=
  upd_kv (upd_raw (insert (GetValidatorByEthAddressKey (eth 80)) (operator 0))) genesis.

Definition after_evidence : State World := run (SubmitBadSignatureEvidence (evidence 0 7)) indexed.

Lemma evidence_run : SubmitBadSignatureEvidence (evidence 0 7) indexed = Ret tt after_evidence.
Proof. apply (run_result (SubmitBadSignatureEvidence (evidence 0 7)) indexed). evaluate. Qed.

(** ** Delegation *)

(** The chain before anybody delegated. *)
Definition bare_counters : gmap bytes bytes :=
  list_to_map
    [(KeyLastTXPoolID, UInt64Bytes 0); (KeyLastOutgoingBatchID, UInt64Bytes 0);
     (LatestValsetNonce, UInt64Bytes 0); (LastSlashedBatchBlock, UInt64Bytes 0);
     (LastSlashedLogicCallBlock, UInt64Bytes 0)].

Definition bare : State World :=
  mkState (mkKV bare_counters (Some params) ∅ ∅ ∅ ∅ (Some (mkEthHeight 9 100)) None ∅ ∅ ∅ ∅ ∅ ∅) world 10 [].

Definition delegate_msg : MsgSetOrchestratorAddress :=
  mkMsgSetOrchestratorAddress (AccAddressString (operator 0)) (AccAddressString (orchestrator 0))
    (Hex (addr 80)).

Lemma bare_delegates : delegates_ok (raw bare).
Proof.
  assert (∀ v, raw bare !! (EthAddressByValidatorKey ++ v) = None) as He by by_prefix.
  assert (∀ v, raw bare !! (ValidatorByEthAddressKey ++ v) = None) as Hv by by_prefix.
  assert (∀ v, raw bare !! (KeyOrchestratorAddress ++ v) = None) as Ho by by_prefix.
  split.
  - intros v b. unfold EthKey. by rewrite He.
  - intros b v. unfold ValKey. by rewrite Hv.
  - intros o v. unfold OrchKey. by rewrite Ho.
  - intros o o' v. unfold OrchKey. by rewrite Ho.
Qed.

(** ** Governance *)

Definition params_msg : MsgUpdateParamsProposal :=
  mkMsgUpdateParamsProposal "gov" [("MinChainFeeBasisPoints", "25"); ("BridgeActive", "false")].

Lemma params_in_width : params_typed params.
Proof. by split. Qed.

(** One validator has reported two deposits, nobody else any. *)
Definition hash2 : bytes := match ClaimHash (report 0 2) with Ok h => h | Er _ => [] end.
Definition ahead_state : State World := run (vote 0 2) v1.
Definition ahead_att : Attestation :=
  match result (vote 0 2) v1 with Some a => a | None => att_with [] end.

Lemma ahead_run : vote 0 2 v1 = Ret ahead_att ahead_state.
Proof.
  apply (run_result (vote 0 2) v1). unfold ahead_att.
  apply (some_default (result (vote 0 2) v1) (att_with [])). evaluate.
Qed.

Lemma ahead_ok : oracle_ok ahead_state.
Proof. by apply (vote_ok v1 ahead_state 0 2 ahead_att); [..|apply v1_ok|apply ahead_run]. Qed.

Definition unhalt : UnhaltBridgeProposal := mkUnhaltBridgeProposal "" "" 1.
Lemma ahead_rollback :
  (ub_TargetNonce unhalt <? last_observed ahead_state) || (ub_TargetNonce unhalt =? 0) ||
  negb (is_ok (GetBondedValidatorsByPower (st_world ahead_state))) = false.
Proof. evaluate. Qed.

Definition graviton : Metadata := mkMetadata "The graviton" [] "ugraviton" "graviton" "Graviton" "GRAV" "" "".

(** The chain with a native token and a community pool. *)
Definition native_world : World :=
  mkWorld (list_to_map [((alice, "ugraviton"), 1000); ((bytes_of_string DistributionModule, "ugraviton"), 500)])
    {[ "ugraviton" := 1500 ]} ∅ ∅ ∅ 100 {[ "ugraviton" := 500 * dec_one ]}.
Definition native : State World := upd_world (λ _, native_world) genesis.

Definition list_proposal : SetCosmosBridgeableTokensProposal := mkSetTokensProposal "" "" [graviton].
Definition listing : State World := run (HandleSetCosmosBridgeableTokensProposal list_proposal) native.
Lemma listing_run : HandleSetCosmosBridgeableTokensProposal list_proposal native = Ret tt listing.
Proof. apply (run_result (HandleSetCosmosBridgeableTokensProposal list_proposal) native). evaluate. Qed.

Definition airdrop : AirdropProposal := mkAirdropProposal "" "" "ugraviton" (alice ++ bob) [30; 12].
Definition dropped : State World := run (HandleAirdropProposal airdrop) native.
Lemma airdrop_run : HandleAirdropProposal airdrop native = Ret tt dropped.
Proof. apply (run_result (HandleAirdropProposal airdrop) native). evaluate. Qed.

(** ** Audits, export and import *)

Lemma audit_run : ModuleBalanceInvariant s5 = Ret tt (run ModuleBalanceInvariant s5).
Proof. apply (run_result ModuleBalanceInvariant s5). evaluate. Qed.

Lemma bare_ok : bridge_ok bare.
Proof.
  assert (∀ d, raw bare !! GetDenomToERC20Key d = None) as Hd.
  { intros d. unfold GetDenomToERC20Key. by_prefix. }
  assert (∀ a, raw bare !! GetERC20ToDenomKey a = None) as Ha.
  { intros a. unfold GetERC20ToDenomKey. by_prefix. }
  split.
  - split; [done..|constructor| |]; exists 0; split_and!; try done; try (by vm_compute); constructor.
  - split.
    + intros d b. by rewrite Hd.
    + intros a b. by rewrite Ha.
    + intros a _. apply Ha.
  - exists params. split; [done|]. apply params_valid.
  - intros c _. change (0 ≤ GetBalance world module_address (asset_denom (raw bare) c)).
    apply (balance_range (B := World)).
Qed.

Definition bare1 : State World := sent tx1 (pay alice 105 (st_world bare)) bare.
Lemma bare1_ok : bridge_ok bare1.
Proof. apply (send_step bare 0 alice 100 5); [apply bare_ok|evaluate|done..|evaluate|evaluate|evaluate|evaluate|evaluate]. Qed.

Definition exported : GenesisState :=
  match result ExportGenesis bare1 with Some g => g | None => DefaultGenesisState end.
Lemma export_run : ExportGenesis bare1 = Ret exported (run ExportGenesis bare1).
Proof.
  apply (run_result ExportGenesis bare1). unfold exported.
  apply (some_default (result ExportGenesis bare1) DefaultGenesisState). evaluate.
Qed.

(** A chain with nothing in the store. *)
Definition blank : State World :=
  mkState (mkKV ∅ None ∅ ∅ ∅ ∅ None None ∅ ∅ ∅ ∅ ∅ ∅) (st_world bare1) 10 [].

Definition imported : State World := run (InitGenesis exported) blank.
Lemma import_run : InitGenesis exported blank = Ret tt imported.
Proof. apply (run_result (InitGenesis exported) blank). evaluate. Qed.
