(* ===== verification/Witnesses.v ===== *)
(** * The theorems at work

    Every theorem about the module, applied to the concrete chain of [Scenario]:
    its hypotheses hold there. *)

From stdpp Require Import base gmap list strings sorting relations.
From S2P Require Import Prelude GoStd External Store Ethereum Keys OutgoingTx Valset Claims Keeper DelegateKeys Attestation OracleCorrect OracleObserve OracleTally Registry ValsetKeeper ValsetCorrect IbcForward Pool Batch EndBlock ValsetTracking Handler HandlerFrames HandlerCorrect ForwardCorrect Transfers PoolCorrect BatchCorrect BatchLifecycle EndBlockCorrect Escrow Instances Scenario Config Params Evidence Msgs LogicCall MsgServer ConfirmCorrect DelegateCorrect Governance Genesis Invariants SendCorrect EvidenceCorrect ServerCorrect GovernanceCorrect AuditCorrect GenesisCorrect.

#[local] Open Scope Z_scope.

(** ** Transfers *)


Lemma RemoveFromOutgoingPoolAndRefund_refuses_witness :
  ∃ e, (e = ErrInvalid ∨ e = ErrUnknown) ∧ RemoveFromOutgoingPoolAndRefund 1 bob s1 = Fail e s1.
Proof.
  apply (RemoveFromOutgoingPoolAndRefund_refuses s1 1 bob).
  - apply s1_ok.
  - decided.
Defined.

(** Alice's coins after she has cancelled her transfer. *)
Definition refunded : World :=
  (SendCoinsFromModuleToAccount ModuleName alice (refund_coins denom tx1) (st_world s1)).2.

Lemma tx1_pooled : tx1 ∈ pool_txs (kv_pool (st_kv s1)).
Proof. decided. Qed.
Lemma token_origin1 : ClassifyERC20 (tx_contract tx1) s1 = Ret origin s1.
Proof. evaluate. Qed.
Lemma refund_paid :
  SendCoinsFromModuleToAccount ModuleName alice (refund_coins denom tx1) (st_world s1) = (None, refunded).
Proof. apply pair_first. evaluate. Qed.

Lemma refund_run : RemoveFromOutgoingPoolAndRefund 1 alice s1 = Ret tt (canceled tx1 refunded s1).
Proof.
  change (RemoveFromOutgoingPoolAndRefund (tx_Id tx1) (tx_Sender tx1) s1 = Ret tt (canceled tx1 refunded s1)).
  rewrite Remove_refunds by (apply s1_ok || apply tx1_pooled).
  rewrite token_origin1. replace (negb _) with false by evaluate. replace (2 ^ 256 <=? _) with false by evaluate.
  change (tx_Sender tx1) with alice. change (ao_Denom origin) with denom. by rewrite refund_paid.
Qed.

Lemma RemoveFromOutgoingPoolAndRefund_refunds_witness :
  RemoveFromOutgoingPoolAndRefund (tx_Id tx1) (tx_Sender tx1) s1 = Ret tt (canceled tx1 refunded s1).
Proof.
  rewrite (RemoveFromOutgoingPoolAndRefund_refunds s1 tx1).
  - rewrite token_origin1. replace (negb _) with false by evaluate. replace (2 ^ 256 <=? _) with false by evaluate.
    change (tx_Sender tx1) with alice. change (ao_Denom origin) with denom. by rewrite refund_paid.
  - apply s1_ok.
  - apply s1_ok.
  - apply s1_ok.
  - apply tx1_pooled.
Defined.

Lemma send_then_cancel_witness :
  kv_pool (st_kv (canceled tx1 refunded s1)) = kv_pool (st_kv genesis) ∧
  ∀ a d, GetBalance (st_world (canceled tx1 refunded s1)) a d = GetBalance (st_world genesis) a d.
Proof.
  apply (send_then_cancel genesis s1 _ alice (eth 99) (mkCoin denom 100) (mkCoin denom 5) 1 origin token tt 0).
  - apply genesis_transfers.
  - apply genesis_registry.
  - apply genesis_params.
  - apply receiver_ok.
  - evaluate.
  - done.
  - done.
  - apply s1_run.
  - apply denom_origin.
  - done.
  - evaluate.
  - apply refund_run.
Defined.

(** ** Batches *)

Lemma BuildOutgoingTXBatch_spec_witness : BuildOutgoingTXBatch token 1 s4 = Ret batch2 s5.
Proof.
  rewrite (BuildOutgoingTXBatch_spec s4 params token 1 1).
  - replace (_ || _) with false by evaluate. replace (timeout_of s4 params) with (Some 2980) by evaluate.
    cbv zeta. replace (next_batch s4 token 1 (1 + 1) 2980) with batch2 by evaluate.
    rewrite batch2_checkpoint. reflexivity.
  - apply s4_ok.
  - evaluate.
  - apply params_valid.
  - apply token_ok'.
  - evaluate.
  - done.
  - done.
  - done.
  - apply s4_fees.
Defined.

Lemma BuildOutgoingTXBatch_conserves_witness :
  transfers s5 ≡ₚ transfers s4 ∧ transfers_ok s5 ∧ batch2 ∈ batch_list (kv_batches (st_kv s5)) ∧
  ∀ t, t ∈ ib_Transactions batch2 →
    t ∈ pool_txs (kv_pool (st_kv s4)) ∧ t ∉ pool_txs (kv_pool (st_kv s5)).
Proof.
  apply (BuildOutgoingTXBatch_conserves s4 params token 1 1).
  - apply s4_ok.
  - evaluate.
  - apply params_valid.
  - apply token_ok'.
  - evaluate.
  - done.
  - done.
  - apply s4_fees.
  - apply s5_run.
Defined.

Lemma BuildOutgoingTXBatch_optimal_witness :
  ib_Transactions batch2 = [tx3] ∧ ∀ l, NoDup l → Z.of_nat (length l) ≤ 1 →
    (∀ t, t ∈ l → t ∈ pool_txs (kv_pool (st_kv s4)) ∧ tx_contract t = token ∧
                  blacklisted (st_kv s4) (tx_DestAddress t) = false) →
    sumZ fee_of l ≤ sumZ fee_of (ib_Transactions batch2).
Proof.
  split; [done|]. apply (BuildOutgoingTXBatch_optimal s4 params token 1 1) with (s' := s5).
  - apply s4_ok.
  - evaluate.
  - apply params_valid.
  - apply token_ok'.
  - evaluate.
  - done.
  - done.
  - apply s4_fees.
  - apply s5_run.
Defined.

Lemma BuildOutgoingTXBatch_profitable_witness :
  sumZ fee_of (ib_Transactions batch1) < sumZ fee_of (ib_Transactions batch2) ∧
  ib_BatchNonce batch2 = 1 + 1 ∧
  ∀ b', b' ∈ batch_list (kv_batches (st_kv s4)) → ib_BatchNonce b' < ib_BatchNonce batch2.
Proof.
  apply (BuildOutgoingTXBatch_profitable s4 params token 1 1) with (s' := s5).
  - apply s4_ok.
  - evaluate.
  - apply params_valid.
  - apply token_ok'.
  - evaluate.
  - done.
  - done.
  - apply s4_fees.
  - apply s5_run.
  - evaluate.
Defined.

Lemma CancelOutgoingTXBatch_spec_witness :
  CancelOutgoingTXBatch token 1 s5 = Ret tt (batch_canceled batch1 s5).
Proof.
  rewrite (CancelOutgoingTXBatch_spec s5 token 1).
  - by replace (find_batch _ token 1) with (Some batch1) by evaluate.
  - apply s5_ok.
  - apply s5_ok.
  - apply token_ok'.
  - done.
Defined.

(** Ethereum reports the second batch. *)
Definition executed2 : MsgBatchSendToEthClaim :=
  mkBatchSendToEth 1 101 2 (Hex (GetAddress token)) (AccAddressString (orchestrator 0)).

Definition burned : World := (BurnCoins ModuleName (burn_coins_of denom batch2) (st_world s5)).2.

Lemma burn_paid : BurnCoins ModuleName (burn_coins_of denom batch2) (st_world s5) = (None, burned).
Proof. apply (pair_first (BurnCoins ModuleName (burn_coins_of denom batch2) (st_world s5))). evaluate. Qed.

Lemma batch2_settled : settled origin batch2 (st_world s5) burned.
Proof. unfold settled. rewrite decide_True by done. split_and!; [evaluate|done|exact burn_paid]. Qed.

Lemma OutgoingTxBatchExecuted_completes_witness :
  ∃ s', OutgoingTxBatchExecuted token executed2 s5 = Ret tt s' ∧ st_world s' = burned ∧
    transfers s5 ≡ₚ ib_Transactions batch2 ++ transfers s' ∧ transfers_ok s' ∧
    ∀ b', b' ∈ batch_list (kv_batches (st_kv s')) ↔
          b' ∈ batch_list (kv_batches (st_kv s5)) ∧ ¬ (ib_TokenContract b' = token ∧ ib_BatchNonce b' ≤ ib_BatchNonce batch2).
Proof.
  apply (OutgoingTxBatchExecuted_completes s5 token executed2 batch2 origin burned).
  - apply s5_ok.
  - apply s5_ok.
  - apply s5_ok.
  - apply token_ok'.
  - done.
  - evaluate.
  - done.
  - evaluate.
  - apply batch2_settled.
Defined.

(** A claim about a batch nobody built. *)
Lemma OutgoingTxBatchExecuted_panics_witness :
  ∃ msg, OutgoingTxBatchExecuted token (mkBatchSendToEth 1 101 7 (Hex (GetAddress token)) (AccAddressString (orchestrator 0))) s5 = Panic msg.
Proof.
  apply (OutgoingTxBatchExecuted_panics s5 token).
  - apply s5_ok.
  - intros b. replace (find_batch (st_kv s5) token _) with (None : option InternalOutgoingTxBatch) by evaluate. done.
Defined.

Lemma bridge_solvent_witness :
  rtc bridge_step genesis s1 ∧
  locked s1 token ≤ GetBalance (st_world s1) (GetModuleAddress ModuleName) (asset_denom (raw s1) token).
Proof.
  assert (rtc bridge_step genesis s1) as Hrtc.
  { apply rtc_once. apply (step_send _ _ alice (eth 99) (mkCoin denom 100) (mkCoin denom 5) 1).
    - apply eth_ok_by_computation. evaluate.
    - done.
    - done.
    - apply s1_run. }
  split; [exact Hrtc|]. apply (bridge_solvent genesis s1 genesis_ok genesis_no_shadows Hrtc). apply token_ok'.
Defined.

(** ** The oracle *)

Lemma Attest_keeps_oracle_ok_witness : vote 1 1 v1 = Ret (att_with [0; 1]) v2 ∧ oracle_ok v2.
Proof.
  split; [apply v2_run|].
  apply (Attest_keeps_oracle_ok v1 v2 (report 1 1) (report_any 1 1) (att_with [0; 1])).
  - apply v1_ok.
  - done.
  - done.
  - done.
  - apply v2_run.
Defined.

Lemma Attest_spec_witness : vote 1 1 v1 = Ret (att_with [0; 1]) v2.
Proof.
  etrans; [apply (Attest_spec v1 (report 1 1) (report_any 1 1) (operator 1) hash1 comps1)|].
  - apply v1_ok.
  - apply v1_votes.
  - decided.
  - evaluate.
  - evaluate.
  - apply v1_components.
  - change (GetAttestationKey _ hash1) with key1. change (GetEventNonce (report 1 1)) with 1.
    rewrite v1_expected, v1_atts. by rewrite decide_True.
Defined.


(** The event has been observed: the same votes may not apply it again. *)
Lemma TryAttestation_out_of_order_witness :
  TryAttestation (att_with [0; 1]) v3 = Panic "attempting to apply events to state out of order".
Proof.
  apply (TryAttestation_out_of_order v3 (att_with [0; 1]) (report 0 1) hash1).
  - apply v3_ok.
  - apply v3_powers.
  - apply att_claim1.
  - decided.
  - done.
  - decided.
Defined.

Lemma attestationTally_spec_witness :
  bridge_active v2 = true ∧ attestationTally v2 = Ret tt v3 ∧ tallied v2 v3 ∧ nothing_left v3.
Proof.
  destruct (attestationTally_spec v2 v2_ok v2_params) as [[E _]|[E [(s' & Hrun & Hrest)|(msg & Hrun & _)]]].
  - exfalso. exact (eq_true_false_abs _ v2_active E).
  - pose proof (ret_unique _ _ _ _ _ _ v3_run Hrun) as Es. subst s'.
    split_and!; [exact E|exact Hrun|apply Hrest..].
  - exfalso. exact (ret_not_panic _ _ _ _ _ v3_run Hrun).
Defined.

Lemma pruneAttestations_spec_witness :
  pruneAttestations v2 = Ret tt (pruned v2) ∧ oracle_ok (pruned v2).
Proof. apply (pruneAttestations_spec v2). apply v2_ok. Defined.

Lemma oracle_safe_witness :
  rtc oracle_step genesis v3 ∧ oracle_ok v3.
Proof.
  assert (rtc oracle_step genesis v3) as Hrtc.
  { eapply rtc_l; [by eapply (step_vote _ v1 (report 0 1) (report_any 0 1)); [..|apply v1_run]|].
    eapply rtc_l; [by eapply (step_vote _ v2 (report 1 1) (report_any 1 1)); [..|apply v2_run]|].
    apply rtc_once, step_tally, v3_run. }
  split; [exact Hrtc|]. apply (oracle_safe genesis v3 genesis_oracle Hrtc).
Defined.

(** ** Assets *)

(** A Cosmos coin and the ERC20 that represents it. *)
Definition coin : string := "ugraviton".
Definition coin_erc20 : EthAddress := eth 67.
Definition g1 : State World := upd_kv (upd_raw (registered coin coin_erc20)) genesis.

Lemma coin_erc20_ok : eth_ok coin_erc20.
Proof. apply eth_ok_by_computation. evaluate. Qed.

Lemma g1_registry : reg_ok (raw g1).
Proof.
  apply (registered_ok coin coin_erc20 counters); [apply genesis_registry|..].
  - split_and!; evaluate.
  - apply coin_erc20_ok.
  - evaluate.
  - evaluate.
  - evaluate.
Qed.

Lemma setCosmosOriginatedMapping_spec_witness :
  setCosmosOriginatedMapping coin coin_erc20 genesis = Ret tt g1.
Proof.
  etrans; [apply (setCosmosOriginatedMapping_spec genesis coin coin_erc20)|].
  - apply genesis_registry.
  - evaluate.
Defined.

Lemma setCosmosOriginatedMapping_keeps_registry_witness :
  reg_ok (raw g1) ∧ getCosmosOriginatedERC20ForDenom coin g1 = Ret (Some coin_erc20) g1 ∧
  getCosmosOriginatedDenomForERC20 coin_erc20 g1 = Ret (Some coin) g1.
Proof.
  apply (setCosmosOriginatedMapping_keeps_registry genesis g1 coin coin_erc20 tt).
  - apply genesis_registry.
  - apply coin_erc20_ok.
  - evaluate.
Defined.

Lemma DeleteCosmosOriginatedMapping_keeps_registry_witness :
  ∃ s', DeleteCosmosOriginatedMapping coin_erc20 coin g1 = Ret tt s' ∧ reg_ok (raw s') ∧
    raw s' !! GetDenomToERC20Key coin = None ∧ raw s' !! GetERC20ToDenomKey coin_erc20 = None.
Proof.
  apply (DeleteCosmosOriginatedMapping_keeps_registry g1 coin coin_erc20).
  - apply g1_registry.
  - evaluate.
Defined.

Lemma ClassifyERC20_then_ClassifyDenom_witness : ClassifyDenom denom g1 = Ret origin g1.
Proof.
  apply (ClassifyERC20_then_ClassifyDenom g1 g1 token origin).
  - apply g1_registry.
  - apply token_ok'.
  - evaluate.
Defined.

Lemma ClassifyDenom_then_ClassifyERC20_witness : ∃ a, ClassifyERC20 a g1 = Ret origin g1.
Proof.
  destruct (ClassifyDenom_then_ClassifyERC20 g1 g1 denom origin) as (_ & _ & a & Ha & _ & _ & He).
  - apply g1_registry.
  - evaluate.
  - exists a. injection Ha as <-. apply He.
    + done.
    + evaluate.
    + done.
Defined.

(** ** Validator sets *)

Lemma GetCurrentValset_powers_witness :
  4294967296 - 3 ≤ sumZ bv_Power (vs_Members valset1) ≤ 4294967296.
Proof.
  apply (GetCurrentValset_powers genesis valset1 genesis). apply valset1_current.
Defined.

Definition checkpoint1 : bytes := default [] (Valset_GetCheckpoint (p_GravityId params) valset1).

Lemma checkpoint1_made : Valset_GetCheckpoint (p_GravityId params) valset1 = Some checkpoint1.
Proof. apply (some_default (Valset_GetCheckpoint (p_GravityId params) valset1)). evaluate. Qed.

Lemma SetValsetRequest_spec_witness :
  SetValsetRequest genesis = Ret valset1 (requested valset1 checkpoint1 genesis).
Proof.
  apply (SetValsetRequest_spec genesis 0 params valset1 checkpoint1).
  - split_and!; [evaluate|done|done].
  - done.
  - done.
  - apply params_valid.
  - apply valset1_current.
  - apply checkpoint1_made.
Defined.

(** ** Deposits *)

Lemma handleSendToCosmos_conserves_witness :
  supply (run (handleSendToCosmos (deposit 0 1)) genesis) denom = 1500 + 50 ∧
  ∃ black s1, delivered (deposit 0 1) black (mkCoin denom 50) s1 (run (handleSendToCosmos (deposit 0 1)) genesis).
Proof.
  destruct (handleSendToCosmos_conserves (deposit 0 1) token (eth 51) genesis
              (run (handleSendToCosmos (deposit 0 1)) genesis)) as (o & black & s1 & Ho & _ & _ & Hd & Hs & _).
  - evaluate.
  - evaluate.
  - apply run_result. evaluate.
  - assert (ClassifyERC20 token genesis = Ret origin genesis) as E by evaluate.
    rewrite E in Ho. injection Ho as <-. split; [etrans; [apply (Hs denom)|]; evaluate|].
    exists black, s1. exact Hd.
Defined.

(** A deposit whose sender is not an address. *)
Definition bad_deposit : MsgSendToCosmosClaim :=
  mkSendToCosmos 1 101 (Hex (GetAddress token)) 50 "somebody" (AccAddressString alice)
    (AccAddressString (orchestrator 0)).

Lemma handleSendToCosmos_invalid_sender_witness : handleSendToCosmos bad_deposit genesis = Ret tt genesis.
Proof.
  apply (handleSendToCosmos_invalid_sender bad_deposit token (ErrSdk "invalid hex") genesis).
  - evaluate.
  - evaluate.
Defined.

(** ** The end of a block *)

Lemma cleanupTimedOutBatches_spec_witness :
  ∃ s', cleanupTimedOutBatches s5 = Ret tt s' ∧
    transfers s' ≡ₚ transfers s5 ∧ transfers_ok s' ∧ st_world s' = st_world s5 ∧
    ∀ b, b ∈ batch_list (kv_batches (st_kv s')) ↔
         b ∈ batch_list (kv_batches (st_kv s5)) ∧ eth_height s5 ≤ ib_BatchTimeout b.
Proof.
  apply (cleanupTimedOutBatches_spec s5).
  - apply s5_ok.
  - apply s5_ok.
Defined.

Lemma slashing_once_witness :
  slashed r3 = [operator 2; operator 1] ∧
  ∃ new, slashed r3 = slashed r2 ++ new ∧ NoDup new ∧
    Forall (λ c, free id (st_world r2) c ∧ jailed id (st_world r3) c) new.
Proof.
  split; [evaluate|]. apply (slashing_once id r2 r3). apply r3_run.
Defined.

Lemma batchSlashing_halts_witness : ∃ msg, batchSlashing params b3 = Panic msg.
Proof.
  apply (batchSlashing_halts params b3 0 batch1 batch3).
  - apply b3_ok.
  - evaluate.
  - done.
  - rewrite b3_batches. repeat constructor; done.
  - rewrite b3_batches. right. by left.
  - rewrite b3_batches. by left.
  - reflexivity.
  - done.
  - done.
  - decided.
Defined.

(** ** Forwards over IBC *)

Lemma ProcessNextPendingIbcAutoForward_conserves_witness :
  ProcessNextPendingIbcAutoForward f1 = Ret false f2 ∧ ∀ d, mod_balance f2 d - forwards f2 d = mod_balance f1 d - forwards f1 d.
Proof.
  assert (∀ k f a, kv_forwards (st_kv f1) !! k = Some f →
    IBCAddressFromBech32 (pf_ForeignReceiver f) = Ok a → a ≠ GetModuleAddress ModuleName) as Hrec.
  { intros k f a. replace (kv_forwards (st_kv f1)) with ({[forward_key forward1 := forward1]} : gmap bytes PendingIbcAutoForward) by evaluate.
    intros [<- <-]%lookup_singleton_Some.
    replace (IBCAddressFromBech32 _) with (Ok (addr 170)) by evaluate. by intros [= <-]. }
  destruct (ProcessNextPendingIbcAutoForward_conserves f1 f2 false f1_queue f2_run Hrec)
    as [[? _]|(_ & _ & Hd & _)]; [done|split; [apply f2_run|exact Hd]].
Defined.

(** ** Validator set requests follow the powers *)

Lemma createValsets_tracks_witness :
  ∃ s', createValsets genesis = Ret tt s' ∧
    s' = (if valset_needed genesis 0 valset1 then requested valset1 checkpoint1 genesis else genesis) ∧
    ∃ latest, GetLatestValset s' = Ret (Some latest) s' ∧ drifted valset1 latest = false.
Proof.
  apply (createValsets_tracks genesis 0 params valset1 checkpoint1).
  - split_and!; [evaluate|done|done].
  - done.
  - done.
  - apply params_valid.
  - replace (raw genesis !! LastUnBondingBlockHeight) with (None : option bytes) by evaluate. done.
  - apply valset1_current.
  - apply checkpoint1_made.
  - intros latest. by replace (kv_valsets (st_kv genesis) !! _) with (None : option Valset) by evaluate.
Defined.

(** ** Keys, claims and denoms *)

Lemma prefix_iteration_witness :
  length (iter_asc (raw genesis) (prefixRange KeyOrchestratorAddress)) = 3%nat ∧
  ∀ k v, (k, v) ∈ iter_asc (raw genesis) (prefixRange KeyOrchestratorAddress) ↔
         raw genesis !! k = Some v ∧ KeyOrchestratorAddress `prefix_of` k.
Proof.
  split; [evaluate|]. apply (prefix_iteration (raw genesis) KeyOrchestratorAddress).
  - done.
  - unfold bytes_ok, byte_ok. decided.
  - unfold bytes_ok, byte_ok. apply (map_Forall_to_list (λ k _, _)). decided.
Defined.

Lemma GetUnbatchedTransactionsByContract_spec_witness :
  ∃ l, GetUnbatchedTransactionsByContract token s2 = Ret l s2 ∧ NoDup l ∧
    (∀ t, t ∈ l ↔ t ∈ pool_txs (kv_pool (st_kv s2)) ∧ it_Contract (tx_Erc20Fee t) = token) ∧
    StronglySorted (λ t1 t2, it_Amount (tx_Erc20Fee t2) ≤ it_Amount (tx_Erc20Fee t1)) l.
Proof.
  apply (GetUnbatchedTransactionsByContract_spec s2 token).
  - apply s2_ok.
  - apply token_ok'.
Defined.

Lemma claim_hash_reproducible_witness : ComputeClaimHash CLAIM_TYPE_SEND_TO_COSMOS comps1 = Ok hash1.
Proof.
  rewrite (claim_hash_reproducible (report 0 1) comps1 : _ → _ → ComputeClaimHash CLAIM_TYPE_SEND_TO_COSMOS comps1 = _).
  - evaluate.
  - decided.
  - evaluate.
Defined.

Definition two_members : list InternalBridgeValidator :=
  [mkInternalBridgeValidator 10 (eth 81); mkInternalBridgeValidator 20 (eth 80)].

Lemma Sort_deterministic_witness : Sort two_members = Sort (reverse two_members).
Proof.
  apply (Sort_deterministic two_members (reverse two_members)).
  - repeat constructor; decided.
  - by rewrite reverse_Permutation.
Defined.

Lemma denom_roundtrip_witness :
  GravityDenomToERC20 (GravityDenom token) = Ok token ∧ Gravity2DenomToERC20 (Gravity2Denom token) = Ok token.
Proof.
  destruct (denom_roundtrip token) as (H1 & H2 & _).
  - apply token_ok'.
  - by split.
Defined.

Lemma checkpoint_recorded_witness :
  ∃ s', SetPastEthSignatureCheckpoint [1; 2] genesis = Ret tt s' ∧
    GetPastEthSignatureCheckpoint [1; 3] s' = Ret false s'.
Proof.
  destruct (checkpoint_recorded genesis [1; 2] [1; 3]) as (s' & Hs & Hg).
  - unfold bytes_ok, byte_ok. decided.
  - unfold bytes_ok, byte_ok. decided.
  - exists s'. split; [exact Hs|]. rewrite Hg. rewrite decide_False by done. reflexivity.
Defined.

(** * The theorems about the message server at work

    The theorems about messages, evidence, parameters, governance, audits and
    genesis, applied to the concrete chain of [ServerScenario]. *)

(** ** Messages *)


(** A confirmation of a logic call that does not exist. *)
Definition phantom_call : MsgConfirmLogicCall :=
  mkMsgConfirmLogicCall "07" 3 (Hex (addr 80)) (AccAddressString (orchestrator 0)) (signature 0).

Lemma phantom_authentic (cp : bytes) : authentic s5 (ConfirmCall phantom_call) (orchestrator 0) cp.
Proof.
  exists (operator 0), (validator 0), (operator 0), (addr 80), (eth 80),
    (replicate 20 80 ++ replicate 44 0 ++ [27]), (eth 80).
  split_and!; try evaluate. left. evaluate.
Qed.

Lemma confirms_authentic_witness :
  accepted s5 confirmed confirm_msg ∧ is_Some (result (handle_confirm (ConfirmCall phantom_call)) s5).
Proof.
  split.
  - pose proof (proj1 (confirms_authentic confirm_msg s5)) as Ha. rewrite confirm_msg_run in Ha. exact Ha.
  - destruct (OutgoingLogicCall_GetCheckpoint (p_GravityId params) zero_call) as [cp|] eqn:Ecp.
    2:{ exfalso. assert (is_Some (OutgoingLogicCall_GetCheckpoint (p_GravityId params) zero_call)) as [? E]
          by (apply (bool_decide_unpack _); vm_compute; exact I).
        rewrite E in Ecp. discriminate Ecp. }
    destruct (GetLogicConfirmKey [7] 3 (orchestrator 0)) as [k|] eqn:Ek.
    2:{ exfalso. assert (is_Some (GetLogicConfirmKey [7] 3 (orchestrator 0))) as [? E]
          by (apply (bool_decide_unpack _); vm_compute; exact I).
        rewrite E in Ek. discriminate Ek. }
    unfold result.
    rewrite (proj2 (confirms_authentic (ConfirmCall phantom_call) s5) phantom_call params [7] (orchestrator 0) k cp);
      [by eexists|reflexivity|evaluate|reflexivity|evaluate|evaluate|exact Ecp|evaluate|apply phantom_authentic|exact Ek|].
    assert (kv_logicConfirms (st_kv s5) = ∅) as -> by evaluate. apply lookup_empty.
Defined.

Lemma SetOrchestratorAddress_spec_witness :
  ∃ val orch e, delegation_request delegate_msg bare val orch e ∧ fresh (raw bare) val orch e ∧
    SetOrchestratorAddress delegate_msg bare = Ret tt (set_delegation val orch e bare) ∧
    delegates_ok (raw (set_delegation val orch e bare)).
Proof.
  destruct (SetOrchestratorAddress_spec delegate_msg bare bare_delegates) as [Hyes|(err & E & _)];
    [exact Hyes|].
  exfalso. assert (result (SetOrchestratorAddress delegate_msg) bare = Some tt) as R by evaluate.
  unfold result in R. rewrite E in R. discriminate R.
Defined.

Lemma claims_from_bonded_witness :
  oracle_ok claimed ∧ ∃ op, bonded_operator genesis (GetOrchestrator (report 0 1)) op ∧
    GetEventNonce (report 0 1) = u64 (effective_vote genesis op + 1) ∧
    last_vote claimed op = Some (GetEventNonce (report 0 1)).
Proof.
  apply (claims_from_bonded genesis claimed params (report 0 1)).
  - apply genesis_oracle_ok.
  - reflexivity.
  - done.
  - done.
  - apply claimed_run.
Defined.

Lemma halted_refuses_witness : serve (BridgeSend send_msg) halted = Fail ErrInvalid halted.
Proof. eapply halted_refuses; reflexivity. Defined.

(** ** Evidence *)

Lemma SubmitBadSignatureEvidence_spec_witness :
  ∃ cp, Signed_GetCheckpoint (p_GravityId params) (SignedBatch forged) = Some cp ∧
    ¬ checkpoint_known indexed cp ∧ punished params cp (signature 0) indexed after_evidence.
Proof.
  apply (SubmitBadSignatureEvidence_spec indexed params (evidence 0 7) (SignedBatch forged)).
  - reflexivity.
  - reflexivity.
  - apply evidence_run.
Defined.

Lemma honest_signers_safe_witness :
  SubmitBadSignatureEvidence (evidence 0 2) s5 = Fail ErrInvalid s5.
Proof.
  apply (honest_signers_safe s4 s5 s5 params token 1 batch2 (evidence 0 2)
           (SignedBatch (InternalOutgoingTxBatch_ToExternal batch2))).
  - apply s4_ok.
  - evaluate.
  - apply token_ok'.
  - done.
  - replace (raw s4 !! KeyLastOutgoingBatchID) with (Some (UInt64Bytes 1)) by evaluate.
    by apply not_last.
  - apply s5_run.
  - apply rtc_refl.
  - reflexivity.
  - evaluate.
Defined.

(** ** Governance *)

Lemma UpdateParamsProposal_spec_witness :
  ∃ p', updateParams params (up_ParamUpdates params_msg) = Ok p' ∧ params_typed p' ∧ params_sound p' ∧
    run (UpdateParamsProposal "gov" params_msg) genesis = upd_kv (upd_params (λ _, Some p')) genesis.
Proof.
  pose proof (UpdateParamsProposal_spec genesis params "gov" params_msg eq_refl params_in_width) as Hp.
  assert (UpdateParamsProposal "gov" params_msg genesis =
    Ret tt (run (UpdateParamsProposal "gov" params_msg) genesis)) as E
    by (apply (run_result (UpdateParamsProposal "gov" params_msg) genesis); evaluate).
  rewrite E in Hp. exact (proj2 Hp).
Defined.


Lemma HandleSetCosmosBridgeableTokensProposal_spec_witness :
  tokens_listed [graviton] native listing ∧ (tokens_ok native → tokens_ok listing).
Proof.
  apply (HandleSetCosmosBridgeableTokensProposal_spec native listing list_proposal).
  apply listing_run.
Defined.

Lemma HandleAirdropProposal_spec_witness :
  GetSupply (st_world dropped) "ugraviton" = GetSupply (st_world native) "ugraviton" ∧
  st_kv dropped = st_kv native.
Proof.
  destruct (HandleAirdropProposal_spec native dropped airdrop airdrop_run) as (_ & _ & Hs & _ & Hk).
  split; [exact Hs|exact Hk].
Defined.

(** ** Audits and genesis *)

Lemma ModuleBalanceInvariant_exact_witness :
  GetBalance (st_world s5) module_address (asset_denom (raw s5) token) =
  locked s5 token + pending s5 (asset_denom (raw s5) token).
Proof.
  apply (ModuleBalanceInvariant_exact s5 (run ModuleBalanceInvariant s5) token).
  - apply s5_ok.
  - apply s5_ok.
  - apply audit_run.
  - apply token_ok'.
  - evaluate.
  - assert (GetBalance (st_world s5) module_address (asset_denom (raw s5) token) = 194) as -> by evaluate.
    done.
Defined.

Lemma genesis_transfers_roundtrip_witness :
  ∃ s', InitGenesis exported blank = Ret tt s' ∧ transfers s' = transfers bare1.
Proof.
  assert (transfers_ok bare1) as Hok by apply bare1_ok.
  pose proof (genesis_transfers_roundtrip bare1 exported (run ExportGenesis bare1) blank Hok export_run
                eq_refl eq_refl) as Hr.
  pose proof import_run as Hrun. revert Hr Hrun.
  generalize (InitGenesis exported blank). generalize (InitGenesis (without_transfers exported) blank).
  generalize imported. intros i [u t|e t|msg] o Hr Hrun; [|by destruct (Hr i)..].
  destruct Hr as [E Ht]. eexists. split; [exact E|exact Ht].
Defined.

Lemma InitGenesis_no_delegates_witness : gs_DelegateKeys exported = [].
Proof. apply (InitGenesis_no_delegates exported blank imported). apply import_run. Defined.
