(* ===== verification/Coins.v ===== *)
(** * sdk.Coins

    A valid [sdk.Coins] is sorted by denom without repetitions, and its amounts are
    positive.  The operations on it are the SDK's: an interface with the behaviour
    that is documented for valid arguments.  Two valid lists with the same amounts
    are equal ([coins_ext]). *)

From stdpp Require Import base gmap list strings sorting.
From S2P Require Import Prelude GoStd External.

#[local] Open Scope Z_scope.

Definition denom_lt (c c' : Coin) : Prop :=
  bytes_lt (bytes_of_string (Denom c)) (bytes_of_string (Denom c')).

Record coins_ok `{Sdk} (cs : list Coin) : Prop := {
  cok_sorted : StronglySorted denom_lt cs;
  cok_coins : Forall (λ c, 0 < Amount c ∧ ValidateDenom (Denom c) = true) cs;
}.

(** [None] is a panic. *)
Class CoinsApi := {
  Coins_AmountOf : list Coin → string → option Z;
  Coins_Add : list Coin → list Coin → option (list Coin);
  Coins_Sub : list Coin → list Coin → option (list Coin);
  Coins_Equal : list Coin → list Coin → bool;
  Coins_IsZero : list Coin → bool;
}.

Class CoinsLaws `{Sdk} `{CoinsApi} := {
  coins_amount_of cs d :
    coins_ok cs → ValidateDenom d = true → Coins_AmountOf cs d = Some (amount_of d cs);
  (** A zero coin is dropped. *)
  coins_add a c :
    coins_ok a → 0 ≤ Amount c → ValidateDenom (Denom c) = true →
    amount_of (Denom c) a + Amount c < 2 ^ 256 →
    ∃ b, Coins_Add a [c] = Some b ∧ coins_ok b ∧ ∀ d, amount_of d b = amount_of d a + amount_of d [c];
  coins_sub a b :
    coins_ok a → coins_ok b → (∀ d, amount_of d b ≤ amount_of d a) →
    ∃ c, Coins_Sub a b = Some c ∧ coins_ok c ∧ ∀ d, amount_of d c = amount_of d a - amount_of d b;
  coins_equal a b : coins_ok a → coins_ok b → Coins_Equal a b = bool_decide (a = b);
  coins_is_zero a : coins_ok a → Coins_IsZero a = bool_decide (a = []);
}.

Section CoinsFacts.
Context `{Sdk}.

Lemma coins_ok_nil : coins_ok [].
Proof. split; constructor. Qed.

Lemma coins_ok_one c : 0 < Amount c → ValidateDenom (Denom c) = true → coins_ok [c].
Proof. intros. split; repeat constructor; done. Qed.

Lemma coins_ok_cons c cs :
  coins_ok (c :: cs) → coins_ok cs ∧ Forall (denom_lt c) cs ∧ 0 < Amount c ∧ ValidateDenom (Denom c) = true.
Proof. intros [[Hs Hlt]%StronglySorted_inv [[Hc Hv] Hcs]%Forall_cons]. by repeat split. Qed.

Lemma amount_of_cons d c cs :
  amount_of d (c :: cs) = (if decide (Denom c = d) then Amount c else 0) + amount_of d cs.
Proof. done. Qed.

Lemma denom_lt_irrefl c c' : denom_lt c c' → Denom c ≠ Denom c'.
Proof. unfold denom_lt. intros Hlt E. rewrite E in Hlt. by apply bytes_lt_irrefl in Hlt. Qed.

Lemma amount_of_absent d cs : Forall (λ c, Denom c ≠ d) cs → amount_of d cs = 0.
Proof.
  induction 1 as [|c cs Hc _ IH]; [done|]. rewrite amount_of_cons, decide_False by done. lia.
Qed.

Lemma amount_of_nonneg d cs : coins_ok cs → 0 ≤ amount_of d cs.
Proof.
  intros [_ Hc]. apply sumZ_nonneg. eapply Forall_impl; [exact Hc|]. intros c [? _]. case_decide; lia.
Qed.

Lemma amount_of_head c cs : coins_ok (c :: cs) → amount_of (Denom c) (c :: cs) = Amount c.
Proof.
  intros (_ & Hlt & _)%coins_ok_cons. rewrite amount_of_cons, decide_True by done.
  rewrite amount_of_absent; [lia|]. eapply Forall_impl; [exact Hlt|]. intros c' ?%denom_lt_irrefl. done.
Qed.

Lemma amount_of_elem c cs : coins_ok cs → c ∈ cs → amount_of (Denom c) cs = Amount c.
Proof.
  intros Hok Hin. induction cs as [|c' cs IH]; [by apply not_elem_of_nil in Hin|].
  apply elem_of_cons in Hin as [->|Hin]; [by apply amount_of_head|].
  apply coins_ok_cons in Hok as (Hok & Hlt & _). rewrite amount_of_cons, decide_False; [by apply IH|].
  rewrite Forall_forall in Hlt. by apply denom_lt_irrefl, Hlt.
Qed.

Lemma amount_of_pos d cs : coins_ok cs → 0 < amount_of d cs → ∃ x, mkCoin d x ∈ cs.
Proof.
  intros Hok Hpos. destruct (decide (Exists (λ c, Denom c = d) cs)) as [He|Hn].
  - apply Exists_exists in He as ([d' x] & Hin & <-). by exists x.
  - rewrite amount_of_absent in Hpos; [lia|]. by apply not_Exists_Forall in Hn; [|apply _].
Qed.

(** A coin of one list is in every list with the same amounts. *)
Lemma coins_transfer a b c :
  coins_ok a → coins_ok b → (∀ d, amount_of d a = amount_of d b) → c ∈ a → c ∈ b.
Proof.
  intros Ha Hb E Hin. pose proof (amount_of_elem _ _ Ha Hin) as Hc.
  destruct Ha as [_ Hpos]. rewrite Forall_forall in Hpos. destruct (Hpos _ Hin) as [Hp _].
  rewrite E in Hc. destruct (amount_of_pos (Denom c) b) as [x Hx]; [done|lia|].
  pose proof (amount_of_elem _ _ Hb Hx) as Hx'. cbn in Hx'. rewrite Hc in Hx'. subst x.
  by destruct c.
Qed.

#[local] Instance denom_lt_trans : Transitive denom_lt.
Proof. intros x y z. unfold denom_lt. apply transitivity. Qed.

Lemma coins_NoDup cs : coins_ok cs → NoDup cs.
Proof.
  induction cs as [|c cs IH]; [constructor|]. intros (Hok & Hlt & _)%coins_ok_cons.
  constructor; [|by apply IH]. intros Hin. rewrite Forall_forall in Hlt.
  by apply (denom_lt_irrefl c c); [apply Hlt|].
Qed.

Lemma coins_ext a b : coins_ok a → coins_ok b → (∀ d, amount_of d a = amount_of d b) → a = b.
Proof.
  intros Ha Hb E. apply (StronglySorted_unique_strong denom_lt); [|apply Ha|apply Hb|].
  - intros c c' _ _ H1 H2. exfalso. apply (denom_lt_irrefl c c); [by etrans|done].
  - apply NoDup_Permutation; [by apply coins_NoDup..|].
    intros c. split; apply coins_transfer; done.
Qed.

Lemma coins_denoms_NoDup cs : coins_ok cs → NoDup (Denom <$> cs).
Proof.
  induction cs as [|c cs IH]; [constructor|]. intros (Hok & Hlt & _)%coins_ok_cons. cbn.
  constructor; [|by apply IH]. intros (c' & E & Hin)%list_elem_of_fmap. rewrite Forall_forall in Hlt.
  by apply (denom_lt_irrefl c c'); [apply Hlt|].
Qed.

Lemma coin_valid c cs : coins_ok cs → c ∈ cs → Coin_IsValid c = true ∧ 0 < Amount c.
Proof.
  intros [_ Hf] Hin. rewrite Forall_forall in Hf. destruct (Hf c Hin) as [Hp Hd].
  unfold Coin_IsValid. rewrite Hd. split; [|done]. apply Z.leb_le. lia.
Qed.
End CoinsFacts.
