(* ===== verification/Auction.v ===== *)
(** * The auction module: types and keeper (x/auction/types, x/auction/keeper)

    The module sells what the auction pool collects.  A period's auctions are in
    the store under [GetAuctionKey]; the tokens on sale and the highest bids are in
    the module's account, what will be sold next in the pool's account.  The store
    has four kinds of objects, here one field each; the auctions keep their byte
    keys, which iteration depends on. *)

From stdpp Require Import base gmap list strings.
From S2P Require Import Prelude GoStd Config External Store.

#[local] Open Scope Z_scope.

(** ** Keys (types/keys.go) *)

Definition ModuleName : string := "auction".
Definition KeyParams : bytes := bytes_of_string "KeyParams".
Definition KeyAuctionPeriod : bytes := bytes_of_string "KeyAuctionPeriod".
Definition KeyAuction : bytes := bytes_of_string "KeyAuctions".
Definition KeyAuctionNonce : bytes := bytes_of_string "KeyAuctionNonce".

Definition UInt64Bytes (n : Z) : bytes := be_bytes 8 n.
Definition GetAuctionKey (id : Z) : bytes := KeyAuction ++ UInt64Bytes id.

(** x/distribution *)
Definition DistrModuleName : string := "distribution".

(** ** Errors (types/errors.go) *)

Definition ErrInvalidAuctionPeriod : gerror := ErrSdk "Invalid Auction Period".
Definition ErrAuctionNotFound : gerror := ErrSdk "Auction not found".
Definition ErrInvalidAuction : gerror := ErrSdk "Invalid Auction".
Definition ErrInvalidBid : gerror := ErrSdk "Invalid bid".
Definition ErrBidTooLow : gerror := ErrSdk "Bid amount too low".
Definition ErrInvalidParams : gerror := ErrSdk "Invalid Params".
Definition ErrDuplicateAuction : gerror := ErrSdk "Duplicate Auction".
Definition ErrDisabledModule : gerror := ErrSdk "Auction Module is not currently enabled".
Definition ErrParamsNotFound : gerror := ErrSdk "Auction Params not found".

(** ** Objects *)

Record AuctionPeriod := mkAuctionPeriod { ap_StartBlockHeight : Z; ap_EndBlockHeight : Z }.
Record Bid := mkBid { bid_BidAmount : Z; bid_BidderAddress : string }.
Record Auction := mkAuction { au_Id : Z; au_Amount : Coin; au_HighestBid : option Bid }.
Record Params := mkParams {
  pa_AuctionLength : Z; pa_MinBidFee : Z; pa_NonAuctionableTokens : list string;
  pa_BurnWinningBids : bool; pa_Enabled : bool }.

(** ** Events (types/events.go)

    A value of an attribute is the text of a number, a string or an address. *)
Inductive EventValue := EvInt (n : Z) | EvString (s : string) | EvAddress (a : bytes).
Record Event := mkEvent { ev_Type : string; ev_Attributes : list (string * EventValue) }.

Definition NewEventPeriodStart (startHeight endHeight : Z) : Event :=
  mkEvent "auction_period_start" [("start_height", EvInt startHeight); ("end_height", EvInt endHeight)].

Definition NewEventAuction (id : Z) (auctionDenom : string) (auctionAmount : Z) : Event :=
  mkEvent "auction" [("id", EvInt id); ("denom", EvString auctionDenom); ("amount", EvInt auctionAmount)].

Definition NewEventNewHighestBidder (auctionId bidAmount : Z) (oldBidder : string) : Event :=
  mkEvent "new_highest_bidder"
    [("auction_id", EvInt auctionId); ("bid_amount", EvInt bidAmount); ("old_bidder", EvString oldBidder)].

(** The values of the last two attributes are exchanged, as they are in the code. *)
Definition NewEventAuctionAward (auctionId bidAmount : Z) (bidder : bytes) (awardDenom : string)
    (awardAmount : Z) : Event :=
  mkEvent "auction_award"
    [("auction_id", EvInt auctionId); ("bid_amount", EvInt bidAmount); ("bidder", EvAddress bidder);
     ("award_amount", EvString awardDenom); ("award_denom", EvInt awardAmount)].

Definition NewEventAuctionFailure (auctionId : Z) (auctionDenom : string) (auctionAmount : Z) : Event :=
  mkEvent "auction_failure"
    [("id", EvInt auctionId); ("denom", EvString auctionDenom); ("amount", EvInt auctionAmount)].

Definition NewEventPeriodEnd (startHeight endHeight : Z) : Event :=
  mkEvent "auction_period_end" [("start_height", EvInt startHeight); ("end_height", EvInt endHeight)].

Definition NewAuction (id : Z) (amount : Coin) : Auction := mkAuction id amount None.

Definition isPositive (n : Z) : res unit :=
  if n <=? 0 then Er (ErrSdk "parameter must be positive") else Ok tt.
(** The type of the argument is all these validations look at. *)
Definition isNonNegative (_ : Z) : res unit := Ok tt.
Definition isBoolean (_ : bool) : res unit := Ok tt.

Definition AuctionPeriod_ValidateBasic (a : AuctionPeriod) : res unit :=
  if ap_EndBlockHeight a <=? ap_StartBlockHeight a then Er ErrInvalidAuctionPeriod else
  if ap_StartBlockHeight a =? 0 then Er ErrInvalidAuctionPeriod else Ok tt.

Section Validation.
Context `{Sdk}.

Definition Bid_ValidateBasic (b : Bid) : res unit :=
  if negb (is_ok (isPositive (bid_BidAmount b))) then Er ErrInvalidBid else
  if is_ok (AccAddressFromBech32 (bid_BidderAddress b)) then Ok tt else Er ErrInvalidBid.

Definition Auction_ValidateBasic (a : Auction) : res unit :=
  if negb (Coin_IsValid (au_Amount a)) then Er ErrInvalidAuction else
  match au_HighestBid a with
  | Some b => if is_ok (Bid_ValidateBasic b) then Ok tt else Er ErrInvalidAuction
  | None => Ok tt
  end.

Definition isValidDenom (s : string) : res unit :=
  if ValidateDenom s then Ok tt else Er (ErrSdk "parameter must be a valid denom").

(** The loop validates each denom and remembers whether one is the native token. *)
Fixpoint scan_denoms (denoms : list string) (found : bool) : res bool :=
  match denoms with
  | [] => Ok found
  | s :: denoms' =>
      if negb (is_ok (isValidDenom s)) then Er ErrInvalidParams else
      scan_denoms denoms' (if decide (s = NativeTokenDenom) then true else found)
  end.

Definition validNonAuctionableDenoms (denoms : list string) : res unit :=
  found ← scan_denoms denoms false;
  if (found : bool) then Ok tt else Er ErrInvalidParams.

Definition Params_ValidateBasic (p : Params) : res unit :=
  if negb (is_ok (isPositive (pa_AuctionLength p))) then Er ErrInvalidParams else
  if negb (is_ok (isNonNegative (pa_MinBidFee p))) then Er ErrInvalidParams else
  _ ← validNonAuctionableDenoms (pa_NonAuctionableTokens p);
  if negb (is_ok (isBoolean (pa_BurnWinningBids p))) then Er ErrInvalidParams else
  if negb (is_ok (isBoolean (pa_Enabled p))) then Er ErrInvalidParams else Ok tt.
End Validation.

Definition DefaultParams : Params := mkParams 85600 3110 ["ugraviton"] true true.

(** ** State *)

Record AState (W : Type) := mkAState {
  as_params : option Params; as_period : option AuctionPeriod; as_auctions : gmap bytes Auction;
  as_nonce : option Z; as_world : W; as_height : Z; as_events : list Event }.
Arguments mkAState {_} _ _ _ _ _ _ _.
Arguments as_params {_} _.
Arguments as_period {_} _.
Arguments as_auctions {_} _.
Arguments as_nonce {_} _.
Arguments as_world {_} _.
Arguments as_height {_} _.
Arguments as_events {_} _.

Notation A W := (M (AState W)).

Section StateUpdates.
Context {W : Type}.
Implicit Types s : AState W.

Definition set_params (p : Params) s : AState W :=
  mkAState (Some p) (as_period s) (as_auctions s) (as_nonce s) (as_world s) (as_height s) (as_events s).
Definition set_period (p : AuctionPeriod) s : AState W :=
  mkAState (as_params s) (Some p) (as_auctions s) (as_nonce s) (as_world s) (as_height s) (as_events s).
Definition set_auctions (f : gmap bytes Auction → gmap bytes Auction) s : AState W :=
  mkAState (as_params s) (as_period s) (f (as_auctions s)) (as_nonce s) (as_world s) (as_height s)
    (as_events s).
Definition set_nonce (n : Z) s : AState W :=
  mkAState (as_params s) (as_period s) (as_auctions s) (Some n) (as_world s) (as_height s) (as_events s).
Definition set_world (w : W) s : AState W :=
  mkAState (as_params s) (as_period s) (as_auctions s) (as_nonce s) w (as_height s) (as_events s).
Definition add_event (e : Event) s : AState W :=
  mkAState (as_params s) (as_period s) (as_auctions s) (as_nonce s) (as_world s) (as_height s)
    (as_events s ++ [e]).

Definition emit (e : Event) : A W unit := modify (add_event e).

(** A call of another module that may return an error. *)
Definition call (f : W → option gerror * W) : A W unit := λ s,
  match f (as_world s) with
  | (None, w) => Ret tt (set_world w s)
  | (Some e, w) => Fail e (set_world w s)
  end.

(** [uint64(ctx.BlockHeight())] *)
Definition block_height : A W Z := gets (λ s, u64 (as_height s)).

(** ** Parameters (keeper/keeper.go) *)

Definition GetParams : A W Params :=
  p ← gets as_params;
  match p with Some p => mret p | None => fail ErrParamsNotFound end.

Definition SetParams `{Sdk} (params : Params) : A W unit :=
  _ ← of_res (Params_ValidateBasic params);
  modify (set_params params).

Definition ModuleEnabled : A W bool :=
  params ← must "failed to get auction params" GetParams;
  mret (pa_Enabled params).

(** ** Auctions in the store (keeper/auction.go) *)

Definition auction_entries : A W (list (bytes * Auction)) :=
  gets (λ s, iter_asc (as_auctions s) (prefixRange KeyAuction)).

Definition IterateAuctions {B} (acc : B) (cb : bytes → Auction → B → A W (B * bool)) : A W B :=
  entries ← auction_entries;
  for_acc entries acc (λ kv acc, cb kv.1 kv.2 acc).

Definition GetAllAuctions : A W (list Auction) :=
  IterateAuctions [] (λ _ auction auctions, mret (auctions ++ [auction], false)).

Definition GetAuctionById (id : Z) : A W (option Auction) :=
  gets (λ s, as_auctions s !! GetAuctionKey id).

Definition GetAuctionByDenom (denom : string) : A W (option Auction) :=
  IterateAuctions None (λ _ auction found,
    if decide (Denom (au_Amount auction) = denom) then mret (Some auction, true)
    else mret (found, false)).

Definition GetAllAuctionsByBidder (bidder : string) : A W (list Auction) :=
  IterateAuctions [] (λ _ auction auctions,
    if decide (bid_BidderAddress <$> au_HighestBid auction = Some bidder)
    then mret (auctions ++ [auction], false) else mret (auctions, false)).

Definition UpdateAuction `{Sdk} (auction : Auction) : A W unit :=
  _ ← of_res (Auction_ValidateBasic auction);
  enabled ← ModuleEnabled;
  _ ← guard_err (negb enabled) ErrDisabledModule;
  previousAuction ← GetAuctionById (au_Id auction);
  match previousAuction with
  | None => fail ErrAuctionNotFound
  | Some previous =>
      _ ← guard_err (bool_decide (au_Amount previous ≠ au_Amount auction)) ErrInvalidAuction;
      modify (set_auctions (insert (GetAuctionKey (au_Id auction)) auction))
  end.

Definition UpdateHighestBidder `{Sdk} (auctionid : Z) (highestBidder : Bid) : A W unit :=
  auction ← GetAuctionById auctionid;
  match auction with
  | None => fail ErrAuctionNotFound
  | Some a => UpdateAuction (mkAuction (au_Id a) (au_Amount a) (Some highestBidder))
  end.

(** [types.AuctionId{Id: 0}] has an empty encoding. *)
Definition GetAuctionNonce : A W Z :=
  n ← gets as_nonce;
  match n with
  | None => mret 0
  | Some n => _ ← guard_panic (n =? 0) "Unexpected 0 length value in KeyAuctionNonce"; mret n
  end.

Definition GetNextAuctionId : A W Z := nonce ← GetAuctionNonce; mret (u64 (nonce + 1)).

Definition unsafeSetAuctionNonce (nonce : Z) : A W unit := modify (set_nonce nonce).

Definition IncrementAuctionNonce : A W Z :=
  nonce ← GetAuctionNonce;
  _ ← unsafeSetAuctionNonce (u64 (nonce + 1));
  mret nonce.

(** ** The period (keeper/auction_period.go) *)

(** A period whose heights are both zero has an empty encoding, which is read as
    no period. *)
Definition GetAuctionPeriod : A W (option AuctionPeriod) :=
  gets (λ s, p ← as_period s;
             if decide (ap_StartBlockHeight p = 0 ∧ ap_EndBlockHeight p = 0) then None else Some p).

Definition DeleteAllAuctions : A W unit :=
  enabled ← ModuleEnabled;
  _ ← guard_panic (negb enabled) "cannot delete auctions while the module is disabled";
  auctionPeriod ← GetAuctionPeriod;
  height ← block_height;
  _ ← guard_panic (match auctionPeriod with
                   | Some p => height <? ap_EndBlockHeight p | None => false end)
        "attempted to delete all auctions during active auction period";
  keys ← IterateAuctions [] (λ key _ keys, mret (keys ++ [key], false));
  for_each keys (λ k, modify (set_auctions (delete k))).

(** [uint64(ctx.BlockHeight()+1)] *)
Definition updateAuctionPeriodUnsafe (auctionPeriod : AuctionPeriod) : A W unit :=
  next ← gets (λ s, u64 (as_height s + 1));
  _ ← guard_panic (next <? ap_StartBlockHeight auctionPeriod)
        "cannot update auction end to start after the next block";
  height ← block_height;
  _ ← guard_panic (ap_EndBlockHeight auctionPeriod <? height)
        "cannot update auction end to be in the past";
  modify (set_period auctionPeriod).

Definition UpdateAuctionPeriod (auctionPeriod : AuctionPeriod) : A W unit :=
  enabled ← ModuleEnabled;
  _ ← guard_err (negb enabled) ErrDisabledModule;
  lastPeriod ← GetAuctionPeriod;
  height ← block_height;
  _ ← guard_err (match lastPeriod with
                 | Some p => height <? ap_EndBlockHeight p | None => false end)
        ErrInvalidAuctionPeriod;
  _ ← guard_err (match lastPeriod with
                 | Some p => (ap_StartBlockHeight auctionPeriod <? ap_EndBlockHeight p) ||
                             (ap_EndBlockHeight auctionPeriod <=? ap_EndBlockHeight p)
                 | None => false end)
        ErrInvalidAuctionPeriod;
  updateAuctionPeriodUnsafe auctionPeriod.

Definition initializeAuctionPeriodFromParams (startBlock : Z) (params : Params) : AuctionPeriod :=
  mkAuctionPeriod startBlock (u64 (startBlock + pa_AuctionLength params)).

Definition CreateNewAuctionPeriod : A W AuctionPeriod :=
  params ← GetParams;
  height ← block_height;
  let auctionPeriod := initializeAuctionPeriodFromParams (u64 (height + 1)) params in
  _ ← UpdateAuctionPeriod auctionPeriod;
  mret auctionPeriod.
End StateUpdates.

(** ** Tokens (keeper/keeper.go) *)

Section Tokens.
Context {W : Type} `{Sdk} `{Bank W} `{BankBalances W} `{Ibc W} `{Mint W}.

Definition GetAuctionPoolAccount : bytes := GetModuleAddress AuctionPoolAccountName.

Definition GetAuctionPoolBalances : A W (list Coin) :=
  gets (λ s, GetAllBalances (as_world s) GetAuctionPoolAccount).

Definition require_enabled : A W unit :=
  enabled ← ModuleEnabled; guard_err (negb enabled) ErrDisabledModule.

(** [sdk.NewCoins(coin)] panics on an invalid coin. *)
Definition new_coins (coin : Coin) : A W (list Coin) := opt_panic "NewCoins" (NewCoins1 coin).

Definition SendToAuctionPool (coins : list Coin) : A W unit :=
  _ ← require_enabled;
  call (SendCoinsFromModuleToModule ModuleName AuctionPoolAccountName coins).

Definition RemoveFromAuctionPool (coin : Coin) : A W unit :=
  _ ← guard_err (bool_decide (Denom coin = NativeTokenDenom)) ErrInvalidAuction;
  _ ← require_enabled;
  coins ← new_coins coin;
  call (SendCoinsFromModuleToModule AuctionPoolAccountName ModuleName coins).

Definition ReturnPreviousBidAmount (recipient : bytes) (amount : Coin) : A W unit :=
  _ ← require_enabled;
  coins ← new_coins amount;
  call (SendCoinsFromModuleToAccount ModuleName recipient coins).

Definition LockBidAmount (sender : bytes) (amount : Coin) : A W unit :=
  _ ← require_enabled;
  coins ← new_coins amount;
  call (SendCoinsFromAccountToModule sender ModuleName coins).

Definition AwardAuction (bidder : bytes) (amount : Coin) : A W unit :=
  _ ← require_enabled;
  coins ← new_coins amount;
  call (SendCoinsFromModuleToAccount ModuleName bidder coins).

Definition IsDenomAuctionable (denom : string) : A W bool :=
  mint ← gets (λ s, MintDenom (as_world s));
  mintDenom ← or_panic "failed to get mint params" mint;
  if decide (denom = mintDenom) then mret false else
  params ← must "failed to get auction params" GetParams;
  mret (bool_decide (denom ∉ pa_NonAuctionableTokens params)).

Definition sendFromModuleAccountToCommunityPool (coin : Coin) (moduleName : string) : A W unit :=
  coins ← new_coins coin;
  _ ← call (SendCoinsFromModuleToModule moduleName DistrModuleName coins);
  call (AddToFeePool coins).

Definition SendFromAuctionAccountToCommunityPool (coin : Coin) : A W unit :=
  sendFromModuleAccountToCommunityPool coin ModuleName.

Definition SendFromAuctionPoolToCommunityPool (coin : Coin) : A W unit :=
  sendFromModuleAccountToCommunityPool coin AuctionPoolAccountName.

(** ** Opening and closing auctions *)

Definition StoreAuction (auction : Auction) : A W unit :=
  _ ← of_res (Auction_ValidateBasic auction);
  expectedId ← GetNextAuctionId;
  _ ← guard_err (negb (au_Id auction =? expectedId)) ErrInvalidAuction;
  auctionable ← IsDenomAuctionable (Denom (au_Amount auction));
  _ ← guard_err (negb auctionable) ErrInvalidAuction;
  has ← gets (λ s, bool_decide (is_Some (as_auctions s !! GetAuctionKey (au_Id auction))));
  _ ← guard_err has ErrDuplicateAuction;
  _ ← modify (set_auctions (insert (GetAuctionKey (au_Id auction)) auction));
  _ ← IncrementAuctionNonce;
  mret tt.

(** One coin of the pool: to the community pool when it is not auctionable, on sale
    otherwise. *)
Definition create_auction (blacklist : list string) (poolCoin : Coin) : A W unit :=
  if decide (Denom poolCoin ∈ blacklist) then SendFromAuctionPoolToCommunityPool poolCoin else
  id ← GetNextAuctionId;
  _ ← RemoveFromAuctionPool poolCoin;
  _ ← StoreAuction (NewAuction id poolCoin);
  emit (NewEventAuction id (Denom poolCoin) (Amount poolCoin)).

Definition CreateAuctionsForAuctionPeriod : A W unit :=
  params ← GetParams;
  _ ← guard_err (negb (pa_Enabled params)) ErrDisabledModule;
  foundAuctions ← IterateAuctions false (λ _ _ _, mret (true, true));
  _ ← guard_err foundAuctions ErrInvalidAuction;
  found ← GetAuctionPeriod;
  period ← opt_panic "nil pointer dereference" found;
  nextBlock ← gets (λ s, u64 (as_height s + 1));
  _ ← guard_err (negb (ap_StartBlockHeight period =? nextBlock) ||
                 (ap_EndBlockHeight period <=? nextBlock)) ErrInvalidAuction;
  auctionPool ← GetAuctionPoolBalances;
  for_each auctionPool (create_auction (pa_NonAuctionableTokens params)).

Definition CloseAuctionWithWinner (auction_id : Z) : A W unit :=
  params ← GetParams;
  _ ← guard_err (negb (pa_Enabled params)) ErrDisabledModule;
  found ← GetAuctionById auction_id;
  match found with
  | None => fail ErrAuctionNotFound
  | Some auction =>
      highestBid ← opt_panic "unexpected unsuccessful auction" (au_HighestBid auction);
      mint ← gets (λ s, MintDenom (as_world s));
      bidToken ← or_panic "failed to get mint params" mint;
      highestBidCoin ← opt_panic "NewCoin" (NewCoin bidToken (bid_BidAmount highestBid));
      highestBidder ← or_panic "MustAccAddressFromBech32"
                        (AccAddressFromBech32 (bid_BidderAddress highestBid));
      _ ← (if pa_BurnWinningBids params then
             coins ← new_coins highestBidCoin; call (BurnCoins ModuleName coins)
           else SendFromAuctionAccountToCommunityPool highestBidCoin);
      _ ← AwardAuction highestBidder (au_Amount auction);
      emit (NewEventAuctionAward (au_Id auction) (bid_BidAmount highestBid) highestBidder
              (Denom (au_Amount auction)) (Amount (au_Amount auction)))
  end.

Definition CloseAuctionNoWinner (auction_id : Z) : A W unit :=
  _ ← require_enabled;
  found ← GetAuctionById auction_id;
  match found with
  | None => fail ErrAuctionNotFound
  | Some auction =>
      _ ← guard_panic (bool_decide (is_Some (au_HighestBid auction))) "unexpected successful auction";
      coins ← new_coins (au_Amount auction);
      _ ← SendToAuctionPool coins;
      emit (NewEventAuctionFailure (au_Id auction) (Denom (au_Amount auction)) (Amount (au_Amount auction)))
  end.
End Tokens.
