(* ===== verification/AuctionServer.v ===== *)
(** * The auction module's message server (x/auction/keeper/msg_server.go, types/msgs.go)

    Placing a bid, and the governance message that updates the parameters. *)

From stdpp Require Import base gmap list strings.
From S2P Require Import Prelude GoStd Config External Store Coins Auction.

#[local] Open Scope Z_scope.

Record MsgBid := mkMsgBid {
  mb_AuctionId : Z; mb_Bidder : string; mb_Amount : Z; mb_BidFee : Z }.

Definition MsgBid_ValidateBasic `{Sdk} (msg : MsgBid) : res unit :=
  if negb (is_ok (AccAddressFromBech32 (mb_Bidder msg))) then Er ErrInvalidBid else
  if mb_Amount msg =? 0 then Er ErrInvalidBid else Ok tt.

(** [None] is a panic. *)
Definition MsgBid_GetSigners `{Sdk} (msg : MsgBid) : option (list bytes) :=
  match AccAddressFromBech32 (mb_Bidder msg) with Ok acc => Some [acc] | Er _ => None end.

(** ** The assertions after a bid

    The highest bidder before this bid, if any: what it had of the native token
    before and after, and its bid. *)
Record OldBidder := mkOldBidder { ob_StartGrav : Coin; ob_EndGrav : Coin; ob_Bid : Coin }.

Section Bidding.
Context {W : Type} `{Sdk} `{Bank W} `{BankBalances W} `{Ibc W} `{Mint W} `{Accounts W}.

Definition coin_sub (a b : Coin) : A W Coin := opt_panic "Coin.Sub" (Coin_Sub a b).
Definition coin_add (a b : Coin) : A W Coin := opt_panic "Coin.Add" (Coin_Add a b).

Definition assertBalanceChanges (successfulBid : bool) (modStartGrav modEndGrav : Coin)
    (oldBidder : option OldBidder) (newBidderStartGrav newBidderEndGrav newBid bidFee : Coin)
    : A W unit :=
  if negb successfulBid then
    _ ← guard_panic (bool_decide (modStartGrav ≠ modEndGrav))
          "Unexpected module balance change with unsuccessful bid";
    _ ← match oldBidder with
        | Some o => guard_panic (bool_decide (ob_StartGrav o ≠ ob_EndGrav o))
                      "Unexpected old bidder balance change with unsuccessful bid"
        | None => mret tt
        end;
    guard_panic (bool_decide (newBidderStartGrav ≠ newBidderEndGrav))
      "Unexpected new bidder balance change with unsuccessful bid"
  else
    modDiff ← coin_sub modEndGrav modStartGrav;
    _ ← match oldBidder with
        | Some o =>
            oldBidderDiff ← coin_sub (ob_EndGrav o) (ob_StartGrav o);
            _ ← guard_panic (bool_decide (oldBidderDiff ≠ ob_Bid o))
                  "Expected old bidder to receive their locked Grav";
            outbidAmount ← coin_sub newBid (ob_Bid o);
            guard_panic (bool_decide (modDiff ≠ outbidAmount))
              "Expected module Grav balance to increase by (new bid - old bid)"
        | None => guard_panic (bool_decide (modDiff ≠ newBid))
                    "Expected module Grav balance to increase by new bid"
        end;
    newBidderDiff ← coin_sub newBidderStartGrav newBidderEndGrav;
    paid ← coin_add newBid bidFee;
    guard_panic (bool_decide (newBidderDiff ≠ paid))
      "Expected new bidder Grav balance to decrease by bid + fee amount".

(** [m.BankKeeper.GetBalance(ctx, addr, config.NativeTokenDenom)] *)
Definition grav_balance (addr : bytes) : A W Coin :=
  gets (λ s, mkCoin NativeTokenDenom (GetBalance (as_world s) addr NativeTokenDenom)).

(** The checks against the current highest bid, which give its bidder's account. *)
Definition check_highest_bid (msg : MsgBid) (highestBid : option Bid)
    : A W (option (Bid * bytes * Coin)) :=
  match highestBid with
  | None => mret None
  | Some highest =>
      _ ← guard_err (mb_Amount msg <? bid_BidAmount highest) ErrBidTooLow;
      _ ← guard_err (bool_decide (mb_Bidder msg = bid_BidderAddress highest)) ErrInvalidBid;
      oldBidderAcc ← or_panic "MustAccAddressFromBech32"
                       (AccAddressFromBech32 (bid_BidderAddress highest));
      oldBidderStartGrav ← grav_balance oldBidderAcc;
      mret (Some (highest, oldBidderAcc, oldBidderStartGrav))
  end.

(** Releases the old highest bid, and returns it. *)
Definition release_bid (bidToken : string) (old : option (Bid * bytes * Coin))
    : A W (option (bytes * Coin * Coin)) :=
  match old with
  | None => mret None
  | Some (highest, oldBidderAcc, startGrav) =>
      oldBid ← opt_panic "NewCoin" (NewCoin bidToken (bid_BidAmount highest));
      _ ← ReturnPreviousBidAmount oldBidderAcc oldBid;
      mret (Some (oldBidderAcc, startGrav, oldBid))
  end.

(** The payments and the record of a bid that passed the checks, and the deferred
    assertions.  The deferred function runs after the handler returned without an
    error, and by then the bid was successful.  It also runs when the handler panics,
    and that stays a panic. *)
Definition replace_bid (msg : MsgBid) (currentAuction : Auction) (bidToken : string)
    (old : option (Bid * bytes * Coin)) (newBidderAcc : bytes)
    (modStartGrav newBidderStartGrav bidFee transferToModule : Coin) (transferToStakers : list Coin)
    : A W unit :=
  _ ← call (DeductFees newBidderAcc transferToStakers);
  released ← release_bid bidToken old;
  _ ← LockBidAmount newBidderAcc transferToModule;
  _ ← UpdateHighestBidder (au_Id currentAuction) (mkBid (mb_Amount msg) (mb_Bidder msg));
  newBid ← opt_panic "NewCoin" (NewCoin NativeTokenDenom (mb_Amount msg));
  _ ← emit (NewEventNewHighestBidder (mb_AuctionId msg) (mb_Amount msg)
              (default "" (bid_BidderAddress <$> au_HighestBid currentAuction)));
  newBidderEndGrav ← grav_balance newBidderAcc;
  oldBidder ← match released with
              | None => mret None
              | Some (acc, startGrav, oldBid) =>
                  endGrav ← grav_balance acc;
                  mret (Some (mkOldBidder startGrav endGrav oldBid))
              end;
  modEndGrav ← grav_balance (GetModuleAddress ModuleName);
  assertBalanceChanges true modStartGrav modEndGrav oldBidder newBidderStartGrav
    newBidderEndGrav newBid bidFee.

Definition Bid_handler (msg : MsgBid) : A W unit :=
  modStartGrav ← grav_balance (GetModuleAddress ModuleName);
  params ← GetParams;
  _ ← guard_err (negb (pa_Enabled params)) ErrDisabledModule;
  mint ← gets (λ s, MintDenom (as_world s));
  bidToken ← of_res mint;
  newBidderAcc ← of_res (AccAddressFromBech32 (mb_Bidder msg));
  newBidderStartGrav ← grav_balance newBidderAcc;
  bidder ← gets (λ s, HasAccount (as_world s) newBidderAcc);
  _ ← guard_err (mb_BidFee msg <? pa_MinBidFee params) ErrInvalidBid;
  found ← GetAuctionById (mb_AuctionId msg);
  match found with
  | None => fail ErrAuctionNotFound
  | Some currentAuction =>
      _ ← guard_panic (bool_decide (Denom (au_Amount currentAuction) = bidToken))
            "Bid for auction of the native token";
      old ← check_highest_bid msg (au_HighestBid currentAuction);
      totalValue ← opt_panic "Int.Add" (Int_Add (mb_Amount msg) (mb_BidFee msg));
      bidderBalance ← gets (λ s, GetBalance (as_world s) newBidderAcc bidToken);
      _ ← guard_err (bidderBalance <? totalValue) (ErrSdk "ErrInsufficientFunds");
      bidFee ← opt_panic "NewCoin" (NewCoin bidToken (mb_BidFee msg));
      transferToStakers ← new_coins bidFee;
      transferToModule ← opt_panic "NewCoin" (NewCoin bidToken (mb_Amount msg));
      _ ← guard_panic (negb bidder) "nil pointer dereference";
      replace_bid msg currentAuction bidToken old newBidderAcc modStartGrav newBidderStartGrav
        bidFee transferToModule transferToStakers
  end.
End Bidding.

(** ** Updating parameters *)

Record MsgUpdateParamsProposal := mkMsgUpdateParamsProposal {
  up_Authority : string; up_ParamUpdates : list (string * string) }.

Definition ErrInvalidRequest : gerror := ErrSdk "ErrInvalidRequest".

(** A value that does not parse is an invalid request. *)
Definition parsed {X} (r : res X) (k : X → Params) : res Params :=
  match r with Ok x => Ok (k x) | Er _ => Er ErrInvalidRequest end.

Section Updates.
Context {W : Type} `{Sdk} `{TextFormats}.

Definition updateParam (p : Params) (key value : string) : res Params :=
  let '(mkParams auctionLength minBidFee nonAuctionableTokens burnWinningBids enabled) := p in
  if decide (key = "AuctionLength") then
    parsed (ParseUint value) (λ v, mkParams v minBidFee nonAuctionableTokens burnWinningBids enabled)
  else if decide (key = "MinBidFee") then
    parsed (ParseUint value) (λ v, mkParams auctionLength v nonAuctionableTokens burnWinningBids enabled)
  else if decide (key = "NonAuctionableTokens") then
    parsed (UnmarshalStrings value) (λ v, mkParams auctionLength minBidFee v burnWinningBids enabled)
  else if decide (key = "BurnWinningBids") then
    parsed (ParseBool value) (λ v, mkParams auctionLength minBidFee nonAuctionableTokens v enabled)
  else if decide (key = "Enabled") then
    parsed (ParseBool value) (λ v, mkParams auctionLength minBidFee nonAuctionableTokens burnWinningBids v)
  else Er (ErrSdk "ErrUnknownRequest").

Fixpoint updateParams (p : Params) (updates : list (string * string)) : res Params :=
  match updates with
  | [] => Ok p
  | (key, value) :: updates' => p' ← updateParam p key value; updateParams p' updates'
  end.

(** [authority] is the keeper's; [GetAuthority] panics when it is not set. *)
Definition UpdateParamsProposal (authority : string) (msg : MsgUpdateParamsProposal) : A W unit :=
  _ ← guard_panic (bool_decide (authority = "")) "authority is not set for auction keeper";
  _ ← guard_err (bool_decide (authority ≠ up_Authority msg)) (ErrSdk "ErrInvalidSigner");
  params ← GetParams;
  updatedParams ← of_res (updateParams params (up_ParamUpdates msg));
  SetParams updatedParams.
End Updates.

(** ** Queries (keeper/grpc_query.go) *)

Section AuctionQueries.
Context {W : Type} `{Sdk} `{BankBalances W}.

Definition Query_Params : A W Params := GetParams.
Definition Query_AllAuctionsByBidder (address : string) : A W (list Auction) := GetAllAuctionsByBidder address.
Definition Query_AuctionByDenom (auctionDenom : string) : A W (option Auction) := GetAuctionByDenom auctionDenom.
Definition Query_AuctionById (auctionId : Z) : A W (option Auction) := GetAuctionById auctionId.
Definition Query_AuctionPeriod : A W (option AuctionPeriod) := GetAuctionPeriod.
Definition Query_Auctions : A W (list Auction) := GetAllAuctions.

(** The account of the pool and its balances *)
Definition Query_AuctionPool : A W (string * list Coin) :=
  let account := AccAddressString GetAuctionPoolAccount in
  balances ← GetAuctionPoolBalances;
  mret (account, balances).
End AuctionQueries.

(** ** The migration of the parameters (keeper/migrations.go)

    The module's subspace of x/params, where reading a key that is absent panics. *)

Class AuctionSubspace (W : Type) := {
  as_uint64 : string → AState W → option Z;
  as_strings : string → AState W → option (list string);
  as_bool : string → AState W → option bool;
}.

Section AuctionMigration.
Context {W : Type} `{Sdk} `{AuctionSubspace W}.

Definition read_param {X} (key : string) (get : string → AState W → option X) : A W X :=
  v ← gets (get key); opt_panic "UnmarshalJSON" v.

(** [GetParamSet] with the pairs of [ParamSetPairs] of types/params.go *)
Definition GetParamSet : A W Params :=
  auctionLength ← read_param "AuctionLength" as_uint64;
  minBidFee ← read_param "MinBidFee" as_uint64;
  nonAuctionableTokens ← read_param "NonAuctionableTokens" as_strings;
  burnWinningBids ← read_param "BurnWinningBids" as_bool;
  enabled ← read_param "Enabled" as_bool;
  mret (mkParams auctionLength minBidFee nonAuctionableTokens burnWinningBids enabled).

Definition Migrate1to2 : A W unit :=
  params ← GetParamSet;
  SetParams params.

(** Unlike its counterpart of the bridge, the migration carries every parameter over: it succeeds exactly when x/params holds valid parameters, and then they are the module's. *)
Lemma Migrate1to2_spec s (p : Params) :
  as_uint64 "AuctionLength" s = Some (pa_AuctionLength p) →
  as_uint64 "MinBidFee" s = Some (pa_MinBidFee p) →
  as_strings "NonAuctionableTokens" s = Some (pa_NonAuctionableTokens p) →
  as_bool "BurnWinningBids" s = Some (pa_BurnWinningBids p) → as_bool "Enabled" s = Some (pa_Enabled p) →
  Migrate1to2 s = match Params_ValidateBasic p with Ok _ => Ret tt (set_params p s) | Er e => Fail e s end.
Proof.
  intros E1 E2 E3 E4 E5.
  unfold Migrate1to2, GetParamSet, read_param, SetParams, gets, modify, of_res, mbind, M_bind.
  rewrite E1. cbn. rewrite E2. cbn. rewrite E3. cbn. rewrite E4. cbn. rewrite E5. cbn. destruct p. cbn.
  by destruct (Params_ValidateBasic _).
Qed.
End AuctionMigration.
