(* ===== verification/AuctionBlock.v ===== *)
(** * The auction module's end blocker, invariants and genesis

    x/auction/abci.go closes the auctions of a period and opens the next one, and
    asserts that the balances and supplies moved as they should;
    x/auction/keeper/invariants.go are the runtime invariants,
    x/auction/keeper/genesis.go is import and export. *)

From stdpp Require Import base gmap list strings.
From S2P Require Import Prelude GoStd Config External Store Coins Auction.

#[local] Open Scope Z_scope.

(** [BankKeeper.IterateTotalSupply]: the coins it visits, in order *)
Class BankSupplies (W : Type) := { TotalSupply : W → list Coin }.

Section EndBlocker.
Context {W : Type} `{Sdk} `{Bank W} `{BankBalances W} `{BankSupplies W} `{Ibc W} `{Mint W} `{CoinsApi}.

Definition amount_in (cs : list Coin) (denom : string) : A W Z :=
  opt_panic "AmountOf" (Coins_AmountOf cs denom).

Definition all_balances_of (moduleName : string) : A W (list Coin) :=
  gets (λ s, GetAllBalances (as_world s) (GetModuleAddress moduleName)).

Definition getBankSupplies : A W (list Coin) :=
  supply ← gets (λ s, TotalSupply (as_world s));
  for_acc supply [] (λ c coins,
    coins' ← opt_panic "Coins.Add" (Coins_Add coins [c]); mret (coins', false)).

(** ** Assertions *)

Definition assertSupplyIntegrity (startSupplies endSupplies : list Coin) (periodEnded : bool)
    : A W unit :=
  if negb periodEnded then
    guard_panic (negb (Coins_Equal startSupplies endSupplies))
      "unexpected supply change during auction module EndBlocker (no auctions closed)"
  else
    params ← must "failed to get auction params" GetParams;
    difference ← opt_panic "Coins.Sub" (Coins_Sub startSupplies endSupplies);
    if negb (Coins_IsZero difference) then
      match difference with
      | [affectedToken] =>
          _ ← guard_panic (bool_decide (Denom affectedToken ≠ NativeTokenDenom))
                "auction close affected a token which is NOT the native token";
          guard_panic (negb (pa_BurnWinningBids params))
            "BurnWinningBids is false but the auction close affected native token supply"
      | _ => panic "auction close changed the supply of more than just the native token"
      end
    else mret tt.

(** The checks of one auction that closed; they return its winning bid. *)
Definition assert_closed (affectedAccs : gmap string (list Coin))
    (startModuleBalances startPoolBalances endModuleBalances : list Coin) (auction : Auction)
    : A W Z :=
  let denom := Denom (au_Amount auction) in
  startModAmount ← amount_in startModuleBalances denom;
  _ ← guard_panic (negb (startModAmount =? Amount (au_Amount auction)))
        "Expected auction module account to only hold the closing auction amount";
  endModAmount ← amount_in endModuleBalances denom;
  startPoolAmount ← amount_in startPoolBalances denom;
  match au_HighestBid auction with
  | Some highestBid =>
      let startBidderBals := default [] (affectedAccs !! bid_BidderAddress highestBid) in
      startBidderGrav ← amount_in startBidderBals NativeTokenDenom;
      bidder ← or_panic "MustAccAddressFromBech32"
                 (AccAddressFromBech32 (bid_BidderAddress highestBid));
      endBidderGrav ← gets (λ s, GetBalance (as_world s) bidder NativeTokenDenom);
      _ ← guard_panic (negb (endBidderGrav =? startBidderGrav)) "Unexpected change to bidder's GRAV";
      startAmount ← amount_in startBidderBals denom;
      startBidderAmount ← opt_panic "NewCoin" (NewCoin denom startAmount);
      endBidderAmount ← gets (λ s, mkCoin denom (GetBalance (as_world s) bidder denom));
      bidderAmountDiff ← opt_panic "Coin.Sub" (Coin_Sub endBidderAmount startBidderAmount);
      _ ← guard_panic (bool_decide (bidderAmountDiff ≠ au_Amount auction))
            "Bidder gained an unexpected amount by winning auction";
      _ ← guard_panic (negb (endModAmount =? startPoolAmount))
            "Expected auction module to receive auction pool balance";
      mret (bid_BidAmount highestBid)
  | None =>
      expectedModAmount ← opt_panic "Int.Add" (Int_Add startModAmount startPoolAmount);
      _ ← guard_panic (negb (endModAmount =? expectedModAmount))
            "Expected module account to add the pool balance to its own balance";
      mret 0
  end.

Definition assertBalanceChanges (periodEnded : bool) (auctions : list Auction)
    (affectedAccs : gmap string (list Coin))
    (startModuleBalances startPoolBalances endModuleBalances endPoolBalances : list Coin)
    : A W unit :=
  if negb periodEnded then
    _ ← guard_panic (negb (bool_decide (affectedAccs = ∅)))
          "No auctions closed but there were user accounts affected by the auction module";
    _ ← guard_panic (negb (Coins_Equal startModuleBalances endModuleBalances))
          "No auctions closed but the module balance changed during EndBlocker";
    guard_panic (negb (Coins_Equal startPoolBalances endPoolBalances))
      "No auctions closed but the pool balance changed during EndBlocker"
  else
    bidAmounts ← for_acc auctions 0 (λ auction bidAmounts,
      bid ← assert_closed affectedAccs startModuleBalances startPoolBalances endModuleBalances auction;
      total ← opt_panic "Int.Add" (Int_Add bidAmounts bid);
      mret (total, false));
    _ ← guard_panic (negb (Coins_IsZero endPoolBalances))
          "Expected auction pool to lose all balances at the end of EndBlocker";
    startModGrav ← amount_in startModuleBalances NativeTokenDenom;
    endModGrav ← amount_in endModuleBalances NativeTokenDenom;
    _ ← guard_panic (negb (endModGrav =? 0))
          "Expected module to lose its balance of Grav after auctions close";
    _ ← guard_panic (negb (startModGrav =? bidAmounts))
          "Expected the module account to hold only the bid amounts in Grav";
    IterateAuctions tt (λ _ auction _,
      modAmount ← amount_in endModuleBalances (Denom (au_Amount auction));
      _ ← guard_panic (negb (modAmount =? Amount (au_Amount auction)))
            "Expected module account to hold the new auction amount";
      mret (tt, false)).

(** ** Closing and opening *)

Definition endAuctionPeriod : A W unit :=
  endingPeriod ← GetAuctionPeriod;
  _ ← IterateAuctions tt (λ _ auction _,
        _ ← must "unable to close auction"
              (if bool_decide (is_Some (au_HighestBid auction))
               then CloseAuctionWithWinner (au_Id auction)
               else CloseAuctionNoWinner (au_Id auction));
        mret (tt, false));
  _ ← DeleteAllAuctions;
  period ← opt_panic "nil pointer dereference" endingPeriod;
  emit (NewEventPeriodEnd (ap_StartBlockHeight period) (ap_EndBlockHeight period)).

Definition scheduleNextAuctionPeriod : A W unit :=
  auctionPeriod ← must "unable to create new auction period" CreateNewAuctionPeriod;
  _ ← must "unable to create auctions for new auction period" CreateAuctionsForAuctionPeriod;
  emit (NewEventPeriodStart (ap_StartBlockHeight auctionPeriod) (ap_EndBlockHeight auctionPeriod)).

(** The winning bidders and their balances *)
Definition collect_affected : A W (gmap string (list Coin)) :=
  IterateAuctions ∅ (λ _ auction accs,
    match au_HighestBid auction with
    | Some highestBid =>
        acc ← or_panic "MustAccAddressFromBech32"
                (AccAddressFromBech32 (bid_BidderAddress highestBid));
        balances ← gets (λ s, GetAllBalances (as_world s) acc);
        mret (<[bid_BidderAddress highestBid := balances]> accs, false)
    | None => mret (accs, false)
    end).

(** Whether the period ended, the auctions that closed and their winners. *)
Definition close_period : A W (bool * list Auction * gmap string (list Coin)) :=
  enabled ← ModuleEnabled;
  if negb enabled then mret (false, [], ∅) else
  found ← GetAuctionPeriod;
  auctionPeriod ← opt_panic "nil auction period discovered in EndBlocker" found;
  height ← block_height;
  if ap_EndBlockHeight auctionPeriod <=? height then
    closingAuctions ← GetAllAuctions;
    affectedAccs ← collect_affected;
    _ ← endAuctionPeriod;
    _ ← scheduleNextAuctionPeriod;
    mret (true, closingAuctions, affectedAccs)
  else mret (false, [], ∅).

(** The assertions are deferred: they run whenever the function returns. *)
Definition EndBlocker : A W unit :=
  startSupplies ← getBankSupplies;
  startModuleBalance ← all_balances_of ModuleName;
  startPoolBalance ← all_balances_of AuctionPoolAccountName;
  '(periodEnded, closingAuctions, affectedAccs) ← close_period;
  endSupplies ← getBankSupplies;
  endModuleBalance ← all_balances_of ModuleName;
  endPoolBalance ← all_balances_of AuctionPoolAccountName;
  _ ← assertSupplyIntegrity startSupplies endSupplies periodEnded;
  assertBalanceChanges periodEnded closingAuctions affectedAccs startModuleBalance startPoolBalance
    endModuleBalance endPoolBalance.

(** ** Runtime invariants (keeper/invariants.go) *)

Definition broken : gerror := ErrSdk "invariant broken".

(** The awards and the sum of the highest bids. *)
Definition tally_auction (auction : Auction) (acc : list Coin * Z) : A W (list Coin * Z) :=
  let '(awardAmounts, highestBids) := acc in
  held ← amount_in awardAmounts (Denom (au_Amount auction));
  _ ← guard_panic (negb (held =? 0)) "tallied awards already contain auction token";
  bids ← match au_HighestBid auction with
         | Some b => opt_panic "Int.Add" (Int_Add highestBids (bid_BidAmount b))
         | None => mret highestBids
         end;
  mret (awardAmounts ++ [au_Amount auction], bids).

Definition ExpectedAuctionModuleBalances : A W (list Coin) :=
  mint ← gets (λ s, MintDenom (as_world s));
  bidToken ← or_panic "failed to get mint params" mint;
  '(awardAmounts, highestBids) ← IterateAuctions ([], 0) (λ _ auction acc,
     acc' ← tally_auction auction acc; mret (acc', false));
  coin ← opt_panic "NewCoin" (NewCoin bidToken highestBids);
  opt_panic "Coins.Add" (Coins_Add awardAmounts [coin]).

Definition ModuleBalanceInvariant : A W unit :=
  accountBalances ← all_balances_of ModuleName;
  expectedBalances ← ExpectedAuctionModuleBalances;
  guard_err (negb (Coins_Equal accountBalances expectedBalances)) broken.

Definition ValidAuctionsInvariant : A W unit :=
  mint ← gets (λ s, MintDenom (as_world s));
  nativeToken ← or_panic "failed to get mint params" mint;
  invalid ← IterateAuctions false (λ _ auc invalid,
    if decide (Denom (au_Amount auc) = nativeToken) then mret (true, true) else mret (invalid, false));
  guard_err invalid broken.

Definition AllInvariants : A W unit := _ ← ModuleBalanceInvariant; ValidAuctionsInvariant.

(** ** Genesis (keeper/genesis.go, types/genesis.go) *)

Record GenesisState := mkGenesisState {
  gs_Params : Params; gs_ActivePeriod : option AuctionPeriod; gs_ActiveAuctions : list Auction }.

Definition DefaultGenesis : GenesisState := mkGenesisState DefaultParams None [].

Fixpoint validate_auctions (auctions : list Auction) : res unit :=
  match auctions with
  | [] => Ok tt
  | a :: auctions' => _ ← Auction_ValidateBasic a; validate_auctions auctions'
  end.

Definition GenesisState_ValidateBasic (s : GenesisState) : res unit :=
  _ ← Params_ValidateBasic (gs_Params s);
  _ ← match gs_ActivePeriod s with
      | Some p => AuctionPeriod_ValidateBasic p
      | None => Ok tt
      end;
  validate_auctions (gs_ActiveAuctions s).

Definition InitGenesis (genState : GenesisState) : A W unit :=
  _ ← must "failed to set params" (SetParams (gs_Params genState));
  _ ← match gs_ActivePeriod genState with
      | Some period =>
          _ ← updateAuctionPeriodUnsafe period;
          for_each (gs_ActiveAuctions genState) (λ auction,
            must "Unable to store auction" (StoreAuction auction))
      | None =>
          _ ← must "Unable to create a new auction period" CreateNewAuctionPeriod;
          if pa_Enabled (gs_Params genState)
          then must "unable to create auctions for genesis auction period" CreateAuctionsForAuctionPeriod
          else mret tt
      end;
  must "Invariant failure after auction init genesis" AllInvariants.

Definition ExportGenesis : A W GenesisState :=
  params ← must "failed to get auction params" GetParams;
  auctionPeriod ← GetAuctionPeriod;
  auctions ← GetAllAuctions;
  mret (mkGenesisState params auctionPeriod auctions).
End EndBlocker.
