(* ===== verification/AuctionLedger.v ===== *)
(** * Tokens of the auction module: what the other modules promise

    The laws of the bank, mint and distribution modules that the auctions rely on,
    and what each payment of the keeper does to the ledger.  A payment that returns
    changes balances and supplies by exactly its coins ([changed]); a payment that
    is covered returns. *)

From stdpp Require Import base gmap list strings.
From S2P Require Import Prelude GoStd Config External Store Coins Auction AuctionBlock.

#[local] Open Scope Z_scope.

(** Splits on every test of the goal. *)
Ltac by_cases := repeat (case_decide || case_match); try congruence; try naive_solver lia.

(** ** Laws *)

(** The listings are valid coins and agree with the balances and supplies; what
    accounts hold together does not exceed the supply. *)
Class BankListing (W : Type) `{Sdk} `{Bank W} `{BankBalances W} `{BankSupplies W} := {
  listed_balances_ok w a : coins_ok (GetAllBalances w a);
  listed_balances w a d : amount_of d (GetAllBalances w a) = GetBalance w a d;
  listed_supply_ok w : coins_ok (TotalSupply w);
  listed_supply w d : amount_of d (TotalSupply w) = GetSupply w d;
  held_within_supply w l d :
    NoDup l → sumZ (λ a, GetBalance w a d) l ≤ GetSupply w d < 2 ^ 256;
}.

(** Payments do not change the token of the chain. *)
Class MintLaws (W : Type) `{Sdk} `{Bank W} `{Ibc W} `{Mint W} `{Accounts W} := {
  mint_send_mm m n cs w w' : SendCoinsFromModuleToModule m n cs w = (None, w') → MintDenom w' = MintDenom w;
  mint_send_ma m a cs w w' : SendCoinsFromModuleToAccount m a cs w = (None, w') → MintDenom w' = MintDenom w;
  mint_send_am a m cs w w' : SendCoinsFromAccountToModule a m cs w = (None, w') → MintDenom w' = MintDenom w;
  mint_burn m cs w w' : BurnCoins m cs w = (None, w') → MintDenom w' = MintDenom w;
  mint_fees a cs w w' : DeductFees a cs w = (None, w') → MintDenom w' = MintDenom w;
}.

(** The community pool's record is kept apart from the balances. *)
Class FeePoolLaws (W : Type) `{Bank W} `{Ibc W} `{Mint W} := {
  fee_pool_balance cs w w' a d : AddToFeePool cs w = (None, w') → GetBalance w' a d = GetBalance w a d;
  fee_pool_supply cs w w' d : AddToFeePool cs w = (None, w') → GetSupply w' d = GetSupply w d;
  fee_pool_mint cs w w' : AddToFeePool cs w = (None, w') → MintDenom w' = MintDenom w;
}.

(** [BankKeeper.BlockedAddr], and the coins of an account that vesting locks *)
Class BankAccess (W : Type) := {
  BlockedAddr : bytes → bool;
  LockedCoins : W → bytes → string → Z;
}.

Definition covered {W} `{Bank W} (w : W) (a : bytes) (cs : list Coin) : Prop :=
  ∀ d, amount_of d cs ≤ GetBalance w a d.

(** A covered payment between existing accounts succeeds: module accounts exist and
    the auction's may burn; a blocked account does not receive; locked coins are not
    spent, and paying and receiving do not change what is locked. *)
Class PaymentsSucceed (W : Type) `{Sdk} `{Bank W} `{Ibc W} `{Accounts W} `{BankAccess W} := {
  send_mm_succeeds m n cs w :
    m ∈ [ModuleName; AuctionPoolAccountName] → n ∈ [ModuleName; AuctionPoolAccountName; DistrModuleName] →
    coins_ok cs → covered w (GetModuleAddress m) cs →
    ∃ w', SendCoinsFromModuleToModule m n cs w = (None, w');
  send_ma_succeeds a cs w :
    BlockedAddr a = false → coins_ok cs → covered w (GetModuleAddress ModuleName) cs →
    ∃ w', SendCoinsFromModuleToAccount ModuleName a cs w = (None, w');
  burn_succeeds cs w :
    coins_ok cs → covered w (GetModuleAddress ModuleName) cs →
    ∃ w', BurnCoins ModuleName cs w = (None, w');
  fee_pool_succeeds cs w : ∃ w', AddToFeePool cs w = (None, w');
  send_am_succeeds a cs w :
    coins_ok cs → (∀ d, 0 < amount_of d cs → amount_of d cs ≤ GetBalance w a d - LockedCoins w a d) →
    ∃ w', SendCoinsFromAccountToModule a ModuleName cs w = (None, w');
  fees_succeed a cs w :
    coins_ok cs → (∀ d, 0 < amount_of d cs → amount_of d cs ≤ GetBalance w a d - LockedCoins w a d) →
    ∃ w', DeductFees a cs w = (None, w');
  locked_nonneg w a d : 0 ≤ LockedCoins w a d;
  locked_after_fees b cs w w' a d :
    DeductFees b cs w = (None, w') → LockedCoins w' a d = LockedCoins w a d;
  locked_after_refund b cs w w' a d :
    SendCoinsFromModuleToAccount ModuleName b cs w = (None, w') → LockedCoins w' a d = LockedCoins w a d;
}.

(** ** Changes of the ledger *)

Section Ledger.
Context {W : Type} `{Sdk} `{Bank W} `{Mint W}.
Implicit Types w : W.

Record changed (w w' : W) (f : bytes → string → Z) (g : string → Z) : Prop := {
  ch_balance a d : GetBalance w' a d = GetBalance w a d + f a d;
  ch_supply d : GetSupply w' d = GetSupply w d + g d;
  ch_mint : MintDenom w' = MintDenom w;
}.

(** Coins [cs] that leave [from] and arrive at [to]. *)
Definition transfer (from to : bytes) (cs : list Coin) : bytes → string → Z := λ a d,
  (if decide (a = to) then amount_of d cs else 0) - (if decide (a = from) then amount_of d cs else 0).

Lemma changed_refl w : changed w w (λ _ _, 0) (λ _, 0).
Proof. split; intros; lia || done. Qed.

Lemma changed_trans w1 w2 w3 f1 g1 f2 g2 :
  changed w1 w2 f1 g1 → changed w2 w3 f2 g2 →
  changed w1 w3 (λ a d, f1 a d + f2 a d) (λ d, g1 d + g2 d).
Proof.
  intros [B1 S1 M1] [B2 S2 M2]. split; intros; [rewrite B2, B1|rewrite S2, S1|congruence]; lia.
Qed.

Lemma changed_ext w w' f g f' g' :
  changed w w' f g → (∀ a d, f a d = f' a d) → (∀ d, g d = g' d) → changed w w' f' g'.
Proof. intros [B S M] Hf Hg. split; intros; rewrite <- ?Hf, <- ?Hg; done. Qed.

Lemma moved_changed w w' from to cs :
  moved w w' from to cs → MintDenom w' = MintDenom w → changed w w' (transfer from to cs) (λ _, 0).
Proof.
  intros (Hb & Hs & _) Hm. split; [|intros; rewrite Hs; lia|done].
  intros a d. rewrite Hb. unfold transfer. lia.
Qed.
End Ledger.

(** ** The keeper's payments *)

Section Payments.
Context {W : Type} `{SdkLaws} `{!ModuleAccounts} `{Bank W} `{!BankLaws W} `{BankBalances W}
  `{BankSupplies W} `{!BankListing W} `{Ibc W} `{Mint W} `{Accounts W} `{!AccountsLaws W}
  `{!MintLaws W} `{!FeePoolLaws W} `{BankAccess W}.
Implicit Types (s : AState W) (w : W).

(** The account of the auctions, of the pool, and of the community pool *)
Definition mod_acc : bytes := GetModuleAddress ModuleName.
Definition pool_acc : bytes := GetModuleAddress AuctionPoolAccountName.
Definition distr_acc : bytes := GetModuleAddress DistrModuleName.
Definition fee_acc : bytes := GetModuleAddress FeeCollectorName.

Lemma accounts_distinct : NoDup [mod_acc; pool_acc; distr_acc; fee_acc].
Proof.
  unfold mod_acc, pool_acc, distr_acc, fee_acc.
  change (NoDup (GetModuleAddress <$> [ModuleName; AuctionPoolAccountName; DistrModuleName; FeeCollectorName])).
  apply NoDup_fmap_2_strong; [intros ? ? _ _; apply module_address_inj|].
  apply (bool_decide_eq_true_1 (NoDup [ModuleName; AuctionPoolAccountName; DistrModuleName; FeeCollectorName])).
  done.
Qed.

(** The coins of one payment: none when the amount is zero *)
Definition coins1 (c : Coin) : list Coin := if decide (Amount c = 0) then [] else [c].

Lemma amount_of_coins1 d c : amount_of d (coins1 c) = if decide (Denom c = d) then Amount c else 0.
Proof. unfold coins1. case_decide as E; [|apply amount_of_singleton]. cbn. case_decide; lia. Qed.

Lemma coins1_ok c : Coin_IsValid c = true → coins_ok (coins1 c).
Proof.
  unfold Coin_IsValid. intros [Hd Ha]%andb_true_iff. zbool. unfold coins1.
  case_decide; [apply coins_ok_nil|]. apply coins_ok_one; [lia|done].
Qed.

Lemma NewCoins1_inv c cs : NewCoins1 c = Some cs → cs = coins1 c.
Proof.
  unfold NewCoins1, coins1. destruct (Z.eqb_spec (Amount c) 0); case_decide; try lia; [by intros [= <-]|].
  case_match; naive_solver.
Qed.

Lemma NewCoins1_valid c : Coin_IsValid c = true → NewCoins1 c = Some (coins1 c).
Proof.
  intros Hv. unfold NewCoins1, coins1. rewrite Hv.
  destruct (Z.eqb_spec (Amount c) 0); case_decide; try lia; done.
Qed.

Lemma world_call_inv (f : W → option gerror * W) s u s' :
  call f s = Ret u s' → ∃ w, f (as_world s) = (None, w) ∧ s' = set_world w s.
Proof. unfold call. destruct (f (as_world s)) as [[e|] w]; naive_solver. Qed.

Lemma call_returns (f : W → option gerror * W) s w :
  f (as_world s) = (None, w) → call f s = Ret tt (set_world w s).
Proof. unfold call. by intros ->. Qed.

Lemma auction_params_inv s p s' : GetParams s = Ret p s' → as_params s = Some p ∧ s' = s.
Proof.
  unfold GetParams. intros E. mnext E as o s1 E1. apply gets_inv in E1 as [-> ->].
  destruct (as_params s); [|done]. apply mret_inv in E as [-> ->]. done.
Qed.

Lemma auction_params_eq s p : as_params s = Some p → GetParams s = Ret p s.
Proof. unfold GetParams. mrun. by intros ->. Qed.

Lemma ModuleEnabled_inv s b s' :
  ModuleEnabled s = Ret b s' → ∃ p, as_params s = Some p ∧ b = pa_Enabled p ∧ s' = s.
Proof.
  unfold ModuleEnabled. intros E. mnext E as p s1 E1. apply must_inv, auction_params_inv in E1 as [Hp ->].
  apply mret_inv in E as [-> ->]. eauto.
Qed.

Lemma ModuleEnabled_eq s p : as_params s = Some p → ModuleEnabled s = Ret (pa_Enabled p) s.
Proof.
  intros Hp. unfold ModuleEnabled. rewrite (bind_ret _ _ s p s); [done|].
  unfold must. by rewrite (auction_params_eq s p).
Qed.

Lemma require_enabled_inv s u s' :
  require_enabled s = Ret u s' → s' = s ∧ ∃ p, as_params s = Some p ∧ pa_Enabled p = true.
Proof.
  unfold require_enabled. intros E. mnext E as b s1 E1. apply ModuleEnabled_inv in E1 as (p & Hp & -> & ->).
  apply guard_err_inv in E as [Hb ->]. apply negb_false_iff in Hb. eauto.
Qed.

Lemma require_enabled_eq s p : as_params s = Some p → pa_Enabled p = true → require_enabled s = Ret tt s.
Proof.
  intros Hp He. unfold require_enabled. rewrite (bind_ret _ _ s true s); [done|].
  rewrite <- He. by apply ModuleEnabled_eq.
Qed.

Lemma new_coins_inv c s cs s' : (new_coins c : A W _) s = Ret cs s' → cs = coins1 c ∧ s' = s.
Proof. unfold new_coins. intros [E ->]%opt_panic_inv. by apply NewCoins1_inv in E. Qed.

Lemma new_coins_eq c s : Coin_IsValid c = true → (new_coins c : A W _) s = Ret (coins1 c) s.
Proof. intros Hv. unfold new_coins. by rewrite (NewCoins1_valid c Hv). Qed.

(** Only the ledger changed, by [f] and [g]. *)
Definition paid s s' (f : bytes → string → Z) (g : string → Z) : Prop :=
  ∃ w, s' = set_world w s ∧ changed (as_world s) w f g.

Lemma send_mm_paid m n cs s u s' :
  call (SendCoinsFromModuleToModule m n cs) s = Ret u s' →
  paid s s' (transfer (GetModuleAddress m) (GetModuleAddress n) cs) (λ _, 0).
Proof.
  intros (w & E & ->)%world_call_inv. exists w. split; [done|].
  apply moved_changed; [by apply send_mod_mod|by eapply mint_send_mm].
Qed.

Lemma send_ma_paid m a cs s u s' :
  call (SendCoinsFromModuleToAccount m a cs) s = Ret u s' →
  paid s s' (transfer (GetModuleAddress m) a cs) (λ _, 0).
Proof.
  intros (w & E & ->)%world_call_inv. exists w. split; [done|].
  apply moved_changed; [by apply send_mod_acc|by eapply mint_send_ma].
Qed.

Lemma send_am_paid a m cs s u s' :
  call (SendCoinsFromAccountToModule a m cs) s = Ret u s' →
  paid s s' (transfer a (GetModuleAddress m) cs) (λ _, 0).
Proof.
  intros (w & E & ->)%world_call_inv. exists w. split; [done|].
  apply moved_changed; [by apply send_acc_mod|by eapply mint_send_am].
Qed.

Lemma fees_paid a cs s u s' :
  call (DeductFees a cs) s = Ret u s' → paid s s' (transfer a fee_acc cs) (λ _, 0).
Proof.
  intros (w & E & ->)%world_call_inv. exists w. split; [done|].
  apply moved_changed; [by apply deduct_fees|by eapply mint_fees].
Qed.

Definition burnt (cs : list Coin) : bytes → string → Z := λ a d,
  if decide (a = mod_acc) then - amount_of d cs else 0.

Lemma burn_coins_paid cs s u s' :
  call (BurnCoins ModuleName cs) s = Ret u s' → paid s s' (burnt cs) (λ d, - amount_of d cs).
Proof.
  intros (w & E & ->)%world_call_inv. exists w. split; [done|].
  pose proof (mint_burn _ _ _ _ E) as Hm. apply burn_coins in E as (Hb & Hs & _).
  split; [|intros; rewrite Hs; lia|done]. intros a d. rewrite Hb. unfold burnt, mod_acc. case_decide; lia.
Qed.

Lemma fee_pool_paid cs s u s' : call (AddToFeePool cs) s = Ret u s' → paid s s' (λ _ _, 0) (λ _, 0).
Proof.
  intros (w & E & ->)%world_call_inv. exists w. split; [done|].
  split; intros; [rewrite (fee_pool_balance _ _ _ _ _ E)|rewrite (fee_pool_supply _ _ _ _ E)|
                  by eapply fee_pool_mint]; lia.
Qed.

Lemma paid_trans s1 s2 s3 f1 g1 f2 g2 :
  paid s1 s2 f1 g1 → paid s2 s3 f2 g2 → paid s1 s3 (λ a d, f1 a d + f2 a d) (λ d, g1 d + g2 d).
Proof.
  intros (w & -> & C1) (w' & -> & C2). exists w'. split; [done|]. by eapply changed_trans.
Qed.

Lemma paid_ext s s' f g f' g' :
  paid s s' f g → (∀ a d, f a d = f' a d) → (∀ d, g d = g' d) → paid s s' f' g'.
Proof. intros (w & -> & Hc) Hf Hg. exists w. split; [done|]. by eapply changed_ext. Qed.

Lemma paid_params s s' f g : paid s s' f g → as_params s' = as_params s.
Proof. by intros (w & -> & _). Qed.

(** ** Payments to and from the pools *)

Lemma SendToAuctionPool_paid cs s u s' :
  SendToAuctionPool cs s = Ret u s' → paid s s' (transfer mod_acc pool_acc cs) (λ _, 0).
Proof.
  unfold SendToAuctionPool. intros E. mnext E as x s1 E1. apply require_enabled_inv in E1 as [-> _].
  by apply send_mm_paid in E.
Qed.

Lemma RemoveFromAuctionPool_paid c s u s' :
  RemoveFromAuctionPool c s = Ret u s' →
  Denom c ≠ NativeTokenDenom ∧ paid s s' (transfer pool_acc mod_acc (coins1 c)) (λ _, 0).
Proof.
  unfold RemoveFromAuctionPool. intros E. mnext E as x s1 E1. apply guard_err_inv in E1 as [Hn ->].
  mnext E as y s2 E2. apply require_enabled_inv in E2 as [-> _].
  mnext E as cs s3 E3. apply new_coins_inv in E3 as [-> ->].
  split; [by apply bool_decide_eq_false in Hn|]. by apply send_mm_paid in E.
Qed.

Lemma AwardAuction_paid a c s u s' :
  AwardAuction a c s = Ret u s' → paid s s' (transfer mod_acc a (coins1 c)) (λ _, 0).
Proof.
  unfold AwardAuction. intros E. mnext E as x s1 E1. apply require_enabled_inv in E1 as [-> _].
  mnext E as cs s2 E2. apply new_coins_inv in E2 as [-> ->]. by apply send_ma_paid in E.
Qed.

Lemma community_pool_paid c m s u s' :
  sendFromModuleAccountToCommunityPool c m s = Ret u s' →
  paid s s' (transfer (GetModuleAddress m) distr_acc (coins1 c)) (λ _, 0).
Proof.
  unfold sendFromModuleAccountToCommunityPool. intros E.
  mnext E as cs s1 E1. apply new_coins_inv in E1 as [-> ->].
  mnext E as x s2 E2. apply send_mm_paid in E2. apply fee_pool_paid in E.
  eapply paid_ext; [by eapply paid_trans|..]; intros; cbv beta; unfold distr_acc; lia.
Qed.

Section Succeed.
Context `{!PaymentsSucceed W}.

Lemma mm_returns m n cs s :
  m ∈ [ModuleName; AuctionPoolAccountName] → n ∈ [ModuleName; AuctionPoolAccountName; DistrModuleName] →
  coins_ok cs → covered (as_world s) (GetModuleAddress m) cs →
  returns (call (SendCoinsFromModuleToModule m n cs)) s.
Proof.
  intros Hm Hn Hc Hcov. destruct (send_mm_succeeds m n cs _ Hm Hn Hc Hcov) as [w E].
  exists tt, (set_world w s). by apply call_returns.
Qed.

Lemma SendToAuctionPool_returns c s p :
  as_params s = Some p → pa_Enabled p = true → Coin_IsValid c = true →
  covered (as_world s) mod_acc (coins1 c) → returns (SendToAuctionPool (coins1 c)) s.
Proof.
  intros Hp He Hv Hc. unfold returns, SendToAuctionPool.
  rewrite (bind_ret _ _ s tt s) by by apply (require_enabled_eq s p).
  apply mm_returns; [set_solver..|by apply coins1_ok|done].
Qed.

Lemma RemoveFromAuctionPool_returns c s p :
  as_params s = Some p → pa_Enabled p = true → Coin_IsValid c = true → Denom c ≠ NativeTokenDenom →
  covered (as_world s) pool_acc (coins1 c) → returns (RemoveFromAuctionPool c) s.
Proof.
  intros Hp He Hv Hn Hc. unfold returns, RemoveFromAuctionPool.
  rewrite (bind_ret _ _ s tt s) by by rewrite bool_decide_eq_false_2.
  rewrite (bind_ret _ _ s tt s) by by apply (require_enabled_eq s p).
  rewrite (bind_ret _ _ s _ s) by by apply new_coins_eq.
  apply mm_returns; [set_solver..|by apply coins1_ok|done].
Qed.

Lemma AwardAuction_returns a c s p :
  as_params s = Some p → pa_Enabled p = true → Coin_IsValid c = true → BlockedAddr a = false →
  covered (as_world s) mod_acc (coins1 c) → returns (AwardAuction a c) s.
Proof.
  intros Hp He Hv Ha Hc. unfold returns, AwardAuction.
  rewrite (bind_ret _ _ s tt s) by by apply (require_enabled_eq s p).
  rewrite (bind_ret _ _ s _ s) by by apply new_coins_eq.
  destruct (send_ma_succeeds a (coins1 c) (as_world s)) as [w E]; [done|by apply coins1_ok|done|].
  exists tt, (set_world w s). by apply call_returns.
Qed.

Lemma burn_returns c s :
  Coin_IsValid c = true → covered (as_world s) mod_acc (coins1 c) →
  returns (coins ← new_coins c; call (BurnCoins ModuleName coins)) s.
Proof.
  intros Hv Hc. unfold returns. rewrite (bind_ret _ _ s _ s) by by apply new_coins_eq.
  destruct (burn_succeeds (coins1 c) (as_world s)) as [w E]; [by apply coins1_ok|done|].
  exists tt, (set_world w s). by apply call_returns.
Qed.

Lemma community_pool_returns c m s :
  m ∈ [ModuleName; AuctionPoolAccountName] → Coin_IsValid c = true →
  covered (as_world s) (GetModuleAddress m) (coins1 c) →
  returns (sendFromModuleAccountToCommunityPool c m) s.
Proof.
  intros Hm Hv Hc. unfold returns, sendFromModuleAccountToCommunityPool.
  rewrite (bind_ret _ _ s _ s) by by apply new_coins_eq.
  destruct (mm_returns m DistrModuleName (coins1 c) s) as ([] & s1 & E); [done|set_solver|by apply coins1_ok|done|].
  rewrite (bind_ret _ _ s tt s1) by done.
  destruct (fee_pool_succeeds (coins1 c) (as_world s1)) as [w Ew].
  exists tt, (set_world w s1). by apply call_returns.
Qed.
End Succeed.
End Payments.
