(* ===== verification/AuctionBooks.v ===== *)
(** * The books of the auction module

    The invariant of the module's state ([auction_ok]): auctions are filed under
    their numbers, sell different foreign tokens, and the module's account holds
    exactly the tokens on sale and the highest bids. *)

From stdpp Require Import base gmap list strings.
From S2P Require Import Prelude GoStd Config External Store Coins Auction AuctionBlock AuctionLedger.

#[local] Open Scope Z_scope.

(** The chain's native token is a valid denom. *)
Class NativeToken `{Sdk} := { native_valid : ValidateDenom NativeTokenDenom = true }.

(** ** Parameters *)

Section ValidParams.
Context `{Sdk}.

Lemma found_native l found :
  scan_denoms l found = Ok true → found = true ∨ NativeTokenDenom ∈ l.
Proof.
  revert found. induction l as [|d l IH]; intros found; cbn [scan_denoms]; [intros [= ->]; by left|].
  destruct (is_ok (isValidDenom d)); [|done]. cbn [negb]. intros Hs.
  case_decide as Ed; [right; set_solver|]. apply IH in Hs as [?|?]; [by left|right; set_solver].
Qed.

(** Valid parameters keep the native token out of the auctions. *)
Lemma native_not_auctioned p :
  Params_ValidateBasic p = Ok tt → NativeTokenDenom ∈ pa_NonAuctionableTokens p ∧ 0 < pa_AuctionLength p.
Proof.
  unfold Params_ValidateBasic, isPositive. intros Hv. destruct (Z.leb_spec (pa_AuctionLength p) 0); [done|].
  split; [|done]. cbn in Hv. unfold validNonAuctionableDenoms in Hv.
  destruct (scan_denoms _ _) as [[]|] eqn:E; try done. by apply found_native in E as [?|?].
Qed.
End ValidParams.

(** ** Keys *)

Lemma KeyAuction_ok : bytes_ok KeyAuction.
Proof. apply bytes_of_string_ok. Qed.

Lemma auction_key_range id : in_range (prefixRange KeyAuction) (GetAuctionKey id) = true.
Proof. apply prefix_in_range; [done|apply KeyAuction_ok]. Qed.

Lemma auction_key_lt i j : u64_ok i → u64_ok j → bytes_lt (GetAuctionKey i) (GetAuctionKey j) ↔ i < j.
Proof.
  intros Hi Hj. unfold bytes_lt, bytes_ltb, GetAuctionKey, UInt64Bytes. rewrite bytes_cmp_app by done.
  rewrite bytes_cmp_refl, bytes_cmp_be_small by (rewrite <- two64_pow; done).
  destruct (Z.compare_spec i j); split; lia || done.
Qed.

Lemma auction_key_inj i j : u64_ok i → u64_ok j → GetAuctionKey i = GetAuctionKey j → i = j.
Proof.
  intros Hi Hj [_ E]%app_inj_1; [|done]. unfold UInt64Bytes in E.
  apply be_bytes_inj in E; [done|by rewrite <- two64_pow..].
Qed.

(** Nothing else in the store is visited when the auctions are. *)
Lemma other_keys_apart k :
  k ∈ [KeyParams; KeyAuctionPeriod; KeyAuctionNonce] → in_range (prefixRange KeyAuction) k = false.
Proof. intros Hk. repeat (apply elem_of_cons in Hk as [->|Hk]; [done|]). by apply not_elem_of_nil in Hk. Qed.

(** ** The invariant *)

Definition auctions_of {W} (s : AState W) : list Auction :=
  snd <$> iter_asc (as_auctions s) (prefixRange KeyAuction).

Definition bid_of (a : Auction) : Z := from_option bid_BidAmount 0 (au_HighestBid a).

(** What the module owes for [auctions]: the tokens on sale and the bids *)
Definition held (d : string) (auctions : list Auction) : Z :=
  amount_of d (au_Amount <$> auctions) + (if decide (d = NativeTokenDenom) then sumZ bid_of auctions else 0).

Definition last_id {W} (s : AState W) : Z := default 0 (as_nonce s).

(** Auctions are filed under their numbers, which were given out already. *)
Record indexed {W} (s : AState W) : Prop := {
  ix_entry k a : as_auctions s !! k = Some a → k = GetAuctionKey (au_Id a) ∧ 0 < au_Id a ≤ last_id s;
  ix_nonce n : as_nonce s = Some n → 0 < n < two64;
}.

Section Books.
Context {W : Type} `{SdkLaws} `{!NativeToken} `{Bank W} `{Mint W} `{BankAccess W}.
Implicit Types s : AState W.

(** An account that takes part in auctions: it is not one of the module accounts
    the auctions use, and may receive coins. *)
Definition ordinary (acc : bytes) : Prop :=
  acc ∉ [mod_acc; pool_acc; distr_acc; fee_acc] ∧ BlockedAddr acc = false.

Definition bid_ok (b : Bid) : Prop :=
  0 < bid_BidAmount b < two64 ∧ ∃ acc, AccAddressFromBech32 (bid_BidderAddress b) = Ok acc ∧ ordinary acc.

Lemma bid_of_nonneg a : (∀ b, au_HighestBid a = Some b → bid_ok b) → 0 ≤ bid_of a.
Proof. unfold bid_of. destruct (au_HighestBid a) as [b|]; [|done]. intros Hb. destruct (Hb b eq_refl) as [? _]. cbn. lia. Qed.

Record auction_ok s : Prop := {
  ok_index : indexed s;
  ok_params : ∃ p, as_params s = Some p ∧ Params_ValidateBasic p = Ok tt;
  ok_mint : MintDenom (as_world s) = Ok NativeTokenDenom;
  ok_coins : coins_ok (au_Amount <$> auctions_of s);
  ok_foreign : Forall (λ a, Denom (au_Amount a) ≠ NativeTokenDenom) (auctions_of s);
  ok_bids : Forall (λ a, ∀ b, au_HighestBid a = Some b → bid_ok b) (auctions_of s);
  ok_books d : GetBalance (as_world s) mod_acc d = held d (auctions_of s);
}.

(** ** Reading the store *)

Lemma last_id_range s : indexed s → u64_ok (last_id s).
Proof.
  intros Hix. unfold last_id. destruct (as_nonce s) as [n|] eqn:E; [|done].
  apply Hix in E. unfold u64_ok. cbn. lia.
Qed.

Lemma elem_of_auctions s a :
  indexed s → a ∈ auctions_of s ↔ as_auctions s !! GetAuctionKey (au_Id a) = Some a.
Proof.
  intros Hix. unfold auctions_of. rewrite list_elem_of_fmap. split.
  - intros ([k a'] & -> & [Hk _]%elem_of_iter_asc). cbn.
    destruct (ix_entry s Hix k a' Hk) as [E _]. by rewrite E in Hk.
  - intros Hk. exists (GetAuctionKey (au_Id a), a). split; [done|]. apply elem_of_iter_asc.
    split; [done|]. apply auction_key_range.
Qed.

Lemma GetAuctionById_eq s id : GetAuctionById id s = Ret (as_auctions s !! GetAuctionKey id) s.
Proof. done. Qed.

Lemma GetAuctionNonce_eq s s' :
  indexed s → as_nonce s' = as_nonce s → GetAuctionNonce s' = Ret (last_id s) s'.
Proof.
  intros Hix En. unfold GetAuctionNonce, last_id. mrun. rewrite En. destruct (as_nonce s) as [n|] eqn:E; [|done].
  apply Hix in E. destruct (Z.eqb_spec n 0); [lia|done].
Qed.

Lemma GetNextAuctionId_eq s :
  indexed s → last_id s + 1 < two64 → GetNextAuctionId s = Ret (last_id s + 1) s.
Proof.
  intros Hix Hlt. unfold GetNextAuctionId. rewrite (bind_ret _ _ s (last_id s) s) by by apply GetAuctionNonce_eq.
  pose proof (last_id_range s Hix). unfold u64_ok in *. rewrite u64_small; [done|]. unfold u64_ok. lia.
Qed.

(** Loops that only visit *)
Lemma for_acc_visit {S X} (l : list X) (body : X → M S unit) (s : S) :
  for_acc l tt (λ x _, _ ← body x; mret (tt, false)) s = for_each l body s.
Proof.
  revert s. induction l as [|x l IH]; intros s; [done|]. cbn [for_acc for_each].
  unfold mbind, M_bind. destruct (body x s); [apply IH|done..].
Qed.

Lemma for_acc_fmap {S X Y B} (f : X → Y) (l : list X) (acc : B) (body : Y → B → M S (B * bool)) (s : S) :
  for_acc (f <$> l) acc body s = for_acc l acc (λ x, body (f x)) s.
Proof.
  revert acc s. induction l as [|x l IH]; intros acc s; [done|]. cbn [for_acc fmap list_fmap].
  unfold mbind, M_bind. destruct (body (f x) acc s) as [[acc' []]| |]; [done|apply IH|done..].
Qed.

Lemma IterateAuctions_visit (body : Auction → A W unit) s :
  IterateAuctions tt (λ _ a _, _ ← body a; mret (tt, false)) s = for_each (auctions_of s) body s.
Proof.
  unfold IterateAuctions, auction_entries, auctions_of.
  rewrite (bind_ret _ _ s _ s) by done. rewrite for_each_fmap.
  apply (for_acc_visit _ (λ kv : bytes * Auction, body kv.2)).
Qed.

Lemma for_acc_gather {S X Y} (l : list X) (f : X → Y) (acc : list Y) (s : S) :
  for_acc l acc (λ x acc, mret (acc ++ [f x], false)) s = Ret (acc ++ (f <$> l)) s.
Proof.
  revert acc. induction l as [|x l IH]; intros acc; cbn [for_acc fmap list_fmap].
  - by rewrite app_nil_r.
  - rewrite (bind_ret _ _ s (acc ++ [f x], false) s) by done. cbn. rewrite IH, <- app_assoc. done.
Qed.

Lemma GetAllAuctions_eq s : GetAllAuctions s = Ret (auctions_of s) s.
Proof.
  unfold GetAllAuctions, IterateAuctions, auction_entries. rewrite (bind_ret _ _ s _ s) by done.
  apply (for_acc_gather _ snd []).
Qed.

(** ** Changing the store *)

(** The same auctions with another bid on one of them *)
Definition with_bid (id : Z) (b : Bid) (a : Auction) : Auction :=
  if decide (au_Id a = id) then mkAuction (au_Id a) (au_Amount a) (Some b) else a.

Lemma auctions_with_bid s a b :
  indexed s → as_auctions s !! GetAuctionKey (au_Id a) = Some a →
  auctions_of (set_auctions (insert (GetAuctionKey (au_Id a)) (mkAuction (au_Id a) (au_Amount a) (Some b))) s)
  = with_bid (au_Id a) b <$> auctions_of s.
Proof.
  intros Hix Ha. unfold auctions_of. cbn [as_auctions set_auctions].
  rewrite (iter_asc_update _ _ _ a) by done. rewrite <- !list_fmap_compose.
  apply list_fmap_ext. intros i [k a'] Hi. apply list_elem_of_lookup_2 in Hi.
  apply elem_of_iter_asc in Hi as [Hk _]. cbn.
  destruct (ix_entry s Hix _ _ Hk) as [-> Hid]. destruct (ix_entry s Hix _ _ Ha) as [_ Hid'].
  pose proof (last_id_range s Hix) as Hr. unfold u64_ok in *. unfold with_bid.
  destruct (decide (au_Id a' = au_Id a)) as [E|E].
  - rewrite decide_True by by rewrite E. cbn. rewrite E in Hk. congruence.
  - rewrite decide_False; [done|]. intros Hc%auction_key_inj; [done|unfold u64_ok; lia..].
Qed.

Lemma auctions_stored s a :
  indexed s → au_Id a = last_id s + 1 → u64_ok (au_Id a) →
  auctions_of (set_auctions (insert (GetAuctionKey (au_Id a)) a) s) = auctions_of s ++ [a].
Proof.
  intros Hix Hid Hr. unfold auctions_of. cbn [as_auctions set_auctions].
  rewrite iter_asc_append; [by rewrite fmap_app|apply auction_key_range|].
  intros k a' Hk. destruct (ix_entry s Hix _ _ Hk) as [-> ?].
  pose proof (last_id_range s Hix). unfold u64_ok in *. apply auction_key_lt; unfold u64_ok; lia.
Qed.

Lemma auctions_none s : as_auctions s = ∅ → auctions_of s = [].
Proof.
  unfold auctions_of. intros ->. rewrite (iter_asc_unique _ _ []); [done|constructor|].
  intros k v. split; [by intros ?%not_elem_of_nil|by intros [? _]].
Qed.

Lemma auctions_same s s' : as_auctions s' = as_auctions s → auctions_of s' = auctions_of s.
Proof. unfold auctions_of. by intros ->. Qed.

Lemma indexed_same s s' :
  as_auctions s' = as_auctions s → as_nonce s' = as_nonce s → indexed s → indexed s'.
Proof. intros Ea En [He Hn]. split; unfold last_id; rewrite ?Ea, ?En; done. Qed.

(** ** Sums *)

Lemma held_cons d a l :
  held d (a :: l) = held d [a] + held d l.
Proof. unfold held, amount_of, sumZ. cbn [fmap list_fmap foldr]. repeat case_decide; lia. Qed.

Lemma held_app d l l' : held d (l ++ l') = held d l + held d l'.
Proof.
  induction l as [|a l IH]; [unfold held, amount_of, sumZ; cbn; case_decide; lia|].
  cbn [app]. rewrite (held_cons d a (l ++ l')), (held_cons d a l), IH. lia.
Qed.

Lemma held_one d a :
  held d [a] = (if decide (Denom (au_Amount a) = d) then Amount (au_Amount a) else 0) +
               (if decide (d = NativeTokenDenom) then bid_of a else 0).
Proof. unfold held, amount_of, sumZ. cbn [fmap list_fmap foldr]. repeat case_decide; lia. Qed.
End Books.
