(* ===== verification/AuctionSales.v ===== *)
(** * Closing the auctions of a period

    What [CloseAuctionWithWinner] and [CloseAuctionNoWinner] pay, auction by
    auction, and that they return when the module's account covers what it owes. *)

From stdpp Require Import base gmap list strings.
From S2P Require Import Prelude GoStd Config External Store Coins Auction AuctionBlock AuctionLedger AuctionBooks.

#[local] Open Scope Z_scope.

Section Closing.
Context {W : Type} `{SdkLaws} `{!ModuleAccounts} `{!NativeToken} `{Bank W} `{!BankLaws W} `{BankBalances W}
  `{BankSupplies W} `{!BankListing W} `{Ibc W} `{Mint W} `{Accounts W} `{!AccountsLaws W}
  `{!MintLaws W} `{!FeePoolLaws W} `{BankAccess W}.
Implicit Types (s : AState W) (w : W) (a : Auction).

(** Everything but the ledger and the events is as it was. *)
Record booked s s' (f : bytes → string → Z) (g : string → Z) : Prop := {
  bk_params : as_params s' = as_params s;
  bk_period : as_period s' = as_period s;
  bk_auctions : as_auctions s' = as_auctions s;
  bk_nonce : as_nonce s' = as_nonce s;
  bk_height : as_height s' = as_height s;
  bk_ledger : changed (as_world s) (as_world s') f g;
}.

Lemma paid_booked s s' e f g : paid s s' f g → booked s (add_event e s') f g.
Proof. intros (w & -> & Hc). by split. Qed.

Lemma booked_trans s1 s2 s3 f1 g1 f2 g2 :
  booked s1 s2 f1 g1 → booked s2 s3 f2 g2 →
  booked s1 s3 (λ acc d, f1 acc d + f2 acc d) (λ d, g1 d + g2 d).
Proof. intros [] []. split; try congruence. by eapply changed_trans. Qed.

Lemma booked_ext s s' f g f' g' :
  booked s s' f g → (∀ acc d, f acc d = f' acc d) → (∀ d, g d = g' d) → booked s s' f' g'.
Proof. intros [] Hf Hg. split; try done. by eapply changed_ext. Qed.

Lemma booked_refl s : booked s s (λ _ _, 0) (λ _, 0).
Proof. split; try done. apply changed_refl. Qed.

(** ** One auction *)

Definition close a : A W unit :=
  if bool_decide (is_Some (au_HighestBid a)) then CloseAuctionWithWinner (au_Id a)
  else CloseAuctionNoWinner (au_Id a).

(** The winner's account *)
Definition winner a : option bytes :=
  b ← au_HighestBid a;
  match AccAddressFromBech32 (bid_BidderAddress b) with Ok acc => Some acc | Er _ => None end.

Definition bid_coins a : list Coin := coins1 (mkCoin NativeTokenDenom (bid_of a)).

(** The bid is burnt or given to the community pool and the winner gets the tokens;
    without a bid they return to the auction pool. *)
Definition close_delta (p : Params) a : bytes → string → Z := λ acc d,
  match winner a with
  | Some to =>
      (if pa_BurnWinningBids p then burnt (bid_coins a) acc d
       else transfer mod_acc distr_acc (bid_coins a) acc d) +
      transfer mod_acc to (coins1 (au_Amount a)) acc d
  | None => transfer mod_acc pool_acc (coins1 (au_Amount a)) acc d
  end.

Definition close_supply (p : Params) a : string → Z := λ d,
  match winner a with
  | Some _ => if pa_BurnWinningBids p then - amount_of d (bid_coins a) else 0
  | None => 0
  end.

Lemma settle_bid_paid burn c s u s' :
  (if (burn : bool) then coins ← new_coins c; call (BurnCoins ModuleName coins)
   else SendFromAuctionAccountToCommunityPool c) s = Ret u s' →
  paid s s' (λ acc d, if burn then burnt (coins1 c) acc d else transfer mod_acc distr_acc (coins1 c) acc d)
    (λ d, if burn then - amount_of d (coins1 c) else 0).
Proof.
  intros E. destruct burn.
  - mnext E as cs s1 E1. apply new_coins_inv in E1 as [-> ->]. by apply burn_coins_paid in E.
  - by apply community_pool_paid in E.
Qed.

Lemma NewCoin_same d x c : NewCoin d x = Some c → c = mkCoin d x.
Proof. unfold NewCoin. case_match; naive_solver. Qed.

Lemma close_winner_booked p a s u s' :
  as_params s = Some p → MintDenom (as_world s) = Ok NativeTokenDenom →
  as_auctions s !! GetAuctionKey (au_Id a) = Some a → is_Some (au_HighestBid a) →
  CloseAuctionWithWinner (au_Id a) s = Ret u s' → booked s s' (close_delta p a) (close_supply p a).
Proof.
  intros Hp Hm Ha [b Hb] E. unfold CloseAuctionWithWinner in E.
  mnext E as p1 s1 E1. apply auction_params_inv in E1 as [Hp1 ->]. assert (p1 = p) as -> by congruence.
  mnext E as x s2 E2. apply guard_err_inv in E2 as [_ ->].
  mnext E as o s3 E3. rewrite GetAuctionById_eq, Ha in E3. injection E3 as <- <-.
  rewrite Hb in E. mnext E as b' s4 E4. apply opt_panic_inv in E4 as [[= <-] ->].
  mnext E as mi s5 E5. apply gets_inv in E5 as [-> ->]. rewrite Hm in E.
  mnext E as tok s6 E6. apply or_panic_inv in E6 as [[= <-] ->].
  mnext E as c s7 E7. apply opt_panic_inv in E7 as [->%NewCoin_same ->].
  mnext E as acc s8 E8. apply or_panic_inv in E8 as [Hacc ->].
  mnext E as y s9 E9. apply settle_bid_paid in E9.
  mnext E as z s10 E10. apply AwardAuction_paid in E10. apply modify_inv in E as ->.
  assert (winner a = Some acc) as Hw by (unfold winner; rewrite Hb; cbn; by rewrite Hacc).
  eapply booked_ext; [apply paid_booked, (paid_trans _ _ _ _ _ _ _ E9 E10)|..]; cbv beta.
  - intros. unfold close_delta, bid_coins, bid_of. rewrite Hw, Hb. done.
  - intros. unfold close_supply, bid_coins, bid_of. rewrite Hw, Hb. cbn. case_match; lia.
Qed.

Lemma close_none_booked p a s u s' :
  as_auctions s !! GetAuctionKey (au_Id a) = Some a → au_HighestBid a = None →
  CloseAuctionNoWinner (au_Id a) s = Ret u s' → booked s s' (close_delta p a) (close_supply p a).
Proof.
  intros Ha Hb E. unfold CloseAuctionNoWinner in E.
  mnext E as x s1 E1. apply require_enabled_inv in E1 as [-> _].
  mnext E as o s3 E3. rewrite GetAuctionById_eq, Ha in E3. injection E3 as <- <-.
  mnext E as y s4 E4. apply guard_panic_inv in E4 as [_ ->].
  mnext E as cs s5 E5. apply new_coins_inv in E5 as [-> ->].
  mnext E as z s6 E6. apply SendToAuctionPool_paid in E6. apply modify_inv in E as ->.
  assert (winner a = None) as Hw by (unfold winner; by rewrite Hb).
  eapply booked_ext; [by apply paid_booked|..]; intros; unfold close_delta, close_supply; by rewrite Hw.
Qed.

Lemma close_booked p a s u s' :
  as_params s = Some p → MintDenom (as_world s) = Ok NativeTokenDenom →
  as_auctions s !! GetAuctionKey (au_Id a) = Some a →
  close a s = Ret u s' → booked s s' (close_delta p a) (close_supply p a).
Proof.
  intros Hp Hm Ha E. unfold close in E. case_bool_decide as Hb.
  - by eapply close_winner_booked.
  - apply eq_None_not_Some in Hb. by eapply close_none_booked.
Qed.

(** ** All of them *)

Definition close_deltas p (l : list Auction) : bytes → string → Z := λ acc d,
  sumZ (λ a, close_delta p a acc d) l.
Definition close_supplies p (l : list Auction) : string → Z := λ d, sumZ (λ a, close_supply p a d) l.

Lemma close_all_booked p l s u s' :
  as_params s = Some p → MintDenom (as_world s) = Ok NativeTokenDenom →
  Forall (λ a, as_auctions s !! GetAuctionKey (au_Id a) = Some a) l →
  for_each l (λ a, must "unable to close auction" (close a)) s = Ret u s' →
  booked s s' (close_deltas p l) (close_supplies p l).
Proof.
  intros Hp Hm Hl. revert s Hp Hm Hl. induction l as [|a l IH]; intros s Hp Hm Hl E.
  - apply mret_inv in E as [_ ->]. eapply booked_ext; [apply booked_refl|done..].
  - apply Forall_cons in Hl as [Ha Hl]. cbn [for_each] in E. mnext E as x s1 E1.
    apply must_inv, (close_booked p) in E1; [|done..]. apply IH in E.
    + eapply booked_ext; [by eapply booked_trans|done..].
    + by rewrite (bk_params _ _ _ _ E1).
    + by rewrite (ch_mint _ _ _ _ (bk_ledger _ _ _ _ E1)).
    + eapply Forall_impl; [exact Hl|]. intros a' Ha'. cbv beta. by rewrite (bk_auctions _ _ _ _ E1).
Qed.

(** ** What the accounts get *)

(** The winner of an auction is an ordinary account. *)
Lemma winner_ordinary a acc :
  (∀ b, au_HighestBid a = Some b → bid_ok b) → winner a = Some acc → ordinary acc.
Proof.
  intros Hb. unfold winner. destruct (au_HighestBid a) as [b|]; [|done].
  destruct (Hb b eq_refl) as (_ & acc' & Hacc & Hord). cbn. rewrite Hacc. by intros [= <-].
Qed.

Lemma winner_some a b : au_HighestBid a = Some b → bid_ok b → is_Some (winner a).
Proof. intros Hb (_ & acc & Hacc & _). unfold winner. rewrite Hb. cbn. rewrite Hacc. eauto. Qed.

Lemma ordinary_ne acc : ordinary acc → acc ≠ mod_acc ∧ acc ≠ pool_acc ∧ acc ≠ distr_acc ∧ acc ≠ fee_acc.
Proof. unfold ordinary. set_solver. Qed.

Lemma module_accounts_ne :
  mod_acc ≠ pool_acc ∧ mod_acc ≠ distr_acc ∧ mod_acc ≠ fee_acc ∧ pool_acc ≠ distr_acc ∧
  pool_acc ≠ fee_acc ∧ distr_acc ≠ fee_acc.
Proof.
  pose proof accounts_distinct as Hnd. rewrite !NoDup_cons in Hnd.
  destruct Hnd as (N1 & N2 & N3 & _). set_solver.
Qed.

Lemma amount_bid_coins d a :
  amount_of d (bid_coins a) = if decide (d = NativeTokenDenom) then bid_of a else 0.
Proof. unfold bid_coins. rewrite amount_of_coins1. cbn. repeat case_decide; congruence. Qed.

(** The module pays out what it held for the auction. *)
Lemma close_delta_mod p a d :
  (∀ b, au_HighestBid a = Some b → bid_ok b) → close_delta p a mod_acc d = - held d [a].
Proof.
  intros Hb. destruct module_accounts_ne as (N1 & N2 & _). rewrite held_one.
  unfold close_delta. destruct (winner a) as [to|] eqn:Ew.
  - pose proof (ordinary_ne _ (winner_ordinary _ _ Hb Ew)) as (Hto & _).
    unfold burnt, transfer. rewrite amount_bid_coins, amount_of_coins1. by_cases.
  - assert (bid_of a = 0) as Hz.
    { unfold bid_of. destruct (au_HighestBid a) as [b|] eqn:Eb; [|done].
      destruct (winner_some a b Eb (Hb b eq_refl)) as [? ?]. congruence. }
    unfold transfer. rewrite amount_of_coins1, Hz. by_cases.
Qed.

(** What returns to the pool in [d] *)
Definition unsold (d : string) a : Z :=
  if decide (winner a = None ∧ Denom (au_Amount a) = d) then Amount (au_Amount a) else 0.

Lemma close_delta_pool p a d :
  (∀ b, au_HighestBid a = Some b → bid_ok b) → close_delta p a pool_acc d = unsold d a.
Proof.
  intros Hb. destruct module_accounts_ne as (N1 & N2 & _ & N4 & _). unfold close_delta, unsold.
  destruct (winner a) as [to|] eqn:Ew.
  - pose proof (ordinary_ne _ (winner_ordinary _ _ Hb Ew)) as (_ & Hto & _).
    unfold burnt, transfer. by_cases.
  - unfold transfer. rewrite amount_of_coins1. by_cases.
Qed.

(** What [acc] wins in [d] *)
Definition won (acc : bytes) (d : string) a : Z :=
  if decide (winner a = Some acc ∧ Denom (au_Amount a) = d) then Amount (au_Amount a) else 0.

Lemma close_delta_ordinary p a acc d :
  ordinary acc → close_delta p a acc d = won acc d a.
Proof.
  intros (Hm & Hp & Hd & _)%ordinary_ne. unfold close_delta, won.
  destruct (winner a) as [to|] eqn:Ew; [|unfold transfer; by_cases].
  unfold burnt, transfer. rewrite amount_of_coins1. by_cases.
Qed.

(** ** Closing succeeds *)

Section Succeeds.
Context `{!PaymentsSucceed W}.

Record auction_valid a : Prop := {
  av_amount : Coin_IsValid (au_Amount a) = true;
  av_bid b : au_HighestBid a = Some b → bid_ok b;
}.

Lemma held_parts d a :
  auction_valid a →
  0 ≤ amount_of d (bid_coins a) ∧ 0 ≤ amount_of d (coins1 (au_Amount a)) ∧
  held d [a] = amount_of d (bid_coins a) + amount_of d (coins1 (au_Amount a)).
Proof.
  intros [Hv Hb]. rewrite held_one, amount_bid_coins, amount_of_coins1.
  assert (0 ≤ bid_of a) as Hn.
  { unfold bid_of. destruct (au_HighestBid a) as [b|]; [|done]. destruct (Hb b eq_refl) as [? _]. cbn. lia. }
  unfold Coin_IsValid in Hv. apply andb_true_iff in Hv as [_ Hv]. zbool. repeat case_decide; lia.
Qed.

Lemma settle_bid_returns burn c s :
  Coin_IsValid c = true → covered (as_world s) mod_acc (coins1 c) →
  returns (if (burn : bool) then coins ← new_coins c; call (BurnCoins ModuleName coins)
           else SendFromAuctionAccountToCommunityPool c) s.
Proof.
  intros Hv Hc. destruct burn; [by apply burn_returns|]. apply community_pool_returns; [set_solver|done..].
Qed.

Lemma NewCoin_native x : 0 ≤ x → NewCoin NativeTokenDenom x = Some (mkCoin NativeTokenDenom x).
Proof.
  intros Hx. unfold NewCoin, Coin_IsValid. cbn. rewrite native_valid. by apply Z.leb_le in Hx as ->.
Qed.

Lemma native_coin_valid x : 0 ≤ x → Coin_IsValid (mkCoin NativeTokenDenom x) = true.
Proof. intros Hx. unfold Coin_IsValid. cbn. rewrite native_valid. by apply Z.leb_le in Hx as ->. Qed.

Lemma close_winner_returns p a b s :
  as_params s = Some p → pa_Enabled p = true → MintDenom (as_world s) = Ok NativeTokenDenom →
  as_auctions s !! GetAuctionKey (au_Id a) = Some a → auction_valid a → au_HighestBid a = Some b →
  (∀ d, held d [a] ≤ GetBalance (as_world s) mod_acc d) → returns (CloseAuctionWithWinner (au_Id a)) s.
Proof.
  intros Hp He Hm Ha Hv Hb Hcov. destruct (av_bid a Hv b Hb) as (Hpos & acc & Hacc & Hord).
  assert (bid_of a = bid_BidAmount b) as Hbid by (unfold bid_of; by rewrite Hb).
  unfold returns, CloseAuctionWithWinner.
  rewrite (bind_ret _ _ s p s) by by apply auction_params_eq.
  rewrite (bind_ret _ _ s tt s) by by rewrite He.
  rewrite (bind_ret _ _ s (Some a) s) by by rewrite GetAuctionById_eq, Ha.
  rewrite (bind_ret _ _ s b s) by by rewrite Hb.
  rewrite (bind_ret _ _ s (Ok NativeTokenDenom) s) by by rewrite <- Hm.
  rewrite (bind_ret _ _ s NativeTokenDenom s) by done.
  rewrite (bind_ret _ _ s (mkCoin NativeTokenDenom (bid_BidAmount b)) s) by (rewrite NewCoin_native by lia; done).
  rewrite (bind_ret _ _ s acc s) by by rewrite Hacc.
  destruct (settle_bid_returns (pa_BurnWinningBids p) (mkCoin NativeTokenDenom (bid_BidAmount b)) s) as ([] & s1 & E1).
  { apply native_coin_valid. lia. }
  { intros d. specialize (Hcov d). destruct (held_parts d a Hv) as (Hn1 & Hn2 & Eh). unfold bid_coins in *.
    rewrite Hbid in *. lia. }
  rewrite (bind_ret _ _ _ _ _ E1). apply settle_bid_paid in E1 as (w & -> & Hc).
  destruct (AwardAuction_returns acc (au_Amount a) (set_world w s) p) as ([] & s2 & E2);
    [done..|apply Hv|apply Hord| |].
  { intros d. specialize (Hcov d). destruct (held_parts d a Hv) as (Hn1 & Hn2 & Eh). cbn [as_world set_world].
    rewrite (ch_balance _ _ _ _ Hc). unfold bid_coins in *. rewrite Hbid in *.
    destruct module_accounts_ne as (N1 & N2 & _). unfold burnt, transfer. by_cases. }
  rewrite (bind_ret _ _ _ _ _ E2). by eexists _, _.
Qed.

Lemma close_none_returns p a s :
  as_params s = Some p → pa_Enabled p = true →
  as_auctions s !! GetAuctionKey (au_Id a) = Some a → auction_valid a → au_HighestBid a = None →
  (∀ d, held d [a] ≤ GetBalance (as_world s) mod_acc d) → returns (CloseAuctionNoWinner (au_Id a)) s.
Proof.
  intros Hp He Ha Hv Hb Hcov. unfold returns, CloseAuctionNoWinner.
  rewrite (bind_ret _ _ s tt s) by by eapply require_enabled_eq.
  rewrite (bind_ret _ _ s (Some a) s) by by rewrite GetAuctionById_eq, Ha.
  rewrite (bind_ret _ _ s tt s) by (rewrite bool_decide_eq_false_2 by (rewrite Hb; by intros []); done).
  rewrite (bind_ret _ _ s (coins1 (au_Amount a)) s) by apply new_coins_eq, Hv.
  destruct (SendToAuctionPool_returns (au_Amount a) s p) as ([] & s1 & E1); [done..|apply Hv| |].
  { intros d. specialize (Hcov d). destruct (held_parts d a Hv). lia. }
  rewrite (bind_ret _ _ _ _ _ E1). by eexists _, _.
Qed.

Lemma close_returns p a s :
  as_params s = Some p → pa_Enabled p = true → MintDenom (as_world s) = Ok NativeTokenDenom →
  as_auctions s !! GetAuctionKey (au_Id a) = Some a → auction_valid a →
  (∀ d, held d [a] ≤ GetBalance (as_world s) mod_acc d) → returns (close a) s.
Proof.
  intros. unfold close. case_bool_decide as Hb.
  - destruct Hb as [b Hb]. by eapply close_winner_returns.
  - apply eq_None_not_Some in Hb. by eapply close_none_returns.
Qed.

Lemma held_nonneg d l : Forall auction_valid l → 0 ≤ held d l.
Proof.
  induction 1 as [|a l Ha _ IH]; [unfold held; cbn; case_decide; done|].
  rewrite held_cons. destruct (held_parts d a Ha). lia.
Qed.

Lemma must_returns {S X} msg (m : M S X) (s : S) : returns m s → returns (must msg m) s.
Proof. intros (x & s' & E). exists x, s'. unfold must. by rewrite E. Qed.

(** The account covers the remaining auctions after each payment. *)
Lemma close_all_returns p l s :
  as_params s = Some p → pa_Enabled p = true → MintDenom (as_world s) = Ok NativeTokenDenom →
  Forall (λ a, as_auctions s !! GetAuctionKey (au_Id a) = Some a) l → Forall auction_valid l →
  (∀ d, held d l ≤ GetBalance (as_world s) mod_acc d) →
  returns (for_each l (λ a, must "unable to close auction" (close a))) s.
Proof.
  intros Hp He Hm Hl Hv Hcov. revert s Hp Hm Hl Hcov. induction l as [|a l IH]; intros s Hp Hm Hl Hcov;
    [by eexists _, _|].
  apply Forall_cons in Hl as [Ha Hl]. apply Forall_cons in Hv as [Hva Hv]. unfold returns. cbn [for_each].
  destruct (close_returns p a s) as ([] & s1 & E1); [done..| |].
  { intros d. specialize (Hcov d). rewrite held_cons in Hcov. pose proof (held_nonneg d l Hv). lia. }
  rewrite (bind_ret _ _ s tt s1) by (unfold must; by rewrite E1).
  apply (close_booked p) in E1; [|done..]. apply IH; [done|..].
  - by rewrite (bk_params _ _ _ _ E1).
  - by rewrite (ch_mint _ _ _ _ (bk_ledger _ _ _ _ E1)).
  - eapply Forall_impl; [exact Hl|]. intros a' Ha'. cbv beta. by rewrite (bk_auctions _ _ _ _ E1).
  - intros d. specialize (Hcov d). rewrite held_cons in Hcov.
    rewrite (ch_balance _ _ _ _ (bk_ledger _ _ _ _ E1)), (close_delta_mod p a d) by apply Hva. lia.
Qed.
End Succeeds.
End Closing.

(** * Opening the auctions of a period

    [CreateAuctionsForAuctionPeriod] empties the pool: what may be auctioned becomes
    an auction with the next number, the rest goes to the community pool. *)

Section Opening.
Context {W : Type} `{SdkLaws} `{!ModuleAccounts} `{!NativeToken} `{Bank W} `{!BankLaws W} `{BankBalances W}
  `{BankSupplies W} `{!BankListing W} `{Ibc W} `{Mint W} `{Accounts W} `{!AccountsLaws W}
  `{!MintLaws W} `{!FeePoolLaws W} `{BankAccess W}.
Implicit Types (s : AState W) (w : W) (c : Coin) (bl : list string).

Definition open_delta bl c : bytes → string → Z :=
  transfer pool_acc (if decide (Denom c ∈ bl) then distr_acc else mod_acc) (coins1 c).

(** The coins that are auctioned *)
Definition auctioned bl (cs : list Coin) : list Coin := filter (λ c, Denom c ∉ bl) cs.

(** From [s] to [s'] auctions for the coins [cs] were opened and the ledger changed
    by [f]. *)
Record opened s s' (cs : list Coin) (f : bytes → string → Z) : Prop := {
  op_params : as_params s' = as_params s;
  op_period : as_period s' = as_period s;
  op_height : as_height s' = as_height s;
  op_ledger : changed (as_world s) (as_world s') f (λ _, 0);
  op_index : indexed s';
  op_last : last_id s' = last_id s + Z.of_nat (length cs);
  op_new : ∃ new, auctions_of s' = auctions_of s ++ new ∧ au_Amount <$> new = cs ∧
             Forall (λ a, au_HighestBid a = None) new;
  op_foreign : Forall (λ c, Denom c ≠ NativeTokenDenom) cs;
}.

Lemma opened_refl s : indexed s → opened s s [] (λ _ _, 0).
Proof.
  intros Hix. split; try done; [apply changed_refl|cbn; lia|]. exists []. by rewrite app_nil_r.
Qed.

Lemma opened_trans s1 s2 s3 cs1 cs2 f1 f2 :
  opened s1 s2 cs1 f1 → opened s2 s3 cs2 f2 → opened s1 s3 (cs1 ++ cs2) (λ acc d, f1 acc d + f2 acc d).
Proof.
  intros [P1 Q1 R1 L1 I1 N1 (n1 & A1 & B1 & C1) F1] [P2 Q2 R2 L2 I2 N2 (n2 & A2 & B2 & C2) F2].
  split; try congruence; try done.
  - eapply changed_ext; [by eapply changed_trans|done..].
  - rewrite length_app. lia.
  - exists (n1 ++ n2). rewrite A2, A1, fmap_app, B1, B2, app_assoc. split_and!; [done..|by apply Forall_app].
  - by apply Forall_app.
Qed.

Lemma StoreAuction_inv s s' u a :
  indexed s → last_id s + 1 < two64 → StoreAuction a s = Ret u s' →
  au_Id a = last_id s + 1 ∧ s' = set_nonce (au_Id a) (set_auctions (insert (GetAuctionKey (au_Id a)) a) s) ∧
  Coin_IsValid (au_Amount a) = true.
Proof.
  intros Hix Hlt E. unfold StoreAuction in E.
  mnext E as x1 s1 E1. apply of_res_inv in E1 as [Hv ->].
  mnext E as id s2 E2. rewrite GetNextAuctionId_eq in E2 by done. injection E2 as <- <-.
  mnext E as x2 s3 E3. apply guard_err_inv in E3 as [Hid ->]. apply negb_false_iff, Z.eqb_eq in Hid.
  mnext E as b s4 E4. assert (s4 = s) as ->.
  { eapply readonly_inv; [|exact E4]. unfold IsDenomAuctionable, GetParams. readonly. }
  mnext E as x3 s5 E5. apply guard_err_inv in E5 as [_ ->].
  mnext E as h s6 E6. apply gets_inv in E6 as [-> ->].
  mnext E as x4 s7 E7. apply guard_err_inv in E7 as [_ ->].
  mnext E as x5 s8 E8. apply modify_inv in E8 as ->.
  mnext E as n s9 E9. apply mret_inv in E as [_ ->]. unfold IncrementAuctionNonce in E9.
  set (s8 := set_auctions _ s) in *.
  assert (GetAuctionNonce s8 = Ret (last_id s) s8) as En by by apply GetAuctionNonce_eq.
  rewrite (bind_ret _ _ _ _ _ En) in E9. mnext E9 as y s10 E10. apply modify_inv in E10 as ->.
  apply mret_inv in E9 as [_ ->]. pose proof (last_id_range s Hix). unfold u64_ok in *.
  rewrite u64_small by (unfold u64_ok; lia). split_and!; [done|by rewrite Hid|].
  unfold Auction_ValidateBasic in Hv. by destruct (Coin_IsValid (au_Amount a)).
Qed.

Lemma indexed_stored s a :
  indexed s → au_Id a = last_id s + 1 → last_id s + 1 < two64 →
  indexed (set_nonce (au_Id a) (set_auctions (insert (GetAuctionKey (au_Id a)) a) s)).
Proof.
  intros Hix Hid Hlt. pose proof (last_id_range s Hix) as Hr. unfold u64_ok in Hr. split.
  - intros k a'. cbn [as_auctions set_nonce set_auctions]. unfold last_id. cbn [as_nonce set_nonce default].
    destruct (decide (k = GetAuctionKey (au_Id a))) as [->|Hk].
    + rewrite lookup_insert_eq. intros [= <-]. split; [done|]. cbn. lia.
    + rewrite lookup_insert_ne by done. intros [-> ?]%(ix_entry s Hix). split; [done|]. cbn. lia.
  - cbn. intros n [= <-]. lia.
Qed.

Lemma create_auction_opened bl c s u s' :
  indexed s → last_id s + 1 < two64 → create_auction bl c s = Ret u s' →
  opened s s' (auctioned bl [c]) (open_delta bl c).
Proof.
  intros Hix Hlt E. unfold create_auction in E. unfold auctioned, open_delta. rewrite filter_cons, filter_nil.
  case_decide as Hb.
  - rewrite decide_False by naive_solver. apply community_pool_paid in E as (w & -> & Hc).
    split; try done; [by apply (indexed_same s)|unfold last_id; cbn; lia|]. exists []. by rewrite app_nil_r.
  - rewrite decide_True by done.
    mnext E as id s1 E1. rewrite GetNextAuctionId_eq in E1 by done. injection E1 as <- <-.
    mnext E as x s2 E2. apply RemoveFromAuctionPool_paid in E2 as (Hn & w & -> & Hc).
    mnext E as y s3 E3. apply modify_inv in E as ->.
    assert (indexed (set_world w s)) as Hix' by by apply (indexed_same s).
    apply StoreAuction_inv in E3 as (Hid & -> & _); [|done..].
    pose proof (indexed_stored _ _ Hix' Hid Hlt) as Hix2. pose proof (last_id_range s Hix) as Hr.
    unfold u64_ok in Hr.
    split; try done.
    + by apply (indexed_same (set_nonce (au_Id (NewAuction (last_id s + 1) c))
        (set_auctions (insert (GetAuctionKey (au_Id (NewAuction (last_id s + 1) c)))
           (NewAuction (last_id s + 1) c)) (set_world w s)))).
    + exists [NewAuction (last_id s + 1) c]. split_and!; [|done|by constructor].
      etrans; [|apply (auctions_stored (set_world w s) (NewAuction (last_id s + 1) c)); [done..|]]; [done|].
      cbn. unfold u64_ok. lia.
    + by constructor.
Qed.

Definition open_deltas bl (cs : list Coin) : bytes → string → Z := λ acc d,
  sumZ (λ c, open_delta bl c acc d) cs.

Lemma create_all_opened bl cs s u s' :
  indexed s → last_id s + Z.of_nat (length cs) < two64 →
  for_each cs (create_auction bl) s = Ret u s' → opened s s' (auctioned bl cs) (open_deltas bl cs).
Proof.
  revert s. induction cs as [|c cs IH]; intros s Hix Hlt E.
  - apply mret_inv in E as [_ ->]. by apply opened_refl.
  - cbn [length] in Hlt. cbn [for_each] in E. mnext E as x s1 E1.
    apply create_auction_opened in E1; [|done|lia].
    apply IH in E; [|apply E1|].
    + unfold auctioned in *. change (c :: cs) with ([c] ++ cs). rewrite filter_app.
      pose proof (opened_trans _ _ _ _ _ _ _ E1 E) as Ht. done.
    + rewrite (op_last _ _ _ _ E1). unfold auctioned.
      pose proof (length_filter (λ c, Denom c ∉ bl) [c]). cbn [length] in *. lia.
Qed.

(** ** Opening succeeds *)

Section Succeeds.
Context `{!PaymentsSucceed W}.

Lemma IsDenomAuctionable_eq s p d :
  as_params s = Some p → MintDenom (as_world s) = Ok NativeTokenDenom → d ≠ NativeTokenDenom →
  d ∉ pa_NonAuctionableTokens p → IsDenomAuctionable d s = Ret true s.
Proof.
  intros Hp Hm Hd Hb. unfold IsDenomAuctionable.
  rewrite (bind_ret _ _ s (Ok NativeTokenDenom) s) by by rewrite <- Hm.
  rewrite (bind_ret _ _ s NativeTokenDenom s) by done. rewrite decide_False by done.
  rewrite (bind_ret _ _ s p s) by (unfold must; by rewrite (auction_params_eq s p)).
  by rewrite bool_decide_eq_true_2.
Qed.

Lemma StoreAuction_returns s p a :
  indexed s → last_id s + 1 < two64 → au_Id a = last_id s + 1 →
  as_params s = Some p → MintDenom (as_world s) = Ok NativeTokenDenom →
  Denom (au_Amount a) ≠ NativeTokenDenom → Denom (au_Amount a) ∉ pa_NonAuctionableTokens p →
  Auction_ValidateBasic a = Ok tt → returns (StoreAuction a) s.
Proof.
  intros Hix Hlt Hid Hp Hm Hn Hb Hv. unfold returns, StoreAuction.
  rewrite (bind_ret _ _ s tt s) by by rewrite Hv.
  rewrite (bind_ret _ _ s (last_id s + 1) s) by by apply GetNextAuctionId_eq.
  rewrite (bind_ret _ _ s tt s) by by rewrite Hid, Z.eqb_refl.
  rewrite (bind_ret _ _ s true s) by by eapply IsDenomAuctionable_eq.
  rewrite (bind_ret _ _ s tt s) by done.
  pose proof (last_id_range s Hix) as Hr. unfold u64_ok in Hr.
  assert (as_auctions s !! GetAuctionKey (au_Id a) = None) as Hno.
  { destruct (as_auctions s !! _) as [a'|] eqn:E; [|done]. exfalso.
    destruct (ix_entry s Hix _ _ E) as [Ek ?]. apply auction_key_inj in Ek; unfold u64_ok; lia. }
  rewrite (bind_ret _ _ s false s) by (mrun; rewrite Hno; by rewrite bool_decide_eq_false_2 by (by intros [])).
  rewrite (bind_ret _ _ s tt s) by done.
  set (s1 := set_auctions (insert (GetAuctionKey (au_Id a)) a) s).
  rewrite (bind_ret _ _ s tt s1) by done. unfold IncrementAuctionNonce.
  assert (GetAuctionNonce s1 = Ret (last_id s) s1) as En by by apply GetAuctionNonce_eq.
  rewrite <- bind_assoc. rewrite (bind_ret _ _ _ _ _ En). by eexists _, _.
Qed.

Lemma create_auction_returns p c s :
  indexed s → last_id s + 1 < two64 → as_params s = Some p → pa_Enabled p = true →
  MintDenom (as_world s) = Ok NativeTokenDenom → NativeTokenDenom ∈ pa_NonAuctionableTokens p →
  Coin_IsValid c = true → covered (as_world s) pool_acc (coins1 c) →
  returns (create_auction (pa_NonAuctionableTokens p) c) s.
Proof.
  intros Hix Hlt Hp He Hm Hnat Hv Hc. unfold returns, create_auction. case_decide as Hb.
  - apply community_pool_returns; [set_solver|done..].
  - assert (Denom c ≠ NativeTokenDenom) as Hn by congruence.
    rewrite (bind_ret _ _ s (last_id s + 1) s) by by apply GetNextAuctionId_eq.
    destruct (RemoveFromAuctionPool_returns c s p) as ([] & s1 & E1); [done..|].
    rewrite (bind_ret _ _ _ _ _ E1). apply RemoveFromAuctionPool_paid in E1 as (_ & w & -> & Hch).
    destruct (StoreAuction_returns (set_world w s) p (NewAuction (last_id s + 1) c)) as ([] & s2 & E2); try done.
    + by apply (indexed_same s).
    + cbn. by rewrite (ch_mint _ _ _ _ Hch).
    + unfold Auction_ValidateBasic. cbn. by rewrite Hv.
    + rewrite (bind_ret _ _ _ _ _ E2). by eexists _, _.
Qed.

Lemma open_delta_pool bl c d : open_delta bl c pool_acc d = - amount_of d (coins1 c).
Proof.
  destruct module_accounts_ne as (N1 & N2 & N3 & N4 & _). unfold open_delta, transfer. by_cases.
Qed.

(** The pool covers the coins that are left. *)
Lemma create_all_returns p cs s :
  indexed s → last_id s + Z.of_nat (length cs) < two64 → as_params s = Some p → pa_Enabled p = true →
  MintDenom (as_world s) = Ok NativeTokenDenom → NativeTokenDenom ∈ pa_NonAuctionableTokens p →
  coins_ok cs → (∀ d, amount_of d cs ≤ GetBalance (as_world s) pool_acc d) →
  returns (for_each cs (create_auction (pa_NonAuctionableTokens p))) s.
Proof.
  intros Hix Hlt Hp He Hm Hnat Hok Hcov. revert s Hix Hlt Hp Hm Hcov.
  induction cs as [|c cs IH]; intros s Hix Hlt Hp Hm Hcov; [by eexists _, _|].
  cbn [length] in Hlt. pose proof Hok as (Hok' & Hf & Hpos & Hd)%coins_ok_cons.
  assert (∀ d, amount_of d (coins1 c) + amount_of d cs ≤ GetBalance (as_world s) pool_acc d) as Hcov'.
  { intros d. specialize (Hcov d). by rewrite amount_of_cons, <- amount_of_coins1 in Hcov. }
  unfold returns. cbn [for_each].
  destruct (create_auction_returns p c s) as ([] & s1 & E1); try done; [lia|..].
  { unfold Coin_IsValid. rewrite Hd. apply Z.leb_le. lia. }
  { intros d. specialize (Hcov' d). pose proof (amount_of_nonneg d cs Hok'). lia. }
  rewrite (bind_ret _ _ _ _ _ E1). apply create_auction_opened in E1; [|done|lia].
  apply IH; [done|apply E1|..].
  - rewrite (op_last _ _ _ _ E1). unfold auctioned.
    pose proof (length_filter (λ c, Denom c ∉ pa_NonAuctionableTokens p) [c]). cbn [length] in *. lia.
  - by rewrite (op_params _ _ _ _ E1).
  - by rewrite (ch_mint _ _ _ _ (op_ledger _ _ _ _ E1)).
  - intros d. rewrite (ch_balance _ _ _ _ (op_ledger _ _ _ _ E1)), open_delta_pool.
    specialize (Hcov' d). lia.
Qed.
End Succeeds.
End Opening.
