(* ===== verification/AuctionPeriodEnd.v ===== *)
(** * The end of an auction period

    [close_period] of the end blocker: the auctions close, their records are
    deleted, and the next period opens with what the pool then holds. *)

From stdpp Require Import base gmap list strings.
From S2P Require Import Prelude GoStd Config External Store Coins Auction AuctionBlock AuctionLedger AuctionBooks AuctionSales.

#[local] Open Scope Z_scope.

Section PeriodEnd.
Context {W : Type} `{SdkLaws} `{!ModuleAccounts} `{!NativeToken} `{Bank W} `{!BankLaws W} `{BankBalances W}
  `{BankSupplies W} `{!BankListing W} `{Ibc W} `{Mint W} `{Accounts W} `{!AccountsLaws W}
  `{!MintLaws W} `{!FeePoolLaws W} `{BankAccess W}.
Implicit Types (s : AState W) (w : W) (p : Params).

(** ** Deleting the auctions *)

Lemma for_each_modify {S X} (l : list X) (f : X → S → S) (st : S) :
  for_each l (λ x, modify (f x)) st = Ret tt (foldl (λ st x, f x st) st l).
Proof.
  revert st. induction l as [|x l IH]; intros st; [done|]. cbn [for_each foldl].
  rewrite (bind_ret _ _ st tt (f x st)) by done. apply IH.
Qed.

Lemma foldl_delete (ks : list bytes) s :
  foldl (λ s k, set_auctions (delete k) s) s ks =
  set_auctions (λ m, foldl (λ m k, delete k m) m ks) s.
Proof. revert s. induction ks as [|k ks IH]; intros s; cbn [foldl]; [by destruct s|]. by rewrite IH. Qed.

Lemma lookup_delete_all {X} (ks : list bytes) (m : gmap bytes X) k :
  foldl (λ m k, delete k m) m ks !! k = if decide (k ∈ ks) then None else m !! k.
Proof.
  revert m. induction ks as [|k' ks IH]; intros m; cbn [foldl]; [done|]. rewrite IH.
  destruct (decide (k = k')) as [->|Hne].
  - rewrite lookup_delete_eq. rewrite (decide_True (P := k' ∈ k' :: ks)) by set_solver. by case_decide.
  - rewrite lookup_delete_ne by done. repeat case_decide; set_solver.
Qed.

Definition cleared s : AState W := set_auctions (λ _, ∅) s.

Lemma DeleteAllAuctions_inv s u s' : indexed s → DeleteAllAuctions s = Ret u s' → s' = cleared s.
Proof.
  intros Hix E. unfold DeleteAllAuctions in E.
  mnext E as b s1 E1. apply ModuleEnabled_inv in E1 as (p & Hp & -> & ->).
  mnext E as x s2 E2. apply guard_panic_inv in E2 as [_ ->].
  mnext E as q s3 E3. apply gets_inv in E3 as [-> ->].
  mnext E as h s4 E4. apply gets_inv in E4 as [-> ->].
  mnext E as y s5 E5. apply guard_panic_inv in E5 as [_ ->].
  mnext E as ks s6 E6. unfold IterateAuctions, auction_entries in E6.
  rewrite (bind_ret _ _ s _ s) in E6 by done. rewrite (for_acc_gather _ fst []) in E6. injection E6 as <- <-.
  rewrite for_each_modify, foldl_delete in E. injection E as _ <-.
  unfold cleared. destruct s as [pa pe au no w h ev]. unfold set_auctions. cbn. f_equal.
  apply map_eq. intros k. rewrite lookup_delete_all, lookup_empty. case_decide as Hk; [done|].
  destruct (au !! k) as [a|] eqn:Ea; [|done]. exfalso. apply Hk. cbn [app].
  apply (list_elem_of_fmap_2 fst _ (k, a)), elem_of_iter_asc. split; [done|].
  destruct (ix_entry _ Hix k a Ea) as [-> _]. apply auction_key_range.
Qed.

Lemma DeleteAllAuctions_returns s p per :
  as_params s = Some p → pa_Enabled p = true → as_period s = Some per →
  ap_EndBlockHeight per ≤ u64 (as_height s) → returns DeleteAllAuctions s.
Proof.
  intros Hp He Hper Hend. unfold returns, DeleteAllAuctions.
  rewrite (bind_ret _ _ s _ s) by by apply ModuleEnabled_eq.
  rewrite (bind_ret _ _ s tt s) by by rewrite He.
  unfold GetAuctionPeriod. rewrite (bind_ret _ _ s _ s) by done.
  rewrite (bind_ret _ _ s (u64 (as_height s)) s) by done.
  rewrite (bind_ret _ _ s tt s).
  2:{ rewrite Hper. cbn. case_decide; [done|]. by rewrite (proj2 (Z.ltb_ge _ _) Hend). }
  unfold IterateAuctions, auction_entries. rewrite <- bind_assoc. rewrite (bind_ret _ _ s _ s) by done.
  rewrite (bind_ret _ _ s _ s) by apply (for_acc_gather _ fst []). rewrite for_each_modify. by eexists _, _.
Qed.

(** ** The next period *)

Definition next_period p s : AuctionPeriod :=
  initializeAuctionPeriodFromParams (u64 (u64 (as_height s) + 1)) p.

Lemma UpdateAuctionPeriod_inv q s u s' : UpdateAuctionPeriod q s = Ret u s' → s' = set_period q s.
Proof.
  unfold UpdateAuctionPeriod. intros E.
  mnext E as b s1 E1. apply ModuleEnabled_inv in E1 as (p & Hp & -> & ->).
  mnext E as x s2 E2. apply guard_err_inv in E2 as [_ ->].
  mnext E as o s3 E3. apply gets_inv in E3 as [-> ->].
  mnext E as h s4 E4. apply gets_inv in E4 as [-> ->].
  mnext E as y s5 E5. apply guard_err_inv in E5 as [_ ->].
  mnext E as z s6 E6. apply guard_err_inv in E6 as [_ ->].
  unfold updateAuctionPeriodUnsafe in E.
  mnext E as n s7 E7. apply gets_inv in E7 as [-> ->].
  mnext E as x1 s8 E8. apply guard_panic_inv in E8 as [_ ->].
  mnext E as n1 s9 E9. apply gets_inv in E9 as [-> ->].
  mnext E as x2 s10 E10. apply guard_panic_inv in E10 as [_ ->].
  by apply modify_inv in E.
Qed.

Lemma CreateNewAuctionPeriod_inv s q s' p :
  as_params s = Some p → CreateNewAuctionPeriod s = Ret q s' → q = next_period p s ∧ s' = set_period q s.
Proof.
  intros Hp E. unfold CreateNewAuctionPeriod in E.
  mnext E as p1 s1 E1. apply auction_params_inv in E1 as [Hp1 ->]. assert (p1 = p) as -> by congruence.
  mnext E as h s2 E2. apply gets_inv in E2 as [-> ->]. cbv zeta in E.
  mnext E as x s3 E3. apply UpdateAuctionPeriod_inv in E3. apply mret_inv in E as [-> ->]. done.
Qed.

(** The heights fit in 64 bits up to the end of the next period. *)
Record heights_ok p s per : Prop := {
  ho_height : 0 ≤ as_height s;
  ho_room : as_height s + 1 + pa_AuctionLength p < two64;
  ho_length : 0 < pa_AuctionLength p;
  ho_ended : ap_EndBlockHeight per ≤ as_height s;
}.

Lemma heights_next p s per :
  heights_ok p s per →
  u64 (as_height s) = as_height s ∧ u64 (as_height s + 1) = as_height s + 1 ∧
  next_period p s = mkAuctionPeriod (as_height s + 1) (as_height s + 1 + pa_AuctionLength p).
Proof.
  intros [Hh1 Hh2 Hh3 _]. unfold next_period, initializeAuctionPeriodFromParams.
  assert (u64 (as_height s) = as_height s) as E1 by (apply u64_small; unfold u64_ok; lia).
  assert (u64 (as_height s + 1) = as_height s + 1) as E2 by (apply u64_small; unfold u64_ok; lia).
  rewrite E1, !E2. rewrite u64_small by (unfold u64_ok; lia). done.
Qed.

Lemma updateAuctionPeriodUnsafe_eq q s :
  ap_StartBlockHeight q ≤ u64 (as_height s + 1) → u64 (as_height s) ≤ ap_EndBlockHeight q →
  updateAuctionPeriodUnsafe q s = Ret tt (set_period q s).
Proof.
  intros Hs He. unfold updateAuctionPeriodUnsafe, block_height.
  rewrite (bind_ret _ _ s (u64 (as_height s + 1)) s) by done.
  rewrite (bind_ret _ _ s tt s) by (by rewrite (proj2 (Z.ltb_ge _ _) Hs)).
  rewrite (bind_ret _ _ s (u64 (as_height s)) s) by done.
  by rewrite (bind_ret _ _ s tt s) by (by rewrite (proj2 (Z.ltb_ge _ _) He)).
Qed.

Lemma CreateNewAuctionPeriod_returns s p per :
  as_params s = Some p → pa_Enabled p = true → as_period s = Some per → heights_ok p s per →
  CreateNewAuctionPeriod s = Ret (next_period p s) (set_period (next_period p s) s).
Proof.
  intros Hp He Hper Hh. destruct (heights_next p s per Hh) as (E1 & E2 & E3). destruct Hh as [Hh1 Hh2 Hh3 Hh4].
  unfold CreateNewAuctionPeriod. rewrite (bind_ret _ _ s p s) by by apply auction_params_eq.
  rewrite (bind_ret _ _ s (u64 (as_height s)) s) by done. cbv zeta. fold (next_period p s).
  rewrite (bind_ret _ _ s tt (set_period (next_period p s) s)); [done|].
  unfold UpdateAuctionPeriod. rewrite (bind_ret _ _ s _ s) by by apply ModuleEnabled_eq.
  rewrite (bind_ret _ _ s tt s) by by rewrite He.
  unfold GetAuctionPeriod. rewrite (bind_ret _ _ s _ s) by done.
  rewrite (bind_ret _ _ s (u64 (as_height s)) s) by done. rewrite Hper, E1, E3. cbn [mbind option_bind].
  case_decide as Hz.
  - repeat rewrite (bind_ret _ _ s tt s) by done. apply updateAuctionPeriodUnsafe_eq; cbn; lia.
  - rewrite (bind_ret _ _ s tt s) by (rewrite (proj2 (Z.ltb_ge _ _)) by lia; done).
    rewrite (bind_ret _ _ s tt s); [apply updateAuctionPeriodUnsafe_eq; cbn; lia|].
    cbn [ap_StartBlockHeight ap_EndBlockHeight].
    rewrite (proj2 (Z.ltb_ge _ _)) by lia. by rewrite (proj2 (Z.leb_gt _ _)) by lia.
Qed.

(** ** From one period to the next *)

Definition pool_coins s : list Coin := GetAllBalances (as_world s) pool_acc.

Lemma CreateAuctions_inv p s u s' :
  as_params s = Some p → indexed s → last_id s + Z.of_nat (length (pool_coins s)) < two64 →
  CreateAuctionsForAuctionPeriod s = Ret u s' →
  opened s s' (auctioned (pa_NonAuctionableTokens p) (pool_coins s))
    (open_deltas (pa_NonAuctionableTokens p) (pool_coins s)).
Proof.
  intros Hp Hix Hlt E. unfold CreateAuctionsForAuctionPeriod in E.
  mnext E as p1 s1 E1. apply auction_params_inv in E1 as [Hp1 ->]. assert (p1 = p) as -> by congruence.
  mnext E as x1 s2 E2. apply guard_err_inv in E2 as [_ ->].
  mnext E as b s3 E3. assert (s3 = s) as ->.
  { eapply readonly_inv; [|exact E3]. unfold IterateAuctions, auction_entries. readonly. }
  mnext E as x2 s4 E4. apply guard_err_inv in E4 as [_ ->].
  mnext E as o s5 E5. apply gets_inv in E5 as [-> ->].
  mnext E as q s6 E6. apply opt_panic_inv in E6 as [_ ->].
  mnext E as n s7 E7. apply gets_inv in E7 as [-> ->].
  mnext E as x3 s8 E8. apply guard_err_inv in E8 as [_ ->].
  mnext E as cs s9 E9. apply gets_inv in E9 as [-> ->].
  by apply create_all_opened in E.
Qed.

Lemma no_auctions_found s :
  as_auctions s = ∅ → (IterateAuctions false (λ _ _ _, mret (true, true)) : A W bool) s = Ret false s.
Proof.
  intros Hno. unfold IterateAuctions, auction_entries. rewrite (bind_ret _ _ s _ s) by done.
  pose proof (auctions_none s Hno) as Hl. unfold auctions_of in Hl. by apply fmap_nil_inv in Hl as ->.
Qed.

(** What the end of the period does; [pool] is what the pool holds in between. *)
Record rolled p s s' (pool : list Coin) : Prop := {
  ro_params : as_params s' = as_params s;
  ro_height : as_height s' = as_height s;
  ro_period : as_period s' = Some (next_period p s);
  ro_index : indexed s';
  ro_pool : coins_ok pool;
  ro_pool_amount d : amount_of d pool = GetBalance (as_world s) pool_acc d + sumZ (unsold d) (auctions_of s);
  ro_amounts : au_Amount <$> auctions_of s' = auctioned (pa_NonAuctionableTokens p) pool;
  ro_no_bids : Forall (λ a, au_HighestBid a = None) (auctions_of s');
  ro_foreign : Forall (λ a, Denom (au_Amount a) ≠ NativeTokenDenom) (auctions_of s');
  ro_ledger : changed (as_world s) (as_world s')
    (λ acc d, close_deltas p (auctions_of s) acc d + open_deltas (pa_NonAuctionableTokens p) pool acc d)
    (close_supplies p (auctions_of s));
}.

Lemma endAuctionPeriod_booked p s u s' :
  as_params s = Some p → indexed s → MintDenom (as_world s) = Ok NativeTokenDenom →
  endAuctionPeriod s = Ret u s' →
  ∃ s1 e, booked s s1 (close_deltas p (auctions_of s)) (close_supplies p (auctions_of s)) ∧
          s' = add_event e (cleared s1).
Proof.
  intros Hp Hix Hm E. unfold endAuctionPeriod in E.
  mnext E as o s1 E1. apply gets_inv in E1 as [-> ->].
  mnext E as x s2 E2.
  assert (for_each (auctions_of s) (λ a, must "unable to close auction" (close a)) s = Ret x s2) as E2'
    by (rewrite <- IterateAuctions_visit; exact E2). clear E2. rename E2' into E2.
  apply (close_all_booked p) in E2; [|done..|].
  2:{ apply Forall_forall. intros a Ha. by apply elem_of_auctions in Ha. }
  mnext E as y s3 E3. apply DeleteAllAuctions_inv in E3 as ->.
  2:{ apply (indexed_same s); [apply E2..|done]. }
  mnext E as q s4 E4. apply opt_panic_inv in E4 as [_ ->]. apply modify_inv in E as ->. eauto.
Qed.

(** The pool between closing and opening *)
Lemma pool_between p s s1 d :
  auction_ok s → booked s s1 (close_deltas p (auctions_of s)) (close_supplies p (auctions_of s)) →
  amount_of d (pool_coins s1) = GetBalance (as_world s) pool_acc d + sumZ (unsold d) (auctions_of s).
Proof.
  intros Hok Hb. unfold pool_coins. rewrite listed_balances, (ch_balance _ _ _ _ (bk_ledger _ _ _ _ Hb)).
  f_equal. unfold close_deltas. apply sumZ_ext. eapply Forall_impl; [apply (ok_bids s Hok)|].
  intros a Ha. by apply close_delta_pool.
Qed.

(** Auctions that are numbered from now on *)
Definition ids_left s : Prop :=
  last_id s + Z.of_nat (length (pool_coins s)) + Z.of_nat (length (auctions_of s)) < two64.

Lemma sumZ_pos {X} (f : X → Z) l : 0 < sumZ f l → ∃ x, x ∈ l ∧ 0 < f x.
Proof.
  induction l as [|x l IH]; cbn; [lia|]. intros Hs. destruct (decide (0 < f x)).
  - exists x. set_solver.
  - destruct IH as (y & ? & ?); [unfold sumZ in *; lia|]. exists y. set_solver.
Qed.

Lemma pool_between_length p s s1 :
  auction_ok s → booked s s1 (close_deltas p (auctions_of s)) (close_supplies p (auctions_of s)) →
  (length (pool_coins s1) ≤ length (pool_coins s) + length (auctions_of s))%nat.
Proof.
  intros Hok Hb. pose proof (listed_balances_ok (as_world s1) pool_acc) as Hc.
  fold (pool_coins s1) in Hc. pose proof (listed_balances_ok (as_world s) pool_acc) as Hc0.
  fold (pool_coins s) in Hc0.
  rewrite <- (length_fmap Denom (pool_coins s1)), <- (length_fmap Denom (pool_coins s)).
  rewrite <- (length_fmap (λ a, Denom (au_Amount a)) (auctions_of s)), <- length_app.
  apply submseteq_length, NoDup_submseteq; [by apply coins_denoms_NoDup|].
  intros d ([d' x] & -> & Hin)%list_elem_of_fmap. cbn. pose proof (amount_of_elem _ _ Hc Hin) as Hx. cbn in Hx.
  rewrite (pool_between p s s1 d' Hok Hb) in Hx.
  destruct Hc as [_ Hpos]. rewrite Forall_forall in Hpos. destruct (Hpos _ Hin) as [Hxp _]. cbn in Hxp.
  apply elem_of_app. destruct (decide (0 < GetBalance (as_world s) pool_acc d')) as [Hg|Hg].
  - left. rewrite <- listed_balances in Hg. apply amount_of_pos in Hg as [y Hy]; [|done].
    apply list_elem_of_fmap. by exists (mkCoin d' y).
  - right. destruct (sumZ_pos (unsold d') (auctions_of s)) as (a & Ha & Hu); [lia|].
    unfold unsold in Hu. case_decide as Hd; [|lia]. apply list_elem_of_fmap. exists a. naive_solver.
Qed.

Lemma roll_rolled p s s' u u' s1 :
  auction_ok s → as_params s = Some p → ids_left s →
  endAuctionPeriod s = Ret u s1 → scheduleNextAuctionPeriod s1 = Ret u' s' → ∃ pool, rolled p s s' pool.
Proof.
  intros Hok Hp Hids E1 E2. pose proof (ok_index s Hok) as Hix.
  apply (endAuctionPeriod_booked p) in E1 as (s2 & e & Hb & ->); [|done..|apply Hok].
  pose proof (pool_between_length p s s2 Hok Hb) as Hlen.
  unfold scheduleNextAuctionPeriod in E2.
  mnext E2 as q s3 E3. apply must_inv, (CreateNewAuctionPeriod_inv _ _ _ p) in E3 as [-> ->].
  2:{ cbn. by rewrite (bk_params _ _ _ _ Hb). }
  mnext E2 as x s4 E4. apply must_inv in E4. apply modify_inv in E2 as ->.
  set (s3 := set_period _ _) in E4. assert (next_period p (add_event e (cleared s2)) = next_period p s) as Eq.
  { unfold next_period. cbn. by rewrite (bk_height _ _ _ _ Hb). }
  assert (indexed s3) as Hix3.
  { split; [done|]. cbn. rewrite (bk_nonce _ _ _ _ Hb). apply Hix. }
  assert (last_id s3 = last_id s) as El by (unfold last_id; cbn; by rewrite (bk_nonce _ _ _ _ Hb)).
  apply (CreateAuctions_inv p) in E4 as Ho; [|cbn; by rewrite (bk_params _ _ _ _ Hb)|done|].
  2:{ rewrite El. change (pool_coins s3) with (pool_coins s2). unfold ids_left in Hids. lia. }
  change (pool_coins s3) with (pool_coins s2) in Ho.
  destruct (op_new _ _ _ _ Ho) as (new & Ha & Hn & Hnb). rewrite (auctions_none s3) in Ha by done.
  cbn [app] in Ha. exists (pool_coins s2). split.
  - cbn. rewrite (op_params _ _ _ _ Ho). cbn. apply Hb.
  - cbn. rewrite (op_height _ _ _ _ Ho). cbn. apply Hb.
  - cbn. rewrite (op_period _ _ _ _ Ho). cbn. by rewrite Eq.
  - apply (indexed_same s4); [done..|apply Ho].
  - apply listed_balances_ok.
  - intros d. by apply (pool_between p).
  - change (auctions_of (add_event _ s4)) with (auctions_of s4). by rewrite Ha.
  - change (auctions_of (add_event _ s4)) with (auctions_of s4). by rewrite Ha.
  - change (auctions_of (add_event _ s4)) with (auctions_of s4). rewrite Ha.
    pose proof (op_foreign _ _ _ _ Ho) as Hf. rewrite <- Hn, Forall_fmap in Hf. done.
  - eapply changed_ext; [eapply changed_trans; [apply Hb|apply Ho]|done|]. intros d. cbn. lia.
Qed.

(** ** The next period opens *)

(** The period the store holds, which is not the empty one. *)
Record current s per : Prop := {
  cu_period : as_period s = Some per;
  cu_nonempty : ¬ (ap_StartBlockHeight per = 0 ∧ ap_EndBlockHeight per = 0);
}.

Lemma GetAuctionPeriod_eq s per : current s per → GetAuctionPeriod s = Ret (Some per) s.
Proof. intros [Hp Hn]. unfold GetAuctionPeriod. mrun. rewrite Hp. cbn. by rewrite decide_False. Qed.

Lemma auctions_valid s : auction_ok s → Forall auction_valid (auctions_of s).
Proof.
  intros Hok. apply Forall_forall. intros a Ha. split.
  - eapply coin_valid; [apply (ok_coins s Hok)|by apply list_elem_of_fmap_2].
  - pose proof (ok_bids s Hok) as Hb. rewrite Forall_forall in Hb. by apply Hb.
Qed.

Section Succeeds.
Context `{!PaymentsSucceed W}.

Lemma endAuctionPeriod_returns p s per :
  auction_ok s → as_params s = Some p → pa_Enabled p = true → current s per → heights_ok p s per →
  returns endAuctionPeriod s.
Proof.
  intros Hok Hp He Hcur Hh. pose proof (ok_index s Hok) as Hix. destruct (heights_next p s per Hh) as (Eh & _).
  unfold returns, endAuctionPeriod. rewrite (bind_ret _ _ s (Some per) s) by by apply GetAuctionPeriod_eq.
  destruct (close_all_returns p (auctions_of s) s) as ([] & s1 & E1); [done..|apply Hok| | | |].
  { apply Forall_forall. intros a Ha. by apply elem_of_auctions in Ha. }
  { by apply auctions_valid. }
  { intros d. rewrite (ok_books s Hok). done. }
  rewrite (bind_ret _ _ s tt s1) by (rewrite <- E1; exact (IterateAuctions_visit _ s)).
  apply (close_all_booked p) in E1; [|done|apply Hok|].
  2:{ apply Forall_forall. intros a Ha. by apply elem_of_auctions in Ha. }
  destruct (DeleteAllAuctions_returns s1 p per) as ([] & s2 & E2).
  { by rewrite (bk_params _ _ _ _ E1). }
  { done. }
  { rewrite (bk_period _ _ _ _ E1). apply Hcur. }
  { rewrite (bk_height _ _ _ _ E1), Eh. apply Hh. }
  rewrite (bind_ret _ _ _ _ _ E2). by eexists _, _.
Qed.

Lemma CreateAuctions_returns p s :
  as_params s = Some p → pa_Enabled p = true → Params_ValidateBasic p = Ok tt → indexed s →
  as_auctions s = ∅ → MintDenom (as_world s) = Ok NativeTokenDenom →
  last_id s + Z.of_nat (length (pool_coins s)) < two64 →
  as_period s = Some (mkAuctionPeriod (as_height s + 1) (as_height s + 1 + pa_AuctionLength p)) →
  0 ≤ as_height s → as_height s + 1 < two64 →
  returns CreateAuctionsForAuctionPeriod s.
Proof.
  intros Hp He Hv Hix Hno Hm Hlt Hper Hh Hh'. destruct (native_not_auctioned p Hv) as [Hnat Hlen].
  unfold returns, CreateAuctionsForAuctionPeriod. rewrite (bind_ret _ _ s p s) by by apply auction_params_eq.
  rewrite (bind_ret _ _ s tt s) by by rewrite He.
  rewrite (bind_ret _ _ s false s) by by apply no_auctions_found.
  rewrite (bind_ret _ _ s tt s) by done.
  rewrite (bind_ret _ _ s _ s) by (apply GetAuctionPeriod_eq; split; [exact Hper|cbn; lia]).
  rewrite (bind_ret _ _ s _ s) by done.
  rewrite (bind_ret _ _ s (as_height s + 1) s).
  2:{ mrun. rewrite u64_small; [done|]. unfold u64_ok. lia. }
  rewrite (bind_ret _ _ s tt s).
  2:{ cbn [ap_StartBlockHeight ap_EndBlockHeight]. rewrite Z.eqb_refl. by rewrite (proj2 (Z.leb_gt _ _)) by lia. }
  rewrite (bind_ret _ _ s (pool_coins s) s) by done.
  apply create_all_returns; try done; [apply listed_balances_ok|].
  intros d. unfold pool_coins. by rewrite listed_balances.
Qed.

Lemma roll_returns p s per :
  auction_ok s → as_params s = Some p → pa_Enabled p = true → current s per → heights_ok p s per →
  ids_left s → ∃ u s1 s', endAuctionPeriod s = Ret u s1 ∧ scheduleNextAuctionPeriod s1 = Ret u s'.
Proof.
  intros Hok Hp He Hcur Hh Hids. pose proof (ok_index s Hok) as Hix.
  destruct (ok_params s Hok) as (p' & Hp' & Hv). assert (p' = p) as -> by congruence.
  destruct (endAuctionPeriod_returns p s per) as ([] & s1 & E1); [done..|].
  exists tt, s1. pose proof E1 as (s2 & e & Hb & ->)%(endAuctionPeriod_booked p); [|done..|apply Hok].
  pose proof (pool_between_length p s s2 Hok Hb) as Hlen. pose proof (heights_next p s per Hh) as (Eh1 & Eh2 & Eh3).
  set (s1 := add_event e (cleared s2)) in *.
  assert (as_height s1 = as_height s) as Ehs by apply Hb.
  assert (as_params s1 = Some p) as Hp1 by (cbn; by rewrite (bk_params _ _ _ _ Hb)).
  assert (next_period p s1 = next_period p s) as Eq by (unfold next_period; by rewrite Ehs).
  unfold scheduleNextAuctionPeriod.
  rewrite (bind_ret _ _ s1 (next_period p s) (set_period (next_period p s) s1)).
  2:{ unfold must. rewrite (CreateNewAuctionPeriod_returns s1 p per); rewrite ?Eq; try done.
      - cbn. rewrite (bk_period _ _ _ _ Hb). apply Hcur.
      - destruct Hh. split; by rewrite ?Ehs. }
  set (s3 := set_period _ s1).
  destruct (CreateAuctions_returns p s3) as ([] & s4 & E4); try done.
  - split; [done|]. cbn. rewrite (bk_nonce _ _ _ _ Hb). apply Hix.
  - cbn. rewrite (ch_mint _ _ _ _ (bk_ledger _ _ _ _ Hb)). apply Hok.
  - change (pool_coins s3) with (pool_coins s2). unfold ids_left, last_id in *. cbn.
    rewrite (bk_nonce _ _ _ _ Hb). lia.
  - cbn. change (as_height s2) with (as_height s1). by rewrite Ehs, Eh3.
  - change (as_height s3) with (as_height s1). rewrite Ehs. apply Hh.
  - change (as_height s3) with (as_height s1). rewrite Ehs. destruct Hh. lia.
  - rewrite (bind_ret _ _ s3 tt s4) by (unfold must; by rewrite E4). by eexists.
Qed.
End Succeeds.
End PeriodEnd.
