(* ===== verification/AuctionEnd.v ===== *)
(** * What the end of a period leaves, and the assertions about it

    The balances after a period has ended, from [rolled], and that the assertions
    of the end blocker accept them. *)

From stdpp Require Import base gmap list strings sorting.
From S2P Require Import Prelude GoStd Config External Store Coins Auction AuctionBlock AuctionLedger AuctionBooks AuctionSales AuctionPeriodEnd.

#[local] Open Scope Z_scope.

Section Balances.
Context {W : Type} `{SdkLaws} `{!ModuleAccounts} `{!NativeToken} `{Bank W} `{!BankLaws W} `{BankBalances W}
  `{BankSupplies W} `{!BankListing W} `{Ibc W} `{Mint W} `{Accounts W} `{!AccountsLaws W}
  `{!MintLaws W} `{!FeePoolLaws W} `{BankAccess W}.
Implicit Types (s : AState W) (w : W) (p : Params).

(** ** Sums over auctions and coins *)

Lemma sumZ_opp {X} (f : X → Z) l : sumZ (λ x, - f x) l = - sumZ f l.
Proof. induction l; cbn; unfold sumZ in *; lia. Qed.

Lemma sumZ_zero {X} (f : X → Z) l : Forall (λ x, f x = 0) l → sumZ f l = 0.
Proof. induction 1; cbn; unfold sumZ in *; lia. Qed.

Lemma held_sum d l : held d l = sumZ (λ a, held d [a]) l.
Proof. induction l as [|a l IH]; [unfold held; cbn; by case_decide|]. rewrite held_cons, IH. done. Qed.

Lemma amount_of_sum d cs : amount_of d cs = sumZ (λ c, amount_of d (coins1 c)) cs.
Proof. unfold amount_of. apply sumZ_ext, Forall_true. intros c. by rewrite <- amount_of_coins1. Qed.

Lemma coins_ok_filter (P : Coin → Prop) `{∀ c, Decision (P c)} cs : coins_ok cs → coins_ok (filter P cs).
Proof.
  intros [Hs Hc]. split; [by apply StronglySorted_filter'|].
  apply Forall_forall. intros c [_ Hin]%list_elem_of_filter. rewrite Forall_forall in Hc. by apply Hc.
Qed.

Lemma amount_of_auctioned bl d cs :
  amount_of d (auctioned bl cs) = if decide (d ∈ bl) then 0 else amount_of d cs.
Proof.
  unfold auctioned, amount_of. rewrite sumZ_filter. case_decide as Hd.
  - apply sumZ_zero, Forall_true. intros c. by_cases.
  - apply sumZ_ext, Forall_true. intros c. by_cases.
Qed.

(** ** Balances after the period *)

Lemma close_deltas_mod p s d : auction_ok s → close_deltas p (auctions_of s) mod_acc d = - held d (auctions_of s).
Proof.
  intros Hok. unfold close_deltas. rewrite held_sum, <- sumZ_opp. apply sumZ_ext.
  eapply Forall_impl; [apply (ok_bids s Hok)|]. intros a Ha. by apply close_delta_mod.
Qed.

Lemma close_deltas_pool p s d : auction_ok s → close_deltas p (auctions_of s) pool_acc d = sumZ (unsold d) (auctions_of s).
Proof.
  intros Hok. apply sumZ_ext. eapply Forall_impl; [apply (ok_bids s Hok)|].
  intros a Ha. by apply close_delta_pool.
Qed.

Lemma open_deltas_mod bl cs d : open_deltas bl cs mod_acc d = amount_of d (auctioned bl cs).
Proof.
  destruct module_accounts_ne as (N1 & N2 & _). unfold open_deltas. rewrite amount_of_sum.
  unfold auctioned. rewrite sumZ_filter. apply sumZ_ext, Forall_true. intros c.
  unfold open_delta, transfer. by_cases.
Qed.

Lemma open_deltas_pool bl cs d : open_deltas bl cs pool_acc d = - amount_of d cs.
Proof.
  unfold open_deltas. rewrite amount_of_sum, <- sumZ_opp. apply sumZ_ext, Forall_true.
  intros c. apply open_delta_pool.
Qed.

Lemma open_deltas_ordinary bl cs acc d : ordinary acc → open_deltas bl cs acc d = 0.
Proof.
  intros (Hm & Hp & Hd & _)%ordinary_ne. apply sumZ_zero, Forall_true. intros c.
  unfold open_delta, transfer. by_cases.
Qed.

Section Rolled.
Context p s s' pool (Hok : auction_ok s) (Hroll : rolled p s s' pool).

Lemma rolled_mod d : GetBalance (as_world s') mod_acc d = amount_of d (auctioned (pa_NonAuctionableTokens p) pool).
Proof.
  rewrite (ch_balance _ _ _ _ (ro_ledger _ _ _ _ Hroll)), close_deltas_mod, open_deltas_mod by done.
  rewrite (ok_books s Hok). lia.
Qed.

Lemma rolled_pool d : GetBalance (as_world s') pool_acc d = 0.
Proof.
  rewrite (ch_balance _ _ _ _ (ro_ledger _ _ _ _ Hroll)), close_deltas_pool, open_deltas_pool by done.
  rewrite (ro_pool_amount _ _ _ _ Hroll). lia.
Qed.

Lemma rolled_ordinary acc d :
  ordinary acc → GetBalance (as_world s') acc d = GetBalance (as_world s) acc d + sumZ (won acc d) (auctions_of s).
Proof.
  intros Ho. rewrite (ch_balance _ _ _ _ (ro_ledger _ _ _ _ Hroll)), open_deltas_ordinary by done.
  assert (close_deltas p (auctions_of s) acc d = sumZ (won acc d) (auctions_of s)) as ->; [|lia].
  apply sumZ_ext, Forall_true. intros a. by apply close_delta_ordinary.
Qed.

Lemma held_no_bids l d :
  Forall (λ a, au_HighestBid a = None) l → held d l = amount_of d (au_Amount <$> l).
Proof.
  intros Hn. unfold held. rewrite (sumZ_zero bid_of); [case_decide; lia|].
  eapply Forall_impl; [exact Hn|]. intros a Ha. unfold bid_of. by rewrite Ha.
Qed.

(** The invariant holds again. *)
Lemma rolled_ok : auction_ok s'.
Proof.
  pose proof (ro_no_bids _ _ _ _ Hroll) as Hnb. split.
  - apply Hroll.
  - rewrite (ro_params _ _ _ _ Hroll). apply Hok.
  - rewrite (ch_mint _ _ _ _ (ro_ledger _ _ _ _ Hroll)). apply Hok.
  - rewrite (ro_amounts _ _ _ _ Hroll). apply coins_ok_filter, Hroll.
  - apply Hroll.
  - eapply Forall_impl; [exact Hnb|]. intros a Ha b Hb. congruence.
  - intros d. rewrite rolled_mod, held_no_bids by done. by rewrite (ro_amounts _ _ _ _ Hroll).
Qed.
End Rolled.

(** ** One auction among those on sale *)

Lemma auction_elem_amount s a :
  auction_ok s → a ∈ auctions_of s → amount_of (Denom (au_Amount a)) (au_Amount <$> auctions_of s) = Amount (au_Amount a).
Proof. intros Hok Ha. apply amount_of_elem; [apply Hok|by apply list_elem_of_fmap_2]. Qed.

(** A sum over the auctions that only looks at one denom *)
Lemma sum_one_denom s a (f : Auction → Z) :
  auction_ok s → a ∈ auctions_of s → (∀ a', Denom (au_Amount a') ≠ Denom (au_Amount a) → f a' = 0) →
  sumZ f (auctions_of s) = f a.
Proof.
  intros Hok Ha Hf. pose proof (coins_denoms_NoDup _ (ok_coins s Hok)) as Hnd.
  revert Ha Hnd. generalize (auctions_of s). intros l Ha Hnd.
  induction l as [|x l IH]; [by apply not_elem_of_nil in Ha|].
  cbn in Hnd. apply NoDup_cons in Hnd as [Hx Hnd]. cbn [sumZ foldr].
  apply elem_of_cons in Ha as [->|Ha].
  - fold (sumZ f l). rewrite (sumZ_zero f); [lia|]. apply Forall_forall. intros a' Ha'. apply Hf. intros E.
    apply Hx. rewrite <- E, <- list_fmap_compose. by apply (list_elem_of_fmap_2 (Denom ∘ au_Amount)).
  - fold (sumZ f l). rewrite IH by done. rewrite (Hf x); [lia|]. intros E. apply Hx.
    rewrite E, <- list_fmap_compose. by apply (list_elem_of_fmap_2 (Denom ∘ au_Amount)).
Qed.

Lemma unsold_elem s a :
  auction_ok s → a ∈ auctions_of s →
  sumZ (unsold (Denom (au_Amount a))) (auctions_of s) =
  if decide (winner a = None) then Amount (au_Amount a) else 0.
Proof.
  intros Hok Ha. rewrite (sum_one_denom s a _ Hok Ha); unfold unsold; [by_cases|].
  intros a' Hne. rewrite decide_False by naive_solver. done.
Qed.

Lemma won_elem s a acc :
  auction_ok s → a ∈ auctions_of s → winner a = Some acc →
  sumZ (won acc (Denom (au_Amount a))) (auctions_of s) = Amount (au_Amount a).
Proof.
  intros Hok Ha Hw. rewrite (sum_one_denom s a _ Hok Ha); unfold won; [by_cases|].
  intros a' Hne. rewrite decide_False by naive_solver. done.
Qed.

Lemma won_native s acc : auction_ok s → sumZ (won acc NativeTokenDenom) (auctions_of s) = 0.
Proof.
  intros Hok. apply sumZ_zero. eapply Forall_impl; [apply (ok_foreign s Hok)|].
  intros a Ha. unfold won. by rewrite decide_False by naive_solver.
Qed.

Lemma native_held s : auction_ok s → held NativeTokenDenom (auctions_of s) = sumZ bid_of (auctions_of s).
Proof.
  intros Hok. unfold held. rewrite decide_True by done. rewrite amount_of_absent; [lia|].
  rewrite Forall_fmap. apply Hok.
Qed.

Lemma foreign_held s d :
  d ≠ NativeTokenDenom → held d (auctions_of s) = amount_of d (au_Amount <$> auctions_of s).
Proof. intros Hd. unfold held. rewrite decide_False by done. lia. Qed.
End Balances.

(** * The end blocker of the auction module

    Its assertions hold: when a period ends the winners are paid, the rest is put up
    again, and the function returns, unless a token on sale has been taken off the
    list of auctionable tokens in the meantime: then it panics. *)

Section EndBlock.
Context {W : Type} `{SdkLaws} `{!ModuleAccounts} `{!NativeToken} `{Bank W} `{!BankLaws W} `{BankBalances W}
  `{BankSupplies W} `{!BankListing W} `{Ibc W} `{Mint W} `{Accounts W} `{!AccountsLaws W}
  `{!MintLaws W} `{!FeePoolLaws W} `{BankAccess W} `{CoinsApi} `{!CoinsLaws}.
Implicit Types (s : AState W) (w : W) (p : Params).

(** ** Supplies *)

Lemma coins_ok_prefix a b : coins_ok (a ++ b) → coins_ok a.
Proof.
  intros [Hs Hc]. split; [by apply StronglySorted_app_1_l in Hs|]. by apply Forall_app in Hc as [? _].
Qed.

Lemma amount_of_app d a b : amount_of d (a ++ b) = amount_of d a + amount_of d b.
Proof. apply sumZ_app. Qed.

Lemma add_all pre rest s :
  coins_ok (pre ++ rest) → (∀ d, amount_of d (pre ++ rest) < 2 ^ 256) →
  for_acc rest pre (λ c coins, coins' ← opt_panic "Coins.Add" (Coins_Add coins [c]); mret (coins', false)) s
  = Ret (pre ++ rest) s.
Proof.
  revert pre. induction rest as [|c rest IH]; intros pre Hok Hlt; [by rewrite app_nil_r|].
  assert (coins_ok (pre ++ [c])) as Hok1 by (apply (coins_ok_prefix _ rest); by rewrite <- app_assoc).
  pose proof (coins_ok_prefix _ _ Hok1) as Hpre.
  destruct (coin_valid c (pre ++ [c]) Hok1) as [Hv Hpos]; [set_solver|].
  unfold Coin_IsValid in Hv. apply andb_true_iff in Hv as [Hd _].
  destruct (coins_add pre c) as (b & Eb & Hb & Ham); [done|lia|done|..].
  { specialize (Hlt (Denom c)). change (c :: rest) with ([c] ++ rest) in Hlt, Hok.
    rewrite app_assoc, !amount_of_app, amount_of_singleton, decide_True in Hlt by done.
    assert (0 ≤ amount_of (Denom c) rest); [|lia].
    apply sumZ_nonneg. destruct Hok as [_ Hc]. rewrite !Forall_app in Hc. destruct Hc as (_ & _ & Hc).
    eapply Forall_impl; [exact Hc|]. intros x [? _]. case_decide; lia. }
  cbn [for_acc]. rewrite (bind_ret _ _ s (b, false) s).
  2:{ rewrite (bind_ret _ _ s b s); [done|]. by rewrite Eb. }
  assert (b = pre ++ [c]) as ->.
  { apply coins_ext; [done..|]. intros d. by rewrite Ham, amount_of_app. }
  cbv beta iota zeta. rewrite IH; rewrite <- app_assoc; done.
Qed.

Lemma getBankSupplies_eq s : getBankSupplies s = Ret (TotalSupply (as_world s)) s.
Proof.
  unfold getBankSupplies. rewrite (bind_ret _ _ s _ s) by done.
  apply (add_all []); cbn [app]; [apply listed_supply_ok|].
  intros d. rewrite listed_supply. apply (held_within_supply (as_world s) [] d). constructor.
Qed.

Lemma close_supplies_sum p s d :
  auction_ok s →
  close_supplies p (auctions_of s) d =
  if pa_BurnWinningBids p then - (if decide (d = NativeTokenDenom) then sumZ bid_of (auctions_of s) else 0) else 0.
Proof.
  intros Hok. pose proof (ok_bids s Hok) as Hb. unfold close_supplies. destruct (pa_BurnWinningBids p) eqn:Ep.
  - assert (sumZ (λ a, close_supply p a d) (auctions_of s) =
            sumZ (λ a, - (if decide (d = NativeTokenDenom) then bid_of a else 0)) (auctions_of s)) as ->.
    { apply sumZ_ext. eapply Forall_impl; [exact Hb|]. intros a Ha. unfold close_supply. rewrite Ep.
      destruct (winner a) as [acc|] eqn:Ew; [by rewrite amount_bid_coins|].
      unfold bid_of. destruct (au_HighestBid a) as [b|] eqn:Eb; [|by case_decide].
      destruct (winner_some a b Eb (Ha b Eb)) as [? ?]. congruence. }
    rewrite sumZ_opp. f_equal. case_decide; [done|]. by apply sumZ_zero, Forall_true.
  - apply sumZ_zero, Forall_true. intros a. unfold close_supply. rewrite Ep. by case_match.
Qed.

Lemma bids_nonneg s : auction_ok s → 0 ≤ sumZ bid_of (auctions_of s).
Proof.
  intros Hok. apply sumZ_nonneg. eapply Forall_impl; [apply (ok_bids s Hok)|]. apply bid_of_nonneg.
Qed.

(** Only the native token was burnt, and only if bids are burnt. *)
Lemma supply_assertion p s s' pool :
  auction_ok s → as_params s = Some p → rolled p s s' pool →
  assertSupplyIntegrity (TotalSupply (as_world s)) (TotalSupply (as_world s')) true s' = Ret tt s'.
Proof.
  intros Hok Hp Hroll. pose proof (bids_nonneg s Hok) as Hn. set (bids := sumZ bid_of (auctions_of s)) in *.
  assert (∀ d, amount_of d (TotalSupply (as_world s)) - amount_of d (TotalSupply (as_world s')) =
          if pa_BurnWinningBids p then if decide (d = NativeTokenDenom) then bids else 0 else 0) as Hdiff.
  { intros d. rewrite !listed_supply, (ch_supply _ _ _ _ (ro_ledger _ _ _ _ Hroll)), close_supplies_sum by done.
    fold bids. destruct (pa_BurnWinningBids p); lia. }
  destruct (coins_sub (TotalSupply (as_world s)) (TotalSupply (as_world s'))) as (df & Edf & Hdf & Ham);
    [apply listed_supply_ok..| |].
  { intros d. specialize (Hdiff d). destruct (pa_BurnWinningBids p); [case_decide|]; lia. }
  unfold assertSupplyIntegrity. cbn [negb].
  rewrite (bind_ret _ _ s' p s').
  2:{ unfold must. rewrite (auction_params_eq s' p); [done|]. by rewrite (ro_params _ _ _ _ Hroll). }
  rewrite (bind_ret _ _ s' df s') by by rewrite Edf.
  rewrite coins_is_zero by done.
  destruct (decide (pa_BurnWinningBids p = true ∧ bids ≠ 0)) as [[Hburn Hb]|Hz].
  - assert (df = [mkCoin NativeTokenDenom bids]) as ->.
    { apply coins_ext; [done|apply coins_ok_one; cbn; [lia|apply native_valid]|].
      intros d. rewrite Ham, Hdiff, Hburn, amount_of_singleton. cbn. repeat case_decide; congruence. }
    rewrite bool_decide_eq_false_2 by done. cbn [negb].
    rewrite (bind_ret _ _ s' tt s') by by rewrite bool_decide_eq_false_2 by (cbn; tauto).
    by rewrite Hburn.
  - assert (df = []) as ->; [|done].
    apply coins_ext; [done|apply coins_ok_nil|]. intros d. rewrite Ham, Hdiff. cbn.
    destruct (pa_BurnWinningBids p); [|done]. case_decide; [|done].
    destruct (decide (bids = 0)); [done|]. naive_solver.
Qed.

(** ** Balances *)

Lemma auction_denom_valid s a : auction_ok s → a ∈ auctions_of s → ValidateDenom (Denom (au_Amount a)) = true.
Proof.
  intros Hok Ha. destruct (coin_valid (au_Amount a) _ (ok_coins s Hok)) as [Hv _]; [by apply list_elem_of_fmap_2|].
  unfold Coin_IsValid in Hv. by apply andb_true_iff in Hv as [? _].
Qed.

Lemma amount_in_eq cs d s :
  coins_ok cs → ValidateDenom d = true → (amount_in cs d : A W Z) s = Ret (amount_of d cs) s.
Proof. intros Hc Hd. unfold amount_in. by rewrite coins_amount_of. Qed.

(** What was recorded of the winners *)
Definition recorded w (l : list Auction) (m : gmap string (list Coin)) : Prop :=
  ∀ a b acc, a ∈ l → au_HighestBid a = Some b → AccAddressFromBech32 (bid_BidderAddress b) = Ok acc →
  m !! bid_BidderAddress b = Some (GetAllBalances w acc).

Definition add_winner (a : Auction) (accs : gmap string (list Coin)) : A W (gmap string (list Coin) * bool) :=
  match au_HighestBid a with
  | Some highestBid =>
      acc ← or_panic "MustAccAddressFromBech32" (AccAddressFromBech32 (bid_BidderAddress highestBid));
      balances ← gets (λ s, GetAllBalances (as_world s) acc);
      mret (<[bid_BidderAddress highestBid := balances]> accs, false)
  | None => mret (accs, false)
  end.

Lemma recorded_step s l a m :
  recorded (as_world s) l m → (∀ b, au_HighestBid a = Some b → bid_ok b) →
  ∃ m', add_winner a m s = Ret (m', false) s ∧ recorded (as_world s) (l ++ [a]) m'.
Proof.
  intros Hm Hb. unfold add_winner. destruct (au_HighestBid a) as [b|] eqn:Eb.
  - destruct (Hb b eq_refl) as (_ & acc & Hacc & _). eexists. split.
    { rewrite (bind_ret _ _ s acc s) by by rewrite Hacc. by rewrite (bind_ret _ _ s _ s) by done. }
    intros a' b' acc' Hin Hb' Hacc'. destruct (decide (bid_BidderAddress b' = bid_BidderAddress b)) as [E|E].
    + rewrite E in *. rewrite lookup_insert_eq. congruence.
    + rewrite lookup_insert_ne by done. apply elem_of_app in Hin as [Hin|Hin]; [by eapply Hm|].
      apply list_elem_of_singleton in Hin as ->. congruence.
  - exists m. split; [done|]. intros a' b' acc' Hin. apply elem_of_app in Hin as [Hin|Hin]; [by apply Hm|].
    apply list_elem_of_singleton in Hin as ->. congruence.
Qed.

Lemma collect_affected_eq s :
  auction_ok s → ∃ m, collect_affected s = Ret m s ∧ recorded (as_world s) (auctions_of s) m.
Proof.
  intros Hok. pose proof (ok_bids s Hok) as Hb.
  unfold collect_affected, IterateAuctions, auction_entries. rewrite (bind_ret _ _ s _ s) by done.
  assert (∀ l pre m, Forall (λ a, ∀ b, au_HighestBid a = Some b → bid_ok b) (snd <$> l) →
    recorded (as_world s) pre m →
    ∃ m', for_acc l m (λ (kv : bytes * Auction) acc, add_winner kv.2 acc) s = Ret m' s ∧
          recorded (as_world s) (pre ++ (snd <$> l)) m') as Hgen.
  { induction l as [|[k a] l IH]; intros pre m Hl Hm; cbn [for_acc fmap list_fmap].
    - exists m. by rewrite app_nil_r.
    - cbn in Hl. apply Forall_cons in Hl as [Ha Hl].
      destruct (recorded_step s pre a m Hm Ha) as (m1 & E1 & Hm1). cbn [snd].
      rewrite (bind_ret _ _ _ _ _ E1). destruct (IH (pre ++ [a]) m1 Hl Hm1) as (m' & E' & Hm').
      exists m'. split; [done|]. by rewrite <- app_assoc in Hm'. }
  destruct (Hgen (iter_asc (as_auctions s) (prefixRange KeyAuction)) [] ∅ Hb) as (m & E & Hm); [intros ? ? ? Hin; by apply not_elem_of_nil in Hin|].
  exists m. split; [exact E|exact Hm].
Qed.

Lemma balance_range' w acc d : 0 ≤ GetBalance w acc d < 2 ^ 256.
Proof. apply balance_range. Qed.

Lemma on_sale s a :
  auction_ok s → a ∈ auctions_of s →
  Denom (au_Amount a) ≠ NativeTokenDenom ∧ GetBalance (as_world s) mod_acc (Denom (au_Amount a)) = Amount (au_Amount a).
Proof.
  intros Hok Ha. pose proof (ok_foreign s Hok) as Hf. rewrite Forall_forall in Hf. specialize (Hf a Ha).
  split; [done|]. rewrite (ok_books s Hok), foreign_held by done. by apply auction_elem_amount.
Qed.

Lemma sum_bids_below s l :
  auction_ok s → (∀ a, a ∈ l → a ∈ auctions_of s) → NoDup l → 0 ≤ sumZ bid_of l < 2 ^ 256.
Proof.
  intros Hok Hin Hnd. pose proof (ok_bids s Hok) as Hb. rewrite Forall_forall in Hb.
  assert (∀ a, a ∈ auctions_of s → 0 ≤ bid_of a) as Hn.
  { intros a Ha. by apply bid_of_nonneg, Hb. }
  split; [apply sumZ_nonneg, Forall_forall; auto|].
  pose proof (native_held s Hok) as Hh. rewrite <- (ok_books s Hok) in Hh.
  pose proof (balance_range' (as_world s) mod_acc NativeTokenDenom) as Hr.
  assert (l ⊆+ auctions_of s) as [k Hk]%submseteq_Permutation by by apply NoDup_submseteq.
  assert (sumZ bid_of (auctions_of s) = sumZ bid_of l + sumZ bid_of k) as Es by by rewrite Hk, sumZ_app.
  assert (0 ≤ sumZ bid_of k); [|lia]. apply sumZ_nonneg, Forall_forall. intros a Ha. apply Hn.
  rewrite Hk. set_solver.
Qed.

(** A token on sale that has been taken off the list of auctionable tokens, while
    some of it is to be sold in the next period *)
Definition stuck p s (a : Auction) : Prop :=
  Denom (au_Amount a) ∈ pa_NonAuctionableTokens p ∧
  (au_HighestBid a = None ∨ 0 < GetBalance (as_world s) pool_acc (Denom (au_Amount a))).

#[export] Instance stuck_dec p s a : Decision (stuck p s a).
Proof. unfold stuck. destruct (au_HighestBid a); solve_decision. Defined.

Section Assertions.
Context p s s' pool m (Hok : auction_ok s) (Hroll : rolled p s s' pool)
  (Hrec : recorded (as_world s) (auctions_of s) m).

Let start_mod := GetAllBalances (as_world s) mod_acc.
Let start_pool := GetAllBalances (as_world s) pool_acc.
Let end_mod := GetAllBalances (as_world s') mod_acc.
Let end_pool := GetAllBalances (as_world s') pool_acc.

(** What the module holds of the auction's token afterwards *)
Lemma end_mod_amount a :
  a ∈ auctions_of s →
  amount_of (Denom (au_Amount a)) end_mod =
  if decide (Denom (au_Amount a) ∈ pa_NonAuctionableTokens p) then 0 else
  amount_of (Denom (au_Amount a)) start_pool + (if decide (winner a = None) then Amount (au_Amount a) else 0).
Proof.
  intros Ha. unfold end_mod, start_pool. rewrite !listed_balances, (rolled_mod p s s' pool Hok Hroll).
  rewrite amount_of_auctioned. case_decide; [done|].
  by rewrite (ro_pool_amount _ _ _ _ Hroll), unsold_elem.
Qed.

Lemma end_mod_stuck a :
  a ∈ auctions_of s →
  amount_of (Denom (au_Amount a)) end_mod =
    amount_of (Denom (au_Amount a)) start_pool + (if decide (au_HighestBid a = None) then Amount (au_Amount a) else 0)
  ↔ ¬ stuck p s a.
Proof.
  intros Ha. rewrite (end_mod_amount a Ha). pose proof (ok_bids s Hok) as Hb. rewrite Forall_forall in Hb.
  destruct (coin_valid (au_Amount a) _ (ok_coins s Hok)) as [_ Hpos]; [by apply list_elem_of_fmap_2|].
  unfold start_pool. rewrite listed_balances. pose proof (balance_range' (as_world s) pool_acc (Denom (au_Amount a))).
  assert (winner a = None ↔ au_HighestBid a = None) as Hw.
  { destruct (au_HighestBid a) as [b|] eqn:Eb; [|unfold winner; by rewrite Eb].
    destruct (winner_some a b Eb (Hb a Ha b Eb)) as [x ->]. done. }
  unfold stuck. rewrite (decide_ext (winner a = None) (au_HighestBid a = None)) by done.
  destruct (decide (0 < GetBalance (as_world s) pool_acc (Denom (au_Amount a))));
    repeat case_decide; split; intros; first [tauto|lia|intros (_ & [?|?]); [done|lia]].
Qed.

(** The last check of an auction *)
Lemma guard_stuck {X} a (x y : Z) msg (v : X) :
  (x = y ↔ ¬ stuck p s a) →
  ((_ ← guard_panic (negb (x =? y)) msg; mret v) : A W X) s' =
  if decide (stuck p s a) then Panic msg else Ret v s'.
Proof.
  intros Hx. destruct (Z.eqb_spec x y); case_decide; try tauto; done.
Qed.

Lemma assert_closed_eq a :
  a ∈ auctions_of s → ∃ msg,
  assert_closed m start_mod start_pool end_mod a s' =
  if decide (stuck p s a) then Panic msg else Ret (bid_of a) s'.
Proof.
  intros Ha. destruct (on_sale s a Hok Ha) as [Hn Hm]. pose proof (auction_denom_valid s a Hok Ha) as Hv.
  pose proof (end_mod_stuck a Ha) as Hend.
  pose proof (ok_bids s Hok) as Hb. rewrite Forall_forall in Hb. specialize (Hb a Ha).
  unfold assert_closed. rewrite (bind_ret _ _ s' _ s') by (apply amount_in_eq; [apply listed_balances_ok|done]).
  assert (amount_of (Denom (au_Amount a)) start_mod = Amount (au_Amount a)) as Hst
    by (unfold start_mod; by rewrite listed_balances). rewrite Hst.
  rewrite (bind_ret _ _ s' tt s') by by rewrite Z.eqb_refl.
  rewrite (bind_ret _ _ s' _ s') by (apply amount_in_eq; [apply listed_balances_ok|done]).
  rewrite (bind_ret _ _ s' _ s') by (apply amount_in_eq; [apply listed_balances_ok|done]).
  unfold bid_of. destruct (au_HighestBid a) as [b|] eqn:Eb.
  - destruct (Hb b eq_refl) as (Hpos & acc & Hacc & Hord).
    assert (winner a = Some acc) as Hw by (unfold winner; rewrite Eb; cbn; by rewrite Hacc).
    rewrite (Hrec a b acc Ha Eb Hacc). cbn [default id].
    rewrite (bind_ret _ _ s' _ s') by (apply amount_in_eq; [apply listed_balances_ok|apply native_valid]).
    rewrite (bind_ret _ _ s' acc s') by by rewrite Hacc.
    rewrite (bind_ret _ _ s' _ s') by done.
    rewrite (bind_ret _ _ s' tt s').
    2:{ rewrite listed_balances, (rolled_ordinary p s s' pool Hroll acc _ Hord), won_native by done.
        by rewrite Z.add_0_r, Z.eqb_refl. }
    rewrite (bind_ret _ _ s' _ s') by (apply amount_in_eq; [apply listed_balances_ok|done]).
    rewrite listed_balances. set (d := Denom (au_Amount a)) in *.
    pose proof (balance_range' (as_world s) acc d) as Hr.
    rewrite (bind_ret _ _ s' (mkCoin d (GetBalance (as_world s) acc d)) s').
    2:{ unfold NewCoin, Coin_IsValid. cbn. rewrite Hv. by rewrite (proj2 (Z.leb_le _ _)) by lia. }
    rewrite (bind_ret _ _ s' _ s') by done.
    rewrite (rolled_ordinary p s s' pool Hroll acc d Hord), (won_elem s a acc) by done.
    pose proof (balance_range' (as_world s) mod_acc d) as Hr'. rewrite Hm in Hr'.
    rewrite (bind_ret _ _ s' (au_Amount a) s').
    2:{ unfold Coin_Sub. cbn [Denom Amount]. rewrite decide_True by done.
        rewrite (proj2 (Z.ltb_ge _ _)) by lia. unfold Int_Sub. rewrite int_check_ok by (unfold int_ok; lia).
        cbn. unfold d. replace (_ - _) with (Amount (au_Amount a)) by lia. by destruct (au_Amount a). }
    rewrite (bind_ret _ _ s' tt s') by by rewrite bool_decide_eq_false_2 by tauto.
    eexists. apply guard_stuck. rewrite <- Hend. rewrite decide_False by done. lia.
  - unfold start_pool in *. rewrite listed_balances in *.
    destruct module_accounts_ne as (N1 & _).
    pose proof (held_within_supply (as_world s) [mod_acc; pool_acc] (Denom (au_Amount a))) as Hsup.
    cbn [sumZ foldr] in Hsup. rewrite Hm in Hsup. specialize (Hsup ltac:(repeat constructor; set_solver)).
    pose proof (balance_range' (as_world s) pool_acc (Denom (au_Amount a))) as Hr.
    destruct (coin_valid (au_Amount a) _ (ok_coins s Hok)) as [_ Hpos]; [by apply list_elem_of_fmap_2|].
    rewrite (bind_ret _ _ s' _ s') by (rewrite Int_Add_ok by lia; done).
    eexists. apply guard_stuck. rewrite <- Hend. rewrite decide_True by done. lia.
Qed.

Lemma sum_closed l done_ :
  done_ ++ l = auctions_of s → ∃ msg,
  for_acc l (sumZ bid_of done_) (λ auction bidAmounts,
    bid ← assert_closed m start_mod start_pool end_mod auction;
    total ← opt_panic "Int.Add" (Int_Add bidAmounts bid);
    mret (total, false)) s' =
  if decide (Exists (stuck p s) l) then Panic msg else Ret (sumZ bid_of (auctions_of s)) s'.
Proof.
  revert done_. induction l as [|a l IH]; intros done_ E.
  - rewrite app_nil_r in E. exists "". rewrite decide_False by (by intros ?%Exists_nil). by rewrite <- E.
  - assert (a ∈ auctions_of s) as Ha by (rewrite <- E; set_solver).
    pose proof (NoDup_fmap_1 _ _ (coins_NoDup _ (ok_coins s Hok))) as Hnd.
    destruct (IH (done_ ++ [a])) as [msg Hmsg]; [by rewrite <- app_assoc|].
    destruct (assert_closed_eq a Ha) as [msg1 Ea]. cbn [for_acc].
    destruct (decide (stuck p s a)) as [Hs|Hs].
    + exists msg1. rewrite decide_True by by left. by do 2 apply bind_panic.
    + exists msg. rewrite (decide_ext (Exists (stuck p s) (a :: l)) (Exists (stuck p s) l)).
      2:{ rewrite Exists_cons. tauto. }
      rewrite (bind_ret _ _ s' (sumZ bid_of (done_ ++ [a]), false) s'); [exact Hmsg|].
      rewrite (bind_ret _ _ s' (bid_of a) s') by exact Ea.
      rewrite sumZ_app. cbn [sumZ foldr]. rewrite Z.add_0_r.
      rewrite (bind_ret _ _ s' (sumZ bid_of done_ + bid_of a) s'); [done|].
      rewrite Int_Add_ok; [done|].
      replace (sumZ bid_of done_ + bid_of a) with (sumZ bid_of (done_ ++ [a])) by (rewrite sumZ_app; cbn; lia).
      apply (sum_bids_below s); [done|..].
      * intros x Hx. rewrite <- E. set_solver.
      * rewrite <- E in Hnd. change (a :: l) with ([a] ++ l) in Hnd. rewrite app_assoc in Hnd.
        by apply NoDup_app in Hnd as [? _].
Qed.

Lemma for_acc_stays {S X} (l : list X) (f : X → unit → M S (unit * bool)) (st : S) :
  (∀ x, x ∈ l → f x tt st = Ret (tt, false) st) → for_acc l tt f st = Ret tt st.
Proof.
  induction l as [|x l IH]; intros Hf; [done|]. cbn [for_acc].
  rewrite (bind_ret _ _ st (tt, false) st) by (apply Hf; set_solver). apply IH. set_solver.
Qed.

(** The assertions about balances hold unless a token is stuck. *)
Lemma balance_assertion :
  as_params s = Some p → ∃ msg,
  assertBalanceChanges true (auctions_of s) m start_mod start_pool end_mod end_pool s' =
  if decide (Exists (stuck p s) (auctions_of s)) then Panic msg else Ret tt s'.
Proof.
  intros Hp. pose proof (rolled_ok p s s' pool Hok Hroll) as Hok'.
  destruct (ok_params s Hok) as (p' & Hp' & Hv). assert (p' = p) as -> by congruence.
  destruct (native_not_auctioned p Hv) as [Hnat _].
  unfold assertBalanceChanges. cbn [negb].
  destruct (sum_closed (auctions_of s) []) as [msg Hsum]; [done|]. exists msg. case_decide as Hst.
  { by apply bind_panic. }
  rewrite (bind_ret _ _ s' _ s') by exact Hsum.
  assert (end_pool = []) as Ep.
  { apply coins_ext; [apply listed_balances_ok|apply coins_ok_nil|]. intros d. unfold end_pool.
    by rewrite listed_balances, (rolled_pool p s s' pool). }
  rewrite (bind_ret _ _ s' tt s').
  2:{ rewrite Ep, coins_is_zero by apply coins_ok_nil. done. }
  rewrite (bind_ret _ _ s' _ s') by (apply amount_in_eq; [apply listed_balances_ok|apply native_valid]).
  rewrite (bind_ret _ _ s' _ s') by (apply amount_in_eq; [apply listed_balances_ok|apply native_valid]).
  rewrite (bind_ret _ _ s' tt s').
  2:{ unfold end_mod. rewrite listed_balances, (rolled_mod p s s' pool), amount_of_auctioned by done.
      by rewrite decide_True. }
  rewrite (bind_ret _ _ s' tt s').
  2:{ unfold start_mod. rewrite listed_balances, (ok_books s Hok), native_held, Z.eqb_refl by done. done. }
  unfold IterateAuctions, auction_entries. rewrite (bind_ret _ _ s' _ s') by done.
  apply for_acc_stays. intros [k a] Hin. cbn [fst snd].
  assert (a ∈ auctions_of s') as Ha by (apply list_elem_of_fmap; by exists (k, a)).
  rewrite (bind_ret _ _ s' _ s') by
    (apply amount_in_eq; [apply listed_balances_ok|by apply (auction_denom_valid s')]).
  rewrite (bind_ret _ _ s' tt s'); [done|].
  unfold end_mod. rewrite listed_balances. destruct (on_sale s' a Hok' Ha) as [_ ->]. by rewrite Z.eqb_refl.
Qed.
End Assertions.

(** ** The end of a period *)

Section Ends.
Context `{!PaymentsSucceed W}.

(** A period that is over, in a state where the module may go on *)
Record period_over p s per : Prop := {
  pv_ok : auction_ok s;
  pv_params : as_params s = Some p;
  pv_enabled : pa_Enabled p = true;
  pv_current : current s per;
  pv_heights : heights_ok p s per;
  pv_ids : ids_left s;
}.

Lemma close_period_eq p s per :
  period_over p s per →
  ∃ m s' pool, close_period s = Ret (true, auctions_of s, m) s' ∧ rolled p s s' pool ∧
               recorded (as_world s) (auctions_of s) m.
Proof.
  intros [Hok Hp He Hc Hh Hi]. destruct (collect_affected_eq s Hok) as (m & Em & Hm).
  destruct (roll_returns p s per) as ([] & s1 & s' & E1 & E2); [done..|].
  destruct (roll_rolled p s s' _ _ s1 Hok Hp Hi E1 E2) as [pool Hr].
  exists m, s', pool. split; [|done]. unfold close_period.
  rewrite (bind_ret _ _ s true s) by (rewrite <- He; by apply ModuleEnabled_eq). cbn [negb].
  rewrite (bind_ret _ _ s (Some per) s) by by apply GetAuctionPeriod_eq.
  rewrite (bind_ret _ _ s per s) by done.
  rewrite (bind_ret _ _ s (as_height s) s).
  2:{ unfold block_height. mrun. by destruct (heights_next p s per Hh) as [-> _]. }
  rewrite (proj2 (Z.leb_le _ _)) by apply Hh.
  rewrite (bind_ret _ _ s (auctions_of s) s) by apply GetAllAuctions_eq.
  rewrite (bind_ret _ _ _ _ _ Em), (bind_ret _ _ _ _ _ E1), (bind_ret _ _ _ _ _ E2). done.
Qed.

Lemma EndBlocker_over p s per :
  period_over p s per → ∃ s' pool msg, rolled p s s' pool ∧
  EndBlocker s = if decide (Exists (stuck p s) (auctions_of s)) then Panic msg else Ret tt s'.
Proof.
  intros Hov. pose proof (pv_ok _ _ _ Hov) as Hok. pose proof (pv_params _ _ _ Hov) as Hp.
  destruct (close_period_eq p s per Hov) as (m & s' & pool & E & Hr & Hm).
  destruct (balance_assertion p s s' pool m Hok Hr Hm Hp) as [msg Hbal].
  exists s', pool, msg. split; [done|]. unfold EndBlocker.
  rewrite (bind_ret _ _ s _ s) by apply getBankSupplies_eq.
  rewrite (bind_ret _ _ s _ s) by done. rewrite (bind_ret _ _ s _ s) by done.
  rewrite (bind_ret _ _ _ _ _ E).
  rewrite (bind_ret _ _ s' _ s') by apply getBankSupplies_eq.
  rewrite (bind_ret _ _ s' _ s') by done. rewrite (bind_ret _ _ s' _ s') by done.
  rewrite (bind_ret _ _ s' tt s') by by eapply supply_assertion.
  exact Hbal.
Qed.
End Ends.

(** ** While a period runs *)

(** Nothing happens before the end of the period, or while the module is disabled. *)
Lemma EndBlocker_waits p s per :
  as_params s = Some p → pa_Enabled p = false ∨ current s per ∧ u64 (as_height s) < ap_EndBlockHeight per →
  EndBlocker s = Ret tt s.
Proof.
  intros Hp Hwait. unfold EndBlocker.
  rewrite (bind_ret _ _ s _ s) by apply getBankSupplies_eq.
  rewrite (bind_ret _ _ s _ s) by done. rewrite (bind_ret _ _ s _ s) by done.
  rewrite (bind_ret _ _ s (false, [], ∅) s).
  - rewrite (bind_ret _ _ s _ s) by apply getBankSupplies_eq.
    rewrite (bind_ret _ _ s _ s) by done. rewrite (bind_ret _ _ s _ s) by done.
    unfold assertSupplyIntegrity, assertBalanceChanges. cbn [negb].
    rewrite !coins_equal by (apply listed_supply_ok || apply listed_balances_ok).
    by rewrite !bool_decide_eq_true_2 by done.
  - unfold close_period. rewrite (bind_ret _ _ s _ s) by by apply ModuleEnabled_eq.
    destruct Hwait as [->|[Hcur Hlt]]; [done|]. destruct (pa_Enabled p); [|done]. cbn [negb].
    rewrite (bind_ret _ _ s (Some per) s) by by apply GetAuctionPeriod_eq.
    rewrite (bind_ret _ _ s per s) by done. rewrite (bind_ret _ _ s (u64 (as_height s)) s) by done.
    by rewrite (proj2 (Z.leb_gt _ _)) by done.
Qed.
End EndBlock.
