(* ===== verification/AuctionBid.v ===== *)
(** * Bids

    What a bid does, on every path of the handler: it is accepted exactly when it
    is [admissible] and the bidder can spend its amount and fee, and an accepted bid
    refunds the bidder it replaces. *)

From stdpp Require Import base gmap list strings.
From S2P Require Import Prelude GoStd Config External Store Coins Auction AuctionServer AuctionBlock AuctionLedger AuctionBooks AuctionSales AuctionEnd.

#[local] Open Scope Z_scope.

Notation native x := (mkCoin NativeTokenDenom x).

Section Bids.
Context {W : Type} `{SdkLaws} `{!ModuleAccounts} `{!NativeToken} `{Bank W} `{!BankLaws W} `{BankBalances W}
  `{BankSupplies W} `{!BankListing W} `{Ibc W} `{Mint W} `{Accounts W} `{!AccountsLaws W}
  `{!MintLaws W} `{!FeePoolLaws W} `{BankAccess W}.
Implicit Types (s : AState W) (w : W) (p : Params) (msg : MsgBid).

(** ** Coins of the native token *)

Lemma native_sub x y : 0 ≤ y ≤ x → x < 2 ^ 256 → Coin_Sub (native x) (native y) = Some (native (x - y)).
Proof.
  intros Hy Hx. unfold Coin_Sub. cbn [Denom Amount]. rewrite decide_True by done.
  rewrite (proj2 (Z.ltb_ge _ _)) by lia. unfold Int_Sub. by rewrite int_check_ok by (unfold int_ok; lia).
Qed.

Lemma native_add x y : 0 ≤ x + y < 2 ^ 256 → Coin_Add (native x) (native y) = Some (native (x + y)).
Proof.
  intros Hx. unfold Coin_Add. cbn [Denom Amount]. rewrite decide_True by done. by rewrite Int_Add_ok.
Qed.

Lemma amount_native d x : amount_of d (coins1 (native x)) = if decide (d = NativeTokenDenom) then x else 0.
Proof. rewrite amount_of_coins1. cbn. repeat case_decide; congruence. Qed.

Lemma coin_sub_eq x y s : 0 ≤ y ≤ x → x < 2 ^ 256 → (coin_sub (native x) (native y) : A W _) s = Ret (native (x - y)) s.
Proof. intros. unfold coin_sub. by rewrite native_sub. Qed.

(** ** The record of the highest bid *)

Lemma UpdateHighestBidder_eq s p a b acc :
  as_params s = Some p → pa_Enabled p = true → as_auctions s !! GetAuctionKey (au_Id a) = Some a →
  Coin_IsValid (au_Amount a) = true → 0 < bid_BidAmount b → AccAddressFromBech32 (bid_BidderAddress b) = Ok acc →
  UpdateHighestBidder (au_Id a) b s =
  Ret tt (set_auctions (insert (GetAuctionKey (au_Id a)) (mkAuction (au_Id a) (au_Amount a) (Some b))) s).
Proof.
  intros Hp He Ha Hv Hb Hacc. unfold UpdateHighestBidder.
  rewrite (bind_ret _ _ s (Some a) s) by by rewrite GetAuctionById_eq, Ha.
  unfold UpdateAuction. cbn [au_Id au_Amount au_HighestBid].
  rewrite (bind_ret _ _ s tt s).
  2:{ unfold Auction_ValidateBasic, Bid_ValidateBasic, isPositive. cbn. rewrite Hv. cbn.
      rewrite (proj2 (Z.leb_gt _ _)) by lia. cbn. by rewrite Hacc. }
  rewrite (bind_ret _ _ s _ s) by by apply ModuleEnabled_eq.
  rewrite (bind_ret _ _ s tt s) by by rewrite He.
  rewrite (bind_ret _ _ s (Some a) s) by by rewrite GetAuctionById_eq, Ha.
  by rewrite (bind_ret _ _ s tt s) by by rewrite bool_decide_eq_false_2 by tauto.
Qed.

(** ** Which bids are accepted *)

(** The checks of the handler against auction [a] *)
Record admissible p s msg (acc : bytes) (a : Auction) : Prop := {
  ad_enabled : pa_Enabled p = true;
  ad_fee : pa_MinBidFee p ≤ mb_BidFee msg;
  ad_found : as_auctions s !! GetAuctionKey (mb_AuctionId msg) = Some a;
  ad_higher b : au_HighestBid a = Some b →
    bid_BidAmount b ≤ mb_Amount msg ∧ mb_Bidder msg ≠ bid_BidderAddress b;
  ad_balance : mb_Amount msg + mb_BidFee msg ≤ GetBalance (as_world s) acc NativeTokenDenom;
}.

Definition spendable s (acc : bytes) : Z :=
  GetBalance (as_world s) acc NativeTokenDenom - LockedCoins (as_world s) acc NativeTokenDenom.

(** A message that reached the handler: it passed [ValidateBasic], its fields are
    64-bit, and its signer, who paid for the transaction, has an account that is not
    one of the module accounts. *)
Record bid_msg s msg (acc : bytes) : Prop := {
  bm_valid : MsgBid_ValidateBasic msg = Ok tt;
  bm_amount : u64_ok (mb_Amount msg);
  bm_fee : u64_ok (mb_BidFee msg);
  bm_id : u64_ok (mb_AuctionId msg);
  bm_signer : AccAddressFromBech32 (mb_Bidder msg) = Ok acc;
  bm_ordinary : ordinary acc;
  bm_account : HasAccount (as_world s) acc = true;
}.

(** The account of the bidder who is outbid, and its bid *)
Definition refund (a : Auction) (acc : bytes) : Z :=
  if decide (winner a = Some acc) then bid_of a else 0.

(** What an accepted bid does to the balance of [x] *)
Definition bid_delta msg (acc : bytes) (a : Auction) (x : bytes) (d : string) : Z :=
  if decide (d = NativeTokenDenom) then
    refund a x +
    (if decide (x = acc) then - (mb_Amount msg + mb_BidFee msg) else 0) +
    (if decide (x = mod_acc) then mb_Amount msg - bid_of a else 0) +
    (if decide (x = fee_acc) then mb_BidFee msg else 0)
  else 0.

Record bid_placed s s' msg (acc : bytes) (a : Auction) : Prop := {
  bp_params : as_params s' = as_params s;
  bp_period : as_period s' = as_period s;
  bp_nonce : as_nonce s' = as_nonce s;
  bp_auctions : as_auctions s' = <[GetAuctionKey (au_Id a) :=
    mkAuction (au_Id a) (au_Amount a) (Some (mkBid (mb_Amount msg) (mb_Bidder msg)))]> (as_auctions s);
  bp_ledger : changed (as_world s) (as_world s') (bid_delta msg acc a) (λ _, 0);
}.

Lemma winner_bid (a : Auction) (acc : bytes) :
  winner a = Some acc → ∃ b, au_HighestBid a = Some b ∧ AccAddressFromBech32 (bid_BidderAddress b) = Ok acc.
Proof.
  unfold winner. destruct (au_HighestBid a) as [b|]; [|done]. intros Hw. exists b. split; [done|]. cbn in Hw.
  destruct (AccAddressFromBech32 (bid_BidderAddress b)); [|done]. congruence.
Qed.

(** ** The payments *)

Section Payments.
Context `{!PaymentsSucceed W}.
Context p s msg acc a (Hok : auction_ok s) (Hp : as_params s = Some p) (Hmsg : bid_msg s msg acc)
  (Had : admissible p s msg acc a).

Lemma amount_pos : 0 < mb_Amount msg < two64.
Proof.
  destruct Hmsg as [Hv Ha _ _ Hs _ _]. unfold MsgBid_ValidateBasic in Hv. rewrite Hs in Hv. cbn in Hv.
  unfold u64_ok in Ha. destruct (Z.eqb_spec (mb_Amount msg) 0); [done|]. lia.
Qed.

Lemma current_auction :
  mb_AuctionId msg = au_Id a ∧ a ∈ auctions_of s ∧ Coin_IsValid (au_Amount a) = true ∧
  Denom (au_Amount a) ≠ NativeTokenDenom.
Proof.
  destruct (ix_entry s (ok_index s Hok) _ _ (ad_found _ _ _ _ _ Had)) as [Hk Hid].
  pose proof (last_id_range s (ok_index s Hok)) as Hl. unfold u64_ok in Hl.
  apply auction_key_inj in Hk; [|apply Hmsg|unfold u64_ok; lia].
  pose proof (ad_found _ _ _ _ _ Had) as Hf. rewrite Hk in Hf.
  assert (a ∈ auctions_of s) as Ha by (apply elem_of_auctions; [apply Hok|done]).
  split; [done|]. split; [done|].
  destruct (coin_valid (au_Amount a) _ (ok_coins s Hok)) as [Hv _]; [by apply list_elem_of_fmap_2|].
  split; [done|]. pose proof (ok_foreign s Hok) as Hfo. rewrite Forall_forall in Hfo. by apply Hfo.
Qed.

(** The old bid and its bidder's account *)
Lemma old_bid b :
  au_HighestBid a = Some b → ∃ old, AccAddressFromBech32 (bid_BidderAddress b) = Ok old ∧ winner a = Some old ∧
  ordinary old ∧ 0 < bid_BidAmount b ≤ mb_Amount msg ∧ bid_of a = bid_BidAmount b.
Proof.
  intros Eb. destruct current_auction as (_ & Ha & _). pose proof (ok_bids s Hok) as Hb. rewrite Forall_forall in Hb.
  destruct (Hb a Ha b Eb) as (Hpos & old & Hold & Hord). exists old.
  assert (winner a = Some old) as Hw by (unfold winner; rewrite Eb; cbn; by rewrite Hold).
  destruct (ad_higher _ _ _ _ _ Had b Eb) as [Hle _]. unfold bid_of. rewrite Eb. cbn.
  repeat split; try done; [apply Hord|apply Hord|lia].
Qed.

Definition fee_coins : list Coin := coins1 (native (mb_BidFee msg)).
Definition amount_coins : list Coin := coins1 (native (mb_Amount msg)).

Lemma bid_held : bid_of a ≤ GetBalance (as_world s) mod_acc NativeTokenDenom.
Proof.
  destruct current_auction as (_ & Ha & _). rewrite (ok_books s Hok), native_held by done.
  pose proof (ok_bids s Hok) as Hb. revert Ha Hb. generalize (auctions_of s). induction l as [|x l IH]; [set_solver|].
  intros Ha [Hx Hl]%Forall_cons. pose proof (bid_of_nonneg x Hx) as Hn.
  assert (0 ≤ sumZ bid_of l) as Hs.
  { apply sumZ_nonneg. eapply Forall_impl; [exact Hl|]. apply bid_of_nonneg. }
  cbn [sumZ foldr]. apply elem_of_cons in Ha as [->|Ha]; [unfold sumZ in *; lia|].
  specialize (IH Ha Hl). unfold sumZ in *. lia.
Qed.

(** What [check_highest_bid] returns *)
Definition old_bidder : option (Bid * bytes * Coin) :=
  b ← au_HighestBid a; old ← winner a;
  Some (b, old, native (GetBalance (as_world s) old NativeTokenDenom)).

Lemma check_highest_bid_eq : check_highest_bid msg (au_HighestBid a) s = Ret old_bidder s.
Proof.
  unfold check_highest_bid, old_bidder. destruct (au_HighestBid a) as [b|] eqn:Eb; [|done].
  destruct (old_bid b Eb) as (old & Hold & Hw & _ & Hle & _). rewrite Hw.
  destruct (ad_higher _ _ _ _ _ Had b Eb) as [_ Hne].
  rewrite (bind_ret _ _ s tt s) by by rewrite (proj2 (Z.ltb_ge _ _)) by lia.
  rewrite (bind_ret _ _ s tt s) by by rewrite bool_decide_eq_false_2.
  rewrite (bind_ret _ _ s old s) by by rewrite Hold.
  done.
Qed.

Definition released : option (bytes * Coin * Coin) :=
  '(b, old, start) ← old_bidder; Some (old, start, native (bid_BidAmount b)).

(** The refund *)
Lemma release_bid_eq s1 :
  paid s s1 (transfer acc fee_acc fee_coins) (λ _, 0) → ∃ s2,
  release_bid NativeTokenDenom old_bidder s1 = Ret released s2 ∧
  paid s1 s2 (λ x d, if decide (d = NativeTokenDenom)
                     then refund a x - (if decide (x = mod_acc) then bid_of a else 0) else 0) (λ _, 0) ∧
  (∀ x d, LockedCoins (as_world s2) x d = LockedCoins (as_world s1) x d).
Proof.
  intros Hpaid. unfold released, old_bidder, refund. destruct (au_HighestBid a) as [b|] eqn:Eb.
  - destruct (old_bid b Eb) as (old & Hold & Hw & Hord & Hle & Hbid). rewrite Hw. cbn [mbind option_bind].
    pose proof (ordinary_ne _ Hord) as (Nm & _). pose proof (ordinary_ne _ (bm_ordinary _ _ _ Hmsg)) as (Am & _ & _ & Af).
    destruct module_accounts_ne as (_ & _ & N3 & _).
    cbn [release_bid]. unfold ReturnPreviousBidAmount.
    assert (as_params s1 = Some p) as Hp1 by by rewrite (paid_params _ _ _ _ Hpaid).
    destruct (send_ma_succeeds old (coins1 (native (bid_BidAmount b))) (as_world s1)) as [w2 Ew2].
    { apply Hord. }
    { apply coins1_ok, native_coin_valid. lia. }
    { intros d. change (GetModuleAddress ModuleName) with mod_acc. destruct Hpaid as (w1 & -> & Hc). cbn.
      rewrite (ch_balance _ _ _ _ Hc), amount_native. pose proof (balance_range (as_world s) mod_acc d).
      unfold transfer. rewrite (decide_False (P := mod_acc = _)), (decide_False (P := mod_acc = _)) by congruence.
      case_decide as Ed; [|lia]. subst d. pose proof bid_held. lia. }
    pose proof (call_returns _ _ _ Ew2) as Ecall. exists (set_world w2 s1). split_and!.
    + rewrite (bind_ret _ _ s1 (native (bid_BidAmount b)) s1) by (rewrite NewCoin_native by lia; done).
      rewrite (bind_ret _ _ s1 tt (set_world w2 s1)); [done|].
      rewrite (bind_ret _ _ s1 tt s1) by (eapply require_enabled_eq; [done|apply Had]).
      rewrite (bind_ret _ _ s1 _ s1) by (apply new_coins_eq, native_coin_valid; lia). exact Ecall.
    + apply send_ma_paid in Ecall. eapply paid_ext; [exact Ecall| |done].
      intros x d. unfold transfer. rewrite amount_native, Hbid.
      change (GetModuleAddress ModuleName) with mod_acc. repeat case_decide; naive_solver lia.
    + intros x d. cbn. by eapply locked_after_refund.
  - exists s1. assert (winner a = None) as Hw by (unfold winner; by rewrite Eb).
    assert (bid_of a = 0) as Hbid by (unfold bid_of; by rewrite Eb). split_and!; [done| |done].
    exists (as_world s1). split; [by destruct s1|]. eapply changed_ext; [apply changed_refl| |done].
    intros x d. rewrite Hbid. by_cases.
Qed.

(** ** After the payments *)

Lemma bid_assertion s' (st : AState W) :
  winner a ≠ Some acc →
  (∀ x, GetBalance (as_world s') x NativeTokenDenom =
        GetBalance (as_world s) x NativeTokenDenom + bid_delta msg acc a x NativeTokenDenom) →
  AuctionServer.assertBalanceChanges true (native (GetBalance (as_world s) mod_acc NativeTokenDenom))
    (native (GetBalance (as_world s') mod_acc NativeTokenDenom))
    ('(old, start, bid) ← released;
     Some (mkOldBidder start (native (GetBalance (as_world s') old NativeTokenDenom)) bid))
    (native (GetBalance (as_world s) acc NativeTokenDenom))
    (native (GetBalance (as_world s') acc NativeTokenDenom))
    (native (mb_Amount msg)) (native (mb_BidFee msg)) st = Ret tt st.
Proof.
  intros Hspell Hb. pose proof (ordinary_ne _ (bm_ordinary _ _ _ Hmsg)) as (Am & _ & _ & Af).
  destruct module_accounts_ne as (_ & _ & N3 & _). pose proof amount_pos as Hpos.
  pose proof (bm_fee _ _ _ Hmsg) as Hfee. unfold u64_ok, two64 in *.
  pose proof (λ x, balance_range (as_world s) x NativeTokenDenom) as Hr.
  pose proof (λ x, balance_range (as_world s') x NativeTokenDenom) as Hr'.
  assert (GetBalance (as_world s) acc NativeTokenDenom - GetBalance (as_world s') acc NativeTokenDenom
          = mb_Amount msg + mb_BidFee msg) as Hacc.
  { rewrite (Hb acc). unfold bid_delta, refund. by_cases. }
  assert (GetBalance (as_world s') mod_acc NativeTokenDenom - GetBalance (as_world s) mod_acc NativeTokenDenom
          = mb_Amount msg - bid_of a) as Hmod.
  { rewrite (Hb mod_acc). unfold bid_delta, refund.
    assert (winner a ≠ Some mod_acc).
    { unfold winner. destruct (au_HighestBid a) as [b|] eqn:Eb; [|done].
      destruct (old_bid b Eb) as (old & Hold & _ & (? & _)%ordinary_ne & _). cbn. rewrite Hold. congruence. }
    by_cases. }
  assert (0 ≤ bid_of a ≤ mb_Amount msg) as Hbid.
  { destruct (au_HighestBid a) as [b|] eqn:Eb; [|unfold bid_of; rewrite Eb; cbn; lia].
    destruct (old_bid b Eb) as (old & _ & _ & _ & Hle & ->). lia. }
  pose proof (Hr acc). pose proof (Hr' acc). pose proof (Hr mod_acc). pose proof (Hr' mod_acc).
  unfold AuctionServer.assertBalanceChanges. cbn [negb]. rewrite (bind_ret _ _ st _ st) by (apply coin_sub_eq; lia).
  rewrite Hmod. rewrite (bind_ret _ _ st tt st).
  - rewrite (bind_ret _ _ st _ st) by (apply coin_sub_eq; lia). rewrite Hacc. unfold coin_add.
    rewrite native_add by lia. rewrite (bind_ret _ _ st _ st) by done.
    by rewrite bool_decide_eq_false_2 by tauto.
  - unfold released, old_bidder. destruct (au_HighestBid a) as [b|] eqn:Eb.
    + destruct (old_bid b Eb) as (old & Hold & Hw & Hord & Hle & Eq). rewrite Hw. cbn [mbind option_bind].
      assert (old ≠ acc) as Hne by congruence.
      cbn [ob_StartGrav ob_EndGrav ob_Bid]. pose proof (Hr old). pose proof (Hr' old).
      assert (GetBalance (as_world s') old NativeTokenDenom - GetBalance (as_world s) old NativeTokenDenom
              = bid_BidAmount b) as Hoe.
      { rewrite (Hb old). unfold bid_delta, refund. rewrite Eq. pose proof (ordinary_ne _ Hord) as (Om & _ & _ & Of).
        by_cases. }
      rewrite (bind_ret _ _ st _ st) by (apply coin_sub_eq; lia). rewrite Hoe.
      rewrite (bind_ret _ _ st tt st) by by rewrite bool_decide_eq_false_2 by tauto.
      rewrite (bind_ret _ _ st _ st) by (apply coin_sub_eq; lia). rewrite Eq.
      by rewrite bool_decide_eq_false_2 by tauto.
    + cbn [mbind option_bind]. unfold bid_of. rewrite Eb. cbn [from_option].
      rewrite Z.sub_0_r. by rewrite bool_decide_eq_false_2 by tauto.
Qed.

(** The highest bidder under another spelling: his balance does not grow by the
    refund, since the new bid is taken from the same account. *)
Lemma bid_assertion_respelt s' (st : AState W) :
  winner a = Some acc →
  (∀ x, GetBalance (as_world s') x NativeTokenDenom =
        GetBalance (as_world s) x NativeTokenDenom + bid_delta msg acc a x NativeTokenDenom) →
  ∃ m, AuctionServer.assertBalanceChanges true (native (GetBalance (as_world s) mod_acc NativeTokenDenom))
    (native (GetBalance (as_world s') mod_acc NativeTokenDenom))
    ('(old, start, bid) ← released;
     Some (mkOldBidder start (native (GetBalance (as_world s') old NativeTokenDenom)) bid))
    (native (GetBalance (as_world s) acc NativeTokenDenom))
    (native (GetBalance (as_world s') acc NativeTokenDenom))
    (native (mb_Amount msg)) (native (mb_BidFee msg)) st = Panic m.
Proof.
  intros Hw Hb. pose proof (ordinary_ne _ (bm_ordinary _ _ _ Hmsg)) as (Am & _ & _ & Af).
  pose proof amount_pos as Hpos. pose proof (bm_fee _ _ _ Hmsg) as Hfee. unfold u64_ok, two64 in *.
  destruct (au_HighestBid a) as [b|] eqn:Eb; [|unfold winner in Hw; by rewrite Eb in Hw].
  destruct (old_bid b Eb) as (old & _ & Hw' & _ & Hle & Eq).
  assert (old = acc) as -> by congruence.
  assert (GetBalance (as_world s') acc NativeTokenDenom =
    GetBalance (as_world s) acc NativeTokenDenom + bid_BidAmount b - (mb_Amount msg + mb_BidFee msg)) as Hacc.
  { rewrite (Hb acc). unfold bid_delta, refund. rewrite Eq. by_cases. }
  pose proof (balance_range (as_world s) acc NativeTokenDenom).
  unfold AuctionServer.assertBalanceChanges. cbn [negb].
  destruct (Coin_Sub (native (GetBalance (as_world s') mod_acc NativeTokenDenom))
    (native (GetBalance (as_world s) mod_acc NativeTokenDenom))) as [modDiff|] eqn:Em.
  2:{ eexists. apply bind_panic. unfold coin_sub. by rewrite Em. }
  rewrite (bind_ret _ _ st modDiff st) by (unfold coin_sub; by rewrite Em).
  unfold released, old_bidder. rewrite Eb, Hw. cbn [mbind option_bind ob_StartGrav ob_EndGrav ob_Bid].
  rewrite Hacc.
  destruct (decide (mb_Amount msg + mb_BidFee msg = bid_BidAmount b)) as [E|E].
  - rewrite E, Z.add_simpl_r. eexists. apply bind_panic.
    rewrite (bind_ret _ _ st _ st) by (apply coin_sub_eq; lia). rewrite Z.sub_diag.
    apply bind_panic. rewrite bool_decide_eq_true_2; [done|]. intros [= ?]. lia.
  - eexists. apply bind_panic, bind_panic.
    unfold coin_sub, Coin_Sub. cbn [Denom Amount]. rewrite decide_True by done.
    rewrite (proj2 (Z.ltb_lt _ _)) by lia. done.
Qed.

Lemma refund_nonneg : 0 ≤ refund a acc.
Proof.
  destruct current_auction as (_ & Ha & _). pose proof (ok_bids s Hok) as Hb. rewrite Forall_forall in Hb.
  pose proof (bid_of_nonneg a (Hb a Ha)). unfold refund. case_decide; lia.
Qed.

Lemma replace_bid_spec :
  match replace_bid msg a NativeTokenDenom old_bidder acc
          (native (GetBalance (as_world s) mod_acc NativeTokenDenom))
          (native (GetBalance (as_world s) acc NativeTokenDenom))
          (native (mb_BidFee msg)) (native (mb_Amount msg)) fee_coins s with
  | Ret _ s' => winner a ≠ Some acc ∧ bid_placed s s' msg acc a
  | Fail _ _ => spendable s acc < mb_Amount msg + mb_BidFee msg
  | Panic _ => winner a = Some acc
  end.
Proof.
  destruct current_auction as (Hid & Hin & Hv & Hfor). pose proof amount_pos as Hpos.
  pose proof (bm_fee _ _ _ Hmsg) as Hfee. unfold u64_ok in Hfee.
  pose proof (ordinary_ne _ (bm_ordinary _ _ _ Hmsg)) as (Am & _ & _ & Af).
  pose proof (ad_found _ _ _ _ _ Had) as Hf. rewrite Hid in Hf.
  pose proof (locked_nonneg (as_world s) acc) as Hlock.
  unfold replace_bid. destruct (DeductFees acc fee_coins (as_world s)) as [[e|] w1] eqn:Ew1.
  { unfold mbind at 1, M_bind at 1, call at 1. rewrite Ew1. cbn.
    destruct (decide (spendable s acc < mb_Amount msg + mb_BidFee msg)); [done|].
    destruct (fees_succeed acc fee_coins (as_world s)) as [w Ew]; [apply coins1_ok, native_coin_valid; lia| |congruence].
    intros d. unfold fee_coins. rewrite amount_native. unfold spendable in *. case_decide; [subst; lia|lia]. }
  assert (call (DeductFees acc fee_coins) s = Ret tt (set_world w1 s)) as Ef by by apply call_returns.
  rewrite (bind_ret _ _ _ _ _ Ef). set (s1 := set_world w1 s) in *. apply fees_paid in Ef.
  assert (∀ x d, LockedCoins (as_world s1) x d = LockedCoins (as_world s) x d) as Hl1.
  { intros x d. by eapply locked_after_fees. }
  destruct (release_bid_eq s1 Ef) as (s2 & E2 & Hp2 & Hl2). rewrite (bind_ret _ _ _ _ _ E2).
  pose proof (paid_trans _ _ _ _ _ _ _ Ef Hp2) as Hp12. cbv beta in Hp12.
  assert (as_params s2 = Some p) as Hps2 by by rewrite (paid_params _ _ _ _ Hp12).
  unfold LockBidAmount. unfold mbind at 1, M_bind at 1.
  rewrite (bind_ret _ _ s2 tt s2) by (eapply require_enabled_eq; [done|apply Had]).
  rewrite (bind_ret _ _ s2 _ s2) by (apply new_coins_eq, native_coin_valid; lia). fold amount_coins.
  destruct (SendCoinsFromAccountToModule acc ModuleName amount_coins (as_world s2)) as [[e|] w3] eqn:Ew3.
  { unfold call. rewrite Ew3. destruct (decide (spendable s acc < mb_Amount msg + mb_BidFee msg)); [done|].
    destruct (send_am_succeeds acc amount_coins (as_world s2)) as [w Ew]; [apply coins1_ok, native_coin_valid; lia| |congruence].
    intros d. unfold amount_coins. rewrite amount_native, Hl2, Hl1. unfold spendable in *. case_decide; [subst|lia]. intros _.
    destruct Hp12 as (w12 & -> & Hc). cbn. rewrite (ch_balance _ _ _ _ Hc). unfold transfer, fee_coins.
    pose proof refund_nonneg as Hrf. rewrite amount_native. clear -n Hrf Am Af. repeat case_decide; try congruence; lia. }
  assert (call (SendCoinsFromAccountToModule acc ModuleName amount_coins) s2 = Ret tt (set_world w3 s2)) as E3
    by by apply call_returns. rewrite E3. apply send_am_paid in E3.
  pose proof (paid_trans _ _ _ _ _ _ _ Hp12 E3) as Hp3. cbv beta in Hp3.
  destruct Hp3 as (w & Es3 & Hc). rewrite Es3.
  set (b := mkBid (mb_Amount msg) (mb_Bidder msg)).
  rewrite (bind_ret _ _ (set_world w s) tt _)
    by (apply (UpdateHighestBidder_eq _ p a b acc); [done|apply Had|done|done|cbn; lia|apply Hmsg]).
  set (s4 := set_auctions _ _).
  rewrite (bind_ret _ _ s4 (native (mb_Amount msg)) s4) by (rewrite NewCoin_native by lia; done).
  set (ev := NewEventNewHighestBidder _ _ _). rewrite (bind_ret _ _ s4 tt (add_event ev s4)) by done.
  set (s5 := add_event ev s4).
  assert (changed (as_world s) (as_world s5) (bid_delta msg acc a) (λ _, 0)) as Hfin.
  { eapply changed_ext; [exact Hc| |done]. intros x d. cbv beta. unfold bid_delta, transfer, fee_coins, amount_coins.
    rewrite !amount_native. change (GetModuleAddress ModuleName) with mod_acc.
    repeat case_decide; try congruence; lia. }
  rewrite (bind_ret _ _ s5 _ s5) by done.
  rewrite (bind_ret _ _ s5 ('(old, start, bid) ← released;
     Some (mkOldBidder start (native (GetBalance (as_world s5) old NativeTokenDenom)) bid)) s5)
    by by destruct released as [[[] ?]|].
  rewrite (bind_ret _ _ s5 _ s5) by done.
  destruct (decide (winner a = Some acc)) as [Hw|Hw].
  - destruct (bid_assertion_respelt s5 s5 Hw) as [m Em]; [intros x; apply Hfin|].
    match goal with |- match ?x with _ => _ end => assert (x = Panic m) as -> by exact Em end. done.
  - rewrite bid_assertion by (done || intros x; apply Hfin). split; [done|]. split; done.
Qed.
End Payments.

(** ** The handler *)

Definition outbids msg (a : Auction) : Prop :=
  ∀ b, au_HighestBid a = Some b → bid_BidAmount b ≤ mb_Amount msg ∧ mb_Bidder msg ≠ bid_BidderAddress b.

Lemma check_cases s msg a :
  auction_ok s → a ∈ auctions_of s →
  outbids msg a ∧ (∃ o, check_highest_bid msg (au_HighestBid a) s = Ret o s) ∨
  ¬ outbids msg a ∧ (∃ e, check_highest_bid msg (au_HighestBid a) s = Fail e s).
Proof.
  intros Hok Ha. pose proof (ok_bids s Hok) as Hb. rewrite Forall_forall in Hb. specialize (Hb a Ha).
  unfold check_highest_bid, outbids. destruct (au_HighestBid a) as [b|]; [|left; split; [done|by eexists]].
  destruct (Hb b eq_refl) as (_ & old & Hold & _).
  destruct (Z.ltb_spec (mb_Amount msg) (bid_BidAmount b)).
  { right. split; [|by eexists]. intros Ho. destruct (Ho b eq_refl). lia. }
  rewrite (bind_ret _ _ s tt s) by done. case_bool_decide.
  { right. split; [|by eexists]. intros Ho. by destruct (Ho b eq_refl). }
  left. split; [intros ? [= <-]; done|]. rewrite (bind_ret _ _ s tt s) by done.
  rewrite (bind_ret _ _ s old s) by by rewrite Hold. by eexists.
Qed.

Lemma filed_auction s id a :
  auction_ok s → as_auctions s !! GetAuctionKey id = Some a →
  a ∈ auctions_of s ∧ Denom (au_Amount a) ≠ NativeTokenDenom.
Proof.
  intros Hok Hf. destruct (ix_entry s (ok_index s Hok) _ _ Hf) as [Hk _]. rewrite Hk in Hf.
  assert (a ∈ auctions_of s) as Ha by (apply elem_of_auctions; [apply Hok|done]). split; [done|].
  pose proof (ok_foreign s Hok) as Hfo. rewrite Forall_forall in Hfo. by apply Hfo.
Qed.

(** The handler up to the payments *)
Lemma Bid_handler_checked p s msg acc a :
  auction_ok s → as_params s = Some p → bid_msg s msg acc → admissible p s msg acc a →
  Bid_handler msg s =
  replace_bid msg a NativeTokenDenom (old_bidder s a) acc
    (native (GetBalance (as_world s) mod_acc NativeTokenDenom))
    (native (GetBalance (as_world s) acc NativeTokenDenom))
    (native (mb_BidFee msg)) (native (mb_Amount msg)) (fee_coins msg) s.
Proof.
  intros Hok Hp Hmsg Had. pose proof (amount_pos s msg acc Hmsg) as Hpos.
  destruct (current_auction p s msg acc a Hok Hmsg Had) as (_ & _ & _ & Hfor).
  pose proof (bm_fee _ _ _ Hmsg) as Hfee. unfold u64_ok, two64 in *. unfold Bid_handler.
  rewrite (bind_ret _ _ s _ s) by done. rewrite (bind_ret _ _ s p s) by by apply auction_params_eq.
  rewrite (bind_ret _ _ s tt s) by by rewrite (ad_enabled _ _ _ _ _ Had).
  rewrite (bind_ret _ _ s (Ok NativeTokenDenom) s) by by rewrite <- (ok_mint s Hok).
  rewrite (bind_ret _ _ s NativeTokenDenom s) by done.
  rewrite (bind_ret _ _ s acc s) by by rewrite (bm_signer _ _ _ Hmsg).
  rewrite (bind_ret _ _ s _ s) by done.
  rewrite (bind_ret _ _ s true s) by by rewrite <- (bm_account _ _ _ Hmsg).
  rewrite (bind_ret _ _ s tt s) by by rewrite (proj2 (Z.ltb_ge _ _)) by apply Had.
  rewrite (bind_ret _ _ s (Some a) s) by by rewrite GetAuctionById_eq, (ad_found _ _ _ _ _ Had).
  rewrite (bind_ret _ _ s tt s) by by rewrite bool_decide_eq_false_2.
  rewrite (bind_ret _ _ s _ s) by by eapply check_highest_bid_eq.
  rewrite Int_Add_ok by lia. rewrite (bind_ret _ _ s _ s) by done. rewrite (bind_ret _ _ s _ s) by done.
  rewrite (bind_ret _ _ s tt s) by by rewrite (proj2 (Z.ltb_ge _ _)) by apply Had.
  rewrite !NewCoin_native by lia. rewrite (bind_ret _ _ s _ s) by done.
  rewrite (bind_ret _ _ s _ s) by (apply new_coins_eq, native_coin_valid; lia).
  rewrite (bind_ret _ _ s _ s) by done. by rewrite (bind_ret _ _ s tt s) by done.
Qed.

(** The handler refuses what is not admissible. *)
Lemma Bid_handler_refuses p s msg acc :
  auction_ok s → as_params s = Some p → bid_msg s msg acc →
  (∃ a, admissible p s msg acc a) ∨
  (∀ a, ¬ admissible p s msg acc a) ∧ ∃ e s', Bid_handler msg s = Fail e s'.
Proof.
  intros Hok Hp Hmsg. pose proof (amount_pos s msg acc Hmsg) as Hpos.
  pose proof (bm_fee _ _ _ Hmsg) as Hfee. unfold u64_ok, two64 in *. unfold Bid_handler.
  rewrite (bind_ret _ _ s _ s) by done. rewrite (bind_ret _ _ s p s) by by apply auction_params_eq.
  destruct (pa_Enabled p) eqn:He; [|right; split; [intros a []; congruence|by eexists _, _]].
  rewrite (bind_ret _ _ s tt s) by done.
  rewrite (bind_ret _ _ s (Ok NativeTokenDenom) s) by by rewrite <- (ok_mint s Hok).
  rewrite (bind_ret _ _ s NativeTokenDenom s) by done.
  rewrite (bind_ret _ _ s acc s) by by rewrite (bm_signer _ _ _ Hmsg).
  rewrite (bind_ret _ _ s _ s) by done.
  rewrite (bind_ret _ _ s true s) by by rewrite <- (bm_account _ _ _ Hmsg).
  destruct (Z.ltb_spec (mb_BidFee msg) (pa_MinBidFee p)); [right; split; [intros a []; lia|by eexists _, _]|].
  rewrite (bind_ret _ _ s tt s) by done.
  destruct (as_auctions s !! GetAuctionKey (mb_AuctionId msg)) as [a|] eqn:Ea.
  2:{ right. split; [intros a []; congruence|]. rewrite (bind_ret _ _ s None s) by by rewrite GetAuctionById_eq, Ea.
      by eexists _, _. }
  rewrite (bind_ret _ _ s (Some a) s) by by rewrite GetAuctionById_eq, Ea.
  destruct (filed_auction s _ a Hok Ea) as (Hin & Hfor).
  rewrite (bind_ret _ _ s tt s) by by rewrite bool_decide_eq_false_2.
  destruct (check_cases s msg a Hok Hin) as [[Hout [o Eo]]|[Hout [e Ee]]].
  2:{ right. split; [intros a' []; assert (a' = a) as -> by congruence; done|].
      exists e, s. by apply bind_fail. }
  rewrite (bind_ret _ _ _ _ _ Eo). rewrite Int_Add_ok by lia. rewrite (bind_ret _ _ s _ s) by done.
  rewrite (bind_ret _ _ s _ s) by done.
  destruct (Z.ltb_spec (GetBalance (as_world s) acc NativeTokenDenom) (mb_Amount msg + mb_BidFee msg)).
  { right. split; [intros a' []; lia|by eexists _, _]. }
  left. exists a. by split.
Qed.

(** ** The books after a bid *)

Lemma with_bid_amounts id b (l : list Auction) : au_Amount <$> (with_bid id b <$> l) = au_Amount <$> l.
Proof. rewrite <- list_fmap_compose. apply list_fmap_ext. intros i a _. unfold with_bid. cbn. by case_decide. Qed.

Lemma with_bid_Forall (P : Auction → Prop) id b (l : list Auction) :
  Forall P l → (∀ a, a ∈ l → P (mkAuction (au_Id a) (au_Amount a) (Some b))) → Forall P (with_bid id b <$> l).
Proof.
  intros Hl Hb. rewrite Forall_fmap. apply Forall_forall. intros a Ha. cbn. unfold with_bid.
  case_decide; [by apply Hb|]. rewrite Forall_forall in Hl. by apply Hl.
Qed.

Lemma with_bid_sum id b a (l : list Auction) :
  NoDup (au_Id <$> l) → a ∈ l → au_Id a = id →
  sumZ bid_of (with_bid id b <$> l) = sumZ bid_of l + bid_BidAmount b - bid_of a.
Proof.
  intros Hnd Ha Hid. induction l as [|x l IH]; [set_solver|]. cbn in Hnd. apply NoDup_cons in Hnd as [Hx Hnd].
  cbn [fmap list_fmap sumZ foldr]. fold (sumZ bid_of l). fold (sumZ bid_of (with_bid id b <$> l)).
  apply elem_of_cons in Ha as [<-|Ha].
  - assert (with_bid id b <$> l = l) as ->.
    { rewrite <- (list_fmap_id l) at 2. apply list_fmap_ext. intros i y Hy. apply list_elem_of_lookup_2 in Hy. cbn.
      unfold with_bid. rewrite decide_False; [done|]. intros E. apply Hx. rewrite Hid, <- E. by apply list_elem_of_fmap_2. }
    unfold with_bid, bid_of at 1. rewrite decide_True by done. cbn. lia.
  - rewrite IH by done. unfold with_bid at 1. rewrite decide_False; [lia|]. intros E. apply Hx.
    rewrite E, <- Hid. by apply list_elem_of_fmap_2.
Qed.

Lemma auction_ids_NoDup s : auction_ok s → NoDup (au_Id <$> auctions_of s).
Proof.
  intros Hok. apply NoDup_fmap_2_strong; [|exact (NoDup_fmap_1 _ _ (coins_NoDup _ (ok_coins s Hok)))].
  intros x y Hx Hy E. apply elem_of_auctions in Hx, Hy; try apply Hok. rewrite E in Hx. congruence.
Qed.

Lemma bid_placed_ok p s s' msg acc a :
  auction_ok s → bid_msg s msg acc → admissible p s msg acc a → bid_placed s s' msg acc a → auction_ok s'.
Proof.
  intros Hok Hmsg Had [Ep _ En Ea Hc]. pose proof (amount_pos s msg acc Hmsg) as Hpos.
  destruct (current_auction p s msg acc a Hok Hmsg Had) as (Hid & Hin & _ & _).
  pose proof (proj1 (elem_of_auctions s a (ok_index s Hok)) Hin) as Hf.
  set (b := mkBid (mb_Amount msg) (mb_Bidder msg)) in *.
  assert (auctions_of s' = with_bid (au_Id a) b <$> auctions_of s) as El.
  { rewrite <- (auctions_with_bid s a b (ok_index s Hok) Hf). by apply auctions_same. }
  destruct (ordinary_ne _ (bm_ordinary _ _ _ Hmsg)) as (Am & _ & _ & Af). destruct module_accounts_ne as (_ & _ & N3 & _).
  split.
  - split; unfold last_id; rewrite ?En, ?Ea; [|apply Hok]. intros k x.
    destruct (decide (k = GetAuctionKey (au_Id a))) as [->|Hk].
    + rewrite lookup_insert_eq. intros [= <-]. cbn. split; [done|]. by apply (ix_entry s (ok_index s Hok) _ a Hf).
    + rewrite lookup_insert_ne by done. apply (ix_entry s (ok_index s Hok)).
  - rewrite Ep. apply Hok.
  - rewrite (ch_mint _ _ _ _ Hc). apply Hok.
  - rewrite El, with_bid_amounts. apply Hok.
  - rewrite El. apply with_bid_Forall; [apply Hok|]. intros x Hx. cbn. pose proof (ok_foreign s Hok) as Hfo.
    rewrite Forall_forall in Hfo. by apply Hfo.
  - rewrite El. apply with_bid_Forall; [apply Hok|]. intros x Hx b' [= <-]. split; [cbn; lia|].
    exists acc. split; apply Hmsg.
  - intros d. rewrite (ch_balance _ _ _ _ Hc), (ok_books s Hok), El. unfold held. rewrite with_bid_amounts.
    rewrite (with_bid_sum _ b a) by (done || by apply auction_ids_NoDup). unfold bid_delta, refund.
    assert (winner a ≠ Some mod_acc).
    { intros Hw. pose proof (ok_bids s Hok) as Hb. rewrite Forall_forall in Hb.
      by destruct (ordinary_ne _ (winner_ordinary a mod_acc (Hb a Hin) Hw)). }
    cbn [bid_BidAmount b]. repeat case_decide; try congruence; lia.
Qed.

Section Spec.
Context `{!PaymentsSucceed W}.

Lemma Bid_handler_spec p s msg acc :
  auction_ok s → as_params s = Some p → bid_msg s msg acc →
  match Bid_handler msg s with
  | Ret _ s' => ∃ a, admissible p s msg acc a ∧ winner a ≠ Some acc ∧ bid_placed s s' msg acc a ∧ auction_ok s'
  | Fail _ _ => ∀ a, admissible p s msg acc a → spendable s acc < mb_Amount msg + mb_BidFee msg
  | Panic _ => ∃ a, admissible p s msg acc a ∧ winner a = Some acc
  end.
Proof.
  intros Hok Hp Hmsg.
  destruct (Bid_handler_refuses p s msg acc Hok Hp Hmsg) as [(a & Had)|(Hno & e & s' & ->)].
  2:{ intros a Had. by destruct (Hno a). }
  rewrite (Bid_handler_checked p s msg acc a Hok Hp Hmsg Had).
  pose proof (replace_bid_spec p s msg acc a Hok Hp Hmsg Had) as Hspec.
  destruct (replace_bid _ _ _ _ _ _ _ _ _ _ s) as [u s'|e s'|m]; [|by intros|by exists a].
  destruct Hspec as [Hw Hspec]. exists a. split_and!; [done..|]. by eapply bid_placed_ok.
Qed.
End Spec.
End Bids.
