(* ===== verification/AuctionCorrect.v ===== *)
(** * The auction module's promises

    At the end of a period the winners get what they bid for and the rest is put up
    again, or a token that was withdrawn in the meantime stops the chain; a bid is
    accepted exactly under the documented conditions and refunds the bidder it
    replaces. *)

From stdpp Require Import base gmap list strings sorting.
From S2P Require Import Prelude GoStd Config External Store Coins Auction AuctionServer AuctionBlock AuctionLedger AuctionBooks AuctionSales AuctionPeriodEnd AuctionEnd AuctionBid.

#[local] Open Scope Z_scope.

Section Promises.
Context {W : Type} `{SdkLaws} `{!ModuleAccounts} `{!NativeToken} `{Bank W} `{!BankLaws W} `{BankBalances W}
  `{BankSupplies W} `{!BankListing W} `{Ibc W} `{Mint W} `{Accounts W} `{!AccountsLaws W}
  `{!MintLaws W} `{!FeePoolLaws W} `{BankAccess W} `{CoinsApi} `{!CoinsLaws} `{!PaymentsSucceed W}.
Implicit Types (s : AState W) (p : Params) (per : AuctionPeriod).

(** C11. When a period is over and no token on sale has become unauctionable, the end
    blocker returns with all its assertions passed: every bidder receives exactly the
    tokens of the auctions it won and nothing else of its balance changes; the unsold
    tokens together with what the pool had collected are on sale again without bids,
    those that are not auctionable excepted, and the pool is empty; the next period
    starts with the next block and has the length of the parameters; winning bids are
    burnt if the parameters say so, and no other supply changes; and the module's
    account again holds exactly what it owes. *)
Theorem auction_period_closes p s per :
  period_over p s per → (∀ a, a ∈ auctions_of s → ¬ stuck p s a) →
  ∃ s', EndBlocker s = Ret tt s' ∧ auction_ok s' ∧
    as_period s' = Some (mkAuctionPeriod (as_height s + 1) (as_height s + 1 + pa_AuctionLength p)) ∧
    (∀ acc d, ordinary acc →
       GetBalance (as_world s') acc d = GetBalance (as_world s) acc d + sumZ (won acc d) (auctions_of s)) ∧
    (∀ d, amount_of d (au_Amount <$> auctions_of s') =
       if decide (d ∈ pa_NonAuctionableTokens p) then 0 else
       GetBalance (as_world s) pool_acc d + sumZ (unsold d) (auctions_of s)) ∧
    Forall (λ a, au_HighestBid a = None) (auctions_of s') ∧
    (∀ d, GetBalance (as_world s') pool_acc d = 0) ∧
    (∀ d, GetSupply (as_world s') d = GetSupply (as_world s) d -
       if decide (pa_BurnWinningBids p = true ∧ d = NativeTokenDenom) then sumZ bid_of (auctions_of s) else 0).
Proof.
  intros Hov Hst. pose proof (pv_ok _ _ _ Hov) as Hok.
  destruct (EndBlocker_over p s per Hov) as (s' & pool & msg & Hr & E).
  rewrite decide_False in E by (rewrite Exists_exists; naive_solver).
  exists s'. split_and!; [done|by eapply rolled_ok|..].
  - rewrite (ro_period _ _ _ _ Hr). by destruct (heights_next p s per (pv_heights _ _ _ Hov)) as (_ & _ & ->).
  - intros acc d. by apply (rolled_ordinary p s s' pool).
  - intros d. by rewrite (ro_amounts _ _ _ _ Hr), amount_of_auctioned, (ro_pool_amount _ _ _ _ Hr).
  - apply Hr.
  - intros d. by apply (rolled_pool p s s' pool).
  - intros d. rewrite (ch_supply _ _ _ _ (ro_ledger _ _ _ _ Hr)), close_supplies_sum by done. by_cases.
Qed.

(** C14. A token that is put on the list of unauctionable tokens while it is on sale,
    and that found no bidder or of which the pool has collected more, stops the
    chain: at the end of the period the tokens go to the community pool and the
    assertion that they are on sale again panics. *)
Theorem withdrawn_token_halts p s per a :
  period_over p s per → a ∈ auctions_of s → Denom (au_Amount a) ∈ pa_NonAuctionableTokens p →
  au_HighestBid a = None ∨ 0 < GetBalance (as_world s) pool_acc (Denom (au_Amount a)) →
  ∃ msg, EndBlocker s = Panic msg.
Proof.
  intros Hov Ha Hd Hor. destruct (EndBlocker_over p s per Hov) as (s' & pool & msg & _ & E).
  exists msg. rewrite E, decide_True; [done|]. apply Exists_exists. by exists a.
Qed.

(** C12. What a valid bid message of a signer with an account of its own does.  It is
    accepted only when the module is enabled, the fee is at least the minimum, the
    auction exists, the bid is at least the highest bid, the bidder's account is not
    the highest bidder's, and its balance covers bid and fee.  A bid that passes these
    checks is refused only if part of that balance is locked.  The handler panics only
    in one case: the checks compare the bidders' names and not their accounts, and the
    highest bidder bids again under another spelling of his address; then it never
    returns.  An accepted bid replaces the highest bid of that auction alone, pays the
    old bidder back in full, takes bid and fee from the new bidder, gives the fee to
    the fee collector and leaves every other balance and every supply unchanged; the
    module's account again holds exactly what it owes. *)
Theorem Bid_outcome p s (msg : MsgBid) acc :
  auction_ok s → as_params s = Some p → bid_msg s msg acc →
  match Bid_handler msg s with
  | Ret _ s' => ∃ a, admissible p s msg acc a ∧ winner a ≠ Some acc ∧ auction_ok s' ∧
      as_auctions s' = <[GetAuctionKey (mb_AuctionId msg) :=
        mkAuction (au_Id a) (au_Amount a) (Some (mkBid (mb_Amount msg) (mb_Bidder msg)))]> (as_auctions s) ∧
      (∀ x d, GetBalance (as_world s') x d = GetBalance (as_world s) x d +
        if decide (d = NativeTokenDenom) then
          (if decide (winner a = Some x) then bid_of a else 0) +
          (if decide (x = acc) then - (mb_Amount msg + mb_BidFee msg) else 0) +
          (if decide (x = mod_acc) then mb_Amount msg - bid_of a else 0) +
          (if decide (x = fee_acc) then mb_BidFee msg else 0)
        else 0) ∧
      (∀ d, GetSupply (as_world s') d = GetSupply (as_world s) d)
  | Fail _ _ => ∀ a, admissible p s msg acc a → spendable s acc < mb_Amount msg + mb_BidFee msg
  | Panic _ => ∃ a b, admissible p s msg acc a ∧ au_HighestBid a = Some b ∧
      AccAddressFromBech32 (bid_BidderAddress b) = Ok acc ∧ bid_BidderAddress b ≠ mb_Bidder msg
  end.
Proof.
  intros Hok Hp Hmsg. pose proof (Bid_handler_spec p s msg acc Hok Hp Hmsg) as Hspec.
  destruct (Bid_handler msg s) as [u s'|e s'|m]; [|done|].
  - destruct Hspec as (a & Had & Hw & Hbp & Hok'). exists a. split_and!; [done..| | |].
    + destruct (current_auction p s msg acc a Hok Hmsg Had) as (-> & _). apply Hbp.
    + intros x d. rewrite (ch_balance _ _ _ _ (bp_ledger _ _ _ _ _ Hbp)). done.
    + intros d. rewrite (ch_supply _ _ _ _ (bp_ledger _ _ _ _ _ Hbp)). lia.
  - destruct Hspec as (a & Had & (b & Eb & Hacc)%winner_bid). exists a, b. split_and!; [done..|].
    intros E. by destruct (ad_higher _ _ _ _ _ Had b Eb) as [_ []].
Qed.
End Promises.

(** * The auction module over time

    The states the module reaches by bids, end blockers, parameter updates and the
    activity of the rest of the chain, and that its runtime invariants hold in all
    of them. *)

(** ** The runtime invariants *)

Section RuntimeInvariants.
Context {W : Type} `{SdkLaws} `{!ModuleAccounts} `{!NativeToken} `{Bank W} `{!BankLaws W} `{BankBalances W}
  `{BankSupplies W} `{!BankListing W} `{Ibc W} `{Mint W} `{Accounts W} `{!AccountsLaws W}
  `{!MintLaws W} `{!FeePoolLaws W} `{BankAccess W} `{CoinsApi} `{!CoinsLaws}.
Implicit Types (s : AState W) (w : W) (p : Params).

Lemma tally_eq s a pre bids :
  auction_ok s → coins_ok (pre ++ [au_Amount a]) → a ∈ auctions_of s → 0 ≤ bids + bid_of a < 2 ^ 256 →
  tally_auction a (pre, bids) s = Ret (pre ++ [au_Amount a], bids + bid_of a) s.
Proof.
  intros Hok Hc Ha Hr. unfold tally_auction.
  pose proof (coins_ok_prefix _ _ Hc) as Hpre. pose proof (auction_denom_valid s a Hok Ha) as Hv.
  rewrite (bind_ret _ _ s _ s) by by apply amount_in_eq.
  assert (amount_of (Denom (au_Amount a)) pre = 0) as ->.
  { assert (amount_of (Denom (au_Amount a)) (pre ++ [au_Amount a]) = Amount (au_Amount a)) as Eq
      by (apply amount_of_elem; [done|set_solver]).
    rewrite amount_of_app, amount_of_singleton, decide_True in Eq by done. lia. }
  rewrite (bind_ret _ _ s tt s) by done.
  unfold bid_of in *. destruct (au_HighestBid a) as [b|]; cbn [from_option] in *.
  - rewrite Int_Add_ok by done. by rewrite (bind_ret _ _ s _ s) by done.
  - rewrite (bind_ret _ _ s bids s) by done. by rewrite Z.add_0_r.
Qed.

Lemma tally_all s l pre :
  auction_ok s → pre ++ l = auctions_of s →
  for_acc l (au_Amount <$> pre, sumZ bid_of pre)
    (λ a acc, acc' ← tally_auction a acc; mret (acc', false)) s
  = Ret (au_Amount <$> auctions_of s, sumZ bid_of (auctions_of s)) s.
Proof.
  intros Hok. revert pre. induction l as [|a l IH]; intros pre E.
  - rewrite app_nil_r in E. by rewrite <- E.
  - assert (a ∈ auctions_of s) as Ha by (rewrite <- E; set_solver).
    assert ((pre ++ [a]) ++ l = auctions_of s) as E' by by rewrite <- app_assoc.
    assert (coins_ok (au_Amount <$> pre ++ [a])) as Hc.
    { eapply coins_ok_prefix. rewrite <- fmap_app, E'. apply Hok. }
    pose proof (NoDup_fmap_1 _ _ (coins_NoDup _ (ok_coins s Hok))) as Hnd.
    pose proof (sum_bids_below s (pre ++ [a]) Hok) as Hb. rewrite sumZ_app in Hb. cbn in Hb. rewrite Z.add_0_r in Hb.
    rewrite fmap_app in Hc. cbn [fmap list_fmap] in Hc.
    cbn [for_acc]. rewrite (bind_ret _ _ s ((au_Amount <$> pre ++ [a], sumZ bid_of (pre ++ [a])), false) s).
    + cbv beta iota. by apply IH.
    + rewrite (bind_ret _ _ s ((au_Amount <$> pre) ++ [au_Amount a], sumZ bid_of pre + bid_of a) s);
        [|apply tally_eq; [done..|apply Hb]].
      * rewrite fmap_app, sumZ_app. cbn. by rewrite Z.add_0_r.
      * intros x Hx. rewrite <- E'. set_solver.
      * rewrite <- E' in Hnd. by apply NoDup_app in Hnd as [? _].
Qed.

Lemma expected_eq s :
  auction_ok s → ExpectedAuctionModuleBalances s = Ret (GetAllBalances (as_world s) mod_acc) s.
Proof.
  intros Hok. pose proof (bids_nonneg s Hok) as Hn. unfold ExpectedAuctionModuleBalances.
  rewrite (bind_ret _ _ s (Ok NativeTokenDenom) s) by by rewrite <- (ok_mint s Hok).
  rewrite (bind_ret _ _ s NativeTokenDenom s) by done.
  rewrite (bind_ret _ _ s (au_Amount <$> auctions_of s, sumZ bid_of (auctions_of s)) s).
  2:{ rewrite <- (tally_all s (auctions_of s) [] Hok eq_refl). unfold IterateAuctions, auction_entries, auctions_of.
      rewrite (bind_ret _ _ s _ s) by done. by rewrite for_acc_fmap. }
  rewrite NewCoin_native by done. rewrite (bind_ret _ _ s _ s) by done.
  destruct (coins_add (au_Amount <$> auctions_of s) (native (sumZ bid_of (auctions_of s)))) as (b & Eb & Hb & Ham).
  { apply Hok. } { done. } { apply native_valid. }
  { cbn. rewrite amount_of_absent by (rewrite Forall_fmap; apply Hok). cbn.
    rewrite <- (native_held s Hok), <- (ok_books s Hok). apply (balance_range (as_world s) mod_acc). }
  rewrite Eb. cbn [opt_panic]. unfold mret, M_ret. f_equal. apply coins_ext; [done|apply listed_balances_ok|].
  intros d. rewrite Ham, listed_balances, (ok_books s Hok), amount_of_singleton. unfold held. cbn.
  repeat case_decide; congruence.
Qed.

Lemma AllInvariants_hold s : auction_ok s → AllInvariants s = Ret tt s.
Proof.
  intros Hok. unfold AllInvariants. rewrite (bind_ret _ _ s tt s).
  - unfold ValidAuctionsInvariant.
    rewrite (bind_ret _ _ s (Ok NativeTokenDenom) s) by by rewrite <- (ok_mint s Hok).
    rewrite (bind_ret _ _ s NativeTokenDenom s) by done.
    rewrite (bind_ret _ _ s false s); [done|].
    unfold IterateAuctions, auction_entries. rewrite (bind_ret _ _ s _ s) by done.
    pose proof (ok_foreign s Hok) as Hf. unfold auctions_of in Hf. rewrite Forall_fmap in Hf.
    induction Hf as [|kv l Hkv _ IH]; [done|]. cbn [for_acc]. cbn in Hkv.
    rewrite decide_False by done. by rewrite (bind_ret _ _ s (false, false) s) by done.
  - unfold ModuleBalanceInvariant. rewrite (bind_ret _ _ s _ s) by done.
    rewrite (bind_ret _ _ s _ s) by by apply expected_eq.
    rewrite coins_equal by apply listed_balances_ok. by rewrite bool_decide_eq_true_2.
Qed.
End RuntimeInvariants.

Section Reach.
Context {W : Type} `{SdkLaws} `{!ModuleAccounts} `{!NativeToken} `{Bank W} `{!BankLaws W} `{BankBalances W}
  `{BankSupplies W} `{!BankListing W} `{Ibc W} `{Mint W} `{Accounts W} `{!AccountsLaws W}
  `{!MintLaws W} `{!FeePoolLaws W} `{BankAccess W} `{CoinsApi} `{!CoinsLaws} `{!PaymentsSucceed W}
  `{TextFormats}.
Implicit Types (s : AState W) (w : W) (p : Params).

(** ** Steps *)

(** What the rest of the chain may do between two steps of the module: balances of
    other accounts and the height change, the module's account does not, nor does the
    native token. *)
Record elsewhere s s' : Prop := {
  el_params : as_params s' = as_params s;
  el_period : as_period s' = as_period s;
  el_nonce : as_nonce s' = as_nonce s;
  el_auctions : as_auctions s' = as_auctions s;
  el_mint : MintDenom (as_world s') = MintDenom (as_world s);
  el_module d : GetBalance (as_world s') mod_acc d = GetBalance (as_world s) mod_acc d;
}.

Inductive auction_step (authority : string) : AState W → AState W → Prop :=
  | step_bid msg acc s s' :
      bid_msg s msg acc → Bid_handler msg s = Ret tt s' →
      auction_step authority s s'
  | step_end s s' :
      ids_left s → EndBlocker s = Ret tt s' → auction_step authority s s'
  | step_params msg s s' :
      UpdateParamsProposal authority msg s = Ret tt s' → auction_step authority s s'
  | step_elsewhere s s' : elsewhere s s' → auction_step authority s s'.

(** ** Each step keeps the books *)

Lemma SetParams_inv p s u s' :
  SetParams p s = Ret u s' → Params_ValidateBasic p = Ok tt ∧ s' = set_params p s.
Proof.
  unfold SetParams. intros E. mnext E as x s1 E1. apply of_res_inv in E1 as [Hv ->].
  apply modify_inv in E as ->. by destruct x.
Qed.

Lemma set_params_ok p s : auction_ok s → Params_ValidateBasic p = Ok tt → auction_ok (set_params p s).
Proof. intros [Hix _ Hm Hc Hf Hb Hk] Hv. split; try done; [by destruct Hix|by exists p]. Qed.

Lemma UpdateParamsProposal_ok authority msg s u s' :
  auction_ok s → UpdateParamsProposal authority msg s = Ret u s' → auction_ok s'.
Proof.
  intros Hok E. unfold UpdateParamsProposal in E. mnext E as x s1 E1. apply guard_panic_inv in E1 as [_ ->].
  mnext E as y s2 E2. apply guard_err_inv in E2 as [_ ->].
  mnext E as p s3 E3. apply auction_params_inv in E3 as [_ ->].
  mnext E as p' s4 E4. apply of_res_inv in E4 as [_ ->].
  apply SetParams_inv in E as [Hv ->]. by apply set_params_ok.
Qed.

Lemma elsewhere_ok s s' : auction_ok s → elsewhere s s' → auction_ok s'.
Proof.
  intros [Hix Hp Hm Hc Hf Hb Hk] [Ep _ En Ea Em El].
  assert (auctions_of s' = auctions_of s) as Es by by apply auctions_same.
  split; rewrite ?Es, ?Ep, ?Em; try done; [by apply (indexed_same s)|]. intros d. by rewrite El.
Qed.

Lemma readonly_amount_in cs d : readonly (amount_in cs d : A W Z).
Proof. unfold amount_in. readonly. Qed.
#[local] Hint Resolve readonly_amount_in : readonly.

Lemma readonly_assert_closed accs m1 m2 m3 a : readonly (assert_closed accs m1 m2 m3 a : A W Z).
Proof. unfold assert_closed. readonly. Qed.
#[local] Hint Resolve readonly_assert_closed : readonly.

Lemma readonly_assertBalanceChanges e l accs m1 m2 m3 m4 :
  readonly (AuctionBlock.assertBalanceChanges e l accs m1 m2 m3 m4 : A W unit).
Proof. unfold AuctionBlock.assertBalanceChanges, IterateAuctions, auction_entries. readonly. Qed.

Lemma readonly_assertSupplyIntegrity x y e : readonly (assertSupplyIntegrity x y e : A W unit).
Proof. unfold assertSupplyIntegrity, GetParams. readonly. Qed.

Lemma readonly_collect_affected : readonly (collect_affected : A W _).
Proof. unfold collect_affected, IterateAuctions, auction_entries. readonly. Qed.

Lemma close_period_inv s r s' :
  auction_ok s → ids_left s → close_period s = Ret r s' → s' = s ∨ ∃ p pool, rolled p s s' pool.
Proof.
  intros Hok Hids E. unfold close_period in E.
  mnext E as b s1 E1. apply ModuleEnabled_inv in E1 as (p & Hp & -> & ->).
  destruct (pa_Enabled p); cbn [negb] in E; [|apply mret_inv in E as [_ ->]; by left].
  mnext E as o s2 E2. apply gets_inv in E2 as [-> ->].
  mnext E as per s3 E3. apply opt_panic_inv in E3 as [_ ->].
  mnext E as h s4 E4. apply gets_inv in E4 as [-> ->].
  case_match; [|apply mret_inv in E as [_ ->]; by left].
  mnext E as l s5 E5. rewrite GetAllAuctions_eq in E5. injection E5 as <- <-.
  mnext E as m s6 E6. apply (readonly_inv _ _ _ _ readonly_collect_affected) in E6 as ->.
  mnext E as x s7 E7. mnext E as y s8 E8. apply mret_inv in E as [_ ->].
  right. exists p. by eapply roll_rolled.
Qed.

Lemma EndBlocker_ok s u s' : auction_ok s → ids_left s → EndBlocker s = Ret u s' → auction_ok s'.
Proof.
  intros Hok Hids E. unfold EndBlocker in E.
  mnext E as st s1 E1. rewrite getBankSupplies_eq in E1. injection E1 as <- <-.
  mnext E as m1 s2 E2. apply gets_inv in E2 as [-> ->].
  mnext E as m2 s3 E3. apply gets_inv in E3 as [-> ->].
  mnext E as r s4 E4. destruct r as [[ended l] accs].
  assert (s' = s4) as ->.
  { mnext E as e1 s5 E5. rewrite getBankSupplies_eq in E5. injection E5 as <- <-.
    mnext E as e2 s6 E6. apply gets_inv in E6 as [-> ->].
    mnext E as e3 s7 E7. apply gets_inv in E7 as [-> ->].
    mnext E as e4 s8 E8. apply (readonly_inv _ _ _ _ (readonly_assertSupplyIntegrity _ _ _)) in E8 as ->.
    by apply (readonly_inv _ _ _ _ (readonly_assertBalanceChanges _ _ _ _ _ _ _)) in E. }
  destruct (close_period_inv s _ s4 Hok Hids E4) as [->|(p & pool & Hr)]; [done|by eapply rolled_ok].
Qed.

Lemma auction_step_ok authority s s' : auction_ok s → auction_step authority s s' → auction_ok s'.
Proof.
  intros Hok. destruct 1 as [msg acc s s' Hmsg E|s s' Hids E|msg s s' E|s s' He].
  - destruct (ok_params s Hok) as (p & Hp & _).
    pose proof (Bid_handler_spec p s msg acc Hok Hp Hmsg) as Hspec. rewrite E in Hspec.
    by destruct Hspec as (a & _ & _ & _ & ?).
  - by eapply EndBlocker_ok.
  - by eapply UpdateParamsProposal_ok.
  - by eapply elsewhere_ok.
Qed.

(** C13. In every state the module reaches from one in which its books are right, by
    accepted bids, end blockers that return, parameter updates and any activity of
    the rest of the chain that leaves its account alone, its account holds exactly
    the tokens on sale and the highest bids, so that both runtime invariants pass. *)
Theorem auctions_solvent authority s s' :
  auction_ok s → rtc (auction_step authority) s s' →
  (∀ d, GetBalance (as_world s') mod_acc d =
        amount_of d (au_Amount <$> auctions_of s') +
        (if decide (d = NativeTokenDenom) then sumZ bid_of (auctions_of s') else 0)) ∧
  AllInvariants s' = Ret tt s'.
Proof.
  intros Hok Hr. assert (auction_ok s') as Hok'.
  { induction Hr as [|s1 s2 s3 Hs _ IH]; [done|]. by eapply IH, auction_step_ok. }
  split; [apply Hok'|by apply AllInvariants_hold].
Qed.
End Reach.
