(* ===== verification/AuctionGenesis.v ===== *)
(** * Export and import of the auction module

    What is exported is restored by import exactly when the auctions are numbered
    from one (the counter of auctions is not exported), their tokens may still be
    auctioned, and the period fits the height of the new chain. *)

From stdpp Require Import base gmap list strings sorting.
From S2P Require Import Prelude GoStd Config External Store Coins Auction AuctionServer AuctionBlock AuctionLedger AuctionBooks AuctionSales AuctionPeriodEnd AuctionEnd AuctionBid AuctionCorrect.

#[local] Open Scope Z_scope.

Section GenesisState.
Context {W : Type} `{SdkLaws} `{!ModuleAccounts} `{!NativeToken} `{Bank W} `{!BankLaws W} `{BankBalances W}
  `{BankSupplies W} `{!BankListing W} `{Ibc W} `{Mint W} `{Accounts W} `{!AccountsLaws W}
  `{!MintLaws W} `{!FeePoolLaws W} `{BankAccess W} `{CoinsApi} `{!CoinsLaws}.
Implicit Types (s : AState W) (w : W) (p : Params).

(** ** Storing the exported auctions *)

Record storable (a : Auction) : Prop := {
  sb_valid : Auction_ValidateBasic a = Ok tt;
  sb_foreign : Denom (au_Amount a) ≠ NativeTokenDenom;
}.

(** The token may still be auctioned. *)
Definition auctionable p (a : Auction) : Prop := Denom (au_Amount a) ∉ pa_NonAuctionableTokens p.
#[global] Instance auctionable_dec p a : Decision (auctionable p a).
Proof. unfold auctionable. apply _. Defined.

Lemma StoreAuction_wrong_id s a :
  indexed s → last_id s + 1 < two64 → Auction_ValidateBasic a = Ok tt → au_Id a ≠ last_id s + 1 →
  StoreAuction a s = Fail ErrInvalidAuction s.
Proof.
  intros Hix Hlt Hv Hne. unfold StoreAuction. rewrite (bind_ret _ _ s tt s) by by rewrite Hv.
  rewrite (bind_ret _ _ s (last_id s + 1) s) by by apply GetNextAuctionId_eq.
  apply bind_fail. by rewrite (proj2 (Z.eqb_neq _ _)) by done.
Qed.

Lemma StoreAuction_unauctionable p s a :
  indexed s → last_id s + 1 < two64 → as_params s = Some p → MintDenom (as_world s) = Ok NativeTokenDenom →
  storable a → ¬ auctionable p a → ∃ e, StoreAuction a s = Fail e s.
Proof.
  intros Hix Hlt Hp Hm [Hv Hf] Hno. destruct (decide (au_Id a = last_id s + 1)) as [Hid|Hid].
  2:{ eexists. by apply StoreAuction_wrong_id. }
  eexists. unfold StoreAuction. rewrite (bind_ret _ _ s tt s) by by rewrite Hv.
  rewrite (bind_ret _ _ s (last_id s + 1) s) by by apply GetNextAuctionId_eq.
  rewrite (bind_ret _ _ s tt s) by by rewrite Hid, Z.eqb_refl.
  rewrite (bind_ret _ _ s false s).
  2:{ unfold IsDenomAuctionable. rewrite (bind_ret _ _ s (Ok NativeTokenDenom) s) by by rewrite <- Hm.
      rewrite (bind_ret _ _ s NativeTokenDenom s) by done. rewrite decide_False by done.
      rewrite (bind_ret _ _ s p s) by (unfold must; by rewrite (auction_params_eq s p)).
      by rewrite bool_decide_eq_false_2. }
  by apply bind_fail.
Qed.

(** From [s] to [s'] the auctions [l] were stored, and nothing else changed. *)
Record restored s s' (l : list Auction) : Prop := {
  re_index : indexed s';
  re_params : as_params s' = as_params s;
  re_period : as_period s' = as_period s;
  re_world : as_world s' = as_world s;
  re_auctions : auctions_of s' = auctions_of s ++ l;
  re_last : last_id s' = last_id s + Z.of_nat (length l);
}.

Lemma store_one p s a :
  indexed s → last_id s + 1 < two64 → as_params s = Some p → MintDenom (as_world s) = Ok NativeTokenDenom →
  storable a → auctionable p a → au_Id a = last_id s + 1 → ∃ s', StoreAuction a s = Ret tt s' ∧ restored s s' [a].
Proof.
  intros Hix Hlt Hp Hm [Hv Hf] Ha Hid.
  destruct (StoreAuction_returns s p a) as ([] & s' & E); [done..|]. exists s'. split; [done|].
  apply StoreAuction_inv in E as (_ & -> & _); [|done..]. pose proof (last_id_range s Hix) as Hr. unfold u64_ok in Hr.
  split; try done; [by apply indexed_stored|by apply auctions_stored; [..|unfold u64_ok; lia]].
Qed.

Definition store_all (l : list Auction) : A W unit :=
  for_each l (λ auction, must "Unable to store auction" (StoreAuction auction)).

(** The auctions [l] can be stored from number [n] on. *)
Definition acceptable p (n : Z) (l : list Auction) : Prop :=
  au_Id <$> l = seqZ n (Z.of_nat (length l)) ∧ Forall (auctionable p) l.
#[global] Instance acceptable_dec p n l : Decision (acceptable p n l).
Proof. unfold acceptable. apply _. Defined.

Lemma acceptable_cons p n a l :
  acceptable p n (a :: l) ↔ au_Id a = n ∧ auctionable p a ∧ acceptable p (n + 1) l.
Proof.
  unfold acceptable. cbn [length fmap list_fmap]. rewrite Nat2Z.inj_succ, seqZ_cons, Forall_cons by lia.
  replace (Z.pred (Z.succ (Z.of_nat (length l)))) with (Z.of_nat (length l)) by lia.
  rewrite <- Z.add_1_r. split; [intros ([= E1 E2] & ? & ?); naive_solver|].
  intros (-> & ? & -> & ?). done.
Qed.

Lemma store_all_cases p l s :
  indexed s → last_id s + Z.of_nat (length l) < two64 → as_params s = Some p →
  MintDenom (as_world s) = Ok NativeTokenDenom → Forall storable l →
  acceptable p (last_id s + 1) l ∧ (∃ s', store_all l s = Ret tt s' ∧ restored s s' l) ∨
  ¬ acceptable p (last_id s + 1) l ∧ ∃ msg, store_all l s = Panic msg.
Proof.
  intros Hix Hlt Hp Hm Hl. revert s Hix Hlt Hp Hm. induction Hl as [|a l Ha Hl IH]; intros s Hix Hlt Hp Hm.
  { left. split; [by split|]. exists s. split; [done|]. split; try done; [by rewrite app_nil_r|cbn; lia]. }
  cbn [length] in Hlt. rewrite acceptable_cons. unfold store_all. cbn [for_each].
  destruct (decide (auctionable p a)) as [Hau|Hau].
  2:{ right. split; [tauto|]. destruct (StoreAuction_unauctionable p s a) as [e E]; [done|lia|done..|].
      eexists. apply bind_panic. unfold must. by rewrite E. }
  destruct (decide (au_Id a = last_id s + 1)) as [Hid|Hid].
  - destruct (store_one p s a) as (s1 & E1 & R1); [done|lia|done..|].
    rewrite (bind_ret _ _ s tt s1) by (unfold must; by rewrite E1).
    pose proof (re_last _ _ _ R1) as Hl1. cbn in Hl1.
    destruct (IH s1) as [[Hs (s' & E & R)]|[Hs [msg E]]].
    { apply R1. } { lia. } { by rewrite (re_params _ _ _ R1). } { by rewrite (re_world _ _ _ R1). }
    + left. split; [rewrite Hl1 in Hs; naive_solver|]. exists s'. split; [done|].
      destruct R1, R. split; try congruence; [|cbn [length]; lia].
      rewrite re_auctions1, re_auctions0, <- app_assoc. done.
    + right. split; [|by exists msg]. rewrite Hl1 in Hs. naive_solver.
  - right. split; [tauto|]. eexists. apply bind_panic. unfold must.
    by rewrite StoreAuction_wrong_id by (done || lia || apply Ha).
Qed.

Lemma auction_ok_storable s : auction_ok s → Forall storable (auctions_of s).
Proof.
  intros Hok. apply Forall_forall. intros a Ha. pose proof (ok_foreign s Hok) as Hf. pose proof (ok_bids s Hok) as Hb.
  rewrite Forall_forall in Hf, Hb. split; [|by apply Hf].
  destruct (coin_valid (au_Amount a) _ (ok_coins s Hok)) as [Hv _]; [by apply list_elem_of_fmap_2|].
  unfold Auction_ValidateBasic. rewrite Hv. cbn [negb]. specialize (Hb a Ha).
  destruct (au_HighestBid a) as [b|]; [|done]. destruct (Hb b eq_refl) as (Hpos & acc & Hacc & _).
  unfold Bid_ValidateBasic, isPositive. rewrite (proj2 (Z.leb_gt _ _)) by lia. cbn. by rewrite Hacc.
Qed.

Lemma auctions_few s : auction_ok s → Z.of_nat (length (auctions_of s)) < two64.
Proof.
  intros Hok. pose proof (last_id_range s (ok_index s Hok)) as Hr. unfold u64_ok in Hr.
  assert (length (auctions_of s) ≤ length (seqZ 1 (last_id s)))%nat as Hl; [|rewrite length_seqZ in Hl; lia].
  rewrite <- (length_fmap au_Id). apply submseteq_length, NoDup_submseteq; [by apply auction_ids_NoDup|].
  intros i (a & -> & Ha)%list_elem_of_fmap. apply elem_of_auctions in Ha; [|apply Hok].
  apply elem_of_seqZ. destruct (ix_entry s (ok_index s Hok) _ _ Ha). lia.
Qed.

(** ** The new chain *)

(** The state before import: the module's store is empty, and the bank's balances,
    which are imported first, are those of the exported state. *)
Record before_import s s0 : Prop := {
  bi_auctions : as_auctions s0 = ∅;
  bi_nonce : as_nonce s0 = None;
  bi_mint : MintDenom (as_world s0) = MintDenom (as_world s);
  bi_module d : GetBalance (as_world s0) mod_acc d = GetBalance (as_world s) mod_acc d;
}.

(** The period has started by the next block of the new chain and is not over. *)
Definition running s0 (per : AuctionPeriod) : Prop :=
  ap_StartBlockHeight per ≤ u64 (as_height s0 + 1) ∧ u64 (as_height s0) ≤ ap_EndBlockHeight per.
#[global] Instance running_dec s0 per : Decision (running s0 per).
Proof. unfold running. apply _. Defined.

Lemma updateAuctionPeriodUnsafe_panics s0 per :
  ¬ running s0 per → ∃ msg, updateAuctionPeriodUnsafe per s0 = Panic msg.
Proof.
  intros Hno. unfold updateAuctionPeriodUnsafe, block_height. rewrite (bind_ret _ _ s0 (u64 (as_height s0 + 1)) s0) by done.
  destruct (Z.ltb_spec (u64 (as_height s0 + 1)) (ap_StartBlockHeight per)); [eexists; by apply bind_panic|].
  rewrite (bind_ret _ _ s0 tt s0) by done. rewrite (bind_ret _ _ s0 (u64 (as_height s0)) s0) by done.
  destruct (Z.ltb_spec (ap_EndBlockHeight per) (u64 (as_height s0))); [eexists; by apply bind_panic|].
  by destruct Hno.
Qed.

Lemma ExportGenesis_eq p s per :
  as_params s = Some p → current s per →
  ExportGenesis s = Ret (mkGenesisState p (Some per) (auctions_of s)) s.
Proof.
  intros Hp Hc. unfold ExportGenesis. rewrite (bind_ret _ _ s p s) by (unfold must; by rewrite (auction_params_eq s p)).
  rewrite (bind_ret _ _ s (Some per) s) by by apply GetAuctionPeriod_eq.
  by rewrite (bind_ret _ _ s _ s) by apply GetAllAuctions_eq.
Qed.

Lemma SetParams_eq p s : Params_ValidateBasic p = Ok tt → SetParams p s = Ret tt (set_params p s).
Proof. intros Hv. unfold SetParams. by rewrite (bind_ret _ _ s tt s) by by rewrite Hv. Qed.

Lemma restored_ok p s s0 s' per :
  auction_ok s → as_params s = Some p → before_import s s0 →
  restored (set_period per (set_params p s0)) s' (auctions_of s) → auction_ok s'.
Proof.
  intros Hok Hp [Ha Hn Hm Hb] [Rix Rp _ Rw Ra _].
  assert (auctions_of s' = auctions_of s) as El by by rewrite Ra, auctions_none.
  destruct Hok as [_ Hpv Hmi Hc Hf Hbi Hk]. split; rewrite ?El, ?Rw; try done.
  - rewrite Rp. cbn. destruct Hpv as (p' & Hp' & Hv). exists p. split; [done|]. congruence.
  - cbn. by rewrite Hm.
  - intros d. cbn. by rewrite Hb.
Qed.

(** C15. A chain that is started from an export of the auction module, with the bank's
    balances of the exported state, continues with the same parameters, period and
    auctions, bids included, and with right books, exactly when the auctions are
    numbered from one on, none of the tokens on sale has been withdrawn from auction,
    and at the height of the new chain the period has started by the next block and
    is not over.  In every other case import panics: the counter of auctions is not
    part of the export, and auctions and period are checked as if they were new. *)
Theorem auction_genesis_roundtrip p s s0 per g :
  auction_ok s → as_params s = Some p → current s per → before_import s s0 →
  ExportGenesis s = Ret g s →
  if decide (running s0 per ∧ au_Id <$> auctions_of s = seqZ 1 (Z.of_nat (length (auctions_of s))) ∧
             Forall (auctionable p) (auctions_of s)) then
    ∃ s', InitGenesis g s0 = Ret tt s' ∧ auction_ok s' ∧ auctions_of s' = auctions_of s ∧
          as_params s' = as_params s ∧ as_period s' = as_period s
  else ∃ msg, InitGenesis g s0 = Panic msg.
Proof.
  intros Hok Hp Hcur Hbi Eg. rewrite (ExportGenesis_eq p s per Hp Hcur) in Eg. injection Eg as <-.
  destruct (ok_params s Hok) as (p' & Hp' & Hv). assert (p' = p) as -> by congruence.
  set (s1 := set_period per (set_params p s0)).
  assert (indexed s1) as Hix.
  { split; cbn; [rewrite (bi_auctions _ _ Hbi); done|by rewrite (bi_nonce _ _ Hbi)]. }
  assert (last_id s1 = 0) as Hl by (unfold last_id; cbn; by rewrite (bi_nonce _ _ Hbi)).
  pose proof (auctions_few s Hok) as Hfew. unfold InitGenesis.
  cbn [gs_Params gs_ActivePeriod gs_ActiveAuctions].
  rewrite (bind_ret _ _ s0 tt (set_params p s0)) by (unfold must; by rewrite SetParams_eq).
  set (body := (_ ← updateAuctionPeriodUnsafe per; _ : A W unit)).
  destruct (decide (running s0 per)) as [Hrun|Hrun].
  2:{ rewrite decide_False by tauto.
      destruct (updateAuctionPeriodUnsafe_panics (set_params p s0) per Hrun) as [msg E].
      exists msg. apply bind_panic. by apply bind_panic. }
  assert (body (set_params p s0) = store_all (auctions_of s) s1) as Ebody.
  { unfold body. rewrite (bind_ret _ _ (set_params p s0) tt s1); [done|].
    apply updateAuctionPeriodUnsafe_eq; apply Hrun. }
  destruct (store_all_cases p (auctions_of s) s1) as [[Hs (s' & E & R)]|[Hs [msg E]]];
    [done|lia|done|cbn; rewrite (bi_mint _ _ Hbi); apply Hok|by apply auction_ok_storable|..];
    rewrite Hl in Hs; cbn [Z.add] in Hs; unfold acceptable in Hs; rewrite <- Ebody in E.
  - rewrite decide_True by done. exists s'. pose proof (restored_ok p s s0 s' per Hok Hp Hbi R) as Hok'.
    split_and!; [|done|..].
    + rewrite (bind_ret _ _ _ _ _ E). unfold must. by rewrite AllInvariants_hold.
    + rewrite (re_auctions _ _ _ R). by rewrite auctions_none by apply Hbi.
    + by rewrite (re_params _ _ _ R).
    + rewrite (re_period _ _ _ R). cbn. by rewrite (cu_period _ _ Hcur).
  - rewrite decide_False by tauto. exists msg. by apply bind_panic.
Qed.

(** A genesis file without an active period starts the module only if it is
    enabled: when the parameters disable it, import panics, although it is written to
    create the first period even then. *)
Theorem InitGenesis_disabled_panics g s :
  Params_ValidateBasic (gs_Params g) = Ok tt → gs_ActivePeriod g = None → pa_Enabled (gs_Params g) = false →
  ∃ msg, InitGenesis g s = Panic msg.
Proof.
  intros Hv Hper He. eexists. unfold InitGenesis. rewrite Hper.
  rewrite (bind_ret _ _ s tt (set_params (gs_Params g) s)) by (unfold must; by rewrite SetParams_eq).
  apply bind_panic, bind_panic. unfold must, CreateNewAuctionPeriod.
  set (s1 := set_params _ s). rewrite (bind_ret _ _ s1 (gs_Params g) s1) by done.
  rewrite (bind_ret _ _ s1 _ s1) by done. cbv zeta.
  rewrite (bind_fail _ _ s1 ErrDisabledModule s1); [done|]. unfold UpdateAuctionPeriod.
  rewrite (bind_ret _ _ s1 false s1) by (rewrite <- He; by apply ModuleEnabled_eq). by apply bind_fail.
Qed.
End GenesisState.
