(* ===== verification/AuctionWitnesses.v ===== *)
(** * Concrete instances for the auction module, and its theorems at work

    Coins as sorted lists, and a ledger of balances with the bank, fee and mint
    operations the auctions call, with the laws that the theorems assume of them. *)

From stdpp Require Import base gmap list strings sorting relations.
From S2P Require Import Prelude GoStd Config External Store Instances Coins Auction AuctionBlock AuctionLedger AuctionBooks AuctionServer AuctionSales AuctionPeriodEnd AuctionEnd AuctionBid AuctionCorrect AuctionGenesis.

#[local] Open Scope Z_scope.

(** ** Coins *)

(** Adds an amount, which may be negative, and keeps the list sorted and without
    zero coins. *)
Fixpoint add_coin (c : Coin) (cs : list Coin) : list Coin :=
  match cs with
  | [] => if decide (Amount c = 0) then [] else [c]
  | c' :: cs' =>
      if decide (Denom c = Denom c') then
        if decide (Amount c' + Amount c = 0) then cs' else mkCoin (Denom c) (Amount c' + Amount c) :: cs'
      else if bytes_ltb (bytes_of_string (Denom c)) (bytes_of_string (Denom c')) then
        if decide (Amount c = 0) then cs else c :: cs
      else c' :: add_coin c cs'
  end.

Definition neg (c : Coin) : Coin := mkCoin (Denom c) (- Amount c).

#[export] Instance coins_api : CoinsApi := {|
  Coins_AmountOf cs d := Some (amount_of d cs);
  Coins_Add a b := Some (foldr add_coin a b);
  Coins_Sub a b := Some (foldr (λ c, add_coin (neg c)) a b);
  Coins_Equal a b := bool_decide (a = b);
  Coins_IsZero a := bool_decide (a = []) |}.

(** Sorted, with valid denoms and no zero coin. *)
Record canonical (cs : list Coin) : Prop := {
  cn_sorted : StronglySorted denom_lt cs;
  cn_coins : Forall (λ c, Amount c ≠ 0 ∧ ValidateDenom (Denom c) = true) cs;
}.

Lemma canonical_nil : canonical [].
Proof. split; constructor. Qed.

Lemma canonical_cons c cs :
  canonical (c :: cs) → canonical cs ∧ Forall (denom_lt c) cs ∧ Amount c ≠ 0 ∧ ValidateDenom (Denom c) = true.
Proof. intros [[Hs Hlt]%StronglySorted_inv [[Hc Hv] Hcs]%Forall_cons]. by repeat split. Qed.

Lemma denom_lt_total c c' :
  Denom c ≠ Denom c' → bytes_ltb (bytes_of_string (Denom c)) (bytes_of_string (Denom c')) = false → denom_lt c' c.
Proof.
  intros Hne Hf. unfold denom_lt, bytes_lt, bytes_ltb in *.
  rewrite (bytes_cmp_antisym (bytes_of_string (Denom c))).
  destruct (bytes_cmp _ _) eqn:E; try done. by apply bytes_cmp_eq, bytes_of_string_inj in E.
Qed.

Lemma add_coin_denoms c cs c' : c' ∈ add_coin c cs → Denom c' = Denom c ∨ c' ∈ cs.
Proof.
  induction cs as [|x cs IH]; cbn [add_coin]; repeat case_decide; try case_match; set_solver.
Qed.

Lemma add_coin_canonical c cs : canonical cs → ValidateDenom (Denom c) = true → canonical (add_coin c cs).
Proof.
  intros Hcs Hc. induction cs as [|x cs IH]; cbn [add_coin].
  { case_decide; [apply canonical_nil|]. split; repeat constructor; done. }
  pose proof (canonical_cons _ _ Hcs) as (Hok & Hlt & Hx & Hv). case_decide as Hd.
  { case_decide; [done|]. split; constructor; try apply Hok; [|done].
    eapply Forall_impl; [exact Hlt|]. intros y. unfold denom_lt. cbn. by rewrite Hd. }
  destruct (bytes_ltb _ _) eqn:Hb.
  - case_decide; [done|]. split; constructor; try apply Hcs; [|done].
    constructor; [exact Hb|]. eapply Forall_impl; [exact Hlt|]. intros y Hy. unfold denom_lt in *.
    eapply transitivity; [exact Hb|exact Hy].
  - destruct (IH Hok) as [Hs Hf]. split; constructor; try done.
    apply Forall_forall. intros y [Ey|Hy]%add_coin_denoms.
    + unfold denom_lt. rewrite Ey. by apply (denom_lt_total c x).
    + rewrite Forall_forall in Hlt. by apply Hlt.
Qed.

Lemma amount_of_add c cs d : amount_of d (add_coin c cs) = amount_of d cs + amount_of d [c].
Proof.
  rewrite amount_of_singleton. induction cs as [|x cs IH]; cbn [add_coin].
  { case_decide; [|rewrite amount_of_singleton; done]. cbn. case_decide; lia. }
  repeat case_decide; try case_match; rewrite ?amount_of_cons, ?IH; cbn [Denom Amount];
    repeat case_decide; congruence || lia.
Qed.

Lemma canonical_ok cs : canonical cs → (∀ d, 0 ≤ amount_of d cs) → coins_ok cs.
Proof.
  intros Hcs Hn. split; [apply Hcs|]. revert Hn. induction cs as [|c cs IH]; intros Hn; [constructor|].
  pose proof (canonical_cons _ _ Hcs) as (Hok & Hlt & Hx & Hv).
  assert (amount_of (Denom c) cs = 0) as Hz.
  { apply amount_of_absent. eapply Forall_impl; [exact Hlt|]. intros y ?%denom_lt_irrefl. done. }
  constructor.
  - split; [|done]. specialize (Hn (Denom c)). rewrite amount_of_cons, decide_True in Hn by done. lia.
  - apply IH; [done|]. intros d. specialize (Hn d). rewrite amount_of_cons in Hn.
    case_decide as Hd; [subst d; lia|lia].
Qed.

Lemma ok_canonical cs : coins_ok cs → canonical cs.
Proof. intros [Hs Hc]. split; [done|]. eapply Forall_impl; [exact Hc|]. intros c [? ?]. split; [lia|done]. Qed.

Lemma amount_of_neg c d : amount_of d [neg c] = - amount_of d [c].
Proof. rewrite !amount_of_singleton. cbn. case_decide; lia. Qed.

Lemma subtract_all a b :
  canonical a → Forall (λ c, ValidateDenom (Denom c) = true) b →
  canonical (foldr (λ c, add_coin (neg c)) a b) ∧
  ∀ d, amount_of d (foldr (λ c, add_coin (neg c)) a b) = amount_of d a - amount_of d b.
Proof.
  intros Ha. induction 1 as [|c b Hc _ [IH1 IH2]]; [split; [done|intros d; change (amount_of d []) with 0; cbn [foldr]; lia]|].
  cbn [foldr]. split; [by apply add_coin_canonical|]. intros d.
  rewrite amount_of_add, IH2, amount_of_neg, (amount_of_cons d c b), amount_of_singleton. lia.
Qed.

#[export] Instance coins_laws : CoinsLaws.
Proof.
  split; cbn [Coins_AmountOf Coins_Add Coins_Sub Coins_Equal Coins_IsZero coins_api]; try done.
  - intros a c Ha Hc Hd Hlt. exists (add_coin c a). cbn [foldr]. split; [done|].
    assert (∀ d, amount_of d (add_coin c a) = amount_of d a + amount_of d [c]) as E by (intros; apply amount_of_add).
    split; [|done]. apply canonical_ok; [apply add_coin_canonical; [by apply ok_canonical|done]|].
    intros d. rewrite E. pose proof (amount_of_nonneg d a Ha). rewrite amount_of_singleton. case_decide; lia.
  - intros a b Ha Hb Hle. destruct (subtract_all a b) as [Hc E]; [by apply ok_canonical| |].
    { destruct Hb as [_ Hb]. eapply Forall_impl; [exact Hb|]. by intros c [_ ?]. }
    eexists. split; [done|]. split; [|exact E]. apply canonical_ok; [done|]. intros d. rewrite E. specialize (Hle d). lia.
Qed.

#[export] Instance native_token : NativeToken.
Proof. by split. Qed.

(** ** The ledger

    Balances by account and denom; what accounts hold is the supply.  Entries that
    are not [sound] count as none, and a payment that would leave such entries
    fails. *)

Record Ledger := mkLedger { entries : gmap (bytes * string) Z }.

Definition msum (f : bytes * string → Z → Z) (m : gmap (bytes * string) Z) : Z :=
  sumZ (λ kx, f kx.1 kx.2) (map_to_list m).

Definition of_denom (d : string) (k : bytes * string) (x : Z) : Z := if decide (k.2 = d) then x else 0.
Definition of_entry (a : bytes) (d : string) (k : bytes * string) (x : Z) : Z :=
  if decide (k = (a, d)) then x else 0.

Definition supply_of (m : gmap (bytes * string) Z) (d : string) : Z := msum (of_denom d) m.

Definition entry_ok (m : gmap (bytes * string) Z) (kx : (bytes * string) * Z) : Prop :=
  0 ≤ kx.2 ∧ ValidateDenom kx.1.2 = true ∧ supply_of m kx.1.2 < 2 ^ 256.
#[export] Instance entry_ok_dec m kx : Decision (entry_ok m kx).
Proof. unfold entry_ok. apply _. Defined.

Definition sound (m : gmap (bytes * string) Z) : Prop := Forall (entry_ok m) (map_to_list m).
#[export] Instance sound_dec m : Decision (sound m).
Proof. unfold sound. apply _. Defined.

Definition books (w : Ledger) : gmap (bytes * string) Z :=
  if decide (sound (entries w)) then entries w else ∅.

Definition settle (f : gmap (bytes * string) Z → gmap (bytes * string) Z) (w : Ledger)
    : option gerror * Ledger :=
  if decide (sound (f (books w))) then (None, mkLedger (f (books w))) else (Some (ErrSdk "insufficient funds"), w).

Definition pay (from to : bytes) (cs : list Coin) (m : gmap (bytes * string) Z) : gmap (bytes * string) Z :=
  credit 1 to cs (credit (-1) from cs m).

#[export] Instance ledger_bank : Bank Ledger := {|
  SendCoinsFromAccountToModule a m cs := settle (pay a (bytes_of_string m) cs);
  SendCoinsFromModuleToAccount m a cs := settle (pay (bytes_of_string m) a cs);
  SendCoinsFromModuleToModule m n cs := settle (pay (bytes_of_string m) (bytes_of_string n) cs);
  MintCoins m cs := settle (credit 1 (bytes_of_string m) cs);
  BurnCoins m cs := settle (credit (-1) (bytes_of_string m) cs);
  GetBalance w a d := default 0 (books w !! (a, d));
  GetSupply w d := supply_of (books w) d;
  GetDenomMetaData _ _ := None |}.

#[export] Instance ledger_balances : BankBalances Ledger := {|
  GetAllBalances w a :=
    foldr (λ kx cs, if decide (kx.1.1 = a) then add_coin (mkCoin kx.1.2 kx.2) cs else cs) []
      (map_to_list (books w)) |}.

#[export] Instance ledger_supplies : BankSupplies Ledger := {|
  TotalSupply w := foldr (λ kx, add_coin (mkCoin kx.1.2 kx.2)) [] (map_to_list (books w)) |}.

#[export] Instance ledger_ibc : Ibc Ledger := {|
  GetNativeHrp _ := Ok "gravity";
  GetHrpIbcRecord _ _ := Er (ErrSdk "hrp");
  GetPort _ := "transfer";
  Transfer _ w := (None, w);
  AddToFeePool _ w := (None, w);
  BlockTimeNano _ := 0 |}.

#[export] Instance ledger_mint : Mint Ledger := {| MintDenom _ := Ok "ugraviton" |}.

#[export] Instance ledger_accounts : Accounts Ledger := {|
  HasAccount _ _ := true;
  DeductFees a cs := settle (pay a (bytes_of_string FeeCollectorName) cs) |}.

#[export] Instance ledger_access : BankAccess Ledger := {|
  BlockedAddr a := bool_decide (a ∈ [mod_acc; pool_acc; distr_acc; fee_acc]);
  LockedCoins _ _ _ := 0 |}.

(** ** Sums over the entries *)

Lemma msum_delete f m k : msum f m = from_option (f k) 0 (m !! k) + msum f (delete k m).
Proof.
  unfold msum. destruct (m !! k) as [x|] eqn:E; [|by rewrite delete_id].
  rewrite <- (insert_delete_id m k x E) at 1. rewrite map_to_list_insert by apply lookup_delete_eq. done.
Qed.

Lemma msum_insert f m k x :
  msum f (<[k := x]> m) = f k x - from_option (f k) 0 (m !! k) + msum f m.
Proof.
  rewrite (msum_delete f (<[k := x]> m) k), (msum_delete f m k).
  rewrite lookup_insert_eq, delete_insert_eq. cbn. lia.
Qed.

Lemma msum_zero f m : (∀ k x, m !! k = Some x → f k x = 0) → msum f m = 0.
Proof.
  intros Hf. unfold msum. assert (Forall (λ kx : (bytes * string) * Z, f kx.1 kx.2 = 0) (map_to_list m)) as Hl.
  { apply Forall_forall. intros [k x] Hin%elem_of_map_to_list. by apply Hf. }
  induction Hl as [|kx l Hkx _ IH]; [done|]. cbn. unfold sumZ in *. lia.
Qed.

Lemma msum_entry m a d : msum (of_entry a d) m = default 0 (m !! (a, d)).
Proof.
  rewrite (msum_delete _ m (a, d)), msum_zero.
  - unfold of_entry. destruct (m !! (a, d)); cbn; [by rewrite decide_True; [lia|]|done].
  - intros k x Hk. unfold of_entry. rewrite decide_False; [done|]. intros ->. by rewrite lookup_delete_eq in Hk.
Qed.

Lemma supply_credit sign a cs m d : supply_of (credit sign a cs m) d = supply_of m d + sign * amount_of d cs.
Proof.
  induction cs as [|c cs IH]; [change (amount_of d []) with 0; cbn; lia|].
  rewrite amount_of_cons. cbn [credit foldr]. fold (credit sign a cs m). unfold supply_of in *.
  rewrite msum_insert, IH. unfold of_denom. cbn [snd].
  destruct (credit sign a cs m !! (a, Denom c)); cbn; case_decide; lia.
Qed.

(** ** Sound entries *)

Lemma sound_books w : sound (books w).
Proof. unfold books. case_decide; [done|]. unfold sound. rewrite map_to_list_empty. constructor. Qed.

Lemma sound_entry m k x : sound m → m !! k = Some x → entry_ok m (k, x).
Proof. unfold sound. rewrite Forall_forall. intros Hs Hk. by apply Hs, elem_of_map_to_list. Qed.

Lemma sound_intro m : (∀ k x, m !! k = Some x → entry_ok m (k, x)) → sound m.
Proof. intros Hm. apply Forall_forall. intros [k x] Hin%elem_of_map_to_list. by apply Hm. Qed.

Lemma sound_nonneg m a d : sound m → 0 ≤ default 0 (m !! (a, d)).
Proof.
  intros Hs. destruct (m !! (a, d)) as [x|] eqn:E; [|done]. by destruct (sound_entry _ _ _ Hs E).
Qed.

Lemma msum_nonneg f m : (∀ k x, m !! k = Some x → 0 ≤ f k x) → 0 ≤ msum f m.
Proof.
  intros Hf. apply sumZ_nonneg, Forall_forall. intros [k x] Hin%elem_of_map_to_list. by apply Hf.
Qed.

Lemma supply_range m d : sound m → 0 ≤ supply_of m d < 2 ^ 256.
Proof.
  intros Hs. split.
  - apply msum_nonneg. intros k x Hk. destruct (sound_entry _ _ _ Hs Hk) as [? _]. unfold of_denom. cbn in *. case_decide; lia.
  - destruct (decide (supply_of m d < 2 ^ 256)); [done|]. exfalso.
    assert (supply_of m d = 0); [|lia]. apply msum_zero. intros k x Hk. unfold of_denom.
    case_decide as Hd; [|done]. destruct (sound_entry _ _ _ Hs Hk) as (_ & _ & Hlt). cbn in Hlt. subst d. lia.
Qed.

(** Distinct accounts hold at most the supply. *)
Lemma held_le_supply m l d :
  (∀ k x, m !! k = Some x → 0 ≤ x) → NoDup l → sumZ (λ a, default 0 (m !! (a, d))) l ≤ supply_of m d.
Proof.
  intros Hn Hnd. revert m Hn. induction Hnd as [|a l Ha _ IH]; intros m Hn.
  { apply msum_nonneg. intros k x Hk. apply Hn in Hk. unfold of_denom. case_decide; lia. }
  cbn [sumZ foldr]. fold (sumZ (λ a, default 0 (m !! (a, d))) l). unfold supply_of.
  rewrite (msum_delete _ m (a, d)).
  assert (from_option (of_denom d (a, d)) 0 (m !! (a, d)) = default 0 (m !! (a, d))) as ->.
  { destruct (m !! (a, d)); [|done]. cbn. unfold of_denom. by rewrite decide_True. }
  rewrite (sumZ_ext _ (λ a', default 0 (delete (a, d) m !! (a', d)))).
  - assert (sumZ (λ a', default 0 (delete (a, d) m !! (a', d))) l ≤ supply_of (delete (a, d) m) d) as Hl; [|unfold supply_of in Hl; lia].
    apply IH. intros k x [_ Hk]%lookup_delete_Some. by eapply Hn.
  - apply Forall_forall. intros a' Ha'. rewrite lookup_delete_ne; [done|]. intros [= ->]. done.
Qed.

Lemma settle_books f w w' : settle f w = (None, w') → books w' = f (books w).
Proof.
  unfold settle. case_decide as Hs; [|done]. intros [= <-]. unfold books at 1. cbn. by rewrite decide_True.
Qed.

Lemma pay_moved from to cs w w' : settle (pay from to cs) w = (None, w') → moved w w' from to cs.
Proof.
  intros E%settle_books. split_and!; [| |done].
  - intros a d. cbn [GetBalance ledger_bank]. rewrite E. unfold pay. rewrite !lookup_credit. repeat case_decide; lia.
  - intros d. cbn [GetSupply ledger_bank]. rewrite E. unfold pay. rewrite !supply_credit. lia.
Qed.

Lemma credit_supplied sign a cs w w' : settle (credit sign a cs) w = (None, w') → supplied sign w w' a cs.
Proof.
  intros E%settle_books. split_and!; [| |done].
  - intros a' d. cbn [GetBalance ledger_bank]. rewrite E. apply lookup_credit.
  - intros d. cbn [GetSupply ledger_bank]. rewrite E. apply supply_credit.
Qed.

#[export] Instance ledger_bank_laws : BankLaws Ledger.
Proof.
  split; cbn [SendCoinsFromAccountToModule SendCoinsFromModuleToAccount SendCoinsFromModuleToModule
              MintCoins BurnCoins GetModuleAddress ledger_bank sdk];
    [intros ?????; apply pay_moved..|intros ????; apply credit_supplied|intros ????; apply credit_supplied|].
  intros w a d. cbn [GetBalance ledger_bank]. pose proof (sound_books w) as Hs. split; [by apply sound_nonneg|].
  eapply Z.le_lt_trans; [|apply (supply_range _ d Hs)].
  pose proof (held_le_supply (books w) [a] d) as Hh. cbn in Hh. rewrite Z.add_0_r in Hh. apply Hh; [|apply NoDup_singleton].
  intros k x Hk. by destruct (sound_entry _ _ _ Hs Hk).
Qed.

#[export] Instance ledger_accounts_laws : AccountsLaws Ledger.
Proof. split. intros ????. apply pay_moved. Qed.

#[export] Instance ledger_mint_laws : MintLaws Ledger.
Proof. split; done. Qed.

#[export] Instance ledger_fee_pool : FeePoolLaws Ledger.
Proof. split; cbn; intros; by simplify_eq. Qed.

(** ** Listings *)

Lemma listing (P : (bytes * string) * Z → Prop) `{∀ kx, Decision (P kx)} m :
  sound m →
  let cs := foldr (λ kx cs, if decide (P kx) then add_coin (mkCoin kx.1.2 kx.2) cs else cs) [] (map_to_list m) in
  coins_ok cs ∧
  ∀ d, amount_of d cs = sumZ (λ kx, if decide (P kx ∧ kx.1.2 = d) then kx.2 else 0) (map_to_list m).
Proof.
  intros Hs. unfold sound in Hs. cbv zeta.
  assert (Forall (λ kx : (bytes * string) * Z, 0 ≤ kx.2 ∧ ValidateDenom kx.1.2 = true) (map_to_list m)) as Hl
    by (eapply Forall_impl; [exact Hs|]; intros kx (? & ? & _); done).
  clear Hs. revert Hl. generalize (map_to_list m). intros l Hl.
  set (cs := foldr _ [] l).
  assert (canonical cs ∧ ∀ d, amount_of d cs = sumZ (λ kx, if decide (P kx ∧ kx.1.2 = d) then kx.2 else 0) l) as [Hc E].
  { unfold cs. clear cs. induction Hl as [|kx l [Hx Hv] _ [IH1 IH2]]; [split; [apply canonical_nil|done]|].
    cbn [foldr sumZ]. split; [case_decide; [by apply add_coin_canonical|done]|]. intros d.
    fold (sumZ (λ kx, if decide (P kx ∧ kx.1.2 = d) then kx.2 else 0) l). rewrite <- IH2.
    destruct (decide (P kx)).
    - rewrite amount_of_add, amount_of_singleton. cbn [Denom Amount].
      destruct (decide (kx.1.2 = d)); [rewrite decide_True by done|rewrite decide_False by tauto]; lia.
    - rewrite decide_False by tauto. lia. }
  split; [|done]. apply canonical_ok; [done|]. intros d. rewrite E. apply sumZ_nonneg.
  eapply Forall_impl; [exact Hl|]. intros kx [? _]. cbv beta. case_decide; lia.
Qed.

#[export] Instance ledger_listing : BankListing Ledger.
Proof.
  split; cbn [GetAllBalances TotalSupply GetBalance GetSupply ledger_bank ledger_balances ledger_supplies].
  - intros w a. by destruct (listing (λ kx, kx.1.1 = a) (books w) (sound_books w)).
  - intros w a d. destruct (listing (λ kx, kx.1.1 = a) (books w) (sound_books w)) as [_ ->].
    rewrite <- msum_entry. apply sumZ_ext, Forall_true. intros [[a' d'] x]. cbn. unfold of_entry.
    repeat case_decide; naive_solver.
  - intros w. by destruct (listing (λ _, True) (books w) (sound_books w)).
  - intros w d. destruct (listing (λ _, True) (books w) (sound_books w)) as [_ E]. etransitivity; [exact (E d)|].
    apply sumZ_ext, Forall_true. intros [[a' d'] x]. cbn. unfold of_denom. cbn. repeat case_decide; naive_solver.
  - intros w l d Hnd. pose proof (sound_books w) as Hs. split; [|by apply supply_range].
    apply held_le_supply; [|done]. intros k x Hk. by destruct (sound_entry _ _ _ Hs Hk).
Qed.

(** ** Covered payments *)

Lemma credit_keys sign a cs m k :
  is_Some (credit sign a cs m !! k) → is_Some (m !! k) ∨ ∃ c, c ∈ cs ∧ k.2 = Denom c.
Proof.
  induction cs as [|c cs IH]; [by left|]. cbn [credit foldr]. fold (credit sign a cs m).
  destruct (decide (k = (a, Denom c))) as [->|Hk]; [intros _; right; exists c; set_solver|].
  rewrite lookup_insert_ne by done. intros [?|(c' & ? & ?)]%IH; [by left|right; exists c'; set_solver].
Qed.

(** Entries with the keys of [m] and valid denoms are sound if they are not negative
    and the supplies fit. *)
Lemma sound_credited m m' cs :
  sound m → coins_ok cs →
  (∀ k, is_Some (m' !! k) → is_Some (m !! k) ∨ ∃ c, c ∈ cs ∧ k.2 = Denom c) →
  (∀ a d, 0 ≤ default 0 (m' !! (a, d))) → (∀ d, supply_of m' d ≤ supply_of m d) → sound m'.
Proof.
  intros Hs [_ Hcs] Hk Hn Hsup. apply sound_intro. intros [a d] x E. rewrite Forall_forall in Hcs.
  split_and!; cbn.
  - specialize (Hn a d). by rewrite E in Hn.
  - destruct (Hk (a, d)) as [[y Hy]|(c & Hc & Ed)]; [by eexists| |cbn in Ed; subst d; by apply Hcs].
    by destruct (sound_entry _ _ _ Hs Hy) as (_ & ? & _).
  - eapply Z.le_lt_trans; [apply Hsup|by apply supply_range].
Qed.

Lemma pay_sound from to cs w :
  coins_ok cs → covered w from cs → sound (pay from to cs (books w)).
Proof.
  intros Hc Hcov. apply (sound_credited (books w) _ cs); [apply sound_books|done|..].
  - intros k [[?|?]%credit_keys|?]%credit_keys; eauto.
  - intros a d. unfold pay. rewrite !lookup_credit. pose proof (sound_nonneg _ a d (sound_books w)).
    pose proof (amount_of_nonneg d cs Hc). specialize (Hcov d). cbn in Hcov.
    destruct (decide (a = from)) as [->|]; case_decide; lia.
  - intros d. unfold pay. rewrite !supply_credit. lia.
Qed.

Lemma pay_succeeds from to cs w :
  coins_ok cs → covered w from cs → ∃ w', settle (pay from to cs) w = (None, w').
Proof. intros Hc Hcov. unfold settle. rewrite decide_True; [by eexists|by apply pay_sound]. Qed.

#[export] Instance ledger_payments : PaymentsSucceed Ledger.
Proof.
  split; cbn [SendCoinsFromAccountToModule SendCoinsFromModuleToAccount SendCoinsFromModuleToModule
              BurnCoins DeductFees AddToFeePool GetModuleAddress LockedCoins ledger_bank ledger_ibc
              ledger_accounts ledger_access sdk]; try done.
  - intros. by apply pay_succeeds.
  - intros. by apply pay_succeeds.
  - intros cs w Hc Hcov. unfold settle. rewrite decide_True; [by eexists|].
    apply (sound_credited (books w) _ cs); [apply sound_books|done|..].
    + intros k [?|?]%credit_keys; eauto.
    + intros a d. rewrite lookup_credit. pose proof (sound_nonneg _ a d (sound_books w)). specialize (Hcov d).
      change (amount_of d cs ≤ default 0 (books w !! (bytes_of_string ModuleName, d))) in Hcov.
      case_decide as Ea; [subst a; lia|lia].
    + intros d. rewrite supply_credit. pose proof (amount_of_nonneg d cs Hc). lia.
  - intros cs w. by eexists.
  - intros a cs w Hc Hle. apply pay_succeeds; [done|]. intros d. pose proof (amount_of_nonneg d cs Hc).
    destruct (decide (0 < amount_of d cs)); [specialize (Hle d); lia|].
    pose proof (balance_range w a d). lia.
  - intros a cs w Hc Hle. apply pay_succeeds; [done|]. intros d. pose proof (amount_of_nonneg d cs Hc).
    destruct (decide (0 < amount_of d cs)); [specialize (Hle d); lia|].
    pose proof (balance_range w a d). lia.
Qed.

(** * The theorems about the auctions at work

    A period with two auctions, one of which has a bid, evaluated on the ledger
    above. *)

(** ** The period *)

Definition bidder_a : bytes := replicate 20 161.
Definition bidder_b : bytes := replicate 20 178.
Definition name_a : string := "gravity1" +:+ hex_encode bidder_a.
Definition name_b : string := "gravity1" +:+ hex_encode bidder_b.

Definition sale_params (blacklist : list string) : Auction.Params := mkParams 10 3 blacklist true true.
Definition listed : Auction.Params := sale_params ["ugraviton"].
Definition sale1 : Auction := mkAuction 1 (mkCoin "uatom" 50) (Some (mkBid 7 name_a)).
Definition sale2 : Auction := mkAuction 2 (mkCoin "uosmo" 20) None.
Definition sale_period : AuctionPeriod := mkAuctionPeriod 1 11.

Definition module_coins : list Coin := [mkCoin "uatom" 50; mkCoin "ugraviton" 7; mkCoin "uosmo" 20].
Definition sale_entries : gmap (bytes * string) Z :=
  credit 1 mod_acc module_coins
    (credit 1 pool_acc [mkCoin "uatom" 5] (credit 1 bidder_b [mkCoin "ugraviton" 100] ∅)).
Definition sale_ledger : Ledger := mkLedger sale_entries.

Definition sale_empty (p : Auction.Params) : AState Ledger :=
  mkAState (Some p) (Some sale_period) ∅ None sale_ledger 11 [].
Definition sale_first (p : Auction.Params) : AState Ledger :=
  set_nonce 1 (set_auctions (insert (GetAuctionKey 1) sale1) (sale_empty p)).
Definition sale (p : Auction.Params) : AState Ledger :=
  set_nonce 2 (set_auctions (insert (GetAuctionKey 2) sale2) (sale_first p)).

Lemma sale_empty_indexed p : AuctionBooks.indexed (sale_empty p).
Proof. by split. Qed.

Lemma sale_first_indexed p : AuctionBooks.indexed (sale_first p).
Proof. by apply (indexed_stored (sale_empty p) sale1); [apply sale_empty_indexed|..]. Qed.

Lemma sale_indexed p : AuctionBooks.indexed (sale p).
Proof. by apply (indexed_stored (sale_first p) sale2); [apply sale_first_indexed|..]. Qed.

Lemma sale_auctions p : auctions_of (sale p) = [sale1; sale2].
Proof.
  transitivity (auctions_of (sale_first p) ++ [sale2]).
  { by apply (auctions_stored (sale_first p) sale2); [apply sale_first_indexed|..]. }
  transitivity ((auctions_of (sale_empty p) ++ [sale1]) ++ [sale2]).
  { apply (f_equal (λ l, l ++ [sale2])).
    by apply (auctions_stored (sale_empty p) sale1); [apply sale_empty_indexed|..]. }
  by rewrite auctions_none.
Qed.

Lemma sale_sound : sound sale_entries.
Proof. apply (bool_decide_eq_true_1 (sound sale_entries)). by vm_compute. Qed.

Lemma sale_balance a d :
  GetBalance sale_ledger a d =
  (if decide (a = bidder_b) then amount_of d [mkCoin "ugraviton" 100] else 0) +
  (if decide (a = pool_acc) then amount_of d [mkCoin "uatom" 5] else 0) +
  (if decide (a = mod_acc) then amount_of d module_coins else 0).
Proof.
  cbn [GetBalance ledger_bank]. unfold books. rewrite decide_True by apply sale_sound.
  cbn [entries sale_ledger]. unfold sale_entries. rewrite !lookup_credit, lookup_empty.
  cbn [default]. repeat case_decide; lia.
Qed.

Lemma bidder_ordinary a : a ∈ [bidder_a; bidder_b] → ordinary a.
Proof.
  intros Ha. assert (bool_decide (Forall (λ a, a ∉ [mod_acc; pool_acc; distr_acc; fee_acc]) [bidder_a; bidder_b]) = true)
    as Hall%bool_decide_eq_true_1 by by vm_compute.
  rewrite Forall_forall in Hall. specialize (Hall a Ha). split; [done|].
  cbn [BlockedAddr ledger_access]. by apply bool_decide_eq_false_2.
Qed.

Lemma name_a_address : AccAddressFromBech32 name_a = Ok bidder_a.
Proof. by vm_compute. Qed.
Lemma name_b_address : AccAddressFromBech32 name_b = Ok bidder_b.
Proof. by vm_compute. Qed.

Lemma sale_ok p : Params_ValidateBasic p = Ok tt → auction_ok (sale p).
Proof.
  intros Hv. pose proof module_accounts_ne as (N1 & _). split.
  - apply sale_indexed.
  - by exists p.
  - done.
  - rewrite sale_auctions. split; repeat constructor; done.
  - rewrite sale_auctions. by repeat constructor.
  - rewrite sale_auctions. rewrite !Forall_cons. split_and!; [|done|constructor]. intros b [= <-]. split; [done|].
    exists bidder_a. split; [apply name_a_address|apply bidder_ordinary; by left].
  - intros d. rewrite sale_auctions. change (as_world (sale p)) with sale_ledger. rewrite sale_balance.
    destruct (bidder_ordinary bidder_b) as [Hb _]; [by right; left|].
    rewrite decide_False by (intros E; apply Hb; rewrite <- E; by left).
    rewrite decide_False by done. rewrite decide_True by done.
    unfold held, amount_of, module_coins, sumZ, bid_of. cbn. repeat case_decide; subst; done.
Qed.

Lemma sale_over p :
  Params_ValidateBasic p = Ok tt → pa_Enabled p = true → pa_AuctionLength p = 10 →
  period_over p (sale p) sale_period.
Proof.
  intros Hv He Hl. split; [by apply sale_ok|done|done|split; [done|cbn; lia]|split; cbn; rewrite ?Hl; done|].
  unfold ids_left. rewrite sale_auctions.
  assert (length (GetAllBalances sale_ledger pool_acc) = 1%nat) as E by by vm_compute.
  unfold pool_coins. change (as_world (sale p)) with sale_ledger. by rewrite E.
Qed.

Lemma sale_denoms a : a ∈ auctions_of (sale listed) → Denom (au_Amount a) ∉ pa_NonAuctionableTokens listed.
Proof.
  rewrite sale_auctions. revert a. apply Forall_forall.
  apply (bool_decide_eq_true_1 (Forall (λ a, Denom (au_Amount a) ∉ ["ugraviton"]) [sale1; sale2])). by vm_compute.
Qed.

(** ** The end of the period *)

Lemma auction_period_closes_witness :
  ∃ s', EndBlocker (sale listed) = Ret tt s' ∧ GetBalance (as_world s') bidder_a "uatom" = 50 ∧
        amount_of "uosmo" (au_Amount <$> auctions_of s') = 20 ∧
        amount_of "uatom" (au_Amount <$> auctions_of s') = 5.
Proof.
  destruct (auction_period_closes listed (sale listed) sale_period) as (s' & E & _ & _ & Hw & Ha & _).
  - by apply sale_over.
  - intros a Ha [Hd _]. by apply (sale_denoms a).
  - exists s'. split; [exact E|]. rewrite sale_auctions in Hw, Ha.
    pose proof (bidder_ordinary bidder_a ltac:(by left)) as Ho.
    rewrite (Hw bidder_a "uatom" Ho), (Ha "uosmo"), (Ha "uatom").
    change (as_world (sale listed)) with sale_ledger. rewrite !sale_balance. clear.
    split_and!; vm_compute; reflexivity.
Defined.

Lemma withdrawn_token_halts_witness :
  ∃ msg, EndBlocker (sale (sale_params ["ugraviton"; "uosmo"])) = Panic msg.
Proof.
  apply (withdrawn_token_halts (sale_params ["ugraviton"; "uosmo"]) _ sale_period sale2).
  - by apply sale_over.
  - rewrite sale_auctions. by right; left.
  - by right; left.
  - by left.
Defined.

(** ** A bid *)

Definition bid_b : MsgBid := mkMsgBid 1 name_b 9 3.

Lemma bid_b_msg : bid_msg (sale listed) bid_b bidder_b.
Proof.
  split; [|done|done|done|apply name_b_address|apply bidder_ordinary; by right; left|done].
  unfold MsgBid_ValidateBasic. cbn [mb_Bidder bid_b]. by rewrite name_b_address.
Qed.

Lemma names_differ : name_b ≠ name_a.
Proof. intros E. assert (Ok bidder_b = Ok bidder_a) as Hc by (rewrite <- name_a_address, <- name_b_address, E; done). discriminate Hc. Qed.

Lemma sale1_found p : as_auctions (sale p) !! GetAuctionKey 1 = Some sale1.
Proof. apply (elem_of_auctions (sale p) sale1 (sale_indexed p)). rewrite sale_auctions. by left. Qed.

(** The auction's highest bidder is another account. *)
Lemma bid_b_other a b :
  admissible listed (sale listed) bid_b bidder_b a → au_HighestBid a = Some b →
  AccAddressFromBech32 (bid_BidderAddress b) ≠ Ok bidder_b.
Proof.
  intros Had Hb. pose proof (ad_found _ _ _ _ _ Had) as Hf. cbn [mb_AuctionId bid_b] in Hf.
  rewrite sale1_found in Hf. injection Hf as <-. injection Hb as <-. cbn [bid_BidderAddress].
  rewrite name_a_address. done.
Qed.

Lemma bid_b_admissible : admissible listed (sale listed) bid_b bidder_b sale1.
Proof.
  split; [done|done|apply sale1_found|intros b [= <-]; split; [done|apply names_differ]|].
  change (as_world (sale listed)) with sale_ledger. rewrite sale_balance. rewrite decide_True by done. by vm_compute.
Qed.

Lemma bid_b_spendable : 12 ≤ spendable (sale listed) bidder_b.
Proof.
  unfold spendable. change (as_world (sale listed)) with sale_ledger. rewrite sale_balance, decide_True by done. by vm_compute.
Qed.

Lemma Bid_outcome_witness :
  ∃ s', Bid_handler bid_b (sale listed) = Ret tt s' ∧ auction_ok s' ∧
        as_auctions s' !! GetAuctionKey 1 = Some (mkAuction 1 (mkCoin "uatom" 50) (Some (mkBid 9 name_b))).
Proof.
  pose proof (Bid_outcome listed (sale listed) bid_b bidder_b (sale_ok listed eq_refl) eq_refl bid_b_msg) as Ho.
  destruct (Bid_handler bid_b (sale listed)) as [[] s'|e s'|m]; [|exfalso|exfalso].
  - destruct Ho as (a & Had & _ & Hok & Ea & _). exists s'. split; [done|]. split; [exact Hok|]. rewrite Ea.
    pose proof (ad_found _ _ _ _ _ Had) as Hf. cbn [mb_AuctionId bid_b] in Hf |- *. rewrite sale1_found in Hf.
    injection Hf as <-. by rewrite lookup_insert_eq.
  - specialize (Ho sale1 bid_b_admissible). pose proof bid_b_spendable.
    change (spendable (sale listed) bidder_b < 12) in Ho. lia.
  - destruct Ho as (a & b & Had & Hb & Hacc & _). exact (bid_b_other a b Had Hb Hacc).
Defined.

Lemma bid_b_runs : ∃ s', Bid_handler bid_b (sale listed) = Ret tt s'.
Proof.
  pose proof (Bid_handler_spec listed (sale listed) bid_b bidder_b (sale_ok listed eq_refl) eq_refl bid_b_msg) as Ho.
  destruct (Bid_handler bid_b (sale listed)) as [[] s'|e s'|m]; [by exists s'|exfalso..].
  - specialize (Ho sale1 bid_b_admissible). pose proof bid_b_spendable.
    change (spendable (sale listed) bidder_b < 12) in Ho. lia.
  - destruct Ho as (a & Had & (b & Eb & Hacc)%winner_bid). exact (bid_b_other a b Had Eb Hacc).
Qed.

Lemma auctions_solvent_witness :
  ∃ s', Bid_handler bid_b (sale listed) = Ret tt s' ∧ AllInvariants s' = Ret tt s'.
Proof.
  destruct bid_b_runs as [s' E]. exists s'. split; [exact E|].
  apply (auctions_solvent "gov" (sale listed) s' (sale_ok listed eq_refl)).
  apply rtc_once. eapply step_bid; [apply bid_b_msg|exact E].
Defined.

(** ** Genesis *)

Lemma auction_genesis_roundtrip_witness :
  ∃ g s', ExportGenesis (sale listed) = Ret g (sale listed) ∧
    InitGenesis g (mkAState None None ∅ None sale_ledger 5 []) = Ret tt s' ∧ auctions_of s' = [sale1; sale2].
Proof.
  set (s0 := mkAState None None ∅ None sale_ledger 5 []).
  assert (current (sale listed) sale_period) as Hc by (split; [done|cbn; lia]).
  pose proof (ExportGenesis_eq listed (sale listed) sale_period eq_refl Hc) as Eg.
  rewrite sale_auctions in Eg. set (g := mkGenesisState _ _ _) in Eg. exists g.
  assert (before_import (sale listed) s0) as Hb by (split; done).
  pose proof (auction_genesis_roundtrip listed (sale listed) s0 sale_period g (sale_ok listed eq_refl) eq_refl Hc Hb Eg) as Hr.
  rewrite decide_True in Hr.
  2:{ split; [by split|]. split; [by rewrite sale_auctions|].
      apply Forall_forall. intros a Ha. by apply sale_denoms. }
  rewrite sale_auctions in Hr. destruct Hr as (s' & E & _ & Ha & _).
  exists s'. split; [exact Eg|]. split; [exact E|exact Ha].
Defined.

Lemma InitGenesis_disabled_panics_witness :
  ∃ msg, InitGenesis (mkGenesisState (mkParams 10 3 ["ugraviton"] true false) None [])
           (mkAState None None ∅ None sale_ledger 0 []) = Panic msg.
Proof. by apply InitGenesis_disabled_panics. Defined.
