(* ===== verification/Recovery.v ===== *)
(** * The recovery upgrade (app/upgrades/recovery)

    An emergency upgrade of the chain: four ERC20s whose denoms were taken by false
    Cosmos-originated mappings are moved to new denoms.  Their transfers in flight
    are cancelled and refunded, the mappings are broken, the remaining
    Cosmos-originated tokens are whitelisted, confirmations of work that is gone are
    deleted, and the bridge is paused.  handler.go and cleanup.go, with the forced
    application of app.go. *)

From stdpp Require Import base gmap list strings.
From S2P Require Import Prelude GoStd External Store Ethereum Keys OutgoingTx Valset Claims Keeper DelegateKeys Attestation Registry ValsetKeeper IbcForward LogicCall Pool Batch Params.

#[local] Open Scope Z_scope.

(** ** Constants (constants.go) *)

Definition AuroraToRecoveryPlanName : string := "recovery".
Definition usdcAddress : string := "0xA0b86991c6218b36c1d19D4a2e9Eb0cE3606eB48".
Definition usdtAddress : string := "0xdAC17F958D2ee523a2206206994597C13D831ec7".
Definition wethAddress : string := "0xC02aaA39b223FE8D0A0e5C4F27eAD9083C756Cc2".
Definition paxgAddress : string := "0x45804880De22913dAFE09f4980848ECE6EcbAf78".

Definition tokensToRemap : list string := [usdcAddress; usdtAddress; wethAddress; paxgAddress].

Record remapEntry := mkRemapEntry {
  re_erc20 : EthAddress;
  re_problemOldDenom : string;
  re_remappedNewDenom : string }.

(** An entry of the unbatched pool that is to be refunded. *)
Record txEntry := mkTxEntry { te_id : Z; te_sender : bytes; te_amount : Z; te_fee : Z }.

(** The state of [params] with [BridgeActive] assigned. *)
Definition with_BridgeActive (v : bool) (p : Params) : Params :=
  mkParams (p_GravityId p) (p_ContractSourceHash p) (p_BridgeEthereumAddress p) (p_BridgeChainId p)
    (p_SignedValsetsWindow p) (p_SignedBatchesWindow p) (p_SignedLogicCallsWindow p)
    (p_TargetBatchTimeout p) (p_AverageBlockTime p) (p_AverageEthereumBlockTime p)
    (p_SlashFractionValset p) (p_SlashFractionBatch p) (p_SlashFractionLogicCall p)
    (p_UnbondSlashingValsetsWindow p) (p_SlashFractionBadEthSignature p) (p_ValsetReward p) v
    (p_EthereumBlacklist p) (p_MinChainFeeBasisPoints p) (p_ChainFeeAuctionPoolFraction p).

Section Recovery.
Context {W : Type} `{Geth} `{Sdk} `{Bank W}.

(** ** Balances *)

Definition gravityModuleBalance (denom : string) : K W Coin :=
  gets (λ s, mkCoin denom (GetBalance (st_world s) (GetModuleAddress ModuleName) denom)).

(** [total.Add(tx.Erc20Token.Amount).Add(tx.Erc20Fee.Amount)] *)
Definition add_tx (total : Z) (tx : InternalOutgoingTransferTx) : K W Z :=
  x ← opt_panic "Int.Add" (Int_Add total (it_Amount (tx_Erc20Token tx)));
  opt_panic "Int.Add" (Int_Add x (it_Amount (tx_Erc20Fee tx))).

Definition sumTrackedEscrowForContract (tokenContract : EthAddress) (denom : string) : K W Z :=
  total ← IterateOutgoingTxBatches 0 (λ batch total,
    if bool_decide (GetAddress (ib_TokenContract batch) = GetAddress tokenContract) then
      total ← for_acc (ib_Transactions batch) total (λ tx total,
                total ← add_tx total tx; mret (total, false));
      mret (total, false)
    else mret (total, false));
  total ← IterateUnbatchedTransactionsByContract tokenContract total (λ _ tx total,
    total ← add_tx total tx; mret (total, false));
  forwards ← PendingIbcAutoForwards_list 0;
  for_acc forwards total (λ forward total,
    if bool_decide (Denom (pf_Token forward) = denom) then
      total ← opt_panic "Int.Add" (Int_Add total (Amount (pf_Token forward)));
      mret (total, false)
    else mret (total, false)).

Definition recoveryVoidAddress : bytes := GetModuleAddress "gravity/recovery-void".

Definition sweepMaliciousDenomToVoidAddress (denom : string) : K W unit :=
  bal ← gets (λ s, GetBalance (st_world s) (GetModuleAddress ModuleName) denom);
  if bal =? 0 then mret tt else
  coins ← opt_panic "NewCoins" (NewCoins1 (mkCoin denom bal));
  call (SendCoinsFromModuleToAccount ModuleName recoveryVoidAddress coins).

(** The denom of the mapping that was deleted, if there was one. *)
Definition breakFalseCosmosOriginatedMapping (tokenContract : EthAddress) : K W (option string) :=
  found ← IterateCosmosOriginatedMappings None (λ denom erc20 found,
    if bool_decide (GetAddress erc20 = GetAddress tokenContract)
    then mret (Some denom, true) else mret (found, false));
  match found with
  | None => mret None
  | Some foundDenom =>
      _ ← DeleteCosmosOriginatedMapping tokenContract foundDenom;
      mret (Some foundDenom)
  end.

(** ** Cancelling the transfers of a token *)

Definition CancelAllOutgoingTxsForContract (tokenContract : EthAddress) : K W unit :=
  found ← IterateOutgoingTxBatches ([], 0, 0) (λ batch acc,
    let '(batchNonces, batchTxTotal, batchTxCount) := acc in
    if bool_decide (GetAddress (ib_TokenContract batch) = GetAddress tokenContract) then
      batchTotal ← for_acc (ib_Transactions batch) 0 (λ tx batchTotal,
        txTotal ← opt_panic "Int.Add"
          (Int_Add (it_Amount (tx_Erc20Token tx)) (it_Amount (tx_Erc20Fee tx)));
        batchTotal ← opt_panic "Int.Add" (Int_Add batchTotal txTotal);
        mret (batchTotal, false));
      batchTxTotal ← opt_panic "Int.Add" (Int_Add batchTxTotal batchTotal);
      mret ((batchNonces ++ [ib_BatchNonce batch], batchTxTotal,
             batchTxCount + Z.of_nat (length (ib_Transactions batch))), false)
    else mret (acc, false));
  let '(batchNonces, _, _) := found in
  _ ← for_each batchNonces (λ nonce, CancelOutgoingTXBatch tokenContract nonce);
  found ← IterateUnbatchedTransactionsByContract tokenContract ([], 0) (λ _ tx acc,
    let '(pending, pendingTotal) := acc in
    pendingTotal ← add_tx pendingTotal tx;
    mret ((pending ++ [mkTxEntry (tx_Id tx) (tx_Sender tx) (it_Amount (tx_Erc20Token tx))
                         (it_Amount (tx_Erc20Fee tx))], pendingTotal), false));
  let '(pending, _) := found in
  _ ← for_acc pending 0 (λ entry refundedTotal,
    _ ← RemoveFromOutgoingPoolAndRefund (te_id entry) (te_sender entry);
    x ← opt_panic "Int.Add" (Int_Add refundedTotal (te_amount entry));
    refundedTotal ← opt_panic "Int.Add" (Int_Add x (te_fee entry));
    mret (refundedTotal, false));
  mret tt.

(** ** Remapping *)

Definition remap_entry (erc20 : string) : K W remapEntry :=
  ethAddress ← or_panic "invalid erc20 address in tokensToRemap" (NewEthAddress erc20);
  mret (mkRemapEntry ethAddress (GravityDenom ethAddress) (Gravity2Denom ethAddress)).

(** One turn of the loop over the entries of [remapped]. *)
Definition remap_token (e : remapEntry) : K W unit :=
  balBefore ← gravityModuleBalance (re_problemOldDenom e);
  trackedBefore ← sumTrackedEscrowForContract (re_erc20 e) (re_problemOldDenom e);
  _ ← opt_panic "Int.Sub" (Int_Sub (Amount balBefore) trackedBefore);
  found ← breakFalseCosmosOriginatedMapping (re_erc20 e);
  _ ← match found with
      | Some falseDenom =>
          must "recovery: failed to sweep orphaned denom" (sweepMaliciousDenomToVoidAddress falseDenom)
      | None => mret tt
      end;
  _ ← must "recovery: failed to cancel outgoing txs" (CancelAllOutgoingTxsForContract (re_erc20 e));
  _ ← SetRemappedERC20 (re_erc20 e);
  old ← gets (λ s, GetDenomMetaData (st_world s) (re_problemOldDenom e));
  _ ← guard_panic (bool_decide (is_Some old)) "denom metadata exists for old gravity denom?";
  new ← gets (λ s, GetDenomMetaData (st_world s) (re_remappedNewDenom e));
  guard_panic (bool_decide (is_Some new)) "denom metadata exists for new gravity2 denom?".

Definition migrateRemappedERC20s : K W unit :=
  remapped ← for_acc tokensToRemap [] (λ erc20 remapped,
    e ← remap_entry erc20;
    mret (remapped ++ [e], false));
  _ ← guard_panic (bool_decide (remapped = [])) "Recovery upgrade: no ERC20 tokens to remap?";
  for_each remapped remap_token.

(** ** The whitelist, the parameters and the queue of forwards *)

Definition registerCosmosBridgeableTokens : K W unit :=
  existing ← GetAllCosmosBridgeableTokens;
  _ ← guard_panic (bool_decide (existing ≠ [])) "CosmosBridgeableTokens already exist in keeper?";
  newEntries ← IterateCosmosOriginatedMappings [] (λ denom _ newEntries,
    found ← gets (λ s, GetDenomMetaData (st_world s) denom);
    match found with
    | None => panic "recovery: cosmos-originated ERC20 denom has no bank metadata"
    | Some meta =>
        _ ← guard_panic (bool_decide (md_Base meta = ""))
              "recovery: cosmos-originated ERC20 denom has no bank metadata";
        mret (newEntries ++ [meta], false)
    end);
  _ ← guard_panic (bool_decide (newEntries = []))
        "no new cosmos-originated tokens to add to CosmosBridgeableTokens?";
  for_each newEntries SetCosmosBridgeableToken.

Definition setBridgeActive (v : bool) : K W unit :=
  params ← must "failed to get params" GetParams;
  must "failed to set params" (SetParams (with_BridgeActive v params)).

Definition assertNoPendingRemappedIbcAutoForwards : K W unit :=
  forwards ← PendingIbcAutoForwards_list 0;
  for_each forwards (λ forward,
    match Gravity2DenomToERC20 (Denom (pf_Token forward)) with
    | Ok _ => panic "found pending IBC Auto Forward for remapped ERC20?"
    | Er _ =>
        match GravityDenomToERC20 (Denom (pf_Token forward)) with
        | Ok tc =>
            remapped ← IsRemappedERC20 tc;
            guard_panic remapped "found pending IBC Auto Forward for remapped ERC20"
        | Er _ => mret tt
        end
    end).

(** ** Orphaned confirmations (cleanup.go) *)

Definition cleanupOrphanedValsetConfirms : K W unit :=
  orphans ← IterateValsetConfirms [] (λ _ confirms nonce orphans,
    valset ← GetValset nonce;
    match valset with
    | None => mret (orphans ++ [nonce], false)
    | Some _ => mret (orphans, false)
    end);
  for_each orphans DeleteValsetConfirms.

Definition cleanupOrphanedBatchConfirms : K W unit :=
  order ← IterateBatchConfirms [] (λ _ confirm order,
    let p := (cb_TokenContract confirm, cb_Nonce confirm) in
    if decide (p ∈ order) then mret (order, false) else mret (order ++ [p], false));
  for_each order (λ p,
    match NewEthAddress p.1 with
    | Er _ => mret tt
    | Ok ethAddr =>
        batch ← GetOutgoingTXBatch ethAddr p.2;
        match batch with
        | Some _ => mret tt
        | None => DeleteBatchConfirms (mkInternalOutgoingTxBatch p.2 0 [] ethAddr 0)
        end
    end).
End Recovery.

(** ** The snapshots (survey.go)

    [logResumeStateSnapshot] logs figures about the state.  Each of its parts is a
    function that reads the state and returns the figures it logs; the maps are Go
    maps from the hexadecimal address of a token, or another key, to a figure. *)

Record BatchFigures := mkBatchFigures {
  bfi_batchCount : Z; bfi_txCount : Z; bfi_nonces : list Z; bfi_escrow : Z }.
Record PoolFigures := mkPoolFigures { pfi_count : Z; pfi_escrow : Z }.
Record ForwardFigures := mkForwardFigures {
  ffi_total : Z; ffi_remapped : Z; ffi_legitimate : Z; ffi_cosmosOrUnknown : Z }.

Record Snapshot := mkSnapshot {
  sn_batches : gmap string BatchFigures * Z;
  sn_pool : gmap string PoolFigures * Z;
  sn_batchConfirms : gmap string Z * Z;
  sn_logicCalls : list OutgoingLogicCall * gmap (string * Z) Z * Z;
  sn_valsets : list Z * option Valset * (Z * Z);
  sn_forwards : ForwardFigures;
  sn_bridgeActive : option bool }.

(** [m[k]++] *)
Definition count {A} `{Countable A} (k : A) (m : gmap A Z) : gmap A Z :=
  <[k := default 0 (m !! k) + 1]> m.

Section Snapshot.
Context {W : Type} `{Geth} `{Sdk}.

Definition logPendingBatches : K W (gmap string BatchFigures * Z) :=
  IterateOutgoingTxBatches (∅, 0) (λ batch acc,
    let '(byToken, totalBatches) := acc in
    let token := Hex (GetAddress (ib_TokenContract batch)) in
    let a := default (mkBatchFigures 0 0 [] 0) (byToken !! token) in
    r ← for_acc (ib_Transactions batch) (bfi_txCount a, bfi_escrow a) (λ tx r,
          escrow ← add_tx r.2 tx;
          mret ((r.1 + 1, escrow), false));
    mret ((<[token := mkBatchFigures (bfi_batchCount a + 1) r.1
                        (bfi_nonces a ++ [ib_BatchNonce batch]) r.2]> byToken,
           totalBatches + 1), false)).

Definition logUnbatchedPool : K W (gmap string PoolFigures * Z) :=
  IterateUnbatchedTransactions (∅, 0) (λ _ tx acc,
    let '(byToken, total) := acc in
    let token := Hex (GetAddress (it_Contract (tx_Erc20Token tx))) in
    let a := default (mkPoolFigures 0 0) (byToken !! token) in
    escrow ← add_tx (pfi_escrow a) tx;
    mret ((<[token := mkPoolFigures (pfi_count a + 1) escrow]> byToken, total + 1), false)).

Definition logBatchConfirms : K W (gmap string Z * Z) :=
  IterateBatchConfirms (∅, 0) (λ _ confirm acc,
    mret ((count (cb_TokenContract confirm) acc.1, acc.2 + 1), false)).

Definition logLogicCalls : K W (list OutgoingLogicCall * gmap (string * Z) Z * Z) :=
  calls ← GetOutgoingLogicCalls;
  confirms ← IterateLogicConfirms (∅, 0) (λ _ confirm acc,
    mret ((count (cl_InvalidationId confirm, cl_InvalidationNonce confirm) acc.1, acc.2 + 1), false));
  mret (calls, confirms.1, confirms.2).

Definition logValsetsAndConfirms : K W (list Z * option Valset * (Z * Z)) :=
  valsets ← GetValsets;
  latest ← GetLatestValset;
  totals ← IterateValsetConfirms (0, 0) (λ _ confirms _ acc,
    mret ((acc.1 + 1, acc.2 + Z.of_nat (length confirms)), false));
  mret (vs_Nonce <$> valsets, latest, totals).

Definition logPendingIbcAutoForwards : K W ForwardFigures :=
  forwards ← PendingIbcAutoForwards_list 0;
  for_acc forwards (mkForwardFigures (Z.of_nat (length forwards)) 0 0 0) (λ forward acc,
    let '(mkForwardFigures total remapped legitimate cosmosOrUnknown) := acc in
    match Gravity2DenomToERC20 (Denom (pf_Token forward)) with
    | Ok _ => mret (mkForwardFigures total (remapped + 1) legitimate cosmosOrUnknown, false)
    | Er _ =>
        match GravityDenomToERC20 (Denom (pf_Token forward)) with
        | Ok tc =>
            isRemapped ← IsRemappedERC20 tc;
            if (isRemapped : bool)
            then mret (mkForwardFigures total (remapped + 1) legitimate cosmosOrUnknown, false)
            else mret (mkForwardFigures total remapped (legitimate + 1) cosmosOrUnknown, false)
        | Er _ => mret (mkForwardFigures total remapped legitimate (cosmosOrUnknown + 1), false)
        end
    end).

Definition logResumeStateSnapshot : K W Snapshot :=
  batches ← logPendingBatches;
  pool ← logUnbatchedPool;
  confirms ← logBatchConfirms;
  calls ← logLogicCalls;
  valsets ← logValsetsAndConfirms;
  forwards ← logPendingIbcAutoForwards;
  params ← try GetParams;
  mret (mkSnapshot batches pool confirms calls valsets forwards
          match params with Ok p => Some (p_BridgeActive p) | Er _ => None end).
End Snapshot.

(** ** The handler

    [RunMigrations] are the migrations of the module manager, from one map of module
    versions to the next, and [AssertInvariants] runs the invariants of every module:
    both are code of the SDK that is given to the handler. *)

Section UpgradeHandler.
Context {W : Type} `{Geth} `{Sdk} `{Bank W} `{BankBalances W}.
Context {VersionMap : Type} (RunMigrations : VersionMap → K W VersionMap)
  (AssertInvariants : K W unit).

(** The number of balances of the module whose denom cannot be classified. *)
Definition count_unclassifiable : K W Z :=
  coins ← gets (λ s, GetAllBalances (st_world s) (GetModuleAddress ModuleName));
  for_acc coins 0 (λ coin unclassifiable,
    r ← try (ClassifyDenom (Denom coin));
    mret (if is_ok r then unclassifiable else unclassifiable + 1, false)).

Definition RecoveryUpgradeHandler (vmap : VersionMap) : K W VersionMap :=
  out ← RunMigrations vmap;
  _ ← logResumeStateSnapshot;
  _ ← migrateRemappedERC20s;
  _ ← registerCosmosBridgeableTokens;
  _ ← assertNoPendingRemappedIbcAutoForwards;
  _ ← cleanupOrphanedValsetConfirms;
  _ ← cleanupOrphanedBatchConfirms;
  _ ← setBridgeActive false;
  _ ← must "Recover upgrade: Unable to get params" GetParams;
  unclassifiable ← count_unclassifiable;
  _ ← AssertInvariants;
  _ ← guard_panic (0 <? unclassifiable)
        "Recovery upgrade FAILURE: unclassifiable gravity module balance denoms found";
  _ ← logResumeStateSnapshot;
  mret out.
End UpgradeHandler.

(** ** The forced application (app.go)

    [ApplyUpgrade] is the upgrade keeper's, which runs the handler registered for the
    plan's name and fails when it fails. *)

Definition recoveryUpgradeChainID : string := "gravity-bridge-3".
Definition recoveryUpgradeHeight : Z := 22709470.

Definition applyRecoveryUpgradeIfDue {W} (chainID : string) (ApplyUpgrade : string → Z → K W unit)
    : K W unit :=
  height ← gets st_height;
  if bool_decide (chainID ≠ recoveryUpgradeChainID) || negb (height =? recoveryUpgradeHeight)
  then mret tt
  else must "failed to apply automatic recovery upgrade"
         (ApplyUpgrade AuroraToRecoveryPlanName recoveryUpgradeHeight).
