(* ===== verification/RecoveryRefund.v ===== *)
(** * The recovery upgrade refunds what it cancels

    [CancelAllOutgoingTxsForContract] takes every transfer of a token out of the
    batches and the pool and pays it back.  It runs when the token has no
    Cosmos-originated mapping any more, so that the refunds are paid in the token's
    own denom. *)

From stdpp Require Import base gmap list strings sorting.
From S2P Require Import Prelude GoStd External Store Ethereum Keys OutgoingTx Valset Claims Keeper DelegateKeys Attestation Registry ValsetKeeper IbcForward LogicCall Pool Batch Params Transfers PoolCorrect BatchCorrect BatchLifecycle Escrow Coins Recovery.

#[local] Open Scope Z_scope.

(** ** Loops that add up *)

Section Adding.
Context {W : Type}.
Implicit Types s : State W.

Definition txs_total (ts : list InternalOutgoingTransferTx) : Z := sumZ tx_total ts.

Lemma txs_total_nonneg `{Geth} `{Sdk} ts : Forall tx_ok ts → 0 ≤ txs_total ts.
Proof. intros Hf. apply sumZ_nonneg. eapply Forall_impl; [exact Hf|apply tx_total_nonneg]. Qed.

Lemma add_tx_eq `{Geth} `{Sdk} total t s :
  tx_ok t → 0 ≤ total → total + tx_total t < 2 ^ 256 →
  add_tx total t s = Ret (total + tx_total t) s.
Proof.
  intros (_ & _ & _ & (Ha & _) & (Hf & _)) Ht Hlt. unfold add_tx, tx_total in *.
  rewrite (bind_ret _ _ s (total + it_Amount (tx_Erc20Token t)) s) by (by rewrite Int_Add_ok by lia).
  rewrite Int_Add_ok by lia. by rewrite Z.add_assoc.
Qed.

End Adding.

(** ** What a token locks, in the pool and in the batches *)

Section Locked.
Context {W : Type} `{GethLaws} `{SdkLaws} `{Bank W} `{!BankLaws W}.
Implicit Types s : State W.

Abbreviation pool s := (kv_pool (st_kv s)).
Abbreviation batches s := (kv_batches (st_kv s)).

Definition of_token (c : EthAddress) (b : InternalOutgoingTxBatch) : Prop := ib_TokenContract b = c.
#[global] Instance of_token_dec c b : Decision (of_token c b).
Proof. unfold of_token. apply _. Defined.

(** The transfers of a token that wait in the pool, in the order of their keys. *)
Definition waiting s (c : EthAddress) : list InternalOutgoingTransferTx :=
  pool_list (pool s) (GetOutgoingTxPoolContractPrefix c).

Definition token_batches s (c : EthAddress) : list InternalOutgoingTxBatch :=
  filter (of_token c) (batch_list (batches s)).

Lemma batch_txs_list (m : gmap bytes OutgoingTxBatch) :
  batch_txs m ≡ₚ (batch_list m ≫= ib_Transactions).
Proof.
  unfold batch_txs, batch_list. rewrite <- (iter_desc_all m).
  induction (iter_desc m (None, None)) as [|kv l IH]; [done|].
  cbn [mbind list_bind]. rewrite bind_app, IH. f_equiv.
  unfold parse_batch, parse_batch1. destruct (OutgoingTxBatch_ToInternal kv.2); [|done].
  cbn [mbind list_bind]. by rewrite app_nil_r.
Qed.

(** The transfers of a token are those that wait in the pool and those of its
    batches. *)
Lemma token_transfers_split s c :
  transfers_ok s → eth_ok c →
  token_transfers s c ≡ₚ waiting s c ++ (token_batches s c ≫= ib_Transactions).
Proof.
  intros Hs Hc. unfold token_transfers, transfers. rewrite filter_app. f_equiv.
  - apply NoDup_Permutation; [|apply pool_list_NoDup, Hs|].
    { apply NoDup_filter, (NoDup_fmap_1 tx_Id). by apply tok_pool_ids. }
    intros t. rewrite list_elem_of_filter. unfold waiting.
    rewrite pool_list_contract by (done || apply Hs). unfold tx_contract. split.
    + intros [E Ht]. split; [done|]. apply elem_of_pool_txs in Ht as [[_ E'] _]; [congruence|apply Hs].
    + intros [Ht E]. split; [|done]. apply elem_of_pool_txs in Ht as [[_ E'] _]; [congruence|apply Hs].
  - rewrite batch_txs_list. unfold token_batches.
    assert (Forall wf_batch (batch_list (batches s))) as Hf.
    { apply Forall_forall. intros b [? _]%elem_of_batch_list; [done|apply Hs]. }
    induction Hf as [|b l (_ & _ & Hb) Hl IH]; [done|].
    cbn [mbind list_bind]. rewrite filter_app, filter_cons. case_decide as E.
    + cbn [mbind list_bind]. rewrite list_filter_all; [by f_equiv|].
      eapply Forall_impl; [exact Hb|]. intros t [_ Ht]. unfold tx_contract, of_token in *. congruence.
    + rewrite list_filter_none; [done|].
      eapply Forall_impl; [exact Hb|]. intros t [_ Ht]. unfold tx_contract, of_token in *. congruence.
Qed.

Lemma batches_total l : txs_total (l ≫= ib_Transactions) = sumZ batch_total l.
Proof.
  unfold txs_total. induction l as [|b l IH]; [done|]. cbn [mbind list_bind].
  rewrite sumZ_app. by rewrite IH.
Qed.

Lemma locked_split s c :
  transfers_ok s → eth_ok c →
  locked s c = txs_total (waiting s c) + sumZ batch_total (token_batches s c).
Proof.
  intros Hs Hc. unfold locked. rewrite token_transfers_split by done.
  by rewrite sumZ_app, <- batches_total.
Qed.

Lemma waiting_ok s c : transfers_ok s → eth_ok c → Forall tx_ok (waiting s c).
Proof.
  intros Hs Hc. apply Forall_forall. intros t [Ht _]%pool_list_contract; [|apply Hs|done].
  by apply elem_of_pool_txs in Ht as [[? _] _]; [|apply Hs].
Qed.

Lemma batch_list_wf s : transfers_ok s → Forall wf_batch (batch_list (batches s)).
Proof.
  intros Hs. apply Forall_forall. by intros b [? _]%elem_of_batch_list; [|apply Hs].
Qed.

Lemma token_batches_wf s c : transfers_ok s → Forall wf_batch (token_batches s c).
Proof.
  intros Hs. pose proof (batch_list_wf s Hs) as Hf. rewrite Forall_forall in Hf.
  apply Forall_forall. intros b [_ Hb]%list_elem_of_filter. by apply Hf.
Qed.
End Locked.

(** ** Cancelling the batches *)

Section Batches.
Context {W : Type} `{GethLaws} `{SdkLaws} `{Bank W} `{!BankLaws W}.
Implicit Types s : State W.

Abbreviation pool s := (kv_pool (st_kv s)).
Abbreviation batches s := (kv_batches (st_kv s)).

(** The callback that collects the nonces of the batches to cancel. *)
Definition nonce_body (c : EthAddress) (batch : InternalOutgoingTxBatch) (acc : list Z * Z * Z)
    : K W (list Z * Z * Z * bool) :=
  let '(batchNonces, batchTxTotal, batchTxCount) := acc in
  if bool_decide (GetAddress (ib_TokenContract batch) = GetAddress c) then
    batchTotal ← for_acc (ib_Transactions batch) 0 (λ tx batchTotal,
      txTotal ← opt_panic "Int.Add"
        (Int_Add (it_Amount (tx_Erc20Token tx)) (it_Amount (tx_Erc20Fee tx)));
      batchTotal ← opt_panic "Int.Add" (Int_Add batchTotal txTotal);
      mret (batchTotal, false));
    batchTxTotal ← opt_panic "Int.Add" (Int_Add batchTxTotal batchTotal);
    mret ((batchNonces ++ [ib_BatchNonce batch], batchTxTotal,
           batchTxCount + Z.of_nat (length (ib_Transactions batch))), false)
  else mret (acc, false).

Lemma foldl_total acc ts : foldl (λ x t, x + tx_total t) acc ts = acc + txs_total ts.
Proof.
  revert acc. induction ts as [|t ts IH]; intros acc; [unfold txs_total; simpl; lia|].
  cbn [foldl]. rewrite IH. unfold txs_total. simpl. lia.
Qed.

Lemma batch_sum_loop ts s :
  Forall tx_ok ts → txs_total ts < 2 ^ 256 →
  for_acc ts 0 (λ tx batchTotal,
    txTotal ← opt_panic "Int.Add"
      (Int_Add (it_Amount (tx_Erc20Token tx)) (it_Amount (tx_Erc20Fee tx)));
    batchTotal ← opt_panic "Int.Add" (Int_Add batchTotal txTotal);
    mret (batchTotal, false)) s = Ret (txs_total ts) s.
Proof.
  intros Hf Hlt. rewrite <- (Z.add_0_l (txs_total ts)), <- foldl_total.
  apply (for_acc_fold (λ l acc, Forall tx_ok l ∧ 0 ≤ acc ∧ acc + txs_total l < 2 ^ 256)).
  { split_and!; [done|lia|lia]. }
  intros t l acc (Hl & Hacc & Hsum). apply Forall_cons in Hl as [Ht Hl].
  pose proof (tx_total_nonneg t Ht). pose proof (txs_total_nonneg l Hl).
  unfold txs_total in Hsum. cbn [sumZ foldr] in Hsum. fold (sumZ tx_total l) (txs_total l) in Hsum.
  split; [|split_and!; [done|lia|lia]].
  rewrite (bind_ret _ _ s (tx_total t) s) by (by rewrite Int_Add_ok by (fold (tx_total t); lia)).
  by rewrite (bind_ret _ _ s (acc + tx_total t) s) by (by rewrite Int_Add_ok by lia).
Qed.

(** One batch added to what the callback has collected. *)
Definition note_batch (c : EthAddress) (acc : list Z * Z * Z) (b : InternalOutgoingTxBatch)
    : list Z * Z * Z :=
  if decide (of_token c b)
  then (acc.1.1 ++ [ib_BatchNonce b], acc.1.2 + batch_total b,
        acc.2 + Z.of_nat (length (ib_Transactions b)))
  else acc.

Lemma note_batches_nonces c acc l :
  (foldl (note_batch c) acc l).1.1 = acc.1.1 ++ (ib_BatchNonce <$> filter (of_token c) l).
Proof.
  revert acc. induction l as [|b l IH]; intros acc; [by rewrite app_nil_r|].
  cbn [foldl]. rewrite IH, filter_cons. unfold note_batch. case_decide; [|done].
  cbn [fst fmap list_fmap]. by rewrite <- app_assoc.
Qed.

Lemma token_sum_nonneg c l : Forall wf_batch l → 0 ≤ sumZ batch_total (filter (of_token c) l).
Proof.
  intros Hl. apply sumZ_nonneg. rewrite Forall_forall in Hl. apply Forall_forall.
  intros b [_ Hb]%list_elem_of_filter. by apply batch_total_nonneg, Hl.
Qed.

Lemma nonce_loop c s :
  transfers_ok s → eth_ok c → locked s c < 2 ^ 256 →
  ∃ total n, IterateOutgoingTxBatches ([], 0, 0) (nonce_body c) s =
    Ret (ib_BatchNonce <$> token_batches s c, total, n) s.
Proof.
  intros Hs Hc Hlt. rewrite iterate_batches_eq by apply Hs.
  pose proof (txs_total_nonneg _ (waiting_ok s c Hs Hc)). rewrite locked_split in Hlt by done.
  exists (foldl (note_batch c) ([], 0, 0) (batch_list (batches s))).1.2,
         (foldl (note_batch c) ([], 0, 0) (batch_list (batches s))).2.
  rewrite (for_acc_fold (λ l acc, Forall wf_batch l ∧ 0 ≤ acc.1.2 ∧
    acc.1.2 + sumZ batch_total (filter (of_token c) l) < 2 ^ 256) (note_batch c)).
  - f_equal. unfold token_batches. rewrite <- (app_nil_l (_ <$> _)).
    rewrite <- (note_batches_nonces c ([], 0, 0)). by destruct (foldl _ _ _) as [[? ?] ?].
  - split_and!; [by apply batch_list_wf|done|]. simpl. fold (token_batches s c). lia.
  - intros b l [[ns tot] n] (Hl & H0' & Hsum). apply Forall_cons in Hl as [Hb Hl].
    pose proof (batch_total_nonneg b Hb). pose proof (token_sum_nonneg c l Hl).
    cbn [fst snd] in *. rewrite filter_cons in Hsum. unfold nonce_body, note_batch.
    destruct (decide (of_token c b)) as [E|E].
    + cbn [sumZ foldr] in Hsum. fold (sumZ batch_total (filter (of_token c) l)) in Hsum.
      rewrite bool_decide_true by (by rewrite E).
      pose proof (wf_batch_ok b Hb) as (_ & _ & Hf).
      rewrite (bind_ret _ _ s (batch_total b) s)
        by (apply batch_sum_loop; [done|unfold txs_total; fold (batch_total b); lia]).
      rewrite (bind_ret _ _ s (tot + batch_total b) s) by (by rewrite Int_Add_ok by lia).
      cbn [fst snd]. split_and!; [done|done|lia|lia].
    + rewrite bool_decide_false; [by split_and!|]. intros E'. apply E. unfold of_token.
      destruct (ib_TokenContract b), c. simpl in E'. by subst.
Qed.

(** Cancelling a list of batches of the token. *)
Lemma cancel_loop c l s :
  transfers_ok s → has_params s → eth_ok c → NoDup l →
  (∀ b, b ∈ l → b ∈ batch_list (batches s) ∧ of_token c b) →
  ∃ s', for_each (ib_BatchNonce <$> l) (CancelOutgoingTXBatch c) s = Ret tt s' ∧
    only_batches_moved s s' ∧
    ∀ b, b ∈ batch_list (batches s') ↔ b ∈ batch_list (batches s) ∧ b ∉ l.
Proof.
  revert s. induction l as [|b l IH]; intros s Hs Hpar Hc Hnd Hin.
  { exists s. split_and!; [done|by split|]. intros b. split; [|by intros []].
    intros Hb. split; [done|]. apply not_elem_of_nil. }
  apply NoDup_cons in Hnd as [Hni Hnd]. cbn [for_each fmap list_fmap].
  destruct (Hin b) as [Hb Hbc]; [left|]. unfold of_token in Hbc.
  pose proof Hb as [Hwf _]%elem_of_batch_list; [|apply Hs].
  rewrite (bind_ret _ _ s tt (batch_canceled b s)).
  2:{ rewrite CancelOutgoingTXBatch_run by (done || apply Hwf). by rewrite <- Hbc, find_batch_in. }
  pose proof (batch_canceled_moved s b Hs Hb) as Hmv.
  assert (∀ b', b' ∈ batch_list (batches (batch_canceled b s)) ↔
                b' ∈ batch_list (batches s) ∧ b' ≠ b) as Hbl.
  { intros b'. rewrite <- (batch_list_delete _ b b') by (done || apply Hs).
    unfold batch_canceled. rewrite (put_txs_frame (ib_Transactions b) s). done. }
  destruct (IH (batch_canceled b s)) as (s' & Hrun & Hmv' & Hiff); [apply Hmv| |done|done| |].
  - destruct Hpar as (p & Hp & ?). exists p. by rewrite (obm_params _ _ Hmv).
  - intros b' Hb'. destruct (Hin b') as [Hb1 Hb2]; [by right|]. split; [|done]. apply Hbl.
    split; [done|]. by intros ->.
  - exists s'. split_and!; [done|by eapply only_batches_moved_trans|].
    intros b'. rewrite Hiff, Hbl, not_elem_of_cons. tauto.
Qed.
End Batches.

(** ** Refunding the pool *)

(** The module can pay whatever it has to an account that may receive coins. *)
Class GravityPays (W : Type) `{Sdk} `{Bank W} := {
  receives : bytes → Prop;
  module_pays a cs w :
    receives a → coins_ok cs →
    (∀ d, amount_of d cs ≤ GetBalance w (GetModuleAddress ModuleName) d) →
    ∃ w', SendCoinsFromModuleToAccount ModuleName a cs w = (None, w') }.

Section Refunds.
Context {W : Type} `{GethLaws} `{SdkLaws} `{Bank W} `{!BankLaws W}.
Implicit Types s : State W.

Abbreviation pool s := (kv_pool (st_kv s)).
Abbreviation batches s := (kv_batches (st_kv s)).

(** The token is neither mapped nor remapped, and its own denom is usable. *)
Record own_denom s (c : EthAddress) : Prop := {
  od_unmapped : raw s !! GetERC20ToDenomKey c = None;
  od_not_remapped : raw s !! GetRemappedERC20Key c = None;
  od_eth : eth_ok c;
  od_no_metadata : GetDenomMetaData (st_world s) (GravityDenom c) = None;
  od_strict : ValidateStrictDenom (GravityDenom c) = Ok tt;
  od_valid : ValidateDenom (GravityDenom c) = true }.

Lemma own_denom_classified s c :
  own_denom s c →
  ClassifyERC20 c s = Ret (mkAssetOrigin AssetOriginEthereum false (GravityDenom c) (Some c)) s.
Proof.
  intros [Hu Hr Hc Hm Hv _]. rewrite ClassifyERC20_eq, Hu. cbv zeta.
  rewrite bool_decide_false by (rewrite Hr; by intros []).
  change (namespace_denom false c) with (GravityDenom c).
  rewrite classifyEthOriginated_eq, decide_True; [by rewrite Hv|].
  split; [done|]. by apply (namespace_roundtrip false).
Qed.

Lemma own_denom_same s s' c :
  raw s' = raw s → (∀ d, GetDenomMetaData (st_world s') d = GetDenomMetaData (st_world s) d) →
  own_denom s c → own_denom s' c.
Proof. intros Er Em [? ? ? ? ? ?]. split; rewrite ?Er, ?Em; done. Qed.

Lemma Remove_own s t :
  transfers_ok s → has_params s → t ∈ pool_txs (pool s) → own_denom s (tx_contract t) →
  RemoveFromOutgoingPoolAndRefund (tx_Id t) (tx_Sender t) s =
  if 2 ^ 256 <=? tx_total t then Panic "Int.Add"
  else match SendCoinsFromModuleToAccount ModuleName (tx_Sender t)
               (refund_coins (GravityDenom (tx_contract t)) t) (st_world s) with
  | (Some e, w) => Fail e (upd_world (λ _, w) (drop_tx t s))
  | (None, w) => Ret tt (canceled t w s)
  end.
Proof.
  intros Hs Hpar Ht Hod. rewrite Remove_refunds_classified; [|done..|].
  - rewrite own_denom_classified by done. cbn [ao_Denom]. by rewrite (od_valid _ _ Hod).
  - rewrite !own_denom_classified; [done|done|]. by apply (own_denom_same s).
Qed.

(** What the refunds of a list of transfers pay to an account. *)
Definition paid_to (a : bytes) (ts : list InternalOutgoingTransferTx) : Z :=
  sumZ (λ t, if decide (tx_Sender t = a) then tx_total t else 0) ts.

(** [s'] is [s] after the transfers [ts] of [c] were refunded. *)
Record refunded (c : EthAddress) (ts : list InternalOutgoingTransferTx) s s' : Prop := {
  rf_transfers : transfers s ≡ₚ ts ++ transfers s';
  rf_ok : transfers_ok s';
  rf_raw : raw s' = raw s;
  rf_params : kv_params (st_kv s') = kv_params (st_kv s);
  rf_batches : batches s' = batches s;
  rf_metadata d : GetDenomMetaData (st_world s') d = GetDenomMetaData (st_world s) d;
  rf_balance a d : GetBalance (st_world s') a d = GetBalance (st_world s) a d +
    if decide (d = GravityDenom c)
    then paid_to a ts - (if decide (a = module_address) then txs_total ts else 0) else 0 }.

Lemma refunded_nil c s : transfers_ok s → refunded c [] s s.
Proof.
  intros Hs. split; try done. intros a d. unfold paid_to, txs_total. simpl.
  repeat case_decide; lia.
Qed.

Lemma refunded_cons c t ts w s s' :
  transfers_ok s → t ∈ pool_txs (pool s) →
  SendCoinsFromModuleToAccount ModuleName (tx_Sender t) (refund_coins (GravityDenom c) t)
    (st_world s) = (None, w) →
  refunded c ts (canceled t w s) s' → refunded c (t :: ts) s s'.
Proof.
  intros Hs Ht Hsend [Htr Hok Hraw Hpar Hbat Hmd Hbal].
  destruct (transfers_canceled t w s Hs Ht) as [_ Hperm].
  apply send_mod_acc in Hsend as (Hb & _ & Hm).
  split; [|done..| |].
  - by rewrite Hperm, Htr.
  - intros d. rewrite Hmd. simpl. apply Hm.
  - intros a d. rewrite Hbal. simpl. rewrite Hb, amount_of_refund.
    unfold paid_to, txs_total. simpl. unfold module_address.
    repeat case_decide; subst; try done; try lia.
Qed.

(** The callback that refunds one entry. *)
Definition refund_body (entry : txEntry) (refundedTotal : Z) : K W (Z * bool) :=
  _ ← RemoveFromOutgoingPoolAndRefund (te_id entry) (te_sender entry);
  x ← opt_panic "Int.Add" (Int_Add refundedTotal (te_amount entry));
  refundedTotal ← opt_panic "Int.Add" (Int_Add x (te_fee entry));
  mret (refundedTotal, false).

Definition entry_of (t : InternalOutgoingTransferTx) : txEntry :=
  mkTxEntry (tx_Id t) (tx_Sender t) (it_Amount (tx_Erc20Token t)) (it_Amount (tx_Erc20Fee t)).

Lemma canceled_keeps_rest t ts w s :
  transfers_ok s → NoDup (t :: ts) → (∀ x, x ∈ t :: ts → x ∈ pool_txs (pool s)) →
  ∀ x, x ∈ ts → x ∈ pool_txs (pool (canceled t w s)).
Proof.
  intros Hs [Hni _]%NoDup_cons Hin x Hx.
  assert (t ∈ pool_txs (pool s)) as Ht by (apply Hin; by left).
  assert (x ∈ pool_txs (pool s)) as Hx' by (apply Hin; by right).
  pose proof Ht as [[Htok _] Hk]%elem_of_pool_txs; [|apply Hs].
  pose proof (pool_txs_delete _ _ _ Hk) as Hp. rewrite parse_tx_ext in Hp by done.
  rewrite Hp in Hx'. apply elem_of_cons in Hx' as [->|?]; done.
Qed.

(** The state in which a list of transfers of [c] is to be refunded. *)
Record refundable (c : EthAddress) (ts : list InternalOutgoingTransferTx) s : Prop := {
  rb_ok : transfers_ok s;
  rb_params : has_params s;
  rb_own : own_denom s c;
  rb_distinct : NoDup ts;
  rb_pool t : t ∈ ts → t ∈ pool_txs (pool s) ∧ tx_contract t = c }.

Lemma refundable_next c t ts w s :
  refundable c (t :: ts) s →
  SendCoinsFromModuleToAccount ModuleName (tx_Sender t) (refund_coins (GravityDenom c) t)
    (st_world s) = (None, w) →
  refundable c ts (canceled t w s).
Proof.
  intros [Hs Hpar Hod Hnd Hin] Hsend.
  destruct (transfers_canceled t w s Hs) as [Hok _]; [apply Hin; by left|].
  apply send_mod_acc in Hsend as (_ & _ & Hm).
  split; [done|done| |by apply NoDup_cons in Hnd as []|].
  - by apply (own_denom_same s).
  - intros x Hx. split; [|apply Hin; by right].
    apply (canceled_keeps_rest t ts w s); [done..| |done]. intros y Hy. by apply Hin.
Qed.

Lemma refund_loop_inv c ts acc s r s' :
  refundable c ts s → for_acc (entry_of <$> ts) acc refund_body s = Ret r s' → refunded c ts s s'.
Proof.
  revert acc s. induction ts as [|t ts IH]; intros acc s Hrb Hrun.
  { apply mret_inv in Hrun as [_ ->]. apply refunded_nil, Hrb. }
  destruct (rb_pool _ _ _ Hrb t) as [Ht Htc]; [by left|].
  cbn [for_acc fmap list_fmap] in Hrun. mnext Hrun as x s1 E. destruct x as [acc' stop].
  unfold refund_body in E. cbn [entry_of te_id te_sender te_amount te_fee] in E.
  assert (own_denom s (tx_contract t)) as Hod by (rewrite Htc; apply Hrb).
  mnext E as u s2 Erem. rewrite Remove_own in Erem by (done || apply Hrb).
  rewrite Htc in Erem. destruct (2 ^ 256 <=? tx_total t); [done|].
  destruct (SendCoinsFromModuleToAccount _ _ _ _) as [[e|] w] eqn:Hsend; [done|].
  injection Erem as <- <-. mnext E as x1 s3 E1. apply opt_panic_inv in E1 as [_ ->].
  mnext E as x2 s3 E2. apply opt_panic_inv in E2 as [_ ->]. apply mret_inv in E as [[= -> ->] ->].
  apply (refunded_cons c t ts w); [apply Hrb|done..|].
  eapply IH; [by eapply refundable_next|exact Hrun].
Qed.

Context `{!GravityPays W}.

Lemma token_refund_paid c t s :
  tx_ok t → receives (tx_Sender t) → own_denom s c →
  tx_total t ≤ GetBalance (st_world s) module_address (GravityDenom c) →
  ∃ w, SendCoinsFromModuleToAccount ModuleName (tx_Sender t) (refund_coins (GravityDenom c) t)
         (st_world s) = (None, w).
Proof.
  intros Htok Hrec Hod Hcov. pose proof (tx_total_nonneg t Htok). apply module_pays; [done|..].
  - unfold refund_coins. destruct (Z.eqb_spec (tx_total t) 0); [by split; constructor|].
    apply coins_ok_one; [cbn; lia|apply Hod].
  - intros d. rewrite amount_of_refund. case_decide as E; [by subst|].
    apply balance_range.
Qed.

Lemma refund_loop_runs c ts acc s :
  refundable c ts s → (∀ t, t ∈ ts → receives (tx_Sender t)) →
  txs_total ts ≤ GetBalance (st_world s) module_address (GravityDenom c) →
  0 ≤ acc → acc + txs_total ts < 2 ^ 256 →
  ∃ r s', for_acc (entry_of <$> ts) acc refund_body s = Ret r s'.
Proof.
  revert acc s. induction ts as [|t ts IH]; intros acc s Hrb Hrec Hcov Hacc Hlt; [by exists acc, s|].
  destruct (rb_pool _ _ _ Hrb t) as [Ht Htc]; [by left|].
  assert (Forall tx_ok (t :: ts)) as [Htok Htsok]%Forall_cons.
  { apply Forall_forall. intros x Hx. destruct (rb_pool _ _ _ Hrb x Hx) as [Hin _].
    by apply elem_of_pool_txs in Hin as [[? _] _]; [|apply Hrb]. }
  pose proof (tx_total_nonneg t Htok). pose proof (txs_total_nonneg ts Htsok).
  unfold txs_total in Hcov, Hlt. cbn [sumZ foldr] in Hcov, Hlt.
  fold (sumZ tx_total ts) (txs_total ts) in Hcov, Hlt.
  destruct (token_refund_paid c t s) as [w Hsend]; [done|apply Hrec; by left|apply Hrb|lia|].
  cbn [for_acc fmap list_fmap].
  rewrite (bind_ret _ _ s (acc + tx_total t, false) (canceled t w s)).
  - apply IH; [by eapply refundable_next|intros x Hx; apply Hrec; by right| |lia|lia].
    simpl. apply send_mod_acc in Hsend as (Hb & _). rewrite Hb, amount_of_refund.
    unfold module_address in *. repeat case_decide; try done; lia.
  - unfold refund_body. cbn [entry_of te_id te_sender te_amount te_fee].
    rewrite (bind_ret _ _ s tt (canceled t w s)).
    2:{ rewrite Remove_own by (done || apply Hrb || (rewrite Htc; apply Hrb)).
        rewrite Htc, Hsend. destruct (Z.leb_spec (2 ^ 256) (tx_total t)); [lia|done]. }
    destruct Htok as (_ & _ & _ & (? & _) & (? & _)). unfold tx_total in *.
    rewrite (bind_ret _ _ (canceled t w s) (acc + it_Amount (tx_Erc20Token t)) (canceled t w s))
      by (by rewrite Int_Add_ok by lia).
    rewrite (bind_ret _ _ (canceled t w s)
      (acc + it_Amount (tx_Erc20Token t) + it_Amount (tx_Erc20Fee t)) (canceled t w s))
      by (by rewrite Int_Add_ok by lia).
    by rewrite Z.add_assoc.
Qed.
End Refunds.

(** ** [CancelAllOutgoingTxsForContract] *)

Section CancelAll.
Context {W : Type} `{GethLaws} `{SdkLaws} `{Bank W} `{!BankLaws W}.
Implicit Types s : State W.

Abbreviation pool s := (kv_pool (st_kv s)).
Abbreviation batches s := (kv_batches (st_kv s)).

(** The callback that lists the entries to refund. *)
Definition pending_body (tx : InternalOutgoingTransferTx) (acc : list txEntry * Z)
    : K W (list txEntry * Z * bool) :=
  let '(pending, pendingTotal) := acc in
  pendingTotal ← add_tx pendingTotal tx;
  mret ((pending ++ [entry_of tx], pendingTotal), false).

Lemma pending_fold acc ts :
  foldl (λ (x : list txEntry * Z) t, (x.1 ++ [entry_of t], x.2 + tx_total t)) acc ts =
  (acc.1 ++ (entry_of <$> ts), acc.2 + txs_total ts).
Proof.
  revert acc. induction ts as [|t ts IH]; intros [l x].
  - cbn [foldl fst snd fmap list_fmap]. unfold txs_total. cbn [sumZ foldr]. f_equal; [|lia].
    by rewrite app_nil_r.
  - cbn [foldl]. rewrite IH. cbn [fst snd fmap list_fmap]. rewrite <- app_assoc. f_equal.
    unfold txs_total. simpl. lia.
Qed.

Lemma pending_loop c s :
  transfers_ok s → eth_ok c → txs_total (waiting s c) < 2 ^ 256 →
  IterateUnbatchedTransactionsByContract c ([], 0) (λ _, pending_body) s =
  Ret (entry_of <$> waiting s c, txs_total (waiting s c)) s.
Proof.
  intros Hs Hc Hlt. unfold IterateUnbatchedTransactionsByContract.
  rewrite iterate_pool_eq by apply Hs. fold (waiting s c).
  rewrite (for_acc_fold (λ l acc, Forall tx_ok l ∧ 0 ≤ acc.2 ∧ acc.2 + txs_total l < 2 ^ 256)
    (λ x t, (x.1 ++ [entry_of t], x.2 + tx_total t))).
  - by rewrite pending_fold.
  - split_and!; [by apply waiting_ok|done|simpl; lia].
  - intros t l [pend tot] (Hl & H0' & Hsum). apply Forall_cons in Hl as [Ht Hl].
    pose proof (tx_total_nonneg t Ht). pose proof (txs_total_nonneg l Hl).
    unfold txs_total in Hsum. cbn [sumZ foldr fst snd] in *.
    fold (sumZ tx_total l) (txs_total l) in Hsum.
    split; [|split_and!; [done|lia|lia]]. unfold pending_body.
    by rewrite (bind_ret _ _ s (tot + tx_total t) s) by (apply add_tx_eq; [done|lia|lia]).
Qed.

Lemma CancelAll_unfold c s :
  CancelAllOutgoingTxsForContract c s =
  (found ← IterateOutgoingTxBatches ([], 0, 0) (nonce_body c);
   let '(batchNonces, _, _) := found in
   _ ← for_each batchNonces (CancelOutgoingTXBatch c);
   found ← IterateUnbatchedTransactionsByContract c ([], 0) (λ _, pending_body);
   let '(pending, _) := found in
   _ ← for_acc pending 0 refund_body;
   mret tt) s.
Proof. done. Qed.

(** When its batches have been cancelled, all transfers of the token wait in the
    pool. *)
Lemma all_waiting c s s1 :
  transfers_ok s → eth_ok c → only_batches_moved s s1 →
  (∀ b, b ∈ batch_list (batches s1) ↔ b ∈ batch_list (batches s) ∧ b ∉ token_batches s c) →
  waiting s1 c ≡ₚ token_transfers s c.
Proof.
  intros Hs Hc [Hp Hok _ _ _] Hiff.
  assert (token_transfers s1 c ≡ₚ token_transfers s c) as <-.
  { unfold token_transfers. by rewrite Hp. }
  rewrite token_transfers_split by done.
  assert (token_batches s1 c = []) as ->; [|by rewrite app_nil_r].
  apply list_filter_none, Forall_forall. intros b [Hb Hn]%Hiff Ht. apply Hn.
  by apply list_elem_of_filter.
Qed.

(** The state before the refunds, and the transfers to refund. *)
Lemma CancelAll_start c s :
  transfers_ok s → has_params s → own_denom s c → locked s c < 2 ^ 256 →
  ∃ s1 ts, CancelAllOutgoingTxsForContract c s =
      (_ ← for_acc (entry_of <$> ts) 0 refund_body; mret tt) s1 ∧
    only_batches_moved s s1 ∧ ts ≡ₚ token_transfers s c ∧ refundable c ts s1.
Proof.
  intros Hs Hpar Hod Hlt. pose proof (od_eth _ _ Hod) as Hc. rewrite CancelAll_unfold.
  destruct (nonce_loop c s Hs Hc Hlt) as (total & n & Hn). rewrite (bind_ret _ _ _ _ _ Hn).
  destruct (cancel_loop c (token_batches s c) s) as (s1 & Hrun & Hmv & Hiff); [done..| | |].
  { apply NoDup_filter, batch_list_NoDup, Hs. }
  { intros b [? ?]%list_elem_of_filter. done. }
  cbv beta iota. rewrite (bind_ret _ _ _ _ _ Hrun).
  pose proof (all_waiting c s s1 Hs Hc Hmv Hiff) as Hw.
  assert (txs_total (waiting s1 c) < 2 ^ 256) as Hlt1 by (unfold txs_total; by rewrite Hw).
  rewrite (bind_ret _ _ _ _ _ (pending_loop c s1 (obm_ok _ _ Hmv) Hc Hlt1)).
  exists s1, (waiting s1 c). split_and!; [done..|]. split.
  - apply Hmv.
  - destruct Hpar as (p & Hp & ?). exists p. by rewrite (obm_params _ _ Hmv).
  - apply (own_denom_same s); [apply Hmv| |done]. by rewrite (obm_world _ _ Hmv).
  - apply pool_list_NoDup, Hmv.
  - intros t [Ht E]%pool_list_contract; [|apply Hmv|done]. split; [done|].
    apply elem_of_pool_txs in Ht as [[_ E'] _]; [|apply Hmv]. unfold tx_contract. congruence.
Qed.

(** [s'] is [s] with all transfers of [c] refunded. *)
Record cleared (c : EthAddress) s s' : Prop := {
  cl_transfers : transfers s ≡ₚ token_transfers s c ++ transfers s';
  cl_ok : transfers_ok s';
  cl_raw : raw s' = raw s;
  cl_params : kv_params (st_kv s') = kv_params (st_kv s);
  cl_metadata d : GetDenomMetaData (st_world s') d = GetDenomMetaData (st_world s) d;
  cl_balance a d : GetBalance (st_world s') a d = GetBalance (st_world s) a d +
    if decide (d = GravityDenom c)
    then paid_to a (token_transfers s c) - (if decide (a = module_address) then locked s c else 0)
    else 0 }.

#[local] Instance paid_to_perm a : Proper ((≡ₚ) ==> (=)) (paid_to a).
Proof. intros l1 l2 Hl. unfold paid_to. by rewrite Hl. Qed.

Lemma cleared_intro c ts s s1 s' :
  only_batches_moved s s1 → ts ≡ₚ token_transfers s c → refunded c ts s1 s' → cleared c s s'.
Proof.
  intros [Hp _ Hraw Hpar Hw] Hts [Htr Hok Hraw' Hpar' _ Hmd Hbal]. split; [|done|congruence..| |].
  - by rewrite <- Hp, Htr, Hts.
  - intros d. by rewrite Hmd, Hw.
  - intros a d. rewrite Hbal, Hw.
    assert (paid_to a ts = paid_to a (token_transfers s c)) as -> by (by rewrite Hts).
    assert (txs_total ts = locked s c) as -> by (unfold txs_total, locked; by rewrite Hts). done.
Qed.

Lemma CancelAll_inv c s u s' :
  transfers_ok s → has_params s → own_denom s c → locked s c < 2 ^ 256 →
  CancelAllOutgoingTxsForContract c s = Ret u s' → cleared c s s'.
Proof.
  intros Hs Hpar Hod Hlt. destruct (CancelAll_start c s Hs Hpar Hod Hlt)
    as (s1 & ts & -> & Hmv & Hts & Hrb). intros Hrun. mnext Hrun as x s2 E.
  apply mret_inv in Hrun as [_ ->]. apply (cleared_intro c ts s s1); [done..|].
  by eapply refund_loop_inv.
Qed.

(** Every transfer of a token is refunded, in full and to its sender, and the
    cancellation completes, whenever the module holds what they lock and their
    senders may receive it. *)
Lemma CancelAll_runs `{!GravityPays W} c s :
  transfers_ok s → has_params s → own_denom s c →
  (∀ t, t ∈ token_transfers s c → receives (tx_Sender t)) →
  locked s c ≤ GetBalance (st_world s) module_address (GravityDenom c) →
  ∃ s', CancelAllOutgoingTxsForContract c s = Ret tt s' ∧ cleared c s s'.
Proof.
  intros Hs Hpar Hod Hrec Hcov.
  pose proof (balance_range (st_world s) module_address (GravityDenom c)) as Hr.
  destruct (CancelAll_start c s Hs Hpar Hod ltac:(lia)) as (s1 & ts & E & Hmv & Hts & Hrb).
  assert (txs_total ts = locked s c) as Htot by (unfold txs_total, locked; by rewrite Hts).
  destruct (refund_loop_runs c ts 0 s1) as (r & s' & Hrun); [done|..|lia|lia|].
  { intros t Ht. apply Hrec. by rewrite <- Hts. }
  { rewrite Htot, (obm_world _ _ Hmv). done. }
  exists s'. rewrite E, (bind_ret _ _ _ _ _ Hrun). split; [done|].
  apply (cleared_intro c ts s s1); [done..|]. by eapply refund_loop_inv.
Qed.
End CancelAll.
