(* ===== verification/RecoveryRemap.v ===== *)
(** * The recovery upgrade remaps the compromised tokens

    The upgrade starts from a registry in which some ERC20s, and no others, carry
    illegal mappings; it ends with the registry of the invariant [reg_ok], with no
    transfer of these tokens in flight, and with every one of their transfers paid
    back in the token's own denom. *)

From stdpp Require Import base gmap list strings sorting.
From S2P Require Import Prelude GoStd External Store Ethereum Keys OutgoingTx Valset Claims Keeper DelegateKeys Attestation Registry ValsetKeeper IbcForward LogicCall Pool Batch Params Transfers PoolCorrect BatchCorrect BatchLifecycle Escrow Coins Recovery RecoveryRefund.

#[local] Open Scope Z_scope.

Lemma bytes_of_string_of_bytes b : bytes_ok b → bytes_of_string (string_of_bytes b) = b.
Proof.
  induction 1 as [|x b Hx Hb IH]; [done|]. simpl. rewrite IH. f_equal. unfold ascii_byte.
  unfold byte_ok in Hx. rewrite Ascii.N_ascii_embedding by lia. lia.
Qed.

(** ** A registry with compromised tokens *)

Section Compromised.
Context `{GethLaws}.

(** The registry is a bijection whose denoms are legal, except those of the tokens
    in [bad]. *)
Record reg_but (bad : list EthAddress) (m : gmap bytes bytes) : Prop := {
  rg_denom d b : m !! GetDenomToERC20Key d = Some b →
    ∃ a, eth_ok a ∧ b = GetAddress a ∧ m !! GetERC20ToDenomKey a = Some (bytes_of_string d) ∧
      (a ∉ bad → denom_ok d);
  rg_erc20 a b : m !! GetERC20ToDenomKey a = Some b →
    eth_ok a ∧ ∃ d, b = bytes_of_string d ∧ m !! GetDenomToERC20Key d = Some (GetAddress a);
  rg_remapped a : is_Some (m !! GetRemappedERC20Key a) → m !! GetERC20ToDenomKey a = None;
  rg_bytes k v : m !! (DenomToERC20Key ++ k) = Some v → bytes_ok k }.

Lemma reg_but_nil m : reg_but [] m → reg_ok m.
Proof.
  intros [Hd He Hr _]. split; [|done..]. intros d b (a & Ha & E & Hl & Hok)%Hd.
  split; [apply Hok, not_elem_of_nil|]. by exists a.
Qed.

Lemma reg_but_clean c bad m :
  reg_but (c :: bad) m → m !! GetERC20ToDenomKey c = None → reg_but bad m.
Proof.
  intros [Hd He Hr Hb] Hc. split; [|done..]. intros d b (a & Ha & E & Hl & Hok)%Hd.
  exists a. split_and!; [done..|]. intros Hn. apply Hok. apply not_elem_of_cons. split; [|done].
  intros ->. congruence.
Qed.

Lemma denom_key_eq d : GetDenomToERC20Key d = DenomToERC20Key ++ bytes_of_string d.
Proof. unfold GetDenomToERC20Key, AppendBytes. cbn [concat]. by rewrite app_nil_r. Qed.

Lemma reg_but_unregistered c d bad m :
  reg_but (c :: bad) m → m !! GetDenomToERC20Key d = Some (GetAddress c) →
  reg_but bad (unregistered d c m).
Proof.
  intros [Hd He Hr Hb] Hdc. assert (m !! GetERC20ToDenomKey c = Some (bytes_of_string d)) as Hcd.
  { apply Hd in Hdc as (a & _ & E & Hl & _). destruct a, c. simpl in E. by subst. }
  split.
  - intros d' b. rewrite lookup_unregistered_denom. case_decide as Ed; [done|].
    intros (a & Ha & -> & Hl & Hok)%Hd.
    assert (a ≠ c) as Hne.
    { intros ->. rewrite Hl in Hcd. apply Ed, bytes_of_string_inj. congruence. }
    exists a. rewrite lookup_unregistered_erc20, decide_False by done.
    split_and!; [done..|]. intros Hn. apply Hok. by apply not_elem_of_cons.
  - intros a b. rewrite lookup_unregistered_erc20. case_decide as Ea; [done|].
    intros (Ha & d' & -> & Hl)%He. split; [done|]. exists d'.
    rewrite lookup_unregistered_denom, decide_False; [done|]. intros ->. apply Ea.
    destruct a, c. simpl in *. congruence.
  - intros a. rewrite lookup_unregistered_remapped, lookup_unregistered_erc20.
    intros Hs. case_decide; [done|]. by apply Hr.
  - intros k v. unfold unregistered. intros [_ Hk]%lookup_delete_Some.
    apply lookup_delete_Some in Hk as [_ Hk]. by apply (Hb k v).
Qed.

(** The mapping of [c] is gone, if it had one. *)
Definition broken_mapping (c : EthAddress) (m : gmap bytes bytes) : gmap bytes bytes :=
  match m !! GetERC20ToDenomKey c with
  | Some b => unregistered (string_of_bytes b) c m
  | None => m
  end.

Definition flagged (c : EthAddress) (m : gmap bytes bytes) : gmap bytes bytes :=
  <[GetRemappedERC20Key c := [1]]> m.

Lemma lookup_flagged_erc20 c m a :
  flagged c m !! GetERC20ToDenomKey a = m !! GetERC20ToDenomKey a.
Proof. unfold flagged. rewrite lookup_insert_ne; [done|]. key_ne. Qed.

Lemma lookup_flagged_denom c m d :
  flagged c m !! GetDenomToERC20Key d = m !! GetDenomToERC20Key d.
Proof. unfold flagged. rewrite lookup_insert_ne; [done|]. key_ne. Qed.

Lemma lookup_flagged_remapped c m a :
  flagged c m !! GetRemappedERC20Key a =
  if decide (a = c) then Some [1] else m !! GetRemappedERC20Key a.
Proof.
  unfold flagged. case_decide; [subst; by rewrite lookup_insert_eq|].
  rewrite lookup_insert_ne; [done|]. intros E%remapped_key_inj. congruence.
Qed.

Lemma flagged_ok c bad m :
  reg_but bad m → m !! GetERC20ToDenomKey c = None → reg_but bad (flagged c m).
Proof.
  intros [Hd He Hr Hb] Hc. split.
  - intros d b. rewrite lookup_flagged_denom. intros (a & Ha & E & Hl & Hok)%Hd. exists a.
    by rewrite lookup_flagged_erc20.
  - intros a b. rewrite lookup_flagged_erc20. intros (Ha & d & E & Hl)%He. split; [done|].
    exists d. by rewrite lookup_flagged_denom.
  - intros a. rewrite lookup_flagged_remapped, lookup_flagged_erc20. case_decide as E; [by subst|].
    apply Hr.
  - intros k v. unfold flagged. rewrite lookup_insert_ne; [apply Hb|].
    unfold GetRemappedERC20Key, AppendBytes. intros E. discriminate E.
Qed.

Lemma lookup_broken_erc20 c m a :
  broken_mapping c m !! GetERC20ToDenomKey a =
  if decide (a = c) then None else m !! GetERC20ToDenomKey a.
Proof.
  unfold broken_mapping. destruct (m !! GetERC20ToDenomKey c) eqn:E.
  - apply lookup_unregistered_erc20.
  - case_decide; by subst.
Qed.

Lemma lookup_broken_remapped c m a :
  broken_mapping c m !! GetRemappedERC20Key a = m !! GetRemappedERC20Key a.
Proof.
  unfold broken_mapping. destruct (m !! GetERC20ToDenomKey c); [|done].
  apply lookup_unregistered_remapped.
Qed.

Lemma broken_ok c bad m : reg_but (c :: bad) m → reg_but bad (broken_mapping c m).
Proof.
  intros Hreg. unfold broken_mapping. destruct (m !! GetERC20ToDenomKey c) as [b|] eqn:E.
  - destruct (rg_erc20 _ _ Hreg _ _ E) as (_ & d & -> & Hd).
    rewrite string_of_bytes_of_string. by apply reg_but_unregistered.
  - by apply (reg_but_clean c).
Qed.

(** Only the four registry prefixes are written. *)
Lemma remapped_lookup_other c m k :
  not_registry_key k → flagged c (broken_mapping c m) !! k = m !! k.
Proof.
  intros (H1' & H2' & H3'). unfold flagged. rewrite lookup_insert_ne by done.
  unfold broken_mapping. destruct (m !! GetERC20ToDenomKey c); [|done].
  unfold unregistered. by rewrite !lookup_delete_ne.
Qed.
End Compromised.

(** ** One token *)

Section RemapToken.
Context {W : Type} `{GethLaws} `{SdkLaws} `{Bank W} `{!BankLaws W}.
Implicit Types s : State W.

Abbreviation pool s := (kv_pool (st_kv s)).
Abbreviation batches s := (kv_batches (st_kv s)).

Definition queued s : list PendingIbcAutoForward := (iter_asc (kv_forwards (st_kv s)) (None, None)).*2.

(** A sum over a list of transfers that stays within 256 bits. *)
Lemma add_loop ts total s :
  Forall tx_ok ts → 0 ≤ total → total + txs_total ts < 2 ^ 256 →
  for_acc ts total (λ tx total, total ← add_tx total tx; mret (total, false)) s =
  Ret (total + txs_total ts) s.
Proof.
  intros Hf H0' Hlt. rewrite <- foldl_total.
  apply (for_acc_fold (λ l acc, Forall tx_ok l ∧ 0 ≤ acc ∧ acc + txs_total l < 2 ^ 256)).
  { done. }
  intros t l acc (Hl & Hacc & Hsum). apply Forall_cons in Hl as [Ht Hl].
  pose proof (tx_total_nonneg t Ht). pose proof (txs_total_nonneg l Hl).
  unfold txs_total in Hsum. cbn [sumZ foldr] in Hsum. fold (sumZ tx_total l) (txs_total l) in Hsum.
  split; [|split_and!; [done|lia|lia]].
  by rewrite (bind_ret _ _ s (acc + tx_total t) s) by (apply add_tx_eq; [done|lia|lia]).
Qed.

Lemma foldl_batches c acc l :
  foldl (λ x b, if decide (of_token c b) then x + batch_total b else x) acc l =
  acc + sumZ batch_total (filter (of_token c) l).
Proof.
  revert acc. induction l as [|b l IH]; intros acc; [simpl; lia|].
  cbn [foldl]. rewrite IH, filter_cons. case_decide; [|done]. simpl. lia.
Qed.

Lemma batch_loop c s :
  transfers_ok s → sumZ batch_total (token_batches s c) < 2 ^ 256 →
  IterateOutgoingTxBatches 0 (λ batch total,
    if bool_decide (GetAddress (ib_TokenContract batch) = GetAddress c) then
      total ← for_acc (ib_Transactions batch) total (λ tx total,
                total ← add_tx total tx; mret (total, false));
      mret (total, false)
    else mret (total, false)) s = Ret (sumZ batch_total (token_batches s c)) s.
Proof.
  intros Hs Hlt. rewrite iterate_batches_eq by apply Hs. unfold token_batches in *.
  rewrite <- (Z.add_0_l (sumZ batch_total _)), <- foldl_batches.
  apply (for_acc_fold (λ l acc, Forall wf_batch l ∧ 0 ≤ acc ∧
    acc + sumZ batch_total (filter (of_token c) l) < 2 ^ 256)).
  { split_and!; [by apply batch_list_wf|done|lia]. }
  intros b l acc (Hl & Hacc & Hsum). apply Forall_cons in Hl as [Hb Hl].
  pose proof (batch_total_nonneg b Hb). pose proof (token_sum_nonneg c l Hl).
  rewrite filter_cons in Hsum. destruct (decide (of_token c b)) as [E|E].
  - cbn [sumZ foldr] in Hsum. fold (sumZ batch_total (filter (of_token c) l)) in Hsum.
    rewrite bool_decide_true by (by rewrite E). pose proof (wf_batch_ok b Hb) as (_ & _ & Hf).
    rewrite (bind_ret _ _ s (acc + batch_total b) s).
    2:{ apply add_loop; [done|lia|]. unfold txs_total. fold (batch_total b). lia. }
    split_and!; [done|done|lia|lia].
  - rewrite bool_decide_false; [by split_and!|]. intros E'. apply E. unfold of_token.
    destruct (ib_TokenContract b), c. simpl in E'. by subst.
Qed.

(** With no forward queued in the denom, the tracked escrow is what the transfers of
    the token lock. *)
Lemma sumTrackedEscrow_eq c denom s :
  transfers_ok s → eth_ok c → locked s c < 2 ^ 256 →
  Forall (λ f, Denom (pf_Token f) ≠ denom) (queued s) →
  sumTrackedEscrowForContract c denom s = Ret (locked s c) s.
Proof.
  intros Hs Hc Hlt Hq. unfold sumTrackedEscrowForContract.
  rewrite locked_split in * by done. pose proof (waiting_ok s c Hs Hc) as Hw.
  pose proof (txs_total_nonneg _ Hw).
  assert (0 ≤ sumZ batch_total (token_batches s c)) by (apply token_sum_nonneg; by apply batch_list_wf).
  rewrite (bind_ret _ _ _ _ _ (batch_loop c s Hs ltac:(lia))).
  rewrite (bind_ret _ _ s (sumZ batch_total (token_batches s c) + txs_total (waiting s c)) s).
  2:{ unfold IterateUnbatchedTransactionsByContract. rewrite iterate_pool_eq by apply Hs.
      fold (waiting s c). apply add_loop; [done|lia|lia]. }
  rewrite (bind_ret _ _ _ _ _ (PendingIbcAutoForwards_all s)). fold (queued s). rewrite Z.add_comm.
  induction Hq as [|f l Hf Hl IH]; [done|]. cbn [for_acc].
  rewrite bool_decide_false by done.
  by rewrite (bind_ret _ _ s (txs_total (waiting s c) + sumZ batch_total (token_batches s c), false) s).
Qed.

(** ** Breaking the mapping *)

Definition find_mapping (c : EthAddress) (kv : bytes * bytes) (found : option string)
    : K W (option string * bool) :=
  erc20 ← or_panic "discovered invalid EthAddress under cosmos-originated mapping key"
            (NewEthAddressFromBytes kv.2);
  if bool_decide (GetAddress erc20 = GetAddress c)
  then mret (Some (string_of_bytes kv.1), true) else mret (found, false).

Lemma find_mapping_loop c l s :
  Forall (λ kv, ∃ a, eth_ok a ∧ kv.2 = GetAddress a) l →
  for_acc l None (find_mapping c) s =
  Ret (string_of_bytes <$> (filter (λ kv : bytes * bytes, kv.2 = GetAddress c) l).*1 !! 0%nat) s.
Proof.
  induction 1 as [|[k v] l ([a] & Ha & Hv) Hl IH]; [done|]. cbn [snd GetAddress] in Hv. subst v.
  cbn [for_acc]. rewrite filter_cons. cbn [snd].
  rewrite (bind_ret _ _ s (if decide (a = GetAddress c) then Some (string_of_bytes k) else None,
                           bool_decide (a = GetAddress c)) s).
  2:{ unfold find_mapping. cbn [fst snd]. rewrite NewEthAddressFromBytes_ok by done.
      rewrite (bind_ret _ _ s (mkEthAddress a) s) by done. cbn [GetAddress].
      by case_decide; [rewrite bool_decide_true|rewrite bool_decide_false]. }
  case_decide; [by rewrite bool_decide_true|]. by rewrite bool_decide_false.
Qed.

Lemma break_eq c bad s :
  reg_but bad (raw s) →
  breakFalseCosmosOriginatedMapping c s =
  Ret (string_of_bytes <$> raw s !! GetERC20ToDenomKey c) (upd_kv (upd_raw (broken_mapping c)) s).
Proof.
  intros Hreg. unfold breakFalseCosmosOriginatedMapping.
  set (es := filter (λ kv : bytes * bytes, kv.2 = GetAddress c) (sub_entries DenomToERC20Key (raw s))).
  assert (∀ k v, (k, v) ∈ sub_entries DenomToERC20Key (raw s) → ∃ d a, k = bytes_of_string d ∧
    eth_ok a ∧ v = GetAddress a ∧ raw s !! GetERC20ToDenomKey a = Some (bytes_of_string d)) as Hes.
  { intros k v Hk%elem_of_sub_entries. pose proof (rg_bytes _ _ Hreg _ _ Hk) as Hkb.
    exists (string_of_bytes k). rewrite <- (bytes_of_string_of_bytes k Hkb), <- denom_key_eq in Hk.
    apply (rg_denom _ _ Hreg) in Hk as (a & Ha & E & Hl & _). exists a.
    by rewrite bytes_of_string_of_bytes in * by done. }
  rewrite (bind_ret _ _ s (string_of_bytes <$> es.*1 !! 0%nat) s).
  2:{ unfold IterateCosmosOriginatedMappings.
      rewrite (bind_ret _ _ s (sub_entries DenomToERC20Key (raw s)) s) by done.
      apply find_mapping_loop, Forall_forall. intros [k v] (d & a & _ & Ha & E & _)%Hes. by exists a. }
  assert (es.*1 !! 0%nat = raw s !! GetERC20ToDenomKey c) as E.
  { destruct es as [|[k v] es'] eqn:Ees; cbn.
    - symmetry. apply eq_None_not_Some. intros [b Hb].
      apply (rg_erc20 _ _ Hreg) in Hb as (_ & d & -> & Hd). rewrite denom_key_eq in Hd.
      apply elem_of_sub_entries in Hd. apply (not_elem_of_nil (bytes_of_string d, GetAddress c)).
      rewrite <- Ees. by apply list_elem_of_filter.
    - assert ((k, v) ∈ es) as [Hv Hin]%list_elem_of_filter by (rewrite Ees; left).
      cbn in Hv. subst v. apply Hes in Hin as (d & [a] & -> & _ & Ea & Hl). destruct c.
      cbn in Ea. by subst. }
  rewrite E. unfold broken_mapping. destruct (raw s !! GetERC20ToDenomKey c) as [b|] eqn:Eb; cbn.
  - unfold DeleteCosmosOriginatedMapping. unfold raw_delete. mrun. cbn. unfold upd_kv, upd_raw. cbn.
    by rewrite Eb.
  - unfold mret, M_ret. f_equal. destruct s as [[] ? ? ?]. unfold upd_kv, upd_raw. cbn in *. by rewrite Eb.
Qed.
End RemapToken.

(** ** What the upgrade of a token leaves alone *)

Section Frames.
Context {W : Type} `{Geth} `{Sdk} `{Bank W}.

(** The queue of forwards, the whitelist, the validator sets and their
    confirmations, and the parameters stay as they are. *)
Definition transfers_only (s s' : State W) : Prop :=
  kv_forwards (st_kv s') = kv_forwards (st_kv s) ∧
  kv_bridgeable (st_kv s') = kv_bridgeable (st_kv s) ∧
  kv_valsets (st_kv s') = kv_valsets (st_kv s) ∧
  kv_valsetConfirms (st_kv s') = kv_valsetConfirms (st_kv s) ∧
  kv_params (st_kv s') = kv_params (st_kv s).

(** So does the raw store. *)
Definition escrow_only (s s' : State W) : Prop := raw s' = raw s ∧ transfers_only s s'.

(** No token loses its flag. *)
Definition flags_kept (s s' : State W) : Prop :=
  ∀ a, is_Some (raw s !! GetRemappedERC20Key a) → is_Some (raw s' !! GetRemappedERC20Key a).

#[local] Instance transfers_only_refl : Reflexive transfers_only.
Proof. by intros s. Qed.
#[local] Instance transfers_only_trans : Transitive transfers_only.
Proof. intros s1 s2 s3 (? & ? & ? & ? & ?) (? & ? & ? & ? & ?). split_and!; congruence. Qed.

#[local] Instance escrow_only_refl : Reflexive escrow_only.
Proof. by intros s. Qed.
#[local] Instance escrow_only_trans : Transitive escrow_only.
Proof. intros s1 s2 s3 [? ?] [? ?]. split; [congruence|by etrans]. Qed.
#[local] Instance flags_kept_refl : Reflexive flags_kept.
Proof. by intros s a. Qed.
#[local] Instance flags_kept_trans : Transitive flags_kept.
Proof. intros s1 s2 s3 H12 H23 a Ha. by apply H23, H12. Qed.

Lemma frame_call_only f : frame escrow_only (call f : K W unit).
Proof. intros s. unfold call. by destruct (f (st_world s)) as [[] ?]. Qed.
Lemma frame_emit_only e : frame escrow_only (emit e : K W unit).
Proof. by apply frame_modify. Qed.
Lemma frame_add_pool t : frame escrow_only (addUnbatchedTX t : K W unit).
Proof. unfold addUnbatchedTX. framed. by apply frame_modify. Qed.
Lemma frame_remove_pool fee id : frame escrow_only (removeUnbatchedTX fee id : K W unit).
Proof. unfold removeUnbatchedTX. framed. by apply frame_modify. Qed.
Lemma readonly_unbatched_by_id id : readonly (GetUnbatchedTxById id : K W _).
Proof.
  unfold GetUnbatchedTxById, IterateUnbatchedTransactions, filterAndIterateUnbatchedTransactions.
  readonly.
Qed.
Lemma readonly_unbatched_by_fee fee id : readonly (GetUnbatchedTxByFeeAndId fee id : K W _).
Proof. unfold GetUnbatchedTxByFeeAndId. readonly. Qed.
Lemma readonly_add_tx total t : readonly (add_tx total t : K W _).
Proof. unfold add_tx. readonly. Qed.
#[local] Hint Resolve frame_call_only frame_emit_only frame_add_pool
  frame_remove_pool : frame.
#[local] Hint Resolve readonly_unbatched_by_id readonly_unbatched_by_fee readonly_add_tx : readonly.

Lemma frame_remove_refund id a : frame escrow_only (RemoveFromOutgoingPoolAndRefund id a : K W unit).
Proof. unfold RemoveFromOutgoingPoolAndRefund. framed. Qed.
Lemma frame_delete_confirms b : frame escrow_only (DeleteBatchConfirms b : K W unit).
Proof.
  unfold DeleteBatchConfirms, GetBatchConfirmByNonceAndTokenContract. framed. by apply frame_modify.
Qed.
Lemma frame_delete_batch b : frame escrow_only (DeleteBatch b : K W unit).
Proof. unfold DeleteBatch. framed. by apply frame_modify. Qed.
#[local] Hint Resolve frame_remove_refund frame_delete_confirms frame_delete_batch : frame.
Lemma frame_cancel_batch c n : frame escrow_only (CancelOutgoingTXBatch c n : K W unit).
Proof. unfold CancelOutgoingTXBatch. framed. Qed.
#[local] Hint Resolve frame_cancel_batch : frame.

Lemma readonly_IterateBatches {B} (acc : B) cb :
  (∀ b acc, readonly (cb b acc)) → readonly (IterateOutgoingTxBatches acc cb : K W B).
Proof. intros Hcb. unfold IterateOutgoingTxBatches. readonly. Qed.
Lemma readonly_IteratePool {B} c (acc : B) cb :
  (∀ k t acc, readonly (cb k t acc)) →
  readonly (IterateUnbatchedTransactionsByContract c acc cb : K W B).
Proof.
  intros Hcb. unfold IterateUnbatchedTransactionsByContract, filterAndIterateUnbatchedTransactions.
  readonly.
Qed.

Lemma frame_CancelAll c : frame escrow_only (CancelAllOutgoingTxsForContract c : K W unit).
Proof.
  unfold CancelAllOutgoingTxsForContract. apply frame_bind; [apply _| |].
  { apply frame_readonly; [apply _|]. apply readonly_IterateBatches. intros b [[? ?] ?]. readonly. }
  intros [[ns ?] ?]. apply frame_bind; [apply _| |intros _].
  { apply frame_for_each; [apply _..|]. intros n. apply frame_cancel_batch. }
  apply frame_bind; [apply _| |].
  { apply frame_readonly; [apply _|]. apply readonly_IteratePool. intros k t [? ?]. readonly. }
  intros [pend ?]. framed.
Qed.

Lemma readonly_sumTracked c d : readonly (sumTrackedEscrowForContract c d : K W Z).
Proof.
  unfold sumTrackedEscrowForContract, PendingIbcAutoForwards_list, IteratePendingIbcAutoForwards.
  apply readonly_bind; [|intros ?]. { apply readonly_IterateBatches. intros b acc. readonly. }
  apply readonly_bind; [|intros ?]. { apply readonly_IteratePool. intros k t acc. readonly. }
  readonly.
Qed.

(** A relation that the payments, the cancellations and the three updates of the
    registry keep is kept by the turn of a token. *)
Lemma frame_remap (R : State W → State W → Prop) `{!Reflexive R} `{!Transitive R} e :
  (∀ s s', escrow_only s s' → R s s') →
  (∀ d, frame R (raw_delete (GetDenomToERC20Key d) : K W unit)) →
  (∀ a, frame R (raw_delete (GetERC20ToDenomKey a) : K W unit)) →
  (∀ a, frame R (raw_set (GetRemappedERC20Key a) [1] : K W unit)) →
  frame R (remap_token e : K W unit).
Proof.
  intros HR Hd He Hf. assert (∀ f, frame R (call f : K W unit)) as Hcall.
  { intros f. eapply frame_weaken; [exact HR|apply frame_call_only]. }
  unfold remap_token. apply frame_bind; [apply _| |intros bal]. { by apply frame_readonly. }
  apply frame_bind; [apply _| |intros tracked].
  { apply frame_readonly; [apply _|]. apply readonly_sumTracked. }
  apply frame_bind; [apply _| |intros ?]. { apply frame_readonly; [apply _|]. auto with readonly. }
  apply frame_bind; [apply _| |intros found].
  { unfold breakFalseCosmosOriginatedMapping, IterateCosmosOriginatedMappings,
      DeleteCosmosOriginatedMapping. framed. }
  apply frame_bind; [apply _| |intros _].
  { unfold sweepMaliciousDenomToVoidAddress. framed. }
  apply frame_bind; [apply _| |intros _].
  { apply frame_must. eapply frame_weaken; [exact HR|apply frame_CancelAll]. }
  unfold SetRemappedERC20. framed.
Qed.

Lemma frame_remap_token e : frame transfers_only (remap_token e : K W unit).
Proof. apply frame_remap; [apply _|apply _|by intros s s' []|..]; intros ?; by apply frame_modify. Qed.

Lemma frame_remap_flags e : frame flags_kept (remap_token e : K W unit).
Proof.
  apply frame_remap; [apply _|apply _|intros s s' [E _] a; by rewrite E|..]; intros x; apply frame_modify;
    intros s a Ha; cbn.
  - rewrite lookup_delete_ne; [done|]. key_ne.
  - rewrite lookup_delete_ne; [done|]. key_ne.
  - destruct (decide (GetRemappedERC20Key a = GetRemappedERC20Key x)) as [E|E].
    + rewrite E, lookup_insert_eq. by eexists.
    + by rewrite lookup_insert_ne.
Qed.
End Frames.

(** ** The remapping of one token *)

Section OneToken.
Context {W : Type} `{GethLaws} `{SdkLaws} `{!ModuleAccounts} `{Bank W} `{!BankLaws W}.
Implicit Types s : State W.

Abbreviation balance s a d := (GetBalance (st_world s) a d).

(** The false denom of [c]. *)
Definition false_denom s (c : EthAddress) (d : string) : Prop :=
  raw s !! GetERC20ToDenomKey c = Some (bytes_of_string d).
#[global] Instance false_denom_dec s c d : Decision (false_denom s c d).
Proof. unfold false_denom. apply _. Defined.

(** What sweeping [d] does to the balance of [d] of account [a]. *)
Definition sweep_delta s (a : bytes) (d : string) : Z :=
  (if decide (a = recoveryVoidAddress) then balance s module_address d else 0) -
  (if decide (a = module_address) then balance s module_address d else 0).

(** What refunding the transfers of [c] does to the balance of its denom. *)
Definition refund_delta s (c : EthAddress) (a : bytes) : Z :=
  paid_to a (token_transfers s c) - (if decide (a = module_address) then locked s c else 0).

Definition delta s (c : EthAddress) (a : bytes) (d : string) : Z :=
  (if decide (false_denom s c d) then sweep_delta s a d else 0) +
  (if decide (d = GravityDenom c) then refund_delta s c a else 0).

Lemma void_not_module : recoveryVoidAddress ≠ module_address.
Proof. unfold recoveryVoidAddress, module_address. intros E%module_address_inj. done. Qed.

Definition swept (d : string) (w w' : W) : Prop :=
  (∀ a d', GetBalance w' a d' = GetBalance w a d' +
     if decide (d' = d) then
       (if decide (a = recoveryVoidAddress) then GetBalance w module_address d else 0) -
       (if decide (a = module_address) then GetBalance w module_address d else 0)
     else 0) ∧
  (∀ d', GetDenomMetaData w' d' = GetDenomMetaData w d').

Lemma swept_paid d w w' :
  SendCoinsFromModuleToAccount ModuleName recoveryVoidAddress
    [mkCoin d (GetBalance w module_address d)] w = (None, w') → swept d w w'.
Proof.
  intros (Hb & _ & Hm)%send_mod_acc. split; [|done]. intros a d'. rewrite Hb, amount_of_singleton.
  cbn [Denom Amount]. unfold module_address in *. repeat case_decide; subst; try done; lia.
Qed.

Lemma swept_nothing d w : GetBalance w module_address d = 0 → swept d w w.
Proof. intros E. split; [|done]. intros a d'. rewrite E. repeat case_decide; lia. Qed.

Lemma sweep_inv d s u s' :
  sweepMaliciousDenomToVoidAddress d s = Ret u s' →
  ∃ w, s' = upd_world (λ _, w) s ∧ swept d (st_world s) w.
Proof.
  unfold sweepMaliciousDenomToVoidAddress. intros Hrun. mnext Hrun as bal s1 E.
  apply gets_inv in E as [-> ->]. destruct (Z.eqb_spec (balance s module_address d) 0) as [E0|E0].
  { fold module_address in Hrun. rewrite E0 in Hrun. apply mret_inv in Hrun as [_ ->].
    exists (st_world s). split; [by destruct s|by apply swept_nothing]. }
  fold module_address in Hrun. destruct (Z.eqb_spec (balance s module_address d) 0); [done|].
  mnext Hrun as coins s1 E. apply opt_panic_inv in E as [E ->]. unfold NewCoins1 in E. cbn [Amount] in E.
  destruct (Z.eqb_spec (balance s module_address d) 0); [done|].
  destruct (Coin_IsValid _); [|done]. injection E as <-.
  unfold call in Hrun. destruct (SendCoinsFromModuleToAccount _ _ _ _) as [[e|] w] eqn:Hsend; [done|].
  injection Hrun as _ <-. exists w. split; [done|]. by apply swept_paid.
Qed.

Lemma sweep_runs `{!GravityPays W} d s :
  receives recoveryVoidAddress → ValidateDenom d = true →
  returns (sweepMaliciousDenomToVoidAddress d) s.
Proof.
  intros Hrec Hv. unfold returns, sweepMaliciousDenomToVoidAddress.
  rewrite (bind_ret _ _ s (balance s module_address d) s) by done.
  destruct (Z.eqb_spec (balance s module_address d) 0) as [E0|E0]; [by exists tt, s|].
  pose proof (balance_range (st_world s) module_address d) as Hr.
  assert (Coin_IsValid (mkCoin d (balance s module_address d)) = true) as Hc.
  { unfold Coin_IsValid. cbn [Denom Amount]. rewrite Hv. apply Z.leb_le. lia. }
  rewrite (bind_ret _ _ s [mkCoin d (balance s module_address d)] s).
  2:{ unfold NewCoins1. cbn [Amount]. rewrite (proj2 (Z.eqb_neq _ _) E0). by rewrite Hc. }
  destruct (module_pays recoveryVoidAddress [mkCoin d (balance s module_address d)] (st_world s))
    as [w Hsend]; [done|apply coins_ok_one; [cbn; lia|done]| |].
  { intros d'. rewrite amount_of_singleton. cbn [Denom Amount]. case_decide; [by subst|].
    apply balance_range. }
  exists tt, (upd_world (λ _, w) s). unfold call. by rewrite Hsend.
Qed.

(** The state before the turn of [c]. *)
Record remappable (bad : list EthAddress) (c : EthAddress) s : Prop := {
  rp_ok : transfers_ok s;
  rp_params : has_params s;
  rp_registry : reg_but (c :: bad) (raw s);
  rp_eth : eth_ok c;
  rp_new : raw s !! GetRemappedERC20Key c = None;
  rp_no_metadata : GetDenomMetaData (st_world s) (GravityDenom c) = None;
  rp_strict : ValidateStrictDenom (GravityDenom c) = Ok tt;
  rp_valid : ValidateDenom (GravityDenom c) = true;
  rp_amounts : locked s c < 2 ^ 256 }.

(** [s'] is [s] after the turn of [c]. *)
Record remapped (c : EthAddress) s s' : Prop := {
  rm_transfers : transfers s ≡ₚ token_transfers s c ++ transfers s';
  rm_ok : transfers_ok s';
  rm_raw : raw s' = flagged c (broken_mapping c (raw s));
  rm_only : transfers_only s s';
  rm_metadata d : GetDenomMetaData (st_world s') d = GetDenomMetaData (st_world s) d;
  rm_balance a d : balance s' a d = balance s a d + delta s c a d }.

Definition entry (c : EthAddress) : remapEntry := mkRemapEntry c (GravityDenom c) (Gravity2Denom c).

(** The state once the mapping is broken and its denom is swept. *)
Record unlocked (c : EthAddress) s s1 : Prop := {
  ul_kv : st_kv s1 = upd_raw (broken_mapping c) (st_kv s);
  ul_metadata d : GetDenomMetaData (st_world s1) d = GetDenomMetaData (st_world s) d;
  ul_balance a d : balance s1 a d = balance s a d +
    if decide (false_denom s c d) then sweep_delta s a d else 0 }.

Definition unlock (c : EthAddress) : K W unit :=
  found ← breakFalseCosmosOriginatedMapping c;
  match found with
  | Some falseDenom =>
      must "recovery: failed to sweep orphaned denom" (sweepMaliciousDenomToVoidAddress falseDenom)
  | None => mret tt
  end.

Lemma unlocked_swept c d s w :
  false_denom s c d → swept d (st_world s) w →
  unlocked c s (upd_world (λ _, w) (upd_kv (upd_raw (broken_mapping c)) s)).
Proof.
  intros Hd [Hb Hm]. split; [done|done|]. intros a d'. cbn [upd_world st_world]. rewrite Hb.
  destruct (decide (d' = d)) as [->|Hne]; [by destruct (decide (false_denom s c d))|].
  destruct (decide (false_denom s c d')) as [Hd'|]; [|done]. destruct Hne. unfold false_denom in *.
  apply bytes_of_string_inj. congruence.
Qed.

Lemma unlock_inv c bad s u s1 : reg_but bad (raw s) → unlock c s = Ret u s1 → unlocked c s s1.
Proof.
  intros Hreg. unfold unlock. rewrite (bind_ret _ _ _ _ _ (break_eq c bad s Hreg)).
  destruct (raw s !! GetERC20ToDenomKey c) as [b|] eqn:Eb; cbn [fmap option_fmap option_map].
  - intros (w & -> & Hsw)%must_inv%sweep_inv. apply (unlocked_swept c (string_of_bytes b)); [|done].
    unfold false_denom. destruct (rg_erc20 _ _ Hreg _ _ Eb) as (_ & d & -> & _).
    by rewrite string_of_bytes_of_string.
  - intros [_ ->]%mret_inv. split; [done..|]. intros a d. rewrite decide_False; [cbn; lia|].
    unfold false_denom. by rewrite Eb.
Qed.

Lemma unlock_runs `{!GravityPays W} c bad s :
  reg_but bad (raw s) → receives recoveryVoidAddress →
  (∀ d, false_denom s c d → ValidateDenom d = true) → returns (unlock c) s.
Proof.
  intros Hreg Hrec Hv. unfold returns, unlock. rewrite (bind_ret _ _ _ _ _ (break_eq c bad s Hreg)).
  destruct (raw s !! GetERC20ToDenomKey c) as [b|] eqn:Eb; cbn [fmap option_fmap option_map].
  - destruct (sweep_runs (string_of_bytes b) (upd_kv (upd_raw (broken_mapping c)) s))
      as (u & s1 & E); [done| |].
    { apply Hv. unfold false_denom. destruct (rg_erc20 _ _ Hreg _ _ Eb) as (_ & d & -> & _).
      by rewrite string_of_bytes_of_string. }
    exists u, s1. unfold must. by rewrite E.
  - by eexists _, _.
Qed.

Lemma transfers_ok_same s s' :
  transfers_ok s → kv_pool (st_kv s') = kv_pool (st_kv s) →
  kv_batches (st_kv s') = kv_batches (st_kv s) →
  (∀ k, not_registry_key k → raw s' !! k = raw s !! k) → transfers_ok s'.
Proof.
  intros Hs Ep Eb Er. destruct counter_not_registry_key as [H1' H2'].
  apply (transfers_ok_shrink s _ []); [done|..].
  - unfold transfers. by rewrite Ep, Eb.
  - rewrite Ep. apply Hs.
  - rewrite Eb. apply Hs.
  - by apply Er.
  - by apply Er.
  - by rewrite Eb.
Qed.

Lemma unlocked_ready bad c s s1 :
  remappable bad c s → unlocked c s s1 →
  transfers_ok s1 ∧ has_params s1 ∧ own_denom s1 c ∧ transfers s1 = transfers s.
Proof.
  intros [Hs Hpar Hreg Hc Hnew Hmd Hst Hv Hlt] [Ekv Em Eb]. split_and!.
  - apply (transfers_ok_same s); [done|by rewrite Ekv..|]. intros k Hk. rewrite Ekv. cbn.
    rewrite <- (remapped_lookup_other c (raw s) k Hk). unfold flagged. rewrite lookup_insert_ne; [done|].
    intros E. by apply (proj2 (proj2 Hk) c).
  - destruct Hpar as (p & Hp & ?). exists p. by rewrite Ekv.
  - split; rewrite ?Ekv, ?Em; try done; cbn.
    + by rewrite lookup_broken_erc20, decide_True.
    + by rewrite lookup_broken_remapped.
  - unfold transfers. by rewrite Ekv.
Qed.

(** The end of the turn. *)
Lemma remapped_intro c s s1 s2 :
  unlocked c s s1 → transfers s1 = transfers s → cleared c s1 s2 →
  transfers_only s (upd_kv (upd_raw (flagged c)) s2) →
  remapped c s (upd_kv (upd_raw (flagged c)) s2).
Proof.
  intros [Ekv Em Eb] Et [Ht Hok Hr Hp Hm Hb] Honly.
  assert (token_transfers s1 c = token_transfers s c) as Ett by (unfold token_transfers; by rewrite Et).
  split; [| | |done| |].
  - rewrite <- Et, Ht, Ett. done.
  - apply (transfers_ok_same s2); [done..|]. intros k Hk. cbn. unfold flagged.
    rewrite lookup_insert_ne; [done|]. intros E. by apply (proj2 (proj2 Hk) c).
  - cbn. rewrite Hr, Ekv. done.
  - intros d. cbn. by rewrite Hm, Em.
  - intros a d. cbn [upd_kv st_world]. rewrite Hb, Eb, Ett. unfold locked. rewrite Ett.
    unfold delta, refund_delta, locked. lia.
Qed.

Lemma remap_token_unfold c s :
  remap_token (entry c) s =
  (balBefore ← gravityModuleBalance (GravityDenom c);
   trackedBefore ← sumTrackedEscrowForContract c (GravityDenom c);
   _ ← opt_panic "Int.Sub" (Int_Sub (Amount balBefore) trackedBefore);
   _ ← unlock c;
   _ ← must "recovery: failed to cancel outgoing txs" (CancelAllOutgoingTxsForContract c);
   _ ← SetRemappedERC20 c;
   old ← gets (λ s, GetDenomMetaData (st_world s) (GravityDenom c));
   _ ← guard_panic (bool_decide (is_Some old)) "denom metadata exists for old gravity denom?";
   new ← gets (λ s, GetDenomMetaData (st_world s) (Gravity2Denom c));
   guard_panic (bool_decide (is_Some new)) "denom metadata exists for new gravity2 denom?") s.
Proof.
  unfold remap_token, unlock, mbind, M_bind. cbn [entry re_erc20 re_problemOldDenom re_remappedNewDenom].
  repeat (case_match; try done).
Qed.

Lemma remap_inv bad c s u s' :
  remappable bad c s → remap_token (entry c) s = Ret u s' → remapped c s s'.
Proof.
  intros Hrp Hrun. pose proof (frame_inv _ _ _ _ _ (frame_remap_token (entry c)) Hrun) as Honly.
  rewrite remap_token_unfold in Hrun. mnext Hrun as bal s1 E1. apply gets_inv in E1 as [_ ->].
  mnext Hrun as tr s1 E1. apply readonly_inv in E1 as ->; [|apply readonly_sumTracked].
  mnext Hrun as df s1 E1. apply opt_panic_inv in E1 as [_ ->].
  mnext Hrun as x s1 E1. eapply unlock_inv in E1; [|apply Hrp].
  destruct (unlocked_ready bad c s s1 Hrp E1) as (Hs1 & Hp1 & Hod & Et).
  mnext Hrun as y s2 E2. apply must_inv, CancelAll_inv in E2; [|done..|].
  2:{ unfold locked, token_transfers. rewrite Et. apply Hrp. }
  mnext Hrun as z s3 E3. apply modify_inv in E3 as ->.
  mnext Hrun as old s3 E3. apply gets_inv in E3 as [_ ->].
  mnext Hrun as v s3 E3. apply guard_panic_inv in E3 as [_ ->].
  mnext Hrun as new s3 E3. apply gets_inv in E3 as [_ ->]. apply guard_panic_inv in Hrun as [_ ->].
  by apply (remapped_intro c s s1 s2).
Qed.

(** The remaining conditions under which the turn of [c] completes. *)
Record payable_token `{!GravityPays W} (c : EthAddress) s : Prop := {
  pt_covered : locked s c ≤ balance s module_address (GravityDenom c);
  pt_senders t : t ∈ token_transfers s c → receives (tx_Sender t);
  pt_false d : false_denom s c d → d ≠ GravityDenom c ∧ ValidateDenom d = true;
  pt_no_metadata2 : GetDenomMetaData (st_world s) (Gravity2Denom c) = None;
  pt_no_forwards : Forall (λ f, Denom (pf_Token f) ≠ GravityDenom c) (queued s) }.

Lemma locked_nonneg s c : transfers_ok s → 0 ≤ locked s c.
Proof.
  intros Hs. apply sumZ_nonneg, Forall_forall. intros t [_ Ht]%list_elem_of_filter.
  pose proof (transfers_wf s Hs) as Hf. rewrite Forall_forall in Hf.
  apply tx_total_nonneg. by apply Hf.
Qed.

Lemma remap_runs `{!GravityPays W} bad c s :
  remappable bad c s → payable_token c s → receives recoveryVoidAddress →
  ∃ s', remap_token (entry c) s = Ret tt s' ∧ remapped c s s'.
Proof.
  intros Hrp [Hcov Hsend Hfalse Hm2 Hq] Hvoid.
  assert (∃ s', remap_token (entry c) s = Ret tt s') as [s' E];
    [|exists s'; split; [done|by eapply remap_inv]].
  rewrite remap_token_unfold. pose proof (rp_amounts _ _ _ Hrp) as Hlt.
  pose proof (locked_nonneg s c (rp_ok _ _ _ Hrp)) as Hnn.
  pose proof (balance_range (st_world s) module_address (GravityDenom c)) as Hr.
  rewrite (bind_ret _ _ s (mkCoin (GravityDenom c) (balance s module_address (GravityDenom c))) s) by done.
  rewrite (bind_ret _ _ _ _ _ (sumTrackedEscrow_eq c _ s (rp_ok _ _ _ Hrp) (rp_eth _ _ _ Hrp) Hlt Hq)).
  rewrite (bind_ret _ _ s (balance s module_address (GravityDenom c) - locked s c) s).
  2:{ unfold Int_Sub. cbn [Amount]. rewrite int_check_ok; [done|]. unfold int_ok. lia. }
  destruct (unlock_runs c (c :: bad) s) as (u & s1 & E1); [apply Hrp|done|by intros d []%Hfalse|].
  rewrite (bind_ret _ _ _ _ _ E1). eapply unlock_inv in E1; [|apply Hrp].
  destruct (unlocked_ready bad c s s1 Hrp E1) as (Hs1 & Hp1 & Hod & Et).
  assert (token_transfers s1 c = token_transfers s c) as Ett by (unfold token_transfers; by rewrite Et).
  destruct (CancelAll_runs c s1) as (s2 & E2 & Hcl); [done..| | |].
  { intros t. rewrite Ett. apply Hsend. }
  { rewrite (ul_balance _ _ _ E1), decide_False; [unfold locked in *; rewrite Ett; lia|].
    intros Hf. by destruct (Hfalse _ Hf). }
  rewrite (bind_ret _ _ s1 tt s2) by (unfold must; by rewrite E2).
  rewrite (bind_ret _ _ s2 tt (upd_kv (upd_raw (flagged c)) s2)) by done.
  set (s3 := upd_kv (upd_raw (flagged c)) s2).
  rewrite (bind_ret _ _ s3 (GetDenomMetaData (st_world s3) (GravityDenom c)) s3) by done.
  assert (∀ d, GetDenomMetaData (st_world s3) d = GetDenomMetaData (st_world s) d) as Em.
  { intros d. cbn. rewrite (cl_metadata _ _ _ Hcl). apply E1. }
  rewrite !Em, (rp_no_metadata _ _ _ Hrp), bool_decide_false by (by intros [? [=]]).
  rewrite (bind_ret _ _ s3 tt s3) by done.
  rewrite (bind_ret _ _ s3 (GetDenomMetaData (st_world s3) (Gravity2Denom c)) s3) by done.
  rewrite Em, Hm2, bool_decide_false by (by intros [? [=]]). by exists s3.
Qed.
End OneToken.
