(* ===== verification/RecoveryCorrect.v ===== *)
(** * The recovery upgrade as a whole

    The loop over the compromised tokens, from the state it starts in to the state
    it leaves, and what it needs to complete. *)

From stdpp Require Import base gmap list strings sorting.
From S2P Require Import Prelude GoStd External Store Ethereum Keys OutgoingTx Valset Claims Keeper DelegateKeys Attestation Registry ValsetKeeper IbcForward LogicCall Pool Batch Params Transfers PoolCorrect BatchCorrect BatchLifecycle Escrow Recovery RecoveryRefund RecoveryRemap.

#[local] Open Scope Z_scope.

(** ** The tokens *)

(** The address a string of [tokensToRemap] stands for. *)
Definition token_of (s : string) : EthAddress := mkEthAddress (default [] (hex_decode (strip0x s))).
Definition remapTokens : list EthAddress := token_of <$> tokensToRemap.

Lemma remapTokens_NoDup : NoDup remapTokens.
Proof. apply (bool_decide_unpack _). vm_compute. exact I. Qed.

Section Tokens.
Context {W : Type} `{GethLaws} `{SdkLaws} `{Bank W}.
Implicit Types s : State W.

Lemma NewEthAddress_token x : x ∈ tokensToRemap → NewEthAddress x = Ok (token_of x).
Proof.
  intros Hx. apply NewEthAddress_iff.
  repeat (apply elem_of_cons in Hx as [->|Hx]; [by vm_compute|]). by apply not_elem_of_nil in Hx.
Qed.

Lemma remapTokens_ok c : c ∈ remapTokens → eth_ok c.
Proof.
  intros (x & -> & Hx)%list_elem_of_fmap. eapply NewEthAddress_ok. by apply NewEthAddress_token.
Qed.

(** The first loop turns the strings into entries; the second runs over them. *)
Lemma migrate_eq s : migrateRemappedERC20s s = for_each (entry <$> remapTokens) remap_token s.
Proof.
  unfold migrateRemappedERC20s.
  assert (∀ l out, (∀ x, x ∈ l → x ∈ tokensToRemap) →
    for_acc l out (λ erc20 remapped, e ← remap_entry erc20; mret (remapped ++ [e], false)) s =
    Ret (out ++ (entry <$> (token_of <$> l))) s) as Hloop.
  { induction l as [|x l IH]; intros out Hl; [by rewrite app_nil_r|]. cbn [for_acc].
    rewrite (bind_ret _ _ s (out ++ [entry (token_of x)], false) s).
    - rewrite IH by (intros y Hy; apply Hl; by right). by rewrite <- app_assoc.
    - rewrite (bind_ret _ _ s (entry (token_of x)) s); [done|]. unfold remap_entry.
      rewrite NewEthAddress_token by (apply Hl; by left). done. }
  rewrite (bind_ret _ _ _ _ _ (Hloop tokensToRemap [] (λ x Hx, Hx))).
  by rewrite (bind_ret _ _ s tt s) by done.
Qed.
End Tokens.

(** ** The loop over the tokens *)

Section Loop.
Context {W : Type} `{GethLaws} `{SdkLaws} `{!ModuleAccounts} `{Bank W} `{!BankLaws W}.
Implicit Types s : State W.

Abbreviation balance s a d := (GetBalance (st_world s) a d).

(** A token that the upgrade can take: new to it, with a usable denom. *)
Record fresh_token s (c : EthAddress) : Prop := {
  ft_eth : eth_ok c;
  ft_new : raw s !! GetRemappedERC20Key c = None;
  ft_no_metadata : GetDenomMetaData (st_world s) (GravityDenom c) = None;
  ft_strict : ValidateStrictDenom (GravityDenom c) = Ok tt;
  ft_valid : ValidateDenom (GravityDenom c) = true }.

(** The state the loop starts in: well-formed transfers, a registry in which only
    the tokens of [l] may have illegal mappings. *)
Record recoverable (l : list EthAddress) s : Prop := {
  rv_ok : transfers_ok s;
  rv_params : has_params s;
  rv_registry : reg_but l (raw s);
  rv_tokens c : c ∈ l → fresh_token s c }.

Lemma recoverable_remappable c l s :
  recoverable (c :: l) s → locked s c < 2 ^ 256 → remappable l c s.
Proof.
  intros [Hs Hp Hr Ht] Hlt. destruct (Ht c) as [? ? ? ? ?]; [by left|]. by split.
Qed.

Lemma GravityDenom_inj a b : eth_ok a → eth_ok b → GravityDenom a = GravityDenom b → a = b.
Proof.
  intros Ha%(namespace_roundtrip false) Hb%(namespace_roundtrip false) E.
  cbn in Ha, Hb. rewrite E in Ha. congruence.
Qed.

(** The transfers of the other tokens stay. *)
Lemma remapped_token_transfers c c' s s' :
  remapped c s s' → c' ≠ c → token_transfers s' c' ≡ₚ token_transfers s c'.
Proof.
  intros Hrm Hne. unfold token_transfers. rewrite (rm_transfers _ _ _ Hrm), filter_app.
  rewrite (list_filter_none _ (token_transfers s c)); [done|].
  apply Forall_forall. intros t [Ht _]%list_elem_of_filter. congruence.
Qed.

Lemma remapped_locked c c' s s' : remapped c s s' → c' ≠ c → locked s' c' = locked s c'.
Proof. intros Hrm Hne. unfold locked. by rewrite (remapped_token_transfers c c' s s'). Qed.

Lemma remapped_false_denom c c' d s s' :
  remapped c s s' → c' ≠ c → false_denom s' c' d ↔ false_denom s c' d.
Proof.
  intros Hrm Hne. unfold false_denom.
  by rewrite (rm_raw _ _ _ Hrm), lookup_flagged_erc20, lookup_broken_erc20, decide_False by done.
Qed.

Lemma recoverable_next c l s s' :
  recoverable (c :: l) s → c ∉ l → remapped c s s' → recoverable l s'.
Proof.
  intros [Hs (p & Hp & Hpok) Hr Ht] Hni Hrm. split.
  - apply Hrm.
  - exists p. split; [|done]. by rewrite (proj2 (proj2 (proj2 (proj2 (rm_only _ _ _ Hrm))))).
  - rewrite (rm_raw _ _ _ Hrm). apply flagged_ok; [by apply broken_ok|].
    by rewrite lookup_broken_erc20, decide_True.
  - intros c' Hc'. destruct (Ht c') as [? ? ? ? ?]; [by right|].
    split; rewrite ?(rm_metadata _ _ _ Hrm), ?(rm_raw _ _ _ Hrm); try done.
    rewrite lookup_flagged_remapped, lookup_broken_remapped, decide_False by congruence. done.
Qed.

(** ** What the upgrade needs *)

(** The module only pays. *)
Lemma delta_module c s d :
  transfers_ok s → Forall (λ t, tx_Sender t ≠ module_address) (transfers s) →
  delta s c module_address d ≤ 0 ∧
  (d = GravityDenom c → delta s c module_address d ≤ - locked s c).
Proof.
  intros Hs Hsend. pose proof (locked_nonneg s c Hs).
  pose proof (balance_range (st_world s) module_address d) as Hb.
  assert (paid_to module_address (token_transfers s c) = 0) as Hp.
  { unfold paid_to. rewrite (sumZ_ext _ (λ _, 0)).
    - induction (token_transfers s c); simpl; lia.
    - apply Forall_forall. intros t [_ Ht]%list_elem_of_filter. rewrite decide_False; [done|].
      rewrite Forall_forall in Hsend. by apply Hsend. }
  unfold delta, sweep_delta, refund_delta. rewrite Hp.
  rewrite (decide_False (P := module_address = recoveryVoidAddress))
    by (intros E; by apply void_not_module).
  rewrite (decide_True (P := module_address = module_address)) by done.
  split; [|intros ->]; repeat case_decide; try done; lia.
Qed.

Lemma loop_needs_escrow l s u s' :
  recoverable l s → NoDup l → (∀ c, c ∈ l → locked s c < 2 ^ 256) →
  Forall (λ t, tx_Sender t ≠ module_address) (transfers s) →
  for_each (entry <$> l) remap_token s = Ret u s' →
  ∀ c, c ∈ l → locked s c ≤ balance s module_address (GravityDenom c).
Proof.
  revert s. induction l as [|c0 l IH]; intros s Hrv Hnd Hlt Hsend Hrun c Hc;
    [by apply not_elem_of_nil in Hc|].
  apply NoDup_cons in Hnd as [Hni Hnd]. cbn [for_each fmap list_fmap] in Hrun.
  mnext Hrun as x s1 E. eapply remap_inv in E;
    [|apply recoverable_remappable; [exact Hrv|apply Hlt; by left]].
  destruct (delta_module c0 s (GravityDenom c) (rv_ok _ _ Hrv) Hsend) as [Hle Heq].
  pose proof (rm_balance _ _ _ E module_address (GravityDenom c)) as Hb.
  apply elem_of_cons in Hc as [->|Hc].
  - specialize (Heq eq_refl).
    pose proof (balance_range (st_world s1) module_address (GravityDenom c0)). lia.
  - assert (c ≠ c0) as Hne by (intros ->; done).
    assert (locked s1 c ≤ balance s1 module_address (GravityDenom c)) as Hc1.
    { apply (IH s1); [by eapply recoverable_next|done| | |done|done].
      - intros c' Hc'. rewrite (remapped_locked c0 c' s s1); [|done|by intros ->].
        apply Hlt. by right.
      - rewrite Forall_forall in Hsend. apply Forall_forall. intros t Ht. apply Hsend.
        rewrite (rm_transfers _ _ _ E). apply elem_of_app. by right. }
    rewrite (remapped_locked c0 c s s1) in Hc1 by done. lia.
Qed.

(** ** What the loop does *)

Context `{!GravityPays W}.

(** The false denoms are none of the tokens' own denoms. *)
Definition apart (l : list EthAddress) s : Prop :=
  ∀ c c' d, c ∈ l → c' ∈ l → false_denom s c d → d ≠ GravityDenom c'.

Record recovered (l : list EthAddress) s s' : Prop := {
  rc_transfers : transfers s' ≡ₚ filter (λ t, tx_contract t ∉ l) (transfers s);
  rc_ok : transfers_ok s';
  rc_registry : reg_ok (raw s');
  rc_remapped c : c ∈ l → is_Some (raw s' !! GetRemappedERC20Key c);
  rc_others c : c ∉ l →
    raw s' !! GetRemappedERC20Key c = raw s !! GetRemappedERC20Key c ∧
    raw s' !! GetERC20ToDenomKey c = raw s !! GetERC20ToDenomKey c;
  rc_only : transfers_only s s';
  rc_metadata d : GetDenomMetaData (st_world s') d = GetDenomMetaData (st_world s) d;
  rc_balance a d : balance s' a d = balance s a d + sumZ (λ c, delta s c a d) l }.

(** A denom is the false denom of one token at most. *)
Lemma false_denom_unique bad s c c' d :
  reg_but bad (raw s) → false_denom s c d → false_denom s c' d → c = c'.
Proof.
  intros Hreg Hc Hc'. apply (rg_erc20 _ _ Hreg) in Hc as (_ & d1 & E1 & H1').
  apply (rg_erc20 _ _ Hreg) in Hc' as (_ & d2 & E2 & H2').
  apply bytes_of_string_inj in E1 as <-, E2 as <-. destruct c, c'. cbn in *. congruence.
Qed.

Lemma refund_delta_next c0 c a s s1 :
  remapped c0 s s1 → c ≠ c0 → refund_delta s1 c a = refund_delta s c a.
Proof.
  intros Hrm Hne. unfold refund_delta. rewrite (remapped_locked c0 c s s1) by done.
  f_equal. unfold paid_to. by rewrite (remapped_token_transfers c0 c s s1).
Qed.

(** The turn of one token leaves what the turns of the others do unchanged. *)
Lemma delta_next l c0 c a d s s1 :
  recoverable (c0 :: l) s → apart (c0 :: l) s → c0 ∉ l → c ∈ l → remapped c0 s s1 →
  delta s1 c a d = delta s c a d.
Proof.
  intros Hrv Hap Hni Hc Hrm. assert (c ≠ c0) as Hne by (by intros ->).
  unfold delta. rewrite (refund_delta_next c0 c a s s1) by done. f_equal.
  pose proof (remapped_false_denom c0 c d s s1 Hrm Hne) as Hiff.
  destruct (decide (false_denom s1 c d)) as [Hf1|], (decide (false_denom s c d)) as [Hf|]; try tauto.
  assert (balance s1 module_address d = balance s module_address d) as Eb;
    [|unfold sweep_delta; by rewrite Eb].
  rewrite (rm_balance _ _ _ Hrm). unfold delta. rewrite !decide_False; [lia| |].
  - apply (Hap c c0); [by right|by left|done].
  - intros Hf0. apply Hne. symmetry. by eapply false_denom_unique; [apply Hrv|..].
Qed.

Lemma payable_next l c0 c s s1 :
  recoverable (c0 :: l) s → apart (c0 :: l) s → c0 ∉ l → c ∈ l → remapped c0 s s1 →
  payable_token c s → payable_token c s1.
Proof.
  intros Hrv Hap Hni Hc Hrm [Hcov Hsend Hfalse Hm2 Hq]. assert (c ≠ c0) as Hne by (by intros ->).
  split.
  - rewrite (remapped_locked c0 c s s1), (rm_balance _ _ _ Hrm) by done. unfold delta.
    rewrite !decide_False; [lia| |].
    + intros E%GravityDenom_inj; [done|..]; apply (rv_tokens _ _ Hrv); [by right|by left].
    + intros Hf. by apply (Hap c0 c _) in Hf; [|by left|by right].
  - intros t. rewrite (remapped_token_transfers c0 c s s1) by done. apply Hsend.
  - intros d. rewrite (remapped_false_denom c0 c d s s1) by done. apply Hfalse.
  - by rewrite (rm_metadata _ _ _ Hrm).
  - unfold queued. by rewrite (proj1 (rm_only _ _ _ Hrm)).
Qed.

Lemma apart_next l c0 s s1 :
  apart (c0 :: l) s → c0 ∉ l → remapped c0 s s1 → apart l s1.
Proof.
  intros Hap Hni Hrm c c' d Hc Hc'. rewrite (remapped_false_denom c0 c d s s1); [|done|by intros ->].
  apply Hap; by right.
Qed.

(** No transfer of the token is left. *)
Lemma remapped_gone c s s1 t : remapped c s s1 → t ∈ transfers s1 → tx_contract t ≠ c.
Proof.
  intros Hrm Ht E. assert (token_transfers s c ≡ₚ token_transfers s c ++ token_transfers s1 c) as Hp.
  { unfold token_transfers at 1. rewrite (rm_transfers _ _ _ Hrm), filter_app.
    rewrite (list_filter_all _ (token_transfers s c)); [done|]. apply Forall_forall. by intros x [? _]%list_elem_of_filter. }
  apply Permutation_length in Hp. rewrite length_app in Hp.
  assert (token_transfers s1 c = []) as Hnil by (apply nil_length_inv; lia).
  apply (not_elem_of_nil t). rewrite <- Hnil. by apply list_elem_of_filter.
Qed.

Lemma recovered_cons l c s s1 s' :
  recoverable (c :: l) s → apart (c :: l) s → c ∉ l →
  remapped c s s1 → recovered l s1 s' → recovered (c :: l) s s'.
Proof.
  intros Hrv Hap Hni Hrm [Ht Hok Hreg Hre Ho Honly Hm Hb]. split; [|done|done|..].
  - rewrite Ht. rewrite (rm_transfers _ _ _ Hrm), filter_app.
    rewrite (list_filter_none _ (token_transfers s c)); [cbn [app]|].
    2:{ apply Forall_forall. intros t [Et _]%list_elem_of_filter Hn. apply Hn. rewrite Et. left. }
    erewrite list_filter_same; [done|]. apply Forall_forall. intros t Hin. split.
    + intros Hn. apply not_elem_of_cons. split; [|done]. by apply (remapped_gone c s s1).
    + by intros [_ Hn]%not_elem_of_cons.
  - intros c' [->|Hc']%elem_of_cons; [|by apply Hre].
    destruct (Ho c Hni) as [-> _]. rewrite (rm_raw _ _ _ Hrm), lookup_flagged_remapped.
    rewrite decide_True by done. by eexists.
  - intros c' [Hne Hn]%not_elem_of_cons. destruct (Ho c' Hn) as [-> ->].
    rewrite (rm_raw _ _ _ Hrm), lookup_flagged_remapped, lookup_flagged_erc20.
    by rewrite lookup_broken_remapped, lookup_broken_erc20, !decide_False.
  - pose proof (rm_only _ _ _ Hrm) as (? & ? & ? & ? & ?). destruct Honly as (? & ? & ? & ? & ?).
    split_and!; congruence.
  - intros d. rewrite Hm. apply Hrm.
  - intros a d. rewrite Hb, (rm_balance _ _ _ Hrm). simpl.
    assert (sumZ (λ c, delta s1 c a d) l = sumZ (λ c, delta s c a d) l) as ->; [|lia].
    apply sumZ_ext, Forall_forall. intros c' Hc'. by apply (delta_next l c).
Qed.

Lemma loop_completes l s :
  recoverable l s → NoDup l → apart l s → (∀ c, c ∈ l → payable_token c s) →
  receives recoveryVoidAddress →
  ∃ s', for_each (entry <$> l) remap_token s = Ret tt s' ∧ recovered l s s'.
Proof.
  intros Hrv Hnd Hap Hpay Hvoid. revert s Hrv Hap Hpay.
  induction l as [|c l IH]; intros s Hrv Hap Hpay.
  { exists s. split; [done|]. split; try done.
    - rewrite list_filter_all; [done|]. apply Forall_forall. intros t _. apply not_elem_of_nil.
    - apply Hrv.
    - apply reg_but_nil, Hrv.
    - by intros c ?%not_elem_of_nil.
    - intros a d. cbn. lia. }
  apply NoDup_cons in Hnd as [Hni Hnd].
  assert (locked s c < 2 ^ 256) as Hlt.
  { destruct (Hpay c) as [Hcov _ _ _ _]; [by left|].
    pose proof (balance_range (st_world s) module_address (GravityDenom c)). lia. }
  destruct (remap_runs l c s) as (s1 & E & Hrm); [by apply recoverable_remappable|apply Hpay; by left|done|].
  destruct (IH Hnd s1) as (s' & E' & Hrec).
  { by eapply recoverable_next. }
  { by eapply apart_next. }
  { intros c' Hc'. eapply payable_next; [done..|]. apply Hpay. by right. }
  exists s'. cbn [for_each fmap list_fmap]. rewrite (bind_ret _ _ _ _ _ E).
  split; [done|]. by eapply recovered_cons.
Qed.

(** ** The balances afterwards *)

Lemma recovered_refunds l s s' c a :
  recoverable l s → NoDup l → apart l s → recovered l s s' → c ∈ l → a ≠ module_address →
  balance s' a (GravityDenom c) = balance s a (GravityDenom c) + paid_to a (token_transfers s c).
Proof.
  intros Hrv Hnd Hap Hrc Hc Ha. rewrite (rc_balance _ _ _ Hrc). f_equal.
  rewrite (sumZ_single _ l c) by (done || (intros c' Hc' Hne; unfold delta; rewrite !decide_False;
    [lia|intros E%GravityDenom_inj; [done|..]; by apply (rv_tokens _ _ Hrv)
    |intros Hf; by apply (Hap c' c _ Hc' Hc Hf)])).
  unfold delta, refund_delta. rewrite (decide_False (P := false_denom s c _)).
  2:{ intros Hf. by apply (Hap c c _ Hc Hc Hf). }
  rewrite decide_True, decide_False by done. lia.
Qed.

Lemma recovered_swept l s s' c d :
  recoverable l s → NoDup l → apart l s → recovered l s s' → c ∈ l → false_denom s c d →
  balance s' module_address d = 0.
Proof.
  intros Hrv Hnd Hap Hrc Hc Hf. rewrite (rc_balance _ _ _ Hrc), (sumZ_single _ l c); [|done..|].
  - unfold delta, sweep_delta. rewrite decide_True by done.
    rewrite (decide_False (P := module_address = recoveryVoidAddress))
      by (intros E; by apply void_not_module).
    rewrite decide_True, decide_False by (done || by apply (Hap c c)). lia.
  - intros c' Hc' Hne. unfold delta. rewrite !decide_False; [lia|by apply (Hap c c')|].
    intros Hf'. apply Hne. by eapply false_denom_unique; [apply Hrv|..].
Qed.

Lemma recovered_rest l s s' a d :
  recovered l s s' → (∀ c, c ∈ l → d ≠ GravityDenom c ∧ ¬ false_denom s c d) →
  balance s' a d = balance s a d.
Proof.
  intros Hrc Hd. rewrite (rc_balance _ _ _ Hrc), (sumZ_ext _ (λ _, 0)).
  - assert (sumZ (λ _ : EthAddress, 0) l = 0); [|lia]. clear. induction l; simpl; lia.
  - apply Forall_forall. intros c Hc. destruct (Hd c Hc). unfold delta. by rewrite !decide_False.
Qed.

(** A remapped token is classified under its new denom, and the old one is
    refused. *)
Lemma recovered_classified l s s' c :
  recoverable l s → recovered l s s' → c ∈ l → payable_token c s →
  ValidateStrictDenom (Gravity2Denom c) = Ok tt →
  ClassifyERC20 c s' = Ret (mkAssetOrigin AssetOriginEthereum true (Gravity2Denom c) (Some c)) s' ∧
  ClassifyDenom (GravityDenom c) s' = Fail ErrInvalid s'.
Proof.
  intros Hrv Hrc Hc Hpay Hv. destruct (rv_tokens _ _ Hrv c Hc) as [Hok _ Hm _ _].
  pose proof (rc_remapped _ _ _ Hrc c Hc) as Hre. split.
  - rewrite ClassifyERC20_eq, (reg_remapped _ (rc_registry _ _ _ Hrc) c Hre). cbv zeta.
    rewrite bool_decide_true by done. change (namespace_denom true c) with (Gravity2Denom c).
    rewrite classifyEthOriginated_eq, decide_True; [by rewrite Hv|].
    split; [rewrite (rc_metadata _ _ _ Hrc); apply Hpay|by apply (namespace_roundtrip true)].
  - rewrite ClassifyDenom_eq by apply Hrc.
    pose proof (namespace_roundtrip false c Hok) as Hp. cbn in Hp.
    pose proof (λ b, namespace_parse_disjoint false _ c b Hp) as Hn. cbn in Hn.
    destruct (Gravity2DenomToERC20 (GravityDenom c)) as [b|]; [by destruct (Hn b)|].
    rewrite Hp. by rewrite decide_True.
Qed.
End Loop.

(** ** Methods that never fail with an error *)

Definition no_error {S A} (m : M S A) : Prop := ∀ s e s', m s ≠ Fail e s'.

Section NoError.
Context {S : Type}.

Lemma no_error_bind {A B} (m : M S A) (f : A → M S B) :
  no_error m → (∀ a, no_error (f a)) → no_error (m ≫= f).
Proof.
  intros Hm Hf s e s'. unfold mbind, M_bind. pose proof (Hm s) as Hms.
  destruct (m s) as [a s1|e1 s1|]; [apply Hf|by destruct (Hms e1 s1)|done].
Qed.
Lemma no_error_must {A} msg (m : M S A) : no_error (must msg m).
Proof. intros s e s'. unfold must. by destruct (m s). Qed.
Lemma no_error_for_acc {A B} (l : list A) (acc : B) body :
  (∀ x b, no_error (body x b)) → no_error (for_acc l acc body : M S B).
Proof.
  intros Hb. revert acc. induction l as [|x l IH]; intros acc; [done|].
  apply no_error_bind; [done|]. intros [b []]; [done|apply IH].
Qed.
Lemma no_error_for_each {A} (l : list A) body :
  (∀ x, no_error (body x)) → no_error (for_each l body : M S unit).
Proof. intros Hb. induction l as [|x l IH]; [done|]. by apply no_error_bind. Qed.
Lemma no_error_opt_panic {A} msg (o : option A) : no_error (opt_panic msg o : M S A).
Proof. by destruct o. Qed.
Lemma no_error_or_panic {A} msg (r : res A) : no_error (or_panic msg r : M S A).
Proof. by destruct r. Qed.
Lemma no_error_guard_panic b msg : no_error (guard_panic b msg : M S unit).
Proof. by destruct b. Qed.
End NoError.

Ltac no_error_step :=
  match goal with
  | |- no_error (_ ≫= _) => apply no_error_bind; [|intros ?]
  | |- no_error (must _ _) => apply no_error_must
  | |- no_error (for_acc _ _ _) => apply no_error_for_acc; intros ? ?
  | |- no_error (for_each _ _) => apply no_error_for_each; intros ?
  | |- no_error (opt_panic _ _) => apply no_error_opt_panic
  | |- no_error (or_panic _ _) => apply no_error_or_panic
  | |- no_error (guard_panic _ _) => apply no_error_guard_panic
  | |- no_error (match ?x with _ => _ end) => destruct x
  | |- no_error _ => done
  end.
Ltac no_error := repeat (cbv zeta; no_error_step).

(** ** Theorems *)

Section Theorems.
Context {W : Type} `{GethLaws} `{SdkLaws} `{!ModuleAccounts} `{Bank W} `{!BankLaws W}.
Implicit Types s : State W.

Abbreviation balance s a d := (GetBalance (st_world s) a d).

Lemma migrate_no_error : no_error (migrateRemappedERC20s : K W unit).
Proof.
  unfold migrateRemappedERC20s, remap_entry, remap_token, gravityModuleBalance,
    sumTrackedEscrowForContract, IterateOutgoingTxBatches, IterateUnbatchedTransactionsByContract,
    filterAndIterateUnbatchedTransactions, PendingIbcAutoForwards_list, IteratePendingIbcAutoForwards,
    add_tx, breakFalseCosmosOriginatedMapping, IterateCosmosOriginatedMappings.
  no_error.
Qed.

(** The upgrade needs the module to hold, in each token's own denom, everything
    that the token's transfers lock: otherwise it panics, and with it the block.
    The cancellation runs after the mapping was broken and its denom swept away, so
    it is not enough that the coins were escrowed under the denom of the mapping,
    which is what the transfers sent while the mapping stood were paid in. *)
Theorem recovery_needs_escrow s c :
  recoverable remapTokens s → (∀ c, c ∈ remapTokens → locked s c < 2 ^ 256) →
  Forall (λ t, tx_Sender t ≠ module_address) (transfers s) →
  c ∈ remapTokens → balance s module_address (GravityDenom c) < locked s c →
  ∃ msg, migrateRemappedERC20s s = Panic msg.
Proof.
  intros Hrv Hlt Hsend Hc Hless. pose proof (migrate_no_error s) as Hne.
  destruct (migrateRemappedERC20s s) as [u s'|e s'|msg] eqn:E; [|by destruct (Hne e s')|by exists msg].
  rewrite migrate_eq in E.
  pose proof (loop_needs_escrow _ _ _ _ Hrv remapTokens_NoDup Hlt Hsend E c Hc). lia.
Qed.

Context `{!GravityPays W}.

(** C16. The remapping step of the recovery upgrade, [migrateRemappedERC20s], completes
    from every well-formed state in which only the compromised tokens may have false
    mappings, provided that these tokens are not remapped yet, that the module holds in
    each token's own denom what the token's transfers lock, that the senders of these
    transfers and the void address can receive coins, that no IBC forward waits in a
    token's own denom, that the bank has no metadata for the tokens' old and new denoms,
    and that the denoms are legal, a false one being no token's own.  Then all transfers
    of these tokens, batched or not, are gone and no others; every sender got back
    exactly what his transfers locked; the false denoms are swept out of the module; no
    other balance changed.  The registry is a bijection of legal denoms again, and the
    tokens are remapped: deposits get the new denom and sending the old one is refused. *)
Theorem recovery_remaps s :
  recoverable remapTokens s → apart remapTokens s →
  (∀ c, c ∈ remapTokens → payable_token c s ∧ ValidateStrictDenom (Gravity2Denom c) = Ok tt) →
  receives recoveryVoidAddress →
  ∃ s', migrateRemappedERC20s s = Ret tt s' ∧ transfers_ok s' ∧ reg_ok (raw s') ∧
    transfers s' ≡ₚ filter (λ t, tx_contract t ∉ remapTokens) (transfers s) ∧
    (∀ c, c ∈ remapTokens →
       ClassifyERC20 c s' =
         Ret (mkAssetOrigin AssetOriginEthereum true (Gravity2Denom c) (Some c)) s' ∧
       ClassifyDenom (GravityDenom c) s' = Fail ErrInvalid s' ∧
       (∀ a, a ≠ module_address → balance s' a (GravityDenom c) =
          balance s a (GravityDenom c) + paid_to a (token_transfers s c)) ∧
       (∀ d, false_denom s c d → balance s' module_address d = 0)) ∧
    (∀ a d, (∀ c, c ∈ remapTokens → d ≠ GravityDenom c ∧ ¬ false_denom s c d) →
       balance s' a d = balance s a d).
Proof.
  intros Hrv Hap Hpay Hvoid. pose proof remapTokens_NoDup as Hnd.
  destruct (loop_completes remapTokens s) as (s' & E & Hrc); [done..|by intros c []%Hpay|done|].
  exists s'. rewrite migrate_eq. split_and!; [done|apply Hrc..| |].
  - intros c Hc. destruct (Hpay c Hc) as [Hp Hv].
    destruct (recovered_classified remapTokens s s' c) as [H1' H2']; [done..|].
    split_and!; [done..| |].
    + intros a Ha. by apply (recovered_refunds remapTokens).
    + intros d Hd. by apply (recovered_swept remapTokens s s' c).
  - intros a d Hd. by apply (recovered_rest remapTokens).
Qed.
End Theorems.
