(* ===== verification/RecoveryResult.v ===== *)
(** * The recovery upgrade deletes exactly the orphaned confirmations

    A confirmation is orphaned when the batch or the validator set it signs is not
    stored any more.  Both clean-ups collect what has confirmations, then delete
    them prefix by prefix. *)

From stdpp Require Import base gmap list strings sorting.
From S2P Require Import Prelude GoStd External Store Ethereum Keys OutgoingTx Valset Claims Keeper DelegateKeys Registry ValsetKeeper Pool Batch Transfers PoolCorrect BatchCorrect BatchLifecycle Recovery RecoveryRefund Attestation IbcForward LogicCall Params Escrow RecoveryRemap RecoveryCorrect.

#[local] Open Scope Z_scope.

(** ** Deleting under a prefix *)

Section DeletePrefix.
Context `{SdkLaws} {V : Type} (orchestrator : V → string).
Implicit Types m : gmap bytes V.

(** The key of a confirmation under the prefix [p] is [p] and the address of its
    orchestrator. *)
Definition del_own (p : bytes) m (v : V) : gmap bytes V :=
  match AccAddressFromBech32 (orchestrator v) with Ok a => delete (p ++ a) m | Er _ => m end.

(** Every entry is stored under its own key: a prefix of [n] bytes and the address
    of its orchestrator. *)
Definition own_keys (n : nat) m : Prop :=
  map_Forall (λ k v, bytes_ok k ∧ ∃ q a, AccAddressFromBech32 (orchestrator v) = Ok a ∧
    k = q ++ a ∧ length q = n) m.

Lemma lookup_del_own p m l k v :
  foldl (del_own p) m l !! k = Some v ↔
  m !! k = Some v ∧ ∀ x a, x ∈ l → AccAddressFromBech32 (orchestrator x) = Ok a → k ≠ p ++ a.
Proof.
  revert m. induction l as [|y l IH]; intros m.
  { cbn. split; [|by intros []]. intros Hk. split; [done|]. by intros x a ?%not_elem_of_nil. }
  cbn [foldl]. rewrite IH. unfold del_own.
  destruct (AccAddressFromBech32 (orchestrator y)) as [a|] eqn:Ey.
  - rewrite lookup_delete_Some. setoid_rewrite elem_of_cons. split.
    + intros [[Hne Hk] Hl]. split; [done|]. intros x b [->|Hx] Hb; [|by apply (Hl x)].
      rewrite Ey in Hb. injection Hb as <-. by intros ->.
    + intros [Hk Hl]. split; [split; [|done]|].
      * intros E. apply (Hl y a); auto.
      * intros x b Hx. apply Hl. by right.
  - setoid_rewrite elem_of_cons. split; intros [Hk Hl]; (split; [done|]); intros x b.
    + intros [->|Hx] Hb; [congruence|by apply (Hl x)].
    + intros Hx. apply Hl. by right.
Qed.

(** Deleting the own keys of the entries under a prefix deletes those entries, and
    no others. *)
Lemma delete_prefix p m :
  p ≠ [] → bytes_ok p → own_keys (length p) m →
  foldl (del_own p) m (iter_asc m (prefixRange p)).*2 = filter (λ kv, ¬ p `prefix_of` kv.1) m.
Proof.
  intros Hne Hok Hm. apply map_eq. intros k. apply option_eq. intros v.
  rewrite lookup_del_own, map_lookup_filter_Some.
  assert (∀ k v, m !! k = Some v → bytes_ok k ∧ (length p ≤ length k)%nat) as Hlen.
  { intros k' v' (Hb & q & a & _ & -> & Hq)%Hm. rewrite length_app. split; [done|lia]. }
  destruct (prefix_iteration m p Hne Hok Hlen) as [_ Hin]. split; intros [Hk Hx]; (split; [done|]).
  - cbn. intros Hp. destruct (Hm k v Hk) as (_ & q & a & Ha & -> & Hq).
    assert (q = p) as ->. { destruct Hp as [t Hp]. by apply app_inj_1 in Hp as [-> _]. }
    apply (Hx v a); [|done|done]. apply list_elem_of_fmap. exists (p ++ a, v). split; [done|].
    apply Hin. split; [done|]. by exists a.
  - cbn in Hx. intros x a _ _ ->. apply Hx. by exists a.
Qed.

Lemma own_keys_sub n m m' : own_keys n m → m' ⊆ m → own_keys n m'.
Proof. intros Hm Hsub k v Hk. apply (Hm k v). by eapply lookup_weaken. Qed.
End DeletePrefix.

(** ** Batch confirmations *)

Section BatchConfirms.
Context {W : Type} `{GethLaws} `{SdkLaws}.
Implicit Types s : State W.
Implicit Types m : gmap bytes MsgConfirmBatch.

(** What [SetBatchConfirm] stores. *)
Definition batch_confirms_ok m : Prop :=
  map_Forall (λ k cf, bytes_ok k ∧ u64_ok (cb_Nonce cf) ∧
    ∃ c a, NewEthAddress (cb_TokenContract cf) = Ok c ∧
      AccAddressFromBech32 (cb_Orchestrator cf) = Ok a ∧
      k = GetBatchConfirmNonceContractPrefix c (cb_Nonce cf) ++ a) m.

Definition confirm_prefix (c : EthAddress) (nonce : Z) : bytes :=
  GetBatchConfirmNonceContractPrefix c nonce.

Lemma confirm_prefix_eq c n : confirm_prefix c n = BatchConfirmKey ++ GetAddress c ++ UInt64Bytes n.
Proof.
  unfold confirm_prefix, GetBatchConfirmNonceContractPrefix, AppendBytes. cbn [concat].
  by rewrite app_nil_r.
Qed.

Lemma confirm_prefix_ok c n :
  eth_ok c → confirm_prefix c n ≠ [] ∧ bytes_ok (confirm_prefix c n) ∧
  length (confirm_prefix c n) = 44%nat.
Proof.
  intros [Hl Hb]. rewrite confirm_prefix_eq. split_and!.
  - intros E. apply (f_equal length) in E. rewrite !length_app, Hl in E. simpl in E. lia.
  - apply Forall_app. split; [|apply Forall_app; split; [done|apply be_bytes_ok]].
    apply (bool_decide_unpack _). by vm_compute.
  - rewrite !length_app, Hl, length_UInt64Bytes. done.
Qed.

Lemma confirm_prefix_inj c n c' n' :
  eth_ok c → eth_ok c' → u64_ok n → u64_ok n' → confirm_prefix c n = confirm_prefix c' n' →
  c = c' ∧ n = n'.
Proof.
  intros [Hl _] [Hl' _] Hn Hn'. rewrite !confirm_prefix_eq. intros [_ E]%app_inj_1; [|done].
  apply app_inj_1 in E as [Ec En]; [|congruence]. apply UInt64Bytes_inj in En; [|done..].
  destruct c, c'. simpl in *. by subst.
Qed.

Lemma batch_confirms_own m : batch_confirms_ok m → own_keys cb_Orchestrator 44 m.
Proof.
  intros Hm k cf (Hb & _ & c & a & Hc & Ha & ->)%Hm. split; [done|].
  exists (confirm_prefix c (cb_Nonce cf)), a. split_and!; [done..|].
  apply confirm_prefix_ok. by eapply NewEthAddress_ok.
Qed.

Lemma del_confirms_eq b m :
  batch_confirms_ok m → eth_ok (ib_TokenContract b) →
  del_confirms b m =
  filter (λ kv, ¬ confirm_prefix (ib_TokenContract b) (ib_BatchNonce b) `prefix_of` kv.1) m.
Proof.
  intros Hm Hc. destruct (confirm_prefix_ok _ (ib_BatchNonce b) Hc) as (Hne & Hok & Hlen).
  rewrite <- (delete_prefix cb_Orchestrator); [|done..|by rewrite Hlen; apply batch_confirms_own].
  unfold del_confirms. fold (confirm_prefix (ib_TokenContract b) (ib_BatchNonce b)).
  generalize ((iter_asc m (prefixRange (confirm_prefix (ib_TokenContract b) (ib_BatchNonce b)))).*2).
  clear Hm. intros l. revert m. induction l as [|cf l IH]; intros m; [done|]. cbn [foldl]. rewrite IH.
  f_equal. unfold del_confirm, del_own. destruct (AccAddressFromBech32 _) as [a|] eqn:Ea; [|done].
  unfold GetBatchConfirmKey, verified. rewrite (acc_bech32_verified _ _ Ea).
  unfold AppendBytes. cbn [concat]. by rewrite app_nil_r.
Qed.

(** The batch that a confirmation signs is stored. *)
Definition signs_live_batch (kv : KV) (cf : MsgConfirmBatch) : Prop :=
  match NewEthAddress (cb_TokenContract cf) with
  | Ok c => is_Some (find_batch kv c (cb_Nonce cf))
  | Er _ => True
  end.
#[global] Instance signs_live_batch_dec kv cf : Decision (signs_live_batch kv cf).
Proof. unfold signs_live_batch. destruct (NewEthAddress _); apply _. Defined.

Definition orphan_body (p : string * Z) : K W unit :=
  match NewEthAddress p.1 with
  | Er _ => mret tt
  | Ok ethAddr =>
      batch ← GetOutgoingTXBatch ethAddr p.2;
      match batch with
      | Some _ => mret tt
      | None => DeleteBatchConfirms (mkInternalOutgoingTxBatch p.2 0 [] ethAddr 0)
      end
  end.

(** The prefix of a pair without a batch. *)
Definition orphaned_prefix (kv : KV) (p : string * Z) : option bytes :=
  match NewEthAddress p.1 with
  | Ok c => match find_batch kv c p.2 with
            | None => Some (confirm_prefix c p.2)
            | Some _ => None
            end
  | Er _ => None
  end.

Definition drop_prefix (kv : KV) m (p : string * Z) : gmap bytes MsgConfirmBatch :=
  match orphaned_prefix kv p with
  | Some q => filter (λ kv, ¬ q `prefix_of` kv.1) m
  | None => m
  end.

Lemma drop_prefix_sub kv m p : drop_prefix kv m p ⊆ m.
Proof. unfold drop_prefix. destruct (orphaned_prefix kv p); [apply map_filter_subseteq|done]. Qed.

Lemma orphan_loop l s :
  transfers_ok s → batch_confirms_ok (kv_batchConfirms (st_kv s)) →
  for_each l orphan_body s =
  Ret tt (upd_kv (upd_batchConfirms (λ m, foldl (drop_prefix (st_kv s)) m l)) s).
Proof.
  intros Hs. assert (∀ l s1, transfers_ok s1 → batch_confirms_ok (kv_batchConfirms (st_kv s1)) →
    (∀ c n, find_batch (st_kv s1) c n = find_batch (st_kv s) c n) →
    for_each l orphan_body s1 =
    Ret tt (upd_kv (upd_batchConfirms (λ m, foldl (drop_prefix (st_kv s)) m l)) s1)) as Hloop;
    [|by intros; apply Hloop].
  clear l. induction l as [|p l IH]; intros s1 Hs1 Hm Hf; [by destruct s1 as [[] ? ? ?]|].
  cbn [for_each]. set (s2 := upd_kv (upd_batchConfirms (λ m, drop_prefix (st_kv s) m p)) s1).
  rewrite (bind_ret _ _ s1 tt s2).
  - rewrite IH; [done|by destruct Hs1; split| |done].
    intros k cf Hk. cbn in Hk. apply (Hm k cf). by eapply lookup_weaken, drop_prefix_sub.
  - subst s2. unfold orphan_body, drop_prefix, orphaned_prefix.
    destruct (NewEthAddress p.1) as [c|] eqn:Ec; [|by destruct s1 as [[] ? ? ?]].
    rewrite (bind_ret _ _ _ _ _ (GetOutgoingTXBatch_eq s1 c p.2 Hs1)), Hf.
    destruct (find_batch (st_kv s) c p.2) as [b|]; [by destruct s1 as [[] ? ? ?]|].
    rewrite DeleteBatchConfirms_eq. f_equal. destruct s1 as [[] ? ? ?]. unfold upd_kv, upd_batchConfirms.
    cbn in *. do 2 f_equal. apply (del_confirms_eq (mkInternalOutgoingTxBatch p.2 0 [] c 0)); [done|].
    by eapply NewEthAddress_ok.
Qed.

Lemma lookup_drop_prefixes kv l m k cf :
  foldl (drop_prefix kv) m l !! k = Some cf ↔
  m !! k = Some cf ∧ ∀ p q, p ∈ l → orphaned_prefix kv p = Some q → ¬ q `prefix_of` k.
Proof.
  revert m. induction l as [|y l IH]; intros m.
  { cbn. split; [|by intros []]. intros Hk. split; [done|]. by intros p q ?%not_elem_of_nil. }
  cbn [foldl]. rewrite IH. unfold drop_prefix. setoid_rewrite elem_of_cons.
  destruct (orphaned_prefix kv y) as [q0|] eqn:Ey.
  - rewrite map_lookup_filter_Some. cbn. split.
    + intros [[Hk Hq] Hl]. split; [done|]. intros p q [->|Hp] E; [congruence|by apply (Hl p)].
    + intros [Hk Hl]. split; [split; [done|apply (Hl y); auto]|]. intros p q Hp. apply Hl. by right.
  - split; intros [Hk Hl]; (split; [done|]); intros p q.
    + intros [->|Hp] E; [congruence|by apply (Hl p)].
    + intros Hp. apply Hl. by right.
Qed.

Definition pair_of (cf : MsgConfirmBatch) : string * Z := (cb_TokenContract cf, cb_Nonce cf).

(** [order], the distinct pairs seen so far, after one more confirmation. *)
Definition note_pair (order : list (string * Z)) (e : bytes * MsgConfirmBatch) : list (string * Z) :=
  if decide (pair_of e.2 ∈ order) then order else order ++ [pair_of e.2].

Lemma note_pairs l order p :
  p ∈ foldl note_pair order l ↔ p ∈ order ∨ ∃ e, e ∈ l ∧ pair_of e.2 = p.
Proof.
  revert order. induction l as [|e l IH]; intros order.
  { cbn. split; [by left|]. intros [?|(e & He & _)]; [done|]. by apply not_elem_of_nil in He. }
  cbn [foldl]. rewrite IH. setoid_rewrite elem_of_cons. unfold note_pair. case_decide as Hd.
  - split; [naive_solver|]. intros [?|(e' & [->|He] & <-)]; naive_solver.
  - rewrite elem_of_app, list_elem_of_singleton. naive_solver.
Qed.

(** [cleanupOrphanedBatchConfirms] deletes the confirmations of batches that are no
    longer stored, all of them and no others, and touches nothing else. *)
Theorem cleanupOrphanedBatchConfirms_spec s :
  transfers_ok s → batch_confirms_ok (kv_batchConfirms (st_kv s)) →
  cleanupOrphanedBatchConfirms s =
  Ret tt (upd_kv (upd_batchConfirms (filter (λ e, signs_live_batch (st_kv s) e.2))) s).
Proof.
  intros Hs Hm. unfold cleanupOrphanedBatchConfirms, IterateBatchConfirms.
  set (es := iter_asc (kv_batchConfirms (st_kv s)) (None, None)).
  rewrite (bind_ret _ _ s (foldl note_pair [] es) s).
  2:{ rewrite (bind_ret _ _ s es s) by done.
      apply (for_acc_fold (λ _ _, True)); [done|]. intros [k cf] l order _. split; [|done].
      unfold note_pair, pair_of. cbn. by case_decide. }
  change (for_each (foldl note_pair [] es) orphan_body s =
    Ret tt (upd_kv (upd_batchConfirms (filter (λ e, signs_live_batch (st_kv s) e.2))) s)).
  rewrite orphan_loop by done. f_equal. destruct s as [[] ? ? ?]. unfold upd_kv, upd_batchConfirms.
  cbn in *. do 2 f_equal. apply map_eq. intros k. apply option_eq. intros cf.
  rewrite lookup_drop_prefixes, map_lookup_filter_Some.
  split; intros [Hk Hx]; (split; [done|]); destruct (Hm k cf Hk) as (_ & Hn & c & a & Hc & Ha & ->).
  - unfold signs_live_batch. cbn. rewrite Hc. destruct (find_batch _ c (cb_Nonce cf)) eqn:Ef; [done|].
    exfalso. apply (Hx (pair_of cf) (confirm_prefix c (cb_Nonce cf))).
    + apply note_pairs. right. eexists (_, cf). split; [|done]. by apply elem_of_iter_asc.
    + unfold orphaned_prefix, pair_of. cbn. by rewrite Hc, Ef.
    + by exists a.
  - unfold signs_live_batch in Hx. cbn in Hx. rewrite Hc in Hx.
    intros p q [Hp|([k' cf'] & He & <-)]%note_pairs E [t Hq]; [by apply not_elem_of_nil in Hp|].
    apply elem_of_iter_asc in He as [He _].
    destruct (Hm k' cf' He) as (_ & Hn' & c' & a' & Hc' & _ & _).
    unfold orphaned_prefix, pair_of in E. cbn in E. rewrite Hc' in E.
    destruct (find_batch _ c' (cb_Nonce cf')) eqn:Ef; [done|]. injection E as <-.
    apply NewEthAddress_ok in Hc, Hc'. fold (confirm_prefix c (cb_Nonce cf)) in Hq.
    apply app_inj_1 in Hq as [Eq _].
    + apply confirm_prefix_inj in Eq as [-> E]; [|done..]. rewrite E, Ef in Hx. by destruct Hx.
    + destruct (confirm_prefix_ok c (cb_Nonce cf) Hc) as (_ & _ & ->).
      by destruct (confirm_prefix_ok c' (cb_Nonce cf') Hc') as (_ & _ & ->).
Qed.
End BatchConfirms.

(** ** Validator set confirmations *)

Section ValsetConfirms.
Context {W : Type} `{SdkLaws}.
Implicit Types s : State W.
Implicit Types m : gmap bytes MsgValsetConfirm.

(** What [SetValsetConfirm] stores. *)
Definition valset_confirms_ok m : Prop :=
  map_Forall (λ k cf, bytes_ok k ∧ u64_ok (vc_Nonce cf) ∧
    ∃ a, AccAddressFromBech32 (vc_Orchestrator cf) = Ok a ∧
      k = GetValsetConfirmNoncePrefix (vc_Nonce cf) ++ a) m.

Lemma valset_prefix_eq n : GetValsetConfirmNoncePrefix n = ValsetConfirmKey ++ UInt64Bytes n.
Proof. unfold GetValsetConfirmNoncePrefix, AppendBytes. cbn [concat]. by rewrite app_nil_r. Qed.

Lemma valset_prefix_ok n :
  GetValsetConfirmNoncePrefix n ≠ [] ∧ bytes_ok (GetValsetConfirmNoncePrefix n) ∧
  length (GetValsetConfirmNoncePrefix n) = 24%nat.
Proof.
  rewrite valset_prefix_eq. split_and!.
  - intros E. apply (f_equal length) in E. rewrite length_app, length_UInt64Bytes in E. simpl in E. lia.
  - apply Forall_app. split; [|apply be_bytes_ok]. apply (bool_decide_unpack _). by vm_compute.
  - by rewrite length_app, length_UInt64Bytes.
Qed.

Lemma valset_confirms_own m : valset_confirms_ok m → own_keys vc_Orchestrator 24 m.
Proof.
  intros Hm k cf (Hb & _ & a & Ha & ->)%Hm. split; [done|].
  exists (GetValsetConfirmNoncePrefix (vc_Nonce cf)), a. split_and!; [done..|]. apply valset_prefix_ok.
Qed.

Lemma DeleteValsetConfirms_eq n s :
  valset_confirms_ok (kv_valsetConfirms (st_kv s)) →
  DeleteValsetConfirms n s =
  Ret tt (upd_kv (upd_valsetConfirms
    (filter (λ e, ¬ GetValsetConfirmNoncePrefix n `prefix_of` e.1))) s).
Proof.
  intros Hm. destruct (valset_prefix_ok n) as (Hne & Hok & Hlen). unfold DeleteValsetConfirms.
  set (p := GetValsetConfirmNoncePrefix n) in *.
  set (l := (iter_asc (kv_valsetConfirms (st_kv s)) (prefixRange p)).*2).
  rewrite (bind_ret _ _ s l s) by done.
  assert (∀ l s1, for_each l (λ confirm, match AccAddressFromBech32 (vc_Orchestrator confirm) with
    | Er _ => mret tt
    | Ok orchestrator =>
        confirmKey ← opt_panic "invalid validator address" (GetValsetConfirmKey n orchestrator);
        modify (upd_kv (upd_valsetConfirms (delete confirmKey)))
    end) s1 = Ret tt (upd_kv (upd_valsetConfirms (λ m, foldl (del_own vc_Orchestrator p) m l)) s1)) as ->.
  { clear l. intros l. induction l as [|cf l IH]; intros s1; [by destruct s1 as [[] ? ? ?]|]. cbn [for_each].
    rewrite (bind_ret _ _ s1 tt (upd_kv (upd_valsetConfirms (λ m, del_own vc_Orchestrator p m cf)) s1)).
    - by rewrite IH.
    - unfold del_own. destruct (AccAddressFromBech32 (vc_Orchestrator cf)) as [a|] eqn:Ea;
        [|by destruct s1 as [[] ? ? ?]].
      unfold GetValsetConfirmKey, verified. rewrite (acc_bech32_verified _ _ Ea).
      unfold AppendBytes. cbn [concat]. by rewrite app_nil_r. }
  f_equal. destruct s as [[] ? ? ?]. unfold upd_kv, upd_valsetConfirms. cbn in *. do 2 f_equal.
  apply delete_prefix; [done..|]. rewrite Hlen. by apply valset_confirms_own.
Qed.

(** The validator set of a nonce is stored. *)
Definition stored_valset (kv : KV) (n : Z) : bool := bool_decide (is_Some (kv_valsets kv !! GetValsetKey n)).

Definition group_body (e : bytes * MsgValsetConfirm) (st : list MsgValsetConfirm * Z * bytes * list Z * bool)
    : K W (list MsgValsetConfirm * Z * bytes * list Z * bool * bool) :=
  let cb := λ (_ : bytes) (_ : list MsgValsetConfirm) nonce orphans,
    valset ← GetValset nonce;
    match valset with
    | None => mret (orphans ++ [nonce], false)
    | Some _ => mret (orphans, false)
    end in
  let '(confirmsByNonce, nonce, _, acc, _) := st in
  let '(key, confirm) := e in
  if decide (confirmsByNonce = []) then
    mret ((confirmsByNonce ++ [confirm], vc_Nonce confirm, key, acc, false), false)
  else if negb (vc_Nonce confirm =? nonce) then
    r ← cb key confirmsByNonce nonce acc;
    let '(acc, stop) := r in
    if (stop : bool) then mret ((confirmsByNonce, nonce, key, acc, true), true)
    else mret (([confirm], vc_Nonce confirm, key, acc, false), false)
  else mret ((confirmsByNonce ++ [confirm], nonce, key, acc, false), false).

(** The nonces found orphaned so far, and the current one. *)
Definition found_orphan (kv : KV) (group : list MsgValsetConfirm) (nonce : Z) (acc : list Z) (n : Z) : Prop :=
  n ∈ acc ∨ (group ≠ [] ∧ n = nonce ∧ stored_valset kv n = false).

Lemma group_loop s l group nonce key acc :
  ∃ group' nonce' key' acc',
    for_acc l (group, nonce, key, acc, false) group_body s =
      Ret (group', nonce', key', acc', false) s ∧
    ∀ n, found_orphan (st_kv s) group' nonce' acc' n ↔
      found_orphan (st_kv s) group nonce acc n ∨
      (stored_valset (st_kv s) n = false ∧ ∃ e, e ∈ l ∧ vc_Nonce e.2 = n).
Proof.
  revert group nonce key acc. induction l as [|[k cf] l IH]; intros group nonce key acc.
  { exists group, nonce, key, acc. split; [done|]. intros n. split; [by left|].
    intros [?|(_ & e & He & _)]; [done|]. by apply not_elem_of_nil in He. }
  cbn [for_acc]. setoid_rewrite elem_of_cons.
  assert (∃ group1 nonce1 key1 acc1,
    group_body (k, cf) (group, nonce, key, acc, false) s =
      Ret ((group1, nonce1, key1, acc1, false), false) s ∧
    ∀ n, found_orphan (st_kv s) group1 nonce1 acc1 n ↔
      found_orphan (st_kv s) group nonce acc n ∨ (stored_valset (st_kv s) n = false ∧ vc_Nonce cf = n))
    as (group1 & nonce1 & key1 & acc1 & E & Hiff).
  - unfold group_body, found_orphan. destruct (decide (group = [])) as [->|Hne].
    { eexists _, _, _, _. split; [done|]. intros n. cbn. naive_solver. }
    destruct (Z.eqb_spec (vc_Nonce cf) nonce) as [En|En]; cbn [negb].
    { eexists _, _, _, _. split; [done|]. intros n.
      assert (group ++ [cf] ≠ []) by (by destruct group). naive_solver. }
    unfold GetValset.
    destruct (kv_valsets (st_kv s) !! GetValsetKey nonce) as [v|] eqn:Ev.
    + eexists _, _, _, _. split.
      { unfold mbind, M_bind, gets. rewrite Ev. done. }
      assert (stored_valset (st_kv s) nonce = true) by (unfold stored_valset; by rewrite Ev).
      intros n. split; [naive_solver|]. intros [[?|(_ & -> & ?)]|[? <-]]; [by left|congruence|].
      right. done.
    + eexists _, _, _, _. split.
      { unfold mbind, M_bind, gets. rewrite Ev. done. }
      assert (stored_valset (st_kv s) nonce = false) by (unfold stored_valset; by rewrite Ev).
      intros n. rewrite elem_of_app, list_elem_of_singleton. split; [naive_solver|].
      intros [[?|(_ & -> & ?)]|[? <-]]; [by left; left|by left; right|right; done].
  - rewrite (bind_ret _ _ _ _ _ E).
    destruct (IH group1 nonce1 key1 acc1) as (g2 & n2 & k2 & a2 & -> & Hiff2).
    exists g2, n2, k2, a2. split; [done|]. intros n. rewrite Hiff2, Hiff. naive_solver.
Qed.

(** The callback that collects the orphaned nonces. *)
Definition note_orphan (_ : bytes) (_ : list MsgValsetConfirm) (nonce : Z) (orphans : list Z)
    : K W (list Z * bool) :=
  valset ← GetValset nonce;
  match valset with
  | None => mret (orphans ++ [nonce], false)
  | Some _ => mret (orphans, false)
  end.

Lemma orphans_found s :
  ∃ orphans, IterateValsetConfirms [] note_orphan s = Ret orphans s ∧
    ∀ n, n ∈ orphans ↔ stored_valset (st_kv s) n = false ∧
      ∃ k cf, kv_valsetConfirms (st_kv s) !! k = Some cf ∧ vc_Nonce cf = n.
Proof.
  unfold IterateValsetConfirms. set (es := iter_desc (kv_valsetConfirms (st_kv s)) (None, None)).
  rewrite (bind_ret _ _ s es s) by done. unfold confirm_groups.
  destruct (group_loop s es [] 0 [] []) as (group & nonce & key & acc & E & Hiff).
  unfold group_body, note_orphan in *. rewrite (bind_ret _ _ _ _ _ E). cbn [orb].
  assert (∀ n, found_orphan (st_kv s) group nonce acc n ↔ stored_valset (st_kv s) n = false ∧
    ∃ k cf, kv_valsetConfirms (st_kv s) !! k = Some cf ∧ vc_Nonce cf = n) as Hn.
  { intros n. rewrite Hiff. unfold found_orphan. split.
    - intros [[?%not_elem_of_nil|(? & _)]|(Hs & [k cf] & He & <-)]; [done..|].
      split; [done|]. exists k, cf. by apply elem_of_iter_desc in He as [? _].
    - intros (Hs & k & cf & Hk & <-). right. split; [done|]. exists (k, cf). split; [|done].
      by apply elem_of_iter_desc. }
  clear Hiff E. unfold found_orphan in Hn. destruct (decide (group = [])) as [->|Hg].
  { exists acc. split; [done|]. intros n. rewrite <- Hn. naive_solver. }
  rewrite bool_decide_false by done.
  unfold GetValset, mbind, M_bind, gets.
  destruct (kv_valsets (st_kv s) !! GetValsetKey nonce) as [v|] eqn:Ev.
  - exists acc. split; [done|]. intros n. rewrite <- Hn. split; [by left|].
    intros [?|(_ & -> & Hs)]; [done|]. unfold stored_valset in Hs. by rewrite Ev in Hs.
  - exists (acc ++ [nonce]). split; [done|]. intros n.
    rewrite elem_of_app, list_elem_of_singleton, <- Hn. unfold stored_valset.
    split; [intros [?| ->]; [by left|]|naive_solver]. right. split_and!; [done..|]. by rewrite Ev.
Qed.

Definition drop_nonce m (n : Z) : gmap bytes MsgValsetConfirm :=
  filter (λ e, ¬ GetValsetConfirmNoncePrefix n `prefix_of` e.1) m.

Lemma delete_nonces l s :
  valset_confirms_ok (kv_valsetConfirms (st_kv s)) →
  for_each l DeleteValsetConfirms s =
  Ret tt (upd_kv (upd_valsetConfirms (λ m, foldl drop_nonce m l)) s).
Proof.
  revert s. induction l as [|n l IH]; intros s Hm; [by destruct s as [[] ? ? ?]|]. cbn [for_each].
  rewrite (bind_ret _ _ _ _ _ (DeleteValsetConfirms_eq n s Hm)). rewrite IH; [done|].
  intros k cf Hk. cbn in Hk. apply map_lookup_filter_Some in Hk as [Hk _]. by apply (Hm k cf).
Qed.

Lemma lookup_drop_nonces l m k cf :
  foldl drop_nonce m l !! k = Some cf ↔
  m !! k = Some cf ∧ ∀ n, n ∈ l → ¬ GetValsetConfirmNoncePrefix n `prefix_of` k.
Proof.
  revert m. induction l as [|y l IH]; intros m.
  { cbn. split; [|by intros []]. intros Hk. split; [done|]. by intros n ?%not_elem_of_nil. }
  cbn [foldl]. rewrite IH. unfold drop_nonce. setoid_rewrite elem_of_cons.
  rewrite map_lookup_filter_Some. cbn. naive_solver.
Qed.

(** [cleanupOrphanedValsetConfirms] deletes the confirmations of validator sets that
    are no longer stored, all of them and no others, and touches nothing else. *)
Theorem cleanupOrphanedValsetConfirms_spec s :
  valset_confirms_ok (kv_valsetConfirms (st_kv s)) →
  cleanupOrphanedValsetConfirms s =
  Ret tt (upd_kv (upd_valsetConfirms
    (filter (λ e, stored_valset (st_kv s) (vc_Nonce e.2) = true))) s).
Proof.
  intros Hm. unfold cleanupOrphanedValsetConfirms.
  destruct (orphans_found s) as (orphans & E & Hiff). unfold note_orphan in E.
  rewrite (bind_ret _ _ _ _ _ E), delete_nonces by done. f_equal.
  unfold upd_kv, upd_valsetConfirms. do 2 f_equal.
  apply map_eq. intros k. apply option_eq. intros cf.
  rewrite lookup_drop_nonces, map_lookup_filter_Some. cbn [snd].
  split; intros [Hk Hx]; (split; [done|]); destruct (Hm k cf Hk) as (_ & Hn & a & _ & Ek).
  - destruct (stored_valset (st_kv s) (vc_Nonce cf)) eqn:Es; [done|]. exfalso.
    apply (Hx (vc_Nonce cf)); [|rewrite Ek; by exists a]. apply Hiff. split; [done|]. by exists k, cf.
  - intros n (Hs & k' & cf' & Hk' & <-)%Hiff [t Ht]. rewrite Ek in Ht.
    apply app_inj_1 in Ht as [Ep _].
    + rewrite !valset_prefix_eq in Ep. apply app_inj_1 in Ep as [_ Ep]; [|done].
      apply UInt64Bytes_inj in Ep; [|done|by apply (Hm k' cf')]. congruence.
    + destruct (valset_prefix_ok (vc_Nonce cf)) as (_ & _ & ->).
      by destruct (valset_prefix_ok (vc_Nonce cf')) as (_ & _ & ->).
Qed.
End ValsetConfirms.

(** * What a completed recovery upgrade guarantees

    Whatever state the chain was in, when the handler returns the bridge is paused,
    the compromised tokens are remapped, no forward of theirs is queued, every
    balance of the module belongs to a known asset, and every Cosmos-originated
    denom is whitelisted. *)

(** ** The snapshots only read *)

Section SnapshotReads.
Context {W : Type} `{Geth} `{Sdk}.

Lemma readonly_confirm_groups {B} es (acc : B) cb :
  (∀ k l n b, readonly (cb k l n b)) → readonly (confirm_groups es acc cb : K W B).
Proof.
  intros Hcb. unfold confirm_groups. apply readonly_bind.
  - apply readonly_for_acc. intros [k cf] [[[[g n] key] a] stop]. readonly.
  - intros [[[[g n] key] a] stop]. readonly.
Qed.

Lemma readonly_add_up total t : readonly (add_tx total t : K W _).
Proof. unfold add_tx. readonly. Qed.
#[local] Hint Resolve readonly_add_up : readonly.

Lemma readonly_log_batches : readonly (logPendingBatches : K W _).
Proof. unfold logPendingBatches, IterateOutgoingTxBatches. readonly. Qed.
Lemma readonly_log_pool : readonly (logUnbatchedPool : K W _).
Proof.
  unfold logUnbatchedPool, IterateUnbatchedTransactions, filterAndIterateUnbatchedTransactions. readonly.
Qed.
Lemma readonly_log_confirms : readonly (logBatchConfirms : K W _).
Proof. unfold logBatchConfirms, IterateBatchConfirms. readonly. Qed.
Lemma readonly_log_calls : readonly (logLogicCalls : K W _).
Proof.
  unfold logLogicCalls, GetOutgoingLogicCalls, IterateOutgoingLogicCalls, IterateLogicConfirms,
    iterateLogicConfirmsByPrefix. readonly.
Qed.
Lemma readonly_log_valsets : readonly (logValsetsAndConfirms : K W _).
Proof.
  unfold logValsetsAndConfirms, GetValsets, IterateValsets, GetLatestValset, GetLatestValsetNonce,
    CheckLatestValsetNonce, GetValset, IterateValsetConfirms.
  apply readonly_bind; [readonly|intros ?]. apply readonly_bind; [readonly|intros ?].
  apply readonly_bind; [|intros ?; readonly]. apply readonly_bind; [readonly|intros es].
  apply readonly_confirm_groups. intros. readonly.
Qed.
Lemma readonly_log_forwards : readonly (logPendingIbcAutoForwards : K W _).
Proof.
  unfold logPendingIbcAutoForwards, PendingIbcAutoForwards_list, IteratePendingIbcAutoForwards. readonly.
Qed.

(** [logResumeStateSnapshot] changes nothing, as its comment promises. *)
Lemma readonly_snapshot : readonly (logResumeStateSnapshot : K W _).
Proof.
  unfold logResumeStateSnapshot.
  apply readonly_bind; [apply readonly_log_batches|intros ?].
  apply readonly_bind; [apply readonly_log_pool|intros ?].
  apply readonly_bind; [apply readonly_log_confirms|intros ?].
  apply readonly_bind; [apply readonly_log_calls|intros ?].
  apply readonly_bind; [apply readonly_log_valsets|intros ?].
  apply readonly_bind; [apply readonly_log_forwards|intros ?]. readonly.
Qed.
End SnapshotReads.

(** ** What the steps after the remapping leave alone *)

Section LaterSteps.
Context {W : Type} `{Geth} `{Sdk} `{Bank W}.
Implicit Types s : State W.

(** The registry, the forwards and the other modules stay as they are. *)
Definition registry_kept s s' : Prop :=
  raw s' = raw s ∧ st_world s' = st_world s ∧ kv_forwards (st_kv s') = kv_forwards (st_kv s).

(** So does the whitelist. *)
Definition whitelist_kept s s' : Prop :=
  registry_kept s s' ∧ kv_bridgeable (st_kv s') = kv_bridgeable (st_kv s).

#[local] Instance registry_kept_refl : Reflexive registry_kept.
Proof. by intros s. Qed.
#[local] Instance registry_kept_trans : Transitive registry_kept.
Proof. intros s1 s2 s3 (? & ? & ?) (? & ? & ?). split_and!; congruence. Qed.
#[local] Instance whitelist_kept_refl : Reflexive whitelist_kept.
Proof. by intros s. Qed.
#[local] Instance whitelist_kept_trans : Transitive whitelist_kept.
Proof. intros s1 s2 s3 [? ?] [? ?]. split; [by etrans|congruence]. Qed.

Lemma readonly_iterate_mappings {B} (acc : B) cb :
  (∀ d c b, readonly (cb d c b)) → readonly (IterateCosmosOriginatedMappings acc cb : K W B).
Proof. intros Hcb. unfold IterateCosmosOriginatedMappings. readonly. Qed.

Lemma frame_register : frame registry_kept (registerCosmosBridgeableTokens : K W unit).
Proof.
  unfold registerCosmosBridgeableTokens, GetAllCosmosBridgeableTokens, SetCosmosBridgeableToken.
  apply frame_bind; [apply _|by apply frame_readonly|intros ex].
  apply frame_bind; [apply _|apply frame_readonly; [apply _|auto with readonly]|intros _].
  apply frame_bind; [apply _| |intros es].
  { apply frame_readonly; [apply _|]. apply readonly_iterate_mappings. intros. readonly. }
  framed. by apply frame_modify.
Qed.

Lemma readonly_assert_forwards : readonly (assertNoPendingRemappedIbcAutoForwards : K W unit).
Proof.
  unfold assertNoPendingRemappedIbcAutoForwards, PendingIbcAutoForwards_list,
    IteratePendingIbcAutoForwards.
  apply readonly_bind; [readonly|intros fs]. induction fs as [|f fs IH]; [done|]. cbn [for_each].
  apply readonly_bind; [readonly|intros _; exact IH].
Qed.

Lemma frame_clean_valsets : frame whitelist_kept (cleanupOrphanedValsetConfirms : K W unit).
Proof.
  unfold cleanupOrphanedValsetConfirms, IterateValsetConfirms, DeleteValsetConfirms, GetValsetConfirms.
  apply frame_bind; [apply _| |intros ns].
  { apply frame_readonly; [apply _|]. apply readonly_bind; [readonly|intros es].
    apply readonly_confirm_groups. intros. unfold GetValset. readonly. }
  framed. by apply frame_modify.
Qed.

Lemma frame_clean_batches : frame whitelist_kept (cleanupOrphanedBatchConfirms : K W unit).
Proof.
  unfold cleanupOrphanedBatchConfirms, IterateBatchConfirms, DeleteBatchConfirms,
    GetBatchConfirmByNonceAndTokenContract.
  apply frame_bind; [apply _| |intros order].
  { apply frame_readonly; [apply _|]. readonly. }
  framed. by apply frame_modify.
Qed.

Lemma setBridgeActive_inv v s u s' :
  setBridgeActive v s = Ret u s' →
  ∃ p, kv_params (st_kv s) = Some p ∧ Params_ValidateBasic (with_BridgeActive v p) = Ok tt ∧
    s' = upd_kv (upd_params (λ _, Some (with_BridgeActive v p))) s.
Proof.
  unfold setBridgeActive, SetParams. intros Hrun. mnext Hrun as p s1 E. apply must_inv in E.
  pose proof (readonly_inv _ _ _ _ readonly_GetParams E) as ->.
  apply must_inv in Hrun. mnext Hrun as x s2 E2. apply of_res_inv in E2 as [E2 ->].
  apply modify_inv in Hrun as ->. exists p. destruct x. split_and!; [|done|done].
  unfold GetParams in E. unfold mbind, M_bind, gets in E.
  destruct (kv_params (st_kv s)); [|done]. cbn in E. by injection E as ->.
Qed.
End LaterSteps.

(** ** The checks of the handler *)

Section Checks.
Context {W : Type} `{GethLaws} `{SdkLaws} `{Bank W}.
Implicit Types s : State W.

(** After the loop every token has its flag. *)
Lemma remap_sets_flag c s u s' :
  remap_token (entry c) s = Ret u s' → is_Some (raw s' !! GetRemappedERC20Key c).
Proof.
  unfold remap_token. cbn [entry re_erc20]. intros Hrun.
  do 6 apply bind_ret_inv in Hrun as (? & ? & _ & Hrun). mnext Hrun as y s2 E. apply modify_inv in E as ->.
  mnext Hrun as old s3 E. apply gets_inv in E as [_ ->].
  mnext Hrun as v s3 E. apply guard_panic_inv in E as [_ ->].
  mnext Hrun as new s3 E. apply gets_inv in E as [_ ->]. apply guard_panic_inv in Hrun as [_ ->].
  cbn. rewrite lookup_insert_eq. by eexists.
Qed.

Lemma migrate_sets_flags s u s' c :
  migrateRemappedERC20s s = Ret u s' → c ∈ remapTokens → is_Some (raw s' !! GetRemappedERC20Key c).
Proof.
  rewrite migrate_eq. generalize remapTokens as l. intros l. revert s.
  induction l as [|c0 l IH]; intros s Hrun Hc; [by apply not_elem_of_nil in Hc|].
  cbn [for_each fmap list_fmap] in Hrun. mnext Hrun as x s1 E.
  apply elem_of_cons in Hc as [->|Hc]; [|by apply (IH s1)].
  apply remap_sets_flag in E. revert Hrun E. clear. revert s1. induction l as [|c l IH]; intros s1 Hrun Hf.
  - by apply mret_inv in Hrun as [_ ->].
  - cbn [for_each fmap list_fmap] in Hrun. mnext Hrun as x s2 E.
    apply (IH s2 Hrun). by apply (frame_inv _ _ _ _ _ (frame_remap_flags (entry c)) E).
Qed.

(** No queued forward is in a denom of a remapped token. *)
Definition forward_allowed s (f : PendingIbcAutoForward) : Prop :=
  (∀ c, Gravity2DenomToERC20 (Denom (pf_Token f)) ≠ Ok c) ∧
  (∀ c, GravityDenomToERC20 (Denom (pf_Token f)) = Ok c → raw s !! GetRemappedERC20Key c = None).

Definition forward_body (forward : PendingIbcAutoForward) : K W unit :=
  match Gravity2DenomToERC20 (Denom (pf_Token forward)) with
  | Ok _ => panic "found pending IBC Auto Forward for remapped ERC20?"
  | Er _ =>
      match GravityDenomToERC20 (Denom (pf_Token forward)) with
      | Ok tc =>
          remapped ← IsRemappedERC20 tc;
          guard_panic remapped "found pending IBC Auto Forward for remapped ERC20"
      | Er _ => mret tt
      end
  end.

Lemma assert_forwards_inv s u s' :
  assertNoPendingRemappedIbcAutoForwards s = Ret u s' → s' = s ∧ Forall (forward_allowed s) (queued s).
Proof.
  intros Hrun. pose proof (readonly_inv _ _ _ _ readonly_assert_forwards Hrun) as ->. split; [done|].
  unfold assertNoPendingRemappedIbcAutoForwards in Hrun.
  rewrite (bind_ret _ _ _ _ _ (PendingIbcAutoForwards_all s)) in Hrun. fold (queued s) in Hrun.
  change (for_each (queued s) forward_body s = Ret u s) in Hrun. revert Hrun.
  generalize (queued s) as l. induction l as [|f l IH]; intros Hrun; [constructor|].
  cbn [for_each] in Hrun. mnext Hrun as x s2 E. unfold forward_body in E.
  destruct (Gravity2DenomToERC20 (Denom (pf_Token f))) as [tc|] eqn:E2; [done|].
  destruct (GravityDenomToERC20 (Denom (pf_Token f))) as [tc|] eqn:E1.
  - mnext E as r s3 Er. unfold IsRemappedERC20, raw_has in Er. apply gets_inv in Er as [-> ->].
    apply guard_panic_inv in E as [E ->]. apply bool_decide_eq_false in E.
    constructor; [|by apply IH]. split; [intros c; congruence|].
    intros c Hc. rewrite E1 in Hc. injection Hc as <-. by apply eq_None_not_Some.
  - apply mret_inv in E as [_ ->]. constructor; [|by apply IH].
    split; intros c; congruence.
Qed.

(** ** The whitelist *)

Definition whitelist_body (denom : string) (erc20 : EthAddress) (newEntries : list Metadata)
    : K W (list Metadata * bool) :=
  found ← gets (λ s, GetDenomMetaData (st_world s) denom);
  match found with
  | None => panic "recovery: cosmos-originated ERC20 denom has no bank metadata"
  | Some meta =>
      _ ← guard_panic (bool_decide (md_Base meta = ""))
            "recovery: cosmos-originated ERC20 denom has no bank metadata";
      mret (newEntries ++ [meta], false)
  end.

Lemma whitelist_loop l acc es s s' :
  for_acc l acc (λ kv acc,
    erc20 ← or_panic "discovered invalid EthAddress under cosmos-originated mapping key"
              (NewEthAddressFromBytes kv.2);
    whitelist_body (string_of_bytes kv.1) erc20 acc) s = Ret es s' →
  s' = s ∧ (∀ md, md ∈ acc → md ∈ es) ∧
  ∀ k v, (k, v) ∈ l →
    ∃ md, GetDenomMetaData (st_world s) (string_of_bytes k) = Some md ∧ md ∈ es.
Proof.
  revert acc. induction l as [|[k0 v0] l IH]; intros acc Hrun.
  { apply mret_inv in Hrun as [-> ->]. split_and!; [done..|]. by intros k v ?%not_elem_of_nil. }
  cbn [for_acc fst snd] in Hrun. mnext Hrun as x s1 E. destruct x as [acc' stop].
  mnext E as a s2 Ea. apply or_panic_inv in Ea as [_ ->]. unfold whitelist_body in E.
  mnext E as found s2 Ef. apply gets_inv in Ef as [-> ->].
  destruct (GetDenomMetaData (st_world s) (string_of_bytes k0)) as [md|] eqn:Emd; [|done].
  mnext E as u s2 Eg. apply guard_panic_inv in Eg as [_ ->]. apply mret_inv in E as [[= -> ->] ->].
  apply IH in Hrun as (-> & Hin & Hall). split_and!; [done|..].
  - intros md' Hmd. apply Hin, elem_of_app. by left.
  - intros k v [[= -> ->]|Hkv]%elem_of_cons; [|by apply (Hall k v)].
    exists md. split; [done|]. apply Hin, elem_of_app. right. by apply list_elem_of_singleton.
Qed.

Lemma set_tokens es s u s' :
  for_each es SetCosmosBridgeableToken s = Ret u s' →
  (∀ k, is_Some (kv_bridgeable (st_kv s) !! k) → is_Some (kv_bridgeable (st_kv s') !! k)) ∧
  ∀ md, md ∈ es → is_Some (kv_bridgeable (st_kv s') !! GetCosmosBridgeableTokenKey (md_Base md)).
Proof.
  revert s. induction es as [|e es IH]; intros s Hrun.
  { apply mret_inv in Hrun as [_ ->]. split; [done|]. by intros md ?%not_elem_of_nil. }
  cbn [for_each] in Hrun. mnext Hrun as x s1 E. apply modify_inv in E as ->.
  apply IH in Hrun as [Hk Hin]. cbn in Hk. split.
  - intros k Hs. apply Hk. destruct (decide (k = GetCosmosBridgeableTokenKey (md_Base e))) as [->|Hne].
    + rewrite lookup_insert_eq. by eexists.
    + by rewrite lookup_insert_ne.
  - intros md [->|Hmd]%elem_of_cons; [|by apply Hin]. apply Hk. rewrite lookup_insert_eq. by eexists.
Qed.

(** Every denom of the registry has metadata, and these are whitelisted. *)
Definition registry_whitelisted s : Prop :=
  ∀ d b, raw s !! GetDenomToERC20Key d = Some b →
    ∃ md, GetDenomMetaData (st_world s) d = Some md ∧
      is_Some (kv_bridgeable (st_kv s) !! GetCosmosBridgeableTokenKey (md_Base md)).

Lemma register_inv s u s' : registerCosmosBridgeableTokens s = Ret u s' → registry_whitelisted s'.
Proof.
  intros Hrun. pose proof (frame_inv _ _ _ _ _ frame_register Hrun) as (Er & Ew & _).
  unfold registerCosmosBridgeableTokens in Hrun.
  mnext Hrun as ex s1 E. apply gets_inv in E as [_ ->].
  mnext Hrun as v s1 E. apply guard_panic_inv in E as [_ ->].
  mnext Hrun as es s1 E. unfold IterateCosmosOriginatedMappings in E.
  mnext E as l s2 El. apply gets_inv in El as [-> ->]. apply whitelist_loop in E as (-> & _ & Hall).
  mnext Hrun as v2 s1 E. apply guard_panic_inv in E as [_ ->]. apply set_tokens in Hrun as [_ Hin].
  intros d b. rewrite Er, Ew. intros Hd. rewrite denom_key_eq in Hd. apply elem_of_sub_entries in Hd.
  destruct (Hall _ _ Hd) as (md & Hmd & Hes). rewrite string_of_bytes_of_string in Hmd.
  exists md. split; [done|]. by apply Hin.
Qed.

Context `{BankBalances W}.

Lemma count_unclassifiable_inv s n s' :
  count_unclassifiable s = Ret n s' → s' = s ∧ 0 ≤ n ∧
  (n = 0 → Forall (λ coin, ∃ o, ClassifyDenom (Denom coin) s = Ret o s)
             (GetAllBalances (st_world s) (GetModuleAddress ModuleName))).
Proof.
  unfold count_unclassifiable. intros Hrun. mnext Hrun as coins s1 E. apply gets_inv in E as [-> ->].
  generalize dependent (GetAllBalances (st_world s) (GetModuleAddress ModuleName)).
  assert (∀ l acc, 0 ≤ acc → for_acc l acc (λ coin unclassifiable,
    r ← try (ClassifyDenom (Denom coin));
    mret (if is_ok r then unclassifiable else unclassifiable + 1, false)) s = Ret n s' →
    s' = s ∧ acc ≤ n ∧ (n = acc → Forall (λ coin, ∃ o, ClassifyDenom (Denom coin) s = Ret o s) l)) as Hl.
  { induction l as [|coin l IH]; intros acc Hacc Hrun.
    { apply mret_inv in Hrun as [-> ->]. split_and!; [done|lia|]. intros _. constructor. }
    cbn [for_acc] in Hrun. mnext Hrun as x s1 E. destruct x as [acc' stop].
    mnext E as r s2 Er. apply mret_inv in E as [[= -> ->] ->].
    pose proof (readonly_inv _ _ _ _ (readonly_try _ (readonly_ClassifyDenom (Denom coin))) Er) as ->.
    apply try_inv in Er as [(o & -> & Ho)|(e & -> & _)]; cbn [is_ok] in Hrun.
    - apply IH in Hrun as (-> & Hle & Hall); [|done]. split_and!; [done..|]. intros ->.
      constructor; [by exists o|by apply Hall].
    - apply IH in Hrun as (-> & Hle & _); [|lia]. split_and!; [done|lia|lia]. }
  intros l Hrun. apply Hl in Hrun as (-> & ? & Hall); [|done]. split_and!; [done..|]. exact Hall.
Qed.

Context {VersionMap : Type} (RunMigrations : VersionMap → K W VersionMap) (AssertInvariants : K W unit).

(** C17. When the recovery upgrade returns, whatever the state of the chain was: the
    bridge is paused, with valid parameters; the four tokens are remapped; no forward
    in a denom of a remapped token is queued; every denom the module holds is
    classified; and every Cosmos-originated denom has metadata that are whitelisted.
    The SDK's invariants are only assumed not to change the state. *)
Theorem recovery_result vmap s out s' :
  readonly AssertInvariants →
  RecoveryUpgradeHandler RunMigrations AssertInvariants vmap s = Ret out s' →
  (∃ p, kv_params (st_kv s') = Some p ∧ p_BridgeActive p = false ∧
        Params_ValidateBasic p = Ok tt) ∧
  (∀ c, c ∈ remapTokens → is_Some (raw s' !! GetRemappedERC20Key c)) ∧
  Forall (forward_allowed s') (queued s') ∧
  Forall (λ coin, ∃ o, ClassifyDenom (Denom coin) s' = Ret o s')
    (GetAllBalances (st_world s') (GetModuleAddress ModuleName)) ∧
  registry_whitelisted s'.
Proof.
  intros Hro Hrun. unfold RecoveryUpgradeHandler in Hrun.
  mnext Hrun as o s0 E. clear E. mnext Hrun as sn s1 E. clear E.
  mnext Hrun as x1 s2 Emig. mnext Hrun as x2 s3 Ereg. mnext Hrun as x3 s4 Efw.
  apply assert_forwards_inv in Efw as [-> Hfw].
  mnext Hrun as x4 s5 E. pose proof (frame_inv _ _ _ _ _ frame_clean_valsets E) as H35. clear E.
  mnext Hrun as x5 s6 E. pose proof (frame_inv _ _ _ _ _ frame_clean_batches E) as H56. clear E.
  mnext Hrun as x6 s7 E. apply setBridgeActive_inv in E as (p & _ & Hv & ->).
  set (s7 := upd_kv _ s6) in *.
  mnext Hrun as p' s8 E. pose proof (readonly_inv _ _ _ _ (readonly_must _ _ readonly_GetParams) E) as ->. clear E.
  mnext Hrun as n s8 E. apply count_unclassifiable_inv in E as (-> & Hn & Hcl).
  mnext Hrun as x7 s8 E. apply readonly_inv in E as ->; [|done].
  mnext Hrun as x8 s8 E. apply guard_panic_inv in E as [E ->]. apply Z.ltb_ge in E.
  mnext Hrun as x9 s8 E2. apply readonly_inv in E2 as ->; [|apply readonly_snapshot].
  apply mret_inv in Hrun as [_ ->].
  pose proof (frame_inv _ _ _ _ _ frame_register Ereg) as (Er23 & _ & _).
  apply register_inv in Ereg. destruct H35 as [(R1 & W1 & F1) B1], H56 as [(R2 & W2 & F2) B2].
  assert (raw s7 = raw s3) as Er by (cbn; congruence).
  assert (st_world s7 = st_world s3) as Ew by (cbn; congruence).
  split_and!.
  - exists (with_BridgeActive false p). done.
  - intros c Hc. rewrite Er, Er23. by eapply migrate_sets_flags.
  - unfold queued in *. replace (kv_forwards (st_kv s7)) with (kv_forwards (st_kv s3)) by (cbn; congruence).
    eapply Forall_impl; [exact Hfw|]. intros f [H1' H2']. split; [done|]. intros c. rewrite Er. apply H2'.
  - apply Hcl. lia.
  - intros d b. rewrite Er, Ew. replace (kv_bridgeable (st_kv s7)) with (kv_bridgeable (st_kv s3)) by (cbn; congruence).
    apply Ereg.
Qed.
End Checks.
