(* ===== verification/Bech32Ibc.v ===== *)
(** * The bech32ibc module (x/bech32ibc)

    The table that says over which IBC channel tokens for an address with a foreign
    prefix are forwarded.  One store holds the chain's own prefix and a record per
    foreign prefix, which governance updates and deletes (types, keeper/records.go,
    keeper/gov.go, handler.go, genesis.go, keeper/grpc_query.go).

    The records are stored in the protobuf encoding, an interface, as are the channels
    and the port of ibc-go. *)

From stdpp Require Import base gmap list strings.
From S2P Require Import Prelude GoStd External Store.

#[local] Open Scope Z_scope.

(** ** Types (types/keys.go, errors.go, events.go, types.pb.go, gov.pb.go) *)

Definition NativeHrpKey : bytes := bytes_of_string "native_hrp".
Definition HrpIBCRecordStorePrefix : bytes := bytes_of_string "hrp_ibc_record".

Definition ErrInvalidHRP : gerror := ErrSdk "Invalid HRP".
Definition ErrInvalidIBCData : gerror := ErrSdk "Invalid IBC Data".
Definition ErrRecordNotFound : gerror := ErrSdk "No record found for requested HRP".
Definition ErrNoNativeHrp : gerror := ErrSdk "No native prefix was set".
Definition ErrInvalidOffsetHeightTimeout : gerror :=
  ErrSdk "At least one of offset height or offset timeout should be set".

Definition EventTypeHrpIbcRecordSet : string := "hrp_ibc_record_set".
Definition EventTypeHrpIbcRecordDelete : string := "hrp_ibc_record_delete".
Definition AttributeKeyHrp : string := "hrp".
Definition AttributeKeyChannel : string := "channel".

(** [sdk.NewEvent] with its attributes *)
Record HrpEvent := mkHrpEvent { he_Type : string; he_Attributes : list (string * string) }.

Record HrpIbcRecord := mkHrpIbcRecord {
  hr_Hrp : string; hr_SourceChannel : string; hr_IcsToHeightOffset : Z; hr_IcsToTimeOffset : Z }.

#[global] Instance HrpIbcRecord_eq_dec : EqDecision HrpIbcRecord.
Proof. solve_decision. Defined.

Record UpdateHrpIbcChannelProposal := mkUpdateHrpIbcChannelProposal {
  up_Title : string; up_Description : string; up_Hrp : string; up_SourceChannel : string;
  up_IcsToHeightOffset : Z; up_IcsToTimeOffset : Z }.

Record DeleteHrpIbcChannelProposal := mkDeleteHrpIbcChannelProposal {
  dp_Title : string; dp_Description : string; dp_Hrp : string }.

Record GenesisState := mkGenesisState {
  gs_NativeHRP : string; gs_HrpIBCRecords : list HrpIbcRecord }.

(** [proto.Marshal] and [proto.Unmarshal] of a record; what was marshalled can be
    unmarshalled. *)
Class RecordCodec := {
  Marshal : HrpIbcRecord → res bytes;
  Unmarshal : bytes → res HrpIbcRecord;
}.
Class RecordCodecLaws `{RecordCodec} := {
  unmarshal_marshal r b : Marshal r = Ok b → Unmarshal b = Ok r;
}.

(** The expected keepers (types/expected_keepers.go) *)
Class Channels (B : Type) := {
  (** whether there is a channel on the port *)
  GetChannel : B → string → string → bool;
  GetTransferPort : B → string;
}.

(** ** Validation (types/types.go, types/gov.go) *)

(** The loop over the characters of [hrp]. *)
Fixpoint validate_chars (hrp : string) : res unit :=
  match hrp with
  | EmptyString => Ok tt
  | String c hrp' =>
      if (ascii_byte c <? 33) || (126 <? ascii_byte c)
      then Er (ErrSdk "invalid character in string") else validate_chars hrp'
  end.

Definition ValidateHrp (hrp : string) : res unit :=
  if bool_decide (hrp = "") then Er ErrInvalidHRP else
  _ ← validate_chars hrp;
  if bool_decide (hrp ≠ ToLower hrp) then Er (ErrSdk "string not all lowercase") else Ok tt.

Section Proposals.
Context `{GovContent}.

Definition UpdateHrpIbcChannelProposal_ValidateBasic (p : UpdateHrpIbcChannelProposal) : res unit :=
  _ ← ValidateAbstract (up_Title p) (up_Description p);
  if bool_decide (TrimSpace (up_SourceChannel p) = "") then Er ErrInvalidIBCData else
  if (up_IcsToHeightOffset p =? 0) && (up_IcsToTimeOffset p =? 0)
  then Er ErrInvalidOffsetHeightTimeout else
  ValidateHrp (up_Hrp p).

Definition DeleteHrpIbcChannelProposal_ValidateBasic (p : DeleteHrpIbcChannelProposal) : res unit :=
  _ ← ValidateAbstract (dp_Title p) (dp_Description p);
  ValidateHrp (dp_Hrp p).
End Proposals.

Definition DefaultGenesis : GenesisState := mkGenesisState "gravity" [].
Definition GenesisState_Validate (gs : GenesisState) : res unit := Ok tt.

(** ** State

    The module's store, the modules it calls and the events. *)

Record HState (W : Type) := mkHState {
  hs_store : gmap bytes bytes; hs_world : W; hs_events : list HrpEvent }.
Arguments mkHState {_} _ _ _.
Arguments hs_store {_} _.
Arguments hs_world {_} _.
Arguments hs_events {_} _.

Definition on_store {W : Type} (f : gmap bytes bytes → gmap bytes bytes) (s : HState W) : HState W :=
  mkHState (f (hs_store s)) (hs_world s) (hs_events s).
Definition add_event {W : Type} (e : HrpEvent) (s : HState W) : HState W :=
  mkHState (hs_store s) (hs_world s) (hs_events s ++ [e]).

(** The key of a record in the module's store, behind the prefix store. *)
Definition record_key (hrp : string) : bytes := HrpIBCRecordStorePrefix ++ bytes_of_string hrp.

(** ** The keeper (keeper/records.go) *)

Abbreviation KB W := (M (HState W)).

Section Keeper.
Context {W : Type} `{RecordCodec}.

Definition GetNativeHrp : KB W string :=
  bz ← gets (λ s, hs_store s !! NativeHrpKey);
  match bz with None => fail ErrNoNativeHrp | Some bz => mret (string_of_bytes bz) end.

Definition SetNativeHrp (hrp : string) : KB W unit :=
  _ ← of_res (ValidateHrp hrp);
  modify (on_store (insert NativeHrpKey (bytes_of_string hrp))).

Definition GetHrpIbcRecord (hrp : string) : KB W HrpIbcRecord :=
  bz ← gets (λ s, hs_store s !! record_key hrp);
  match bz with None => fail ErrRecordNotFound | Some bz => of_res (Unmarshal bz) end.

Definition GetHrpSourceChannel (hrp : string) : KB W string :=
  record ← GetHrpIbcRecord hrp;
  mret (hr_SourceChannel record).

Definition setHrpIbcRecord (hrpIbcRecord : HrpIbcRecord) : KB W unit :=
  _ ← guard_err (bool_decide (hr_SourceChannel hrpIbcRecord = "")) ErrInvalidIBCData;
  bz ← of_res (Marshal hrpIbcRecord);
  _ ← modify (on_store (insert (record_key (hr_Hrp hrpIbcRecord)) bz));
  modify (add_event (mkHrpEvent EventTypeHrpIbcRecordSet
    [(AttributeKeyHrp, hr_Hrp hrpIbcRecord); (AttributeKeyChannel, hr_SourceChannel hrpIbcRecord)])).

Definition deleteHrpIbcRecord (hrp : string) : KB W unit :=
  has ← gets (λ s, bool_decide (is_Some (hs_store s !! record_key hrp)));
  _ ← guard_err (negb has) ErrRecordNotFound;
  _ ← modify (on_store (delete (record_key hrp)));
  modify (add_event (mkHrpEvent EventTypeHrpIbcRecordDelete [(AttributeKeyHrp, hrp)])).

Definition GetHrpIbcRecords : KB W (list HrpIbcRecord) :=
  entries ← gets (λ s, sub_entries HrpIBCRecordStorePrefix (hs_store s));
  for_acc entries [] (λ kv records,
    record ← or_panic "Unmarshal" (Unmarshal kv.2);
    mret (records ++ [record], false)).

Definition SetHrpIbcRecords (hrpIbcRecords : list HrpIbcRecord) : KB W unit :=
  nativePrefix ← must "native HRP not set" GetNativeHrp;
  _ ← or_panic "invalid hrp ibc records"
        (GenesisState_Validate (mkGenesisState nativePrefix hrpIbcRecords));
  for_each hrpIbcRecords (λ record, must "failed to set hrp ibc record" (setHrpIbcRecord record)).

(** ** Genesis (genesis.go) *)

Definition InitGenesis (genState : GenesisState) : KB W unit :=
  _ ← must "failed to set native HRP" (SetNativeHrp (gs_NativeHRP genState));
  SetHrpIbcRecords (gs_HrpIBCRecords genState).

Definition ExportGenesis : KB W GenesisState :=
  hrpIbcRecords ← GetHrpIbcRecords;
  nativeHrp ← must "ExportGenesis" GetNativeHrp;
  mret (mkGenesisState nativeHrp hrpIbcRecords).

(** ** Queries (keeper/grpc_query.go); a request may be nil *)

Definition QueryHrpIbcRecords : KB W (list HrpIbcRecord) := GetHrpIbcRecords.

Definition QueryHrpIbcRecord (req : option string) : KB W HrpIbcRecord :=
  match req with
  | None => fail (ErrSdk "empty request")
  | Some hrp => GetHrpIbcRecord hrp
  end.

Definition QueryNativeHrp : KB W string := GetNativeHrp.

(** ** Governance (keeper/gov.go, handler.go) *)

Context `{Channels W}.

Definition ValidateHrpIbcRecord (record : HrpIbcRecord) : KB W unit :=
  _ ← of_res (ValidateHrp (hr_Hrp record));
  nativeHrp ← GetNativeHrp;
  _ ← guard_err (bool_decide (hr_Hrp record = nativeHrp)) ErrInvalidHRP;
  found ← gets (λ s, GetChannel (hs_world s) (GetTransferPort (hs_world s)) (hr_SourceChannel record));
  guard_err (negb found) ErrInvalidIBCData.

Definition HandleUpdateHrpIbcChannelProposal (p : UpdateHrpIbcChannelProposal) : KB W unit :=
  _ ← of_res (ValidateHrp (up_Hrp p));
  nativeHrp ← GetNativeHrp;
  _ ← guard_err (bool_decide (up_Hrp p = nativeHrp)) ErrInvalidHRP;
  found ← gets (λ s, GetChannel (hs_world s) (GetTransferPort (hs_world s)) (up_SourceChannel p));
  _ ← guard_err (negb found) ErrInvalidIBCData;
  setHrpIbcRecord (mkHrpIbcRecord (up_Hrp p) (up_SourceChannel p) (up_IcsToHeightOffset p)
                     (up_IcsToTimeOffset p)).

Definition HandleDeleteHrpIbcChannelProposal (p : DeleteHrpIbcChannelProposal) : KB W unit :=
  _ ← of_res (ValidateHrp (dp_Hrp p));
  nativeHrp ← GetNativeHrp;
  _ ← guard_err (bool_decide (dp_Hrp p = nativeHrp)) ErrInvalidHRP;
  deleteHrpIbcRecord (dp_Hrp p).

(** [govtypes.Content]: a proposal of this module, or of another one. *)
Inductive Content :=
  | UpdateContent (p : UpdateHrpIbcChannelProposal)
  | DeleteContent (p : DeleteHrpIbcChannelProposal)
  | OtherContent.

Definition Bech32IBCProposalHandler (content : Content) : KB W unit :=
  match content with
  | UpdateContent p => HandleUpdateHrpIbcChannelProposal p
  | DeleteContent p => HandleDeleteHrpIbcChannelProposal p
  | OtherContent => fail (ErrSdk "unrecognized bech32 ibc proposal content type")
  end.
End Keeper.
