(* ===== verification/Bech32IbcCorrect.v ===== *)
(** * The bech32ibc module implements a table of routes

    The abstract state is the chain's prefix and a map from foreign prefixes to
    records.  The store represents it, the proposals and the queries act on it, an
    export restores the store, no reachable state routes an invalid prefix or the
    chain's own, and the bridge forwards deposits along the routes. *)

From stdpp Require Import base gmap list strings sorting.
From S2P Require Import Prelude GoStd External Store Ethereum Keys OutgoingTx Valset Claims Keeper DelegateKeys Attestation Registry IbcForward Handler Bech32Ibc.

#[local] Open Scope Z_scope.

(** ** The abstract table *)

Record Routes := mkRoutes { rt_native : string; rt_table : gmap string HrpIbcRecord }.

Definition record_of (p : UpdateHrpIbcChannelProposal) : HrpIbcRecord :=
  mkHrpIbcRecord (up_Hrp p) (up_SourceChannel p) (up_IcsToHeightOffset p) (up_IcsToTimeOffset p).

Lemma record_key_native hrp : record_key hrp ≠ NativeHrpKey.
Proof. done. Qed.

Lemma record_key_inj a b : record_key a = record_key b → a = b.
Proof. intros E. by apply app_inv_head, bytes_of_string_inj in E. Qed.

Section Routes.
Context {W : Type} `{RecordCodecLaws} `{Channels W}.
Implicit Types (s : HState W) (t : Routes) (m : gmap bytes bytes).

(** Governance may set the route of a valid foreign prefix to an existing channel,
    and delete a route that there is. *)
Definition route_change (w : W) (c : Content) (t : Routes) : res Routes :=
  match c with
  | UpdateContent p =>
      _ ← ValidateHrp (up_Hrp p);
      if decide (up_Hrp p = rt_native t) then Er ErrInvalidHRP else
      if negb (GetChannel w (GetTransferPort w) (up_SourceChannel p)) then Er ErrInvalidIBCData else
      if decide (up_SourceChannel p = "") then Er ErrInvalidIBCData else
      _ ← Marshal (record_of p);
      Ok (mkRoutes (rt_native t) (<[up_Hrp p := record_of p]> (rt_table t)))
  | DeleteContent p =>
      _ ← ValidateHrp (dp_Hrp p);
      if decide (dp_Hrp p = rt_native t) then Er ErrInvalidHRP else
      match rt_table t !! dp_Hrp p with
      | None => Er ErrRecordNotFound
      | Some _ => Ok (mkRoutes (rt_native t) (delete (dp_Hrp p) (rt_table t)))
      end
  | OtherContent => Er (ErrSdk "unrecognized bech32 ibc proposal content type")
  end.

(** The store [m] holds the table [t] and nothing else. *)
Record represents m t : Prop := {
  rp_native : m !! NativeHrpKey = Some (bytes_of_string (rt_native t));
  rp_record hrp r : rt_table t !! hrp = Some r →
    hr_Hrp r = hrp ∧ ∃ b, Marshal r = Ok b ∧ m !! record_key hrp = Some b;
  rp_absent hrp : rt_table t !! hrp = None → m !! record_key hrp = None;
  rp_rest k : is_Some (m !! k) → k = NativeHrpKey ∨ ∃ hrp, k = record_key hrp }.

(** A table has one representation. *)
Lemma represents_unique m1 m2 t : represents m1 t → represents m2 t → m1 = m2.
Proof.
  intros R1 R2. apply map_eq. intros k.
  assert (∀ m m', represents m t → represents m' t → is_Some (m !! k) → m !! k = m' !! k) as Hk.
  { clear R1 R2. intros m m' R1 R2 [->|[hrp ->]]%(rp_rest _ _ R1).
    - by rewrite (rp_native _ _ R1), (rp_native _ _ R2).
    - destruct (rt_table t !! hrp) as [r|] eqn:E.
      + destruct (rp_record _ _ R1 _ _ E) as (_ & b & Hb & ->).
        destruct (rp_record _ _ R2 _ _ E) as (_ & b' & Hb' & ->). congruence.
      + by rewrite (rp_absent _ _ R1 _ E), (rp_absent _ _ R2 _ E). }
  destruct (m1 !! k) as [b|] eqn:E1; [rewrite <- E1; apply Hk; [done..|by rewrite E1]|].
  destruct (m2 !! k) as [b|] eqn:E2; [|done]. rewrite <- E1, <- E2. symmetry. apply Hk; [done..|by rewrite E2].
Qed.

Lemma represents_native hrp : represents {[ NativeHrpKey := bytes_of_string hrp ]} (mkRoutes hrp ∅).
Proof.
  split; cbn [rt_native rt_table].
  - by rewrite lookup_singleton_eq.
  - intros h r. by rewrite lookup_empty.
  - intros h _. apply lookup_singleton_ne. by apply not_eq_sym, record_key_native.
  - intros k [b [<- _]%lookup_singleton_Some]. by left.
Qed.

Lemma represents_set m t r b :
  represents m t → Marshal r = Ok b →
  represents (<[record_key (hr_Hrp r) := b]> m)
    (mkRoutes (rt_native t) (<[hr_Hrp r := r]> (rt_table t))).
Proof.
  intros Hm Hb. split; cbn [rt_native rt_table].
  - rewrite lookup_insert_ne by apply record_key_native. apply Hm.
  - intros hrp r' [[<- <-]|[Hne Hr]]%lookup_insert_Some.
    + split; [done|]. exists b. by rewrite lookup_insert_eq.
    + rewrite lookup_insert_ne by (by intros ?%record_key_inj). by apply (rp_record m t).
  - intros hrp [Hr Hne]%lookup_insert_None. rewrite lookup_insert_ne by (by intros ?%record_key_inj).
    by apply (rp_absent m t).
  - intros k [b' [[<- _]|[_ Hk]]%lookup_insert_Some]; [right; by eexists|]. by apply (rp_rest m t).
Qed.

Lemma represents_delete m t hrp :
  represents m t →
  represents (delete (record_key hrp) m) (mkRoutes (rt_native t) (delete hrp (rt_table t))).
Proof.
  intros Hm. split; cbn [rt_native rt_table].
  - rewrite lookup_delete_ne by apply record_key_native. apply Hm.
  - intros h r [Hne Hr]%lookup_delete_Some. rewrite lookup_delete_ne by (by intros ?%record_key_inj).
    by apply (rp_record m t).
  - intros h Hh. destruct (decide (hrp = h)) as [<-|Hne]; [apply lookup_delete_eq|].
    rewrite lookup_delete_ne in Hh by done. rewrite lookup_delete_ne by (by intros ?%record_key_inj).
    by apply (rp_absent m t).
  - intros k [b [_ Hk]%lookup_delete_Some]. by apply (rp_rest m t).
Qed.

(** ** Reading *)

Lemma GetNativeHrp_eq s t : represents (hs_store s) t → GetNativeHrp s = Ret (rt_native t) s.
Proof.
  intros Hm. unfold GetNativeHrp. rewrite (bind_ret _ _ s (hs_store s !! NativeHrpKey) s) by done.
  rewrite (rp_native _ _ Hm). by rewrite string_of_bytes_of_string.
Qed.

Lemma GetHrpIbcRecord_eq s t hrp :
  represents (hs_store s) t →
  GetHrpIbcRecord hrp s =
  match rt_table t !! hrp with Some r => Ret r s | None => Fail ErrRecordNotFound s end.
Proof.
  intros Hm. unfold GetHrpIbcRecord. rewrite (bind_ret _ _ s (hs_store s !! record_key hrp) s) by done.
  destruct (rt_table t !! hrp) as [r|] eqn:E; [|by rewrite (rp_absent _ _ Hm _ E)].
  destruct (rp_record _ _ Hm _ _ E) as (_ & b & Hb & ->). by rewrite (unmarshal_marshal r b Hb).
Qed.

(** The records, in the order of their prefixes. *)
Definition by_hrp (r1 r2 : HrpIbcRecord) : Prop :=
  bytes_lt (bytes_of_string (hr_Hrp r1)) (bytes_of_string (hr_Hrp r2)).
Definition lists_routes t (l : list HrpIbcRecord) : Prop :=
  StronglySorted by_hrp l ∧ ∀ r, r ∈ l ↔ rt_table t !! hr_Hrp r = Some r.

Lemma record_entry m t k b :
  represents m t → (k, b) ∈ sub_entries HrpIBCRecordStorePrefix m →
  ∃ r, Unmarshal b = Ok r ∧ k = bytes_of_string (hr_Hrp r) ∧ rt_table t !! hr_Hrp r = Some r.
Proof.
  intros Hm Hk%elem_of_sub_entries.
  destruct (rp_rest _ _ Hm (HrpIBCRecordStorePrefix ++ k)) as [E|[hrp E]]; [by eexists|done|].
  rewrite E in Hk. apply app_inv_head in E as ->.
  destruct (rt_table t !! hrp) as [r|] eqn:Er; [|by rewrite (rp_absent _ _ Hm _ Er) in Hk].
  destruct (rp_record _ _ Hm _ _ Er) as (<- & b' & Hb & Eb). rewrite Eb in Hk. injection Hk as <-.
  exists r. split_and!; [by apply unmarshal_marshal|done|done].
Qed.

Lemma read_entries s t (es : list (bytes * bytes)) acc :
  represents (hs_store s) t → es ⊆ sub_entries HrpIBCRecordStorePrefix (hs_store s) →
  ∃ l, for_acc es acc (λ kv records,
         record ← or_panic "Unmarshal" (Unmarshal kv.2); mret (records ++ [record], false)) s
       = Ret (acc ++ l) s ∧
    bytes_of_string ∘ hr_Hrp <$> l = es.*1 ∧ Forall (λ r, rt_table t !! hr_Hrp r = Some r) l.
Proof.
  intros Hm. revert acc. induction es as [|[k b] es IH]; intros acc Hes.
  { exists []. by rewrite app_nil_r. }
  destruct (record_entry _ _ k b Hm) as (r & Hr & -> & Ht); [apply Hes; by left|].
  destruct (IH (acc ++ [r])) as (l & E & Hk & Hl); [intros e He; apply Hes; by right|].
  exists (r :: l). cbn [for_acc snd]. rewrite Hr. cbn [or_panic].
  rewrite (bind_ret _ _ s (acc ++ [r], false) s) by done. rewrite E, <- app_assoc.
  cbn. by rewrite Hk; auto.
Qed.

Lemma GetHrpIbcRecords_eq s t :
  represents (hs_store s) t → ∃ l, GetHrpIbcRecords s = Ret l s ∧ lists_routes t l.
Proof.
  intros Hm. unfold GetHrpIbcRecords. set (es := sub_entries HrpIBCRecordStorePrefix (hs_store s)).
  destruct (read_entries s t es [] Hm) as (l & E & Hk & Hl); [done|]. exists l.
  rewrite (bind_ret _ _ s es s) by done. split; [exact E|]. rewrite Forall_forall in Hl. split.
  - pose proof (sub_entries_sorted HrpIBCRecordStorePrefix (hs_store s)) as Hs. fold es in Hs.
    apply (StronglySorted_fmap fst kv_lt bytes_lt) in Hs; [|done]. rewrite <- Hk in Hs.
    clear -Hs. induction l as [|r l IH]; [constructor|]. cbn in Hs. apply StronglySorted_inv in Hs as [Hs Hr].
    constructor; [by apply IH|]. by rewrite Forall_fmap in Hr.
  - intros r. split; [apply Hl|]. intros Hr. destruct (rp_record _ _ Hm _ _ Hr) as (_ & b & _ & Hb).
    apply elem_of_sub_entries in Hb. fold es in Hb. apply (list_elem_of_fmap_2 fst) in Hb.
    rewrite <- Hk in Hb. apply list_elem_of_fmap in Hb as (r' & Er & Hr').
    apply bytes_of_string_inj in Er. cbn in Er. specialize (Hl r' Hr'). rewrite <- Er, Hr in Hl.
    by injection Hl as ->.
Qed.

(** ** Writing *)

Lemma setHrpIbcRecord_eq s t r b :
  represents (hs_store s) t → hr_SourceChannel r ≠ "" → Marshal r = Ok b →
  ∃ s', setHrpIbcRecord r s = Ret tt s' ∧ hs_world s' = hs_world s ∧
    represents (hs_store s') (mkRoutes (rt_native t) (<[hr_Hrp r := r]> (rt_table t))).
Proof.
  intros Hm Hc Hb. unfold setHrpIbcRecord. rewrite bool_decide_false by done.
  rewrite (bind_ret _ _ s tt s) by done. rewrite Hb. rewrite (bind_ret _ _ s b s) by done.
  eexists. split; [done|]. split; [done|]. by apply represents_set.
Qed.

(** A proposal changes the table as governance may, or fails and changes nothing. *)
Lemma bech32ibc_steps s t c :
  represents (hs_store s) t →
  match route_change (hs_world s) c t with
  | Ok t' => ∃ s', Bech32IBCProposalHandler c s = Ret tt s' ∧ hs_world s' = hs_world s ∧
               represents (hs_store s') t'
  | Er e => Bech32IBCProposalHandler c s = Fail e s
  end.
Proof.
  intros Hm.
  destruct c as [p|p|]; cbn [route_change Bech32IBCProposalHandler]; [| |done].
  - unfold HandleUpdateHrpIbcChannelProposal. fold (record_of p).
    destruct (ValidateHrp (up_Hrp p)) as [[]|e]; cbn [of_res mbind res_bind]; [|done].
    rewrite (bind_ret _ _ s tt s), (bind_ret _ _ s (rt_native t) s) by (done || by apply GetNativeHrp_eq).
    case_decide as Hn; [by rewrite bool_decide_true|]. rewrite bool_decide_false by done.
    rewrite (bind_ret _ _ s tt s) by done. 
    rewrite (bind_ret _ _ s (GetChannel (hs_world s) (GetTransferPort (hs_world s)) (up_SourceChannel p)) s) by done.
    destruct (GetChannel _ _ _); cbn [negb]; [|done]. rewrite (bind_ret _ _ s tt s) by done.
    case_decide as Hc; [unfold setHrpIbcRecord; by rewrite bool_decide_true|].
    destruct (Marshal (record_of p)) as [b|e] eqn:Eb.
    2:{ unfold setHrpIbcRecord. rewrite bool_decide_false by done. rewrite (bind_ret _ _ s tt s) by done.
        by rewrite Eb. }
    cbn. by apply (setHrpIbcRecord_eq s t (record_of p) b).
  - unfold HandleDeleteHrpIbcChannelProposal.
    destruct (ValidateHrp (dp_Hrp p)) as [[]|e]; cbn [of_res mbind res_bind]; [|done].
    rewrite (bind_ret _ _ s tt s), (bind_ret _ _ s (rt_native t) s) by (done || by apply GetNativeHrp_eq).
    case_decide as Hn; [by rewrite bool_decide_true|]. rewrite bool_decide_false by done.
    rewrite (bind_ret _ _ s tt s) by done. unfold deleteHrpIbcRecord.
    set (key := record_key (dp_Hrp p)).
    rewrite (bind_ret _ _ s (bool_decide (is_Some (hs_store s !! key))) s) by done.
    destruct (rt_table t !! dp_Hrp p) as [r|] eqn:Er.
    + destruct (rp_record _ _ Hm _ _ Er) as (_ & b & _ & Hb). rewrite bool_decide_true by (by exists b).
      cbn [negb]. rewrite (bind_ret _ _ s tt s) by done. eexists. split; [done|]. split; [done|].
      by apply represents_delete.
    + subst key. rewrite (rp_absent _ _ Hm _ Er). done.
Qed.

(** C21. The store of the bech32ibc module implements a table of routes.  A proposal
    changes the table exactly as governance may: it sets the route of a valid prefix
    that is not the chain's own to an existing channel, or deletes a route that there
    is; in every other case it fails with the error of the first check that does not
    pass and changes nothing.  The queries answer from the table: the chain's prefix,
    the record of a prefix, and all records once each, by prefix. *)
Theorem bech32ibc_refines s t c :
  represents (hs_store s) t →
  match route_change (hs_world s) c t with
  | Ok t' => ∃ s', Bech32IBCProposalHandler c s = Ret tt s' ∧ hs_world s' = hs_world s ∧
               represents (hs_store s') t'
  | Er e => Bech32IBCProposalHandler c s = Fail e s
  end ∧
  QueryNativeHrp s = Ret (rt_native t) s ∧
  (∀ hrp, QueryHrpIbcRecord (Some hrp) s =
     match rt_table t !! hrp with Some r => Ret r s | None => Fail ErrRecordNotFound s end) ∧
  (∃ l, QueryHrpIbcRecords s = Ret l s ∧ lists_routes t l).
Proof.
  intros Hm. split_and!.
  - by apply bech32ibc_steps.
  - by apply GetNativeHrp_eq.
  - intros hrp. by apply GetHrpIbcRecord_eq.
  - by apply GetHrpIbcRecords_eq.
Qed.

(** ** Export and import *)

Definition set_route (T : gmap string HrpIbcRecord) (r : HrpIbcRecord) : gmap string HrpIbcRecord :=
  <[hr_Hrp r := r]> T.

Definition storable (r : HrpIbcRecord) : Prop := hr_SourceChannel r ≠ "" ∧ ∃ b, Marshal r = Ok b.

Lemma set_routes s t l :
  represents (hs_store s) t → Forall storable l →
  ∃ s', for_each l (λ record, must "failed to set hrp ibc record" (setHrpIbcRecord record)) s = Ret tt s' ∧
    hs_world s' = hs_world s ∧
    represents (hs_store s') (mkRoutes (rt_native t) (foldl set_route (rt_table t) l)).
Proof.
  intros Hm Hl. revert s t Hm. induction Hl as [|r l [Hc [b Hb]] Hl IH]; intros s t Hm.
  { exists s. by destruct t. }
  destruct (setHrpIbcRecord_eq s t r b Hm Hc Hb) as (s1 & E & Ew & Hm1).
  destruct (IH _ _ Hm1) as (s' & E' & Ew' & Hm'). exists s'.
  cbn [for_each]. rewrite (bind_ret _ _ s tt s1) by (unfold must; by rewrite E).
  split_and!; [done|congruence|done].
Qed.

(** A genesis is imported whenever its prefix is valid and its records can be
    stored; of several records for a prefix the last one counts. *)
Lemma InitGenesis_eq gs s :
  hs_store s = ∅ → ValidateHrp (gs_NativeHRP gs) = Ok tt → Forall storable (gs_HrpIBCRecords gs) →
  ∃ s', InitGenesis gs s = Ret tt s' ∧ hs_world s' = hs_world s ∧
    represents (hs_store s') (mkRoutes (gs_NativeHRP gs) (foldl set_route ∅ (gs_HrpIBCRecords gs))).
Proof.
  intros Hs Hv Hl. unfold InitGenesis, SetNativeHrp.
  set (s1 := on_store (insert NativeHrpKey (bytes_of_string (gs_NativeHRP gs))) s).
  rewrite (bind_ret _ _ s tt s1) by (unfold must; by rewrite Hv).
  assert (represents (hs_store s1) (mkRoutes (gs_NativeHRP gs) ∅)) as Hm.
  { cbn [hs_store s1 on_store]. rewrite Hs. apply represents_native. }
  unfold SetHrpIbcRecords.
  rewrite (bind_ret _ _ s1 (gs_NativeHRP gs) s1) by (unfold must; by rewrite (GetNativeHrp_eq _ _ Hm)).
  rewrite (bind_ret _ _ s1 tt s1) by done.
  destruct (set_routes s1 _ (gs_HrpIBCRecords gs) Hm Hl) as (s' & E & Ew & Hm'). by exists s'.
Qed.

Lemma lists_routes_fold t l :
  (∀ hrp r, rt_table t !! hrp = Some r → hr_Hrp r = hrp) → lists_routes t l →
  foldl set_route ∅ l = rt_table t.
Proof.
  intros Hown [_ Hl].
  assert (∀ l' T, T ⊆ rt_table t → (∀ r, r ∈ l' → r ∈ l) →
    T ⊆ foldl set_route T l' ∧ foldl set_route T l' ⊆ rt_table t ∧
    ∀ r, r ∈ l' → foldl set_route T l' !! hr_Hrp r = Some r) as Hf.
  { intros l'. induction l' as [|r l' IH]; intros T HT Hin; [split_and!; [done..|by intros r ?%not_elem_of_nil]|].
    assert (rt_table t !! hr_Hrp r = Some r) as Hr by (apply Hl, Hin; by left).
    assert (set_route T r ⊆ rt_table t) as HT' by (by apply insert_subseteq_l).
    assert (T ⊆ set_route T r) as HTr.
    { apply map_subseteq_spec. intros h x Hx. unfold set_route. rewrite lookup_insert_Some.
      pose proof (lookup_weaken _ _ _ _ Hx HT) as Hx'. destruct (decide (hr_Hrp r = h)) as [<-|]; [left|by right].
      split; congruence. }
    destruct (IH (set_route T r) HT') as (H1' & H2' & H3'); [intros y Hy; apply Hin; by right|].
    cbn [foldl]. split_and!; [by etrans|done|]. intros y [->|Hy]%elem_of_cons; [|by apply H3'].
    eapply lookup_weaken; [|exact H1']. apply lookup_insert_eq. }
  destruct (Hf l ∅) as (_ & Hsub & Hall); [apply map_empty_subseteq|done|].
  apply (anti_symm (⊆)); [done|]. apply map_subseteq_spec. intros hrp r Hr.
  rewrite <- (Hown hrp r Hr). apply Hall, Hl. by rewrite (Hown hrp r Hr).
Qed.

(** Export and import restore the store of the bech32ibc module byte for byte:
    from a state whose store holds a table with a valid prefix and records with
    channels, the export succeeds, and importing it into an empty store succeeds and
    gives the same store. *)
Theorem bech32ibc_genesis_roundtrip s t s0 :
  represents (hs_store s) t → ValidateHrp (rt_native t) = Ok tt →
  (∀ hrp r, rt_table t !! hrp = Some r → hr_SourceChannel r ≠ "") → hs_store s0 = ∅ →
  ∃ gs s', ExportGenesis s = Ret gs s ∧ InitGenesis gs s0 = Ret tt s' ∧ hs_store s' = hs_store s.
Proof.
  intros Hm Hv Hc H0'. destruct (GetHrpIbcRecords_eq s t Hm) as (l & E & Hl).
  exists (mkGenesisState (rt_native t) l).
  destruct (InitGenesis_eq (mkGenesisState (rt_native t) l) s0) as (s' & E' & _ & Hm'); [done..| |].
  { apply Forall_forall. intros r Hr%Hl. split; [by eapply Hc|].
    destruct (rp_record _ _ Hm _ _ Hr) as (_ & b & Hb & _). by exists b. }
  exists s'. split_and!; [|done|].
  - unfold ExportGenesis. rewrite (bind_ret _ _ _ _ _ E).
    by rewrite (bind_ret _ _ s (rt_native t) s) by (unfold must; by rewrite (GetNativeHrp_eq _ _ Hm)).
  - cbn [gs_NativeHRP gs_HrpIBCRecords] in Hm'.
    rewrite (lists_routes_fold t l) in Hm'; [|intros hrp r Hr; by apply (rp_record _ _ Hm)|done].
    destruct t as [native table]. by eapply represents_unique.
Qed.

(** ** Reachable states *)

(** Each route is of a valid prefix that is not the chain's own, and has a channel. *)
Definition routes_ok t : Prop :=
  ValidateHrp (rt_native t) = Ok tt ∧
  map_Forall (λ hrp r, ValidateHrp hrp = Ok tt ∧ hrp ≠ rt_native t ∧ hr_SourceChannel r ≠ "") (rt_table t).

(** What [GenesisState.Validate] does not check. *)
Definition genesis_ok (gs : GenesisState) : Prop :=
  ValidateHrp (gs_NativeHRP gs) = Ok tt ∧
  Forall (λ r, ValidateHrp (hr_Hrp r) = Ok tt ∧ hr_Hrp r ≠ gs_NativeHRP gs) (gs_HrpIBCRecords gs).

(** The states of the module: after the import of [gs], proposals change the store
    and everything else may change around it. *)
Inductive reachable (gs : GenesisState) : HState W → Prop :=
  | reach_init s s' : hs_store s = ∅ → InitGenesis gs s = Ret tt s' → reachable gs s'
  | reach_proposal s s' c : reachable gs s → Bech32IBCProposalHandler c s = Ret tt s' → reachable gs s'
  | reach_world s s' : reachable gs s → hs_store s' = hs_store s → reachable gs s'.

Lemma route_change_ok w c t t' :
  routes_ok t → route_change w c t = Ok t' → rt_native t' = rt_native t ∧ routes_ok t'.
Proof.
  intros [Hv Ht]. destruct c as [p|p|]; cbn [route_change]; [| |done].
  - destruct (ValidateHrp (up_Hrp p)) as [[]|] eqn:Ev; cbn; [|done]. case_decide as Hn; [done|].
    destruct (GetChannel _ _ _); cbn; [|done]. case_decide as Hc; [done|].
    destruct (Marshal _); cbn; [|done]. intros [= <-]. split; [done|]. split; [done|].
    by apply map_Forall_insert_2.
  - destruct (ValidateHrp (dp_Hrp p)) as [[]|] eqn:Ev; cbn; [|done]. case_decide as Hn; [done|].
    destruct (rt_table t !! dp_Hrp p); [|done]. intros [= <-]. split; [done|]. split; [done|].
    by apply map_Forall_delete.
Qed.

Lemma set_routes_inv l s s' u :
  for_each l (λ record, must "failed to set hrp ibc record" (setHrpIbcRecord record)) s = Ret u s' →
  Forall storable l.
Proof.
  revert s. induction l as [|r l IH]; intros s Hrun; [constructor|].
  cbn [for_each] in Hrun. mnext Hrun as x s1 E. apply must_inv in E. constructor; [|by eapply IH].
  unfold setHrpIbcRecord in E. mnext E as y s2 Ec. apply guard_err_inv in Ec as [Ec ->].
  mnext E as b s3 Eb. apply bool_decide_eq_false in Ec. split; [done|].
  destruct (Marshal r) as [b'|]; [by exists b'|done].
Qed.

Lemma bech32_InitGenesis_inv gs s s' u :
  InitGenesis gs s = Ret u s' →
  ValidateHrp (gs_NativeHRP gs) = Ok tt ∧ Forall storable (gs_HrpIBCRecords gs).
Proof.
  unfold InitGenesis. intros Hrun. mnext Hrun as x s1 E. apply must_inv in E.
  unfold SetHrpIbcRecords in Hrun. mnext Hrun as n s2 En. mnext Hrun as y s3 Ey.
  apply set_routes_inv in Hrun. split; [|done].
  unfold SetNativeHrp in E. by destruct (ValidateHrp (gs_NativeHRP gs)) as [[]|].
Qed.

Lemma fold_routes_ok native l T :
  ValidateHrp native = Ok tt → routes_ok (mkRoutes native T) → Forall storable l →
  Forall (λ r, ValidateHrp (hr_Hrp r) = Ok tt ∧ hr_Hrp r ≠ native) l →
  routes_ok (mkRoutes native (foldl set_route T l)).
Proof.
  intros Hn HT Hl. revert T HT. induction Hl as [|r l [Hc _] Hl IH]; intros T HT Hf; [done|].
  apply Forall_cons in Hf as [[Hv Hne] Hf]. apply IH; [|done]. split; [done|].
  apply map_Forall_insert_2; [done|apply HT].
Qed.

(** In every state that the bech32ibc module can reach from a genesis that routes
    neither an invalid prefix nor the chain's own, through any proposals and whatever
    the other modules do, the store holds a table in which every route has a channel
    and a valid prefix other than the chain's own, which is still that of the
    genesis. *)
Lemma bech32ibc_routes_valid gs s :
  genesis_ok gs → reachable gs s →
  ∃ t, represents (hs_store s) t ∧ rt_native t = gs_NativeHRP gs ∧ routes_ok t.
Proof.
  intros [Hv Hg]. induction 1 as [s s' Hs Hrun|s s' c _ (t & Hm & Hn & Ht) Hrun|s s' _ (t & Hm & Hn & Ht) Hs].
  - destruct (bech32_InitGenesis_inv _ _ _ _ Hrun) as [_ Hl].
    destruct (InitGenesis_eq gs s Hs Hv Hl) as (s1 & E & _ & Hm).
    rewrite E in Hrun. injection Hrun as <-. eexists. split; [exact Hm|]. split; [done|].
    apply fold_routes_ok; [done| |done|done]. split; [done|apply map_Forall_empty].
  - pose proof (bech32ibc_steps s t c Hm) as Hstep.
    destruct (route_change (hs_world s) c t) as [t'|e] eqn:E; [|by rewrite Hstep in Hrun].
    destruct Hstep as (s1 & E1 & _ & Hm1). rewrite E1 in Hrun. injection Hrun as <-.
    destruct (route_change_ok _ _ _ _ Ht E) as [En Hok]. exists t'. split_and!; [done|congruence|done].
  - exists t. by rewrite Hs.
Qed.
End Routes.

(** ** The bridge

    The bridge asks the bech32ibc module where a deposit goes.  A world that holds the
    module's store, with ibc-transfer and the community pool, provides what the bridge
    needs of them: the answers are those of the keeper above. *)

Class HrpHost (W : Type) := {
  hrp_store : W → gmap bytes bytes;
  host_GetPort : W → string;
  host_Transfer : MsgTransfer → W → option gerror * W;
  host_AddToFeePool : list Coin → W → option gerror * W;
  host_BlockTimeNano : W → Z;
}.

(** The answer of a query on a store. *)
Definition ask {A} (q : KB unit A) (m : gmap bytes bytes) : res A :=
  match q (mkHState m tt []) with
  | Ret a _ => Ok a | Fail e _ => Er e | Panic msg => Er (ErrSdk msg)
  end.

#[export] Instance routed_ibc {W} `{RecordCodec} `{HrpHost W} : Ibc W := {|
  External.GetNativeHrp w := ask GetNativeHrp (hrp_store w);
  External.GetHrpIbcRecord w hrp := ask (GetHrpSourceChannel hrp) (hrp_store w);
  GetPort := host_GetPort;
  Transfer := host_Transfer;
  AddToFeePool := host_AddToFeePool;
  BlockTimeNano := host_BlockTimeNano |}.

Section Deposits.
Context {W : Type} `{Geth} `{Sdk} `{Bech32} `{Hashing} `{Bank W} `{RecordCodecLaws} `{HrpHost W}.
Implicit Types (s : State W) (t : Routes).

Lemma ask_native m t : represents m t → ask GetNativeHrp m = Ok (rt_native t).
Proof. intros Hm. unfold ask. by rewrite (GetNativeHrp_eq (mkHState m tt []) t Hm). Qed.

Lemma ask_channel m t hrp :
  represents m t →
  ask (GetHrpSourceChannel hrp) m =
  match rt_table t !! hrp with Some r => Ok (hr_SourceChannel r) | None => Er ErrRecordNotFound end.
Proof.
  intros Hm. unfold ask, GetHrpSourceChannel, mbind, M_bind.
  rewrite (GetHrpIbcRecord_eq (mkHState m tt []) t hrp Hm). by destruct (rt_table t !! hrp).
Qed.

Lemma local_keeps_queue claim receiver coin s u s' :
  (_ ← sendCoinToLocalAddress claim receiver coin; mret false) s = Ret u s' →
  u = false ∧ st_kv s' = st_kv s.
Proof.
  intros Hrun. mnext Hrun as x s1 E. apply mret_inv in Hrun as [-> ->]. split; [done|].
  unfold sendCoinToLocalAddress in E. mnext E as cs s2 E2. apply opt_panic_inv in E2 as [_ ->].
  mnext E as sent s3 E3.
  assert (st_kv s3 = st_kv s) as <-.
  { revert E3. unfold try, call. destruct (SendCoinsFromModuleToAccount _ _ _ _) as [[]]; by intros [= _ <-]. }
  destruct sent as [[]|e]; [by injection E as _ <-|]. by mnext E as y s4 E4.
Qed.

Lemma queue_inv accountPrefix coin channel claim s u s' :
  addToIbcAutoForwardQueue accountPrefix coin channel claim s = Ret u s' →
  st_world s' = st_world s ∧
  kv_forwards (st_kv s') =
  <[GetPendingIbcAutoForwardKey (sc_EventNonce claim) :=
      mkPendingIbcAutoForward (sc_CosmosReceiver claim) coin channel (sc_EventNonce claim)]>
    (kv_forwards (st_kv s)).
Proof.
  unfold addToIbcAutoForwardQueue. intros Hrun. mnext Hrun as x1 s1 E1. apply guard_panic_inv in E1 as [_ ->].
  mnext Hrun as ap s1 E1. apply or_panic_inv in E1 as [_ ->].
  mnext Hrun as x2 s1 E1. apply guard_panic_inv in E1 as [_ ->].
  unfold addPendingIbcAutoForward in Hrun. mnext Hrun as x3 s1 E1. apply readonly_inv in E1 as ->.
  2:{ unfold ValidatePendingIbcAutoForward, GetLastObservedEventNonce. readonly. }
  mnext Hrun as has s1 E1. apply gets_inv in E1 as [_ ->].
  mnext Hrun as x4 s1 E1. apply guard_err_inv in E1 as [_ ->]. by injection Hrun as _ <-.
Qed.

(** Only a failure of the checks in front of the queue is not a panic, and it leaves
    the state alone. *)
Lemma queue_fails accountPrefix coin channel claim s e s' :
  addToIbcAutoForwardQueue accountPrefix coin channel claim s = Fail e s' → s' = s.
Proof.
  unfold addToIbcAutoForwardQueue, guard_panic, addPendingIbcAutoForward.
  destruct (blank accountPrefix); [done|]. rewrite (bind_ret _ _ s tt s) by done.
  destruct (GetPrefixFromBech32 (sc_CosmosReceiver claim)) as [ap|]; [|done].
  rewrite (bind_ret _ _ s ap s) by done. destruct (bool_decide _); [done|].
  rewrite (bind_ret _ _ s tt s) by done. set (fw := mkPendingIbcAutoForward _ _ _ _).
  assert (readonly (ValidatePendingIbcAutoForward fw : K W _)) as Hro.
  { unfold ValidatePendingIbcAutoForward, GetLastObservedEventNonce. readonly. }
  specialize (Hro s). unfold mbind at 1, M_bind at 1.
  destruct (ValidatePendingIbcAutoForward fw s) as [[] s1|e1 s1|msg]; [subst s1|subst s1; by intros [= _ <-]|done].
  cbv zeta. set (key := GetPendingIbcAutoForwardKey (pf_EventNonce fw)).
  rewrite (bind_ret _ _ s (bool_decide (is_Some (kv_forwards (st_kv s) !! key))) s) by done.
  destruct (bool_decide _); [by intros [= _ <-]|done].
Qed.

(** C22. The bridge and the bech32ibc module together: a deposit is forwarded to another
    chain exactly over the channel of the route that the module's reachable table has
    for the prefix of its receiver, a prefix that is never the chain's own; it is then
    queued under its event's nonce, and no coins move.  A deposit that is not
    forwarded leaves the queue alone. *)
Theorem deposits_follow_routes gs `{Channels U} (hs : HState U) claim receiver coin hrp s forwarded s' :
  genesis_ok gs → reachable gs hs → hrp_store (st_world s) = hs_store hs →
  GetPrefixFromBech32 (sc_CosmosReceiver claim) = Ok hrp →
  sendCoinToCosmosAccount claim receiver coin s = Ret forwarded s' →
  if (forwarded : bool) then
    ∃ r, QueryHrpIbcRecord (Some hrp) hs = Ret r hs ∧ hr_SourceChannel r ≠ "" ∧
      hrp ≠ gs_NativeHRP gs ∧ st_world s' = st_world s ∧
      kv_forwards (st_kv s') =
      <[GetPendingIbcAutoForwardKey (sc_EventNonce claim) :=
          mkPendingIbcAutoForward (sc_CosmosReceiver claim) coin (hr_SourceChannel r) (sc_EventNonce claim)]>
        (kv_forwards (st_kv s))
  else st_kv s' = st_kv s.
Proof.
  intros Hgs Hreach Hst Hp Hrun. destruct (bech32ibc_routes_valid gs hs Hgs Hreach) as (t & Hm & Hn & _ & Ht).
  rewrite <- Hst in Hm. unfold sendCoinToCosmosAccount in Hrun. rewrite Hp in Hrun.
  mnext Hrun as native s1 E1. apply gets_inv in E1 as [-> ->]. cbn [External.GetNativeHrp routed_ibc] in Hrun.
  rewrite (ask_native _ _ Hm) in Hrun. mnext Hrun as np s1 E1. apply or_panic_inv in E1 as [[= <-] ->].
  case_decide as Hd; [by apply local_keeps_queue in Hrun as [-> ->]|].
  mnext Hrun as rec s1 E1. apply gets_inv in E1 as [-> ->]. cbn [External.GetHrpIbcRecord routed_ibc] in Hrun.
  rewrite (ask_channel _ _ _ Hm) in Hrun. destruct (rt_table t !! hrp) as [r|] eqn:Er.
  2:{ mnext Hrun as h s1 E1. apply of_res_inv in E1 as [_ ->]. by apply local_keeps_queue in Hrun as [-> ->]. }
  mnext Hrun as q s1 E1. apply try_inv in E1 as [(u & -> & E)|(e & -> & E)].
  2:{ apply queue_fails in E as ->. by apply local_keeps_queue in Hrun as [-> ->]. }
  apply mret_inv in Hrun as [-> ->]. apply queue_inv in E as [Ew Ef]. exists r. rewrite Hst in Hm.
  split_and!; [|by apply (Ht hrp r Er)|congruence|done|done].
  cbn [QueryHrpIbcRecord]. rewrite (GetHrpIbcRecord_eq hs t hrp Hm). by rewrite Er.
Qed.
End Deposits.
