(* ===== verification/Queries.v ===== *)
(** * The queries of the bridge (keeper/grpc_query.go)

    What relayers, orchestrators and wallets ask a node.  A query returns the fields
    of its response or an error; [Query_X] is the keeper's method [X]. *)

From stdpp Require Import base gmap list strings.
From S2P Require Import Prelude GoStd External Store Ethereum Keys OutgoingTx Valset Claims Keeper DelegateKeys Attestation Registry ValsetKeeper IbcForward LogicCall Pool Batch.

#[local] Open Scope Z_scope.

Definition QUERY_ATTESTATIONS_LIMIT : Z := 1000.
Definition maxValsetRequestsReturned : Z := 5.
Definition MaxResults : Z := 100.

(** ** Requests and responses of more than one field *)

Record QueryAttestationsRequest := mkQueryAttestationsRequest {
  qa_Limit : Z; qa_OrderBy : string; qa_ClaimType : string; qa_Nonce : Z; qa_Height : Z;
  qa_UseV1Key : bool }.

Record QueryDenomToERC20Response := mkQueryDenomToERC20Response {
  qd_Erc20 : string; qd_CosmosOriginated : bool }.
Record QueryERC20ToDenomResponse := mkQueryERC20ToDenomResponse {
  qe_Denom : string; qe_CosmosOriginated : bool }.

Record QueryPendingSendToEthResponse := mkQueryPendingSendToEthResponse {
  ps_TransfersInBatches : list OutgoingTransferTx;
  ps_UnbatchedTransfers : list OutgoingTransferTx }.

(** typesv2 *)
Record OutgoingTransferAndBatch := mkOutgoingTransferAndBatch {
  tb_Transfer : OutgoingTransferTx; tb_Batch : OutgoingTxBatch }.
Record QueryPendingSendToEthV2Response := mkQueryPendingSendToEthV2Response {
  p2_TransfersInBatches : list OutgoingTransferAndBatch;
  p2_UnbatchedTransfers : list OutgoingTransferTx }.

(** The keys before the Mercury upgrade (migrations/v1/key.go) *)
Definition V1_OracleAttestationKey : bytes := bytes_of_string "OracleAttestationKey".
Definition V1_LastObservedEventNonceKey : bytes := bytes_of_string "LastObservedEventNonceKey".
Definition V1_LastObservedEthereumBlockHeightKey : bytes :=
  bytes_of_string "LastObservedEthereumBlockHeightKey".

(** The codec on the bytes stored under those keys; [None] where it panics. *)
Class V1Codec := {
  UnmarshalHeight : bytes → option LastObservedEthereumBlockHeight;
  UnmarshalAttestation : bytes → option Attestation;
}.

(** [ClaimType.String] *)
Definition ClaimType_String (t : ClaimType) : string :=
  match t with
  | CLAIM_TYPE_UNSPECIFIED => "CLAIM_TYPE_UNSPECIFIED"
  | CLAIM_TYPE_SEND_TO_COSMOS => "CLAIM_TYPE_SEND_TO_COSMOS"
  | CLAIM_TYPE_BATCH_SEND_TO_ETH => "CLAIM_TYPE_BATCH_SEND_TO_ETH"
  | CLAIM_TYPE_ERC20_DEPLOYED => "CLAIM_TYPE_ERC20_DEPLOYED"
  | CLAIM_TYPE_LOGIC_CALL_EXECUTED => "CLAIM_TYPE_LOGIC_CALL_EXECUTED"
  | CLAIM_TYPE_VALSET_UPDATED => "CLAIM_TYPE_VALSET_UPDATED"
  end.

(** [strings.EqualFold] of ASCII strings *)
Definition EqualFold (s t : string) : bool := bool_decide (ToLower s = ToLower t).

Definition ErrInvalidRequest : gerror := ErrSdk "ErrInvalidRequest".
Definition ErrUnknownRequest : gerror := ErrSdk "ErrUnknownRequest".
Definition ErrInvalidAddress : gerror := ErrSdk "ErrInvalidAddress".

Section Queries.
Context {W : Type} `{Geth} `{Sdk} `{Bank W} `{Staking W} `{EthAbi} `{Codec} `{V1Codec}.

(** A bech32 address in a request. *)
Definition request_address (address : string) : K W bytes :=
  match AccAddressFromBech32 address with
  | Er _ => fail ErrInvalidRequest
  | Ok addr => mret addr
  end.

(** ** Parameters and validator sets *)

Definition Query_Params : K W Params :=
  params ← try GetParams;
  match params with Er _ => fail ErrInvalidRequest | Ok params => mret params end.

Definition Query_CurrentValset : K W Valset := GetCurrentValset.

Definition Query_ValsetRequest (nonce : Z) : K W (option Valset) := GetValset nonce.

Definition Query_ValsetConfirm (nonce : Z) (address : string) : K W (option MsgValsetConfirm) :=
  addr ← request_address address;
  GetValsetConfirm nonce addr.

Definition Query_ValsetConfirmsByNonce (nonce : Z) : K W (list MsgValsetConfirm) :=
  GetValsetConfirms nonce.

Definition Query_LastValsetRequests : K W (list Valset) :=
  valReq ← GetValsets;
  let valReqLen := Z.of_nat (length valReq) in
  let retLen := if valReqLen <? maxValsetRequestsReturned then valReqLen
                else maxValsetRequestsReturned in
  mret (take (Z.to_nat retLen) valReq).

Definition Query_LastPendingValsetRequestByAddr (address : string) : K W (list Valset) :=
  addr ← request_address address;
  IterateValsets [] (λ val pendingValsetReq,
    confirm ← GetValsetConfirm (vs_Nonce val) addr;
    let foundConfirm := bool_decide (is_Some confirm) in
    let pendingValsetReq := if foundConfirm then pendingValsetReq else pendingValsetReq ++ [val] in
    mret (pendingValsetReq, 100 <? Z.of_nat (length pendingValsetReq))).

(** ** Batches and logic calls *)

Definition Query_BatchFees : K W (list BatchFees) := GetAllBatchFees OutgoingTxBatchSize.

Definition Query_LastPendingBatchRequestByAddr (address : string) : K W (list OutgoingTxBatch) :=
  addr ← request_address address;
  pendingBatchReq ← IterateOutgoingTxBatches [] (λ batch pendingBatchReq,
    confirm ← GetBatchConfirm (ib_BatchNonce batch) (ib_TokenContract batch) addr;
    if bool_decide (is_Some confirm) then mret (pendingBatchReq, false)
    else mret (pendingBatchReq ++ [batch], true));
  mret (InternalOutgoingTxBatch_ToExternal <$> pendingBatchReq).

Definition Query_LastPendingLogicCallByAddr (address : string) : K W (list OutgoingLogicCall) :=
  addr ← request_address address;
  IterateOutgoingLogicCalls [] (λ _ logic pendingLogicReq,
    confirm ← GetLogicCallConfirm (lc_InvalidationId logic) (lc_InvalidationNonce logic) addr;
    if bool_decide (is_Some confirm) then mret (pendingLogicReq, false)
    else mret (pendingLogicReq ++ [logic], true)).

Definition Query_OutgoingTxBatches : K W (list OutgoingTxBatch) :=
  IterateOutgoingTxBatches [] (λ batch batches,
    let batches := batches ++ [InternalOutgoingTxBatch_ToExternal batch] in
    mret (batches, Z.of_nat (length batches) =? MaxResults)).

Definition Query_OutgoingLogicCalls : K W (list OutgoingLogicCall) :=
  IterateOutgoingLogicCalls [] (λ _ call calls,
    let calls := calls ++ [call] in
    mret (calls, Z.of_nat (length calls) =? MaxResults)).

Definition Query_BatchRequestByNonce (contractAddress : string) (nonce : Z) : K W OutgoingTxBatch :=
  match NewEthAddress contractAddress with
  | Er _ => fail ErrUnknownRequest
  | Ok addr =>
      foundBatch ← GetOutgoingTXBatch addr nonce;
      match foundBatch with
      | None => fail ErrUnknownRequest
      | Some batch => mret (InternalOutgoingTxBatch_ToExternal batch)
      end
  end.

Definition Query_BatchConfirms (contractAddress : string) (nonce : Z) : K W (list MsgConfirmBatch) :=
  contract ← of_res (NewEthAddress contractAddress);
  GetBatchConfirmByNonceAndTokenContract nonce contract.

Definition Query_LogicConfirms (invalidationId : bytes) (invalidationNonce : Z)
    : K W (list MsgConfirmLogicCall) :=
  GetLogicConfirmsByInvalidationIdAndNonce invalidationId invalidationNonce.

(** ** The oracle *)

Definition Query_LastEventNonceByAddr (address : string) : K W Z :=
  match AccAddressFromBech32 address with
  | Er _ => fail ErrInvalidAddress
  | Ok addr =>
      validator ← GetOrchestratorValidator addr;
      match validator with
      | None => fail ErrUnknown
      | Some validator =>
          match ValAddressFromBech32 (v_OperatorAddress validator) with
          | Er _ => fail ErrInvalidAddress
          | Ok operator =>
              _ ← of_res (VerifyAddressFormat operator);
              GetLastEventNonceByValidator operator
          end
      end
  end.

Definition GetOldLastObservedEthereumBlockHeight : K W LastObservedEthereumBlockHeight :=
  bz ← raw_get V1_LastObservedEthereumBlockHeightKey;
  if decide (default [] bz = []) then mret (mkEthHeight 0 0)
  else opt_panic "MustUnmarshal" (UnmarshalHeight (default [] bz)).

Definition Query_GetLastObservedEthBlock (useV1Key : bool) : K W Z :=
  ethHeight ← (if useV1Key then GetOldLastObservedEthereumBlockHeight
               else GetLastObservedEthereumBlockHeight);
  mret (EthereumBlockHeight ethHeight).

Definition GetOldLastObservedEventNonce : K W Z :=
  bz ← raw_get V1_LastObservedEventNonceKey;
  if decide (default [] bz = []) then mret 0
  else opt_panic "Invalid uint64 bytes" (UInt64FromBytesUnsafe (default [] bz)).

Definition Query_GetLastObservedEthNonce (useV1Key : bool) : K W Z :=
  if useV1Key then GetOldLastObservedEventNonce else GetLastObservedEventNonce.

Definition IterateOldAttestations {B} (reverse : bool) (acc : B)
    (cb : bytes → Attestation → B → K W (B * bool)) : K W B :=
  entries ← gets (λ s, let r := prefixRange V1_OracleAttestationKey in
                       if reverse then iter_desc (kv_raw (st_kv s)) r
                       else iter_asc (kv_raw (st_kv s)) r);
  for_acc entries acc (λ kv acc,
    att ← opt_panic "MustUnmarshal" (UnmarshalAttestation kv.2);
    cb kv.1 att acc).

(** Whether a claim is asked for: without a filter, or when it matches one of the
    request's fields. *)
Definition attestation_matches (req : QueryAttestationsRequest) (claim : EthereumClaim) : bool :=
  let filter := (0 <? qa_Height req) || (0 <? qa_Nonce req) || bool_decide (qa_ClaimType req ≠ "") in
  if filter && (GetEthBlockHeight claim =? qa_Height req) then true else
  if filter && (GetEventNonce claim =? qa_Nonce req) then true else
  if filter && bool_decide (ClaimType_String (GetType claim) = qa_ClaimType req) then true else
  negb filter.

Definition attestation_limit (req : QueryAttestationsRequest) : Z :=
  if (qa_Limit req =? 0) || (QUERY_ATTESTATIONS_LIMIT <? qa_Limit req)
  then QUERY_ATTESTATIONS_LIMIT else qa_Limit req.

(** The accumulator holds [attestations], [count] and whether [iterErr] was set. *)
Definition Query_GetAttestations (req : QueryAttestationsRequest) : K W (list Attestation) :=
  let iterator := if qa_UseV1Key req then IterateOldAttestations else IterateAttestations in
  let limit := attestation_limit req in
  let reverse := EqualFold (qa_OrderBy req) "desc" in
  result ← iterator reverse ([] : list Attestation, 0, false) (λ _ att acc,
    let '(attestations, count, iterErr) := acc in
    match UnpackAttestationClaim att with
    | Er _ => mret ((attestations, count, true), true)
    | Ok claim =>
        if attestation_matches req claim
        then mret ((attestations ++ [att], u64 (count + 1), iterErr), limit <=? u64 (count + 1))
        else mret (acc, false)
    end);
  let '(attestations, _, iterErr) := result in
  if (iterErr : bool) then fail (ErrSdk "ErrUnpackAny") else mret attestations.

(** ** Denoms *)

Definition is_cosmos (o : AssetOrigin) : bool :=
  bool_decide (ao_Origin o = AssetOriginCosmos).

Definition Query_DenomToERC20 (denom : string) : K W QueryDenomToERC20Response :=
  _ ← of_res (ValidateStrictDenom denom);
  origin ← ClassifyDenom denom;
  erc20 ← opt_panic "nil ERC20" (ao_ERC20 origin);
  mret (mkQueryDenomToERC20Response (Hex (GetAddress erc20)) (is_cosmos origin)).

Definition Query_ERC20ToDenom (erc20 : string) : K W QueryERC20ToDenomResponse :=
  ethAddr ← of_res (NewEthAddress erc20);
  erc20Origin ← ClassifyERC20 ethAddr;
  mret (mkQueryERC20ToDenomResponse (ao_Denom erc20Origin) (is_cosmos erc20Origin)).

Definition Query_CosmosBridgeableTokens : K W (list Metadata) := GetAllCosmosBridgeableTokens.

(** ** Delegate keys *)

Definition Query_GetDelegateKeyByValidator (validatorAddress : string) : K W (string * string) :=
  keys ← GetDelegateKeys;
  reqValidator ← of_res (ValAddressFromBech32 validatorAddress);
  found ← for_acc keys None (λ key found,
    keyValidator ← or_panic "Invalid validator addr in store!" (ValAddressFromBech32 (so_Validator key));
    if decide (reqValidator = keyValidator)
    then mret (Some (so_EthAddress key, so_Orchestrator key), true) else mret (found, false));
  match found with Some r => mret r | None => fail ErrInvalid end.

Definition Query_GetDelegateKeyByOrchestrator (orchestratorAddress : string) : K W (string * string) :=
  keys ← GetDelegateKeys;
  reqOrchestrator ← of_res (AccAddressFromBech32 orchestratorAddress);
  found ← for_acc keys None (λ key found,
    keyOrchestrator ← or_panic "Invalid orchestrator addr in store!"
                        (AccAddressFromBech32 (so_Orchestrator key));
    if decide (reqOrchestrator = keyOrchestrator)
    then mret (Some (so_Validator key, so_EthAddress key), true) else mret (found, false));
  match found with Some r => mret r | None => fail ErrInvalid end.

Definition Query_GetDelegateKeyByEth (ethAddress : string) : K W (string * string) :=
  keys ← GetDelegateKeys;
  _ ← of_res (ValidateEthAddress ethAddress);
  found ← for_acc keys None (λ key found,
    if decide (ethAddress = so_EthAddress key)
    then mret (Some (so_Validator key, so_Orchestrator key), true) else mret (found, false));
  match found with Some r => mret r | None => fail ErrInvalid end.

(** ** Transfers in flight *)

Definition sent_by (senderAddress : string) (tx : InternalOutgoingTransferTx) : Prop :=
  AccAddressString (tx_Sender tx) = senderAddress.
#[global] Instance sent_by_dec senderAddress tx : Decision (sent_by senderAddress tx).
Proof. unfold sent_by. apply _. Defined.

(** No sender is asked for, or the one of the transfer. *)
Definition wanted_by (senderAddress : string) (tx : InternalOutgoingTransferTx) : Prop :=
  senderAddress = "" ∨ sent_by senderAddress tx.
#[global] Instance wanted_by_dec senderAddress tx : Decision (wanted_by senderAddress tx).
Proof. unfold wanted_by. apply _. Defined.

Definition Query_GetPendingSendToEth (senderAddress : string) : K W QueryPendingSendToEthResponse :=
  batches ← GetOutgoingTxBatches;
  unbatchedTxs ← GetUnbatchedTransactions;
  mret (mkQueryPendingSendToEthResponse
    (InternalOutgoingTransferTx_ToExternal <$> (batches ≫= λ batch, filter (wanted_by senderAddress) (ib_Transactions batch)))
    (InternalOutgoingTransferTx_ToExternal <$> filter (wanted_by senderAddress) unbatchedTxs)).

Definition Query_GetPendingIbcAutoForwards (limit : Z) : K W (list PendingIbcAutoForward) :=
  PendingIbcAutoForwards_list limit.

Definition in_batch (batch : InternalOutgoingTxBatch) (tx : InternalOutgoingTransferTx)
    : OutgoingTransferAndBatch :=
  mkOutgoingTransferAndBatch (InternalOutgoingTransferTx_ToExternal tx)
    (InternalOutgoingTxBatch_ToExternal batch).

Definition Query_GetPendingSendToEthV2 : K W QueryPendingSendToEthV2Response :=
  batches ← GetOutgoingTxBatches;
  unbatchedTxs ← GetUnbatchedTransactions;
  mret (mkQueryPendingSendToEthV2Response
    (batches ≫= λ batch, in_batch batch <$> ib_Transactions batch)
    (InternalOutgoingTransferTx_ToExternal <$> unbatchedTxs)).

Definition Query_GetPendingSendToEthV2BySender (senderAddress : string)
    : K W QueryPendingSendToEthV2Response :=
  batches ← GetOutgoingTxBatches;
  unbatchedTxs ← GetUnbatchedTransactions;
  mret (mkQueryPendingSendToEthV2Response
    (batches ≫= λ batch, in_batch batch <$> filter (sent_by senderAddress) (ib_Transactions batch))
    (InternalOutgoingTransferTx_ToExternal <$> filter (sent_by senderAddress) unbatchedTxs)).

Definition Query_GetOutgoingTxBatchesByAddr (address : string) : K W (list OutgoingTxBatch) :=
  IterateOutgoingTxBatches [] (λ batch batches,
    if decide (Hex (GetAddress (ib_TokenContract batch)) = address) then
      let batches := batches ++ [InternalOutgoingTxBatch_ToExternal batch] in
      mret (batches, Z.of_nat (length batches) =? MaxResults)
    else mret (batches, false)).
End Queries.
