(* ===== verification/QueriesCorrect.v ===== *)
(** * The queries tell the truth

    What orchestrators are told to sign, what senders are told about their transfers,
    and which attestations are listed: each query equals a plain definition on the
    stored objects. *)

From stdpp Require Import base gmap list strings sorting.
From S2P Require Import Prelude GoStd External Store Ethereum Keys OutgoingTx Valset Claims Keeper DelegateKeys Attestation Registry ValsetKeeper IbcForward LogicCall Pool Batch Transfers BatchCorrect AuditCorrect RecoveryRefund Queries.

#[local] Open Scope Z_scope.

(** ** Loops that select *)

(** A loop that collects the elements that satisfy [P], at most [n] of them. *)
Lemma for_acc_select {S A B} (P : A → Prop) `{∀ x, Decision (P x)} (f : A → B) (n : nat) (l : list A)
    (body : A → list B → M S (list B * bool)) s acc :
  (length acc < n)%nat →
  (∀ x acc, x ∈ l → (length acc < n)%nat →
     body x acc s = Ret (if decide (P x) then (acc ++ [f x], bool_decide (n ≤ length (acc ++ [f x]))%nat)
                         else (acc, false)) s) →
  for_acc l acc body s = Ret (acc ++ (f <$> take (n - length acc) (filter P l))) s.
Proof.
  revert acc. induction l as [|x l IH]; intros acc Hn Hbody.
  { cbn. by rewrite take_nil, app_nil_r. }
  cbn [for_acc]. rewrite (bind_ret _ _ _ _ _ (Hbody x acc (list_elem_of_here _ _) Hn)), filter_cons.
  assert (∀ y acc, y ∈ l → (length acc < n)%nat →
     body y acc s = Ret (if decide (P y) then (acc ++ [f y], bool_decide (n ≤ length (acc ++ [f y]))%nat)
                         else (acc, false)) s) as Hb' by (intros y acc' Hy; apply Hbody; by right).
  case_decide as HP; [|by apply IH].
  rewrite length_app. cbn [length]. case_bool_decide as Hlen.
  - replace (n - length acc)%nat with 1%nat by lia. done.
  - rewrite IH; [|rewrite length_app; cbn [length]; lia|done]. rewrite <- app_assoc. do 2 f_equal.
    rewrite length_app. cbn [length].
    replace (n - length acc)%nat with (Datatypes.S (n - (length acc + 1)))%nat by lia. done.
Qed.

(** Selecting entries by their values is selecting values. *)
Lemma select_values {K V} (P : V → Prop) `{∀ x, Decision (P x)} (n : nat) (l : list (K * V)) :
  snd <$> take n (filter (λ kv, P kv.2) l) = take n (filter P l.*2).
Proof.
  rewrite fmap_take. f_equal. induction l as [|kv l IH]; [done|].
  cbn [fmap list_fmap]. rewrite !filter_cons. by case_decide; cbn [fmap list_fmap]; rewrite IH.
Qed.

Lemma is_Some_None {A} (o : option A) : bool_decide (is_Some o) = negb (bool_decide (o = None)).
Proof. by destruct o. Qed.

Section Queries.
Context {W : Type} `{GethLaws} `{SdkLaws} `{Bank W} `{Staking W} `{EthAbi} `{Codec} `{V1Codec}.
Implicit Types s : State W.

(** ** Signing *)

Definition valset_confirm s (addr : bytes) (v : Valset) : option MsgValsetConfirm :=
  GetValsetConfirmKey (vs_Nonce v) addr ≫= λ key, kv_valsetConfirms (st_kv s) !! key.
Definition batch_confirm s (addr : bytes) (b : InternalOutgoingTxBatch) : option MsgConfirmBatch :=
  GetBatchConfirmKey (ib_TokenContract b) (ib_BatchNonce b) addr ≫= λ key,
    kv_batchConfirms (st_kv s) !! key.
Definition call_confirm s (addr : bytes) (c : OutgoingLogicCall) : option MsgConfirmLogicCall :=
  GetLogicConfirmKey (lc_InvalidationId c) (lc_InvalidationNonce c) addr ≫= λ key,
    kv_logicConfirms (st_kv s) !! key.

Definition unsigned_valset s addr v : Prop := valset_confirm s addr v = None.
Definition unsigned_batch s addr b : Prop := batch_confirm s addr b = None.
Definition unsigned_call s addr c : Prop := call_confirm s addr c = None.
#[global] Instance unsigned_valset_dec s addr v : Decision (unsigned_valset s addr v) :=
  option_eq_None_dec _.
#[global] Instance unsigned_batch_dec s addr b : Decision (unsigned_batch s addr b) :=
  option_eq_None_dec _.
#[global] Instance unsigned_call_dec s addr c : Decision (unsigned_call s addr c) :=
  option_eq_None_dec _.

(** The stored validator sets, the newest first, and the stored calls. *)
Definition valset_list s : list Valset := (iter_desc (kv_valsets (st_kv s)) (None, None)).*2.
Definition call_list s : list OutgoingLogicCall := (iter_asc (kv_logicCalls (st_kv s)) (None, None)).*2.

Lemma confirm_key_verified (addr x : bytes) :
  VerifyAddressFormat addr = Ok tt → verified addr x = Some x.
Proof. unfold verified. by intros ->. Qed.

Lemma GetValsetConfirm_eq s addr v :
  VerifyAddressFormat addr = Ok tt →
  GetValsetConfirm (vs_Nonce v) addr s = Ret (valset_confirm s addr v) s.
Proof.
  intros Ha. unfold GetValsetConfirm, valset_confirm, GetValsetConfirmKey. rewrite Ha. cbn [is_ok negb].
  by rewrite confirm_key_verified.
Qed.
Lemma GetBatchConfirm_eq s addr b :
  VerifyAddressFormat addr = Ok tt →
  GetBatchConfirm (ib_BatchNonce b) (ib_TokenContract b) addr s = Ret (batch_confirm s addr b) s.
Proof.
  intros Ha. unfold GetBatchConfirm, batch_confirm, GetBatchConfirmKey. rewrite Ha. cbn [is_ok negb].
  by rewrite confirm_key_verified.
Qed.
Lemma GetLogicCallConfirm_eq s addr c :
  VerifyAddressFormat addr = Ok tt →
  GetLogicCallConfirm (lc_InvalidationId c) (lc_InvalidationNonce c) addr s = Ret (call_confirm s addr c) s.
Proof.
  intros Ha. unfold GetLogicCallConfirm, call_confirm, GetLogicConfirmKey. rewrite Ha. cbn [is_ok negb].
  by rewrite confirm_key_verified.
Qed.

(** C23. The queries that orchestrators work from never ask for a signature that was
    given, and each answers with something as long as a stored item of its kind
    lacks the orchestrator's signature.  Of the stored validator sets that it has
    not confirmed, all are returned up to the newest 101 (a comment in the source
    speaks of the first one only, see the findings); of the unconfirmed batches one,
    the last of the store; of the unconfirmed logic calls one, the first of the
    store.  Reading changes nothing. *)
Theorem signing_queries_complete s address addr :
  transfers_ok s → AccAddressFromBech32 address = Ok addr →
  Query_LastPendingValsetRequestByAddr address s =
    Ret (take 101 (filter (unsigned_valset s addr) (valset_list s))) s ∧
  Query_LastPendingBatchRequestByAddr address s =
    Ret (InternalOutgoingTxBatch_ToExternal <$>
         take 1 (filter (unsigned_batch s addr) (batch_list (kv_batches (st_kv s))))) s ∧
  Query_LastPendingLogicCallByAddr address s =
    Ret (take 1 (filter (unsigned_call s addr) (call_list s))) s.
Proof.
  intros Hs Haddr. pose proof (acc_bech32_verified _ _ Haddr) as Hv.
  assert (request_address address s = Ret addr s) as Er by (unfold request_address; by rewrite Haddr).
  split_and!.
  - unfold Query_LastPendingValsetRequestByAddr. rewrite (bind_ret _ _ _ _ _ Er). unfold IterateValsets.
    rewrite (bind_ret _ _ s (iter_desc (kv_valsets (st_kv s)) (None, None)) s) by done.
    rewrite (for_acc_select (λ kv, unsigned_valset s addr kv.2) snd 101);
      [cbn [app]; f_equal; apply (select_values (unsigned_valset s addr))|cbn; lia|].
    intros [k v] acc _ Hlen. cbn [snd]. rewrite (bind_ret _ _ _ _ _ (GetValsetConfirm_eq s addr v Hv)), is_Some_None.
    case_decide as E; unfold unsigned_valset, unsigned_batch, unsigned_call in E; [rewrite bool_decide_true by done|rewrite bool_decide_false by done]; cbn [negb id].
    + unfold mret, M_ret. do 3 f_equal. rewrite length_app. cbn [length].
      destruct (Z.ltb_spec 100 (Z.of_nat (length acc + 1))); symmetry; [apply bool_decide_true|apply bool_decide_false]; lia.
    + unfold mret, M_ret. do 3 f_equal. apply Z.ltb_ge. lia.
  - unfold Query_LastPendingBatchRequestByAddr. rewrite (bind_ret _ _ _ _ _ Er).
    rewrite (bind_ret _ _ s (take 1 (filter (unsigned_batch s addr)
               (batch_list (kv_batches (st_kv s))))) s); [done|].
    rewrite iterate_batches_eq by apply Hs.
    rewrite (for_acc_select (unsigned_batch s addr) id 1); [by rewrite list_fmap_id|cbn; lia|].
    intros b acc _ Hlen. rewrite (bind_ret _ _ _ _ _ (GetBatchConfirm_eq s addr b Hv)), is_Some_None.
    case_decide as E; unfold unsigned_valset, unsigned_batch, unsigned_call in E; [rewrite bool_decide_true by done|by rewrite bool_decide_false].
    cbn [negb id]. rewrite bool_decide_true; [done|]. rewrite length_app. cbn. lia.
  - unfold Query_LastPendingLogicCallByAddr. rewrite (bind_ret _ _ _ _ _ Er). unfold IterateOutgoingLogicCalls.
    rewrite (bind_ret _ _ s (iter_asc (kv_logicCalls (st_kv s)) (None, None)) s) by done.
    rewrite (for_acc_select (λ kv, unsigned_call s addr kv.2) snd 1);
      [cbn [app]; f_equal; apply (select_values (unsigned_call s addr))|cbn; lia|].
    intros [k c] acc _ Hlen. cbn [snd]. rewrite (bind_ret _ _ _ _ _ (GetLogicCallConfirm_eq s addr c Hv)), is_Some_None.
    case_decide as E; unfold unsigned_valset, unsigned_batch, unsigned_call in E; [rewrite bool_decide_true by done|by rewrite bool_decide_false].
    cbn [negb id]. rewrite bool_decide_true; [done|]. rewrite length_app. cbn. lia.
Qed.

(** ** Transfers in flight *)

Lemma GetUnbatchedTransactions_eq s :
  transfers_ok s →
  GetUnbatchedTransactions s = Ret (pool_list (kv_pool (st_kv s)) OutgoingTXPoolKey) s.
Proof.
  intros Hs. unfold GetUnbatchedTransactions, collectUnbatchedTransactions.
  rewrite iterate_pool_eq by apply Hs. apply for_acc_collect.
Qed.

(** All transfers of the pool, in the order of the store. *)
Lemma pool_list_all s :
  transfers_ok s → pool_list (kv_pool (st_kv s)) OutgoingTXPoolKey ≡ₚ pool_txs (kv_pool (st_kv s)).
Proof. intros Hs. unfold pool_list, pool_txs. by rewrite iter_desc_pool by apply Hs. Qed.

Lemma filter_batches (P : InternalOutgoingTransferTx → Prop) `{∀ x, Decision (P x)} (l : list InternalOutgoingTxBatch) :
  (l ≫= λ b, filter P (ib_Transactions b)) = filter P (l ≫= ib_Transactions).
Proof. induction l as [|b l IH]; [done|]. cbn [mbind list_bind]. by rewrite filter_app, IH. Qed.

(** Both versions list the batched transfers in the same order. *)
Lemma in_batches_transfers (bs : list InternalOutgoingTxBatch)
    (f g : list InternalOutgoingTransferTx → list InternalOutgoingTransferTx) :
  (∀ b, g (ib_Transactions b) = f (ib_Transactions b)) →
  tb_Transfer <$> (bs ≫= λ b, in_batch b <$> f (ib_Transactions b)) =
  InternalOutgoingTransferTx_ToExternal <$> (bs ≫= λ b, g (ib_Transactions b)).
Proof.
  intros Hfg. induction bs as [|b bs IH]; [done|].
  cbn [mbind list_bind]. rewrite !fmap_app, IH, Hfg. f_equal. by rewrite <- list_fmap_compose.
Qed.

(** No transfer was sent by the empty string. *)
Lemma unsent_by_empty s :
  transfers_ok s →
  ((∀ a, AccAddressFromBech32 "" ≠ Ok a) →
   filter (sent_by "") (pool_list (kv_pool (st_kv s)) OutgoingTXPoolKey) = []) ∧
  (∀ b, b ∈ batch_list (kv_batches (st_kv s)) → (∀ a, AccAddressFromBech32 "" ≠ Ok a) →
   filter (sent_by "") (ib_Transactions b) = []).
Proof.
  intros Hs. assert (∀ t, tx_ok t → (∀ a, AccAddressFromBech32 "" ≠ Ok a) → ¬ sent_by "" t) as Ht.
  { intros t (_ & Hv & _) He Hsent. unfold sent_by in Hsent. cbn in Hsent.
    apply (He (tx_Sender t)). rewrite <- Hsent. by apply acc_bech32_roundtrip. }
  split.
  - intros He. apply list_filter_none, Forall_forall. intros t Hin. apply Ht; [|done].
    rewrite pool_list_all in Hin by done. by apply elem_of_pool_txs in Hin as [[? _] _]; [|apply Hs].
  - intros b Hb He. apply list_filter_none, Forall_forall. intros t Hin. apply Ht; [|done].
    apply elem_of_batch_list in Hb as [(_ & _ & Hf) _]; [|apply Hs].
    rewrite Forall_forall in Hf. by destruct (Hf t Hin) as [[? _] _].
Qed.

(** C24. A wallet that asks for a sender's pending transfers gets exactly the transfers
    that the bridge holds of him, in the pool and in batches, each once.  For a
    sender that is not the empty string the two versions of the query return the
    same transfers, and the newer one names for each batched transfer a stored batch
    that contains it.  For the empty string they differ: the older query returns all
    transfers in flight, as the newer query without a sender does; the newer query
    by sender returns nothing, as no address is written as the empty string. *)
Theorem pending_transfers_exact s sender :
  transfers_ok s →
  ∃ r r2 r3, Query_GetPendingSendToEth sender s = Ret r s ∧
    ps_UnbatchedTransfers r ++ ps_TransfersInBatches r ≡ₚ
      (InternalOutgoingTransferTx_ToExternal <$> filter (wanted_by sender) (transfers s)) ∧
    Query_GetPendingSendToEthV2BySender sender s = Ret r2 s ∧
    Query_GetPendingSendToEthV2 s = Ret r3 s ∧
    (sender ≠ "" → p2_UnbatchedTransfers r2 = ps_UnbatchedTransfers r ∧
                   tb_Transfer <$> p2_TransfersInBatches r2 = ps_TransfersInBatches r) ∧
    (sender = "" → p2_UnbatchedTransfers r3 = ps_UnbatchedTransfers r ∧
                   tb_Transfer <$> p2_TransfersInBatches r3 = ps_TransfersInBatches r ∧
                   ((∀ a, AccAddressFromBech32 "" ≠ Ok a) →
                    p2_UnbatchedTransfers r2 = [] ∧ p2_TransfersInBatches r2 = [])) ∧
    Forall (λ x, ∃ b tx, tb_Batch x = InternalOutgoingTxBatch_ToExternal b ∧ tx ∈ ib_Transactions b ∧
      tb_Transfer x = InternalOutgoingTransferTx_ToExternal tx ∧ sent_by sender tx ∧
      kv_batches (st_kv s) !! batch_key b = Some (tb_Batch x)) (p2_TransfersInBatches r2).
Proof.
  intros Hs. unfold Query_GetPendingSendToEth, Query_GetPendingSendToEthV2BySender, Query_GetPendingSendToEthV2.
  rewrite !(bind_ret _ _ _ _ _ (GetOutgoingTxBatches_eq s (tok_batches _ Hs))).
  rewrite !(bind_ret _ _ _ _ _ (GetUnbatchedTransactions_eq s Hs)).
  pose proof (unsent_by_empty s Hs) as [Hp0 Hb0].
  set (bs := batch_list (kv_batches (st_kv s))) in *. set (pool := pool_list _ _) in *.
  eexists _, _, _. split; [done|]. cbn [ps_UnbatchedTransfers ps_TransfersInBatches].
  split; [|split; [done|split; [done|split; [|split]]]]; cbn [p2_UnbatchedTransfers p2_TransfersInBatches].
  - rewrite filter_batches, <- fmap_app, <- filter_app. unfold transfers.
    subst pool bs. by rewrite pool_list_all, <- batch_txs_list by done.
  - intros Hne. assert (∀ l : list InternalOutgoingTransferTx, filter (wanted_by sender) l = filter (sent_by sender) l) as Hf.
    { intros l. apply list_filter_same, Forall_forall. intros tx _. unfold wanted_by. naive_solver. }
    rewrite Hf. split; [done|]. apply in_batches_transfers. intros b. by rewrite Hf.
  - intros ->. assert (∀ l : list InternalOutgoingTransferTx, filter (wanted_by "") l = l) as Hf.
    { intros l. apply list_filter_all, Forall_forall. intros tx _. by left. }
    rewrite Hf. split_and!; [done| |].
    + apply (in_batches_transfers bs id). intros b. by rewrite Hf.
    + intros He. rewrite Hp0 by done. split; [done|]. clear -Hb0 He. induction bs as [|b bs IH]; [done|].
      cbn [mbind list_bind]. rewrite Hb0 by (done || by left). apply IH. intros b' Hb' He'. apply Hb0; [by right|done].
  - apply Forall_forall. intros x (b & Hx & Hb)%list_elem_of_bind.
    apply list_elem_of_fmap in Hx as (tx & -> & [Hsent Htx]%list_elem_of_filter).
    exists b, tx. split_and!; try done. apply elem_of_batch_list in Hb as [_ Hb]; [done|apply Hs].
Qed.

(** ** Attestations *)

Definition attestation_list s (reverse : bool) : list Attestation :=
  let r := prefixRange OracleAttestationKey in
  (if reverse then iter_desc (kv_attestations (st_kv s)) r
   else iter_asc (kv_attestations (st_kv s)) r).*2.

Definition asked_for (req : QueryAttestationsRequest) (att : Attestation) : Prop :=
  match UnpackAttestationClaim att with Ok claim => attestation_matches req claim = true | Er _ => False end.
#[global] Instance asked_for_dec req att : Decision (asked_for req att).
Proof. unfold asked_for. destruct (UnpackAttestationClaim att); apply _. Defined.

Lemma attestation_limit_range req : u64_ok (qa_Limit req) → 1 ≤ attestation_limit req ≤ 1000.
Proof.
  unfold attestation_limit, QUERY_ATTESTATIONS_LIMIT. intros [Hl _].
  destruct (Z.eqb_spec (qa_Limit req) 0); cbn [orb]; [lia|].
  destruct (Z.ltb_spec 1000 (qa_Limit req)); lia.
Qed.

Lemma collect_attestations req (l : list (bytes * Attestation)) (out : list Attestation) s :
  u64_ok (qa_Limit req) → Forall (λ att, is_ok (UnpackAttestationClaim att) = true) l.*2 →
  Z.of_nat (length out) < attestation_limit req →
  let limit := attestation_limit req in
  let selected := out ++ take (Z.to_nat limit - length out) (filter (asked_for req) l.*2) in
  for_acc l (out, Z.of_nat (length out), false) (λ kv acc,
    let '(attestations, count, iterErr) := acc in
    match UnpackAttestationClaim kv.2 with
    | Er _ => mret ((attestations, count, true), true)
    | Ok claim =>
        if attestation_matches req claim
        then mret ((attestations ++ [kv.2], u64 (count + 1), iterErr), limit <=? u64 (count + 1))
        else mret (acc, false)
    end) s = Ret (selected, Z.of_nat (length selected), false) s.
Proof.
  intros Hreq. pose proof (attestation_limit_range req Hreq) as Hlim. cbv zeta.
  revert out. induction l as [|[k att] l IH]; intros out Hf Hout.
  { cbn. by rewrite take_nil, app_nil_r. }
  cbn [fmap list_fmap fst snd] in *. apply Forall_cons in Hf as [Hatt Hf]. rewrite filter_cons.
  cbn [for_acc]. assert (∃ claim, UnpackAttestationClaim att = Ok claim) as [claim Eu].
  { destruct (UnpackAttestationClaim att) as [claim|]; [by exists claim|done]. }
  destruct (attestation_matches req claim) eqn:Em.
  2:{ rewrite (bind_ret _ _ s (out, Z.of_nat (length out), false, false) s) by (cbn; by rewrite Eu, Em).
      rewrite decide_False by (unfold asked_for; rewrite Eu; congruence). by apply IH. }
  rewrite decide_True by (unfold asked_for; by rewrite Eu).
  assert (u64 (Z.of_nat (length out) + 1) = Z.of_nat (length (out ++ [att]))) as Ec.
  { rewrite length_app. cbn [length]. rewrite u64_small; [lia|]. unfold u64_ok, two64. lia. }
  rewrite (bind_ret _ _ s (out ++ [att], Z.of_nat (length (out ++ [att])), false,
    attestation_limit req <=? Z.of_nat (length (out ++ [att]))) s) by (cbn; rewrite Eu, Em; by rewrite Ec).
  replace (Z.to_nat (attestation_limit req) - length out)%nat
    with (Datatypes.S (Z.to_nat (attestation_limit req) - length (out ++ [att])))%nat
    by (rewrite length_app; cbn [length]; lia).
  cbn [take]. destruct (Z.leb_spec (attestation_limit req) (Z.of_nat (length (out ++ [att])))) as [Hle|Hgt].
  - replace (Z.to_nat (attestation_limit req) - length (out ++ [att]))%nat with 0%nat by lia. done.
  - rewrite IH by done. by rewrite <- app_assoc.
Qed.

(** The query for attestations returns, in the order asked for, the first of those
    that match any of the given filters, up to the limit of the request or 1000:
    exactly the reference definition that filters and truncates the stored list. *)
Theorem GetAttestations_spec s req :
  qa_UseV1Key req = false → u64_ok (qa_Limit req) →
  let l := attestation_list s (EqualFold (qa_OrderBy req) "desc") in
  Forall (λ att, is_ok (UnpackAttestationClaim att) = true) l →
  Query_GetAttestations req s =
  Ret (take (Z.to_nat (attestation_limit req)) (filter (asked_for req) l)) s.
Proof.
  intros Hv1 Hlim l Hl. unfold Query_GetAttestations. rewrite Hv1. cbv zeta.
  unfold IterateAttestations, attestation_entries. subst l.
  set (reverse := EqualFold (qa_OrderBy req) "desc") in *.
  set (es := if reverse then iter_desc (kv_attestations (st_kv s)) (prefixRange OracleAttestationKey)
             else iter_asc (kv_attestations (st_kv s)) (prefixRange OracleAttestationKey)).
  assert (attestation_list s reverse = es.*2) as El by done. rewrite El in *.
  pose proof (collect_attestations req es [] s Hlim Hl) as Hc. cbv zeta in Hc.
  set (sel := take (Z.to_nat (attestation_limit req)) (filter (asked_for req) es.*2)) in *.
  rewrite (bind_ret _ _ s (sel, Z.of_nat (length sel), false) s); [done|].
  rewrite (bind_ret _ _ s es s) by done. etrans; [apply Hc|].
  - pose proof (attestation_limit_range req Hlim). cbn. lia.
  - cbn [length app]. by rewrite Nat.sub_0_r.
Qed.

(** ** The next event of an orchestrator *)

(** An orchestrator that asks for its last event and reports any event but the next
    one is told which one is expected. *)
Theorem LastEventNonce_expected `{Hashing} s address addr n claim anyClaim :
  AccAddressFromBech32 address = Ok addr → GetClaimer claim = Some addr →
  Query_LastEventNonceByAddr address s = Ret n s → GetEventNonce claim ≠ u64 (n + 1) →
  Attest claim anyClaim s = Fail (ErrNonContiguousEventNonce (u64 (n + 1)) (GetEventNonce claim)) s.
Proof.
  intros Haddr Hcl Hq Hne. unfold Query_LastEventNonceByAddr in Hq. rewrite Haddr in Hq.
  mnext Hq as found s1 E1. pose proof (readonly_inv _ _ _ _ (readonly_GetOrchestratorValidator addr) E1) as ->.
  destruct found as [val|]; [|done].
  destruct (ValAddressFromBech32 (v_OperatorAddress val)) as [operator|] eqn:Eo; [|done].
  mnext Hq as x s1 E2. apply of_res_inv in E2 as [Ev ->].
  unfold Attest. rewrite Hcl. rewrite (bind_ret _ _ s addr s) by done.
  rewrite (bind_ret _ _ _ _ _ E1). rewrite (bind_ret _ _ s val s) by done. rewrite Eo.
  rewrite (bind_ret _ _ s operator s) by done. rewrite Ev. rewrite (bind_ret _ _ s x s) by done.
  rewrite (bind_ret _ _ _ _ _ Hq). destruct (Z.eqb_spec (GetEventNonce claim) (u64 (n + 1))); [done|].
  done.
Qed.
End Queries.
