(* ===== verification/Migrations.v ===== *)
(** * Migrations (keeper/migrations.go, migrations/v1 to v7)

    First attestations and parameters, then the Mercury migration.

    The upgrade to version 7 changed the hash of a claim, which is part of the key of its
    attestation, and stores the parts of a claim that are hashed in the
    attestation.  The migration moves every attestation to its new key, fills in the
    parts, and checks that nothing was lost.  The upgrade to version 3 had moved the
    attestations of batches in a similar way.  The upgrades to versions 4 to 6 carry the
    parameters over, from the subspace of the module in x/params.

    An iterator of the store sees the store as it was when the iterator was made. *)

From stdpp Require Import base gmap list strings sorting.
From S2P Require Import Prelude GoStd External Store Ethereum Keys OutgoingTx Valset Claims Keeper DelegateKeys Attestation Params.

#[local] Open Scope Z_scope.

(** [b[from:]] and [b[from:to]], which panic out of range. *)
Definition slice_from (from : nat) (b : bytes) : option bytes :=
  if decide (from ≤ length b)%nat then Some (drop from b) else None.
Definition slice (from to : nat) (b : bytes) : option bytes :=
  if decide (to ≤ length b)%nat then Some (take (to - from) (drop from b)) else None.

Record attestationToMigrate := mkAttestationToMigrate {
  am_oldKey : bytes; am_eventNonce : Z; am_attestation : Attestation; am_claim : EthereumClaim;
  am_newHash : bytes }.

Section Migrations.
Context {W : Type} `{Geth} `{Sdk} `{Hashing} `{Codec}.

Definition DeleteRawAttestationKey (key : bytes) : K W unit :=
  modify (upd_kv (upd_attestations (delete key))).

(** ** migrations/v3/store.go *)

(** The key, without the prefix, that an attestation should have. *)
Definition getAttestationConverter (att : Attestation) (oldKey implicitPrefix : bytes) : K W bytes :=
  claim ← of_res (UnpackAttestationClaim att);
  hash ← of_res (ClaimHash claim);
  let newKey := GetAttestationKey (GetEventNonce claim) hash in
  newKeyNoPrefix ← opt_panic "slice bounds out of range" (slice_from (length implicitPrefix) newKey);
  _ ← guard_panic (bool_decide (length oldKey < length hash)%nat) "slice bounds out of range";
  _ ← (if decide (GetType claim = CLAIM_TYPE_BATCH_SEND_TO_ETH)
       then guard_panic (bool_decide (oldKey = newKey)) "Failed to migrate an old batch!"
       else guard_panic (bool_decide (oldKey ≠ newKey))
              "Attempted to migrate an attestation which should not have moved!");
  mret newKeyNoPrefix.

(** One turn of the loop over the entries of the prefix store. *)
Definition migrate_entry_v3 (keyPrefix oldKey : bytes) (value : Attestation) : K W unit :=
  newKey ← getAttestationConverter value (AppendBytes [keyPrefix; oldKey]) keyPrefix;
  if decide (oldKey = newKey) then mret tt else
  present ← gets (λ s, bool_decide (is_Some (kv_attestations (st_kv s) !! (keyPrefix ++ newKey))));
  _ ← guard_panic present "New key collides with an existing key!";
  _ ← modify (upd_kv (upd_attestations (delete (keyPrefix ++ oldKey))));
  modify (upd_kv (upd_attestations (insert (keyPrefix ++ newKey) value))).

Definition migrateKeysFromValues_v3 (keyPrefix : bytes) : K W unit :=
  entries ← gets (λ s, sub_entries keyPrefix (kv_attestations (st_kv s)));
  for_each entries (λ kv, migrate_entry_v3 keyPrefix kv.1 kv.2).

Definition MigrateStore_v3 : K W unit := migrateKeysFromValues_v3 OracleAttestationKey.

(** ** migrations/v7/migrate.go *)

Definition hash_start : nat := (length OracleAttestationKey + 8)%nat.

(** The callback of the first iteration. *)
Definition collect_attestation (key : bytes) (att : Attestation)
    (acc : list attestationToMigrate * Z) : K W (list attestationToMigrate * Z * bool) :=
  let '(attestationsToMigrate, totalVotes) := acc in
  claim ← or_panic "Failed to unpack claim during migration" (UnpackAttestationClaim att);
  newHash ← or_panic "Failed to compute new hash during migration" (ClaimHash claim);
  eventNonceBytes ← opt_panic "slice bounds out of range"
    (slice (length OracleAttestationKey) hash_start key);
  let eventNonce := be_val eventNonceBytes in
  mret ((attestationsToMigrate ++ [mkAttestationToMigrate key eventNonce att claim newHash],
         totalVotes + Z.of_nat (length (at_Votes att))), false).

Definition rewrite_attestation (item : attestationToMigrate) : K W unit :=
  oldHash ← opt_panic "slice bounds out of range" (slice_from hash_start (am_oldKey item));
  if decide (oldHash = am_newHash item) then mret tt else
  _ ← DeleteRawAttestationKey (am_oldKey item);
  SetAttestation (am_eventNonce item) (am_newHash item) (am_attestation item).

Definition MigrateAttestationsToAttestationSeparator : K W unit :=
  collected ← IterateAttestations false ([], 0) collect_attestation;
  let '(attestationsToMigrate, totalVotes) := collected in
  _ ← for_each attestationsToMigrate rewrite_attestation;
  post ← IterateAttestations false (0, 0) (λ _ att post,
    mret ((post.1 + 1, post.2 + Z.of_nat (length (at_Votes att))), false));
  guard_panic (negb (post.1 =? Z.of_nat (length attestationsToMigrate)) || negb (post.2 =? totalVotes))
    "Attestation migration integrity failure".

Definition fill_components (key : bytes) (att : Attestation) : K W unit :=
  _ ← guard_panic (bool_decide (is_Some (at_ClaimComponents att))) "Attestation has already been migrated?";
  claim ← or_panic "Failed to unpack claim during ClaimHashComponents migration"
            (UnpackAttestationClaim att);
  let claimType := GetType claim in
  components ← or_panic "Failed to extract claim components during migration"
                 (ExtractClaimHashComponents claim);
  computedHash ← or_panic "Failed to compute claim hash from components during migration"
                   (ComputeClaimHash claimType components);
  storedHash ← opt_panic "slice bounds out of range" (slice_from hash_start key);
  _ ← guard_panic (bool_decide (storedHash ≠ computedHash))
        "Claim hash mismatch during ClaimHashComponents migration";
  SetAttestation (GetEventNonce claim) storedHash
    (mkAttestation (at_Observed att) (at_Votes att) (at_Height att) (at_Claim att) claimType
       (Some components)).

Definition MigrateAttestationsToClaimHashComponents : K W unit :=
  IterateAttestations false tt (λ key att _, _ ← fill_components key att; mret (tt, false)).

Definition Migrate6to7 : K W unit :=
  _ ← MigrateAttestationsToAttestationSeparator;
  MigrateAttestationsToClaimHashComponents.
End Migrations.

(** ** Parameters *)

(** The module's subspace of x/params: reading a key that is absent, or that holds
    something of another type, panics ([None]). *)
Class Subspace (W : Type) := {
  sub_string : string → State W → option string;
  sub_uint64 : string → State W → option Z;
  sub_dec : string → State W → option Z;
  sub_coin : string → State W → option Coin;
  sub_bool : string → State W → option bool;
  sub_strings : string → State W → option (list string);
}.

(** The parameters of version 3; version 4 has one more. *)
Record Params_v3 := mkParams_v3 {
  p3_GravityId : string; p3_ContractSourceHash : string; p3_BridgeEthereumAddress : string;
  p3_BridgeChainId : Z; p3_SignedValsetsWindow : Z; p3_SignedBatchesWindow : Z;
  p3_SignedLogicCallsWindow : Z; p3_TargetBatchTimeout : Z; p3_AverageBlockTime : Z;
  p3_AverageEthereumBlockTime : Z; p3_SlashFractionValset : Z; p3_SlashFractionBatch : Z;
  p3_SlashFractionLogicCall : Z; p3_UnbondSlashingValsetsWindow : Z;
  p3_SlashFractionBadEthSignature : Z; p3_ValsetReward : Coin; p3_BridgeActive : bool;
  p3_EthereumBlacklist : list string }.

Record Params_v4 := mkParams_v4 { p4_v3 : Params_v3; p4_MinChainFeeBasisPoints : Z }.

(** A decimal that was never set: the Go value holds no number, and is stored as zero. *)
Definition unset_dec : Z := 0.

Section LegacyParams.
Context {W : Type} `{Subspace W} `{Geth} `{Sdk}.

Definition read {A} (key : string) (get : string → State W → option A) : K W A :=
  v ← gets (get key); opt_panic "UnmarshalJSON" v.

(** [GetParamSet] with the pairs of [ParamSetPairs] of migrations/v3/params.go. *)
Definition GetParamSet_v3 : K W Params_v3 :=
  gravityId ← read "GravityID" sub_string;
  contractHash ← read "ContractHash" sub_string;
  bridgeAddress ← read "BridgeEthereumAddress" sub_string;
  chainId ← read "BridgeChainID" sub_uint64;
  signedValsets ← read "SignedValsetsWindow" sub_uint64;
  signedBatches ← read "SignedBatchesWindow" sub_uint64;
  signedCalls ← read "SignedLogicCallsWindow" sub_uint64;
  batchTimeout ← read "TargetBatchTimeout" sub_uint64;
  blockTime ← read "AverageBlockTime" sub_uint64;
  ethBlockTime ← read "AverageEthereumBlockTime" sub_uint64;
  slashValset ← read "SlashFractionValset" sub_dec;
  slashBatch ← read "SlashFractionBatch" sub_dec;
  unbond ← read "UnbondSlashingValsetsWindow" sub_uint64;
  slashBad ← read "SlashFractionBadEthSignature" sub_dec;
  reward ← read "ValsetReward" sub_coin;
  active ← read "BridgeActive" sub_bool;
  blacklist ← read "EthereumBlacklist" sub_strings;
  mret (mkParams_v3 gravityId contractHash bridgeAddress chainId signedValsets signedBatches
          signedCalls batchTimeout blockTime ethBlockTime slashValset slashBatch unset_dec unbond
          slashBad reward active blacklist).

(** The same with the pairs of migrations/v4/params.go, *)
Definition GetParamSet_v4 : K W Params_v4 :=
  params ← GetParamSet_v3;
  minFee ← read "MinChainFeeBasisPoints" sub_uint64;
  mret (mkParams_v4 params minFee).

(** and with those of types/genesis.go. *)
Definition GetParamSet : K W Params :=
  params ← GetParamSet_v4;
  fraction ← read "ChainFeeAuctionPoolFraction" sub_dec;
  let p := p4_v3 params in
  mret (mkParams (p3_GravityId p) (p3_ContractSourceHash p) (p3_BridgeEthereumAddress p)
          (p3_BridgeChainId p) (p3_SignedValsetsWindow p) (p3_SignedBatchesWindow p)
          (p3_SignedLogicCallsWindow p) (p3_TargetBatchTimeout p) (p3_AverageBlockTime p)
          (p3_AverageEthereumBlockTime p) (p3_SlashFractionValset p) (p3_SlashFractionBatch p)
          (p3_SlashFractionLogicCall p) (p3_UnbondSlashingValsetsWindow p)
          (p3_SlashFractionBadEthSignature p) (p3_ValsetReward p) (p3_BridgeActive p)
          (p3_EthereumBlacklist p) (p4_MinChainFeeBasisPoints params) (Some fraction)).

(** *** migrations/v4/migrate.go and migrations/v5/migrate.go *)

Definition V3ToV4Params (p : Params_v3) : Params :=
  mkParams (p3_GravityId p) (p3_ContractSourceHash p) (p3_BridgeEthereumAddress p)
    (p3_BridgeChainId p) (p3_SignedValsetsWindow p) (p3_SignedBatchesWindow p)
    (p3_SignedLogicCallsWindow p) (p3_TargetBatchTimeout p) (p3_AverageBlockTime p)
    (p3_AverageEthereumBlockTime p) (p3_SlashFractionValset p) (p3_SlashFractionBatch p)
    (p3_SlashFractionLogicCall p) (p3_UnbondSlashingValsetsWindow p)
    (p3_SlashFractionBadEthSignature p) (p3_ValsetReward p) (p3_BridgeActive p)
    (p3_EthereumBlacklist p) (p_MinChainFeeBasisPoints DefaultParams) None.

Definition MigrateParams_v4 : K W Params :=
  v3Params ← GetParamSet_v3;
  mret (V3ToV4Params v3Params).

Definition V4ToV5Params (v4Params : Params_v4) : Params :=
  let p := p4_v3 v4Params in
  mkParams (p3_GravityId p) (p3_ContractSourceHash p) (p3_BridgeEthereumAddress p)
    (p3_BridgeChainId p) (p3_SignedValsetsWindow p) (p3_SignedBatchesWindow p)
    (p3_SignedLogicCallsWindow p) (p3_TargetBatchTimeout p) (p3_AverageBlockTime p)
    (p3_AverageEthereumBlockTime p) (p3_SlashFractionValset p) (p3_SlashFractionBatch p)
    (p3_SlashFractionLogicCall p) (p3_UnbondSlashingValsetsWindow p)
    (p3_SlashFractionBadEthSignature p) (p3_ValsetReward p) (p3_BridgeActive p)
    (p3_EthereumBlacklist p) (p4_MinChainFeeBasisPoints v4Params)
    (p_ChainFeeAuctionPoolFraction DefaultParams).

Definition MigrateParams_v5 : K W Params :=
  v4Params ← GetParamSet_v4;
  mret (V4ToV5Params v4Params).

(** *** keeper/migrations.go *)

Definition Migrate5to6 : K W unit :=
  params ← GetParamSet;
  SetParams params.
End LegacyParams.

(** * The Mercury migration (migrations/v1/key.go, migrations/v2)

    The first upgrade of the chain rewrote the whole store of the module.  In version 1
    a key starts with a readable name and contains Ethereum addresses as text; in
    version 2 it starts with the MD5 hash of that name and contains addresses as bytes.
    The store is the raw byte store here: keys and values are what the database holds,
    and the values are decoded only where the code decodes them. *)

(** ** Version 1 keys (migrations/v1/key.go) *)

Definition EthAddressByValidatorKey_v1 : string := "EthAddressValidatorKey".
Definition ValidatorByEthAddressKey_v1 : string := "ValidatorByEthAddressKey".
Definition ValsetRequestKey_v1 : string := "ValsetRequestKey".
Definition ValsetConfirmKey_v1 : string := "ValsetConfirmKey".
Definition OracleClaimKey_v1 : string := "OracleClaimKey".
Definition OracleAttestationKey_v1 : string := "OracleAttestationKey".
Definition OutgoingTXPoolKey_v1 : string := "OutgoingTXPoolKey".
Definition DenomiatorPrefix_v1 : string := "DenomiatorPrefix".
Definition OutgoingTXBatchKey_v1 : string := "OutgoingTXBatchKey".
Definition BatchConfirmKey_v1 : string := "BatchConfirmKey".
Definition SecondIndexNonceByClaimKey_v1 : string := "SecondIndexNonceByClaimKey".
Definition LastEventNonceByValidatorKey_v1 : string := "LastEventNonceByValidatorKey".
Definition LastObservedEventNonceKey_v1 : string := "LastObservedEventNonceKey".
Definition SequenceKeyPrefix_v1 : string := "SequenceKeyPrefix".
Definition KeyLastTXPoolID_v1 : string := SequenceKeyPrefix_v1 +:+ "lastTxPoolId".
Definition KeyLastOutgoingBatchID_v1 : string := SequenceKeyPrefix_v1 +:+ "lastBatchId".
Definition KeyOrchestratorAddress_v1 : string := "KeyOrchestratorAddress".
Definition KeyOutgoingLogicCall_v1 : string := "KeyOutgoingLogicCall".
Definition KeyOutgoingLogicConfirm_v1 : string := "KeyOutgoingLogicConfirm".
Definition LastObservedEthereumBlockHeightKey_v1 : string := "LastObservedEthereumBlockHeightKey".
Definition DenomToERC20Key_v1 : string := "DenomToERC20Key".
Definition ERC20ToDenomKey_v1 : string := "ERC20ToDenomKey".
Definition LastSlashedValsetNonce_v1 : string := "LastSlashedValsetNonce".
Definition LatestValsetNonce_v1 : string := "LatestValsetNonce".
Definition LastSlashedBatchBlock_v1 : string := "LastSlashedBatchBlock".
Definition LastSlashedLogicCallBlock_v1 : string := "LastSlashedLogicCallBlock".
Definition LastUnBondingBlockHeight_v1 : string := "LastUnBondingBlockHeight".
Definition LastObservedValsetKey_v1 : string := "LastObservedValsetKey".
Definition PastEthSignatureCheckpointKey_v1 : string := "PastEthSignatureCheckpointKey".

(** A Go string of version 1, as the bytes it is stored as. *)
Abbreviation str := bytes_of_string.

Section KeysV1.
Context `{Geth} `{Sdk}.

Definition GetEthAddressByValidatorKey_v1 (validator : bytes) : option bytes :=
  verified validator (str EthAddressByValidatorKey_v1 ++ validator).

Definition GetValidatorByEthAddressKey_v1 (ethAddress : EthAddress) : bytes :=
  str ValidatorByEthAddressKey_v1 ++ str (Hex (GetAddress ethAddress)).

Definition GetOrchestratorAddressKey_v1 (orc : bytes) : option bytes :=
  verified orc (str KeyOrchestratorAddress_v1 ++ orc).

Definition GetDenomToERC20Key_v1 (denom : string) : bytes := str DenomToERC20Key_v1 ++ str denom.

Definition GetERC20ToDenomKey_v1 (erc20 : EthAddress) : bytes :=
  str ERC20ToDenomKey_v1 ++ str (Hex (GetAddress erc20)).

Definition GetOutgoingTxBatchContractPrefix_v1 (tokenContract : EthAddress) : bytes :=
  str OutgoingTXBatchKey_v1 ++ str (Hex (GetAddress tokenContract)).

Definition GetOutgoingTxBatchKey_v1 (tokenContract : EthAddress) (nonce : Z) : bytes :=
  GetOutgoingTxBatchContractPrefix_v1 tokenContract ++ convertByteArrToString (UInt64Bytes nonce).

Definition GetOutgoingTxPoolKey_v1 (fee : InternalERC20Token) (id : Z) : option bytes :=
  amount ← FillBytes 32 (it_Amount fee);
  Some (convertByteArrToString (str OutgoingTXPoolKey_v1 ++ str (Hex (GetAddress (it_Contract fee))) ++
          amount ++ UInt64Bytes id)).

Definition GetOutgoingLogicCallKey_v1 (invalidationId : bytes) (invalidationNonce : Z) : bytes :=
  str KeyOutgoingLogicCall_v1 ++ invalidationId ++ UInt64Bytes invalidationNonce.

Definition GetLogicConfirmNonceInvalidationIdPrefix_v1 (invalidationId : bytes)
    (invalidationNonce : Z) : bytes :=
  str KeyOutgoingLogicConfirm_v1 ++ invalidationId ++ convertByteArrToString (UInt64Bytes invalidationNonce).

Definition GetLogicConfirmKey_v1 (invalidationId : bytes) (invalidationNonce : Z)
    (validator : bytes) : option bytes :=
  verified validator
    (GetLogicConfirmNonceInvalidationIdPrefix_v1 invalidationId invalidationNonce ++ validator).

Definition GetAttestationKey_v1 (eventNonce : Z) (claimHash : bytes) : bytes :=
  convertByteArrToString (str OracleAttestationKey_v1 ++ UInt64Bytes eventNonce ++ claimHash).

Definition GetValsetKey_v1 (nonce : Z) : bytes := str ValsetRequestKey_v1 ++ UInt64Bytes nonce.

Definition GetValsetConfirmNoncePrefix_v1 (nonce : Z) : bytes :=
  str ValsetConfirmKey_v1 ++ convertByteArrToString (UInt64Bytes nonce).

Definition GetValsetConfirmKey_v1 (nonce : Z) (validator : bytes) : option bytes :=
  verified validator (GetValsetConfirmNoncePrefix_v1 nonce ++ validator).

Definition GetBatchConfirmNonceContractPrefix_v1 (tokenContract : EthAddress) (batchNonce : Z)
    : bytes :=
  str BatchConfirmKey_v1 ++ str (Hex (GetAddress tokenContract)) ++
    convertByteArrToString (UInt64Bytes batchNonce).

Definition GetBatchConfirmKey_v1 (tokenContract : EthAddress) (batchNonce : Z) (validator : bytes)
    : option bytes :=
  verified validator (GetBatchConfirmNonceContractPrefix_v1 tokenContract batchNonce ++ validator).

Definition GetLastEventNonceByValidatorKey_v1 (validator : bytes) : option bytes :=
  verified validator (str LastEventNonceByValidatorKey_v1 ++ validator).

Definition GetPastEthSignatureCheckpointKey_v1 (checkpoint : bytes) : bytes :=
  str PastEthSignatureCheckpointKey_v1 ++ convertByteArrToString checkpoint.
End KeysV1.

(** ** Version 2 keys (migrations/v2/key.go)

    The prefixes are the hashes of the names, as they still are (file [Keys]). *)

Definition EthAddressByValidatorKey_v2 : bytes := Eval vm_compute in HashString "EthAddressValidatorKey".
Definition ValidatorByEthAddressKey_v2 : bytes := Eval vm_compute in HashString "ValidatorByEthAddressKey".
Definition ValsetRequestKey_v2 : bytes := Eval vm_compute in HashString "ValsetRequestKey".
Definition ValsetConfirmKey_v2 : bytes := Eval vm_compute in HashString "ValsetConfirmKey".
Definition OracleClaimKey_v2 : bytes := Eval vm_compute in HashString "OracleClaimKey".
Definition OracleAttestationKey_v2 : bytes := Eval vm_compute in HashString "OracleAttestationKey".
Definition OutgoingTXPoolKey_v2 : bytes := Eval vm_compute in HashString "OutgoingTXPoolKey".
Definition OutgoingTXBatchKey_v2 : bytes := Eval vm_compute in HashString "OutgoingTXBatchKey".
Definition BatchConfirmKey_v2 : bytes := Eval vm_compute in HashString "BatchConfirmKey".
Definition LastEventNonceByValidatorKey_v2 : bytes := Eval vm_compute in HashString "LastEventNonceByValidatorKey".
Definition LastObservedEventNonceKey_v2 : bytes := Eval vm_compute in HashString "LastObservedEventNonceKey".
Definition SequenceKeyPrefix_v2 : bytes := Eval vm_compute in HashString "SequenceKeyPrefix".
Definition KeyLastTXPoolID_v2 : bytes := Eval vm_compute in HashString "SequenceKeyPrefixlastTxPoolId".
Definition KeyLastOutgoingBatchID_v2 : bytes := Eval vm_compute in HashString "SequenceKeyPrefixlastBatchId".
Definition KeyOrchestratorAddress_v2 : bytes := Eval vm_compute in HashString "KeyOrchestratorAddress".
Definition KeyOutgoingLogicCall_v2 : bytes := Eval vm_compute in HashString "KeyOutgoingLogicCall".
Definition KeyOutgoingLogicConfirm_v2 : bytes := Eval vm_compute in HashString "KeyOutgoingLogicConfirm".
Definition LastObservedEthereumBlockHeightKey_v2 : bytes := Eval vm_compute in HashString "LastObservedEthereumBlockHeightKey".
Definition DenomToERC20Key_v2 : bytes := Eval vm_compute in HashString "DenomToERC20Key".
Definition ERC20ToDenomKey_v2 : bytes := Eval vm_compute in HashString "ERC20ToDenomKey".
Definition LastSlashedValsetNonce_v2 : bytes := Eval vm_compute in HashString "LastSlashedValsetNonce".
Definition LatestValsetNonce_v2 : bytes := Eval vm_compute in HashString "LatestValsetNonce".
Definition LastSlashedBatchBlock_v2 : bytes := Eval vm_compute in HashString "LastSlashedBatchBlock".
Definition LastSlashedLogicCallBlock_v2 : bytes := Eval vm_compute in HashString "LastSlashedLogicCallBlock".
Definition LastUnBondingBlockHeight_v2 : bytes := Eval vm_compute in HashString "LastUnBondingBlockHeight".
Definition LastObservedValsetKey_v2 : bytes := Eval vm_compute in HashString "LastObservedValsetKey".
Definition PastEthSignatureCheckpointKey_v2 : bytes := Eval vm_compute in HashString "PastEthSignatureCheckpointKey".

Section KeysV2.
Context `{Geth} `{Sdk}.

Definition GetOrchestratorAddressKey_v2 (orc : bytes) : option bytes :=
  verified orc (AppendBytes [KeyOrchestratorAddress_v2; orc]).

Definition GetEthAddressByValidatorKey_v2 (validator : bytes) : option bytes :=
  verified validator (AppendBytes [EthAddressByValidatorKey_v2; validator]).

Definition GetValidatorByEthAddressKey_v2 (ethAddress : EthAddress) : bytes :=
  AppendBytes [ValidatorByEthAddressKey_v2; GetAddress ethAddress].

Definition GetValsetKey_v2 (nonce : Z) : bytes :=
  AppendBytes [ValsetRequestKey_v2; UInt64Bytes nonce].

Definition GetValsetConfirmNoncePrefix_v2 (nonce : Z) : bytes :=
  AppendBytes [ValsetConfirmKey_v2; UInt64Bytes nonce].

Definition GetValsetConfirmKey_v2 (nonce : Z) (validator : bytes) : option bytes :=
  verified validator (AppendBytes [GetValsetConfirmNoncePrefix_v2 nonce; validator]).

Definition GetAttestationKey_v2 (eventNonce : Z) (claimHash : bytes) : bytes :=
  AppendBytes [OracleAttestationKey_v2; UInt64Bytes eventNonce; claimHash].

Definition GetOutgoingTxPoolKey_v2 (fee : InternalERC20Token) (id : Z) : option bytes :=
  amount ← FillBytes 32 (it_Amount fee);
  Some (AppendBytes [OutgoingTXPoolKey_v2; GetAddress (it_Contract fee); amount; UInt64Bytes id]).

Definition GetOutgoingTxBatchContractPrefix_v2 (tokenContract : EthAddress) : bytes :=
  AppendBytes [OutgoingTXBatchKey_v2; GetAddress tokenContract].

Definition GetOutgoingTxBatchKey_v2 (tokenContract : EthAddress) (nonce : Z) : bytes :=
  AppendBytes [GetOutgoingTxBatchContractPrefix_v2 tokenContract; UInt64Bytes nonce].

Definition GetBatchConfirmNonceContractPrefix_v2 (tokenContract : EthAddress) (batchNonce : Z)
    : bytes :=
  AppendBytes [BatchConfirmKey_v2; GetAddress tokenContract; UInt64Bytes batchNonce].

Definition GetBatchConfirmKey_v2 (tokenContract : EthAddress) (batchNonce : Z) (validator : bytes)
    : option bytes :=
  verified validator
    (AppendBytes [GetBatchConfirmNonceContractPrefix_v2 tokenContract batchNonce; validator]).

Definition GetLastEventNonceByValidatorKey_v2 (validator : bytes) : option bytes :=
  verified validator (AppendBytes [LastEventNonceByValidatorKey_v2; validator]).

Definition GetDenomToERC20Key_v2 (denom : string) : bytes :=
  AppendBytes [DenomToERC20Key_v2; str denom].

Definition GetERC20ToDenomKey_v2 (erc20 : EthAddress) : bytes :=
  AppendBytes [ERC20ToDenomKey_v2; GetAddress erc20].

Definition GetOutgoingLogicCallKey_v2 (invalidationId : bytes) (invalidationNonce : Z) : bytes :=
  AppendBytes [KeyOutgoingLogicCall_v2; invalidationId; UInt64Bytes invalidationNonce].

Definition GetLogicConfirmNonceInvalidationIdPrefix_v2 (invalidationId : bytes)
    (invalidationNonce : Z) : bytes :=
  AppendBytes [KeyOutgoingLogicConfirm_v2; invalidationId; UInt64Bytes invalidationNonce].

Definition GetLogicConfirmKey_v2 (invalidationId : bytes) (invalidationNonce : Z)
    (validator : bytes) : option bytes :=
  verified validator
    (AppendBytes [GetLogicConfirmNonceInvalidationIdPrefix_v2 invalidationId invalidationNonce;
                  validator]).

Definition GetPastEthSignatureCheckpointKey_v2 (checkpoint : bytes) : bytes :=
  AppendBytes [PastEthSignatureCheckpointKey_v2; convertByteArrToString checkpoint].
End KeysV2.

(** ** The store (migrations/v2/store.go) *)

(** [cdc.MustUnmarshal] of the stored values panics ([None]) on what is not an encoding. *)
Class StoredCodec := {
  decode_valset : bytes → option Valset;
  decode_valset_confirm : bytes → option MsgValsetConfirm;
  decode_attestation : bytes → option Attestation;
  decode_transfer : bytes → option OutgoingTransferTx;
  decode_batch : bytes → option OutgoingTxBatch;
  decode_batch_confirm : bytes → option MsgConfirmBatch;
  decode_logic_call : bytes → option OutgoingLogicCall;
  decode_logic_confirm : bytes → option MsgConfirmLogicCall;
}.

Abbreviation KVStore := (gmap bytes bytes).
Abbreviation KV1 := (M KVStore).

Definition store_set (k v : bytes) : KV1 unit := modify (insert k v).
Definition store_delete (k : bytes) : KV1 unit := modify (delete k).

(** The loop over [prefix.NewStore(store, p).Iterator(nil, nil)]; the keys are without
    the prefix. *)
Definition for_prefix (p : bytes) (body : bytes → bytes → KV1 unit) : KV1 unit :=
  entries ← gets (sub_entries p);
  for_each entries (λ kv, body kv.1 kv.2).

Section Mercury.
Context `{Geth} `{Sdk} `{Hashing} `{Codec} `{StoredCodec}.

Definition migrateCosmosOriginatedDenomToERC20 : KV1 unit :=
  let p := str DenomToERC20Key_v1 in
  for_prefix p (λ key value, store_set (p ++ key) (HexToAddress (string_of_bytes value))).

Definition migrateCosmosOriginatedERC20ToDenom : KV1 unit :=
  let p := str ERC20ToDenomKey_v1 in
  for_prefix p (λ oldKey value,
    let newKey := HexToAddress (string_of_bytes oldKey) in
    _ ← store_delete (p ++ oldKey);
    store_set (p ++ newKey) value).

Definition migrateEthAddressByValidator : KV1 unit :=
  let p := str EthAddressByValidatorKey_v1 in
  for_prefix p (λ key value, store_set (p ++ key) (HexToAddress (string_of_bytes value))).

Definition migrateValidatorByEthAddressKey : KV1 unit :=
  let p := str ValidatorByEthAddressKey_v1 in
  for_prefix p (λ oldKey value,
    let addr := HexToAddress (string_of_bytes oldKey) in
    _ ← store_delete (p ++ oldKey);
    if decide (Hex addr ≠ string_of_bytes oldKey) then mret tt
    else store_set (p ++ addr) value).

(** The loop of [migrateBatchConfirms], [migrateOutgoingTxs] and
    [migrateOutgoingTxBatches]: the first 42 bytes of a key are an address as text. *)
Definition migrate_contract_keys (p : bytes) : KV1 unit :=
  for_prefix p (λ oldKey value,
    addrStr ← opt_panic "slice bounds out of range" (slice 0 42 oldKey);
    rest ← opt_panic "slice bounds out of range" (slice_from 42 oldKey);
    let newKey := HexToAddress (string_of_bytes addrStr) ++ rest in
    _ ← store_delete (p ++ oldKey);
    store_set (p ++ newKey) value).

Definition migrateBatchConfirms : KV1 unit := migrate_contract_keys (str BatchConfirmKey_v1).
Definition migrateOutgoingTxs : KV1 unit := migrate_contract_keys (str OutgoingTXPoolKey_v1).
Definition migrateOutgoingTxBatches : KV1 unit := migrate_contract_keys (str OutgoingTXBatchKey_v1).

(** *** Key conversion *)

Definition convertValsetKey (oldValue : bytes) : KV1 bytes :=
  valset ← opt_panic "MustUnmarshal" (decode_valset oldValue);
  mret (GetValsetKey_v2 (vs_Nonce valset)).

Definition convertValsetConfirmKey (oldValue : bytes) : KV1 bytes :=
  valsetConfirm ← opt_panic "MustUnmarshal" (decode_valset_confirm oldValue);
  orchAddr ← of_res (AccAddressFromBech32 (vc_Orchestrator valsetConfirm));
  opt_panic "invalid validator address" (GetValsetConfirmKey_v2 (vc_Nonce valsetConfirm) orchAddr).

Definition convertAttestationKey (oldValue : bytes) : KV1 bytes :=
  att ← opt_panic "MustUnmarshal" (decode_attestation oldValue);
  claim ← of_res (UnpackClaim (at_Claim att));
  hash ← of_res (ClaimHash claim);
  mret (GetAttestationKey_v2 (GetEventNonce claim) hash).

Definition convertOutgoingTxKey (oldValue : bytes) : KV1 bytes :=
  tx ← opt_panic "MustUnmarshal" (decode_transfer oldValue);
  fee ← of_res (ERC20Token_ToInternal (ot_Erc20Fee tx));
  opt_panic "FillBytes" (GetOutgoingTxPoolKey_v2 fee (ot_Id tx)).

Definition convertBatchKey (oldValue : bytes) : KV1 bytes :=
  batch ← opt_panic "MustUnmarshal" (decode_batch oldValue);
  tokenAddr ← of_res (NewEthAddress (ob_TokenContract batch));
  mret (GetOutgoingTxBatchKey_v2 tokenAddr (ob_BatchNonce batch)).

Definition convertBatchConfirmKey (oldValue : bytes) : KV1 bytes :=
  batchConfirm ← opt_panic "MustUnmarshal" (decode_batch_confirm oldValue);
  tokenAddr ← of_res (NewEthAddress (cb_TokenContract batchConfirm));
  orchAddr ← of_res (AccAddressFromBech32 (cb_Orchestrator batchConfirm));
  opt_panic "invalid validator address"
    (GetBatchConfirmKey_v2 tokenAddr (cb_Nonce batchConfirm) orchAddr).

Definition convertLogicCallKey (oldValue : bytes) : KV1 bytes :=
  call ← opt_panic "MustUnmarshal" (decode_logic_call oldValue);
  mret (GetOutgoingLogicCallKey_v2 (lc_InvalidationId call) (lc_InvalidationNonce call)).

Definition convertLogicCallConfirmKey (oldValue : bytes) : KV1 bytes :=
  confirm ← opt_panic "MustUnmarshal" (decode_logic_confirm oldValue);
  invalidationIdBytes ← of_res (match hex_decode (cl_InvalidationId confirm) with
                                | Some b => Ok b | None => Er (ErrSdk "hex") end);
  orchAddr ← of_res (AccAddressFromBech32 (cl_Orchestrator confirm));
  opt_panic "invalid validator address"
    (GetLogicConfirmKey_v2 invalidationIdBytes (cl_InvalidationNonce confirm) orchAddr).

Definition migrateKeysFromValues (keyPrefix : string) (getNewKey : bytes → KV1 bytes) : KV1 unit :=
  let p := str keyPrefix in
  for_prefix p (λ oldKey value,
    newKey ← getNewKey value;
    _ ← store_set newKey value;
    store_delete (p ++ oldKey)).

Definition migrateKey (oldKey : string) (newKey : bytes) : KV1 unit :=
  bz ← gets (lookup (str oldKey));
  let value := default [] bz in
  if decide (value = []) then mret tt else
  _ ← store_set newKey value;
  store_delete (str oldKey).

Definition migrateKeysFromKeys (oldKeyPrefix : string) (newKeyPrefix : bytes) : KV1 unit :=
  let p := str oldKeyPrefix in
  for_prefix p (λ oldKey value,
    _ ← store_set (newKeyPrefix ++ oldKey) value;
    store_delete (p ++ oldKey)).

Definition deleteUnusedKeys (keyPrefix : string) : KV1 unit :=
  let p := str keyPrefix in
  for_prefix p (λ oldKey _, store_delete (p ++ oldKey)).

Definition migrateKeys : KV1 unit :=
  _ ← migrateKeysFromValues OutgoingTXBatchKey_v1 convertBatchKey;
  _ ← migrateKeysFromValues ValsetRequestKey_v1 convertValsetKey;
  _ ← migrateKeysFromValues ValsetConfirmKey_v1 convertValsetConfirmKey;
  _ ← migrateKeysFromValues OracleAttestationKey_v1 convertAttestationKey;
  _ ← migrateKeysFromValues OutgoingTXPoolKey_v1 convertOutgoingTxKey;
  _ ← migrateKeysFromValues BatchConfirmKey_v1 convertBatchConfirmKey;
  _ ← migrateKeysFromValues KeyOutgoingLogicCall_v1 convertLogicCallKey;
  _ ← migrateKeysFromValues KeyOutgoingLogicConfirm_v1 convertLogicCallConfirmKey;
  _ ← migrateKeysFromKeys EthAddressByValidatorKey_v1 EthAddressByValidatorKey_v2;
  _ ← migrateKeysFromKeys ValidatorByEthAddressKey_v1 ValidatorByEthAddressKey_v2;
  _ ← migrateKeysFromKeys LastEventNonceByValidatorKey_v1 LastEventNonceByValidatorKey_v2;
  _ ← migrateKeysFromKeys KeyOrchestratorAddress_v1 KeyOrchestratorAddress_v2;
  _ ← migrateKeysFromKeys DenomToERC20Key_v1 DenomToERC20Key_v2;
  _ ← migrateKeysFromKeys ERC20ToDenomKey_v1 ERC20ToDenomKey_v2;
  _ ← migrateKeysFromKeys PastEthSignatureCheckpointKey_v1 PastEthSignatureCheckpointKey_v2;
  _ ← migrateKey LastObservedEventNonceKey_v1 LastObservedEventNonceKey_v2;
  _ ← migrateKey KeyLastTXPoolID_v1 KeyLastTXPoolID_v2;
  _ ← migrateKey KeyLastOutgoingBatchID_v1 KeyLastOutgoingBatchID_v2;
  _ ← migrateKey LastObservedEthereumBlockHeightKey_v1 LastObservedEthereumBlockHeightKey_v2;
  _ ← migrateKey LastSlashedValsetNonce_v1 LastSlashedValsetNonce_v2;
  _ ← migrateKey LatestValsetNonce_v1 LatestValsetNonce_v2;
  _ ← migrateKey LastSlashedBatchBlock_v1 LastSlashedBatchBlock_v2;
  _ ← migrateKey LastSlashedLogicCallBlock_v1 LastSlashedLogicCallBlock_v2;
  _ ← migrateKey LastUnBondingBlockHeight_v1 LastUnBondingBlockHeight_v2;
  _ ← migrateKey LastObservedValsetKey_v1 LastObservedValsetKey_v2;
  _ ← deleteUnusedKeys OracleClaimKey_v1;
  _ ← deleteUnusedKeys DenomiatorPrefix_v1;
  deleteUnusedKeys SecondIndexNonceByClaimKey_v1.

Definition MigrateStore_v2 : KV1 unit :=
  _ ← migrateCosmosOriginatedDenomToERC20;
  _ ← migrateCosmosOriginatedERC20ToDenom;
  _ ← migrateEthAddressByValidator;
  _ ← migrateValidatorByEthAddressKey;
  _ ← migrateBatchConfirms;
  _ ← migrateOutgoingTxs;
  _ ← migrateOutgoingTxBatches;
  migrateKeys.
End Mercury.
