(* ===== verification/MigrationsCorrect.v ===== *)
(** * Correctness of the migrations

    The migration to version 7 keeps every attestation and every vote, or panics; what
    it leaves satisfies the invariant of the oracle. *)

From stdpp Require Import base gmap list strings sorting.
From S2P Require Import Prelude GoStd External Store Ethereum Keys OutgoingTx Valset Claims Keeper DelegateKeys Attestation OracleCorrect OracleTally Params Migrations.

#[local] Open Scope Z_scope.

(** ** Moving the entries of a map to new keys *)

Section Moving.
Context {V : Type} (f : bytes * V → bytes).
Implicit Types m : gmap bytes V.

(** One turn of the loop: the entry leaves its old key and is stored under its new
    one, whatever is there. *)
Definition move m (e : bytes * V) : gmap bytes V :=
  if decide (e.1 = f e) then m else <[f e := e.2]> (delete e.1 m).

Definition moved (e : bytes * V) : bytes * V := (f e, e.2).

(** Whatever collides, all that is there in the end are moved entries. *)
Lemma move_entries l m (D : list (bytes * V)) :
  (∀ k v, m !! k = Some v → (k, v) ∈ D ∨ (k, v) ∈ l) →
  ∀ k v, foldl move m l !! k = Some v → (k, v) ∈ D ∨ (k, v) ∈ moved <$> l.
Proof.
  revert m D. induction l as [|[o a] l IH]; intros m D Hm k v.
  { intros Hk. destruct (Hm k v Hk) as [?|[]%not_elem_of_nil]. by left. }
  cbn [foldl]. intros Hk. apply (IH _ ((f (o, a), a) :: D)) in Hk.
  { rewrite elem_of_cons in Hk. cbn [fmap list_fmap]. unfold moved at 1. rewrite elem_of_cons. naive_solver. }
  clear Hk k v. intros k v. unfold move. cbn [fst snd]. case_decide as E.
  - intros Hk. apply Hm in Hk as [?|[[= -> ->]|?]%elem_of_cons]; [left; by right| |by right].
    left. rewrite <- E. by left.
  - rewrite lookup_insert_Some, lookup_delete_Some. intros [[<- <-]|(_ & Hne & Hk)]; [left; by left|].
    apply Hm in Hk as [?|[[= -> ->]|?]%elem_of_cons]; [left; by right|done|by right].
Qed.

(** When as many entries are there as before, they are all of them. *)
Lemma moved_all l m :
  l ≡ₚ map_to_list m → size (foldl move m l) = length l →
  map_to_list (foldl move m l) ≡ₚ moved <$> l.
Proof.
  intros Hl Hsize. apply submseteq_length_Permutation.
  - apply NoDup_submseteq; [apply NoDup_map_to_list|]. intros [k v] Hk%elem_of_map_to_list.
    destruct (move_entries l m []) with (k := k) (v := v) as [[]%not_elem_of_nil|?]; [|done|done].
    intros k' v' Hk'. right. rewrite Hl. by apply elem_of_map_to_list.
  - rewrite length_fmap, <- Hsize. apply Nat.eq_le_incl, eq_sym, length_map_to_list.
Qed.

(** Entries [l] of [m] whose new keys are pairwise different, and different from the old
    keys of the others: they do not collide. *)
Record apart m (l : list (bytes * V)) : Prop := {
  ap_old : NoDup l.*1;
  ap_new : NoDup (f <$> l);
  ap_cross e e' : e ∈ l → e' ∈ l → f e = e'.1 → e = e';
  ap_there e : e ∈ l → m !! e.1 = Some e.2;
  ap_free e : e ∈ l → f e ≠ e.1 → m !! f e = None }.

Lemma move_cases m (e : bytes * V) : move m e = m ∨ (f e ≠ e.1 ∧ move m e = <[f e := e.2]> (delete e.1 m)).
Proof. unfold move. case_decide as E; [by left|]. right. split; [congruence|done]. Qed.

Lemma apart_step m e l : apart m (e :: l) → apart (move m e) l.
Proof.
  intros [Hold Hnew Hap Hm Hfree]. cbn [fmap list_fmap] in *.
  apply NoDup_cons in Hold as [Ho Hold]. apply NoDup_cons in Hnew as [Hn Hnew].
  destruct (move_cases m e) as [->|[Hne ->]].
  { split; [done|done|intros e1 e2 H1 H2; apply Hap; by right|intros e1 H1; apply Hm; by right
      |intros e1 H1; apply Hfree; by right]. }
  assert (∀ e', e' ∈ l → e'.1 ≠ e.1 ∧ f e' ≠ f e) as Hdiff.
  { intros e' He. split; intros E; [apply Ho|apply Hn]; rewrite <- E; by apply list_elem_of_fmap_2. }
  split; [done|done|intros e1 e2 H1 H2; apply Hap; by right|..]; intros e' He;
    destruct (Hdiff e' He) as [H1 H2].
  - rewrite lookup_insert_ne; [rewrite lookup_delete_ne by done; apply Hm; by right|].
    intros E. assert (e = e') as <- by (apply Hap; [by left|by right|done]). done.
  - intros Hfe. rewrite lookup_insert_ne by done. apply lookup_delete_None. right.
    apply Hfree; [by right|done].
Qed.

Lemma move_size m (e : bytes * V) :
  m !! e.1 = Some e.2 → (f e ≠ e.1 → m !! f e = None) → size (move m e) = size m.
Proof.
  intros He Hf. destruct (move_cases m e) as [->|[Hne ->]]; [done|].
  rewrite map_size_insert_None by (rewrite lookup_delete_ne by done; by apply Hf).
  rewrite map_size_delete_Some by (by eexists). assert (size m ≠ 0)%nat; [|lia].
  intros E%map_size_empty_inv. by rewrite E in He.
Qed.

Lemma move_apart l m : apart m l → size (foldl move m l) = size m.
Proof.
  revert m. induction l as [|e l IH]; intros m Hap; [done|]. cbn [foldl].
  rewrite IH by (by apply apart_step). destruct Hap as [_ _ _ Hm Hfree].
  apply move_size; [apply Hm|apply Hfree]; by left.
Qed.

(** Replacing the value of every entry. *)
Lemma refill (g : bytes * V → V) l m :
  l ≡ₚ map_to_list m →
  foldl (λ m e, <[e.1 := g e]> m) m l = map_imap (λ k v, Some (g (k, v))) m.
Proof.
  intros Hl. apply map_eq. intros k. rewrite map_lookup_imap.
  assert (∀ l m', NoDup l.*1 → foldl (λ m e, <[e.1 := g e]> m) m' l !! k =
    match (list_to_map l : gmap bytes V) !! k with Some v => Some (g (k, v)) | None => m' !! k end) as Hf.
  { clear. induction l as [|[k0 v0] l IH]; intros m' Hnd; [done|]. cbn [fmap list_fmap fst] in Hnd.
    apply NoDup_cons in Hnd as [Hni Hnd]. cbn [foldl list_to_map foldr uncurry fst]. rewrite IH by done.
    destruct (decide (k0 = k)) as [->|Hne].
    - rewrite (not_elem_of_list_to_map_1 l k) by done. by rewrite !lookup_insert_eq.
    - by rewrite !lookup_insert_ne. }
  rewrite Hf; [|rewrite Hl; apply NoDup_fst_map_to_list].
  rewrite (list_to_map_proper l (map_to_list m)), list_to_map_to_list;
    [by destruct (m !! k)|rewrite Hl; apply NoDup_fst_map_to_list|done].
Qed.
End Moving.

(** ** The migration to version 7 *)

Section MigrationCorrect.
Context {W : Type} `{GethLaws} `{Sdk} `{HashingLaws} `{Codec} `{Staking W}.
Implicit Types s : State W.

(** The attestations before the upgrade: each under the nonce of its claim and a hash
    that was computed in another way, without the parts of the claim; voted and
    observed as the oracle's invariant demands. *)
Record v6_ok s : Prop := {
  v6_observed : counter_ok (raw s !! LastObservedEventNonceKey);
  v6_votes v : counter_ok (raw s !! vote_key v);
  v6_atts k att : atts s !! k = Some att → ∃ claim h old,
    att_claim att claim h ∧ int_ok (claim_amount claim) ∧
    k = GetAttestationKey (GetEventNonce claim) old ∧ at_ClaimComponents att = None ∧
    NoDup (at_Votes att) ∧ Forall (voted s (GetEventNonce claim)) (at_Votes att) ∧
    (at_Observed att = true → GetEventNonce claim ≤ last_observed s);
  v6_once k1 att1 k2 att2 vote :
    atts s !! k1 = Some att1 → atts s !! k2 = Some att2 → nonce_of att1 = nonce_of att2 →
    vote ∈ at_Votes att1 → vote ∈ at_Votes att2 → k1 = k2;
  v6_unique k1 att1 k2 att2 :
    atts s !! k1 = Some att1 → atts s !! k2 = Some att2 → nonce_of att1 = nonce_of att2 →
    at_Observed att1 = true → at_Observed att2 = true → k1 = k2 }.

Definition claim_of (att : Attestation) : option EthereumClaim :=
  match UnpackClaim (at_Claim att) with Ok c => Some c | Er _ => None end.

Definition new_hash (att : Attestation) : bytes :=
  match UnpackClaim (at_Claim att) ≫= ClaimHash with Ok h => h | Er _ => [] end.

(** The key an attestation has after the upgrade. *)
Definition new_key (e : bytes * Attestation) : bytes :=
  GetAttestationKey (nonce_of e.2) (new_hash e.2).

(** The attestation with the parts of its claim. *)
Definition filled (att : Attestation) : Attestation :=
  match UnpackClaim (at_Claim att) with
  | Ok c => mkAttestation (at_Observed att) (at_Votes att) (at_Height att) (at_Claim att) (GetType c)
              (match ExtractClaimHashComponents c with Ok comps => Some comps | Er _ => None end)
  | Er _ => att
  end.

Lemma ClaimHash_Extract c h : ClaimHash c = Ok h → ∃ comps, ExtractClaimHashComponents c = Ok comps.
Proof.
  destruct c as [c|c|c|c|c]; cbn; [by eexists..|].
  unfold ValsetUpdated_ClaimHash.
  destruct (BridgeValidators_ToInternal (vu_Members c)) as [ms|]; [|done]. cbn. by eexists.
Qed.

Lemma att_claim_new att c h :
  att_claim att c h → nonce_of att = GetEventNonce c ∧ new_hash att = h.
Proof. intros (Hu & Hh & _). unfold nonce_of, new_hash. rewrite Hu. cbn. by rewrite Hh. Qed.

Lemma length_GetAttestationKey n h : length (GetAttestationKey n h) = (hash_start + length h)%nat.
Proof.
  unfold GetAttestationKey, AppendBytes, hash_start. cbn [concat].
  rewrite app_nil_r, !length_app, length_UInt64Bytes. lia.
Qed.

Lemma slice_from_key n h : slice_from hash_start (GetAttestationKey n h) = Some h.
Proof.
  unfold slice_from. rewrite length_GetAttestationKey, decide_True by lia. f_equal.
  unfold GetAttestationKey, AppendBytes, hash_start. cbn [concat].
  rewrite app_nil_r, app_assoc. apply drop_app_length'. by rewrite length_app, length_UInt64Bytes.
Qed.

Lemma slice_nonce_key n h :
  u64_ok n → be_val <$> slice (length OracleAttestationKey) hash_start (GetAttestationKey n h) = Some n.
Proof.
  intros Hn. unfold slice. rewrite length_GetAttestationKey, decide_True by lia.
  unfold GetAttestationKey, AppendBytes, hash_start. cbn [concat fmap option_fmap option_map].
  rewrite app_nil_r, drop_app_length, Nat.add_comm, Nat.add_sub.
  rewrite take_app_length' by (by rewrite length_UInt64Bytes).
  unfold UInt64Bytes. rewrite be_val_be_bytes, Z.mod_small; [done|]. by rewrite <- two64_pow.
Qed.

(** The entries the migration iterates over. *)
Definition att_entries s : list (bytes * Attestation) :=
  iter_asc (atts s) (prefixRange OracleAttestationKey).

Definition att_keyed s : Prop :=
  ∀ k att, atts s !! k = Some att → ∃ n h, k = GetAttestationKey n h.

Lemma att_entries_all s : att_keyed s → att_entries s ≡ₚ map_to_list (atts s).
Proof.
  intros Hk. unfold att_entries. rewrite iter_asc_perm. rewrite list_filter_all; [done|].
  apply Forall_forall. intros [k a] Ha%elem_of_map_to_list. destruct (Hk k a Ha) as (n & h & ->).
  unfold GetAttestationKey, AppendBytes. cbn [concat fst].
  apply prefix_in_range; [done|]. by repeat constructor.
Qed.

Lemma v6_keyed s : v6_ok s → att_keyed s.
Proof. intros Hok k a Ha. destruct (v6_atts _ Hok k a Ha) as (c & h & old & _ & _ & -> & _). eauto. Qed.

Lemma v6_entry s k a :
  v6_ok s → (k, a) ∈ att_entries s → ∃ c h old, att_claim a c h ∧ int_ok (claim_amount c) ∧
    k = GetAttestationKey (GetEventNonce c) old ∧ at_ClaimComponents a = None.
Proof.
  intros Hok [Ha _]%elem_of_iter_asc.
  destruct (v6_atts _ Hok k a Ha) as (c & h & old & Hc & Hi & Hk & Hn & _). by exists c, h, old.
Qed.

Definition votes_in (l : list (bytes * Attestation)) : Z :=
  sumZ (λ e, Z.of_nat (length (at_Votes e.2))) l.

(** The state with other attestations. *)
Definition with_atts (m : gmap bytes Attestation) s : State W := upd_kv (upd_attestations (λ _, m)) s.

Lemma with_atts_id s : with_atts (atts s) s = s.
Proof. by destruct s as [[] w ht ev]. Qed.

(** ** Collecting *)

Definition item_for (e : bytes * Attestation) (item : attestationToMigrate) : Prop :=
  am_oldKey item = e.1 ∧ am_eventNonce item = nonce_of e.2 ∧ am_attestation item = e.2 ∧
  am_newHash item = new_hash e.2.

(** An attestation under the nonce of its claim. *)
Definition under_nonce (e : bytes * Attestation) : Prop :=
  ∃ c h old, att_claim e.2 c h ∧ int_ok (claim_amount c) ∧ e.1 = GetAttestationKey (GetEventNonce c) old.

Lemma collect_loop l items votes s :
  Forall under_nonce l → ∃ items', Forall2 item_for l items' ∧
    for_acc l (items, votes) (λ kv acc, collect_attestation kv.1 kv.2 acc) s =
      Ret (items ++ items', votes + votes_in l) s.
Proof.
  intros Hl. revert items votes. induction Hl as [|[k a] l (c & h & old & Hc & _ & Hk) Hl IH]; intros items votes.
  { exists []. rewrite app_nil_r. split; [done|]. cbn. by rewrite Z.add_0_r. }
  destruct (att_claim_new a c h Hc) as [Hn Hh]. destruct Hc as (Hu & Hch & Hok & _). cbn [fst snd] in Hk, Hu.
  destruct (IH (items ++ [mkAttestationToMigrate k (GetEventNonce c) a c h])
              (votes + Z.of_nat (length (at_Votes a)))) as (items' & Hf & E).
  exists (mkAttestationToMigrate k (GetEventNonce c) a c h :: items'). split.
  { constructor; [|done]. by rewrite <- Hn, <- Hh. }
  cbn [for_acc fst snd]. pose proof (slice_nonce_key (GetEventNonce c) old Hok) as Hs.
  destruct (slice (length OracleAttestationKey) hash_start (GetAttestationKey (GetEventNonce c) old))
    as [nb|] eqn:Esl; [|done]. injection Hs as Hs.
  rewrite (bind_ret _ _ s (items ++ [mkAttestationToMigrate k (GetEventNonce c) a c h],
    votes + Z.of_nat (length (at_Votes a)), false) s).
  - rewrite E. rewrite <- app_assoc, <- Z.add_assoc. done.
  - unfold collect_attestation, UnpackAttestationClaim. rewrite Hu. cbn [or_panic].
    rewrite (bind_ret _ _ s c s) by done. rewrite Hch. rewrite (bind_ret _ _ s h s) by done.
    rewrite Hk, Esl. rewrite (bind_ret _ _ s nb s) by done. by rewrite Hs.
Qed.

(** ** Rewriting *)

Lemma rewrite_step e item s :
  under_nonce e → item_for e item →
  rewrite_attestation item s = Ret tt (with_atts (move new_key (atts s) e) s).
Proof.
  destruct e as [k a]. intros (c & h & old & Hc & _ & Hk) (E1 & E2 & E3 & E4). cbn [fst snd] in *.
  destruct (att_claim_new a c h Hc) as [Hn Hh]. destruct Hc as (Hu & Hch & Hok & _).
  unfold rewrite_attestation. rewrite E1, Hk, slice_from_key. cbn [opt_panic].
  rewrite (bind_ret _ _ s old s) by done. rewrite E2, E3, E4. unfold move, new_key. cbn [fst snd].
  rewrite Hn, Hh. case_decide as D1; case_decide as D2; try done.
  - by rewrite with_atts_id.
  - by rewrite D1 in D2.
  - apply attestation_key_inj in D2 as [_ D2]; [|done..]. done.
Qed.

Lemma rewrite_loop l items s :
  Forall under_nonce l → Forall2 item_for l items →
  for_each items rewrite_attestation s = Ret tt (with_atts (foldl (move new_key) (atts s) l) s).
Proof.
  intros Hl Hf. revert s Hl. induction Hf as [|e item l items He Hf IH]; intros s Hl.
  { cbn. by rewrite with_atts_id. }
  apply Forall_cons in Hl as [Hle Hl]. cbn [for_each foldl].
  rewrite (bind_ret _ _ _ _ _ (rewrite_step e item s Hle He)). by rewrite IH.
Qed.

Lemma count_loop l n v s :
  for_acc l (n, v) (λ kv post, mret ((post.1 + 1, post.2 + Z.of_nat (length (at_Votes kv.2))), false)) s =
    Ret (n + Z.of_nat (length l), v + votes_in l) s.
Proof.
  revert n v. induction l as [|e l IH]; intros n v; cbn [for_acc].
  { cbn. by rewrite !Z.add_0_r. }
  rewrite (bind_ret _ _ s (n + 1, v + Z.of_nat (length (at_Votes e.2)), false) s) by done.
  rewrite IH, <- !Z.add_assoc. cbn [length]. by rewrite Nat2Z.inj_succ, <- Z.add_1_l.
Qed.

Lemma count_all s :
  IterateAttestations false (0, 0) (λ _ att post,
    mret ((post.1 + 1, post.2 + Z.of_nat (length (at_Votes att))), false)) s =
  Ret (Z.of_nat (length (att_entries s)), votes_in (att_entries s)) s.
Proof. exact (count_loop (att_entries s) 0 0 s). Qed.

(** ** The first phase *)

Definition rekeyed s : gmap bytes Attestation := foldl (move new_key) (atts s) (att_entries s).

Lemma v6_under_nonce s : v6_ok s → Forall under_nonce (att_entries s).
Proof.
  intros Hok. apply Forall_forall. intros [k a] He.
  destruct (v6_entry s k a Hok He) as (c & h & old & Hc & Hi & Hk & _). by exists c, h, old.
Qed.

Lemma rekeyed_entry s k a :
  v6_ok s → rekeyed s !! k = Some a → ∃ k0, (k0, a) ∈ att_entries s ∧ k = new_key (k0, a).
Proof.
  intros Hok Hk. destruct (move_entries new_key (att_entries s) (atts s) []) with (k := k) (v := a)
    as [[]%not_elem_of_nil|([k0 a0] & [= -> ->] & He)%list_elem_of_fmap]; [|done|by exists k0].
  intros k' v' Hk'. right. rewrite att_entries_all by (by apply v6_keyed). by apply elem_of_map_to_list.
Qed.

Lemma rekeyed_keyed s : v6_ok s → att_keyed (with_atts (rekeyed s) s).
Proof.
  intros Hok k a Ha. destruct (rekeyed_entry s k a Hok Ha) as (k0 & _ & ->). unfold new_key. eauto.
Qed.

Lemma rekeyed_all s :
  v6_ok s → size (rekeyed s) = length (att_entries s) →
  map_to_list (rekeyed s) ≡ₚ moved new_key <$> att_entries s.
Proof. intros Hok. apply moved_all, att_entries_all, v6_keyed, Hok. Qed.

Lemma separator_eq s :
  v6_ok s →
  (size (rekeyed s) = length (att_entries s) →
   MigrateAttestationsToAttestationSeparator s = Ret tt (with_atts (rekeyed s) s)) ∧
  (size (rekeyed s) ≠ length (att_entries s) →
   MigrateAttestationsToAttestationSeparator s = Panic "Attestation migration integrity failure").
Proof.
  intros Hok. pose proof (v6_under_nonce s Hok) as Hl.
  destruct (collect_loop (att_entries s) [] 0 s Hl) as (items & Hf & Ec).
  assert (MigrateAttestationsToAttestationSeparator s =
    guard_panic (negb (Z.of_nat (size (rekeyed s)) =? Z.of_nat (length (att_entries s))) ||
                 negb (votes_in (att_entries (with_atts (rekeyed s) s)) =? votes_in (att_entries s)))
      "Attestation migration integrity failure" (with_atts (rekeyed s) s)) as ->.
  { unfold MigrateAttestationsToAttestationSeparator.
    rewrite (bind_ret (IterateAttestations false ([], 0) collect_attestation) _ s _ s Ec).
    cbn [app]. rewrite (bind_ret _ _ _ _ _ (rewrite_loop _ _ s Hl Hf)).
    rewrite (bind_ret _ _ _ _ _ (count_all (with_atts (rekeyed s) s))).
    cbn [fst snd]. rewrite !Z.add_0_l, <- (Forall2_length _ _ _ Hf).
    rewrite (Permutation_length (att_entries_all _ (rekeyed_keyed s Hok))), length_map_to_list.
    done. }
  split; intros E.
  - rewrite E, Z.eqb_refl. cbn [negb orb].
    assert (votes_in (att_entries (with_atts (rekeyed s) s)) = votes_in (att_entries s)) as ->;
      [|by rewrite Z.eqb_refl].
    unfold votes_in. rewrite (att_entries_all _ (rekeyed_keyed s Hok)). cbn [st_kv with_atts].
    rewrite (rekeyed_all s Hok E), sumZ_fmap. done.
  - rewrite (proj2 (Z.eqb_neq _ _)) by lia. done.
Qed.

(** ** The second phase *)

Lemma fill_step k a c h s :
  att_claim a c h → int_ok (claim_amount c) → k = GetAttestationKey (GetEventNonce c) h →
  at_ClaimComponents a = None →
  fill_components k a s = Ret tt (with_atts (<[k := filled a]> (atts s)) s).
Proof.
  intros (Hu & Hh & _) Hi -> Hn. unfold fill_components. rewrite Hn.
  rewrite (bind_ret _ _ s tt s) by done. unfold UnpackAttestationClaim. rewrite Hu.
  rewrite (bind_ret _ _ s c s) by done. destruct (ClaimHash_Extract c h Hh) as [comps Hc].
  rewrite Hc. rewrite (bind_ret _ _ s comps s) by done.
  rewrite (ComputeClaimHash_Extract _ c comps Hi Hc), Hh. rewrite (bind_ret _ _ s h s) by done.
  rewrite slice_from_key. rewrite (bind_ret _ _ s h s) by done.
  rewrite bool_decide_eq_false_2 by (intros []; done). rewrite (bind_ret _ _ s tt s) by done.
  unfold filled. by rewrite Hu, Hc.
Qed.

(** An attestation under its new key, not yet filled. *)
Definition unfilled (e : bytes * Attestation) : Prop :=
  ∃ c h, att_claim e.2 c h ∧ int_ok (claim_amount c) ∧
    e.1 = GetAttestationKey (GetEventNonce c) h ∧ at_ClaimComponents e.2 = None.

Lemma fill_loop l s :
  Forall unfilled l →
  for_acc l tt (λ kv _, _ ← fill_components kv.1 kv.2; mret (tt, false)) s =
    Ret tt (with_atts (foldl (λ m e, <[e.1 := filled e.2]> m) (atts s) l) s).
Proof.
  intros Hl. revert s. induction Hl as [|[k a] l (c & h & Hc & Hi & Hk & Hn) Hl IH]; intros s.
  { cbn. by rewrite with_atts_id. }
  cbn [for_acc fst snd] in *. unfold mbind at 1, M_bind at 1.
  rewrite (bind_ret _ _ _ _ _ (fill_step k a c h s Hc Hi Hk Hn)). unfold mret at 1, M_ret at 1.
  by rewrite IH.
Qed.

Lemma components_eq s :
  att_keyed s → Forall unfilled (att_entries s) →
  MigrateAttestationsToClaimHashComponents s = Ret tt (with_atts (filled <$> atts s) s).
Proof.
  intros Hk Hl. unfold MigrateAttestationsToClaimHashComponents, IterateAttestations.
  rewrite (bind_ret _ _ s (att_entries s) s) by done. rewrite fill_loop by done. do 2 f_equal.
  rewrite (refill (λ e, filled e.2)) by (by apply att_entries_all). apply map_eq. intros k.
  rewrite map_lookup_imap, lookup_fmap. by destruct (atts s !! k).
Qed.

Lemma rekeyed_unfilled s : v6_ok s → Forall unfilled (att_entries (with_atts (rekeyed s) s)).
Proof.
  intros Hok. apply Forall_forall. intros [k a] [Hk _]%elem_of_iter_asc.
  destruct (rekeyed_entry s k a Hok Hk) as (k0 & He & ->).
  destruct (v6_entry s k0 a Hok He) as (c & h & old & Hc & Hi & _ & Hn). exists c, h.
  destruct (att_claim_new a c h Hc) as [E1 E2]. unfold new_key. cbn [fst snd]. by rewrite E1, E2.
Qed.

Lemma Migrate6to7_eq s :
  v6_ok s → size (rekeyed s) = length (att_entries s) →
  Migrate6to7 s = Ret tt (with_atts (filled <$> rekeyed s) s).
Proof.
  intros Hok E. destruct (separator_eq s Hok) as [Hs _]. unfold Migrate6to7.
  rewrite (bind_ret _ _ _ _ _ (Hs E)).
  rewrite components_eq; [done|by apply rekeyed_keyed|by apply rekeyed_unfilled].
Qed.

(** ** The whole migration *)

(** No attestation would be stored over another one. *)
Definition keys_apart s : Prop :=
  NoDup (new_key <$> map_to_list (atts s)) ∧
  ∀ e e', e ∈ map_to_list (atts s) → e' ∈ map_to_list (atts s) → new_key e = e'.1 → e = e'.

(** Every attestation carries the parts of its claim, as votes are compared with. *)
Definition parts_ok s : Prop :=
  ∀ k a, atts s !! k = Some a → ∃ c comps, UnpackClaim (at_Claim a) = Ok c ∧ at_ClaimType a = GetType c ∧
    ExtractClaimHashComponents c = Ok comps ∧ at_ClaimComponents a = Some comps.

(** Every attestation is there, under its new key and filled, and nothing else changed. *)
Definition migrated s s' : Prop :=
  s' = with_atts (atts s') s ∧
  map_to_list (atts s') ≡ₚ (λ e, (new_key e, filled e.2)) <$> map_to_list (atts s).

Lemma migrated_lookup s s' k a' :
  migrated s s' → atts s' !! k = Some a' →
  ∃ k0 a, atts s !! k0 = Some a ∧ k = new_key (k0, a) ∧ a' = filled a.
Proof.
  intros [_ Hp] Hk%elem_of_map_to_list. rewrite Hp in Hk.
  apply list_elem_of_fmap in Hk as ([k0 a] & [= -> ->] & Ha%elem_of_map_to_list). by exists k0, a.
Qed.

Lemma filled_same a :
  at_Claim (filled a) = at_Claim a ∧ at_Votes (filled a) = at_Votes a ∧ at_Observed (filled a) = at_Observed a.
Proof. unfold filled. by destruct (UnpackClaim (at_Claim a)). Qed.

Lemma filled_claim a c h : att_claim (filled a) c h ↔ att_claim a c h.
Proof. unfold att_claim. by destruct (filled_same a) as [-> _]. Qed.

Lemma migrated_ok s s' : v6_ok s → migrated s s' → oracle_ok s'.
Proof.
  intros Hok Hmg. pose proof (proj1 Hmg) as Hs.
  assert (raw s' = raw s) as Hraw by (by rewrite Hs).
  assert (∀ n vote, voted s n vote → voted s' n vote) as Hv.
  { intros n vote (v & m & ? & ? & Hl & ?). exists v, m. unfold last_vote in *. by rewrite Hraw. }
  assert (last_observed s' = last_observed s) as Hlo by (unfold last_observed; by rewrite Hraw).
  assert (∀ k1 a1 c1 h1 k2 a2 c2 h2, atts s' !! k1 = Some a1 → atts s' !! k2 = Some a2 →
    att_claim a1 c1 h1 → att_claim a2 c2 h2 → GetEventNonce c1 = GetEventNonce c2 →
    ∃ o1 b1 o2 b2, atts s !! o1 = Some b1 ∧ atts s !! o2 = Some b2 ∧ nonce_of b1 = nonce_of b2 ∧
      a1 = filled b1 ∧ a2 = filled b2 ∧ (o1 = o2 → k1 = k2)) as Hpair.
  { intros k1 a1 c1 h1 k2 a2 c2 h2 Hk1 Hk2 Hc1 Hc2 En.
    destruct (migrated_lookup s s' k1 a1 Hmg Hk1) as (o1 & b1 & Hb1 & -> & ->).
    destruct (migrated_lookup s s' k2 a2 Hmg Hk2) as (o2 & b2 & Hb2 & -> & ->).
    exists o1, b1, o2, b2. apply (proj1 (filled_claim b1 c1 h1)) in Hc1. apply (proj1 (filled_claim b2 c2 h2)) in Hc2.
    destruct (att_claim_new _ _ _ Hc1) as [-> _], (att_claim_new _ _ _ Hc2) as [-> _].
    split_and!; [done..|]. intros <-. by simplify_eq. }
  split.
  - rewrite Hraw. apply Hok.
  - intros v. rewrite Hraw. apply Hok.
  - intros k a Ha. destruct (migrated_lookup s s' k a Hmg Ha) as (k0 & b & Hb & -> & ->).
    destruct (v6_atts _ Hok k0 b Hb) as (c & h & old & Hc & _ & _ & _ & Hnd & Hvs & Ho).
    exists c, h. destruct (att_claim_new b c h Hc) as [E1 E2]. unfold new_key. cbn [snd].
    rewrite E1, E2, Hlo. destruct (filled_same b) as (_ & -> & ->).
    split_and!; [by apply filled_claim|done|done| |done]. eapply Forall_impl; [exact Hvs|apply Hv].
  - intros k1 a1 c1 h1 k2 a2 c2 h2 vote Hk1 Hk2 Hc1 Hc2 En.
    destruct (Hpair k1 a1 c1 h1 k2 a2 c2 h2) as (o1 & b1 & o2 & b2 & Hb1 & Hb2 & Hn & -> & -> & Hk); [done..|].
    destruct (filled_same b1) as (_ & -> & _), (filled_same b2) as (_ & -> & _).
    intros V1 V2. by apply Hk, (v6_once _ Hok o1 b1 o2 b2 vote).
  - intros k1 a1 c1 h1 k2 a2 c2 h2 Hk1 Hk2 Hc1 Hc2 En.
    destruct (Hpair k1 a1 c1 h1 k2 a2 c2 h2) as (o1 & b1 & o2 & b2 & Hb1 & Hb2 & Hn & -> & -> & Hk); [done..|].
    destruct (filled_same b1) as (_ & _ & ->), (filled_same b2) as (_ & _ & ->).
    intros O1 O2. by apply Hk, (v6_unique _ Hok o1 b1 o2 b2).
Qed.

Lemma migrated_parts s s' : v6_ok s → migrated s s' → parts_ok s'.
Proof.
  intros Hok Hmg k a Ha. destruct (migrated_lookup s s' k a Hmg Ha) as (k0 & b & Hb & _ & ->).
  destruct (v6_atts _ Hok k0 b Hb) as (c & h & old & (Hu & Hh & _) & _).
  destruct (ClaimHash_Extract c h Hh) as [comps Hc]. exists c, comps. unfold filled. by rewrite Hu, Hc.
Qed.

Lemma rekeyed_migrated s :
  v6_ok s → size (rekeyed s) = length (att_entries s) → migrated s (with_atts (filled <$> rekeyed s) s).
Proof.
  intros Hok E. split; [done|]. cbn [st_kv kv_attestations with_atts upd_kv upd_attestations].
  rewrite map_to_list_fmap, (rekeyed_all s Hok E), (att_entries_all s (v6_keyed s Hok)).
  by rewrite <- list_fmap_compose.
Qed.

Lemma keys_apart_entries s l : l ≡ₚ map_to_list (atts s) → keys_apart s → apart new_key (atts s) l.
Proof.
  intros Hp [Hnd Hap]. split.
  - rewrite Hp. apply NoDup_fst_map_to_list.
  - by rewrite Hp.
  - intros e e'. rewrite Hp. apply Hap.
  - intros [k a]. rewrite Hp. by intros Ha%elem_of_map_to_list.
  - intros e. rewrite Hp. intros He Hne. destruct (atts s !! new_key e) as [a|] eqn:Ea; [|done].
    exfalso. apply Hne. assert (e = (new_key e, a)) as Ee; [|by rewrite Ee at 2].
    apply Hap; [done|by apply elem_of_map_to_list|done].
Qed.

Lemma apart_size s : v6_ok s → keys_apart s → size (rekeyed s) = length (att_entries s).
Proof.
  intros Hok Hap. pose proof (att_entries_all s (v6_keyed s Hok)) as Hp.
  rewrite (Permutation_length Hp), length_map_to_list. by apply move_apart, keys_apart_entries.
Qed.

(** C18. The upgrade to version 7 moves every attestation to the key of its new hash, with all its votes, and fills in the parts of its claim, or it stops the chain: whenever it returns, the attestations are exactly the old ones, moved and filled, nothing else has changed, and the invariant of the oracle holds.  It returns when no attestation would be stored over another one, and panics when two would get the same key. *)
Theorem Migrate6to7_keeps_votes s :
  v6_ok s →
  (∀ u s', Migrate6to7 s = Ret u s' → migrated s s' ∧ oracle_ok s' ∧ parts_ok s') ∧
  (keys_apart s → returns Migrate6to7 s) ∧
  (¬ NoDup (new_key <$> map_to_list (atts s)) → ∃ msg, Migrate6to7 s = Panic msg).
Proof.
  intros Hok. destruct (separator_eq s Hok) as [_ Hpanic].
  destruct (decide (size (rekeyed s) = length (att_entries s))) as [E|E].
  - pose proof (rekeyed_migrated s Hok E) as Hmg. pose proof (Migrate6to7_eq s Hok E) as Hrun.
    split_and!.
    + intros u s'. rewrite Hrun. intros [= <- <-].
      split_and!; [done|by apply (migrated_ok s)|by apply (migrated_parts s)].
    + intros _. by eexists _, _.
    + intros []. pose proof (NoDup_fst_map_to_list (atts (with_atts (filled <$> rekeyed s) s))) as Hnd.
      rewrite (proj2 Hmg), <- list_fmap_compose in Hnd. exact Hnd.
  - assert (Migrate6to7 s = Panic "Attestation migration integrity failure") as Hrun
      by (unfold Migrate6to7; by apply bind_panic, Hpanic).
    split_and!; [by rewrite Hrun|intros Hap; by destruct E; apply apart_size|by eexists].
Qed.
End MigrationCorrect.

(** ** The migration to version 3 *)

Section MigrationV3.
Context {W : Type} `{Geth} `{Sdk} `{Hashing} `{Codec} `{Staking W}.
Implicit Types s : State W.

(** An attestation as version 2 filed it: only the hash of batches was computed in
    another way. *)
Definition filed_v2 (e : bytes * Attestation) : Prop :=
  ∃ c h old, att_claim e.2 c h ∧ e.1 = GetAttestationKey (GetEventNonce c) old ∧
    length old = length h ∧ (GetType c = CLAIM_TYPE_BATCH_SEND_TO_ETH ↔ old ≠ h).

Lemma attestation_key_app n h : GetAttestationKey n h = OracleAttestationKey ++ UInt64Bytes n ++ h.
Proof. unfold GetAttestationKey, AppendBytes. cbn [concat]. by rewrite app_nil_r. Qed.

(** The converter lets exactly the attestations of batches move. *)
Lemma converter_eq a c h old s :
  att_claim a c h → length old = length h → (GetType c = CLAIM_TYPE_BATCH_SEND_TO_ETH ↔ old ≠ h) →
  getAttestationConverter a (GetAttestationKey (GetEventNonce c) old) OracleAttestationKey s =
    Ret (UInt64Bytes (GetEventNonce c) ++ h) s.
Proof.
  intros (Hu & Hch & Hn & _) Hlen Hty. unfold getAttestationConverter, UnpackAttestationClaim. rewrite Hu.
  rewrite (bind_ret _ _ s c s) by done. rewrite Hch. rewrite (bind_ret _ _ s h s) by done.
  rewrite (attestation_key_app (GetEventNonce c) h) at 1.
  assert (∀ x, slice_from (length OracleAttestationKey) (OracleAttestationKey ++ x) = Some x) as ->.
  { intros x. unfold slice_from. rewrite decide_True by (rewrite length_app; lia).
    by rewrite drop_app_length. }
  rewrite (bind_ret _ _ s (UInt64Bytes (GetEventNonce c) ++ h) s) by done.
  rewrite (bool_decide_eq_false_2 (length _ < length h)%nat) by (rewrite length_GetAttestationKey; lia).
  rewrite (bind_ret _ _ s tt s) by done.
  assert (GetAttestationKey (GetEventNonce c) old = GetAttestationKey (GetEventNonce c) h ↔ old = h) as Hiff.
  { split; [by intros [_ ?]%attestation_key_inj|by intros ->]. }
  case_decide as D.
  - rewrite bool_decide_eq_false_2 by (rewrite Hiff; by apply Hty). done.
  - rewrite bool_decide_eq_false_2; [done|]. intros []. apply Hiff.
    destruct (decide (old = h)); [done|]. by destruct D; apply Hty.
Qed.

(** The key with its prefix. *)
Definition full (kv : bytes * Attestation) : bytes * Attestation := (OracleAttestationKey ++ kv.1, kv.2).

Lemma migrate_entry_eq kv s :
  filed_v2 (full kv) →
  migrate_entry_v3 OracleAttestationKey kv.1 kv.2 s =
    if decide (new_key (full kv) ≠ (full kv).1 ∧ is_Some (atts s !! new_key (full kv)))
    then Panic "New key collides with an existing key!"
    else Ret tt (with_atts (move new_key (atts s) (full kv)) s).
Proof.
  destruct kv as [k a]. intros (c & h & old & Hc & Hk & Hlen & Hty). cbn [fst snd full] in *.
  destruct (att_claim_new a c h Hc) as [En Eh]. rewrite attestation_key_app in Hk. apply app_inv_head in Hk as ->.
  unfold migrate_entry_v3, AppendBytes. cbn [concat]. rewrite app_nil_r.
  pose proof (converter_eq a c h old s Hc Hlen Hty) as Ec. rewrite attestation_key_app in Ec.
  rewrite (bind_ret _ _ _ _ _ Ec).
  unfold full, move. cbn [fst snd].
  assert (new_key (OracleAttestationKey ++ UInt64Bytes (GetEventNonce c) ++ old, a) =
    OracleAttestationKey ++ UInt64Bytes (GetEventNonce c) ++ h) as ->
    by (unfold new_key; cbn [snd]; rewrite En, Eh; apply attestation_key_app).
  set (k1 := UInt64Bytes (GetEventNonce c) ++ old). set (k2 := UInt64Bytes (GetEventNonce c) ++ h).
  destruct (decide (k1 = k2)) as [<-|D].
  - rewrite decide_False by (by intros [[] _]). rewrite decide_True by done. by rewrite with_atts_id.
  - assert (OracleAttestationKey ++ k1 ≠ OracleAttestationKey ++ k2) as Hne by (by intros ?%app_inv_head).
    unfold gets, mbind, M_bind. case_bool_decide as B.
    + by rewrite decide_True by (split; [congruence|done]).
    + rewrite decide_False by tauto. by rewrite decide_False.
Qed.

Lemma v3_loop_inv l s u s' :
  Forall filed_v2 (full <$> l) → NoDup (full <$> l).*1 → (∀ e, e ∈ full <$> l → atts s !! e.1 = Some e.2) →
  for_each l (λ kv, migrate_entry_v3 OracleAttestationKey kv.1 kv.2) s = Ret u s' →
  s' = with_atts (foldl (move new_key) (atts s) (full <$> l)) s ∧
  size (foldl (move new_key) (atts s) (full <$> l)) = size (atts s).
Proof.
  revert s. induction l as [|kv l IH]; intros s Hf Hnd Hm.
  { intros [= <- <-]. cbn [foldl fmap list_fmap]. by rewrite with_atts_id. }
  cbn [fmap list_fmap for_each foldl] in *. apply Forall_cons in Hf as [Hkv Hf].
  apply NoDup_cons in Hnd as [Hni Hnd]. intros Hrun.
  mnext Hrun as u1 s1 E1. rewrite migrate_entry_eq in E1 by done. case_decide as D; [done|].
  injection E1 as <- <-.
  assert (atts s !! (full kv).1 = Some (full kv).2) as Hkv' by (apply Hm; by left).
  assert (new_key (full kv) ≠ (full kv).1 → atts s !! new_key (full kv) = None) as Hfree.
  { intros Hne. destruct (atts s !! new_key (full kv)) eqn:E; [|done]. destruct D. by split. }
  apply IH in Hrun as [-> Hs]; [|done|done|].
  - split; [done|]. cbn [with_atts upd_kv upd_attestations st_kv kv_attestations] in *.
    rewrite Hs. by apply move_size.
  - intros e He. cbn [with_atts upd_kv upd_attestations st_kv kv_attestations].
    assert (e.1 ≠ (full kv).1) as Hne by (intros E; apply Hni; rewrite <- E; by apply list_elem_of_fmap_2).
    destruct (move_cases new_key (atts s) (full kv)) as [->|[Hk ->]]; [apply Hm; by right|].
    rewrite lookup_insert_ne; [rewrite lookup_delete_ne by done; apply Hm; by right|].
    intros E. specialize (Hfree Hk). rewrite E, Hm in Hfree by (by right). done.
Qed.

Lemma v3_loop_runs l s :
  Forall filed_v2 (full <$> l) → apart new_key (atts s) (full <$> l) →
  returns (for_each l (λ kv, migrate_entry_v3 OracleAttestationKey kv.1 kv.2)) s.
Proof.
  revert s. induction l as [|kv l IH]; intros s Hf Hap; [by eexists _, _|].
  cbn [fmap list_fmap for_each] in *. apply Forall_cons in Hf as [Hkv Hf].
  assert (migrate_entry_v3 OracleAttestationKey kv.1 kv.2 s =
    Ret tt (with_atts (move new_key (atts s) (full kv)) s)) as E.
  { rewrite migrate_entry_eq, decide_False; [done| |done]. intros [Hne Hs].
    rewrite (ap_free _ _ _ Hap) in Hs; [|by left|done]. by destruct Hs. }
  unfold returns. rewrite (bind_ret _ _ _ _ _ E). apply IH; [done|]. by apply apart_step.
Qed.

Lemma full_entries s :
  (∀ k a, atts s !! k = Some a → filed_v2 (k, a)) →
  full <$> sub_entries OracleAttestationKey (atts s) ≡ₚ map_to_list (atts s).
Proof.
  intros Hs. apply NoDup_Permutation.
  - apply NoDup_fmap_2; [intros [k1 a1] [k2 a2]; unfold full; cbn [fst snd]; intros [= E ->]; by simplify_eq|].
    apply NoDup_sub_entries.
  - apply NoDup_map_to_list.
  - intros [k a]. rewrite list_elem_of_fmap, elem_of_map_to_list. split.
    + intros ([k0 a0] & [= -> ->] & He). by apply elem_of_sub_entries in He.
    + intros Ha. destruct (Hs k a Ha) as (c & h & old & _ & Hk & _). cbn [fst] in Hk.
      rewrite attestation_key_app in Hk. exists (UInt64Bytes (GetEventNonce c) ++ old, a).
      unfold full. cbn [fst snd]. rewrite <- Hk. split; [done|]. apply elem_of_sub_entries. by rewrite <- Hk.
Qed.

(** The upgrade to version 3 moves the attestations of batches, and only them, to the keys of their new hashes: whenever it returns, every attestation is there, with its votes, under the key of its hash, and nothing else has changed; it returns when no attestation would be stored over another one. *)
Theorem MigrateStore_v3_spec s :
  (∀ k a, atts s !! k = Some a → filed_v2 (k, a)) →
  (∀ u s', MigrateStore_v3 s = Ret u s' →
    s' = with_atts (atts s') s ∧ map_to_list (atts s') ≡ₚ moved new_key <$> map_to_list (atts s) ∧
    ∀ k a, atts s' !! k = Some a → ∃ c h, att_claim a c h ∧ k = GetAttestationKey (GetEventNonce c) h) ∧
  (keys_apart s → returns MigrateStore_v3 s).
Proof.
  intros Hs. pose proof (full_entries s Hs) as Hp.
  assert (Forall filed_v2 (full <$> sub_entries OracleAttestationKey (atts s))) as Hf.
  { rewrite Hp. apply Forall_forall. intros [k a] Ha%elem_of_map_to_list. by apply Hs. }
  split.
  - intros u s' Hrun. apply v3_loop_inv in Hrun as [-> Hsize]; [|done| |].
    + rewrite <- (length_map_to_list (atts s)), <- (Permutation_length Hp) in Hsize.
      pose proof (moved_all new_key _ _ Hp Hsize) as Hmv.
      cbn [with_atts upd_kv upd_attestations st_kv kv_attestations].
      rewrite (fmap_Permutation _ _ _ Hp) in Hmv. split_and!; [done|done|].
      intros k a Ha%elem_of_map_to_list. rewrite Hmv in Ha.
      apply list_elem_of_fmap in Ha as ([k0 a0] & [= -> ->] & Ha%elem_of_map_to_list).
      destruct (Hs k0 a0 Ha) as (c & h & old & Hc & _). exists c, h. split; [done|].
      destruct (att_claim_new a0 c h Hc) as [En Eh]. unfold new_key. cbn [snd]. by rewrite En, Eh.
    + rewrite Hp. apply NoDup_fst_map_to_list.
    + intros [k a]. rewrite Hp. by intros Ha%elem_of_map_to_list.
  - intros Hap. by apply v3_loop_runs, keys_apart_entries.
Qed.
End MigrationV3.

(** ** The migration of the parameters *)

Section MigrationParams.
Context {W : Type} `{Subspace W} `{Geth} `{Sdk}.
Implicit Types (s : State W) (p : Params).

(** The subspace holds the parameters [p], but for the fraction that is slashed for an
    unsigned logic call, which it has no key for. *)
Record in_subspace s p : Prop := {
  is_GravityId : sub_string "GravityID" s = Some (p_GravityId p);
  is_ContractHash : sub_string "ContractHash" s = Some (p_ContractSourceHash p);
  is_BridgeAddress : sub_string "BridgeEthereumAddress" s = Some (p_BridgeEthereumAddress p);
  is_ChainId : sub_uint64 "BridgeChainID" s = Some (p_BridgeChainId p);
  is_Valsets : sub_uint64 "SignedValsetsWindow" s = Some (p_SignedValsetsWindow p);
  is_Batches : sub_uint64 "SignedBatchesWindow" s = Some (p_SignedBatchesWindow p);
  is_Calls : sub_uint64 "SignedLogicCallsWindow" s = Some (p_SignedLogicCallsWindow p);
  is_Timeout : sub_uint64 "TargetBatchTimeout" s = Some (p_TargetBatchTimeout p);
  is_BlockTime : sub_uint64 "AverageBlockTime" s = Some (p_AverageBlockTime p);
  is_EthBlockTime : sub_uint64 "AverageEthereumBlockTime" s = Some (p_AverageEthereumBlockTime p);
  is_SlashValset : sub_dec "SlashFractionValset" s = Some (p_SlashFractionValset p);
  is_SlashBatch : sub_dec "SlashFractionBatch" s = Some (p_SlashFractionBatch p);
  is_Unbond : sub_uint64 "UnbondSlashingValsetsWindow" s = Some (p_UnbondSlashingValsetsWindow p);
  is_SlashBad : sub_dec "SlashFractionBadEthSignature" s = Some (p_SlashFractionBadEthSignature p);
  is_Reward : sub_coin "ValsetReward" s = Some (p_ValsetReward p);
  is_Active : sub_bool "BridgeActive" s = Some (p_BridgeActive p);
  is_Blacklist : sub_strings "EthereumBlacklist" s = Some (p_EthereumBlacklist p);
  is_MinFee : sub_uint64 "MinChainFeeBasisPoints" s = Some (p_MinChainFeeBasisPoints p);
  is_Fraction : sub_dec "ChainFeeAuctionPoolFraction" s = p_ChainFeeAuctionPoolFraction p;
  is_FractionSet : is_Some (p_ChainFeeAuctionPoolFraction p) }.

(** The parameters without the fraction for logic calls. *)
Definition without_fraction p : Params :=
  let '(mkParams a b c d e f g h i j k l _ m n o q r t u) := p in mkParams a b c d e f g h i j k l 0 m n o q r t u.

Lemma read_eq {A} key (get : string → State W → option A) s v :
  get key s = Some v → read key get s = Ret v s.
Proof. unfold read, gets, mbind, M_bind. by intros ->. Qed.

Lemma read_inv {A} key (get : string → State W → option A) s s' v :
  read key get s = Ret v s' → get key s = Some v ∧ s' = s.
Proof.
  unfold read. intros E. mnext E as x s1 E1. apply gets_inv in E1 as [-> ->].
  by apply opt_panic_inv in E.
Qed.

Lemma GetParamSet_eq s p : in_subspace s p → GetParamSet s = Ret (without_fraction p) s.
Proof.
  intros [E1 E2 E3 E4 E5 E6 E7 E8 E9 E10 E11 E12 E13 E14 E15 E16 E17 E18 E19 [f Ef]].
  destruct p as [a b c d e f0 g h i j k l l' m n o q r t u]. cbn in *. rewrite Ef in E19 |- *.
  unfold GetParamSet, GetParamSet_v4, GetParamSet_v3.
  rewrite (bind_ret _ _ s (mkParams_v4 (mkParams_v3 a b c d e f0 g h i j k l unset_dec m n o q r) t) s).
  - rewrite (bind_ret _ _ _ _ _ (read_eq _ _ _ _ E19)). done.
  - rewrite (bind_ret _ _ s (mkParams_v3 a b c d e f0 g h i j k l unset_dec m n o q r) s).
    + by rewrite (bind_ret _ _ _ _ _ (read_eq _ _ _ _ E18)).
    + by repeat (erewrite bind_ret; [|apply read_eq; eassumption]).
Qed.

Ltac reads E :=
  repeat (let x := fresh "x" in let s1 := fresh "s1" in let E1 := fresh "R" in
          apply bind_ret_inv in E as (x & s1 & E1 & E); apply read_inv in E1 as [? ->]).

Lemma GetParamSet_inv s s' p : GetParamSet s = Ret p s' → s' = s ∧ in_subspace s p ∧ p = without_fraction p.
Proof.
  unfold GetParamSet. intros E. mnext E as p4 s4 E4. unfold GetParamSet_v4 in E4.
  mnext E4 as p3 s3 E3. unfold GetParamSet_v3 in E3. reads E3. apply mret_inv in E3 as [-> ->].
  reads E4. apply mret_inv in E4 as [-> ->]. reads E. apply mret_inv in E as [-> ->].
  split_and!; [done|by split|done].
Qed.

(** The upgrade to version 6 takes the parameters over from x/params, all or none: it panics when one of them is missing there and is refused when they are not valid.  Whenever it returns, the module has the parameters that x/params holds, except one: the fraction that is slashed for an unsigned logic call becomes zero, whatever it was. *)
Theorem Migrate5to6_spec s :
  (∀ u s', Migrate5to6 s = Ret u s' → ∃ p, in_subspace s p ∧ Params_ValidateBasic p = Ok tt ∧
    p_SlashFractionLogicCall p = 0 ∧ s' = upd_kv (upd_params (λ _, Some p)) s) ∧
  ∀ p, in_subspace s p →
    Migrate5to6 s = match Params_ValidateBasic p with
                    | Ok _ => Ret tt (upd_kv (upd_params (λ _, Some (without_fraction p))) s)
                    | Er e => Fail e s
                    end.
Proof.
  split.
  - intros u s' E. unfold Migrate5to6 in E. mnext E as p s1 E1.
    apply GetParamSet_inv in E1 as (-> & Hp & Hz). unfold SetParams in E. mnext E as v s2 E2.
    apply of_res_inv in E2 as [Hv ->]. apply modify_inv in E as ->. destruct v. exists p.
    split_and!; try done. rewrite Hz. by destruct p.
  - intros p Hp. unfold Migrate5to6. rewrite (bind_ret _ _ _ _ _ (GetParamSet_eq s p Hp)).
    unfold SetParams. assert (Params_ValidateBasic (without_fraction p) = Params_ValidateBasic p) as ->
      by (by destruct p). by destruct (Params_ValidateBasic p).
Qed.

(** The upgrade to version 4, as it is written now, gives parameters that are not valid: it leaves the share of the auction pool unset, which [SetParams] refuses. *)
Lemma V3ToV4Params_invalid (q : Params_v3) s : ∃ e, SetParams (V3ToV4Params q) s = Fail e s.
Proof.
  unfold SetParams. assert (∃ e, Params_ValidateBasic (V3ToV4Params q) = Er e) as [e ->]; [|by exists e].
  unfold Params_ValidateBasic. cbn [V3ToV4Params p_ChainFeeAuctionPoolFraction validateChainFeeAuctionPoolFraction].
  repeat match goal with |- ∃ e, (_ ← ?m; _) = Er e => destruct m; [|by eexists]; cbn [mbind res_bind] end.
  by eexists.
Qed.
End MigrationParams.
