(* ===== verification/MercuryCorrect.v ===== *)
(** * The stages of the Mercury migration

    A loop over the entries of one name brings all of them, and nothing else, to their
    next form, as long as the keys stay apart. *)

From stdpp Require Import base gmap list strings sorting.
From S2P Require Import Prelude GoStd External Store Ethereum Keys OutgoingTx Valset Claims Keeper DelegateKeys Attestation OracleCorrect Migrations.

#[local] Open Scope Z_scope.

(** ** Relocating some entries of a store *)

Section Relocate.
Context (g : bytes * bytes → option (bytes * bytes)).

(** One turn of a loop: the entry leaves its key, and is stored as [g] says, if at all. *)
Definition relocate (m : KVStore) (e : bytes * bytes) : KVStore :=
  match g e with
  | Some n => <[n.1 := n.2]> (delete e.1 m)
  | None => delete e.1 m
  end.

(** Relocating the entries [l] of a store, when no new key is the key of something else. *)
Lemma relocate_all l O :
  NoDup (l ++ O).*1 → NoDup (omap g l ++ O).*1 →
  (∀ e e' n, e ∈ l → e' ∈ l → g e = Some n → n.1 = e'.1 → e = e') →
  foldl relocate (list_to_map (l ++ O)) l = list_to_map (omap g l ++ O).
Proof.
  revert O. induction l as [|e l IH]; intros O Hold Hnew Hcross; [done|].
  cbn [app fmap list_fmap foldl] in *. apply NoDup_cons in Hold as [He Hold].
  assert (∀ x y n, x ∈ l → y ∈ l → g x = Some n → n.1 = y.1 → x = y) as Hc'
    by (intros x y n Hx Hy; apply Hcross; by right).
  assert (delete e.1 (list_to_map (e :: l ++ O) : KVStore) = list_to_map (l ++ O)) as Ed.
  { destruct e as [k v]. cbn [app list_to_map foldr uncurry fst]. rewrite delete_insert_id; [done|].
    by apply not_elem_of_list_to_map_1. }
  unfold relocate at 2. destruct (g e) as [n|] eqn:Eg; cbn [omap list_omap] in *; rewrite Eg in *.
  - cbn [app fmap list_fmap] in *. apply NoDup_cons in Hnew as [Hn Hnew]. rewrite Ed.
    assert (n.1 ∉ (l ++ O).*1) as Hn'.
    { rewrite fmap_app, elem_of_app. intros [(e' & E & He')%list_elem_of_fmap|Ho].
      - apply He. rewrite fmap_app, elem_of_app. left.
        rewrite (Hcross e e' n); [by apply list_elem_of_fmap_2|by left|by right|done|done].
      - apply Hn. rewrite fmap_app, elem_of_app. by right. }
    assert (<[n.1:=n.2]> (list_to_map (l ++ O) : KVStore) = list_to_map (l ++ n :: O)) as ->.
    { rewrite <- (list_to_map_proper (n :: l ++ O) (l ++ n :: O));
        [by destruct n|by constructor|by rewrite Permutation_middle]. }
    rewrite IH.
    + apply list_to_map_proper; [|by rewrite Permutation_middle].
      rewrite <- Permutation_middle. by constructor.
    + rewrite <- Permutation_middle. by constructor.
    + rewrite <- Permutation_middle. by constructor.
    + done.
  - rewrite Ed. by apply IH.
Qed.
End Relocate.

(** ** The names of version 1 *)

Definition v1_names : list string :=
  [EthAddressByValidatorKey_v1; ValidatorByEthAddressKey_v1; ValsetRequestKey_v1; ValsetConfirmKey_v1;
   OracleClaimKey_v1; OracleAttestationKey_v1; OutgoingTXPoolKey_v1; DenomiatorPrefix_v1;
   OutgoingTXBatchKey_v1; BatchConfirmKey_v1; SecondIndexNonceByClaimKey_v1;
   LastEventNonceByValidatorKey_v1; LastObservedEventNonceKey_v1; KeyLastTXPoolID_v1;
   KeyLastOutgoingBatchID_v1; KeyOrchestratorAddress_v1; KeyOutgoingLogicCall_v1;
   KeyOutgoingLogicConfirm_v1; LastObservedEthereumBlockHeightKey_v1; DenomToERC20Key_v1;
   ERC20ToDenomKey_v1; LastSlashedValsetNonce_v1; LatestValsetNonce_v1; LastSlashedBatchBlock_v1;
   LastSlashedLogicCallBlock_v1; LastUnBondingBlockHeight_v1; LastObservedValsetKey_v1;
   PastEthSignatureCheckpointKey_v1].

(** The prefix of a key, before (stages 0 and 1) and after (stage 2) the migration. *)
Definition stage_prefix (n : nat) (name : string) : bytes :=
  match n with 0%nat | 1%nat => str name | _ => HashString name end.

(** No prefix of either version starts another one. *)
Definition all_stage_prefixes : list (bool * string * bytes) :=
  ((λ x, (false, x, str x)) <$> v1_names) ++ ((λ x, (true, x, HashString x)) <$> v1_names).

Definition prefixes_apart (a b : bool * string * bytes) : bool :=
  bool_decide (a.1 = b.1) || negb (bool_decide (a.2 `prefix_of` b.2)).

Lemma all_prefixes_apart :
  forallb (λ a, forallb (prefixes_apart a) all_stage_prefixes) all_stage_prefixes = true.
Proof. vm_compute. reflexivity. Qed.

Lemma forallb_pairs {A} (ok : A → A → bool) l :
  forallb (λ a, forallb (ok a) l) l = true → ∀ a b, a ∈ l → b ∈ l → ok a b = true.
Proof.
  rewrite forallb_forall. intros Hl a b Ha%list_elem_of_In Hb%list_elem_of_In.
  specialize (Hl a Ha). rewrite forallb_forall in Hl. by apply Hl.
Qed.

Definition is_new (n : nat) : bool := match n with 0%nat | 1%nat => false | _ => true end.

Lemma elem_of_stage_prefixes n x : x ∈ v1_names → (is_new n, x, stage_prefix n x) ∈ all_stage_prefixes.
Proof.
  intros Hx. unfold all_stage_prefixes. generalize v1_names Hx. intros names Hn.
  rewrite elem_of_app, !list_elem_of_fmap. destruct n as [|[|n]]; [left|left|right]; by exists x.
Qed.

Lemma stage_prefix_of i j x y :
  x ∈ v1_names → y ∈ v1_names → stage_prefix i x `prefix_of` stage_prefix j y → x = y ∧ is_new i = is_new j.
Proof.
  intros Hx Hy Hp. pose proof (forallb_pairs prefixes_apart _ all_prefixes_apart _ _
    (elem_of_stage_prefixes i x Hx) (elem_of_stage_prefixes j y Hy)) as Hc.
  unfold prefixes_apart in Hc. cbn [fst snd] in Hc. apply orb_true_iff in Hc as [Hc|Hc].
  - apply bool_decide_eq_true in Hc. by injection Hc as -> ->.
  - apply negb_true_iff, bool_decide_eq_false in Hc. done.
Qed.

Lemma stage_prefix_inj i j x y a b :
  x ∈ v1_names → y ∈ v1_names → stage_prefix i x ++ a = stage_prefix j y ++ b → x = y ∧ is_new i = is_new j.
Proof.
  intros Hx Hy E. destruct (prefix_weak_total (stage_prefix i x) (stage_prefix j y) (stage_prefix i x ++ a))
    as [Hp|Hp]; [by exists a|by exists b|by apply stage_prefix_of|].
  by destruct (stage_prefix_of j i y x Hy Hx Hp) as [-> ->].
Qed.

(** ** Entries and their stages *)

(** An entry of the store: its name, the rest of its key and its value in version 1;
    both as the first half of the migration leaves them, if it keeps them; and the rest of
    the key in version 2, if it is kept. *)
Record rentry := mkRentry {
  r_name : string; r_old : bytes * bytes; r_mid : option (bytes * bytes); r_new : option bytes }.

Definition rform (n : nat) (r : rentry) : option (bytes * bytes) :=
  match n with
  | 0%nat => Some (str (r_name r) ++ (r_old r).1, (r_old r).2)
  | 1%nat => (λ tv, (str (r_name r) ++ tv.1, tv.2)) <$> r_mid r
  | _ => tv ← r_mid r; t ← r_new r; Some (HashString (r_name r) ++ t, tv.2)
  end.

Lemma rform_prefix n r e : rform n r = Some e → ∃ t, e.1 = stage_prefix n (r_name r) ++ t.
Proof.
  destruct n as [|[|n]]; cbn.
  - intros [= <-]. eauto.
  - destruct (r_mid r) as [tv|]; [|done]. intros [= <-]. eauto.
  - destruct (r_mid r) as [tv|]; [|done]. cbn. destruct (r_new r) as [t|]; [|done]. intros [= <-]. cbn. eauto.
Qed.

(** How far the names have come. *)
Definition progress := string → nat.

Definition form (σ : progress) (r : rentry) : option (bytes * bytes) := rform (σ (r_name r)) r.

Definition layout (σ : progress) (E : list rentry) : KVStore := list_to_map (omap (form σ) E).

Definition advance (name : string) (σ : progress) : progress :=
  λ x, if decide (x = name) then S (σ x) else σ x.

(** Entries whose keys differ at every stage. *)
Record entries_ok (E : list rentry) : Prop := {
  eo_names r : r ∈ E → r_name r ∈ v1_names;
  eo_keys n : (n ≤ 2)%nat → NoDup (omap (rform n) E).*1;
  eo_cross r r' e e' : r ∈ E → r' ∈ E → r_name r = r_name r' →
    rform 1 r = Some e → rform 0 r' = Some e' → e.1 = e'.1 → rform 0 r = rform 0 r' }.

Lemma rform_key_inj E σ r r' e e' :
  entries_ok E → r ∈ E → r' ∈ E → form σ r = Some e → form σ r' = Some e' → e.1 = e'.1 → r_name r = r_name r'.
Proof.
  intros HE Hr Hr' Hf Hf' Ek. destruct (rform_prefix _ _ _ Hf) as [t Et], (rform_prefix _ _ _ Hf') as [t' Et'].
  rewrite Et, Et' in Ek. by apply stage_prefix_inj in Ek as [-> _]; [|apply (eo_names _ HE)..].
Qed.

Lemma entries_ok_cons r E : entries_ok (r :: E) → entries_ok E.
Proof.
  intros [Hn Hk Hc]. split.
  - intros r' Hr'. apply Hn. by right.
  - intros n Hle. specialize (Hk n Hle). cbn [omap list_omap] in Hk. destruct (rform n r); [|done].
    cbn [fmap list_fmap] in Hk. by apply NoDup_cons in Hk as [_ ?].
  - intros r1 r2 e1 e2 H1 H2. apply Hc; by right.
Qed.

Lemma form_keys E σ : entries_ok E → (∀ x, σ x ≤ 2)%nat → NoDup (omap (form σ) E).*1.
Proof.
  intros HE Hσ. induction E as [|r E IH]; [constructor|].
  specialize (IH (entries_ok_cons r E HE)). cbn [omap list_omap]. destruct (form σ r) as [e|] eqn:Ef; [|done].
  cbn [fmap list_fmap]. constructor; [|done].
  intros (e' & Ek & (r' & Hr' & Hf')%list_elem_of_omap)%list_elem_of_fmap.
  assert (r_name r = r_name r') as En by (by eapply (rform_key_inj (r :: E) σ r r' e e'); try done; [left|right]).
  pose proof (eo_keys _ HE (σ (r_name r)) (Hσ _)) as Hnd. cbn [omap list_omap] in Hnd.
  unfold form in Ef, Hf'. rewrite Ef in Hnd. cbn [fmap list_fmap] in Hnd. apply NoDup_cons in Hnd as [Hni _].
  apply Hni. rewrite Ek. apply list_elem_of_fmap_2, list_elem_of_omap. exists r'. by rewrite En.
Qed.

Lemma advance_bound name σ : (∀ x, σ x ≤ 2)%nat → (σ name < 2)%nat → ∀ x, (advance name σ x ≤ 2)%nat.
Proof. intros Hσ Hs x. unfold advance. case_decide; [subst; lia|apply Hσ]. Qed.

(** ** One phase of the migration *)

Section Phase.
Context (E : list rentry) (HE : entries_ok E) (name : string) (Hname : name ∈ v1_names).
Context (σ : progress) (Hσ : ∀ x, (σ x ≤ 2)%nat) (Hstage : (σ name < 2)%nat).

Abbreviation here e := (str name `prefix_of` (e : bytes * bytes).1).

Lemma stage_prefix_here : stage_prefix (σ name) name = str name.
Proof. destruct (σ name) as [|[|n]]; [done|done|lia]. Qed.

Lemma here_iff r e : r ∈ E → form σ r = Some e → here e ↔ r_name r = name.
Proof.
  intros Hr Hf. destruct (rform_prefix _ _ _ Hf) as [t Et]. split.
  - intros [t' Et']. rewrite Et in Et'.
    by apply (stage_prefix_inj (σ (r_name r)) 0) in Et' as [-> _]; [|apply (eo_names _ HE)|].
  - intros En. rewrite Et, En, stage_prefix_here. by exists t.
Qed.

(** The entries that the phase iterates over. *)
Definition phase_entries : list (bytes * bytes) :=
  (λ kv, (str name ++ kv.1, kv.2)) <$> sub_entries (str name) (layout σ E).

Lemma elem_of_layout e : (∃ r, r ∈ E ∧ form σ r = Some e) ↔ layout σ E !! e.1 = Some e.2.
Proof.
  unfold layout. destruct e as [k v]. cbn [fst snd].
  rewrite <- elem_of_list_to_map by (by apply form_keys). by rewrite list_elem_of_omap.
Qed.

Lemma phase_entries_perm : phase_entries ≡ₚ filter (λ e, here e) (omap (form σ) E).
Proof.
  apply NoDup_Permutation.
  - unfold phase_entries. apply NoDup_fmap_2.
    { intros [k1 v1] [k2 v2] [= Ek ->]. f_equal. by apply app_inv_head in Ek. }
    apply NoDup_sub_entries.
  - apply NoDup_filter. by apply (NoDup_fmap_1 fst), form_keys.
  - intros [k v]. unfold phase_entries. rewrite list_elem_of_fmap, list_elem_of_filter, list_elem_of_omap.
    split.
    + intros ([k' v'] & [= -> ->] & Hin%elem_of_sub_entries). cbn [fst snd]. split; [by exists k'|].
      by apply (elem_of_layout (str name ++ k', v')).
    + intros [[t Et] Hr]. cbn [fst] in Et. subst k. exists (t, v). split; [done|].
      apply elem_of_sub_entries. by apply (elem_of_layout (str name ++ t, v)).
Qed.

Context (g : bytes * bytes → option (bytes * bytes)) (body : bytes → bytes → KV1 unit).
Context (Hbody : ∀ r k v, r ∈ E → r_name r = name → rform (σ name) r = Some (str name ++ k, v) →
  g (str name ++ k, v) = rform (S (σ name)) r ∧
  ∀ m, body k v m = Ret tt (relocate g m (str name ++ k, v))).

Lemma body_loop l m :
  (∀ kv, kv ∈ l → kv ∈ sub_entries (str name) (layout σ E)) →
  for_each l (λ kv, body kv.1 kv.2) m =
    Ret tt (foldl (relocate g) m ((λ kv, (str name ++ kv.1, kv.2)) <$> l)).
Proof.
  revert m. induction l as [|[k v] l IH]; intros m Hl; [done|]. cbn [for_each fmap list_fmap foldl fst snd].
  assert (layout σ E !! (str name ++ k) = Some v) as Hk by (apply elem_of_sub_entries, Hl; by left).
  apply (elem_of_layout (str name ++ k, v)) in Hk as (r & Hr & Hf).
  assert (r_name r = name) as En by (apply (here_iff r _ Hr Hf); by exists k).
  unfold form in Hf. rewrite En in Hf. destruct (Hbody r k v Hr En Hf) as [_ Hb].
  rewrite (bind_ret _ _ _ _ _ (Hb m)). apply IH. intros kv Hkv. apply Hl. by right.
Qed.

Lemma advance_name : advance name σ name = S (σ name).
Proof. unfold advance. by rewrite decide_True. Qed.

Lemma advanced_forms l :
  (∀ r, r ∈ l → r ∈ E) →
  omap (form (advance name σ)) l ≡ₚ
    omap g (filter (λ e, here e) (omap (form σ) l)) ++ filter (λ e, ¬ here e) (omap (form σ) l).
Proof.
  induction l as [|r l IH]; intros Hl; [done|].
  assert (r ∈ E) as Hr by (apply Hl; by left). specialize (IH (λ r' Hr', Hl r' (list_elem_of_further _ _ _ Hr'))).
  cbn [omap list_omap]. destruct (decide (r_name r = name)) as [En|Hne].
  - assert (form (advance name σ) r = rform (S (σ name)) r) as -> by (unfold form; by rewrite En, advance_name).
    destruct (form σ r) as [[k v]|] eqn:Ef.
    + destruct (rform_prefix _ _ _ Ef) as [t Et]. cbn [fst] in Et. rewrite En, stage_prefix_here in Et. subst k.
      assert (here (str name ++ t, v)) as Hh by (by exists t). unfold form in Ef. rewrite En in Ef.
      rewrite filter_cons_True by done. rewrite (filter_cons_False (λ e, ¬ here e)) by (intros []; done).
      cbn [omap list_omap]. destruct (Hbody r t v Hr En Ef) as [-> _].
      destruct (rform (S (σ name)) r); by rewrite IH.
    + assert (rform (S (σ name)) r = None) as ->; [|done]. unfold form in Ef. rewrite En in Ef.
      destruct (σ name) as [|[|n]]; cbn in *; [done| |lia]. by destruct (r_mid r).
  - assert (form (advance name σ) r = form σ r) as -> by (unfold form, advance; by rewrite decide_False).
    destruct (form σ r) as [e|] eqn:Ef; [|done].
    assert (¬ here e) as Hh by (by rewrite (here_iff r e Hr Ef)).
    rewrite (filter_cons_False (λ e, here e)) by done. rewrite (filter_cons_True (λ e, ¬ here e)) by done.
    by rewrite IH, Permutation_middle.
Qed.

(** The new key of one entry is not the old key of another. *)
Lemma phase_cross e e' n :
  e ∈ phase_entries → e' ∈ phase_entries → g e = Some n → n.1 = e'.1 → e = e'.
Proof.
  rewrite phase_entries_perm, !list_elem_of_filter, !list_elem_of_omap.
  intros [Hh (r & Hr & Hf)] [Hh' (r' & Hr' & Hf')] Hg Ek.
  assert (r_name r = name) as En by (by apply (here_iff r e)).
  assert (r_name r' = name) as En' by (by apply (here_iff r' e')).
  destruct e as [k v], Hh as [t Et]. cbn [fst] in Et. subst k. unfold form in Hf, Hf'. rewrite En in Hf. rewrite En' in Hf'.
  destruct (Hbody r t v Hr En Hf) as [Hg' _]. rewrite Hg in Hg'. symmetry in Hg'.
  destruct (σ name) as [|[|i]] eqn:Es; [| |lia].
  - pose proof (eo_cross _ HE r r' n e' Hr Hr' ltac:(congruence) Hg' Hf' Ek) as E0. congruence.
  - exfalso. destruct (rform_prefix _ _ _ Hg') as [t1 E1], (rform_prefix _ _ _ Hf') as [t2 E2].
    rewrite E1, E2, En, En' in Ek. by apply stage_prefix_inj in Ek as [_ Ek].
Qed.

(** The loop over the entries of a name brings them to the next stage. *)
Lemma phase_runs : for_prefix (str name) body (layout σ E) = Ret tt (layout (advance name σ) E).
Proof.
  unfold for_prefix. rewrite (bind_ret _ _ (layout σ E) (sub_entries (str name) (layout σ E)) (layout σ E)) by done.
  rewrite body_loop by done. fold phase_entries. f_equal.
  set (O := filter (λ e, ¬ here e) (omap (form σ) E)).
  assert (omap (form σ) E ≡ₚ phase_entries ++ O) as Hold.
  { rewrite phase_entries_perm. unfold O. symmetry. apply filter_app_complement. }
  assert (omap (form (advance name σ)) E ≡ₚ omap g phase_entries ++ O) as Hnew.
  { rewrite (advanced_forms E) by done. by rewrite phase_entries_perm. }
  pose proof (form_keys E σ HE Hσ) as N1. pose proof (form_keys E (advance name σ) HE (advance_bound name σ Hσ Hstage)) as N2.
  unfold layout. rewrite (list_to_map_proper _ _ N1 Hold), (list_to_map_proper _ _ N2 Hnew).
  rewrite Hold in N1. rewrite Hnew in N2. apply relocate_all; [done|done|]. apply phase_cross.
Qed.
End Phase.

(** ** Single keys *)

Lemma migrateKey_prefix (name : string) (new : bytes) (m : KVStore) :
  (∀ k v, m !! (str name ++ k) = Some v → k = [] ∧ v ≠ []) →
  migrateKey name new m =
    for_prefix (str name) (λ k v, _ ← store_set new v; store_delete (str name ++ k)) m.
Proof.
  intros Hm. unfold migrateKey, for_prefix, gets, mbind, M_bind.
  destruct (m !! str name) as [v|] eqn:Ev; cbn [default id].
  - assert (sub_entries (str name) m = [([], v)]) as ->.
    { apply Permutation_singleton_r, NoDup_Permutation; [apply NoDup_sub_entries|apply NoDup_singleton|].
      intros [k v']. rewrite elem_of_sub_entries, list_elem_of_singleton. split.
      - intros Hk. destruct (Hm k v' Hk) as [-> _]. rewrite app_nil_r in Hk. congruence.
      - intros [= -> ->]. by rewrite app_nil_r. }
    destruct (Hm [] v) as [_ Hv]; [by rewrite app_nil_r|]. rewrite decide_False by done.
    cbn [for_each fst snd]. rewrite app_nil_r. done.
  - rewrite decide_True by done. assert (sub_entries (str name) m = []) as ->; [|done].
    destruct (sub_entries (str name) m) as [|[k v] l] eqn:El; [done|].
    assert ((k, v) ∈ sub_entries (str name) m) as Hin by (rewrite El; by left).
    apply elem_of_sub_entries in Hin. destruct (Hm k v Hin) as [-> _]. rewrite app_nil_r in Hin. congruence.
Qed.

(** ** A phase, entry by entry *)

Lemma same_form E σ r r' e :
  NoDup (omap (form σ) E).*1 → r ∈ E → r' ∈ E → form σ r = Some e → form σ r' = Some e → r = r'.
Proof.
  induction E as [|x E IH]; intros Hnd Hr Hr' Hf Hf'; [by apply not_elem_of_nil in Hr|].
  cbn [omap list_omap] in Hnd.
  assert (∀ y, y ∈ E → form σ x = Some e → form σ y = Some e → False) as Hx.
  { intros y Hy Ex Ey. rewrite Ex in Hnd. cbn [fmap list_fmap] in Hnd. apply NoDup_cons in Hnd as [Hni _].
    apply Hni. apply list_elem_of_fmap_2, list_elem_of_omap. by exists y. }
  apply elem_of_cons in Hr as [->|Hr]; apply elem_of_cons in Hr' as [->|Hr'];
    [done|by destruct (Hx r' Hr')|by destruct (Hx r Hr)|].
  apply IH; try done. destruct (form σ x); [|done]. cbn [fmap list_fmap] in Hnd. by apply NoDup_cons in Hnd as [_ ?].
Qed.

(** What a turn of the loop does to the store when it brings [r] to its next form. *)
Definition moves (k : bytes) (r : rentry) (n : nat) (m : KVStore) : KVStore :=
  match rform n r with Some e => <[e.1 := e.2]> (delete k m) | None => delete k m end.

Lemma phase_moves E name σ body :
  entries_ok E → name ∈ v1_names → (∀ x, σ x ≤ 2)%nat → (σ name < 2)%nat →
  (∀ r k v m, r ∈ E → r_name r = name → rform (σ name) r = Some (str name ++ k, v) →
    body k v m = Ret tt (moves (str name ++ k) r (S (σ name)) m)) →
  for_prefix (str name) body (layout σ E) = Ret tt (layout (advance name σ) E).
Proof.
  intros HE Hname Hσ Hs Hbody.
  set (g := λ kv, match list_find (λ r, form σ r = Some kv) E with
                  | Some (_, r) => rform (S (σ name)) r | None => None end).
  assert (∀ r kv, r ∈ E → r_name r = name → rform (σ name) r = Some kv → g kv = rform (S (σ name)) r) as Hg.
  { intros r kv Hr En Hf. assert (form σ r = Some kv) as Hf' by (unfold form; by rewrite En).
    unfold g. destruct (list_find _ E) as [[i r']|] eqn:Ef.
    - apply list_find_Some in Ef as (Hi & Hf2 & _). apply list_elem_of_lookup_2 in Hi.
      by rewrite (same_form E σ r r' kv (form_keys E σ HE Hσ)).
    - apply list_find_None in Ef. rewrite Forall_forall in Ef. by destruct (Ef r Hr). }
  apply (phase_runs E HE name Hname σ Hσ Hs g). intros r k v Hr En Hf. split; [by apply Hg|].
  intros m. rewrite (Hbody r k v m Hr En Hf). unfold moves, relocate. by rewrite (Hg r _ Hr En Hf).
Qed.

(** * Correctness of the Mercury migration

    Every object that version 1 stored under its key is stored under the key of version 2
    after the migration, with its addresses in bytes, and nothing of version 1 is left. *)

(** ** What version 1 stored *)

Inductive v1_entry :=
  | V1Denom (denom : string) (erc20 : EthAddress)
  | V1Erc20 (erc20 : EthAddress) (denom : string)
  | V1EthByVal (validator : bytes) (eth : EthAddress)
  | V1ValByEth (eth : EthAddress) (validator : bytes)
  (** an address that is not written with its checksum *)
  | V1BadValByEth (key : string) (validator : bytes)
  | V1Batch (token : EthAddress) (nonce : Z) (value : bytes)
  | V1BatchConfirm (token : EthAddress) (nonce : Z) (orch value : bytes)
  | V1Transfer (fee : InternalERC20Token) (id : Z) (value : bytes)
  | V1Valset (nonce : Z) (value : bytes)
  | V1ValsetConfirm (nonce : Z) (orch value : bytes)
  | V1Attestation (nonce : Z) (hash value : bytes)
  | V1Call (id : bytes) (nonce : Z) (value : bytes)
  | V1CallConfirm (id : bytes) (nonce : Z) (orch value : bytes)
  | V1LastNonce (validator value : bytes)
  | V1Orch (orch value : bytes)
  | V1Checkpoint (checkpoint value : bytes)
  (** one of the keys that hold a single value *)
  | V1Single (name : string) (value : bytes)
  (** indices that version 2 has no use for *)
  | V1Unused (name : string) (key value : bytes).

Definition single_names : list string :=
  [LastObservedEventNonceKey_v1; KeyLastTXPoolID_v1; KeyLastOutgoingBatchID_v1;
   LastObservedEthereumBlockHeightKey_v1; LastSlashedValsetNonce_v1; LatestValsetNonce_v1;
   LastSlashedBatchBlock_v1; LastSlashedLogicCallBlock_v1; LastUnBondingBlockHeight_v1;
   LastObservedValsetKey_v1].

Definition unused_names : list string :=
  [OracleClaimKey_v1; DenomiatorPrefix_v1; SecondIndexNonceByClaimKey_v1].

Abbreviation utf8 := convertByteArrToString.

Section Entries.
Context `{Geth} `{Sdk} `{Hashing} `{Codec} `{StoredCodec}.

Definition v1_key (e : v1_entry) : option bytes :=
  match e with
  | V1Denom denom _ => Some (GetDenomToERC20Key_v1 denom)
  | V1Erc20 erc20 _ => Some (GetERC20ToDenomKey_v1 erc20)
  | V1EthByVal validator _ => GetEthAddressByValidatorKey_v1 validator
  | V1ValByEth eth _ => Some (GetValidatorByEthAddressKey_v1 eth)
  | V1BadValByEth key _ => Some (str ValidatorByEthAddressKey_v1 ++ str key)
  | V1Batch token nonce _ => Some (GetOutgoingTxBatchKey_v1 token nonce)
  | V1BatchConfirm token nonce orch _ => GetBatchConfirmKey_v1 token nonce orch
  | V1Transfer fee id _ => GetOutgoingTxPoolKey_v1 fee id
  | V1Valset nonce _ => Some (GetValsetKey_v1 nonce)
  | V1ValsetConfirm nonce orch _ => GetValsetConfirmKey_v1 nonce orch
  | V1Attestation nonce hash _ => Some (GetAttestationKey_v1 nonce hash)
  | V1Call id nonce _ => Some (GetOutgoingLogicCallKey_v1 id nonce)
  | V1CallConfirm id nonce orch _ => GetLogicConfirmKey_v1 id nonce orch
  | V1LastNonce validator _ => GetLastEventNonceByValidatorKey_v1 validator
  | V1Orch orch _ => GetOrchestratorAddressKey_v1 orch
  | V1Checkpoint checkpoint _ => Some (GetPastEthSignatureCheckpointKey_v1 checkpoint)
  | V1Single name _ => Some (str name)
  | V1Unused name key _ => Some (str name ++ key)
  end.

(** Ethereum addresses are stored as text. *)
Definition v1_value (e : v1_entry) : bytes :=
  match e with
  | V1Denom _ erc20 => str (Hex (GetAddress erc20))
  | V1Erc20 _ denom => str denom
  | V1EthByVal _ eth => str (Hex (GetAddress eth))
  | V1ValByEth _ v | V1BadValByEth _ v | V1Batch _ _ v | V1BatchConfirm _ _ _ v | V1Transfer _ _ v
  | V1Valset _ v | V1ValsetConfirm _ _ v | V1Attestation _ _ v | V1Call _ _ v | V1CallConfirm _ _ _ v
  | V1LastNonce _ v | V1Orch _ v | V1Checkpoint _ v | V1Single _ v | V1Unused _ _ v => v
  end.

(** The keys of version 2; what is not kept has none. *)
Definition v2_key (e : v1_entry) : option bytes :=
  match e with
  | V1Denom denom _ => Some (GetDenomToERC20Key_v2 denom)
  | V1Erc20 erc20 _ => Some (GetERC20ToDenomKey_v2 erc20)
  | V1EthByVal validator _ => GetEthAddressByValidatorKey_v2 validator
  | V1ValByEth eth _ => Some (GetValidatorByEthAddressKey_v2 eth)
  | V1BadValByEth _ _ => None
  | V1Batch token nonce _ => Some (GetOutgoingTxBatchKey_v2 token nonce)
  | V1BatchConfirm token nonce orch _ => GetBatchConfirmKey_v2 token nonce orch
  | V1Transfer fee id _ => GetOutgoingTxPoolKey_v2 fee id
  | V1Valset nonce _ => Some (GetValsetKey_v2 nonce)
  | V1ValsetConfirm nonce orch _ => GetValsetConfirmKey_v2 nonce orch
  | V1Attestation nonce hash _ => Some (GetAttestationKey_v2 nonce hash)
  | V1Call id nonce _ => Some (GetOutgoingLogicCallKey_v2 id nonce)
  | V1CallConfirm id nonce orch _ => GetLogicConfirmKey_v2 id nonce orch
  | V1LastNonce validator _ => GetLastEventNonceByValidatorKey_v2 validator
  | V1Orch orch _ => GetOrchestratorAddressKey_v2 orch
  | V1Checkpoint checkpoint _ => Some (GetPastEthSignatureCheckpointKey_v2 checkpoint)
  | V1Single name _ => Some (HashString name)
  | V1Unused _ _ _ => None
  end.

(** Ethereum addresses are stored as bytes. *)
Definition v2_value (e : v1_entry) : bytes :=
  match e with
  | V1Denom _ erc20 => GetAddress erc20
  | V1EthByVal _ eth => GetAddress eth
  | _ => v1_value e
  end.

Definition v1_kv (e : v1_entry) : option (bytes * bytes) := (λ k, (k, v1_value e)) <$> v1_key e.
Definition v2_kv (e : v1_entry) : option (bytes * bytes) := (λ k, (k, v2_value e)) <$> v2_key e.

(** The text of an address starts with 0x; its bytes do not. *)
Definition plain (a : EthAddress) : Prop := eth_ok a ∧ ¬ [48; 120] `prefix_of` GetAddress a.

(** The value of an entry decodes to the object that its key names. *)
Definition v1_wf (e : v1_entry) : Prop :=
  match e with
  | V1Denom _ erc20 => eth_ok erc20
  | V1Erc20 erc20 _ => plain erc20
  | V1EthByVal validator eth => VerifyAddressFormat validator = Ok tt ∧ eth_ok eth
  | V1ValByEth eth _ => plain eth
  | V1BadValByEth key _ => [48; 120] `prefix_of` str key ∧ Hex (HexToAddress key) ≠ key
  | V1Batch token nonce value => plain token ∧ ∃ b, decode_batch value = Some b ∧
      NewEthAddress (ob_TokenContract b) = Ok token ∧ ob_BatchNonce b = nonce
  | V1BatchConfirm token nonce orch value => plain token ∧ VerifyAddressFormat orch = Ok tt ∧
      ∃ c, decode_batch_confirm value = Some c ∧ NewEthAddress (cb_TokenContract c) = Ok token ∧
        AccAddressFromBech32 (cb_Orchestrator c) = Ok orch ∧ cb_Nonce c = nonce
  | V1Transfer fee id value => plain (it_Contract fee) ∧ is_Some (FillBytes 32 (it_Amount fee)) ∧
      ∃ tx, decode_transfer value = Some tx ∧ ERC20Token_ToInternal (ot_Erc20Fee tx) = Ok fee ∧ ot_Id tx = id
  | V1Valset nonce value => ∃ v, decode_valset value = Some v ∧ vs_Nonce v = nonce
  | V1ValsetConfirm nonce orch value => VerifyAddressFormat orch = Ok tt ∧
      ∃ c, decode_valset_confirm value = Some c ∧
        AccAddressFromBech32 (vc_Orchestrator c) = Ok orch ∧ vc_Nonce c = nonce
  | V1Attestation nonce hash value => ∃ att claim, decode_attestation value = Some att ∧
      UnpackClaim (at_Claim att) = Ok claim ∧ ClaimHash claim = Ok hash ∧ GetEventNonce claim = nonce
  | V1Call id nonce value => ∃ c, decode_logic_call value = Some c ∧
      lc_InvalidationId c = id ∧ lc_InvalidationNonce c = nonce
  | V1CallConfirm id nonce orch value => VerifyAddressFormat orch = Ok tt ∧
      ∃ c, decode_logic_confirm value = Some c ∧ hex_decode (cl_InvalidationId c) = Some id ∧
        AccAddressFromBech32 (cl_Orchestrator c) = Ok orch ∧ cl_InvalidationNonce c = nonce
  | V1LastNonce validator _ => VerifyAddressFormat validator = Ok tt
  | V1Orch orch _ => VerifyAddressFormat orch = Ok tt
  | V1Checkpoint _ _ => True
  | V1Single name value => name ∈ single_names ∧ value ≠ []
  | V1Unused name _ _ => name ∈ unused_names
  end.

(** *** Its stages *)

Definition entry_name (e : v1_entry) : string :=
  match e with
  | V1Denom _ _ => DenomToERC20Key_v1 | V1Erc20 _ _ => ERC20ToDenomKey_v1
  | V1EthByVal _ _ => EthAddressByValidatorKey_v1
  | V1ValByEth _ _ | V1BadValByEth _ _ => ValidatorByEthAddressKey_v1
  | V1Batch _ _ _ => OutgoingTXBatchKey_v1 | V1BatchConfirm _ _ _ _ => BatchConfirmKey_v1
  | V1Transfer _ _ _ => OutgoingTXPoolKey_v1 | V1Valset _ _ => ValsetRequestKey_v1
  | V1ValsetConfirm _ _ _ => ValsetConfirmKey_v1 | V1Attestation _ _ _ => OracleAttestationKey_v1
  | V1Call _ _ _ => KeyOutgoingLogicCall_v1 | V1CallConfirm _ _ _ _ => KeyOutgoingLogicConfirm_v1
  | V1LastNonce _ _ => LastEventNonceByValidatorKey_v1 | V1Orch _ _ => KeyOrchestratorAddress_v1
  | V1Checkpoint _ _ => PastEthSignatureCheckpointKey_v1
  | V1Single name _ => name | V1Unused name _ _ => name
  end.

(** The rest of the key: [addr] says how an address is written. *)
Definition old_rest (addr : bytes → bytes) (e : v1_entry) : bytes :=
  match e with
  | V1Denom denom _ => str denom
  | V1Erc20 erc20 _ => addr (GetAddress erc20)
  | V1EthByVal validator _ => validator
  | V1ValByEth eth _ => addr (GetAddress eth)
  | V1BadValByEth key _ => str key
  | V1Batch token nonce _ => addr (GetAddress token) ++ utf8 (UInt64Bytes nonce)
  | V1BatchConfirm token nonce orch _ => addr (GetAddress token) ++ utf8 (UInt64Bytes nonce) ++ orch
  | V1Transfer fee id _ => addr (GetAddress (it_Contract fee)) ++
      utf8 (default [] (FillBytes 32 (it_Amount fee)) ++ UInt64Bytes id)
  | V1Valset nonce _ => UInt64Bytes nonce
  | V1ValsetConfirm nonce orch _ => utf8 (UInt64Bytes nonce) ++ orch
  | V1Attestation nonce hash _ => utf8 (UInt64Bytes nonce ++ hash)
  | V1Call id nonce _ => id ++ UInt64Bytes nonce
  | V1CallConfirm id nonce orch _ => id ++ utf8 (UInt64Bytes nonce) ++ orch
  | V1LastNonce validator _ => validator
  | V1Orch orch _ => orch
  | V1Checkpoint checkpoint _ => utf8 checkpoint
  | V1Single _ _ => []
  | V1Unused _ key _ => key
  end.

Definition new_rest (e : v1_entry) : option bytes :=
  match e with
  | V1BadValByEth _ _ | V1Unused _ _ _ => None
  | V1Batch token nonce _ => Some (GetAddress token ++ UInt64Bytes nonce)
  | V1BatchConfirm token nonce orch _ => Some (GetAddress token ++ UInt64Bytes nonce ++ orch)
  | V1Transfer fee id _ => Some (GetAddress (it_Contract fee) ++
      default [] (FillBytes 32 (it_Amount fee)) ++ UInt64Bytes id)
  | V1ValsetConfirm nonce orch _ => Some (UInt64Bytes nonce ++ orch)
  | V1Attestation nonce hash _ => Some (UInt64Bytes nonce ++ hash)
  | V1CallConfirm id nonce orch _ => Some (id ++ UInt64Bytes nonce ++ orch)
  | _ => Some (old_rest id e)
  end.

Definition as_text (a : bytes) : bytes := str (Hex a).

Definition staged (e : v1_entry) : rentry :=
  mkRentry (entry_name e) (old_rest as_text e, v1_value e)
    (match e with V1BadValByEth _ _ => None | _ => Some (old_rest id e, v2_value e) end) (new_rest e).
End Entries.

(** ** The keys of version 2 are those the module still uses *)

Section Current.
Context `{Geth} `{Sdk}.

Lemma current_keys (val : bytes) (a : EthAddress) (n : Z) (h : bytes) (d : string) (fee : InternalERC20Token) :
  GetOrchestratorAddressKey_v2 val = GetOrchestratorAddressKey val ∧
  GetEthAddressByValidatorKey_v2 val = GetEthAddressByValidatorKey val ∧
  GetValidatorByEthAddressKey_v2 a = GetValidatorByEthAddressKey a ∧
  GetValsetKey_v2 n = GetValsetKey n ∧ GetValsetConfirmKey_v2 n val = GetValsetConfirmKey n val ∧
  GetAttestationKey_v2 n h = GetAttestationKey n h ∧ GetOutgoingTxPoolKey_v2 fee n = GetOutgoingTxPoolKey fee n ∧
  GetOutgoingTxBatchKey_v2 a n = GetOutgoingTxBatchKey a n ∧
  GetBatchConfirmKey_v2 a n val = GetBatchConfirmKey a n val ∧
  GetLastEventNonceByValidatorKey_v2 val = GetLastEventNonceByValidatorKey val ∧
  GetDenomToERC20Key_v2 d = GetDenomToERC20Key d ∧ GetERC20ToDenomKey_v2 a = GetERC20ToDenomKey a ∧
  GetOutgoingLogicCallKey_v2 h n = GetOutgoingLogicCallKey h n ∧
  GetLogicConfirmKey_v2 h n val = GetLogicConfirmKey h n val ∧
  GetPastEthSignatureCheckpointKey_v2 h = GetPastEthSignatureCheckpointKey h.
Proof. split_and!; reflexivity. Qed.
End Current.

(** ** The keys are those of the stages *)

Section Stages.
Context `{GethLaws} `{Sdk} `{Hashing} `{Codec} `{StoredCodec}.
Implicit Types e : v1_entry.

Lemma utf8_app a b : utf8 (a ++ b) = utf8 a ++ utf8 b.
Proof. unfold convertByteArrToString. apply bind_app. Qed.

Lemma utf8_ascii l : Forall (λ b, b < 128) l → utf8 l = l.
Proof.
  induction 1 as [|b l Hb Hl IH]; [done|]. unfold convertByteArrToString in *. cbn [mbind list_bind].
  rewrite IH. unfold utf8_of_byte. by rewrite (proj2 (Z.ltb_lt _ _) Hb).
Qed.

Lemma hexval_ascii c d : hexval c = Some d → ascii_byte c < 128.
Proof. unfold hexval. intros E. repeat case_match; zbool; try done; lia. Qed.

Lemma hex_ascii n t l :
  (String.length t ≤ n)%nat → hex_decode t = Some l → Forall (λ b, b < 128) (str t).
Proof.
  revert t l. induction n as [|n IH]; intros [|a [|b t]] l Hn; cbn [hex_decode bytes_of_string];
    try (by constructor); try (cbn in Hn; lia); try done.
  destruct (hexval a) eqn:Ea, (hexval b) eqn:Eb; try done. destruct (hex_decode t) eqn:Et; [|done].
  intros _. repeat constructor; [by eapply hexval_ascii..|]. eapply IH; [|done]. cbn in Hn. lia.
Qed.

Lemma as_text_0x a : addr_ok a → ∃ t, as_text a = 48 :: 120 :: t ∧ Forall (λ b, b < 128) t.
Proof.
  intros Ha. destruct (hex_spec a Ha) as (t & E & Hd). exists (str t). unfold as_text. rewrite E.
  split; [done|]. by eapply hex_ascii.
Qed.

Lemma utf8_as_text a : addr_ok a → utf8 (as_text a) = as_text a.
Proof.
  intros Ha. destruct (as_text_0x a Ha) as (t & -> & Ht). apply utf8_ascii. by repeat constructor.
Qed.

Lemma length_as_text a : addr_ok a → length (as_text a) = 42%nat.
Proof.
  intros Ha. unfold as_text. rewrite length_bytes_of_string. pose proof (slen_Hex a Ha) as Hl.
  unfold slen in Hl. lia.
Qed.

Lemma HexToAddress_as_text a : addr_ok a → HexToAddress (string_of_bytes (as_text a)) = a.
Proof.
  intros Ha. unfold as_text. rewrite string_of_bytes_of_string.
  apply hex_to_address_spec; [by apply hex_decode_Hex|apply Ha].
Qed.

Lemma names_ascii name : name ∈ v1_names → utf8 (str name) = str name.
Proof.
  intros Hn. apply utf8_ascii. revert name Hn. apply Forall_forall.
  repeat constructor.
Qed.

Lemma single_in name : name ∈ single_names → name ∈ v1_names.
Proof. revert name. apply Forall_forall. repeat constructor; apply (bool_decide_unpack _); vm_compute; exact I. Qed.
Lemma unused_in name : name ∈ unused_names → name ∈ v1_names.
Proof. revert name. apply Forall_forall. repeat constructor; apply (bool_decide_unpack _); vm_compute; exact I. Qed.

Lemma entry_name_in e : v1_wf e → entry_name e ∈ v1_names.
Proof.
  destruct e; cbn [v1_wf entry_name]; intros Hw;
    first [apply single_in, Hw|by apply unused_in|apply (bool_decide_unpack _); vm_compute; exact I].
Qed.

Lemma verified_eq v (k : bytes) : VerifyAddressFormat v = Ok tt → verified v k = Some k.
Proof. unfold verified. by intros ->. Qed.

Lemma v1_kv_staged e : v1_wf e → v1_kv e = rform 0 (staged e).
Proof.
  unfold v1_kv, staged. cbn [rform r_name r_old fst snd].
  intros Hw. assert (v1_key e = Some (str (entry_name e) ++ old_rest as_text e)) as ->; [|done].
  destruct e; cbn [v1_key v1_wf entry_name old_rest] in *; try done.
  - apply verified_eq, Hw.
  - unfold GetBatchConfirmKey_v1. rewrite verified_eq by apply Hw.
    unfold GetBatchConfirmNonceContractPrefix_v1. by rewrite <- !app_assoc.
  - destruct Hw as ([Hp _] & [amount Ha] & _). unfold GetOutgoingTxPoolKey_v1. rewrite Ha. cbn [mbind option_bind from_option].
    rewrite !utf8_app, names_ascii by (apply (bool_decide_unpack _); vm_compute; exact I).
    fold (as_text (GetAddress (it_Contract fee))). by rewrite utf8_as_text by apply Hp.
  - unfold GetValsetConfirmKey_v1. rewrite verified_eq by apply Hw.
    unfold GetValsetConfirmNoncePrefix_v1. by rewrite <- app_assoc.
  - unfold GetLogicConfirmKey_v1. rewrite verified_eq by apply Hw.
    unfold GetLogicConfirmNonceInvalidationIdPrefix_v1. by rewrite <- !app_assoc.
  - by apply verified_eq.
  - by apply verified_eq.
  - by rewrite app_nil_r.
Qed.

(** The prefixes of version 2 are the hashes of the names. *)
Lemma hash_names :
  HashString DenomToERC20Key_v1 = DenomToERC20Key_v2 ∧ HashString ERC20ToDenomKey_v1 = ERC20ToDenomKey_v2 ∧
  HashString EthAddressByValidatorKey_v1 = EthAddressByValidatorKey_v2 ∧
  HashString ValidatorByEthAddressKey_v1 = ValidatorByEthAddressKey_v2 ∧
  HashString OutgoingTXBatchKey_v1 = OutgoingTXBatchKey_v2 ∧ HashString BatchConfirmKey_v1 = BatchConfirmKey_v2 ∧
  HashString OutgoingTXPoolKey_v1 = OutgoingTXPoolKey_v2 ∧ HashString ValsetRequestKey_v1 = ValsetRequestKey_v2 ∧
  HashString ValsetConfirmKey_v1 = ValsetConfirmKey_v2 ∧ HashString OracleAttestationKey_v1 = OracleAttestationKey_v2 ∧
  HashString KeyOutgoingLogicCall_v1 = KeyOutgoingLogicCall_v2 ∧
  HashString KeyOutgoingLogicConfirm_v1 = KeyOutgoingLogicConfirm_v2 ∧
  HashString LastEventNonceByValidatorKey_v1 = LastEventNonceByValidatorKey_v2 ∧
  HashString KeyOrchestratorAddress_v1 = KeyOrchestratorAddress_v2 ∧
  HashString PastEthSignatureCheckpointKey_v1 = PastEthSignatureCheckpointKey_v2.
Proof. split_and!; vm_compute; reflexivity. Qed.

#[local] Opaque HashString.

Lemma rform2_staged e n :
  new_rest e = Some n → rform 2 (staged e) = Some (HashString (entry_name e) ++ n, v2_value e).
Proof. intros Hn. unfold staged. cbn [rform r_mid r_new r_name]. rewrite Hn. by destruct e. Qed.

Lemma v2_key_rest e n : v1_wf e → new_rest e = Some n → v2_key e = Some (HashString (entry_name e) ++ n).
Proof.
  intros Hw En.
  destruct hash_names as (E1 & E2 & E3 & E4 & E5 & E6 & E7 & E8 & E9 & E10 & E11 & E12 & E13 & E14 & E15).
  destruct e; cbn [v2_key v1_wf entry_name new_rest old_rest] in *; try discriminate En; injection En as <-;
    rewrite ?E1, ?E2, ?E3, ?E4, ?E5, ?E6, ?E7, ?E8, ?E9, ?E10, ?E11, ?E12, ?E13, ?E14, ?E15.
  all: unfold GetDenomToERC20Key_v2, GetERC20ToDenomKey_v2, GetEthAddressByValidatorKey_v2,
    GetValidatorByEthAddressKey_v2, GetOutgoingTxBatchKey_v2, GetOutgoingTxBatchContractPrefix_v2,
    GetBatchConfirmKey_v2, GetBatchConfirmNonceContractPrefix_v2, GetOutgoingTxPoolKey_v2, GetValsetKey_v2,
    GetValsetConfirmKey_v2, GetValsetConfirmNoncePrefix_v2, GetAttestationKey_v2, GetOutgoingLogicCallKey_v2,
    GetLogicConfirmKey_v2, GetLogicConfirmNonceInvalidationIdPrefix_v2, GetLastEventNonceByValidatorKey_v2,
    GetOrchestratorAddressKey_v2, GetPastEthSignatureCheckpointKey_v2, AppendBytes;
    cbn [concat]; rewrite ?app_nil_r, <- ?app_assoc; try reflexivity.
  all: try (rewrite verified_eq by (first [exact Hw|apply Hw]); by rewrite <- ?app_assoc).
  destruct Hw as (_ & [amount Ha] & _). by rewrite Ha.
Qed.

Lemma v2_kv_staged e : v1_wf e → v2_kv e = rform 2 (staged e).
Proof.
  intros Hw. unfold v2_kv. destruct (new_rest e) as [n|] eqn:En.
  - by rewrite (rform2_staged e n En), (v2_key_rest e n Hw En).
  - by destruct e.
Qed.

(** ** The keys stay apart *)

Definition hex_names : list string :=
  [ERC20ToDenomKey_v1; ValidatorByEthAddressKey_v1; OutgoingTXBatchKey_v1; BatchConfirmKey_v1;
   OutgoingTXPoolKey_v1].

(** An address at the start of a key is text before, bytes after; the other keys do not
    change in the first half. *)
Lemma rests e :
  v1_wf e →
  (entry_name e ∈ hex_names ∧ [48; 120] `prefix_of` old_rest as_text e ∧
    (r_mid (staged e) = None ∨ ∃ a rest, addr_ok a ∧ ¬ [48; 120] `prefix_of` a ∧
      old_rest as_text e = as_text a ++ rest ∧ old_rest id e = a ++ rest)) ∨
  (entry_name e ∉ hex_names ∧ old_rest as_text e = old_rest id e).
Proof.
  assert (∀ a rest, plain a → [48; 120] `prefix_of` (as_text (GetAddress a) ++ rest)) as Hp.
  { intros a rest [Ha _]. destruct (as_text_0x _ Ha) as (t & -> & _). by eexists. }
  assert (∀ name l, name ∈ l → Forall (λ x, x ∉ hex_names) l → name ∉ hex_names) as Hout.
  { intros name l Hn Hl. rewrite Forall_forall in Hl. by apply Hl. }
  destruct e; cbn [v1_wf entry_name old_rest staged r_mid]; intros Hw.
  all: try (right; split; [apply (bool_decide_unpack _); vm_compute; exact I|done]).
  all: try (left; split; [apply (bool_decide_unpack _); vm_compute; exact I|]).
  - split; [rewrite <- (app_nil_r (as_text _)); by apply Hp|right].
    exists (GetAddress erc20), []. rewrite !app_nil_r. by destruct Hw.
  - split; [rewrite <- (app_nil_r (as_text _)); by apply Hp|right].
    exists (GetAddress eth), []. rewrite !app_nil_r. by destruct Hw.
  - split; [apply Hw|by left].
  - split; [apply Hp, Hw|right]. eexists _, _. by destruct Hw as [[] _].
  - split; [apply Hp, Hw|right]. eexists _, _. by destruct Hw as [[] _].
  - split; [apply Hp, Hw|right]. eexists _, _. by destruct Hw as [[] _].
  - right. split; [|done]. apply (Hout name single_names); [apply Hw|].
    repeat constructor; apply (bool_decide_unpack _); vm_compute; exact I.
  - right. split; [|done]. apply (Hout name unused_names); [apply Hw|].
    repeat constructor; apply (bool_decide_unpack _); vm_compute; exact I.
Qed.

Lemma mid_key e kv :
  rform 1 (staged e) = Some kv → kv.1 = str (entry_name e) ++ old_rest id e ∧ r_mid (staged e) ≠ None.
Proof. destruct e; cbn; by intros [= <-]. Qed.

(** Entries with the same key after the first half had the same key before. *)
Lemma mid_key_inj e e' kv kv' :
  v1_wf e → v1_wf e' → rform 1 (staged e) = Some kv → rform 1 (staged e') = Some kv' → kv.1 = kv'.1 →
  entry_name e = entry_name e' ∧ old_rest as_text e = old_rest as_text e'.
Proof.
  intros Hw Hw' [Ek Hm]%mid_key [Ek' Hm']%mid_key. rewrite Ek, Ek'. intros E.
  assert (entry_name e = entry_name e') as En
    by (by apply (stage_prefix_inj 0 0) in E as [? _]; [|apply entry_name_in..]).
  split; [done|]. rewrite En in E. apply app_inv_head in E.
  destruct (rests e Hw) as [(Hin & _ & [?|(a & t & Ha & _ & E1 & E2)])|[Hout E1]]; [done| |];
    destruct (rests e' Hw') as [(Hin' & _ & [?|(a' & t' & Ha' & _ & E1' & E2')])|[Hout' E1']]; try done; try congruence.
  rewrite E2, E2' in E. rewrite E1, E1'.
  apply app_inj_1 in E as [-> ->]; [done|]. destruct Ha as [-> _], Ha' as [-> _]. done.
Qed.

(** No key of the second form is one of the first form, but its own. *)
Lemma mid_old_apart e e' kv kv' :
  v1_wf e → v1_wf e' → entry_name e = entry_name e' →
  rform 1 (staged e) = Some kv → rform 0 (staged e') = Some kv' → kv.1 = kv'.1 →
  old_rest as_text e = old_rest as_text e'.
Proof.
  intros Hw Hw' En [Ek Hm]%mid_key [= <-]. rewrite Ek. cbn [fst staged r_old r_name]. rewrite En.
  intros E%app_inv_head. destruct (rests e Hw) as [(Hin & _ & [?|(a & t & Ha & Hp & _ & E2)])|[Hout E1]]; [done| |congruence].
  exfalso. destruct (rests e' Hw') as [(_ & Hx & _)|[Hout _]]; [|congruence].
  rewrite <- E, E2 in Hx. apply Hp. destruct Ha as [Hl _]. destruct a as [|x [|y a]]; [done..|].
  destruct Hx as [u [= <- <- _]]. by eexists.
Qed.

(** A store of version 1: every entry well-formed, no two under the same key, neither
    before nor after. *)
Record v1_store (E : list v1_entry) : Prop := {
  vs_wf : Forall v1_wf E;
  vs_old : NoDup (omap v1_kv E).*1;
  vs_new : NoDup (omap v2_kv E).*1 }.

Lemma omap_staged n f E :
  Forall v1_wf E → (∀ e, v1_wf e → f e = rform n (staged e)) → omap (rform n) (staged <$> E) = omap f E.
Proof.
  intros HE Hf. induction HE as [|e E He HE IH]; [done|]. cbn [fmap list_fmap omap list_omap].
  rewrite (Hf e He). cbn [omap list_omap] in IH. by rewrite IH.
Qed.

Lemma old_key e : rform 0 (staged e) = Some (str (entry_name e) ++ old_rest as_text e, v1_value e).
Proof. done. Qed.

Lemma mid_keys_NoDup E :
  Forall v1_wf E → NoDup (omap (rform 0) (staged <$> E)).*1 → NoDup (omap (rform 1) (staged <$> E)).*1.
Proof.
  induction 1 as [|e E He HE IH]; intros Hnd; [constructor|].
  cbn [fmap list_fmap omap list_omap] in *. rewrite old_key in Hnd. cbn [fmap list_fmap] in Hnd.
  apply NoDup_cons in Hnd as [Hni Hnd]. specialize (IH Hnd).
  destruct (rform 1 (staged e)) as [kv|] eqn:Ek; [|done]. cbn [fmap list_fmap]. constructor; [|done].
  intros (kv' & E1 & (r & (e' & -> & He')%list_elem_of_fmap & Hr)%list_elem_of_omap)%list_elem_of_fmap.
  rewrite Forall_forall in HE. destruct (mid_key_inj e e' kv kv' He (HE e' He') Ek Hr E1) as [En Eo].
  apply Hni. apply list_elem_of_fmap. eexists. split; [|apply list_elem_of_omap; exists (staged e'); split;
    [by apply list_elem_of_fmap_2|apply old_key]]. cbn [fst]. by rewrite En, Eo.
Qed.

Lemma entries_ok_staged E : v1_store E → entries_ok (staged <$> E).
Proof.
  intros [Hw Ho Hn]. assert (NoDup (omap (rform 0) (staged <$> E)).*1) as H0'
    by (by rewrite (omap_staged 0 v1_kv) by (try apply v1_kv_staged; done)).
  split.
  - intros r (e & -> & He)%list_elem_of_fmap. rewrite Forall_forall in Hw. by apply entry_name_in, Hw.
  - intros [|[|[|n]]] Hle; [done|by apply mid_keys_NoDup| |lia].
    by rewrite (omap_staged 2 v2_kv) by (try apply v2_kv_staged; done).
  - intros r r' kv kv' (e & -> & He)%list_elem_of_fmap (e' & -> & He')%list_elem_of_fmap En Hm Hk Ek.
    rewrite Forall_forall in Hw.
    pose proof (mid_old_apart e e' kv kv' (Hw e He) (Hw e' He') En Hm Hk Ek) as Eo.
    assert (∀ e, e ∈ E → (list_to_map (omap (rform 0) (staged <$> E)) : KVStore) !!
      (str (entry_name e) ++ old_rest as_text e) = Some (v1_value e)) as Hl.
    { intros x Hx. apply elem_of_list_to_map; [done|]. apply list_elem_of_omap. exists (staged x).
      split; [by apply list_elem_of_fmap_2|done]. }
    cbn [staged r_name] in En. rewrite !old_key. pose proof (Hl e He) as L1. rewrite En, Eo, (Hl e' He') in L1.
    injection L1 as ->. by rewrite En, Eo.
Qed.
End Stages.

(** ** The phases *)

Section Phases.
Context `{GethLaws} `{SdkLaws} `{Hashing} `{Codec} `{StoredCodec}.
Context (E : list v1_entry) (HE : v1_store E).
#[local] Opaque HashString.

Abbreviation at_ σ := (layout σ (staged <$> E)).

(** Bounds and stage of a progress that is known. *)
Definition before (n : nat) (name : string) (σ : progress) : Prop :=
  name ∈ v1_names ∧ (∀ x, σ x ≤ 2)%nat ∧ σ name = n.

Lemma first_phase name σ body :
  before 0 name σ →
  (∀ e m, v1_wf e → entry_name e = name →
    body (old_rest as_text e) (v1_value e) m =
      Ret tt (moves (str name ++ old_rest as_text e) (staged e) 1 m)) →
  for_prefix (str name) body (at_ σ) = Ret tt (at_ (advance name σ)).
Proof.
  intros (Hn & Hb & Hs) Hbody. apply phase_moves; [by apply entries_ok_staged|done|done|lia|].
  rewrite Hs. intros r k v m (e & -> & He)%list_elem_of_fmap En [= Ek <-]. cbn [staged r_name r_old fst snd] in *.
  rewrite En in Ek. apply app_inv_head in Ek as <-. apply Hbody; [|done].
  pose proof (vs_wf _ HE) as Hw. rewrite Forall_forall in Hw. by apply Hw.
Qed.

Lemma second_phase name σ body :
  before 1 name σ →
  (∀ e m, v1_wf e → entry_name e = name → r_mid (staged e) ≠ None →
    body (old_rest id e) (v2_value e) m =
      Ret tt (moves (str name ++ old_rest id e) (staged e) 2 m)) →
  for_prefix (str name) body (at_ σ) = Ret tt (at_ (advance name σ)).
Proof.
  intros (Hn & Hb & Hs) Hbody. apply phase_moves; [by apply entries_ok_staged|done|done|lia|].
  rewrite Hs. intros r k v m (e & -> & He)%list_elem_of_fmap En Hk.
  destruct (mid_key e _ Hk) as [Ek Hm]. cbn [staged r_name fst] in *. rewrite En in Ek.
  apply app_inv_head in Ek as ->.
  assert (v = v2_value e) as -> by (destruct e; by simplify_eq/=).
  pose proof (vs_wf _ HE) as Hw. rewrite Forall_forall in Hw. by apply Hbody; [apply Hw| |].
Qed.

(** The entries of one name. *)
Ltac absurd_name Hw := match type of Hw with ?P => exact (bool_decide_eq_false_1 P eq_refl Hw) end.
Ltac entries_of e Hw En :=
  destruct e; cbn [entry_name v1_wf] in En, Hw;
  try (exfalso; discriminate En);
  try (exfalso; subst; first [absurd_name Hw|destruct Hw as [Hw _]; absurd_name Hw]);
  clear En.

Lemma rewrites_value (k v : bytes) (m : KVStore) : <[k := v]> (delete k m) = <[k := v]> m.
Proof. apply insert_delete_eq. Qed.

(** What a turn does to an entry of the first half. *)
Lemma moves_mid e (k : bytes) m :
  r_mid (staged e) ≠ None →
  moves k (staged e) 1 m = <[str (entry_name e) ++ old_rest id e := v2_value e]> (delete k m).
Proof. unfold moves. by destruct e. Qed.

Lemma DenomToERC20_runs σ :
  before 0 DenomToERC20Key_v1 σ →
  migrateCosmosOriginatedDenomToERC20 (at_ σ) = Ret tt (at_ (advance DenomToERC20Key_v1 σ)).
Proof.
  intros Hb. apply first_phase; [done|]. intros e m Hw En. entries_of e Hw En.
  rewrite moves_mid by done. cbn [old_rest entry_name v2_value v1_value]. rewrite rewrites_value.
  fold (as_text (GetAddress erc20)). by rewrite HexToAddress_as_text.
Qed.

Lemma EthAddressByValidator_runs σ :
  before 0 EthAddressByValidatorKey_v1 σ →
  migrateEthAddressByValidator (at_ σ) = Ret tt (at_ (advance EthAddressByValidatorKey_v1 σ)).
Proof.
  intros Hb. apply first_phase; [done|]. intros e m Hw En. entries_of e Hw En.
  rewrite moves_mid by done. cbn [old_rest entry_name v2_value v1_value]. rewrite rewrites_value.
  fold (as_text (GetAddress eth)). by rewrite HexToAddress_as_text by apply Hw.
Qed.

Lemma ERC20ToDenom_runs σ :
  before 0 ERC20ToDenomKey_v1 σ →
  migrateCosmosOriginatedERC20ToDenom (at_ σ) = Ret tt (at_ (advance ERC20ToDenomKey_v1 σ)).
Proof.
  intros Hb. apply first_phase; [done|]. intros e m Hw En. entries_of e Hw En.
  rewrite moves_mid by done. cbn [old_rest entry_name v2_value v1_value].
  rewrite HexToAddress_as_text by apply Hw. done.
Qed.

Lemma ValidatorByEthAddress_runs σ :
  before 0 ValidatorByEthAddressKey_v1 σ →
  migrateValidatorByEthAddressKey (at_ σ) = Ret tt (at_ (advance ValidatorByEthAddressKey_v1 σ)).
Proof.
  intros Hb. apply first_phase; [done|]. intros e m Hw En. entries_of e Hw En.
  - rewrite moves_mid by done. cbn [old_rest entry_name v2_value v1_value].
    rewrite HexToAddress_as_text by apply Hw. unfold store_delete, modify, mbind, M_bind.
    rewrite decide_False; [done|]. intros []. unfold as_text. by rewrite string_of_bytes_of_string.
  - cbn [old_rest v1_value]. rewrite string_of_bytes_of_string. unfold store_delete, modify, mbind, M_bind.
    by rewrite decide_True by apply Hw.
Qed.

(** A key that starts with the text of an address. *)
Lemma contract_key_body (p a rest value : bytes) (m : KVStore) :
  addr_ok a →
  (addrStr ← opt_panic "slice bounds out of range" (slice 0 42 (as_text a ++ rest));
   rest' ← opt_panic "slice bounds out of range" (slice_from 42 (as_text a ++ rest));
   _ ← store_delete (p ++ as_text a ++ rest);
   store_set (p ++ HexToAddress (string_of_bytes addrStr) ++ rest') value) m =
  Ret tt (<[p ++ a ++ rest := value]> (delete (p ++ as_text a ++ rest) m)).
Proof.
  intros Ha. pose proof (length_as_text a Ha) as Hl.
  assert (slice 0 42 (as_text a ++ rest) = Some (as_text a)) as ->.
  { unfold slice. rewrite decide_True by (rewrite length_app; lia). rewrite drop_0, Nat.sub_0_r.
    by rewrite take_app_length' by done. }
  assert (slice_from 42 (as_text a ++ rest) = Some rest) as ->.
  { unfold slice_from. rewrite decide_True by (rewrite length_app; lia). by rewrite drop_app_length' by done. }
  unfold opt_panic, mbind, M_bind, mret, M_ret. by rewrite HexToAddress_as_text.
Qed.

Lemma contract_keys_run name σ :
  before 0 name σ → name ∈ [BatchConfirmKey_v1; OutgoingTXPoolKey_v1; OutgoingTXBatchKey_v1] →
  migrate_contract_keys (str name) (at_ σ) = Ret tt (at_ (advance name σ)).
Proof.
  intros Hb Hn. apply first_phase; [done|]. intros e m Hw En.
  assert (∃ a rest, addr_ok a ∧ old_rest as_text e = as_text a ++ rest ∧ old_rest id e = a ++ rest ∧
    r_mid (staged e) ≠ None ∧ v2_value e = v1_value e) as (a & rest & Ha & E1 & E2 & Hm & Ev).
  { rewrite !elem_of_cons, elem_of_nil in Hn. destruct Hn as [->|[->|[->|[]]]]; entries_of e Hw En;
      cbn [old_rest]; eexists _, _; split_and!; try done; destruct Hw as [[Ha _] _]; apply Ha. }
  rewrite moves_mid by done. rewrite E1, E2, Ev, En. by apply contract_key_body.
Qed.

(** *** The second half *)

Lemma moves_new e n (k : bytes) m :
  new_rest e = Some n →
  moves k (staged e) 2 m = <[HashString (entry_name e) ++ n := v2_value e]> (delete k m).
Proof. intros Hn. unfold moves. by rewrite (rform2_staged e n Hn). Qed.

(** Storing under the new key and deleting the old one commute. *)
Lemma set_then_delete (name : string) (n k v : bytes) (m : KVStore) :
  name ∈ v1_names →
  (_ ← store_set (HashString name ++ n) v; store_delete (str name ++ k)) m =
    Ret tt (<[HashString name ++ n := v]> (delete (str name ++ k) m)).
Proof.
  intros Hn. unfold store_set, store_delete, modify, mbind, M_bind. rewrite delete_insert_ne; [done|].
  intros E1. by apply (stage_prefix_inj 0 2 name name) in E1 as [_ ?].
Qed.

Lemma from_values_run name conv σ :
  before 1 name σ →
  (∀ e m, v1_wf e → entry_name e = name → r_mid (staged e) ≠ None →
    ∃ n, new_rest e = Some n ∧ conv (v2_value e) m = Ret (HashString name ++ n) m) →
  migrateKeysFromValues name conv (at_ σ) = Ret tt (at_ (advance name σ)).
Proof.
  intros Hb Hconv. apply second_phase; [done|]. intros e m Hw En Hm.
  destruct (Hconv e m Hw En Hm) as (n & Hn & Hc). rewrite (moves_new e n) by done.
  rewrite (bind_ret _ _ _ _ _ Hc). rewrite En. by apply set_then_delete, Hb.
Qed.

Lemma from_keys_run name new σ :
  before 1 name σ → new = HashString name →
  (∀ e, v1_wf e → entry_name e = name → r_mid (staged e) ≠ None → new_rest e = Some (old_rest id e)) →
  migrateKeysFromKeys name new (at_ σ) = Ret tt (at_ (advance name σ)).
Proof.
  intros Hb -> Hrest. apply second_phase; [done|]. intros e m Hw En Hm.
  rewrite (moves_new e (old_rest id e)) by (by apply Hrest). rewrite En. by apply set_then_delete, Hb.
Qed.

Lemma single_not_unused name : name ∈ single_names → name ∉ unused_names.
Proof. revert name. apply Forall_forall. repeat constructor; apply (bool_decide_unpack _); vm_compute; exact I. Qed.

Lemma deleteUnusedKeys_run name σ :
  before 1 name σ → name ∈ unused_names →
  deleteUnusedKeys name (at_ σ) = Ret tt (at_ (advance name σ)).
Proof.
  intros Hb Hn. apply second_phase; [done|]. intros e m Hw En _.
  assert (new_rest e = None) as Hr.
  { destruct e; try done; exfalso; cbn [entry_name v1_wf] in *; subst name; try absurd_name Hn.
    by apply (single_not_unused name0); [apply Hw|]. }
  unfold moves. cbn [rform staged r_mid r_new]. rewrite Hr. by destruct e.
Qed.

(** A single key: nothing else is stored under its name. *)
Lemma migrateKey_run name new σ :
  before 1 name σ → new = HashString name → name ∈ single_names →
  migrateKey name new (at_ σ) = Ret tt (at_ (advance name σ)).
Proof.
  intros Hb -> Hn. pose proof Hb as (Hname & Hbound & Hs).
  assert (∀ e, v1_wf e → entry_name e = name → ∃ v, e = V1Single name v ∧ v ≠ []) as Hsingle.
  { intros e Hw En. destruct e; cbn [entry_name v1_wf] in *; subst name; try (exfalso; absurd_name Hn).
    - by eexists; split; [|apply Hw].
    - exfalso. by apply (single_not_unused name0). }
  rewrite migrateKey_prefix.
  - apply second_phase; [done|]. intros e m Hw En Hm. destruct (Hsingle e Hw En) as (v & -> & _).
    rewrite (moves_new (V1Single name v) []) by done. cbn [old_rest entry_name v2_value v1_value].
    rewrite <- (app_nil_r (HashString name)) at 1. by apply set_then_delete.
  - intros k v Hk. pose proof (entries_ok_staged E HE) as Hok.
    apply (elem_of_layout (staged <$> E) Hok σ Hbound (str name ++ k, v)) in Hk as (r & Hr & Hf).
    assert (r_name r = name) as En.
    { destruct (rform_prefix _ _ _ Hf) as [t Et]. cbn [fst] in Et. symmetry in Et.
      by apply (stage_prefix_inj _ 0) in Et as [-> _]; [|apply (eo_names _ Hok)|]. }
    unfold form in Hf. rewrite En, Hs in Hf. apply list_elem_of_fmap in Hr as (e & -> & He).
    pose proof (vs_wf _ HE) as Hw. rewrite Forall_forall in Hw.
    destruct (Hsingle e (Hw e He) En) as (v' & -> & Hv). cbn in Hf. injection Hf as Ek <-.
    rewrite <- (app_nil_r (str name)) in Ek at 1. split; [|done]. symmetry. revert Ek. rewrite app_nil_r.
    intros Ek. by apply app_inv_head in Ek.
Qed.

(** *** The conversions by value *)

(** A conversion computes the key of version 2. *)
Lemma converts (name : string) (conv : bytes → KV1 bytes) :
  (∀ e m, v1_wf e → entry_name e = name → ∃ k, v2_key e = Some k ∧ conv (v2_value e) m = Ret k m) →
  ∀ e m, v1_wf e → entry_name e = name → r_mid (staged e) ≠ None →
    ∃ n, new_rest e = Some n ∧ conv (v2_value e) m = Ret (HashString name ++ n) m.
Proof.
  intros Hc e m Hw En _. destruct (Hc e m Hw En) as (k & Hk & Er). destruct (new_rest e) as [n|] eqn:Hn.
  - exists n. rewrite (v2_key_rest e n Hw Hn), En in Hk. by injection Hk as ->.
  - by destruct e.
Qed.

Lemma convertBatchKey_converts e m :
  v1_wf e → entry_name e = OutgoingTXBatchKey_v1 → ∃ k, v2_key e = Some k ∧ convertBatchKey (v2_value e) m = Ret k m.
Proof.
  intros Hw En. entries_of e Hw En. destruct Hw as (_ & b & Hd & Ht & <-). eexists. split; [done|].
  unfold convertBatchKey. cbn [v2_value v1_value]. by rewrite Hd, (bind_ret _ _ m b m), Ht.
Qed.

Lemma convertValsetKey_converts e m :
  v1_wf e → entry_name e = ValsetRequestKey_v1 → ∃ k, v2_key e = Some k ∧ convertValsetKey (v2_value e) m = Ret k m.
Proof.
  intros Hw En. entries_of e Hw En. destruct Hw as (v & Hd & <-). eexists. split; [done|].
  unfold convertValsetKey. cbn [v2_value v1_value]. by rewrite Hd.
Qed.

Lemma convertValsetConfirmKey_converts e m :
  v1_wf e → entry_name e = ValsetConfirmKey_v1 →
  ∃ k, v2_key e = Some k ∧ convertValsetConfirmKey (v2_value e) m = Ret k m.
Proof.
  intros Hw En. entries_of e Hw En. destruct Hw as (Hv & c & Hd & Ho & <-). cbn [v2_key v2_value v1_value].
  unfold convertValsetConfirmKey, GetValsetConfirmKey_v2. rewrite verified_eq by done. eexists. split; [done|].
  rewrite Hd, (bind_ret _ _ m c m), Ho, (bind_ret _ _ m orch m) by done. by rewrite verified_eq.
Qed.

Lemma convertAttestationKey_converts e m :
  v1_wf e → entry_name e = OracleAttestationKey_v1 →
  ∃ k, v2_key e = Some k ∧ convertAttestationKey (v2_value e) m = Ret k m.
Proof.
  intros Hw En. entries_of e Hw En. destruct Hw as (att & claim & Hd & Hu & Hh & <-). eexists. split; [done|].
  unfold convertAttestationKey. cbn [v2_value v1_value].
  by rewrite Hd, (bind_ret _ _ m att m), Hu, (bind_ret _ _ m claim m), Hh.
Qed.

Lemma convertOutgoingTxKey_converts e m :
  v1_wf e → entry_name e = OutgoingTXPoolKey_v1 →
  ∃ k, v2_key e = Some k ∧ convertOutgoingTxKey (v2_value e) m = Ret k m.
Proof.
  intros Hw En. entries_of e Hw En. destruct Hw as (_ & [amount Ha] & tx & Hd & Hf & <-). cbn [v2_key v2_value v1_value].
  unfold convertOutgoingTxKey, GetOutgoingTxPoolKey_v2. rewrite Ha. eexists. split; [done|].
  rewrite Hd, (bind_ret _ _ m tx m), Hf, (bind_ret _ _ m fee m) by done. by rewrite Ha.
Qed.

Lemma convertBatchConfirmKey_converts e m :
  v1_wf e → entry_name e = BatchConfirmKey_v1 →
  ∃ k, v2_key e = Some k ∧ convertBatchConfirmKey (v2_value e) m = Ret k m.
Proof.
  intros Hw En. entries_of e Hw En. destruct Hw as (_ & Hv & c & Hd & Ht & Ho & <-). cbn [v2_key v2_value v1_value].
  unfold convertBatchConfirmKey, GetBatchConfirmKey_v2. rewrite verified_eq by done. eexists. split; [done|].
  rewrite Hd, (bind_ret _ _ m c m), Ht, (bind_ret _ _ m token m), Ho, (bind_ret _ _ m orch m) by done.
  by rewrite verified_eq.
Qed.

Lemma convertLogicCallKey_converts e m :
  v1_wf e → entry_name e = KeyOutgoingLogicCall_v1 →
  ∃ k, v2_key e = Some k ∧ convertLogicCallKey (v2_value e) m = Ret k m.
Proof.
  intros Hw En. entries_of e Hw En. destruct Hw as (c & Hd & <- & <-). eexists. split; [done|].
  unfold convertLogicCallKey. cbn [v2_value v1_value]. by rewrite Hd.
Qed.

Lemma convertLogicCallConfirmKey_converts e m :
  v1_wf e → entry_name e = KeyOutgoingLogicConfirm_v1 →
  ∃ k, v2_key e = Some k ∧ convertLogicCallConfirmKey (v2_value e) m = Ret k m.
Proof.
  intros Hw En. entries_of e Hw En. destruct Hw as (Hv & c & Hd & Hid & Ho & <-). cbn [v2_key v2_value v1_value].
  unfold convertLogicCallConfirmKey, GetLogicConfirmKey_v2. rewrite verified_eq by done. eexists. split; [done|].
  rewrite Hd, (bind_ret _ _ m c m), Hid, (bind_ret _ _ m id m), Ho, (bind_ret _ _ m orch m) by done.
  by rewrite verified_eq.
Qed.

(** ** The whole migration *)

Definition first_names : list string :=
  [DenomToERC20Key_v1; ERC20ToDenomKey_v1; EthAddressByValidatorKey_v1; ValidatorByEthAddressKey_v1;
   BatchConfirmKey_v1; OutgoingTXPoolKey_v1; OutgoingTXBatchKey_v1].

(** Names that the first half has nothing to do with count as past it. *)
Definition start : progress := λ x, if decide (x ∈ first_names) then 0%nat else 1%nat.

Lemma start_bound x : (start x ≤ 2)%nat.
Proof. unfold start. case_decide; lia. Qed.

Lemma start_form e : v1_wf e → form start (staged e) = rform 0 (staged e).
Proof.
  intros Hw. unfold form, start. case_decide as Hf; [done|].
  destruct e; try done; exfalso; apply Hf; cbn [staged r_name entry_name];
    apply (bool_decide_unpack _); vm_compute; exact I.
Qed.

Lemma omap_form σ f :
  (∀ e, e ∈ E → form σ (staged e) = f e) → omap (form σ) (staged <$> E) = omap f E.
Proof.
  clear HE. induction E as [|e l IH]; intros Hf; [done|]. cbn [fmap list_fmap omap list_omap] in *.
  rewrite (Hf e) by (by left). rewrite IH; [done|]. intros e' He'. apply Hf. by right.
Qed.

Lemma start_layout : list_to_map (omap v1_kv E) = at_ start.
Proof.
  unfold layout. rewrite (omap_form start v1_kv); [done|]. intros e He.
  pose proof (vs_wf _ HE) as Hw. rewrite Forall_forall in Hw.
  rewrite start_form by (by apply Hw). symmetry. by apply v1_kv_staged, Hw.
Qed.

Lemma final_layout σ : (∀ x, x ∈ v1_names → σ x = 2%nat) → at_ σ = list_to_map (omap v2_kv E).
Proof.
  intros Hσ. unfold layout. rewrite (omap_form σ v2_kv); [done|]. intros e He.
  pose proof (vs_wf _ HE) as Hw. rewrite Forall_forall in Hw. unfold form. cbn [staged r_name].
  rewrite Hσ by (by apply entry_name_in, Hw). symmetry. by apply v2_kv_staged, Hw.
Qed.

Lemma seq_phase (m : KV1 unit) (f : unit → KV1 unit) name σ R :
  (∀ x, σ x ≤ 2)%nat → (σ name < 2)%nat → m (at_ σ) = Ret tt (at_ (advance name σ)) →
  ((∀ x, advance name σ x ≤ 2)%nat → f tt (at_ (advance name σ)) = R) → (m ≫= f) (at_ σ) = R.
Proof. intros Hb Hs Hm Hf. rewrite (bind_ret _ _ _ _ _ Hm). by apply Hf, advance_bound. Qed.

Ltac in_list := apply (bool_decide_unpack _); vm_compute; exact I.
Ltac stage := split_and!; [in_list|assumption|vm_compute; reflexivity].
Ltac then_phase := eapply seq_phase; [eassumption|shelve| |let Hb := fresh "Hb" in intros Hb; cbv beta].

Definition after_first : progress :=
  advance OutgoingTXBatchKey_v1 (advance OutgoingTXPoolKey_v1 (advance BatchConfirmKey_v1
    (advance ValidatorByEthAddressKey_v1 (advance EthAddressByValidatorKey_v1
      (advance ERC20ToDenomKey_v1 (advance DenomToERC20Key_v1 start)))))).

Lemma after_first_all : (∀ x, after_first x ≤ 2)%nat ∧ ∀ x, x ∈ v1_names → after_first x = 1%nat.
Proof.
  split; [|apply Forall_forall; repeat constructor; vm_compute; reflexivity].
  repeat (apply advance_bound; [|vm_compute; lia]). apply start_bound.
Qed.

Lemma first_half_runs R :
  migrateKeys (at_ after_first) = R → MigrateStore_v2 (at_ start) = R.
Proof.
  intros HR. unfold MigrateStore_v2. pose proof start_bound as Hb0.
  then_phase; [apply DenomToERC20_runs; stage|].
  then_phase; [apply ERC20ToDenom_runs; stage|].
  then_phase; [apply EthAddressByValidator_runs; stage|].
  then_phase; [apply ValidatorByEthAddress_runs; stage|].
  then_phase; [apply contract_keys_run; [stage|in_list]|].
  then_phase; [apply contract_keys_run; [stage|in_list]|].
  then_phase; [apply contract_keys_run; [stage|in_list]|].
  exact HR.
  Unshelve. all: vm_compute; lia.
Qed.

(** The keys of these names are carried over as they are. *)
Lemma same_rest e name :
  v1_wf e → entry_name e = name → r_mid (staged e) ≠ None →
  name ∈ [EthAddressByValidatorKey_v1; ValidatorByEthAddressKey_v1; LastEventNonceByValidatorKey_v1;
          KeyOrchestratorAddress_v1; DenomToERC20Key_v1; ERC20ToDenomKey_v1; PastEthSignatureCheckpointKey_v1] →
  new_rest e = Some (old_rest id e).
Proof.
  intros Hw En Hm Hn. destruct e; cbn [new_rest old_rest]; try done; exfalso; cbn [entry_name v1_wf] in *; subst name;
    first [absurd_name Hn|revert Hw Hn; clear].
  intros Hw. apply (λ Q, proj1 (Forall_forall (λ x, x ∉ _) unused_names) Q name0 Hw).
  repeat constructor; in_list.
Qed.

Ltac from_keys := apply from_keys_run; [stage|symmetry; apply hash_names|
  let e := fresh in let Hw := fresh in let En := fresh in let Hm := fresh in
  intros e Hw En Hm; apply (same_rest e _ Hw En Hm); in_list].
Ltac from_values c := apply from_values_run; [stage|apply converts; intros; by apply c].
Ltac single := apply migrateKey_run; [stage|vm_compute; reflexivity|in_list].

Lemma second_half_runs : migrateKeys (at_ after_first) = Ret tt (list_to_map (omap v2_kv E)).
Proof.
  unfold migrateKeys. pose proof (proj1 after_first_all) as Hb0.
  then_phase; [from_values convertBatchKey_converts|].
  then_phase; [from_values convertValsetKey_converts|].
  then_phase; [from_values convertValsetConfirmKey_converts|].
  then_phase; [from_values convertAttestationKey_converts|].
  then_phase; [from_values convertOutgoingTxKey_converts|].
  then_phase; [from_values convertBatchConfirmKey_converts|].
  then_phase; [from_values convertLogicCallKey_converts|].
  then_phase; [from_values convertLogicCallConfirmKey_converts|].
  do 7 (then_phase; [from_keys|]).
  do 10 (then_phase; [single|]).
  do 2 (then_phase; [apply deleteUnusedKeys_run; [stage|in_list]|]).
  rewrite deleteUnusedKeys_run; [|stage|in_list]. f_equal. apply final_layout, Forall_forall.
  repeat constructor; vm_compute; reflexivity.
  Unshelve. all: vm_compute; lia.
Qed.

(** C19. The Mercury upgrade brings a store of version 1 to version 2: it completes, every object is under the key that version 2 computes for it, with the Ethereum addresses in values as bytes, and nothing else is left: the addresses that were not written with their checksum and the indices that version 2 has no use for are gone. *)
Theorem MigrateStore_v2_spec :
  MigrateStore_v2 (list_to_map (omap v1_kv E)) = Ret tt (list_to_map (omap v2_kv E)).
Proof. rewrite start_layout. apply first_half_runs, second_half_runs. Qed.
End Phases.
