(* ===== verification/Application.v ===== *)
(** * The application (app/ante, app/upgrades, app/assert.go)

    What the application adds around the modules: the chain of checks that a
    transaction passes before its messages run, the checks at the first block, and the
    work that the Mercury and Pleiades upgrades do on other modules.  The decorators of
    the SDK, ethermint and ibc-go, the module manager and the keepers of x/staking,
    x/distribution and x/mint are interfaces. *)

From stdpp Require Import base gmap list strings sorting.
From S2P Require Import Prelude GoStd Config External Store Coins Keeper IbcForward Auction Bech32Ibc.

#[local] Open Scope Z_scope.

(** ** Transactions *)

(** A decimal of the SDK in units of 10^-18; [None] holds no number, and comparing it
    panics. *)
Abbreviation Dec := (option Z).
Definition LegacyNewDecWithPrec (i prec : Z) : Z := i * 10 ^ (18 - prec).

Record CommissionRates := mkCommissionRates { cr_Rate : Dec; cr_MaxRate : Dec }.

(** The messages that the checks tell apart; a message in a [MsgExec] is packed. *)
Inductive SdkMsg :=
  | MsgCreateValidator (commission : CommissionRates)
  | MsgEditValidator (commissionRate : option Dec)
  | MsgExec (msgs : list Any)
  | OtherMsg (typeUrl : string).

(** An extension option; the cached value is an [ExtensionOptionsWeb3Tx] or not. *)
Record Extension := mkExtension { ex_TypeUrl : string; ex_IsWeb3 : bool }.

(** [tx_Extensions] is [None] when the transaction is not a [HasExtensionOptionsTx]; an
    option may be nil. *)
Record Tx := mkTx { tx_Msgs : list SdkMsg; tx_Extensions : option (list (option Extension)) }.

(** [codec.UnpackAny] into a message *)
Class TxCodec := { UnpackMsg : Any → res SdkMsg }.

Definition AnteHandler (S : Type) : Type := Tx → bool → M S unit.
Definition AnteDecorator (S : Type) : Type := AnteHandler S → AnteHandler S.

Definition ErrUnauthorized : gerror := ErrSdk "unauthorized".
Definition ErrUnknownExtensionOptions : gerror := ErrSdk "unknown extension options".

(** ** The checks (app/ante) *)

Section Ante.
Context {S : Type} `{TxCodec}.

(** *** min_commission.go *)

Definition minCommissionRate : Z := LegacyNewDecWithPrec 10 2.

(** [c.LT(minCommissionRate)] *)
Definition below_min (c : Dec) : M S bool :=
  match c with Some r => mret (r <? minCommissionRate) | None => panic "nil pointer dereference" end.

Definition validMsg (m : SdkMsg) : M S unit :=
  match m with
  | MsgCreateValidator c =>
      low ← below_min (cr_Rate c);
      _ ← guard_err low ErrUnauthorized;
      lowMax ← below_min (cr_MaxRate c);
      guard_err lowMax ErrUnauthorized
  | MsgEditValidator None => mret tt
  | MsgEditValidator (Some rate) =>
      low ← below_min rate;
      guard_err low ErrUnauthorized
  | _ => mret tt
  end.

Definition validAuthz (msgs : list Any) : M S unit :=
  for_each msgs (λ v,
    innerMsg ← try (of_res (UnpackMsg v));
    match innerMsg with
    | Er _ => fail ErrUnauthorized
    | Ok innerMsg => validMsg innerMsg
    end).

Definition MinCommissionDecorator : AnteDecorator S := λ next tx simulate,
  _ ← for_each (tx_Msgs tx) (λ m,
        match m with MsgExec msgs => validAuthz msgs | _ => validMsg m end);
  next tx simulate.

(** *** reject_extensions.go *)

Definition WEB3_EXTENSION_TYPE_URL : string := "/ethermint.types.v1.ExtensionOptionsWeb3Tx".

Definition GetTxExtensionOptions (tx : Tx) : bool * list (option Extension) :=
  match tx_Extensions tx with
  | Some extensions => if decide (length extensions = 0%nat) then (false, []) else (true, extensions)
  | None => (false, [])
  end.

Definition IsWeb3TxOption (extension : option Extension) : bool :=
  match extension with
  | None => false
  | Some e => if decide (ex_TypeUrl e ≠ WEB3_EXTENSION_TYPE_URL) then false else ex_IsWeb3 e
  end.

Definition IsWeb3Tx (tx : Tx) : res bool :=
  let '(hasExtensions, extensions) := GetTxExtensionOptions tx in
  if negb hasExtensions then Ok false else
  match extensions with
  | [e] => if IsWeb3TxOption e then Ok true else Er ErrUnknownExtensionOptions
  | _ => Er ErrUnknownExtensionOptions
  end.

Definition GravityRejectExtensionsDecorator : AnteDecorator S := λ next tx simulate,
  match IsWeb3Tx tx with
  | Ok _ => next tx simulate
  | Er e => fail e
  end.

(** *** sig_verify.go *)

(** [LegacyEip712SigVerificationDecorator] of ethermint, [SigVerificationDecorator] of
    the SDK *)
Definition GravitySigVerificationDecorator (ethermintSVD sdkSVD : AnteDecorator S)
    : AnteDecorator S := λ next tx simulate,
  isEIP712Signed ← of_res (IsWeb3Tx tx);
  if isEIP712Signed : bool then ethermintSVD next tx simulate else sdkSVD next tx simulate.

(** *** ante.go *)

(** The decorators of other repositories, in the order of their use. *)
Record Decorators := mkDecorators {
  RejectMessages : AnteDecorator S; SetUpContext : AnteDecorator S; ValidateBasicD : AnteDecorator S;
  TxTimeoutHeight : AnteDecorator S; ValidateMemo : AnteDecorator S;
  ConsumeGasForTxSize : AnteDecorator S; DeductFee : AnteDecorator S; SetPubKey : AnteDecorator S;
  ValidateSigCount : AnteDecorator S; SigGasConsume : AnteDecorator S;
  Eip712SigVerification : AnteDecorator S; SdkSigVerification : AnteDecorator S;
  IncrementSequence : AnteDecorator S; RedundantRelay : AnteDecorator S }.

(** [sdk.ChainAnteDecorators]: each decorator is given the rest of the chain, and the
    chain ends in a handler that accepts. *)
Definition ChainAnteDecorators (chain : list (AnteDecorator S)) : AnteHandler S :=
  foldr (λ d next, d next) (λ _ _, mret tt) chain.

Definition ante_chain (ds : Decorators) : list (AnteDecorator S) :=
  [RejectMessages ds; SetUpContext ds; GravityRejectExtensionsDecorator; ValidateBasicD ds;
   TxTimeoutHeight ds; ValidateMemo ds; ConsumeGasForTxSize ds; DeductFee ds; SetPubKey ds;
   ValidateSigCount ds; SigGasConsume ds;
   GravitySigVerificationDecorator (Eip712SigVerification ds) (SdkSigVerification ds);
   IncrementSequence ds; RedundantRelay ds; MinCommissionDecorator].

Definition NewAnteHandler (ds : Decorators) (evmChainIDs : list string) : res (AnteHandler S) :=
  if decide (length evmChainIDs = 0%nat) then Er (ErrSdk "evmChainIDs not specified") else
  if existsb (λ chainID, bool_decide (chainID = "")) evmChainIDs
  then Er (ErrSdk "evmChainIDs contains an empty string")
  else Ok (ChainAnteDecorators (ante_chain ds)).
End Ante.
Arguments Decorators : clear implicits.

(** ** The checks at the first block (app/assert.go, app.go) *)

(** The parameters of x/mint, of which the denom is used *)
Class MintParams (W : Type) := { MintDenom : W → res string }.

(** The states of the modules that the application reads, and of the others. *)
Record AppState (W : Type) := mkAppState {
  ap_bech32ibc : HState W; ap_auction : AState W; ap_world : W }.
Arguments mkAppState {_} _ _ _.
Arguments ap_bech32ibc {_} _.
Arguments ap_auction {_} _.
Arguments ap_world {_} _.

(** A method of a module that changes nothing, called by the application. *)
Definition reading {W T A} (part : AppState W → T) (m : M T A) : M (AppState W) (res A) := λ s,
  match m (part s) with
  | Ret a _ => Ret (Ok a) s
  | Fail e _ => Ret (Er e) s
  | Panic msg => Panic msg
  end.

Section FirstBlock.
Context {W : Type} `{Bech32} `{MintParams W}.

Definition assertBech32PrefixMatches : M (AppState W) unit :=
  r ← reading ap_bech32ibc GetNativeHrp;
  nativePrefix ← or_panic "Error obtaining bech32ibc NativeHrp" r;
  guard_panic (bool_decide (nativePrefix ≠ GetBech32AccountAddrPrefix))
    "Mismatched bech32ibc NativeHrp and config Bech32 Account Prefix".

Definition assertNativeTokenIsNonAuctionable : M (AppState W) unit :=
  r ← reading ap_auction Auction.GetParams;
  params ← or_panic "Error obtaining auction params" r;
  mintParams ← gets (λ s, MintDenom (ap_world s));
  nativeToken ← or_panic "Error obtaining mint params" mintParams;
  if existsb (λ t, bool_decide (t = nativeToken)) (pa_NonAuctionableTokens params) then mret tt
  else panic "Auction module's nonAuctionableTokens MUST contain GRAV".

Definition assertNativeTokenMatchesConstant : M (AppState W) unit :=
  mintParams ← gets (λ s, MintDenom (ap_world s));
  nativeToken ← or_panic "Error obtaining mint params" mintParams;
  guard_panic (bool_decide (NativeTokenDenom ≠ nativeToken))
    "The hard-coded native token denom must equal the actual native token".

Definition firstBeginBlocker : M (AppState W) unit :=
  _ ← assertBech32PrefixMatches;
  _ ← assertNativeTokenMatchesConstant;
  assertNativeTokenIsNonAuctionable.
End FirstBlock.

(** ** Upgrades *)

(** *** x/staking: a validator, with what the upgrades do not touch in [sv_Rest]; errors
    of the hook and of [SetValidator] are ignored by the code. *)
Record StakingValidator := mkStakingValidator {
  sv_Operator : string; sv_Rate : Z; sv_MaxRate : Z; sv_UpdateTime : Z; sv_Rest : bytes }.

Class StakingAdmin (W : Type) := {
  GetAllValidators : W → res (list StakingValidator);
  SetValidator : StakingValidator → W → W;
  BeforeValidatorModified : bytes → W → W;
  BlockTime : W → Z;
}.

(** *** x/distribution, with [sdk.DecCoins] as coins in units of 10^-18. *)
Class DistrAdmin (W : Type) := {
  FeePool_Get : W → res (list Coin);
  FeePool_Set : list Coin → W → option gerror * W;
  (** the rewards that [IterateValidatorOutstandingRewards] visits *)
  OutstandingRewards : W → list (list Coin);
  (** [AllInvariants] of the module: whether one is broken *)
  DistrInvariants : W → bool;
}.

(** [sdk.DecCoins]; [None] is a panic. *)
Class DecCoinsApi := {
  NewCoins : list Coin → option (list Coin);
  NewDecCoinsFromCoins : list Coin → option (list Coin);
  (** [NewDecCoins(NewDecCoinFromDec(denom, amount))] *)
  NewDecCoins : string → Z → option (list Coin);
  DecCoins_Add : list Coin → list Coin → option (list Coin);
  (** with whether an amount is negative *)
  DecCoins_SafeSub : list Coin → list Coin → option (list Coin * bool);
  DecCoins_Sub : list Coin → list Coin → option (list Coin);
  DecCoins_AmountOf : list Coin → string → option Z;
  DecCoins_IsZero : list Coin → bool;
}.

Section Upgrades.
Context {W : Type} `{Sdk} `{Bank W} `{BankBalances W} `{MintParams W} `{StakingAdmin W}
  `{DistrAdmin W} `{DecCoinsApi}.

(** [bumpMinValidatorCommissions] of the two upgrades, with their minimum. *)
Definition raise_commission (min : Z) (v : StakingValidator) : M W unit :=
  if sv_Rate v <? min then
    let maxRate := if sv_MaxRate v <? min then min else sv_MaxRate v in
    now ← gets BlockTime;
    let v' := mkStakingValidator (sv_Operator v) min maxRate now (sv_Rest v) in
    operator ← of_res (ValAddressFromBech32 (sv_Operator v'));
    _ ← modify (BeforeValidatorModified operator);
    modify (SetValidator v')
  else mret tt.

Definition raise_commissions (min : Z) : M W unit :=
  r ← gets GetAllValidators;
  validators ← of_res r;
  for_each validators (raise_commission min).

Definition bumpMinValidatorCommissions_v2 : M W unit := raise_commissions (LegacyNewDecWithPrec 5 2).
Definition bumpMinValidatorCommissions_pleiades : M W unit := raise_commissions (LegacyNewDecWithPrec 10 2).

Definition ErrInvalidCoins : gerror := ErrSdk "invalid coins".

Definition dec {A} (r : option A) : M W A := opt_panic "DecCoins" r.

(** The community pool without the native token. *)
Definition without_denom (ugraviton : string) (commPool : list Coin) : M W (list Coin) :=
  for_acc commPool [] (λ c commPoolNoGrav,
    if decide (Denom c ≠ ugraviton)
    then commPoolNoGrav' ← dec (DecCoins_Add commPoolNoGrav [c]); mret (commPoolNoGrav', false)
    else mret (commPoolNoGrav, false)).

Definition sum_rewards : M W (list Coin) :=
  rewards ← gets OutstandingRewards;
  for_acc rewards [] (λ r sumRewards,
    sumRewards' ← dec (DecCoins_Add sumRewards r); mret (sumRewards', false)).

(** The last part of [fixDistributionPoolBalance]: the check of the discrepancy, and the
    new pool. *)
Definition settle_discrepancy (ugraviton : string)
    (commPool commPoolNoGrav sumRewards distrBalLessRewards discrepancy : list Coin) : M W unit :=
  allBalances ← gets (λ w, GetAllBalances w (GetModuleAddress DistributionModule));
  distrBals ← dec (NewDecCoinsFromCoins allBalances);
  lessRewards ← dec (DecCoins_Sub distrBals sumRewards);
  expectedDiscrepancy ← dec (DecCoins_Sub lessRewards commPool);
  unexpected ← dec (DecCoins_Sub discrepancy expectedDiscrepancy);
  unexpectedAmount ← dec (DecCoins_AmountOf unexpected ugraviton);
  _ ← guard_err (negb (unexpectedAmount =? 0)) ErrInvalidCoins;
  if DecCoins_IsZero discrepancy && DecCoins_IsZero expectedDiscrepancy then mret tt else
  fixedPool ← dec (DecCoins_Add commPoolNoGrav distrBalLessRewards);
  _ ← (λ w, match FeePool_Set fixedPool w with
            | (Some e, w') => Fail e w' | (None, w') => Ret tt w' end : outcome W unit);
  issue ← gets DistrInvariants;
  guard_err issue ErrInvalidCoins.

(** The part before it: the discrepancy of the native token. *)
Definition find_discrepancy (ugraviton : string)
    (commPool commPoolNoGrav sumRewards distrBalDec ugravitonRewards : list Coin) : M W unit :=
  less ← dec (DecCoins_SafeSub distrBalDec ugravitonRewards);
  let '(distrBalLessRewards, invalidBal) := less in
  _ ← guard_err invalidBal ErrInvalidCoins;
  poolAmount ← dec (DecCoins_AmountOf commPool ugraviton);
  commPoolUgraviton ← dec (NewDecCoins ugraviton poolAmount);
  diff ← dec (DecCoins_SafeSub distrBalLessRewards commPoolUgraviton);
  let '(discrepancy, invalidBal) := diff in
  _ ← guard_err invalidBal ErrInvalidCoins;
  settle_discrepancy ugraviton commPool commPoolNoGrav sumRewards distrBalLessRewards discrepancy.

Definition fixDistributionPoolBalance : M W unit :=
  let distrAcc := GetModuleAddress DistributionModule in
  mintParams ← gets MintDenom;
  ugraviton ← of_res mintParams;
  distrBal ← gets (λ w, GetBalance w distrAcc ugraviton);
  distrBalCoins ← dec (NewCoins [mkCoin ugraviton distrBal]);
  feePool ← gets FeePool_Get;
  commPool ← of_res feePool;
  commPoolNoGrav ← without_denom ugraviton commPool;
  sumRewards ← sum_rewards;
  rewardsAmount ← dec (DecCoins_AmountOf sumRewards ugraviton);
  ugravitonRewards ← dec (NewDecCoins ugraviton rewardsAmount);
  distrBalDec ← dec (NewDecCoinsFromCoins distrBalCoins);
  find_discrepancy ugraviton commPool commPoolNoGrav sumRewards distrBalDec ugravitonRewards.
End Upgrades.

(** *** The handlers

    [RunMigrations] of the module manager returns the versions and an error;
    [AssertInvariants] of x/crisis panics when an invariant is broken. *)
Class Modules (S : Type) := {
  ConsensusVersions : gmap string Z;
  RunMigrations : gmap string Z → S → (gmap string Z * option gerror) * S;
  InvariantBroken : S → bool;
}.

Section Handlers.
Context {W : Type} `{Sdk} `{Bank W} `{BankBalances W} `{MintParams W} `{StakingAdmin W}
  `{DistrAdmin W} `{DecCoinsApi} `{Modules (HState W)}.

Definition run_migrations (vmap : gmap string Z) : KB W (gmap string Z * option gerror) := λ s,
  let '(out, s') := RunMigrations vmap s in Ret out s'.

(** A method of another module *)
Definition in_world {A} (m : M W A) : KB W A := λ s,
  match m (hs_world s) with
  | Ret a w => Ret a (mkHState (hs_store s) w (hs_events s))
  | Fail e w => Fail e (mkHState (hs_store s) w (hs_events s))
  | Panic msg => Panic msg
  end.

Definition with_error {A} (out : A * option gerror) : KB W A :=
  match out.2 with Some e => fail e | None => mret out.1 end.

Definition setupBech32ibcKeeper : KB W unit := SetNativeHrp "gravity".

Definition V2UpgradeHandler : KB W (gmap string Z) :=
  let fromVM := <["gravity" := 1]> ConsensusVersions in
  _ ← must "bech32ibc module not initialized" setupBech32ibcKeeper;
  _ ← must "distribution module balance could not be corrected" (in_world fixDistributionPoolBalance);
  _ ← must "minimum validator commissions could not be corrected"
        (in_world bumpMinValidatorCommissions_v2);
  out ← run_migrations fromVM;
  with_error out.

Definition PleiadesUpgradeHandler (vmap : gmap string Z) : KB W (gmap string Z) :=
  out ← run_migrations vmap;
  broken ← gets InvariantBroken;
  _ ← guard_panic broken "invariant broken";
  with_error out.

Definition Pleiades2UpgradeHandler (vmap : gmap string Z) : KB W (gmap string Z) :=
  out ← run_migrations vmap;
  _ ← in_world bumpMinValidatorCommissions_pleiades;
  broken ← gets InvariantBroken;
  _ ← guard_panic broken "invariant broken";
  with_error out.
End Handlers.

(** * Properties *)

(** ** Transactions that are admitted *)

Section Admission.
Context {S : Type} `{TxCodec}.

(** A decorator accepts a transaction only by handing it on. *)
Definition passes_on (d : AnteDecorator S) : Prop :=
  ∀ next tx sim s s', d next tx sim s = Ret tt s' → ∃ s1, next tx sim s1 = Ret tt s'.

(** A decorator that has no objection. *)
Definition no_objection (d : AnteDecorator S) : Prop := ∀ next tx sim s, d next tx sim s = next tx sim s.

Definition foreign (ds : Decorators S) : list (AnteDecorator S) :=
  [RejectMessages ds; SetUpContext ds; ValidateBasicD ds; TxTimeoutHeight ds; ValidateMemo ds;
   ConsumeGasForTxSize ds; DeductFee ds; SetPubKey ds; ValidateSigCount ds; SigGasConsume ds;
   Eip712SigVerification ds; SdkSigVerification ds; IncrementSequence ds; RedundantRelay ds].

(** At least the minimum commission. *)
Definition at_least_min (c : Dec) : Prop := ∃ r, c = Some r ∧ minCommissionRate ≤ r.

Definition pays_min (m : SdkMsg) : Prop :=
  match m with
  | MsgCreateValidator c => at_least_min (cr_Rate c) ∧ at_least_min (cr_MaxRate c)
  | MsgEditValidator (Some c) => at_least_min c
  | _ => True
  end.

Definition compliant (m : SdkMsg) : Prop :=
  match m with
  | MsgExec msgs => Forall (λ a, ∃ m', UnpackMsg a = Ok m' ∧ pays_min m') msgs
  | _ => pays_min m
  end.

Definition web3 (tx : Tx) : Prop :=
  tx_Extensions tx = Some [Some (mkExtension WEB3_EXTENSION_TYPE_URL true)].

Definition no_extensions (tx : Tx) : Prop := tx_Extensions tx = None ∨ tx_Extensions tx = Some [].

Lemma IsWeb3Tx_one tx e :
  tx_Extensions tx = Some [e] → IsWeb3Tx tx = if IsWeb3TxOption e then Ok true else Er ErrUnknownExtensionOptions.
Proof. intros E. unfold IsWeb3Tx, GetTxExtensionOptions. by rewrite E, decide_False. Qed.

Lemma IsWeb3TxOption_true e :
  IsWeb3TxOption e = true ↔ e = Some (mkExtension WEB3_EXTENSION_TYPE_URL true).
Proof.
  destruct e as [[url w]|]; cbn; [|done]. case_decide as E; split; try done.
  - by intros [= -> ->].
  - intros ->. by rewrite E.
  - by intros [= _ ->].
Qed.

Lemma IsWeb3Tx_spec tx :
  (IsWeb3Tx tx = Ok true ↔ web3 tx) ∧ (IsWeb3Tx tx = Ok false ↔ no_extensions tx).
Proof.
  unfold web3, no_extensions. destruct (tx_Extensions tx) as [[|e [|e' es]]|] eqn:E.
  - unfold IsWeb3Tx, GetTxExtensionOptions. rewrite E. naive_solver.
  - rewrite (IsWeb3Tx_one tx e E). pose proof (IsWeb3TxOption_true e). destruct (IsWeb3TxOption e); naive_solver.
  - unfold IsWeb3Tx, GetTxExtensionOptions. rewrite E, decide_False by done. naive_solver.
  - unfold IsWeb3Tx, GetTxExtensionOptions. rewrite E. naive_solver.
Qed.

Lemma below_min_eq c (s s' : S) : below_min c s = Ret false s' ↔ at_least_min c ∧ s' = s.
Proof.
  unfold below_min, at_least_min. destruct c as [r|]; [|naive_solver].
  destruct (Z.ltb_spec r minCommissionRate) as [Hr|Hr]; cbn; split; try done.
  - intros [(r' & [= <-] & Hr') _]. lia.
  - intros [= <-]. by split; [exists r|].
  - by intros [_ ->].
Qed.

Lemma guarded_min c (s s' : S) u :
  (low ← below_min c; guard_err low ErrUnauthorized) s = Ret u s' ↔ at_least_min c ∧ s' = s.
Proof.
  rewrite <- below_min_eq. unfold mbind, M_bind. destruct u. destruct c as [r|]; [|done]. cbn.
  destruct (r <? minCommissionRate); cbn; [done|]. by split; intros [= <-].
Qed.

Lemma accepted (s s' : S) : (mret tt : M S unit) s = Ret tt s' ↔ True ∧ s' = s.
Proof. by split; [intros [= <-]|intros [_ ->]]. Qed.

Lemma validMsg_ret m (s s' : S) u : validMsg m s = Ret u s' ↔ pays_min m ∧ s' = s.
Proof.
  destruct u. destruct m as [c|[c|]|msgs|url]; cbn [validMsg pays_min]; try apply accepted.
  - split.
    + intros E. mnext E as low s1 E1. mnext E as u2 s2 E2.
      assert ((low ← below_min (cr_Rate c); guard_err low ErrUnauthorized) s = Ret u2 s2) as [? ->]%guarded_min
        by (by rewrite (bind_ret _ _ _ _ _ E1)).
      apply guarded_min in E as [? ->]. done.
    + intros [[[r [Er Hr]] Hm] ->]. rewrite (bind_ret _ _ s false s) by (by apply below_min_eq; split; [exists r|]).
      rewrite (bind_ret _ _ s tt s) by done. by apply guarded_min.
  - apply guarded_min.
Qed.

Lemma for_each_ret {A} (body : A → M S unit) (P : A → Prop) l (s s' : S) u :
  (∀ x s s' u, body x s = Ret u s' ↔ P x ∧ s' = s) → for_each l body s = Ret u s' ↔ Forall P l ∧ s' = s.
Proof.
  intros Hb. destruct u. induction l as [|x l IH]; cbn [for_each].
  - rewrite accepted. by rewrite Forall_nil.
  - split.
    + intros E. mnext E as u s1 E1. apply Hb in E1 as [Hx ->]. apply IH in E as [Hl ->]. by split; [constructor|].
    + intros [[Hx Hl]%Forall_cons ->]. rewrite (bind_ret _ _ s tt s) by (by apply Hb). by apply IH.
Qed.

Lemma validAuthz_ret msgs (s s' : S) u : validAuthz msgs s = Ret u s' ↔ compliant (MsgExec msgs) ∧ s' = s.
Proof.
  apply for_each_ret. intros a s0 s1 v. unfold try, of_res, mbind, M_bind.
  destruct (UnpackMsg a) as [m|e]; cbn.
  - rewrite validMsg_ret. naive_solver.
  - naive_solver.
Qed.

Lemma checked_msgs tx (s s1 : S) u :
  for_each (tx_Msgs tx) (λ m, match m with MsgExec msgs => validAuthz msgs | _ => validMsg m end) s = Ret u s1 ↔
  Forall compliant (tx_Msgs tx) ∧ s1 = s.
Proof.
  apply for_each_ret. intros [c|c|msgs|url] s2 s3 v;
    [apply validMsg_ret|apply validMsg_ret|apply validAuthz_ret|apply validMsg_ret].
Qed.

Lemma MinCommission_next next tx sim (s : S) :
  Forall compliant (tx_Msgs tx) → MinCommissionDecorator next tx sim s = next tx sim s.
Proof. intros Hc. unfold MinCommissionDecorator. rewrite (bind_ret _ _ s tt s); [done|]. by apply checked_msgs. Qed.

Lemma MinCommission_compliant next tx sim (s s' : S) :
  MinCommissionDecorator next tx sim s = Ret tt s' → Forall compliant (tx_Msgs tx).
Proof. unfold MinCommissionDecorator. intros E. mnext E as u s1 E1. by apply checked_msgs in E1 as []. Qed.

Lemma MinCommission_passes_on : passes_on MinCommissionDecorator.
Proof.
  intros next tx sim s s' E. exists s. rewrite <- E. symmetry.
  by eapply MinCommission_next, MinCommission_compliant.
Qed.

Lemma RejectExtensions_passes_on : passes_on GravityRejectExtensionsDecorator.
Proof.
  intros next tx sim s s'. unfold GravityRejectExtensionsDecorator. destruct (IsWeb3Tx tx); [|done].
  intros E. by exists s.
Qed.

Lemma SigVerification_ret (eth sdk : AnteDecorator S) next tx sim (s s' : S) :
  GravitySigVerificationDecorator eth sdk next tx sim s = Ret tt s' ↔
  (web3 tx ∧ eth next tx sim s = Ret tt s') ∨ (no_extensions tx ∧ sdk next tx sim s = Ret tt s').
Proof.
  destruct (IsWeb3Tx_spec tx) as [<- <-]. unfold GravitySigVerificationDecorator, of_res, mbind, M_bind.
  destruct (IsWeb3Tx tx) as [[]|e]; cbn; naive_solver.
Qed.

Lemma SigVerification_next (eth sdk : AnteDecorator S) next tx sim (s : S) :
  no_objection eth → no_objection sdk → web3 tx ∨ no_extensions tx →
  GravitySigVerificationDecorator eth sdk next tx sim s = next tx sim s.
Proof.
  destruct (IsWeb3Tx_spec tx) as [<- <-]. intros He Hs Hw.
  unfold GravitySigVerificationDecorator, of_res, mbind, M_bind.
  destruct Hw as [-> | ->]; cbn; [apply He|apply Hs].
Qed.

Lemma RejectExtensions_next next tx sim (s : S) :
  web3 tx ∨ no_extensions tx → GravityRejectExtensionsDecorator next tx sim s = next tx sim s.
Proof.
  destruct (IsWeb3Tx_spec tx) as [<- <-]. unfold GravityRejectExtensionsDecorator. by intros [-> | ->].
Qed.

Lemma SigVerification_passes_on (eth sdk : AnteDecorator S) :
  passes_on eth → passes_on sdk → passes_on (GravitySigVerificationDecorator eth sdk).
Proof. intros He Hs next tx sim s s' [[_ E]|[_ E]]%SigVerification_ret; eauto. Qed.

Lemma chain_reaches (before after : list (AnteDecorator S)) d tx sim (s s' : S) :
  Forall passes_on before → ChainAnteDecorators (before ++ d :: after) tx sim s = Ret tt s' →
  ∃ s1, d (ChainAnteDecorators after) tx sim s1 = Ret tt s'.
Proof.
  intros Hb. revert s. induction Hb as [|d' before Hd Hb IH]; intros s E; [by exists s|].
  apply Hd in E as [s1 E]. by apply (IH s1).
Qed.

Lemma own_pass_on (ds : Decorators S) : Forall passes_on (foreign ds) → Forall passes_on (ante_chain ds).
Proof.
  unfold foreign, ante_chain. rewrite !Forall_cons. intros. destruct_and!.
  split_and!; try done; auto using RejectExtensions_passes_on, MinCommission_passes_on, SigVerification_passes_on.
Qed.

Lemma chain_at (ds : Decorators S) n d tx sim (s s' : S) :
  Forall passes_on (foreign ds) → ante_chain ds !! n = Some d →
  ChainAnteDecorators (ante_chain ds) tx sim s = Ret tt s' → ∃ next s1, d next tx sim s1 = Ret tt s'.
Proof.
  intros Hf%own_pass_on Hn E. rewrite <- (take_drop_middle _ _ _ Hn) in E.
  apply chain_reaches in E as [s1 E]; [by eexists _, s1|]. by apply Forall_take.
Qed.

Lemma chain_no_objection (chain : list (AnteDecorator S)) tx sim (s : S) :
  Forall (λ d, ∀ next, d next tx sim s = next tx sim s) chain → ChainAnteDecorators chain tx sim s = Ret tt s.
Proof. induction 1 as [|d chain Hd Hc IH]; [done|]. cbn. rewrite Hd. exact IH. Qed.

Lemma NewAnteHandler_inv (ds : Decorators S) ids h :
  NewAnteHandler ds ids = Ok h → ids ≠ [] ∧ "" ∉ ids ∧ h = ChainAnteDecorators (ante_chain ds).
Proof.
  unfold NewAnteHandler. case_decide as El; [done|]. destruct (existsb _ _) eqn:Ee; [done|].
  intros [= <-]. split_and!; [by intros ->| |done]. intros Hin%list_elem_of_In.
  assert (existsb (λ chainID, bool_decide (chainID = "")) ids = true) as E; [|congruence].
  apply existsb_exists. exists "". by rewrite bool_decide_true.
Qed.

(** C20. The handler that every transaction passes admits only transactions whose signatures were verified in the way that their extension options ask for: by the EIP-712 verification with exactly the one option that Gravity knows, by the SDK without options; and whose validator messages, also those inside a MsgExec, set a commission of at least 10%.  When the decorators of the other repositories have no objection it admits exactly those.  A MsgExec inside a MsgExec is not looked into: whatever it contains passes. *)
Theorem AnteHandler_admits (ds : Decorators S) ids h tx sim (s : S) :
  NewAnteHandler ds ids = Ok h → Forall passes_on (foreign ds) →
  (∀ s', h tx sim s = Ret tt s' → Forall compliant (tx_Msgs tx) ∧
    ∃ next s1, (web3 tx ∧ Eip712SigVerification ds next tx sim s1 = Ret tt s') ∨
               (no_extensions tx ∧ SdkSigVerification ds next tx sim s1 = Ret tt s')) ∧
  (Forall no_objection (foreign ds) →
    h tx sim s = Ret tt s ↔ Forall compliant (tx_Msgs tx) ∧ (web3 tx ∨ no_extensions tx)) ∧
  (∀ a inner next, UnpackMsg a = Ok (MsgExec inner) → tx_Msgs tx = [MsgExec [a]] →
    MinCommissionDecorator next tx sim s = next tx sim s).
Proof.
  intros (_ & _ & ->)%NewAnteHandler_inv Hf.
  assert (∀ s', ChainAnteDecorators (ante_chain ds) tx sim s = Ret tt s' → Forall compliant (tx_Msgs tx) ∧
    ∃ next s1, (web3 tx ∧ Eip712SigVerification ds next tx sim s1 = Ret tt s') ∨
               (no_extensions tx ∧ SdkSigVerification ds next tx sim s1 = Ret tt s')) as Hadm.
  { intros s' E. split.
    - apply (chain_at ds 14 MinCommissionDecorator) in E as (next & s1 & Hc%MinCommission_compliant); done.
    - apply (chain_at ds 11 _ tx sim s s' Hf eq_refl) in E as (next & s1 & E%SigVerification_ret).
      by exists next, s1. }
  split_and!; [done| |].
  - intros Hn. split.
    + intros (Hc & next & s1 & [[Hw _]|[Hw _]])%Hadm; auto.
    + intros [Hc Hw]. apply chain_no_objection. unfold foreign in Hn. rewrite !Forall_cons in Hn.
      destruct_and!. unfold no_objection in *. unfold ante_chain.
      repeat (apply Forall_cons; split); [..|apply Forall_nil; done]; intros next; try done;
        auto using RejectExtensions_next, SigVerification_next, MinCommission_next.
  - intros a inner next Ha Hm. apply MinCommission_next. rewrite Hm. repeat constructor. by eexists.
Qed.
End Admission.

(** ** The first block *)

Section FirstBlockCorrect.
Context {W : Type} `{Bech32} `{MintParams W}.
Implicit Types s : AppState W.

(** The three places that name the chain's prefix and its token agree, and the token is
    not for sale. *)
Definition app_ready s : Prop :=
  ∃ bz p, hs_store (ap_bech32ibc s) !! NativeHrpKey = Some bz ∧
    string_of_bytes bz = GetBech32AccountAddrPrefix ∧ MintDenom (ap_world s) = Ok NativeTokenDenom ∧
    as_params (ap_auction s) = Some p ∧ NativeTokenDenom ∈ pa_NonAuctionableTokens p.

Lemma existsb_eq (l : list string) d : existsb (λ t, bool_decide (t = d)) l = bool_decide (d ∈ l).
Proof.
  induction l as [|x l IH]; cbn [existsb].
  - rewrite bool_decide_false; [done|]. apply not_elem_of_nil.
  - rewrite IH, <- bool_decide_or. apply bool_decide_ext. rewrite elem_of_cons. naive_solver.
Qed.

(** The first block starts exactly when the application is configured consistently, and panics otherwise; it changes nothing. *)
Theorem firstBeginBlocker_spec s :
  (app_ready s ∧ firstBeginBlocker s = Ret tt s) ∨ (¬ app_ready s ∧ ∃ msg, firstBeginBlocker s = Panic msg).
Proof.
  unfold firstBeginBlocker, assertBech32PrefixMatches, assertNativeTokenMatchesConstant,
    assertNativeTokenIsNonAuctionable, reading, GetNativeHrp, Auction.GetParams, gets, mbind, M_bind.
  destruct (hs_store (ap_bech32ibc s) !! NativeHrpKey) as [bz|] eqn:Eb; cbn;
    [|right; split; [intros (? & ? & ? & _); congruence|by eexists]].
  destruct (decide (string_of_bytes bz = GetBech32AccountAddrPrefix)) as [Ep|Ep].
  2: { rewrite bool_decide_true by done. right. split; [|by eexists].
       intros (bz' & p & E & E2 & _). simplify_eq. }
  rewrite bool_decide_false by auto. cbn.
  destruct (MintDenom (ap_world s)) as [d|e] eqn:Em; cbn;
    [|right; split; [intros (? & ? & _ & _ & ? & _); congruence|by eexists]].
  destruct (decide (d = NativeTokenDenom)) as [->|Hd].
  2: { rewrite bool_decide_true by auto. right. split; [|by eexists].
       intros (bz' & p & _ & _ & E & _). congruence. }
  rewrite bool_decide_false by auto. cbn.
  destruct (as_params (ap_auction s)) as [p|] eqn:Ea; cbn;
    [|right; split; [intros (? & ? & _ & _ & _ & ? & _); congruence|by eexists]].
  rewrite Em. cbn. rewrite existsb_eq. case_bool_decide as Hin.
  - left. split; [|done]. by exists bz, p.
  - right. split; [|by eexists]. intros (bz' & p' & _ & _ & _ & E & Hin'). congruence.
Qed.
End FirstBlockCorrect.

(** ** Commissions *)

(** The hook and the writing of a validator change no other validator. *)
Class StakingAdminLaws (W : Type) `{StakingAdmin W} := {
  set_validator v w vs : GetAllValidators w = Ok vs → GetAllValidators (SetValidator v w) =
    Ok ((λ v', if decide (sv_Operator v' = sv_Operator v) then v else v') <$> vs);
  set_validator_time v w : BlockTime (SetValidator v w) = BlockTime w;
  hook_validators a w : GetAllValidators (BeforeValidatorModified a w) = GetAllValidators w;
  hook_time a w : BlockTime (BeforeValidatorModified a w) = BlockTime w;
}.

Section Commissions.
Context {W : Type} `{Sdk} `{StakingAdminLaws W}.

(** A validator with at least the minimum. *)
Definition raised (min now : Z) (v : StakingValidator) : StakingValidator :=
  if sv_Rate v <? min
  then mkStakingValidator (sv_Operator v) min (Z.max min (sv_MaxRate v)) now (sv_Rest v) else v.

Lemma raised_operator min now v : sv_Operator (raised min now v) = sv_Operator v.
Proof. unfold raised. by destruct (_ <? _). Qed.

Lemma raised_operators min now (l : list StakingValidator) : sv_Operator <$> (raised min now <$> l) = sv_Operator <$> l.
Proof. rewrite <- list_fmap_compose. apply list_fmap_ext. intros i v _. apply raised_operator. Qed.

Lemma raise_commission_eq min v w :
  raise_commission min v w =
    if sv_Rate v <? min then
      match ValAddressFromBech32 (sv_Operator v) with
      | Ok a => Ret tt (SetValidator (raised min (BlockTime w) v) (BeforeValidatorModified a w))
      | Er e => Fail e w
      end
    else Ret tt w.
Proof.
  unfold raise_commission, raised, gets, of_res, modify, mbind, M_bind. destruct (sv_Rate v <? min); [|done]. cbn.
  replace (if sv_MaxRate v <? min then min else sv_MaxRate v) with (Z.max min (sv_MaxRate v))
    by (destruct (Z.ltb_spec (sv_MaxRate v) min); lia).
  by destruct (ValAddressFromBech32 _).
Qed.

(** Replacing the validator [v], who is the only one with its operator. *)
Lemma replace_one (l1 l2 : list StakingValidator) v v' :
  NoDup (sv_Operator <$> l1 ++ v :: l2) → sv_Operator v' = sv_Operator v →
  (λ x, if decide (sv_Operator x = sv_Operator v') then v' else x) <$> l1 ++ v :: l2 = l1 ++ v' :: l2.
Proof.
  rewrite fmap_app, NoDup_app. intros (_ & Hd & Hnd) E. cbn [fmap list_fmap] in *.
  apply NoDup_cons in Hnd as [Hv _]. rewrite fmap_app, E. cbn [fmap list_fmap]. rewrite decide_True by done.
  assert (∀ l : list StakingValidator, sv_Operator v ∉ sv_Operator <$> l →
    (λ x, if decide (sv_Operator x = sv_Operator v) then v' else x) <$> l = l) as Hid.
  { intros l Hl. etrans; [|apply list_fmap_id]. apply list_fmap_ext. intros i x Hx.
    rewrite decide_False; [done|]. intros Ex. apply Hl. rewrite <- Ex.
    by eapply list_elem_of_fmap_2, list_elem_of_lookup_2. }
  rewrite (Hid l2 Hv), Hid; [done|]. intros Hin. apply (Hd _ Hin). by left.
Qed.

(** The loop, with [l1] behind it. *)
Lemma raise_loop min now (l1 l2 : list StakingValidator) w :
  NoDup (sv_Operator <$> l1 ++ l2) → GetAllValidators w = Ok ((raised min now <$> l1) ++ l2) → BlockTime w = now →
  (∀ u w', for_each l2 (raise_commission min) w = Ret u w' →
    GetAllValidators w' = Ok (raised min now <$> l1 ++ l2) ∧ BlockTime w' = now) ∧
  (Forall (λ v, is_ok (ValAddressFromBech32 (sv_Operator v)) = true) l2 →
    returns (for_each l2 (raise_commission min)) w).
Proof.
  revert l1 w. induction l2 as [|v l2 IH]; intros l1 w Hnd Hw Ht; cbn [for_each].
  { rewrite !app_nil_r in *. split; [by intros u w' [= _ <-]|]. by eexists _, _. }
  assert (∀ w1, raise_commission min v w = Ret tt w1 →
    GetAllValidators w1 = Ok ((raised min now <$> l1 ++ [v]) ++ l2) ∧ BlockTime w1 = now) as Hstep.
  { intros w1. rewrite raise_commission_eq, Ht. destruct (sv_Rate v <? min) eqn:Er.
    - destruct (ValAddressFromBech32 _) as [a|]; [|done]. intros [= <-].
      rewrite set_validator_time, hook_time. split; [|done].
      rewrite (set_validator _ _ ((raised min now <$> l1) ++ v :: l2)) by (by rewrite hook_validators).
      rewrite replace_one; [|by rewrite fmap_app, raised_operators, <- fmap_app|apply raised_operator].
      by rewrite fmap_app, <- app_assoc.
    - intros [= <-]. split; [|done]. assert (raised min now v = v) as Ev by (unfold raised; by rewrite Er).
      rewrite Hw, fmap_app, <- app_assoc. cbn [fmap list_fmap app]. by rewrite Ev. }
  assert (l1 ++ v :: l2 = (l1 ++ [v]) ++ l2) as Ha by (by rewrite <- app_assoc). rewrite Ha in Hnd |- *.
  split.
  - intros u w' E. mnext E as x w1 E1. destruct x. destruct (Hstep w1 E1) as [Hw1 Ht1].
    by apply (proj1 (IH (l1 ++ [v]) w1 Hnd Hw1 Ht1) u).
  - intros [Hv Hl2]%Forall_cons. assert (∃ w1, raise_commission min v w = Ret tt w1) as [w1 E1].
    { rewrite raise_commission_eq. destruct (sv_Rate v <? min); [|by eexists].
      destruct (ValAddressFromBech32 _); [by eexists|done]. }
    destruct (Hstep w1 E1) as [Hw1 Ht1]. destruct (proj2 (IH (l1 ++ [v]) w1 Hnd Hw1 Ht1) Hl2) as (u & w' & E).
    exists u, w'. by rewrite (bind_ret _ _ _ _ _ E1).
Qed.

(** The upgrade raises the commission of every validator below the minimum to it, the maximum commission where it has to, and changes no other validator; it completes when the operators are valid addresses. *)
Theorem raise_commissions_spec min w vs :
  GetAllValidators w = Ok vs → NoDup (sv_Operator <$> vs) →
  (∀ u w', raise_commissions min w = Ret u w' →
    GetAllValidators w' = Ok (raised min (BlockTime w) <$> vs) ∧
    Forall (λ v, min ≤ sv_Rate v) (raised min (BlockTime w) <$> vs)) ∧
  (Forall (λ v, is_ok (ValAddressFromBech32 (sv_Operator v)) = true) vs → returns (raise_commissions min) w).
Proof.
  intros Hw Hnd. destruct (raise_loop min (BlockTime w) [] vs w Hnd Hw eq_refl) as [Hr Hc].
  assert (raise_commissions min w = for_each vs (raise_commission min) w) as E
    by (unfold raise_commissions, gets, of_res, mbind, M_bind; by rewrite Hw).
  unfold returns. rewrite E. split; [|done]. intros u w' Hrun. destruct (Hr u w' Hrun) as [Hw' _]. split; [done|].
  apply Forall_fmap, Forall_true. intros v. unfold raised. cbn. destruct (Z.ltb_spec (sv_Rate v) min); cbn; lia.
Qed.
End Commissions.

(** ** The community pool *)

Definition dec_one : Z := 10 ^ 18.
Definition dec_max : Z := 2 ^ 315.

(** What is documented of [sdk.DecCoins] for valid arguments, which are sorted, without
    repetitions and positive. *)
Class DecCoinsLaws `{Sdk} `{DecCoinsApi} := {
  dec_new_coins c : 0 ≤ Amount c → ValidateDenom (Denom c) = true →
    ∃ b, NewCoins [c] = Some b ∧ coins_ok b ∧ ∀ d, amount_of d b = amount_of d [c];
  dec_from_coins cs : coins_ok cs →
    ∃ b, NewDecCoinsFromCoins cs = Some b ∧ coins_ok b ∧ ∀ d, amount_of d b = amount_of d cs * dec_one;
  new_dec_coins d x : 0 ≤ x → ValidateDenom d = true →
    ∃ b, NewDecCoins d x = Some b ∧ coins_ok b ∧ ∀ d', amount_of d' b = amount_of d' [mkCoin d x];
  dec_add a b : coins_ok a → coins_ok b → (∀ d, amount_of d a + amount_of d b < dec_max) →
    ∃ c, DecCoins_Add a b = Some c ∧ coins_ok c ∧ ∀ d, amount_of d c = amount_of d a + amount_of d b;
  dec_safe_sub a b : coins_ok a → coins_ok b → (∀ d, amount_of d b ≤ amount_of d a) →
    ∃ c, DecCoins_SafeSub a b = Some (c, false) ∧ coins_ok c ∧
      ∀ d, amount_of d c = amount_of d a - amount_of d b;
  dec_safe_sub_negative a b d : coins_ok a → coins_ok b → amount_of d a < amount_of d b →
    ∃ c, DecCoins_SafeSub a b = Some (c, true);
  dec_sub a b : coins_ok a → coins_ok b → (∀ d, amount_of d b ≤ amount_of d a) →
    ∃ c, DecCoins_Sub a b = Some c ∧ coins_ok c ∧ ∀ d, amount_of d c = amount_of d a - amount_of d b;
  dec_sub_negative a b d : coins_ok a → coins_ok b → amount_of d a < amount_of d b → DecCoins_Sub a b = None;
  dec_amount_of cs d :
    coins_ok cs → ValidateDenom d = true → DecCoins_AmountOf cs d = Some (amount_of d cs);
  dec_is_zero a : coins_ok a → DecCoins_IsZero a = bool_decide (a = []);
}.

Section CommunityPool.
Context {W : Type} `{Bank W} `{BankBalances W} `{MintParams W} `{DistrAdmin W} `{DecCoinsLaws}.

Definition rewards (w : W) (d : string) : Z := sumZ (amount_of d) (OutstandingRewards w).
Definition distr_balance (w : W) (d : string) : Z := GetBalance w (GetModuleAddress DistributionModule) d.

(** The state of x/distribution before the upgrade: valid coins, amounts far from the
    bound of a decimal. *)
Record distr_ok (w : W) (g : string) (pool : list Coin) : Prop := {
  dk_mint : MintDenom w = Ok g;
  dk_denom : ValidateDenom g = true;
  dk_pool : FeePool_Get w = Ok pool;
  dk_pool_ok : coins_ok pool;
  dk_rewards_ok : Forall coins_ok (OutstandingRewards w);
  dk_all_ok : coins_ok (GetAllBalances w (GetModuleAddress DistributionModule));
  dk_all d : amount_of d (GetAllBalances w (GetModuleAddress DistributionModule)) = distr_balance w d;
  dk_balance d : 0 ≤ distr_balance w d;
  dk_bound d : distr_balance w d * dec_one < dec_max;
  dk_bounds d : amount_of d pool + rewards w d < dec_max }.

Lemma dec_ret {A} (r : option A) a (w : W) : r = Some a → dec r w = Ret a w.
Proof. by intros ->. Qed.

(** Either all amounts of [b] are in [a], or one is not. *)
Lemma amounts_le_dec a b :
  coins_ok a → coins_ok b →
  (∀ d, amount_of d b ≤ amount_of d a) ∨ (∃ d, amount_of d a < amount_of d b).
Proof.
  intros Ha Hb. destruct (decide (Forall (λ c, amount_of (Denom c) b ≤ amount_of (Denom c) a) b)) as [Hf|Hf].
  - left. intros d. destruct (decide (0 < amount_of d b)) as [Hp|Hp].
    + destruct (amount_of_pos d b Hb Hp) as [x Hx]. rewrite Forall_forall in Hf. by apply (Hf _ Hx).
    + pose proof (amount_of_nonneg d a Ha). lia.
  - right. apply not_Forall_Exists in Hf; [|apply _]. apply Exists_exists in Hf as (c & _ & Hc).
    exists (Denom c). cbn in Hc. lia.
Qed.

Lemma sumZ_rewards_nonneg d (l : list (list Coin)) : Forall coins_ok l → 0 ≤ sumZ (amount_of d) l.
Proof. intros Hl. apply sumZ_nonneg. eapply Forall_impl; [exact Hl|]. intros cs Hcs. by apply amount_of_nonneg. Qed.

Lemma without_denom_loop g (l acc : list Coin) (w : W) :
  coins_ok acc → Forall (λ c, 0 < Amount c ∧ ValidateDenom (Denom c) = true) l →
  (∀ d, amount_of d acc + amount_of d l < dec_max) →
  ∃ r, for_acc l acc (λ c acc', if decide (Denom c ≠ g)
         then acc'' ← dec (DecCoins_Add acc' [c]); mret (acc'', false) else mret (acc', false)) w = Ret r w ∧
    coins_ok r ∧ ∀ d, amount_of d r = amount_of d acc + if decide (d = g) then 0 else amount_of d l.
Proof.
  intros Hacc Hl. revert acc Hacc. induction Hl as [|c l [Hc Hv] Hl IH]; intros acc Hacc Hb; cbn [for_acc].
  { exists acc. split_and!; [done|done|]. intros d. case_decide; unfold amount_of; cbn; lia. }
  assert (0 ≤ amount_of (Denom c) l ∧ ∀ d, 0 ≤ amount_of d l) as [_ Hn].
  { split; intros; apply sumZ_nonneg; (eapply Forall_impl; [exact Hl|]); intros c' [? _]; case_decide; lia. }
  case_decide as E.
  - destruct (dec_add acc [c]) as (r & Er & Hr & Ha); [done|by apply coins_ok_one| |].
    { intros d. specialize (Hb d). rewrite amount_of_cons in Hb. specialize (Hn d).
      rewrite amount_of_singleton. lia. }
    rewrite (bind_ret _ _ w (r, false) w) by (by rewrite (bind_ret _ _ _ _ _ (dec_ret _ _ w Er))). cbv beta iota.
    destruct (IH r Hr) as (r' & E' & Hr' & Ha'); [intros d; rewrite Ha, amount_of_singleton; specialize (Hb d); rewrite amount_of_cons in Hb; lia|].
    exists r'. split_and!; [done|done|]. intros d. rewrite Ha', Ha, amount_of_singleton, amount_of_cons.
    repeat case_decide; try lia. congruence.
  - rewrite (bind_ret _ _ w (acc, false) w) by done. cbv beta iota.
    destruct (IH acc Hacc) as (r' & E' & Hr' & Ha'); [intros d; specialize (Hb d); rewrite amount_of_cons in Hb; case_decide; lia|].
    exists r'. split_and!; [done|done|]. intros d. rewrite Ha', amount_of_cons. repeat case_decide; try lia. congruence.
Qed.

Lemma sumZ_cons {A} (f : A → Z) x l : sumZ f (x :: l) = f x + sumZ f l.
Proof. done. Qed.

Lemma sum_rewards_loop (l : list (list Coin)) acc (w : W) :
  coins_ok acc → Forall coins_ok l → (∀ d, amount_of d acc + sumZ (amount_of d) l < dec_max) →
  ∃ r, for_acc l acc (λ r acc', acc'' ← dec (DecCoins_Add acc' r); mret (acc'', false)) w = Ret r w ∧
    coins_ok r ∧ ∀ d, amount_of d r = amount_of d acc + sumZ (amount_of d) l.
Proof.
  intros Hacc Hl. revert acc Hacc. induction Hl as [|c l Hc Hl IH]; intros acc Hacc Hb; cbn [for_acc].
  { exists acc. split_and!; [done|done|]. intros d. cbn. lia. }
  destruct (dec_add acc c) as (r & Er & Hr & Ha); [done|done| |].
  { intros d. specialize (Hb d). rewrite sumZ_cons in Hb. pose proof (sumZ_rewards_nonneg d l Hl). lia. }
  rewrite (bind_ret _ _ w (r, false) w) by (by rewrite (bind_ret _ _ _ _ _ (dec_ret _ _ w Er))). cbv beta iota.
  destruct (IH r Hr) as (r' & E' & Hr' & Ha'); [intros d; rewrite Ha; specialize (Hb d); rewrite sumZ_cons in Hb; lia|].
  exists r'. split_and!; [done|done|]. intros d. rewrite Ha', Ha, sumZ_cons. lia.
Qed.

Definition balanced (w : W) (pool : list Coin) (d : string) : Prop :=
  distr_balance w d * dec_one = amount_of d pool + rewards w d.

Ltac dstep E := rewrite (bind_ret _ _ _ _ _ (dec_ret _ _ _ E)).

Section Fix.
Context (w : W) (g : string) (pool : list Coin) (Hok : distr_ok w g pool).

(** [x] of the token [g] and nothing else *)
Definition only (x : Z) (cs : list Coin) : Prop := ∀ d, amount_of d cs = if decide (d = g) then x else 0.

Lemma only_one x cs : (∀ d, amount_of d cs = amount_of d [mkCoin g x]) → only x cs.
Proof. intros E d. rewrite E, amount_of_singleton. cbn. repeat case_decide; subst; done. Qed.

Lemma rewards_nonneg d : 0 ≤ rewards w d.
Proof. by apply sumZ_rewards_nonneg, (dk_rewards_ok _ _ _ Hok). Qed.

Lemma fix_reads :
  ∃ noGrav sumRewards bal uRewards,
    coins_ok noGrav ∧ coins_ok sumRewards ∧ coins_ok bal ∧ coins_ok uRewards ∧
    (∀ d, amount_of d noGrav = if decide (d = g) then 0 else amount_of d pool) ∧
    (∀ d, amount_of d sumRewards = rewards w d) ∧
    only (distr_balance w g * dec_one) bal ∧ only (rewards w g) uRewards ∧
    fixDistributionPoolBalance w = find_discrepancy g pool noGrav sumRewards bal uRewards w.
Proof.
  destruct Hok as [Hmint Hden Hpool Hpok Hrok Hallok Hall Hbal Hbd Hbds].
  destruct (dec_new_coins (mkCoin g (distr_balance w g)) (Hbal g) Hden) as (b0 & E0 & Hb0 & A0).
  destruct (without_denom_loop g pool [] w) as (noGrav & E1 & Hn & A1); [apply coins_ok_nil|apply Hpok| |].
  { intros d. specialize (Hbds d). pose proof (rewards_nonneg d). change (amount_of d []) with 0. lia. }
  destruct (sum_rewards_loop (OutstandingRewards w) [] w) as (sumR & E2 & Hs & A2); [apply coins_ok_nil|done| |].
  { intros d. specialize (Hbds d). pose proof (amount_of_nonneg d pool Hpok). unfold rewards in Hbds.
    change (amount_of d []) with 0. lia. }
  pose proof (dec_amount_of sumR g Hs Hden) as E3. rewrite A2 in E3.
  destruct (new_dec_coins g (rewards w g) (rewards_nonneg g) Hden) as (uR & E4 & Hu & A4%only_one).
  destruct (dec_from_coins b0 Hb0) as (bd & E5 & Hbdk & A5). apply only_one in A0.
  exists noGrav, sumR, bd, uR. split_and!; try done.
  { intros d. rewrite A5, A0. by case_decide. }
  unfold fixDistributionPoolBalance.
  rewrite (bind_ret _ _ w (Ok g) w) by (unfold gets; by rewrite Hmint).
  rewrite (bind_ret _ _ w g w), (bind_ret _ _ w (distr_balance w g) w) by done. dstep E0.
  rewrite (bind_ret _ _ w (Ok pool) w) by (unfold gets; by rewrite Hpool).
  rewrite (bind_ret _ _ w pool w), (bind_ret _ _ w noGrav w) by done.
  rewrite (bind_ret _ _ w sumR w)
    by (unfold sum_rewards; by rewrite (bind_ret _ _ w (OutstandingRewards w) w)).
  dstep E3. dstep E4. dstep E5. done.
Qed.

(** Subtracting some of the token from it *)
Lemma sub_only x y a b :
  coins_ok a → coins_ok b → only x a → only y b →
  (x < y ∧ ∃ c, DecCoins_SafeSub a b = Some (c, true)) ∨
  (y ≤ x ∧ ∃ c, DecCoins_SafeSub a b = Some (c, false) ∧ coins_ok c ∧ only (x - y) c).
Proof.
  intros Ha Hb Ea Eb. destruct (decide (x < y)) as [Hlt|Hge]; [left|right].
  - split; [done|]. apply (dec_safe_sub_negative a b g Ha Hb). by rewrite Ea, Eb, !decide_True.
  - split; [lia|]. destruct (dec_safe_sub a b Ha Hb) as (c & E & Hc & Ac).
    { intros d. rewrite Ea, Eb. case_decide; lia. }
    exists c. split_and!; [done|done|]. intros d. rewrite Ac, Ea, Eb. case_decide; lia.
Qed.

(** Up to the check of the discrepancy. *)
Lemma discrepancy_found :
  (distr_balance w g * dec_one < amount_of g pool + rewards w g ∧
     fixDistributionPoolBalance w = Fail ErrInvalidCoins w) ∨
  (amount_of g pool + rewards w g ≤ distr_balance w g * dec_one ∧
   ∃ noGrav sumRewards less disc,
     coins_ok noGrav ∧ coins_ok sumRewards ∧ coins_ok less ∧ coins_ok disc ∧
     (∀ d, amount_of d noGrav = if decide (d = g) then 0 else amount_of d pool) ∧
     (∀ d, amount_of d sumRewards = rewards w d) ∧
     only (distr_balance w g * dec_one - rewards w g) less ∧
     only (distr_balance w g * dec_one - rewards w g - amount_of g pool) disc ∧
     fixDistributionPoolBalance w = settle_discrepancy g pool noGrav sumRewards less disc w).
Proof.
  destruct fix_reads as (noGrav & sumR & bal & uR & Hn & Hs & Hb & Hu & An & As & Ab & Au & ->).
  pose proof (dk_pool_ok _ _ _ Hok) as Hpok. pose proof (dk_denom _ _ _ Hok) as Hden.
  pose proof (amount_of_nonneg g pool Hpok) as Hp0. unfold find_discrepancy.
  destruct (sub_only _ _ bal uR Hb Hu Ab Au) as [(Hlt & c & E6)|(Hge & less & E6 & Hl & Al)].
  { left. split; [lia|]. by dstep E6. }
  pose proof (dec_amount_of pool g Hpok Hden) as E7.
  destruct (new_dec_coins g (amount_of g pool) Hp0 Hden) as (pu & E8 & Hpu & A8%only_one).
  dstep E6. rewrite (bind_ret _ _ w tt w) by done. dstep E7. dstep E8.
  destruct (sub_only _ _ less pu Hl Hpu Al A8) as [(Hlt & c & E9)|(Hge2 & disc & E9 & Hd & Ad)].
  { left. split; [lia|]. by dstep E9. }
  right. split; [lia|]. exists noGrav, sumR, less, disc. dstep E9. rewrite (bind_ret _ _ w tt w) by done.
  by split_and!.
Qed.

Lemma sub_or_panic a b :
  coins_ok a → coins_ok b →
  ((∃ d, amount_of d a < amount_of d b) ∧ DecCoins_Sub a b = None) ∨
  ((∀ d, amount_of d b ≤ amount_of d a) ∧
   ∃ c, DecCoins_Sub a b = Some c ∧ coins_ok c ∧ ∀ d, amount_of d c = amount_of d a - amount_of d b).
Proof.
  intros Ha Hb. destruct (amounts_le_dec a b Ha Hb) as [Hle|[d Hlt]].
  - right. split; [done|]. by apply dec_sub.
  - left. split; [by exists d|]. by apply (dec_sub_negative a b d).
Qed.

(** The new pool is written, and the invariants of the module are checked. *)
Definition pool_set (pool' : list Coin) : outcome W unit :=
  match FeePool_Set pool' w with
  | (Some e, w') => Fail e w'
  | (None, w') => if DistrInvariants w' then Fail ErrInvalidCoins w' else Ret tt w'
  end.

Section Settle.
Context (noGrav sumRewards less disc : list Coin).
Context (Hn : coins_ok noGrav) (Hs : coins_ok sumRewards) (Hl : coins_ok less) (Hd : coins_ok disc).
Context (An : ∀ d, amount_of d noGrav = if decide (d = g) then 0 else amount_of d pool)
  (As : ∀ d, amount_of d sumRewards = rewards w d)
  (Al : only (distr_balance w g * dec_one - rewards w g) less)
  (Ad : only (distr_balance w g * dec_one - rewards w g - amount_of g pool) disc)
  (Hge : amount_of g pool + rewards w g ≤ distr_balance w g * dec_one).

(** The comparison with the discrepancy of all tokens *)
Lemma settle_compares :
  ((∃ d, d ≠ g ∧ ¬ balanced w pool d) ∧
     ∃ msg, settle_discrepancy g pool noGrav sumRewards less disc w = Panic msg) ∨
  ((∀ d, d ≠ g → balanced w pool d) ∧
   settle_discrepancy g pool noGrav sumRewards less disc w =
     if DecCoins_IsZero disc then Ret tt w else
     match DecCoins_Add noGrav less with Some fixedPool => pool_set fixedPool | None => Panic "DecCoins" end).
Proof.
  destruct (dec_from_coins _ (dk_all_ok _ _ _ Hok)) as (bals & E1 & Hb & A1).
  assert (∀ d, amount_of d bals = distr_balance w d * dec_one) as Ab
    by (intros d; by rewrite A1, (dk_all _ _ _ Hok)).
  pose proof (dk_pool_ok _ _ _ Hok) as Hp. unfold settle_discrepancy, balanced.
  rewrite (bind_ret _ _ w (GetAllBalances w (GetModuleAddress DistributionModule)) w) by done. dstep E1.
  destruct (sub_or_panic bals sumRewards Hb Hs) as [[[d Hlt] E2]|(_ & lr & E2 & Hlr & A2)].
  { left. split; [|rewrite E2; by eexists]. exists d. rewrite Ab, As in Hlt.
    pose proof (amount_of_nonneg d pool Hp). split; [|lia]. intros ->. lia. }
  dstep E2. destruct (sub_or_panic lr pool Hlr Hp) as [[[d Hlt] E3]|(Hle & ex & E3 & Hex & A3)].
  { left. split; [|rewrite E3; by eexists]. exists d. rewrite A2, Ab, As in Hlt. split; [|lia]. intros ->. lia. }
  assert (∀ d, amount_of d ex = distr_balance w d * dec_one - rewards w d - amount_of d pool) as Ax
    by (intros d; by rewrite A3, A2, Ab, As).
  dstep E3. destruct (sub_or_panic disc ex Hd Hex) as [[[d Hlt] E4]|(Hle2 & un & E4 & Hun & A4)].
  { left. split; [|rewrite E4; by eexists]. exists d. rewrite Ad, Ax in Hlt. case_decide; [subst; lia|].
    pose proof (amount_of_nonneg d ex Hex). rewrite Ax in *. split; [done|lia]. }
  right. assert (∀ d, d ≠ g → balanced w pool d) as Hbal.
  { intros d Hne. specialize (Hle2 d). pose proof (amount_of_nonneg d ex Hex) as H0'.
    rewrite Ad, Ax, decide_False in Hle2 by done. rewrite Ax in H0'. unfold balanced. lia. }
  split; [exact Hbal|]. dstep E4. dstep (dec_amount_of un g Hun (dk_denom _ _ _ Hok)).
  rewrite A4, Ad, Ax, decide_True by done. rewrite Z.sub_diag. rewrite (bind_ret _ _ w tt w) by done.
  assert (disc = ex) as <-.
  { apply coins_ext; [done|done|]. intros d. rewrite Ad, Ax. case_decide as E; [by subst|].
    specialize (Hbal d E). unfold balanced in Hbal. lia. }
  rewrite andb_diag. destruct (DecCoins_IsZero disc); [done|].
  unfold pool_set. destruct (DecCoins_Add noGrav less) as [fp|]; [|done]. rewrite (bind_ret _ _ w fp w) by done.
  unfold mbind, M_bind, gets. destruct (FeePool_Set fp w) as [[e|] w']; [done|]. by destruct (DistrInvariants w').
Qed.
End Settle.
End Fix.

(** The Mercury upgrade corrects the community pool of x/distribution.  It refuses when the module holds less of the native token than it owes, and panics when the books of another token do not agree with what the module holds.  Otherwise it does nothing when there is nothing to correct, and else it writes a pool with which, for every token, the pool and the outstanding rewards are exactly what the module holds, and checks the invariants of the module. *)
Theorem fixDistributionPoolBalance_spec w g pool :
  distr_ok w g pool →
  (distr_balance w g * dec_one < amount_of g pool + rewards w g →
    fixDistributionPoolBalance w = Fail ErrInvalidCoins w) ∧
  (amount_of g pool + rewards w g ≤ distr_balance w g * dec_one → (∃ d, d ≠ g ∧ ¬ balanced w pool d) →
    ∃ msg, fixDistributionPoolBalance w = Panic msg) ∧
  ((∀ d, balanced w pool d) → fixDistributionPoolBalance w = Ret tt w) ∧
  ((∀ d, d ≠ g → balanced w pool d) → amount_of g pool + rewards w g < distr_balance w g * dec_one →
    ∃ pool', coins_ok pool' ∧ (∀ d, balanced w pool' d) ∧ fixDistributionPoolBalance w = pool_set w pool').
Proof.
  intros Hok. destruct (discrepancy_found w g pool Hok)
    as [[Hlt E]|(Hge & noGrav & sumR & less & disc & Hn & Hs & Hl & Hd & An & As & Al & Ad & E)].
  { rewrite E. unfold balanced. split_and!; try done; try lia. intros Hb. specialize (Hb g). lia. }
  rewrite E. destruct (settle_compares w g pool Hok noGrav sumR less disc Hs Hd As Ad Hge)
    as [[(d & Hne & Hnb) Hp]|[Hb Es]].
  { split_and!; [lia|done|intros Hb; by destruct (Hnb (Hb d))|intros Hb; by destruct (Hnb (Hb d Hne))]. }
  rewrite Es, (dec_is_zero disc Hd). split_and!; [lia|intros _ (d & Hne & []); by apply Hb| |].
  - intros Hall. rewrite bool_decide_true; [done|]. apply coins_ext; [done|apply coins_ok_nil|]. intros d.
    rewrite Ad. specialize (Hall g). unfold balanced in Hall. change (amount_of d []) with 0. case_decide; lia.
  - intros _ Hlt. rewrite bool_decide_false.
    2: { intros ->. specialize (Ad g). rewrite decide_True in Ad by done. change (amount_of g []) with 0 in Ad. lia. }
    assert (∀ d, amount_of d noGrav + amount_of d less = distr_balance w d * dec_one - rewards w d) as Hsum.
    { intros d. rewrite An, Al. case_decide as Ed; [by subst|]. specialize (Hb d Ed). unfold balanced in Hb. lia. }
    destruct (dec_add noGrav less Hn Hl) as (p' & Ep & Hp' & Ap).
    { intros d. rewrite Hsum. pose proof (dk_bound _ _ _ Hok d). pose proof (rewards_nonneg w g pool Hok d). lia. }
    exists p'. rewrite Ep. split_and!; [done| |done]. intros d. unfold balanced. rewrite Ap, Hsum. lia.
Qed.
End CommunityPool.
