(* ===== verification/ServiceWitnesses.v ===== *)
(** * The upgrades, the bech32ibc module and the queries on a concrete chain

    The recovery upgrade: USDC carries a false mapping.  Alice's transfer waits in the pool, Bob's is in a
    batch; both were escrowed in USDC's own denom, and the module also holds coins of
    the false denom. *)

From stdpp Require Import base gmap strings sorting countable list.
From S2P Require Import AuctionWitnesses Prelude GoStd External Store Ethereum Keys OutgoingTx Valset Claims Keeper DelegateKeys Attestation OracleCorrect Migrations MigrationsCorrect MercuryCorrect Registry ValsetKeeper IbcForward LogicCall Pool Batch Params Transfers PoolCorrect BatchCorrect BatchLifecycle Escrow Coins Recovery RecoveryRefund RecoveryRemap RecoveryCorrect RecoveryResult Instances Scenario Handler Bech32Ibc Bech32IbcCorrect Queries QueriesCorrect Application.

#[local] Open Scope Z_scope.

#[export] Instance ledger_pays : GravityPays Ledger := {|
  receives a := a ≠ GetModuleAddress ModuleName;
  module_pays a cs w _ Hc Hcov := pay_succeeds (GetModuleAddress ModuleName) a cs w Hc Hcov |}.

Definition usdc : EthAddress := token_of usdcAddress.
Definition usdc_denom : string := GravityDenom usdc.
Definition evil_denom : string := "evil0xa0b86991c6218b36c1d19d4a2e9eb0ce3606eb48".

Definition usdc_tx (id : Z) (who : bytes) (amount fee : Z) : InternalOutgoingTransferTx :=
  mkInternalOutgoingTransferTx id who (eth 99) (mkInternalERC20Token amount usdc)
    (mkInternalERC20Token fee usdc).
Definition stuck1 : InternalOutgoingTransferTx := usdc_tx 1 alice 100 5.
Definition stuck2 : InternalOutgoingTransferTx := usdc_tx 2 bob 50 9.
Definition stuck_batch : InternalOutgoingTxBatch := mkInternalOutgoingTxBatch 1 2980 [stuck2] usdc 10.

Definition stuck_raw : gmap bytes bytes :=
  registered evil_denom usdc
    (list_to_map [(KeyLastTXPoolID, UInt64Bytes 2); (KeyLastOutgoingBatchID, UInt64Bytes 1)]).

Definition stuck_kv : KV :=
  mkKV stuck_raw (Some params)
    {[ tx_key stuck1 := InternalOutgoingTransferTx_ToExternal stuck1 ]}
    {[ batch_key stuck_batch := InternalOutgoingTxBatch_ToExternal stuck_batch ]}
    ∅ ∅ None None ∅ ∅ ∅ ∅ ∅ ∅.

(** The module's balances of USDC's own denom and of the false one. *)
Definition stuck (own false : Z) : State Ledger :=
  mkState stuck_kv
    (mkLedger (list_to_map [((bytes_of_string ModuleName, usdc_denom), own);
                            ((bytes_of_string ModuleName, evil_denom), false)])) 22709470 [].

Lemma usdc_in : usdc ∈ remapTokens.
Proof. by left. Qed.

Lemma usdc_ok : eth_ok usdc.
Proof. apply remapTokens_ok, usdc_in. Qed.

Lemma stuck_tx_wf id who amount fee :
  u64_ok id → VerifyAddressFormat who = Ok tt → 0 ≤ amount → 0 ≤ fee → amount + fee < 2 ^ 256 →
  wf_tx (usdc_tx id who amount fee).
Proof. intros. apply new_tx_wf; try done; [apply receiver_ok|apply usdc_ok]. Qed.

Lemma stuck1_wf : wf_tx stuck1.
Proof. by apply stuck_tx_wf. Qed.
Lemma stuck2_wf : wf_tx stuck2.
Proof. by apply stuck_tx_wf. Qed.

Lemma stuck_transfers_eq own false : transfers (stuck own false) = [stuck1; stuck2].
Proof. vm_compute. reflexivity. Qed.

Lemma stuck_ok own false : transfers_ok (stuck own false).
Proof.
  split.
  - apply map_Forall_singleton. exists stuck1. by split; [apply stuck1_wf|].
  - apply map_Forall_singleton. exists stuck_batch. split_and!; [|done..].
    split_and!; [done|apply usdc_ok|]. repeat constructor; apply stuck2_wf.
  - rewrite stuck_transfers_eq. apply (bool_decide_unpack _). by vm_compute.
  - exists 2. rewrite stuck_transfers_eq. split_and!; [by vm_compute|done|by repeat constructor].
  - exists 1. split_and!; [by vm_compute|done|]. apply map_Forall_singleton. done.
Qed.

Lemma stuck_params own false : has_params (stuck own false).
Proof. exists params. split; [done|apply params_valid]. Qed.

Definition stuck_base : gmap bytes bytes :=
  list_to_map [(KeyLastTXPoolID, UInt64Bytes 2); (KeyLastOutgoingBatchID, UInt64Bytes 1)].

Lemma stuck_base_unmapped a : stuck_base !! GetERC20ToDenomKey a = None.
Proof. unfold GetERC20ToDenomKey. by_prefix. Qed.

Lemma stuck_registry : reg_but remapTokens stuck_raw.
Proof.
  change stuck_raw with (registered evil_denom usdc stuck_base).
  assert (∀ d, stuck_base !! GetDenomToERC20Key d = None) as Hd.
  { intros d. unfold GetDenomToERC20Key. by_prefix. }
  pose proof stuck_base_unmapped as Ha.
  assert (∀ a, stuck_base !! GetRemappedERC20Key a = None) as Hr.
  { intros a. unfold GetRemappedERC20Key. by_prefix. }
  split.
  - intros d b. rewrite lookup_registered_denom, Hd. case_decide as E; [|done]. subst d.
    intros [= <-]. exists usdc. split_and!; [apply usdc_ok|done| |].
    + by rewrite lookup_registered_erc20, decide_True.
    + intros Hn. destruct (Hn usdc_in).
  - intros a b. rewrite lookup_registered_erc20, Ha. case_decide as E; [|done]. subst a.
    intros [= <-]. split; [apply usdc_ok|]. exists evil_denom.
    by rewrite lookup_registered_denom, decide_True.
  - intros a. rewrite lookup_registered_remapped, Hr. by intros [].
  - intros k v Hk. assert (map_Forall (λ k _, bytes_ok k) (registered evil_denom usdc stuck_base)) as Hm.
    { apply map_Forall_to_list. unfold bytes_ok, byte_ok. decided. }
    specialize (Hm _ _ Hk). cbn in Hm. by apply Forall_app in Hm as [_ ?].
Qed.

(** A statement about each of the four tokens that evaluation decides. *)
Ltac by_computation :=
  lazymatch goal with
  | |- (_ ≤ _)%Z => apply Z.leb_le; vm_compute; reflexivity
  | |- (_ < _)%Z => apply Z.ltb_lt; vm_compute; reflexivity
  | |- _ = _ => vm_compute; reflexivity
  | |- _ => decided
  end.

Ltac each_token H :=
  repeat (apply elem_of_cons in H as [->|H]; [by_computation|]);
  destruct (not_elem_of_nil _ H).

Lemma stuck_recoverable own false : recoverable remapTokens (stuck own false).
Proof.
  split; [apply stuck_ok|apply stuck_params|apply stuck_registry|]. intros c Hc. split.
  - by apply remapTokens_ok.
  - each_token Hc.
  - done.
  - each_token Hc.
  - each_token Hc.
Qed.

Lemma stuck_false own false c d :
  c ∈ remapTokens → false_denom (stuck own false) c d → c = usdc ∧ d = evil_denom.
Proof.
  intros Hc. unfold false_denom. cbn [stuck st_kv stuck_kv kv_raw].
  change stuck_raw with (registered evil_denom usdc stuck_base). rewrite lookup_registered_erc20.
  case_decide as E; [|by rewrite stuck_base_unmapped].
  intros [= Ed]. split; [done|]. by apply bytes_of_string_inj.
Qed.

Lemma stuck_apart own false : apart remapTokens (stuck own false).
Proof. intros c c' d Hc Hc' [_ ->]%stuck_false; [|done]. each_token Hc'. Qed.

(** Alice's and Bob's transfers are covered in USDC's own denom; 7 coins of the false
    denom are swept. *)
Definition covered_chain : State Ledger := stuck 164 7.

Lemma covered_payable c :
  c ∈ remapTokens → payable_token c covered_chain ∧ ValidateStrictDenom (Gravity2Denom c) = Ok tt.
Proof.
  intros Hc. split; [|each_token Hc]. split.
  - each_token Hc.
  - intros t [_ Ht]%list_elem_of_filter. unfold covered_chain in Ht. rewrite stuck_transfers_eq in Ht.
    cbn [receives ledger_pays].
    repeat (apply elem_of_cons in Ht as [->|Ht]; [decided|]);
      destruct (not_elem_of_nil _ Ht).
  - intros d Hf. destruct (stuck_false 164 7 c d Hc Hf) as [-> ->]. split; [decided|by vm_compute].
  - done.
  - constructor.
Qed.

Lemma recovery_remaps_witness :
  ∃ s', migrateRemappedERC20s covered_chain = Ret tt s' ∧ reg_ok (raw s') ∧ transfers s' = [] ∧
    GetBalance (st_world s') alice usdc_denom = 105 ∧ GetBalance (st_world s') bob usdc_denom = 59 ∧
    GetBalance (st_world s') module_address evil_denom = 0.
Proof.
  destruct (recovery_remaps covered_chain) as (s' & E & Hok & Hreg & Ht & Hc & _).
  - apply stuck_recoverable.
  - apply stuck_apart.
  - apply covered_payable.
  - decided.
  - exists s'. split_and!; [done..| | | |].
    + apply Permutation_nil_r. rewrite Ht. unfold covered_chain. rewrite stuck_transfers_eq.
      vm_compute. reflexivity.
    + destruct (Hc usdc usdc_in) as (_ & _ & Hb & _). unfold usdc_denom. rewrite Hb by decided.
      vm_compute. reflexivity.
    + destruct (Hc usdc usdc_in) as (_ & _ & Hb & _). unfold usdc_denom. rewrite Hb by decided.
      vm_compute. reflexivity.
    + destruct (Hc usdc usdc_in) as (_ & _ & _ & Hf). apply Hf. vm_compute. reflexivity.
Defined.

(** The transfers were sent while the false mapping stood and were paid in its denom:
    the module has none of USDC's own denom, and the upgrade panics. *)
Lemma recovery_needs_escrow_witness : ∃ msg, migrateRemappedERC20s (stuck 0 164) = Panic msg.
Proof.
  apply (recovery_needs_escrow (stuck 0 164) usdc).
  - apply stuck_recoverable.
  - intros c Hc. each_token Hc.
  - rewrite stuck_transfers_eq. repeat constructor; decided.
  - apply usdc_in.
  - by_computation.
Defined.

(** ** Orphaned confirmations

    Alice confirmed the batch that is stored, Bob one that is gone. *)

Definition batch_confirm (nonce : Z) (who : bytes) : MsgConfirmBatch :=
  mkMsgConfirmBatch nonce (Hex (GetAddress usdc)) (Hex (addr 80)) (AccAddressString who) "".
Definition confirm_key (nonce : Z) (who : bytes) : bytes :=
  GetBatchConfirmNonceContractPrefix usdc nonce ++ who.

Definition confirmations : gmap bytes MsgConfirmBatch :=
  list_to_map [(confirm_key 1 alice, batch_confirm 1 alice); (confirm_key 9 bob, batch_confirm 9 bob)].
Definition with_orphans : State Ledger := upd_kv (upd_batchConfirms (λ _, confirmations)) (stuck 164 7).

Lemma confirmations_ok : batch_confirms_ok confirmations.
Proof.
  assert (∀ n who, u64_ok n → VerifyAddressFormat who = Ok tt → bytes_ok (confirm_key n who) →
    ∃ c a, NewEthAddress (Hex (GetAddress usdc)) = Ok c ∧
      AccAddressFromBech32 (AccAddressString who) = Ok a ∧
      confirm_key n who = GetBatchConfirmNonceContractPrefix c n ++ a) as Hk.
  { intros n who Hn Hw Hb. exists usdc, who. split; [vm_compute; reflexivity|].
    split; [by apply acc_bech32_roundtrip|done]. }
  apply map_Forall_insert_2; [|apply map_Forall_insert_2; [|apply map_Forall_empty]].
  - split; [unfold bytes_ok, byte_ok; decided|]. split; [unfold u64_ok; decided|].
    apply Hk; [unfold u64_ok; decided|vm_compute; reflexivity|unfold bytes_ok, byte_ok; decided].
  - split; [unfold bytes_ok, byte_ok; decided|]. split; [unfold u64_ok; decided|].
    apply Hk; [unfold u64_ok; decided|vm_compute; reflexivity|unfold bytes_ok, byte_ok; decided].
Qed.

Lemma cleanupOrphanedBatchConfirms_spec_witness :
  ∃ s', cleanupOrphanedBatchConfirms with_orphans = Ret tt s' ∧
    (map_to_list (kv_batchConfirms (st_kv s'))).*1 = [confirm_key 1 alice].
Proof.
  eexists. split.
  - apply (cleanupOrphanedBatchConfirms_spec with_orphans); [|exact confirmations_ok].
    destruct (stuck_ok 164 7) as [H1 H2 H3 H4 H5]. constructor; [exact H1|exact H2|exact H3|exact H4|exact H5].
  - decided.
Defined.

(** ** The whole upgrade

    The chain of [Scenario], with two batches in flight and one legal
    Cosmos-originated token. *)

Definition uatom : Metadata := mkMetadata "" [] "uatom" "uatom" "ATOM" "ATOM" "" "".

Definition before_upgrade : State World :=
  upd_world (set_meta (insert "uatom" uatom)) (upd_kv (upd_raw (registered "uatom" (eth 50))) s5).

Definition upgrade : K World Z := RecoveryUpgradeHandler (λ v, mret (v + 1)) (mret tt) 4.

Lemma recovery_result_witness :
  ∃ s', upgrade before_upgrade = Ret 5 s' ∧
    (∃ p, kv_params (st_kv s') = Some p ∧ p_BridgeActive p = false) ∧
    is_Some (raw s' !! GetRemappedERC20Key usdc) ∧ registry_whitelisted s'.
Proof.
  exists (run upgrade before_upgrade).
  assert (upgrade before_upgrade = Ret 5 (run upgrade before_upgrade)) as E.
  { apply run_result. evaluate. }
  destruct (recovery_result (W := World) (λ v, mret (v + 1)) (mret tt) 4 before_upgrade 5
    (run upgrade before_upgrade)) as ((p & Hp & Ha & _) & Hr & _ & _ & Hw); [by intros ?|exact E|].
  split; [exact E|]. split; [exists p; split; [exact Hp|exact Ha]|].
  split; [exact (Hr usdc usdc_in)|exact Hw].
Defined.

(** ** The bech32ibc module and the queries

    A genesis routes one prefix; governance then routes another one, and a deposit for
    it is forwarded.  An orchestrator and a sender ask the chain of [Scenario]. *)

(** Any injective encoding is a codec. *)
#[local] Instance record_countable : Countable HrpIbcRecord :=
  inj_countable' (λ r, (hr_Hrp r, hr_SourceChannel r, hr_IcsToHeightOffset r, hr_IcsToTimeOffset r))
    (λ t, mkHrpIbcRecord t.1.1.1 t.1.1.2 t.1.2 t.2) (λ r, match r with mkHrpIbcRecord _ _ _ _ => eq_refl end).

#[export] Instance record_codec : RecordCodec := {|
  Marshal r := Ok [Z.pos (encode r)];
  Unmarshal b := match b with
                 | [Z.pos p] => match decode p with Some r => Ok r | None => Er (ErrSdk "proto") end
                 | _ => Er (ErrSdk "proto")
                 end |}.

#[export] Instance record_codec_laws : RecordCodecLaws.
Proof. split. intros r b [= <-]. cbn [Unmarshal record_codec]. by rewrite decode_encode. Qed.

#[export] Instance channels : Channels unit := {|
  GetChannel _ port channel := bool_decide (port = "transfer") && bool_decide (channel = "channel-0");
  GetTransferPort _ := "transfer" |}.

Definition osmo : HrpIbcRecord := mkHrpIbcRecord "osmo" "channel-3" 0 10.
Definition gs0 : GenesisState := mkGenesisState "gravity" [osmo].
Definition imported : HState unit := run (InitGenesis gs0) (mkHState ∅ tt []).

Definition route_cosmos : Content :=
  UpdateContent (mkUpdateHrpIbcChannelProposal "" "" "cosmos" "channel-0" 100 0).
Definition routed : HState unit := run (Bech32IBCProposalHandler route_cosmos) imported.

Lemma gs0_ok : genesis_ok gs0.
Proof. split; [done|]. by repeat constructor. Qed.

Lemma routed_reachable : reachable gs0 routed.
Proof.
  apply (reach_proposal gs0 imported routed route_cosmos).
  - apply (reach_init gs0 (mkHState ∅ tt [])); [done|].
    apply (run_result (InitGenesis gs0) (mkHState ∅ tt [])). evaluate.
  - apply (run_result (Bech32IBCProposalHandler route_cosmos) imported). evaluate.
Qed.

Definition native_store : gmap bytes bytes := {[ NativeHrpKey := bytes_of_string "gravity" ]}.
Definition osmo_store : gmap bytes bytes := <[record_key "osmo" := [Z.pos (encode osmo)]]> native_store.
Definition osmo_routes : Routes := mkRoutes "gravity" {[ "osmo" := osmo ]}.

Lemma osmo_represented : represents osmo_store osmo_routes.
Proof. apply (represents_set native_store (mkRoutes "gravity" ∅) osmo); [apply represents_native|done]. Qed.

Lemma bech32ibc_refines_witness :
  Bech32IBCProposalHandler (UpdateContent (mkUpdateHrpIbcChannelProposal "" "" "gravity" "channel-0" 100 0))
    (mkHState osmo_store tt []) = Fail ErrInvalidHRP (mkHState osmo_store tt []) ∧
  QueryHrpIbcRecord (Some "osmo") (mkHState osmo_store tt []) = Ret osmo (mkHState osmo_store tt []).
Proof.
  destruct (bech32ibc_refines (mkHState osmo_store tt []) osmo_routes
    (UpdateContent (mkUpdateHrpIbcChannelProposal "" "" "gravity" "channel-0" 100 0)) osmo_represented)
    as (Hs & _ & Hq & _).
  split; [exact Hs|]. exact (Hq "osmo").
Defined.

Lemma bech32ibc_genesis_roundtrip_witness :
  ∃ gs s', ExportGenesis (mkHState osmo_store tt []) = Ret gs (mkHState osmo_store tt []) ∧
    InitGenesis gs (mkHState ∅ tt []) = Ret tt s' ∧ hs_store s' = osmo_store.
Proof.
  apply (bech32ibc_genesis_roundtrip (mkHState osmo_store tt []) osmo_routes (mkHState ∅ tt [])).
  - apply osmo_represented.
  - done.
  - intros hrp r Hr. cbn [rt_table osmo_routes] in Hr. apply lookup_singleton_Some in Hr as [_ <-]. done.
  - done.
Defined.

(** ** A deposit along the new route *)

#[local] Instance host : HrpHost World := {|
  hrp_store _ := hs_store routed;
  host_GetPort _ := "transfer";
  host_Transfer _ w := (None, w);
  host_AddToFeePool _ w := (None, w);
  host_BlockTimeNano _ := 0 |}.

Definition for_cosmos : MsgSendToCosmosClaim :=
  mkSendToCosmos 1 100 (Hex (addr 34)) 50 (Hex (addr 51)) ("cosmos1" +:+ hex_encode (addr 170)) "".

(** The deposit was observed and minted. *)
Definition minted : State World :=
  mkState (upd_raw (insert LastObservedEventNonceKey (UInt64Bytes 1)) (st_kv genesis))
    (set_balances (insert (module_address, denom) 50) world) 10 [].

Lemma deposits_follow_routes_witness :
  ∃ s', sendCoinToCosmosAccount for_cosmos (addr 170) (mkCoin denom 50) minted = Ret true s' ∧
    kv_forwards (st_kv s') =
    {[ GetPendingIbcAutoForwardKey 1 :=
         mkPendingIbcAutoForward ("cosmos1" +:+ hex_encode (addr 170)) (mkCoin denom 50) "channel-0" 1 ]}.
Proof.
  set (send := sendCoinToCosmosAccount for_cosmos (addr 170) (mkCoin denom 50)).
  assert (send minted = Ret true (run send minted)) as E by (apply run_result; evaluate).
  exists (run send minted). split; [exact E|].
  destruct (deposits_follow_routes gs0 routed for_cosmos (addr 170) (mkCoin denom 50) "cosmos" minted true
    (run send minted) gs0_ok routed_reachable) as (r & Hr & _ & _ & _ & Hf); [reflexivity|evaluate|exact E|].
  assert (QueryHrpIbcRecord (Some "cosmos") routed = Ret (mkHrpIbcRecord "cosmos" "channel-0" 100 0) routed)
    as Er by evaluate.
  rewrite Er in Hr. injection Hr as <-. exact Hf.
Defined.

(** ** Queries *)

#[local] Instance v1_codec : V1Codec := {|
  UnmarshalHeight _ := Some (mkEthHeight 0 0); UnmarshalAttestation _ := None |}.

(** The first orchestrator has confirmed the second batch and not the first one. *)
Definition half_signed : State World :=
  upd_kv (upd_batchConfirms (insert (GetBatchConfirmNonceContractPrefix token 2 ++ orchestrator 0)
    (mkMsgConfirmBatch 2 (Hex (addr 34)) (Hex (addr 80)) (AccAddressString (orchestrator 0)) (signature 0)))) s5.

Lemma confirmations_keep_transfers f (s : State World) :
  transfers_ok s → transfers_ok (upd_kv (upd_batchConfirms f) s).
Proof. intros [P1 P2 P3 P4 P5]. by constructor. Qed.

Lemma half_signed_ok : transfers_ok half_signed.
Proof. apply confirmations_keep_transfers, s5_ok. Qed.

Lemma signing_queries_complete_witness :
  Query_LastPendingBatchRequestByAddr (AccAddressString (orchestrator 0)) half_signed =
  Ret [InternalOutgoingTxBatch_ToExternal batch1] half_signed.
Proof.
  destruct (signing_queries_complete half_signed (AccAddressString (orchestrator 0)) (orchestrator 0))
    as (_ & E & _); [apply half_signed_ok|evaluate|].
  rewrite E. apply (f_equal (λ l, Ret l half_signed)). evaluate.
Defined.

Lemma pending_transfers_exact_witness :
  ∃ r, Query_GetPendingSendToEth (AccAddressString alice) s5 = Ret r s5 ∧
    ps_UnbatchedTransfers r ++ ps_TransfersInBatches r ≡ₚ InternalOutgoingTransferTx_ToExternal <$> [tx1; tx3].
Proof.
  destruct (pending_transfers_exact s5 (AccAddressString alice)) as (r & r2 & r3 & E & Hp & _); [apply s5_ok|].
  exists r. split; [exact E|]. rewrite Hp. apply fmap_Permutation.
  apply (bool_decide_unpack _). vm_compute. exact I.
Defined.

Lemma GetAttestations_spec_witness :
  Query_GetAttestations (mkQueryAttestationsRequest 0 "DESC" "" 1 0 false) v2 = Ret [att_with [0; 1]] v2.
Proof.
  rewrite (GetAttestations_spec v2 (mkQueryAttestationsRequest 0 "DESC" "" 1 0 false)).
  - apply (f_equal (λ l, Ret l v2)). evaluate.
  - done.
  - done.
  - apply (bool_decide_unpack _). vm_compute. exact I.
Defined.

(** ** Migrations

    Before the upgrade to version 7 the attestation of the first deposit is under
    another hash and has no parts. *)

Definition v6_att : Attestation :=
  mkAttestation false [ValAddressString (operator 0)] 10 (report_any 0 1) CLAIM_TYPE_UNSPECIFIED None.
Definition v6_key : bytes := GetAttestationKey 1 [1; 2; 3].
Definition v6_state : State World := with_atts {[ v6_key := v6_att ]} v1.

Lemma v6_state_atts k a : atts v6_state !! k = Some a → k = v6_key ∧ a = v6_att.
Proof.
  change (atts v6_state) with ({[ v6_key := v6_att ]} : gmap bytes Attestation).
  by intros [<- <-]%lookup_singleton_Some.
Qed.

Lemma v6_state_ok : v6_ok v6_state.
Proof.
  split.
  - apply (ok_observed _ v1_ok).
  - apply (ok_votes _ v1_ok).
  - intros k a [-> ->]%v6_state_atts. exists (report 0 1), hash1, [1; 2; 3].
    destruct (ok_atts _ v1_ok _ _ v1_atts) as (c & h & Hc & _ & Hnd & Hv & _).
    destruct (att_claim_unique _ _ _ _ _ Hc (att_claim1 [0])) as [-> ->].
    split_and!; [apply (att_claim1 [0])|decided|done|done|exact Hnd|exact Hv|done].
  - intros k1 a1 k2 a2 x [-> ->]%v6_state_atts [-> ->]%v6_state_atts. done.
  - intros k1 a1 k2 a2 [-> ->]%v6_state_atts [-> ->]%v6_state_atts. done.
Qed.

Lemma Migrate6to7_keeps_votes_witness :
  ∃ s', Migrate6to7 v6_state = Ret tt s' ∧ oracle_ok s' ∧
    map_to_list (atts s') ≡ₚ [(key1, att_with [0])].
Proof.
  destruct (Migrate6to7_keeps_votes v6_state v6_state_ok) as (Hret & Hruns & _).
  destruct Hruns as ([] & s' & E).
  - split; unfold v6_state; cbn [with_atts upd_kv upd_attestations st_kv kv_attestations];
      rewrite map_to_list_singleton; [apply NoDup_singleton|].
    by intros e e' ->%list_elem_of_singleton ->%list_elem_of_singleton.
  - exists s'. destruct (Hret tt s' E) as ((_ & Hp) & Hok & _). split_and!; [done|done|].
    rewrite Hp. unfold v6_state; cbn [with_atts upd_kv upd_attestations st_kv kv_attestations].
    rewrite map_to_list_singleton. apply (eq_ind_r (λ l, l ≡ₚ _) (reflexivity _)). evaluate.
Defined.

(** A store of version 1 with an object of most kinds; the values encode nonces. *)
#[local] Instance stored_codec : StoredCodec := {|
  decode_valset b := match b with [n] => Some (mkValset n [] 10 None "") | _ => None end;
  decode_valset_confirm b := match b with
    | [n] => Some (mkMsgValsetConfirm n (AccAddressString (orchestrator 0)) "" "") | _ => None end;
  decode_attestation b := match b with [_] => Some (att_with [0]) | _ => None end;
  decode_transfer b := match b with
    | [n] => Some (InternalOutgoingTransferTx_ToExternal (transfer n alice 100 5)) | _ => None end;
  decode_batch b := match b with [n] => Some (mkOutgoingTxBatch n 0 [] (Hex (addr 34)) 10) | _ => None end;
  decode_batch_confirm b := match b with
    | [n] => Some (mkMsgConfirmBatch n (Hex (addr 34)) "" (AccAddressString (orchestrator 0)) "") | _ => None end;
  decode_logic_call _ := None; decode_logic_confirm _ := None |}.

Definition v1_objects : list v1_entry :=
  [V1Denom "ugraviton" (eth 67); V1Erc20 (eth 67) "ugraviton"; V1EthByVal (operator 0) (eth 80);
   V1ValByEth (eth 80) (operator 0);
   V1BadValByEth "0xABABABABABABABABABABABABABABABABABABABAB" (operator 1);
   V1Batch token 200 [200]; V1BatchConfirm token 200 (orchestrator 0) [200];
   V1Transfer (mkInternalERC20Token 5 token) 3 [3]; V1Valset 7 [7]; V1ValsetConfirm 7 (orchestrator 0) [7];
   V1Attestation 1 hash1 [1]; V1LastNonce (operator 0) [9]; V1Checkpoint [255; 0] [1];
   V1Single LastObservedEventNonceKey_v1 [5]; V1Unused OracleClaimKey_v1 [1] [2]].

Lemma plain_by_computation n :
  bool_decide (Forall (λ b, 0 ≤ b < 256) (addr n) ∧ ¬ [48; 120] `prefix_of` addr n) = true → plain (eth n).
Proof.
  intros [Hb Hp]%bool_decide_eq_true. split; [|exact Hp].
  apply eth_ok_by_computation, bool_decide_eq_true. by split; [|exact Hb].
Qed.

Lemma token_plain : plain token.
Proof. apply plain_by_computation. evaluate. Qed.

Lemma v1_objects_wf : Forall v1_wf v1_objects.
Proof.
  unfold v1_objects. repeat apply Forall_cons_2; [..|apply Forall_nil_2]; cbn [v1_wf].
  - apply eth_ok_by_computation. evaluate.
  - apply plain_by_computation. evaluate.
  - split; [evaluate|]. apply eth_ok_by_computation. evaluate.
  - apply plain_by_computation. evaluate.
  - split; decided.
  - split; [apply token_plain|]. eexists. split_and!; [reflexivity|evaluate..].
  - split; [apply token_plain|]. split; [evaluate|]. eexists. split_and!; [reflexivity|evaluate..].
  - split; [apply token_plain|]. split; [decided|]. eexists. split_and!; [reflexivity|evaluate..].
  - eexists. split; [reflexivity|evaluate].
  - split; [evaluate|]. eexists. split_and!; [reflexivity|evaluate..].
  - exists (att_with [0]), (report 0 1). split_and!; evaluate.
  - evaluate.
  - done.
  - split; decided.
  - decided.
Qed.

Lemma MigrateStore_v2_spec_witness :
  MigrateStore_v2 (list_to_map (omap v1_kv v1_objects)) = Ret tt (list_to_map (omap v2_kv v1_objects)).
Proof. apply (MigrateStore_v2_spec v1_objects). split; [apply v1_objects_wf|decided|decided]. Defined.

(** Parameters in x/params. *)
#[local] Instance subspace : Subspace World := {|
  sub_string k _ := list_to_map (M := gmap string string) [("GravityID", p_GravityId params);
    ("ContractHash", p_ContractSourceHash params); ("BridgeEthereumAddress", p_BridgeEthereumAddress params)] !! k;
  sub_uint64 k _ := list_to_map (M := gmap string Z) [("BridgeChainID", p_BridgeChainId params);
    ("SignedValsetsWindow", p_SignedValsetsWindow params); ("SignedBatchesWindow", p_SignedBatchesWindow params);
    ("SignedLogicCallsWindow", p_SignedLogicCallsWindow params);
    ("TargetBatchTimeout", p_TargetBatchTimeout params); ("AverageBlockTime", p_AverageBlockTime params);
    ("AverageEthereumBlockTime", p_AverageEthereumBlockTime params);
    ("UnbondSlashingValsetsWindow", p_UnbondSlashingValsetsWindow params);
    ("MinChainFeeBasisPoints", p_MinChainFeeBasisPoints params)] !! k;
  sub_dec k _ := list_to_map (M := gmap string Z) [("SlashFractionValset", p_SlashFractionValset params);
    ("SlashFractionBatch", p_SlashFractionBatch params);
    ("SlashFractionBadEthSignature", p_SlashFractionBadEthSignature params);
    ("ChainFeeAuctionPoolFraction", default 0 (p_ChainFeeAuctionPoolFraction params))] !! k;
  sub_coin _ _ := Some (p_ValsetReward params);
  sub_bool _ _ := Some (p_BridgeActive params);
  sub_strings _ _ := Some (p_EthereumBlacklist params) |}.

Lemma Migrate5to6_spec_witness :
  p_SlashFractionLogicCall params = 1000000000000000 ∧
  ∃ s', Migrate5to6 genesis = Ret tt s' ∧
    p_SlashFractionLogicCall <$> kv_params (st_kv s') = Some 0.
Proof.
  split; [reflexivity|]. destruct (Migrate5to6_spec genesis) as [_ E].
  assert (in_subspace genesis params) as Hp by (split; try evaluate; by eexists).
  assert (Params_ValidateBasic params = Ok tt) as Hv by evaluate.
  specialize (E params Hp). rewrite Hv in E. eexists. split; [exact E|]. reflexivity.
Defined.

(** ** The application *)

(** A packed message is its number in a table. *)
#[local] Instance tx_codec : TxCodec := {|
  UnpackMsg a := match any_Value a with
    | [0] => Ok (MsgEditValidator (Some (Some 0)))
    | [1] => Ok (MsgEditValidator (Some (Some 100000000000000000)))
    | [2] => Ok (MsgExec [mkAny "" [0]])
    | _ => Er (ErrSdk "any")
    end |}.

Definition idle : AnteDecorator Z := λ next, next.
Definition idle_decorators : Decorators Z :=
  mkDecorators idle idle idle idle idle idle idle idle idle idle idle idle idle idle.
Definition exec_tx (n : Z) : Tx := mkTx [MsgExec [mkAny "" [n]]] None.

Lemma idle_passes_on : Forall passes_on (foreign idle_decorators).
Proof. repeat constructor; intros next tx sim s s' E; by exists s. Qed.

(** Lowering the commission through a MsgExec is refused, through two of them it is not. *)
Lemma AnteHandler_admits_witness :
  ChainAnteDecorators (ante_chain idle_decorators) (exec_tx 1) false 7 = Ret tt 7 ∧
  ChainAnteDecorators (ante_chain idle_decorators) (exec_tx 0) false 7 ≠ Ret tt 7 ∧
  MinCommissionDecorator (λ _ _, mret tt) (exec_tx 2) false 7 = Ret tt 7.
Proof.
  assert (NewAnteHandler idle_decorators ["gravity-bridge-3"] =
    Ok (ChainAnteDecorators (ante_chain idle_decorators))) as Hh by reflexivity.
  assert (Forall no_objection (foreign idle_decorators)) as Hn by (repeat constructor).
  split_and!.
  - destruct (AnteHandler_admits idle_decorators _ _ (exec_tx 1) false 7 Hh idle_passes_on) as (_ & Hiff & _).
    apply (Hiff Hn). split; [|right; by left]. repeat constructor. eexists. split; [reflexivity|].
    exists 100000000000000000. by split; [|vm_compute].
  - destruct (AnteHandler_admits idle_decorators _ _ (exec_tx 0) false 7 Hh idle_passes_on) as (Hadm & _).
    intros E. apply Hadm in E as [Hc _]. unfold exec_tx in Hc. cbn [tx_Msgs] in Hc.
    apply Forall_cons_1 in Hc as [Hc _]. cbn [compliant] in Hc.
    apply Forall_cons_1 in Hc as [(m & [= <-] & (r & [= <-] & Hr)) _]. by vm_compute in Hr.
  - destruct (AnteHandler_admits idle_decorators _ _ (exec_tx 2) false 7 Hh idle_passes_on) as (_ & _ & Hex).
    rewrite (Hex (mkAny "" [2]) [mkAny "" [0]]); [done|reflexivity|reflexivity].
Defined.

(** sdk.DecCoins as sorted lists *)
Definition subtract (a b : list Coin) : list Coin := foldr (λ c, add_coin (neg c)) a b.
Definition negative (cs : list Coin) : bool := existsb (λ c, Amount c <? 0) cs.

#[local] Instance dec_coins_api : DecCoinsApi := {|
  NewCoins cs := Some (foldr add_coin [] cs);
  NewDecCoinsFromCoins cs := Some ((λ c, mkCoin (Denom c) (Amount c * dec_one)) <$> cs);
  NewDecCoins d x := Some (add_coin (mkCoin d x) []);
  DecCoins_Add a b := Some (foldr add_coin a b);
  DecCoins_SafeSub a b := Some (subtract a b, negative (subtract a b));
  DecCoins_Sub a b := if negative (subtract a b) then None else Some (subtract a b);
  DecCoins_AmountOf cs d := Some (amount_of d cs);
  DecCoins_IsZero a := bool_decide (a = []) |}.

Lemma single_ok c : 0 ≤ Amount c → ValidateDenom (Denom c) = true →
  coins_ok (add_coin c []) ∧ ∀ d, amount_of d (add_coin c []) = amount_of d [c].
Proof.
  intros Hc Hd. assert (∀ d, amount_of d (add_coin c []) = amount_of d [c]) as E
    by (intros d; by rewrite amount_of_add). split; [|done].
  apply canonical_ok; [by apply add_coin_canonical; [apply canonical_nil|]|]. intros d.
  rewrite E, amount_of_singleton. case_decide; lia.
Qed.

Lemma scaled_ok cs : coins_ok cs →
  coins_ok ((λ c, mkCoin (Denom c) (Amount c * dec_one)) <$> cs) ∧
  ∀ d, amount_of d ((λ c, mkCoin (Denom c) (Amount c * dec_one)) <$> cs) = amount_of d cs * dec_one.
Proof.
  intros [Hs Hf]. split.
  - split.
    + clear Hf. induction Hs as [|c cs Hs IH Hlt]; cbn [fmap list_fmap]; constructor; [done|].
      apply Forall_fmap. eapply Forall_impl; [exact Hlt|]. done.
    + apply Forall_fmap. eapply Forall_impl; [exact Hf|]. intros c [Hc Hd]. cbn. split; [|done].
      unfold dec_one. lia.
  - intros d. clear. induction cs as [|c cs IH]; [done|]. cbn [fmap list_fmap].
    rewrite !amount_of_cons, IH. cbn. case_decide; lia.
Qed.

Lemma dec_add_all a b : canonical a → Forall (λ c, ValidateDenom (Denom c) = true) b →
  canonical (foldr add_coin a b) ∧ ∀ d, amount_of d (foldr add_coin a b) = amount_of d a + amount_of d b.
Proof.
  intros Ha. induction 1 as [|c b Hc _ [IH1 IH2]]; [split; [done|intros d; cbn [foldr]; change (amount_of d []) with 0; lia]|].
  cbn [foldr]. split; [by apply add_coin_canonical|]. intros d.
  rewrite amount_of_add, IH2, (amount_of_cons d c b), amount_of_singleton. lia.
Qed.

Lemma valid_denoms cs : coins_ok cs → Forall (λ c, ValidateDenom (Denom c) = true) cs.
Proof. intros [_ Hf]. eapply Forall_impl; [exact Hf|]. by intros c [_ ?]. Qed.

Lemma negative_false cs : negative cs = false ↔ Forall (λ c, 0 ≤ Amount c) cs.
Proof.
  unfold negative. induction cs as [|c cs IH]; cbn [existsb]; [by rewrite Forall_nil|].
  rewrite orb_false_iff, Forall_cons, IH, Z.ltb_ge. done.
Qed.

Lemma negative_amount cs d : amount_of d cs < 0 → negative cs = true.
Proof.
  intros Hd. destruct (negative cs) eqn:E; [done|]. apply negative_false in E.
  assert (0 ≤ amount_of d cs); [|lia]. apply sumZ_nonneg. eapply Forall_impl; [exact E|].
  intros c Hc. cbn in Hc |- *. case_decide; lia.
Qed.

#[local] Instance dec_coins_laws : DecCoinsLaws.
Proof.
  assert (∀ a b, coins_ok a → coins_ok b → (∀ d, amount_of d b ≤ amount_of d a) →
    coins_ok (subtract a b) ∧ (∀ d, amount_of d (subtract a b) = amount_of d a - amount_of d b) ∧
    negative (subtract a b) = false) as Hsub.
  { intros a b Ha Hb Hle. destruct (subtract_all a b (ok_canonical a Ha) (valid_denoms b Hb)) as [Hc E].
    assert (coins_ok (subtract a b)) as Hok
      by (apply canonical_ok; [done|]; intros d; unfold subtract; rewrite E; specialize (Hle d); lia).
    split_and!; [done|done|]. apply negative_false. eapply Forall_impl; [apply Hok|]. intros c [? _]. lia. }
  assert (∀ a b d, coins_ok a → coins_ok b → amount_of d a < amount_of d b → negative (subtract a b) = true) as Hneg.
  { intros a b d Ha Hb Hlt. destruct (subtract_all a b (ok_canonical a Ha) (valid_denoms b Hb)) as [_ E].
    apply (negative_amount _ d). unfold subtract. rewrite E. lia. }
  split; cbn [NewCoins NewDecCoinsFromCoins NewDecCoins DecCoins_Add DecCoins_SafeSub DecCoins_Sub
              DecCoins_AmountOf DecCoins_IsZero dec_coins_api]; try done.
  - intros c Hc Hd. eexists. split; [reflexivity|]. by apply single_ok.
  - intros cs Hcs. eexists. split; [reflexivity|]. by apply scaled_ok.
  - intros d x Hx Hd. eexists. split; [reflexivity|]. by apply (single_ok (mkCoin d x)).
  - intros a b Ha Hb _. eexists. split; [reflexivity|].
    destruct (dec_add_all a b (ok_canonical a Ha) (valid_denoms b Hb)) as [Hc E]. split; [|done].
    apply canonical_ok; [done|]. intros d. rewrite E.
    pose proof (amount_of_nonneg d a Ha). pose proof (amount_of_nonneg d b Hb). lia.
  - intros a b Ha Hb Hle. destruct (Hsub a b Ha Hb Hle) as (Hok & E & ->). by eexists.
  - intros a b d Ha Hb Hlt. rewrite (Hneg a b d Ha Hb Hlt). by eexists.
  - intros a b Ha Hb Hle. destruct (Hsub a b Ha Hb Hle) as (Hok & E & ->). by eexists.
  - intros a b d Ha Hb Hlt. by rewrite (Hneg a b d Ha Hb Hlt).
Qed.

(** The module holds nine tokens, owes two to the validators, and its pool says five. *)
Record Distr := mkDistr { ds_pool : list Coin; ds_rewards : list (list Coin); ds_balances : list Coin }.

#[local] Instance distr_bank : Bank Distr := {|
  SendCoinsFromAccountToModule _ _ _ w := (None, w); SendCoinsFromModuleToAccount _ _ _ w := (None, w);
  SendCoinsFromModuleToModule _ _ _ w := (None, w); MintCoins _ _ w := (None, w); BurnCoins _ _ w := (None, w);
  GetBalance w _ d := amount_of d (ds_balances w); GetSupply w d := amount_of d (ds_balances w);
  GetDenomMetaData _ _ := None |}.
#[local] Instance distr_balances : BankBalances Distr := {| GetAllBalances w _ := ds_balances w |}.
#[local] Instance distr_mint : MintParams Distr := {| MintDenom _ := Ok "ugraviton" |}.
#[local] Instance distr_admin : DistrAdmin Distr := {|
  FeePool_Get w := Ok (ds_pool w);
  FeePool_Set p w := (None, mkDistr p (ds_rewards w) (ds_balances w));
  OutstandingRewards := ds_rewards; DistrInvariants _ := false |}.

Definition grav (x : Z) : list Coin := [mkCoin "ugraviton" x].
Definition airdropped : Distr := mkDistr (grav (5 * dec_one)) [grav (2 * dec_one)] (grav 9).

Lemma grav_ok x : 0 < x → coins_ok (grav x).
Proof. intros Hx. by apply coins_ok_one. Qed.

Lemma airdropped_ok : distr_ok airdropped "ugraviton" (grav (5 * dec_one)).
Proof.
  split; try done; try (by apply grav_ok).
  - by repeat constructor.
  - intros d. apply amount_of_nonneg. by apply grav_ok.
  - intros d. unfold distr_balance. cbn [GetBalance distr_bank airdropped ds_balances]. unfold grav.
    rewrite amount_of_singleton. cbn [Denom Amount]. case_decide; unfold dec_one, dec_max; lia.
  - intros d. unfold rewards. cbn [OutstandingRewards distr_admin airdropped ds_rewards sumZ foldr]. unfold grav.
    rewrite !amount_of_singleton. cbn [Denom Amount]. case_decide; unfold dec_one, dec_max; lia.
Qed.

Lemma fixDistributionPoolBalance_spec_witness :
  ∃ w', fixDistributionPoolBalance airdropped = Ret tt w' ∧ amount_of "ugraviton" (ds_pool w') = 7 * dec_one.
Proof.
  destruct (fixDistributionPoolBalance_spec airdropped "ugraviton" _ airdropped_ok) as (_ & _ & _ & Hfix).
  destruct Hfix as (p' & _ & Hb & E).
  - intros d Hne. unfold balanced, distr_balance, rewards, grav.
    cbn [GetBalance distr_bank OutstandingRewards distr_admin airdropped ds_balances ds_rewards sumZ foldr]. unfold grav.
    rewrite !amount_of_singleton. by rewrite !decide_False.
  - by vm_compute.
  - eexists. split; [exact E|]. specialize (Hb "ugraviton"). unfold balanced in Hb. cbn [ds_pool].
    change (distr_balance airdropped "ugraviton") with 9 in Hb.
    change (rewards airdropped "ugraviton") with (2 * dec_one) in Hb. lia.
Defined.
